(* ===== verification/_CoqProject ===== *)
-Q . S2P
Prelude.v
KList.v
Buddy.v
Kstring.v
Printf.v
Kalloc.v
Pmem.v
PageAlloc.v
PageTable.v
Vma.v
Fault.v
Radix.v
Gang.v
Hash.v
Spinlock.v
Sched.v
Cpus.v
Sema.v
Pipe.v
Futex.v
Signal.v
Dirent.v
Fat.v
Filemap.v
Pagecache.v
Fileio.v
Writeback.v
