(* ===== verification/Prelude.v ===== *)
(** * A verification library for the kernel

    The repository holds a RISC-V kernel written in C: the kernel proper under
    [src/] and [include/], user programs, C libraries and tools around it.  This
    library models the parts of the kernel that carry its own logic - memory, the
    containers everything else is built from, scheduling and synchronisation,
    pipes, signals, the file system's directories and files - and proves what makes them correct.  The definitions are executable
    and follow the code routine by routine, under the names of the code.

    ** How the parts fit together

    A C routine is a function to [outcome] (below): it returns a value and a
    new state, panics, or does something C gives no meaning to.  A component's
    state is a record of the objects it owns; memory it shares with others is an
    argument (byte memory, a store of list links, the page allocator).  Where
    components meet there is a class of operations and a class of laws: the clients are
    proved against the laws, and the implementation is an instance of them.

      Prelude    outcomes, machine integers, page rounding, aligned blocks
      KList      include/lib/list.h: intrusive lists; class [ListHeap], [IdleNodes]
      Kstring    src/lib/string.c: byte memory and the string routines
      Printf     src/lib/sprintf.c, printf.c: formatted output  (over Kstring; classes [OutM], [Room], [PrinterLoop])
      Pmem       64-bit words in byte memory
      Buddy      src/mm/buddy.c: one pool of pages              (over ListHeap)
      Kalloc     src/mm/kalloc.c: shared blocks over the pools  (over Buddy; class [Reclaimer])
      PageAlloc  the allocator as its clients see it; class [PageAllocOk], discharged by Kalloc
      PageTable  src/mm/vm.c: Sv39 tables                       (over PageAlloc, Pmem)
      Vma        src/mm/vma.c, mmap.c: areas                    (over ListHeap; class [PtOps], discharged by PageTable)
      Fault      src/mm/pagefault.c, mm.c, src/proc/pcb_mm.c    (over Vma, PageTable, Kstring)
      Radix      src/lib/radix-tree.c: the page cache's tree    (over PageAlloc)
      Gang       the gang lookup of Radix without a limit, as a list of items
      Hash       src/lib/hash.c: the kernel's tables            (over ListHeap, PageAlloc)
      Spinlock   src/atomic/spinlock.c: the accesses of any number of cpus
      Sched      src/lib/queue.c, src/proc/sched.c, src/atomic/cond.c   (over ListHeap, IdleNodes)
      Cpus       the routines of Sched on any number of cpus, as a step relation
      Sema       src/atomic/semaphore.c                         (over Cpus)
      Pipe       src/ipc/pipe.c                                 (class [Semaphores], discharged by Sema)
      Futex      src/atomic/futex.c                             (over Hash, Cpus, PageAlloc)
      Signal     src/ipc/signal.c and its callers               (over ListHeap, PageAlloc, Sched; class [UserMem])
      Dirent     src/fs/fat32/fat32_inode.c, fat32_stack.c: names and entries in directories
      Fat        src/fs/fat32/fat32_disk.c, fat32_inode.c: cluster chains and files   (over PageAlloc)
      Filemap    src/mm/filemap.c, src/fs/mpage.c, submit_bio, fat32_inode_read and fat32_inode_write:
                 definitions            (over Radix, Fat, PageAlloc; classes [DiskOk], [CopyOk])
      Pagecache  the invariant of a file with its cached pages, and what every step does to it
      Fileio     reading and writing a file through the cache: the theorems
      Writeback  the dirty pages go to the disk, and survive there

    ** How the state corresponds to the code

    A pointer to an object of a table or an array is the index or address of the object; NULL is
    [None] (or 0 where the code computes with it).  Integers are [Z] with the
    wrap-around of their C type written out ([u64], [u32], [s32]); signed overflow and
    shifts beyond the width are [Undef] where the code can reach them.  A
    [struct list_head] lives in a store of next/prev pairs; byte memory is a
    finite map.  Code that holds a lock is one step; what matters between two
    critical sections is modelled as separate steps, and [Spinlock] proves that the
    locks do exclude each other.

    ** What the theorems show

    - Lists, strings, hash tables, the radix tree and page tables are refinements:
      a session of operations computes the same as on mathematical lists and
      maps ([KList.list_session_refines], [Hash.hash_session_refines],
      [Radix.radix_insert_spec], [PageTable.mappages_spec]).
    - Formatted output: [sprintf] and [printf] compute the same reference function of the format
      and its arguments, numbers are read back as printed, and [snprintf] stays in its buffer unless
      it prints a number ([Printf]).
    - The allocators hand out aligned, disjoint blocks, merge and split
      without loss and count exactly ([Buddy], [Kalloc]).
    - Virtual memory: the areas stay well-formed and disjoint under mapping, splitting, unmapping
      and protection, although unmapping a part of an area drops the pages of all of it
      ([Vma.vmspace_unmap_partial]); a copy-on-write fault gives the faulting address space a private
      writable copy, or fails for want of a page and changes nothing ([Vma], [Fault]).
    - Locks: at most one cpu is inside ([Spinlock]).  Scheduling: cpus, signallers - one
      step for each section of [cond_signal] - and timers that fire at any thread act in any order in which no timer strikes
      a thread that a signaller has taken out of its queue and not woken yet.  In every state reached each thread is in the
      queues its state says, the calls that do not return are those [Cpus.stuck] lists (a timer for a thread
      that is not asleep, a signaller whose waiters timers have woken), and no
      runnable thread starves ([Cpus]).  In such runs, and when no waiter is killed, semaphores lose no
      unit ([Sema]); pipes lose no byte, futexes wake in order ([Pipe], [Futex]).
    - Signals: a sequence of calls keeps the queues and threads well-formed up to a SIGCHLD
      whose [waitpid], any function here, does not return; a
      handler's entry and return give the thread back, and a signal to a group leaves no
      thread of it asleep ([Signal]).
    - Directories: long names survive the way to the disk and back, a name is found exactly when
      it is there, and creating a file, or deleting one with long entries, disturbs no other, as long as the
      directory does not grow into a cluster with old contents ([Dirent.stale_slot_found]) and its
      reads and writes are complete ([Dirent]).
    - Files: a range of a file maps to exactly its sectors; growing and truncating a file keep
      the bit map, the table and the other files' chains consistent ([Fat]).  A read gives the bytes of
      the cache or else of the disk, as many as asked for unless it comes to a page for which it counts what is
      left wrongly; a write puts its bytes into the cache, up to a page for which it has to append clusters; and a
      read after a write gives back what was written ([Fileio]).  Write-back puts the dirty pages into
      the file's sectors and nothing else, so what was written survives the loss of the cache ([Writeback]).
    - Out of memory is an outcome of its own: where a routine that allocates may stop, the theorem says
      that one of its first allocations failed, and how many it makes at most ([PageAlloc.dry],
      [PageAlloc.uses]).
    - Where the code does not do what it means to, there is a theorem or a lemma
      that exhibits it (for example [Cpus.signal_timeout_race],
      [Vma.vmspace_unmap_partial], [Radix.radix_insert_overflow], [Dirent.stale_slot_found],
      [Fileio.read_stops_short], [Fileio.write_loses_data]).

    Every theorem with hypotheses has a witness, a concrete run on which they hold.

    ** Fuel and bounds

    Loops whose length is known are structural in it.  Loops over lists, chains of areas, bytes up to a NUL,
    ranges of pages and waiting queues take fuel; the fuel each routine passes is computed
    from its state or arguments and the theorems conclude [Done], so it is enough.
    Bounds are the code's: 251904 pages of memory, 14 buddy orders, 512 entries
    per table, 64 slots per radix node, 512 bytes per pipe, 32-bit counters.

    ** Not modelled

    - The context switch, traps, system-call glue and assembly ([src/kernel]):
      machine code and argument decoding around the routines modelled here.
    - Device drivers and platform code ([platform], [driver]): input and output.
    - Of the file system ([src/fs]) what [Dirent] and [Fat] do not name: inode and file
      tables, path walks, mounting, the daemon that calls the write-back.  Of
      the clusters that a write-back appends behind the end of a file there is the definition
      ([Fat.fat32_get_block]) and the theorem for one ([Fat.cursor_appends]); [Writeback] asks for a file
      whose clusters cover its dirty pages, because the search of the bit map shifts an [int] by 31 or
      more as soon as the free cluster is the 32nd of its word ([Fat.bitmap_init_undefined]).
    - Shared memory, sockets, timers, process creation and
      exit ([src/ipc], [src/proc]): not yet modelled.
    - [exec.c] (ELF loading), the console lock, [kcsan.c], debugging output.
    - Everything outside the kernel: [apps], [user], [oscomp_user], [busybox],
      [support], [bootloader], scripts and documentation, most of it third-party. *)

From stdpp Require Import base gmap sets list fin_maps.
From Stdlib Require Import ZArith Lia.
#[local] Open Scope Z_scope.

(** ** Outcomes

    A kernel routine either returns ([Done]), stops the machine ([Panic]: a
    failed [ASSERT], a call of [panic]), or does something the C language gives
    no meaning to ([Undef]: a NULL or wild pointer is dereferenced, a linked
    node is linked twice).  [NoFuel] is only produced by the fuel of a model's
    loop; the theorems of the library show that it never is. *)

Inductive outcome (A : Type) : Type :=
  | Done (a : A)
  | Panic
  | Undef
  | NoFuel.
Arguments Done {_} _.
Arguments Panic {_}.
Arguments Undef {_}.
Arguments NoFuel {_}.

#[export] Instance outcome_ret : MRet outcome := fun A a => Done a.
#[export] Instance outcome_bind : MBind outcome := fun A B f m =>
  match m with
  | Done a => f a
  | Panic => Panic
  | Undef => Undef
  | NoFuel => NoFuel
  end.
#[export] Instance outcome_fmap : FMap outcome := fun A B f m =>
  match m with
  | Done a => Done (f a)
  | Panic => Panic
  | Undef => Undef
  | NoFuel => NoFuel
  end.

(** [ASSERT(b)] of [include/debug.h]. *)
Definition ASSERT (b : bool) : outcome unit := if b then Done tt else Panic.

(** Dereferencing a pointer: the object exists, or the access has no meaning. *)
Definition deref {A} (o : option A) : outcome A :=
  match o with Some a => Done a | None => Undef end.

Lemma bind_Done {A B} (m : outcome A) (f : A -> outcome B) b :
  (m ≫= f) = Done b <-> exists a, m = Done a /\ f a = Done b.
Proof.
  destruct m; cbn; split; intros H.
  all: try (destruct H as (x & H1 & H2)); try congruence; eauto.
Qed.

#[export] Instance Done_inj {A} : Inj (=) (=) (@Done A).
Proof. intros x y H. by injection H. Qed.

Lemma ASSERT_Done b u : ASSERT b = Done u <-> b = true.
Proof. destruct b, u; cbn; split; congruence. Qed.

Lemma deref_Done {A} (o : option A) a : deref o = Done a <-> o = Some a.
Proof. destruct o; cbn; split; congruence. Qed.

(** The result of a run that returned, to be computed by the checker only as far
    as it is looked at. *)
Definition returned {A} (m : outcome A) : bool := match m with Done _ => true | _ => false end.
Definition result {A} (d : A) (m : outcome A) : A := match m with Done a => a | _ => d end.

Lemma result_Done {A} (d : A) m : returned m = true -> m = Done (result d m).
Proof. by destruct m. Qed.

(** Run the outcome monad one bind further without unfolding the operations. *)
Ltac ocbn := cbn [mbind outcome_bind mret outcome_ret fmap outcome_fmap deref ASSERT].
Ltac ocbn_in H :=
  cbn [mbind outcome_bind mret outcome_ret fmap outcome_fmap deref ASSERT] in H.

(** Take apart the hypotheses that say a routine returned. *)
Ltac invert_outcome := repeat match goal with
  | H : (_ ≫= _) = Done _ |- _ => apply bind_Done in H as (? & ? & H)
  | H : deref _ = Done _ |- _ => apply deref_Done in H
  | H : ASSERT _ = Done _ |- _ => apply ASSERT_Done in H
  | H : Done _ = Done _ |- _ => apply (inj Done) in H; subst
  end.

(** ** Lists *)

Lemma elem_of_mid {A} (x m : A) l1 l2 : m ∈ l1 ++ x :: l2 <-> m = x \/ m ∈ l1 ++ l2.
Proof. rewrite !elem_of_app, elem_of_cons. tauto. Qed.

Lemma NoDup_mid {A} (x : A) l1 l2 :
  NoDup (l1 ++ x :: l2) <-> x ∉ l1 ++ l2 /\ NoDup (l1 ++ l2).
Proof.
  rewrite !NoDup_app, NoDup_cons, elem_of_app.
  split.
  - intros (? & Hd & ? & ?). split_and!; auto.
    + intros [Hx|]; [|done]. by apply (Hd x Hx); left.
    + intros y Hy Hy2. by apply (Hd y Hy); right.
  - intros (Hx & ? & Hd & ?). split_and!; auto.
    intros y Hy [->|Hy2]%elem_of_cons; [tauto|]. by eapply Hd.
Qed.

Lemma filter_all {A} (P : A -> Prop) `{!forall x, Decision (P x)} (l : list A) :
  (forall x, x ∈ l -> P x) -> filter P l = l.
Proof.
  induction l as [|x l IH]; intros Hl; [done|].
  rewrite filter_cons_True by (apply Hl; by left). f_equal.
  apply IH. intros y Hy. apply Hl. by right.
Qed.

(** ** Machine integers and pages (include/common.h, include/lib/riscv.h) *)

Definition u64 (x : Z) : Z := x mod 2 ^ 64.
Definition u32 (x : Z) : Z := x mod 2 ^ 32.
Definition u16 (x : Z) : Z := x mod 2 ^ 16.
Definition u8 (x : Z) : Z := x mod 2 ^ 8.

(** The value of the low 32 bits read as a C [int]. *)
Definition s32 (x : Z) : Z :=
  let y := x mod 2 ^ 32 in if y <? 2 ^ 31 then y else y - 2 ^ 32.

Definition PGSIZE : Z := 4096.
Definition SUPERPGSIZE : Z := PGSIZE * (PGSIZE / 8).

Definition PGROUNDUP (sz : Z) : Z := Z.land (u64 (sz + PGSIZE - 1)) (Z.lnot (PGSIZE - 1)).
Definition PGROUNDDOWN (a : Z) : Z := Z.land a (Z.lnot (PGSIZE - 1)).
Definition SUPERPG_ROUNDUP (sz : Z) : Z :=
  Z.land (u64 (sz + SUPERPGSIZE - 1)) (Z.lnot (SUPERPGSIZE - 1)).
Definition SUPERPG_DOWN (a : Z) : Z := Z.land a (Z.lnot (SUPERPGSIZE - 1)).

Lemma u64_small x : 0 <= x < 2 ^ 64 -> u64 x = x.
Proof. apply Z.mod_small. Qed.
Lemma u64_range x : 0 <= u64 x < 2 ^ 64.
Proof. by apply Z.mod_pos_bound. Qed.
Lemma u32_small x : 0 <= x < 2 ^ 32 -> u32 x = x.
Proof. apply Z.mod_small. Qed.
Lemma u32_range x : 0 <= u32 x < 2 ^ 32.
Proof. by apply Z.mod_pos_bound. Qed.
Lemma u16_small x : 0 <= x < 2 ^ 16 -> u16 x = x.
Proof. apply Z.mod_small. Qed.
Lemma u16_range x : 0 <= u16 x < 2 ^ 16.
Proof. by apply Z.mod_pos_bound. Qed.
Lemma u8_small x : 0 <= x < 2 ^ 8 -> u8 x = x.
Proof. apply Z.mod_small. Qed.
Lemma u8_range x : 0 <= u8 x < 2 ^ 8.
Proof. by apply Z.mod_pos_bound. Qed.
Lemma s32_small x : - 2 ^ 31 <= x < 2 ^ 31 -> s32 x = x.
Proof.
  intros Hx. unfold s32. destruct (Z.lt_ge_cases x 0).
  - replace (x mod 2 ^ 32) with (x + 2 ^ 32).
    + destruct (Z.ltb_spec (x + 2 ^ 32) (2 ^ 31)); lia.
    + rewrite <- (Z.mod_small (x + 2 ^ 32) (2 ^ 32)) by lia.
      rewrite <- (Z.mul_1_l (2 ^ 32)) at 1. by rewrite Z.mod_add by lia.
  - rewrite Z.mod_small by lia. destruct (Z.ltb_spec x (2 ^ 31)); lia.
Qed.

(** Integers in range keep their value; [autorewrite with machine] drops the wrap-around. *)
Create HintDb machine.
#[export] Hint Resolve u64_range u32_range u16_range u8_range : machine.
#[export] Hint Rewrite u64_small u32_small u16_small u8_small s32_small using lia : machine.

(** A word as its low and its high bits. *)
Lemma lor_shiftl_add a b n : 0 <= n -> 0 <= a < 2 ^ n -> Z.lor a (Z.shiftl b n) = a + b * 2 ^ n.
Proof.
  intros Hn Ha. assert (Z.land a (Z.shiftl b n) = 0) as H0.
  { apply Z.bits_inj'. intros i Hi. rewrite Z.land_spec, Z.bits_0, Z.shiftl_spec by done.
    destruct (Z.lt_ge_cases i n); [rewrite (Z.testbit_neg_r b) by lia; apply andb_false_r|].
    rewrite <- (Z.mod_small a (2 ^ n)) by done. by rewrite Z.mod_pow2_bits_high. }
  rewrite <- Z.lxor_lor, <- Z.add_nocarry_lxor by done. by rewrite Z.shiftl_mul_pow2.
Qed.

Lemma split_word w n : 0 <= n -> 0 <= w -> Z.lor (Z.land w (Z.ones n)) (Z.shiftl (Z.shiftr w n) n) = w.
Proof.
  intros Hn Hw. pose proof (Z.pow_pos_nonneg 2 n ltac:(lia) Hn). rewrite Z.land_ones by done. rewrite lor_shiftl_add by (done || by apply Z.mod_pos_bound).
  rewrite Z.shiftr_div_pow2 by done. pose proof (Z.div_mod w (2 ^ n) ltac:(lia)). lia.
Qed.

(** Clearing the low [n] bits. *)
Lemma land_lnot_ones a n : 0 <= n -> Z.land a (Z.lnot (Z.ones n)) = a - a mod 2 ^ n.
Proof.
  intros Hn. rewrite <- Z.ldiff_land, Z.ldiff_ones_r by done.
  rewrite Z.shiftl_mul_pow2, Z.shiftr_div_pow2 by done.
  pose proof (Z.pow_pos_nonneg 2 n ltac:(lia) Hn).
  rewrite Z.mod_eq by lia. ring.
Qed.

Lemma PGROUNDDOWN_alt a : PGROUNDDOWN a = a - a mod 4096.
Proof. apply (land_lnot_ones a 12). lia. Qed.
Lemma PGROUNDUP_alt a : PGROUNDUP a = u64 (a + 4095) - u64 (a + 4095) mod 4096.
Proof.
  unfold PGROUNDUP. replace (a + PGSIZE - 1) with (a + 4095) by (change PGSIZE with 4096; lia).
  apply (land_lnot_ones _ 12). lia.
Qed.
Lemma SUPERPG_DOWN_alt a : SUPERPG_DOWN a = a - a mod 2 ^ 21.
Proof. apply (land_lnot_ones a 21). lia. Qed.
Lemma SUPERPG_ROUNDUP_alt a :
  SUPERPG_ROUNDUP a = u64 (a + (2 ^ 21 - 1)) - u64 (a + (2 ^ 21 - 1)) mod 2 ^ 21.
Proof.
  unfold SUPERPG_ROUNDUP.
  replace (a + SUPERPGSIZE - 1) with (a + (2 ^ 21 - 1)) by (change SUPERPGSIZE with (2 ^ 21); lia).
  apply (land_lnot_ones _ 21). lia.
Qed.

(** ** Aligned power-of-two blocks *)

Lemma pow2_pos k : 0 <= k -> 0 < 2 ^ k.
Proof. intros. by apply Z.pow_pos_nonneg. Qed.

Lemma lxor_1 q : Z.lxor q 1 = if Z.even q then q + 1 else q - 1.
Proof. destruct q as [|[p|p|]|[p|p|]]; try reflexivity; destruct p; reflexivity. Qed.

Lemma lxor_scale i k m :
  0 <= k -> 0 <= m -> Z.lxor (i * 2 ^ m) (2 ^ (k + m)) = Z.lxor i (2 ^ k) * 2 ^ m.
Proof.
  intros Hk Hm. rewrite Z.pow_add_r by done.
  rewrite <- !Z.shiftl_mul_pow2 by done. by rewrite Z.shiftl_lxor.
Qed.

(** The buddy of an aligned block is the other half of the block twice as big. *)
Lemma buddy_cases i k :
  0 <= k -> (2 ^ k | i) ->
  (Z.lxor i (2 ^ k) = i + 2 ^ k /\ (2 ^ (k + 1) | i)) \/
  (Z.lxor i (2 ^ k) = i - 2 ^ k /\ (2 ^ (k + 1) | i - 2 ^ k)).
Proof.
  intros Hk [q ->].
  assert (Z.lxor (q * 2 ^ k) (2 ^ k) = Z.lxor q 1 * 2 ^ k) as ->.
  { rewrite <- (Z.mul_1_l (2 ^ k)) at 2. rewrite <- !Z.shiftl_mul_pow2 by lia.
    by rewrite <- Z.shiftl_lxor. }
  rewrite lxor_1, Z.pow_add_r by lia. change (2 ^ 1) with 2.
  destruct (Z.even q) eqn:E.
  - left. split; [ring|]. apply Z.even_spec in E as [m ->]. exists m. ring.
  - right. split; [ring|]. rewrite <- Z.negb_odd in E.
    apply negb_false_iff, Z.odd_spec in E as [m ->]. exists m. ring.
Qed.

Lemma lxor_involutive i k : Z.lxor (Z.lxor i k) k = i.
Proof. by rewrite Z.lxor_assoc, Z.lxor_nilpotent, Z.lxor_0_r. Qed.

(** Two aligned blocks that meet are nested. *)
Lemma blocks_nested i k j m :
  0 <= k <= m -> (2 ^ k | i) -> (2 ^ m | j) ->
  i < j + 2 ^ m -> j < i + 2 ^ k ->
  j <= i /\ i + 2 ^ k <= j + 2 ^ m.
Proof.
  intros Hkm [a ->] [b ->] H1 H2.
  replace (2 ^ m) with (2 ^ (m - k) * 2 ^ k) in *
    by (rewrite <- Z.pow_add_r by lia; f_equal; lia).
  pose proof (pow2_pos k ltac:(lia)). pose proof (pow2_pos (m - k) ltac:(lia)).
  set (d := 2 ^ (m - k)) in *. set (P := 2 ^ k) in *.
  assert (a < b * d + d) by nia. assert (b * d < a + 1) by nia. nia.
Qed.

Lemma pow2_divide k m : 0 <= k <= m -> (2 ^ k | 2 ^ m).
Proof. intros. exists (2 ^ (m - k)). rewrite <- Z.pow_add_r by lia. f_equal; lia. Qed.
