(* ===== verification/KList.v ===== *)
(** * KList: the intrusive doubly linked lists of [include/lib/list.h]

    The memory holding every [struct list_head] of a subsystem is one store
    from pointers to [next]/[prev] pairs.  A pointer is either a list head or
    the list node embedded in an object.  Every macro and inline function of
    the header that changes links is a function on that store; reading through
    NULL or through a pointer that is no list node gives [Undef].

    [lists_rep s L] says that the store holds exactly the circular lists [L]
    (head by head), with no node in two places.  The theorems of the file show
    that each operation, on such a store, computes the corresponding operation
    on [L]: this is what the clients of the header rely on, collected in the
    class [ListHeap] at the end of the file. *)

From stdpp Require Import base gmap sets list fin_maps.
From Stdlib Require Import ZArith Lia.
From S2P Require Import Prelude.

Inductive lptr (H N : Type) : Type :=
  | Head (h : H)
  | Node (n : N).
Arguments Head {_ _} _.
Arguments Node {_ _} _.

#[export] Instance lptr_eq_dec {H N} `{EqDecision H, EqDecision N} :
  EqDecision (lptr H N).
Proof. solve_decision. Defined.

#[export] Instance lptr_countable {H N} `{Countable H, Countable N} :
  Countable (lptr H N).
Proof.
  refine (inj_countable'
    (fun p : lptr H N => match p with Head h => inl h | Node n => inr n end)
    (fun x : H + N => match x with inl h => Head h | inr n => Node n end) _).
  by intros [].
Defined.

#[export] Instance Head_inj {H N} : Inj (=) (=) (@Head H N).
Proof. by intros ?? [= ->]. Qed.
#[export] Instance Node_inj {H N} : Inj (=) (=) (@Node H N).
Proof. by intros ?? [= ->]. Qed.

(** [struct list_head]; [None] is NULL. *)
Record list_head (P : Type) := ListHead { next : option P; prev : option P }.
Arguments ListHead {_} _ _.
Arguments next {_} _.
Arguments prev {_} _.

Section ops.
Context {H N : Type} `{Countable H, Countable N}.
Local Abbreviation ptr := (lptr H N).
Local Abbreviation store := (gmap ptr (list_head ptr)).

(** Reading [p->next] and [p->prev] where [p] itself may be NULL. *)
Definition get_next (s : store) (p : option ptr) : outcome (option ptr) :=
  q ← deref p; next <$> deref (s !! q).
Definition get_prev (s : store) (p : option ptr) : outcome (option ptr) :=
  q ← deref p; prev <$> deref (s !! q).

(** Writing [p->next = v] and [p->prev = v]. *)
Definition set_next (p v : option ptr) (s : store) : outcome store :=
  q ← deref p; n ← deref (s !! q);
  Done (<[q := ListHead v (prev n)]> s).
Definition set_prev (p v : option ptr) (s : store) : outcome store :=
  q ← deref p; n ← deref (s !! q);
  Done (<[q := ListHead (next n) v]> s).

Definition INIT_LIST_HEAD (l : ptr) (s : store) : outcome store :=
  s ← set_next (Some l) (Some l) s;
  set_prev (Some l) (Some l) s.

Definition __list_add (pnew prev next : option ptr) (s : store) : outcome store :=
  s ← set_prev next pnew s;
  s ← set_next pnew next s;
  s ← set_prev pnew prev s;
  set_next prev pnew s.

Definition list_add (pnew head : ptr) (s : store) : outcome store :=
  n ← get_next s (Some head);
  __list_add (Some pnew) (Some head) n s.

Definition list_add_tail (pnew head : ptr) (s : store) : outcome store :=
  p ← get_prev s (Some head);
  __list_add (Some pnew) p (Some head) s.

Definition __list_del (prev next : option ptr) (s : store) : outcome store :=
  s ← set_prev next prev s;
  set_next prev next s.

Definition __list_del_entry (entry : ptr) (s : store) : outcome store :=
  p ← get_prev s (Some entry);
  n ← get_next s (Some entry);
  __list_del p n s.

Definition list_del (entry : ptr) (s : store) : outcome store :=
  s ← __list_del_entry entry s;
  s ← set_next (Some entry) None s;
  set_prev (Some entry) None s.

Definition list_del_reinit (entry : ptr) (s : store) : outcome store :=
  s ← list_del entry s;
  INIT_LIST_HEAD entry s.

Definition list_move (l head : ptr) (s : store) : outcome store :=
  s ← __list_del_entry l s;
  list_add l head s.

Definition list_move_tail (l head : ptr) (s : store) : outcome store :=
  s ← __list_del_entry l s;
  list_add_tail l head s.

Definition list_empty (head : ptr) (s : store) : outcome bool :=
  n ← get_next s (Some head);
  Done (bool_decide (n = Some head)).

Definition __list_splice (l head : ptr) (s : store) : outcome store :=
  first ← get_next s (Some l);
  last ← get_prev s (Some l);
  at_ ← get_next s (Some head);
  s ← set_prev first (Some head) s;
  s ← set_next (Some head) first s;
  s ← set_next last at_ s;
  set_prev at_ last s.

Definition list_splice (l head : ptr) (s : store) : outcome store :=
  e ← list_empty l s;
  if (e : bool) then Done s else __list_splice l head s.

Definition list_join_given_first (first_new first_old : option ptr) (s : store)
    : outcome store :=
  match first_new, first_old with
  | Some first, Some old =>
      last ← get_prev s (Some first);
      old_prev ← get_prev s (Some old);
      s ← set_next old_prev (Some first) s;
      old_prev ← get_prev s (Some old);
      s ← set_prev (Some first) old_prev s;
      s ← set_next last (Some old) s;
      set_prev (Some old) last s
  | _, _ => Done s
  end.

(** [list_first_entry(head, ...)]: the node behind [head->next].  The macro
    expects a non empty list; on an empty one it computes the address of a
    structure around the head itself, which has no meaning. *)
Definition list_first_entry (head : ptr) (s : store) : outcome N :=
  n ← get_next s (Some head);
  match n with Some (Node x) => Done x | _ => Undef end.

(** [list_for_each_entry]: the nodes met from [pos] on until [head] comes
    back; [fuel] bounds the number of nodes visited. *)
Fixpoint list_nodes_from (fuel : nat) (head : ptr) (pos : option ptr) (s : store)
    : outcome (list N) :=
  match fuel with
  | O => NoFuel
  | S f =>
      if bool_decide (pos = Some head) then Done []
      else match pos with
           | Some (Node x) =>
               n ← get_next s pos;
               l ← list_nodes_from f head n s;
               Done (x :: l)
           | _ => Undef
           end
  end.

Definition list_for_each (head : ptr) (s : store) : outcome (list N) :=
  n ← get_next s (Some head);
  list_nodes_from (S (size s)) head n s.
End ops.

(** ** Links and chains *)

Section theory.
Context {H N : Type} `{Countable H, Countable N}.
Local Abbreviation ptr := (lptr H N).
Local Abbreviation store := (gmap ptr (list_head ptr)).
Implicit Types (s : store) (a b x y : ptr) (l : list ptr).

Definition nx s a : option (option ptr) := next <$> s !! a.
Definition pv s a : option (option ptr) := prev <$> s !! a.

(** [chain s a l b]: following the links from [a] one meets exactly [l] and
    then [b], and the [prev] links lead back the same way. *)
Fixpoint chain s a l b : Prop :=
  match l with
  | [] => nx s a = Some (Some b) /\ pv s b = Some (Some a)
  | x :: l' => nx s a = Some (Some x) /\ pv s x = Some (Some a) /\ chain s x l' b
  end.

Definition lists_rep (HS : gset H) (XS : gset N) s (L : gmap H (list N)) : Prop :=
  (forall h, h ∈ HS -> is_Some (s !! Head h)) /\
  (forall n, n ∈ XS -> is_Some (s !! Node n)) /\
  (forall h (l : list N), L !! h = Some l ->
     h ∈ HS /\ NoDup l /\ (forall n : N, n ∈ l -> n ∈ XS) /\
     chain s (Head h) (Node <$> l) (Head h)) /\
  (forall h1 h2 (l1 l2 : list N) (n : N), L !! h1 = Some l1 -> L !! h2 = Some l2 ->
     n ∈ l1 -> n ∈ l2 -> h1 = h2).

(** What a write does, link by link. *)
Definition upd (s s' : store) (fn fp : ptr -> option (option ptr)) : Prop :=
  (forall y, is_Some (s' !! y) <-> is_Some (s !! y)) /\
  (forall y, nx s' y = fn y) /\ (forall y, pv s' y = fp y).

Lemma nx_dom s a v : nx s a = Some v -> is_Some (s !! a).
Proof. unfold nx. destruct (s !! a); cbn; [eauto | congruence]. Qed.
Lemma pv_dom s a v : pv s a = Some v -> is_Some (s !! a).
Proof. unfold pv. destruct (s !! a); cbn; [eauto | congruence]. Qed.

Lemma get_next_nx s a v : nx s a = Some v -> get_next s (Some a) = Done v.
Proof. unfold nx, get_next; cbn. destruct (s !! a); cbn; congruence. Qed.
Lemma get_prev_pv s a v : pv s a = Some v -> get_prev s (Some a) = Done v.
Proof. unfold pv, get_prev; cbn. destruct (s !! a); cbn; congruence. Qed.

Lemma insert_is_Some s q v y :
  is_Some (s !! q) -> is_Some (<[q := v]> s !! y) <-> is_Some (s !! y).
Proof.
  intros Hq. destruct (decide (q = y)) as [->|Hne].
  - rewrite lookup_insert_eq. split; eauto.
  - by rewrite lookup_insert_ne.
Qed.

Lemma set_next_upd s q v :
  is_Some (s !! q) ->
  exists s', set_next (Some q) v s = Done s' /\
    upd s s' (fun y => if decide (y = q) then Some v else nx s y) (pv s).
Proof.
  intros Hq. pose proof Hq as [n Hn]. unfold set_next. cbn. rewrite Hn. cbn.
  eexists; split; [reflexivity|]. split; [intros y; by apply insert_is_Some|].
  unfold nx, pv. split; intros y; destruct (decide (y = q)) as [->|Hne].
  - by rewrite lookup_insert_eq.
  - by rewrite lookup_insert_ne by congruence.
  - by rewrite lookup_insert_eq, Hn.
  - by rewrite lookup_insert_ne by congruence.
Qed.

Lemma set_prev_upd s q v :
  is_Some (s !! q) ->
  exists s', set_prev (Some q) v s = Done s' /\
    upd s s' (nx s) (fun y => if decide (y = q) then Some v else pv s y).
Proof.
  intros Hq. pose proof Hq as [n Hn]. unfold set_prev. cbn. rewrite Hn. cbn.
  eexists; split; [reflexivity|]. split; [intros y; by apply insert_is_Some|].
  unfold nx, pv. split; intros y; destruct (decide (y = q)) as [->|Hne].
  - by rewrite lookup_insert_eq, Hn.
  - by rewrite lookup_insert_ne by congruence.
  - by rewrite lookup_insert_eq.
  - by rewrite lookup_insert_ne by congruence.
Qed.

Ltac step_set :=
  match goal with
  | |- context [set_next (Some ?q) ?v ?s] =>
      let s' := fresh "s" in let E := fresh "E" in let U := fresh "U" in
      destruct (set_next_upd s q v) as (s' & E & U);
      [ by repeat match goal with
             | U : upd ?s1 ?s2 _ _ |- is_Some (?s2 !! _) => apply (proj1 U)
             end
      | rewrite E; ocbn ]
  | |- context [set_prev (Some ?q) ?v ?s] =>
      let s' := fresh "s" in let E := fresh "E" in let U := fresh "U" in
      destruct (set_prev_upd s q v) as (s' & E & U);
      [ by repeat match goal with
             | U : upd ?s1 ?s2 _ _ |- is_Some (?s2 !! _) => apply (proj1 U)
             end
      | rewrite E; ocbn ]
  end.

Ltac solve_upd :=
  repeat match goal with
  | U : upd _ _ _ _ |- _ => destruct U as (? & ? & ?)
  end;
  split_and!; intros y;
  [ by repeat (etrans; [eauto|])
  | repeat match goal with E : forall _, nx _ _ = _ |- _ => rewrite E; clear E end; done
  | repeat match goal with E : forall _, pv _ _ = _ |- _ => rewrite E; clear E end; done ].

Lemma INIT_LIST_HEAD_upd s q :
  is_Some (s !! q) ->
  exists s', INIT_LIST_HEAD q s = Done s' /\
    upd s s' (fun y => if decide (y = q) then Some (Some q) else nx s y)
             (fun y => if decide (y = q) then Some (Some q) else pv s y).
Proof.
  intros Hq. unfold INIT_LIST_HEAD.
  step_set. step_set. eexists; split; [reflexivity|]. solve_upd.
Qed.

Lemma __list_add_upd s x p n :
  is_Some (s !! x) -> is_Some (s !! p) -> is_Some (s !! n) ->
  exists s', __list_add (Some x) (Some p) (Some n) s = Done s' /\
    upd s s'
      (fun y => if decide (y = p) then Some (Some x)
                else if decide (y = x) then Some (Some n) else nx s y)
      (fun y => if decide (y = x) then Some (Some p)
                else if decide (y = n) then Some (Some x) else pv s y).
Proof.
  intros Hx Hp Hn. unfold __list_add.
  step_set. step_set. step_set. step_set.
  eexists; split; [reflexivity|]. solve_upd.
Qed.

Lemma __list_del_upd s p n :
  is_Some (s !! p) -> is_Some (s !! n) ->
  exists s', __list_del (Some p) (Some n) s = Done s' /\
    upd s s'
      (fun y => if decide (y = p) then Some (Some n) else nx s y)
      (fun y => if decide (y = n) then Some (Some p) else pv s y).
Proof.
  intros Hp Hn. unfold __list_del. step_set. step_set.
  eexists; split; [reflexivity|]. solve_upd.
Qed.

Lemma list_del_upd s x p n :
  nx s x = Some (Some n) -> pv s x = Some (Some p) ->
  is_Some (s !! p) -> is_Some (s !! n) ->
  exists s', list_del x s = Done s' /\
    upd s s'
      (fun y => if decide (y = x) then Some None
                else if decide (y = p) then Some (Some n) else nx s y)
      (fun y => if decide (y = x) then Some None
                else if decide (y = n) then Some (Some p) else pv s y).
Proof.
  intros Hnx Hpv Hp Hn. pose proof (nx_dom _ _ _ Hnx) as Hx.
  unfold list_del, __list_del_entry.
  rewrite (get_prev_pv _ _ _ Hpv). ocbn. rewrite (get_next_nx _ _ _ Hnx). ocbn.
  destruct (__list_del_upd s p n Hp Hn) as (s1 & E1 & U1). rewrite E1. ocbn.
  step_set. step_set.
  eexists; split; [reflexivity|]. solve_upd.
Qed.

(** The node before and the node after a position of the walk. *)
Definition last_of a l : ptr := default a (last l).
Definition first_of l b : ptr := default b (head l).

Lemma last_of_cons a x l : last_of a (x :: l) = last_of x l.
Proof. unfold last_of. rewrite last_cons. by destruct (last l). Qed.

Lemma last_of_in a l : last_of a l ∈ a :: l.
Proof.
  revert a; induction l as [|x l IH]; intros a; [by left|].
  rewrite last_of_cons. right. apply IH.
Qed.

Lemma first_of_in l b : first_of l b ∈ l ++ [b].
Proof. destruct l; set_solver. Qed.

Lemma chain_frame s s' a l b :
  (forall y, y ∈ a :: l -> nx s' y = nx s y) ->
  (forall y, y ∈ l ++ [b] -> pv s' y = pv s y) ->
  chain s a l b -> chain s' a l b.
Proof.
  revert a. induction l as [|x l IH]; intros a Hn Hp; cbn.
  - rewrite Hn, Hp by set_solver. done.
  - rewrite Hn, Hp by set_solver. intros (? & ? & ?). split_and!; [done..|].
    apply IH; [intros y Hy; apply Hn|intros y Hy; apply Hp|done]; set_solver.
Qed.

Lemma chain_split s a l1 l2 b :
  chain s a (l1 ++ l2) b ->
  nx s (last_of a l1) = Some (Some (first_of l2 b)) /\
  pv s (first_of l2 b) = Some (Some (last_of a l1)).
Proof.
  revert a. induction l1 as [|x l1 IH]; intros a; cbn [app].
  - destruct l2; cbn; tauto.
  - intros (_ & _ & Hc). rewrite last_of_cons. by apply IH.
Qed.

(** Linking a new node between two neighbours of a walk. *)
Lemma chain_insert s s' a l1 l2 b x :
  NoDup (a :: l1 ++ l2) -> x ∉ a :: l1 ++ l2 -> x <> b ->
  b ∉ l1 ++ l2 ->
  (forall y, nx s' y = if decide (y = last_of a l1) then Some (Some x)
                       else if decide (y = x) then Some (Some (first_of l2 b))
                       else nx s y) ->
  (forall y, pv s' y = if decide (y = x) then Some (Some (last_of a l1))
                       else if decide (y = first_of l2 b) then Some (Some x)
                       else pv s y) ->
  chain s a (l1 ++ l2) b -> chain s' a (l1 ++ x :: l2) b.
Proof.
  revert a. induction l1 as [|y l1 IH]; intros a Hnd Hx Hxb Hb Hn Hp; cbn [app].
  - change (last_of a []) with a in *. cbn [app] in *. intros Hc.
    cbn [chain]. split_and!.
    + rewrite Hn. by rewrite decide_True.
    + rewrite Hp. by rewrite decide_True.
    + assert (nx s' x = Some (Some (first_of l2 b))) as E1.
      { rewrite Hn, decide_False by set_solver. by rewrite decide_True. }
      assert (pv s' (first_of l2 b) = Some (Some x)) as E2.
      { rewrite Hp. pose proof (first_of_in l2 b). rewrite decide_False by set_solver.
        by rewrite decide_True. }
      destruct l2 as [|z l2]; [by split|]. cbn [chain] in *.
      destruct Hc as (_ & _ & Hc). split_and!; [done..|].
      apply NoDup_cons in Hnd as [Ha Hnd]. apply NoDup_cons in Hnd as [Hz Hnd].
      eapply chain_frame; [| |exact Hc]; intros w Hw.
      * rewrite Hn, decide_False, decide_False; set_solver.
      * change (first_of (z :: l2) b) with z in *.
        rewrite Hp, decide_False, decide_False; set_solver.
  - rewrite last_of_cons in Hn, Hp. cbn [chain]. intros (E1 & E2 & Hc).
    cbn [app] in *. apply NoDup_cons in Hnd as [Ha Hnd].
    pose proof (last_of_in y l1). pose proof (first_of_in l2 b).
    split_and!.
    + rewrite Hn, decide_False, decide_False by set_solver. done.
    + assert (y <> first_of l2 b).
      { apply NoDup_cons in Hnd as [Hy _]. set_solver. }
      rewrite Hp, decide_False, decide_False by set_solver. done.
    + apply IH; auto; set_solver.
Qed.

(** Unlinking a node of a walk. *)
Lemma chain_delete s s' a l1 l2 b x :
  NoDup (a :: l1 ++ x :: l2) -> x <> b -> b ∉ l1 ++ l2 ->
  (forall y, y <> x -> nx s' y = if decide (y = last_of a l1)
                       then Some (Some (first_of l2 b)) else nx s y) ->
  (forall y, y <> x -> pv s' y = if decide (y = first_of l2 b)
                       then Some (Some (last_of a l1)) else pv s y) ->
  chain s a (l1 ++ x :: l2) b -> chain s' a (l1 ++ l2) b.
Proof.
  revert a. induction l1 as [|y l1 IH]; intros a Hnd Hxb Hb Hn Hp; cbn [app].
  - change (last_of a []) with a in *. cbn [app] in *. cbn [chain]. intros (_ & _ & Hc).
    apply NoDup_cons in Hnd as [Ha Hnd]. apply NoDup_cons in Hnd as [Hx Hnd].
    assert (nx s' a = Some (Some (first_of l2 b))) as E1.
    { rewrite Hn by set_solver. by rewrite decide_True. }
    assert (pv s' (first_of l2 b) = Some (Some a)) as E2.
    { pose proof (first_of_in l2 b). rewrite Hp by set_solver. by rewrite decide_True. }
    destruct l2 as [|z l2]; [by split|]. cbn [chain] in *.
    destruct Hc as (_ & _ & Hc). split_and!; [done..|].
    apply NoDup_cons in Hnd as [Hz Hnd].
    eapply chain_frame; [| |exact Hc]; intros w Hw.
    + rewrite Hn by set_solver. rewrite decide_False; set_solver.
    + change (first_of (z :: l2) b) with z in *.
      rewrite Hp by set_solver. rewrite decide_False; set_solver.
  - rewrite last_of_cons in Hn, Hp. cbn [chain]. intros (E1 & E2 & Hc).
    cbn [app] in *. apply NoDup_cons in Hnd as [Ha Hnd].
    pose proof (last_of_in y l1). pose proof (first_of_in l2 b).
    pose proof Hnd as Hnd'. apply NoDup_cons in Hnd' as [Hy _].
    split_and!.
    + rewrite Hn by set_solver. rewrite decide_False by set_solver. done.
    + rewrite Hp by set_solver. rewrite decide_False by set_solver. done.
    + apply IH; auto; set_solver.
Qed.
End theory.

(** ** The operations on represented lists *)

Section rep.
Context {H N : Type} `{Countable H, Countable N}.
Local Abbreviation ptr := (lptr H N).
Local Abbreviation store := (gmap ptr (list_head ptr)).
Implicit Types (s : store) (L : gmap H (list N)) (HS : gset H) (XS : gset N).

Lemma rep_chain HS XS s L h l :
  lists_rep HS XS s L -> L !! h = Some l ->
  chain s (Head h) (Node <$> l) (Head h).
Proof. intros (_ & _ & Hl & _) Hh. by destruct (Hl h l Hh) as (_ & _ & _ & ?). Qed.

Lemma rep_NoDup HS XS s L h l :
  lists_rep HS XS s L -> L !! h = Some l -> NoDup l.
Proof. intros (_ & _ & Hl & _) Hh. by destruct (Hl h l Hh) as (_ & ? & _). Qed.

Lemma rep_head HS XS s L h l :
  lists_rep HS XS s L -> L !! h = Some l -> is_Some (s !! Head h).
Proof. intros (Hh & _ & Hl & _) E. apply Hh. by destruct (Hl h l E). Qed.

Lemma rep_node HS XS s L n : lists_rep HS XS s L -> n ∈ XS -> is_Some (s !! Node n).
Proof. intros (_ & Hn & _). apply Hn. Qed.

Lemma rep_member HS XS s L h l n :
  lists_rep HS XS s L -> L !! h = Some l -> n ∈ l -> n ∈ XS.
Proof. intros (_ & _ & Hl & _) E. destruct (Hl h l E) as (_ & _ & Hx & _). apply Hx. Qed.

(** All the nodes a walk of list [h] visits are allocated. *)
Lemma rep_walk_dom HS XS s L h l p :
  lists_rep HS XS s L -> L !! h = Some l ->
  p ∈ Head h :: (Node <$> l) -> is_Some (s !! p).
Proof.
  rewrite elem_of_cons, list_elem_of_fmap. intros R E [->|(n & -> & Hn)].
  - eauto using rep_head.
  - eauto using rep_node, rep_member.
Qed.

Lemma fmap_Node_NoDup h (l : list N) : NoDup l -> NoDup (@Head H N h :: (Node <$> l)).
Proof.
  intros Hl. constructor; [set_solver|]. by apply NoDup_fmap; [apply _|].
Qed.

(** Transporting the representation to a store that differs only on list [h]. *)
Lemma rep_update HS XS s s' L h l l' :
  lists_rep HS XS s L -> L !! h = Some l ->
  (forall y, is_Some (s' !! y) <-> is_Some (s !! y)) ->
  chain s' (Head h) (Node <$> l') (Head h) ->
  NoDup l' -> (forall n, n ∈ l' -> n ∈ XS) ->
  (forall h0 l0 n, h0 <> h -> L !! h0 = Some l0 -> n ∈ l' -> n ∉ l0) ->
  (forall h0 l0 y, h0 <> h -> L !! h0 = Some l0 ->
     y ∈ Head h0 :: (Node <$> l0) -> nx s' y = nx s y /\ pv s' y = pv s y) ->
  lists_rep HS XS s' (<[h := l']> L).
Proof.
  intros (Hh & Hn & Hl & Hd) Eh Hdom Hc Hnd HX Hsep Hfr.
  split_and!.
  - intros h0 ?. apply Hdom. by apply Hh.
  - intros n ?. apply Hdom. by apply Hn.
  - intros h0 l0 E0. destruct (decide (h0 = h)) as [->|Hne].
    + rewrite lookup_insert_eq in E0. injection E0 as <-. split_and!; auto.
      by destruct (Hl h l Eh).
    + rewrite lookup_insert_ne in E0 by congruence.
      destruct (Hl h0 l0 E0) as (? & ? & ? & Hc0). split_and!; auto.
      eapply chain_frame; [| |exact Hc0]; intros y Hy.
      * by apply (Hfr h0 l0 y Hne E0).
      * apply (Hfr h0 l0 y Hne E0). set_solver.
  - intros h1 h2 l1 l2 n E1 E2 Hn1 Hn2.
    destruct (decide (h1 = h)) as [->|Hne1], (decide (h2 = h)) as [->|Hne2]; [done| | |].
    + rewrite lookup_insert_eq in E1. injection E1 as <-.
      rewrite lookup_insert_ne in E2 by congruence. exfalso. by eapply Hsep.
    + rewrite lookup_insert_eq in E2. injection E2 as <-.
      rewrite lookup_insert_ne in E1 by congruence. exfalso. by eapply Hsep.
    + rewrite lookup_insert_ne in E1, E2 by congruence. eauto.
Qed.

Lemma walk_node h (l : list N) (y : ptr) :
  y ∈ Head h :: (Node <$> l) <-> y = Head h \/ exists m, y = Node m /\ m ∈ l.
Proof. rewrite elem_of_cons, list_elem_of_fmap. done. Qed.

Lemma walk_disjoint h0 h (l0 l : list N) (y z : ptr) :
  h0 <> h -> (forall m, m ∈ l0 -> m ∉ l) ->
  y ∈ Head h0 :: (Node <$> l0) -> z ∈ Head h :: (Node <$> l) -> y <> z.
Proof.
  rewrite !walk_node. intros Hh Hd [->|(m & -> & Hm)] [->|(m' & -> & Hm')]; try done.
  - congruence.
  - intros [= ->]. by eapply Hd.
Qed.

Lemma last_of_walk h (l1 l2 : list N) :
  last_of (Head h) (Node <$> l1) ∈ @Head H N h :: (Node <$> (l1 ++ l2)).
Proof.
  pose proof (last_of_in (Head h) (Node <$> l1)) as Hp.
  rewrite fmap_app, elem_of_cons, elem_of_app. rewrite elem_of_cons in Hp. tauto.
Qed.

Lemma first_of_walk h (l1 l2 : list N) :
  first_of (Node <$> l2) (Head h) ∈ @Head H N h :: (Node <$> (l1 ++ l2)).
Proof.
  pose proof (first_of_in (Node <$> l2) (Head h)) as Hp.
  rewrite fmap_app, elem_of_cons, elem_of_app.
  rewrite elem_of_app, list_elem_of_singleton in Hp. tauto.
Qed.

Definition unlinked L (x : N) : Prop := forall h l, L !! h = Some l -> x ∉ l.

(** Inserting at any position of a list. *)
Lemma __list_add_rep HS XS s L h l1 l2 x :
  lists_rep HS XS s L -> L !! h = Some (l1 ++ l2) -> x ∈ XS -> unlinked L x ->
  exists s',
    __list_add (Some (Node x)) (Some (last_of (Head h) (Node <$> l1)))
      (Some (first_of (Node <$> l2) (Head h))) s = Done s' /\
    lists_rep HS XS s' (<[h := l1 ++ x :: l2]> L).
Proof.
  intros R E Hx Hu.
  set (p := last_of (Head h) (Node <$> l1)). set (n := first_of (Node <$> l2) (Head h)).
  assert (p ∈ Head h :: (Node <$> (l1 ++ l2))) as Hp by apply last_of_walk.
  assert (n ∈ Head h :: (Node <$> (l1 ++ l2))) as Hn by apply first_of_walk.
  assert (is_Some (s !! p)) by (by eapply rep_walk_dom).
  assert (is_Some (s !! n)) by (by eapply rep_walk_dom).
  destruct (__list_add_upd s (Node x) p n) as (s' & Es & Ud & Un & Up); auto.
  { eauto using rep_node. }
  exists s'; split; [done|].
  assert (x ∉ l1 ++ l2) as Hxl by (apply (Hu h); done).
  pose proof (rep_NoDup _ _ _ _ _ _ R E) as Hnd.
  eapply rep_update; eauto.
  - rewrite fmap_app, fmap_cons. eapply (chain_insert s s'); eauto.
    + rewrite <- fmap_app. by apply fmap_Node_NoDup.
    + set_solver.
    + set_solver.
    + rewrite <- fmap_app. by apply (rep_chain HS XS s L).
  - by apply NoDup_mid.
  - intros m Hm. apply elem_of_mid in Hm as [->|Hm']; [done|].
    by eapply rep_member.
  - intros h0 l0 m Hne E0 Hm Hm0.
    apply elem_of_mid in Hm as [->|Hm']; [by eapply Hu|].
    destruct R as (_ & _ & _ & Hd). apply Hne. by eapply (Hd h0 h l0).
  - intros h0 l0 y Hne E0 Hy.
    assert (forall m, m ∈ l0 -> m ∉ l1 ++ l2) as Hsep.
    { intros m Hm Hm'. destruct R as (_ & _ & _ & Hd). apply Hne. by eapply (Hd h0 h l0). }
    assert (y <> Node x).
    { apply walk_node in Hy as [->|(m & -> & Hm)]; [done|].
      intros [= ->]. by eapply Hu. }
    assert (y <> p) by (by eapply walk_disjoint).
    assert (y <> n) by (by eapply walk_disjoint).
    rewrite Un, Up, !decide_False by done. done.
Qed.

Lemma list_add_rep HS XS s L h l x :
  lists_rep HS XS s L -> L !! h = Some l -> x ∈ XS -> unlinked L x ->
  exists s', list_add (Node x) (Head h) s = Done s' /\
    lists_rep HS XS s' (<[h := x :: l]> L).
Proof.
  intros R E Hx Hu. unfold list_add.
  pose proof (rep_chain _ _ _ _ _ _ R E) as Hc.
  destruct (chain_split s (Head h) [] (Node <$> l) (Head h) Hc) as [Hn _].
  change (last_of (Head h) []) with (@Head H N h) in Hn.
  rewrite (get_next_nx _ _ _ Hn). ocbn.
  by apply (__list_add_rep HS XS s L h [] l x).
Qed.

Lemma list_add_tail_rep HS XS s L h l x :
  lists_rep HS XS s L -> L !! h = Some l -> x ∈ XS -> unlinked L x ->
  exists s', list_add_tail (Node x) (Head h) s = Done s' /\
    lists_rep HS XS s' (<[h := l ++ [x]]> L).
Proof.
  intros R E Hx Hu. unfold list_add_tail.
  pose proof (rep_chain _ _ _ _ _ _ R E) as Hc.
  rewrite <- (app_nil_r (Node <$> l)) in Hc.
  destruct (chain_split s (Head h) (Node <$> l) [] (Head h) Hc) as [_ Hp].
  change (first_of [] (Head h)) with (@Head H N h) in Hp.
  rewrite (get_prev_pv _ _ _ Hp). ocbn.
  apply (__list_add_rep HS XS s L h l [] x); auto. by rewrite app_nil_r.
Qed.

(** The neighbours of a member, as its own links give them. *)
Lemma rep_neighbours HS XS s L h l1 l2 x :
  lists_rep HS XS s L -> L !! h = Some (l1 ++ x :: l2) ->
  pv s (Node x) = Some (Some (last_of (Head h) (Node <$> l1))) /\
  nx s (Node x) = Some (Some (first_of (Node <$> l2) (Head h))).
Proof.
  intros R E. pose proof (rep_chain _ _ _ _ _ _ R E) as Hc.
  rewrite fmap_app in Hc. split.
  - by apply (chain_split s _ _ _ _ Hc).
  - rewrite fmap_cons in Hc. rewrite (cons_middle (Node x)), app_assoc in Hc.
    apply chain_split in Hc as [Hc _]. by rewrite <- Hc; unfold last_of; rewrite last_snoc.
Qed.

(** Unlinking [x] with any store that has bypassed it. *)
Lemma unlink_rep HS XS s s' L h l1 l2 x fx fy :
  lists_rep HS XS s L -> L !! h = Some (l1 ++ x :: l2) ->
  upd s s'
    (fun y => if decide (y = Node x) then fx
              else if decide (y = last_of (Head h) (Node <$> l1))
                   then Some (Some (first_of (Node <$> l2) (Head h))) else nx s y)
    (fun y => if decide (y = Node x) then fy
              else if decide (y = first_of (Node <$> l2) (Head h))
                   then Some (Some (last_of (Head h) (Node <$> l1))) else pv s y) ->
  lists_rep HS XS s' (<[h := l1 ++ l2]> L).
Proof.
  intros R E (Ud & Un & Up).
  pose proof (rep_NoDup _ _ _ _ _ _ R E) as Hnd. apply NoDup_mid in Hnd as [Hx Hnd].
  pose proof (last_of_walk h l1 l2) as Hp. pose proof (first_of_walk h l1 l2) as Hn.
  eapply rep_update; eauto.
  - rewrite fmap_app. eapply (chain_delete s s' _ _ _ _ (Node x)).
    + rewrite <- fmap_cons, <- fmap_app. apply fmap_Node_NoDup. by apply NoDup_mid.
    + done.
    + rewrite <- fmap_app, list_elem_of_fmap. by intros (? & ? & _).
    + intros y Hy. by rewrite Un, decide_False.
    + intros y Hy. by rewrite Up, decide_False.
    + rewrite <- fmap_cons, <- fmap_app. by apply (rep_chain HS XS s L).
  - intros n ?. eapply rep_member; eauto. apply elem_of_mid. by right.
  - intros h0 l0 n Hne E0 ? ?. destruct R as (_ & _ & _ & Hd). apply Hne.
    eapply (Hd h0 h l0); eauto. apply elem_of_mid. by right.
  - intros h0 l0 y Hne E0 Hy.
    assert (forall m, m ∈ l0 -> m ∉ l1 ++ x :: l2) as Hsep.
    { intros m Hm Hm'. destruct R as (_ & _ & _ & Hd). apply Hne. by eapply (Hd h0 h l0). }
    assert (forall z, z ∈ Head h :: (Node <$> (l1 ++ x :: l2)) -> y <> z) as Hd
      by (intros z; by eapply walk_disjoint).
    assert (forall z, z ∈ Head h :: (Node <$> (l1 ++ l2)) ->
              z ∈ Head h :: (Node <$> (l1 ++ x :: l2))) as Hmono.
    { intros z. rewrite !walk_node. intros [?|(m & ? & ?)]; [by left|right].
      exists m. rewrite elem_of_mid. tauto. }
    assert (y <> Node x).
    { apply Hd, walk_node. right. exists x. rewrite elem_of_mid. tauto. }
    assert (y <> last_of (Head h) (Node <$> l1)) by (by apply Hd, Hmono).
    assert (y <> first_of (Node <$> l2) (Head h)) by (by apply Hd, Hmono).
    rewrite Un, Up, !decide_False by done. done.
Qed.

Lemma rep_neighbours_dom HS XS s L h l1 l2 x :
  lists_rep HS XS s L -> L !! h = Some (l1 ++ x :: l2) ->
  is_Some (s !! last_of (Head h) (Node <$> l1)) /\
  is_Some (s !! first_of (Node <$> l2) (Head h)).
Proof.
  intros R E. pose proof (last_of_walk h l1 l2) as Hp. pose proof (first_of_walk h l1 l2) as Hn.
  split; (eapply rep_walk_dom; [done..|]); apply walk_node;
    [apply walk_node in Hp as [?|(m & ? & ?)]|apply walk_node in Hn as [?|(m & ? & ?)]];
    try (by left); right; exists m; rewrite elem_of_mid; tauto.
Qed.

Lemma list_del_rep HS XS s L h l1 l2 x :
  lists_rep HS XS s L -> L !! h = Some (l1 ++ x :: l2) ->
  exists s', list_del (Node x) s = Done s' /\
    lists_rep HS XS s' (<[h := l1 ++ l2]> L).
Proof.
  intros R E. destruct (rep_neighbours _ _ _ _ _ _ _ _ R E) as [Hp Hn].
  destruct (rep_neighbours_dom _ _ _ _ _ _ _ _ R E) as [Dp Dn].
  destruct (list_del_upd s (Node x) _ _ Hn Hp Dp Dn) as (s' & Es & U).
  exists s'; split; [done|]. by eapply unlink_rep.
Qed.

Lemma __list_del_entry_rep HS XS s L h l1 l2 x :
  lists_rep HS XS s L -> L !! h = Some (l1 ++ x :: l2) ->
  exists s', __list_del_entry (Node x) s = Done s' /\
    lists_rep HS XS s' (<[h := l1 ++ l2]> L).
Proof.
  intros R E. destruct (rep_neighbours _ _ _ _ _ _ _ _ R E) as [Hp Hn].
  destruct (rep_neighbours_dom _ _ _ _ _ _ _ _ R E) as [Dp Dn].
  unfold __list_del_entry.
  rewrite (get_prev_pv _ _ _ Hp). ocbn. rewrite (get_next_nx _ _ _ Hn). ocbn.
  destruct (__list_del_upd s _ _ Dp Dn) as (s' & Es & Ud & Un & Up).
  exists s'; split; [done|]. eapply unlink_rep; eauto.
  split; [done|]. split; intros y; [rewrite Un|rewrite Up];
    destruct (decide (y = Node x)) as [->|]; try done; case_decide; reflexivity.
Qed.

(** Writing the links of a node that is in no list changes no list. *)
Lemma rep_unlinked_frame HS XS s s' L x :
  lists_rep HS XS s L -> unlinked L x ->
  (forall y, is_Some (s' !! y) <-> is_Some (s !! y)) ->
  (forall y, y <> Node x -> nx s' y = nx s y /\ pv s' y = pv s y) ->
  lists_rep HS XS s' L.
Proof.
  intros (Hh & Hn & Hl & Hd) Hu Hdom Hf. split_and!; auto.
  - intros h ?. apply Hdom. by apply Hh.
  - intros n ?. apply Hdom. by apply Hn.
  - intros h l E. destruct (Hl h l E) as (? & ? & ? & Hc). split_and!; auto.
    assert (forall y, y ∈ Head h :: (Node <$> l) -> y <> Node x) as Hne.
    { intros y Hy ->. apply walk_node in Hy as [?|(m & [= ->] & Hm)]; [done|]. by eapply Hu. }
    eapply chain_frame; [| |exact Hc]; intros y Hy; apply Hf, Hne; [done|].
    rewrite elem_of_app, list_elem_of_singleton in Hy. rewrite elem_of_cons. tauto.
Qed.

Lemma unlinked_after_del L h l1 l2 (x : N) :
  (forall h0 l0, h0 <> h -> L !! h0 = Some l0 -> x ∉ l0) -> x ∉ l1 ++ l2 ->
  unlinked (<[h := l1 ++ l2]> L) x.
Proof.
  intros Ho Hx h0 l0 E0. destruct (decide (h0 = h)) as [->|Hne].
  - rewrite lookup_insert_eq in E0. by injection E0 as <-.
  - rewrite lookup_insert_ne in E0 by congruence. eauto.
Qed.

Lemma rep_unlinked_after HS XS s L h l1 l2 x :
  lists_rep HS XS s L -> L !! h = Some (l1 ++ x :: l2) ->
  unlinked (<[h := l1 ++ l2]> L) x.
Proof.
  intros R E. pose proof (rep_NoDup _ _ _ _ _ _ R E) as Hnd.
  apply NoDup_mid in Hnd as [Hx _]. apply unlinked_after_del; [|done].
  intros h0 l0 Hne E0 Hx0. destruct R as (_ & _ & _ & Hd). apply Hne.
  eapply (Hd h0 h l0); eauto. apply elem_of_mid. by left.
Qed.

Lemma list_del_reinit_rep HS XS s L h l1 l2 x :
  lists_rep HS XS s L -> L !! h = Some (l1 ++ x :: l2) ->
  exists s', list_del_reinit (Node x) s = Done s' /\
    lists_rep HS XS s' (<[h := l1 ++ l2]> L).
Proof.
  intros R E. unfold list_del_reinit.
  destruct (list_del_rep _ _ _ _ _ _ _ _ R E) as (s1 & E1 & R1). rewrite E1. ocbn.
  destruct (INIT_LIST_HEAD_upd s1 (Node x)) as (s' & Es & Ud & Un & Up).
  { eapply rep_node; eauto. eapply rep_member; [exact R|exact E|]. apply elem_of_mid. by left. }
  exists s'; split; [done|]. eapply rep_unlinked_frame; eauto using rep_unlinked_after.
  intros y Hy. by rewrite Un, Up, !decide_False.
Qed.

Lemma list_move_rep HS XS s L h0 h l1 l2 x l :
  lists_rep HS XS s L -> L !! h0 = Some (l1 ++ x :: l2) ->
  <[h0 := l1 ++ l2]> L !! h = Some l ->
  exists s', list_move (Node x) (Head h) s = Done s' /\
    lists_rep HS XS s' (<[h := x :: l]> (<[h0 := l1 ++ l2]> L)).
Proof.
  intros R E Eh. unfold list_move.
  destruct (__list_del_entry_rep _ _ _ _ _ _ _ _ R E) as (s1 & E1 & R1). rewrite E1. ocbn.
  apply list_add_rep; eauto using rep_unlinked_after.
  eapply rep_member; [exact R|exact E|]. apply elem_of_mid. by left.
Qed.

Lemma list_move_tail_rep HS XS s L h0 h l1 l2 x l :
  lists_rep HS XS s L -> L !! h0 = Some (l1 ++ x :: l2) ->
  <[h0 := l1 ++ l2]> L !! h = Some l ->
  exists s', list_move_tail (Node x) (Head h) s = Done s' /\
    lists_rep HS XS s' (<[h := l ++ [x]]> (<[h0 := l1 ++ l2]> L)).
Proof.
  intros R E Eh. unfold list_move_tail.
  destruct (__list_del_entry_rep _ _ _ _ _ _ _ _ R E) as (s1 & E1 & R1). rewrite E1. ocbn.
  apply list_add_tail_rep; eauto using rep_unlinked_after.
  eapply rep_member; [exact R|exact E|]. apply elem_of_mid. by left.
Qed.

(** Initialising a head makes its list empty, whatever it held. *)
Lemma INIT_LIST_HEAD_rep HS XS s L h :
  lists_rep HS XS s L -> h ∈ HS ->
  exists s', INIT_LIST_HEAD (Head h) s = Done s' /\
    lists_rep HS XS s' (<[h := []]> L).
Proof.
  intros (Hh & Hn & Hl & Hd) Hin.
  destruct (INIT_LIST_HEAD_upd s (Head h)) as (s' & Es & Ud & Un & Up); [by apply Hh|].
  exists s'; split; [done|]. split_and!.
  - intros h0 ?. apply Ud. by apply Hh.
  - intros n ?. apply Ud. by apply Hn.
  - intros h0 l0 E0. destruct (decide (h0 = h)) as [->|Hne].
    + rewrite lookup_insert_eq in E0. injection E0 as <-.
      split_and!; [done|constructor|set_solver|]. cbn.
      by rewrite Un, Up, !decide_True.
    + rewrite lookup_insert_ne in E0 by congruence.
      destruct (Hl h0 l0 E0) as (? & ? & ? & Hc0). split_and!; auto.
      assert (forall y, y ∈ Head h0 :: (Node <$> l0) -> y <> Head h) as Hy.
      { intros y [->|(m & -> & _)]%walk_node; [|done]. intros [= ->]. done. }
      eapply chain_frame; [| |exact Hc0]; intros y Hy0; [rewrite Un|rewrite Up];
        rewrite decide_False; auto; apply Hy.
      rewrite elem_of_app, list_elem_of_singleton in Hy0. rewrite elem_of_cons. tauto.
  - intros h1 h2 l1 l2 n E1 E2 H1' H2'.
    destruct (decide (h1 = h)) as [->|]; [rewrite lookup_insert_eq in E1; set_solver|].
    destruct (decide (h2 = h)) as [->|]; [rewrite lookup_insert_eq in E2; set_solver|].
    rewrite lookup_insert_ne in E1, E2 by congruence. eauto.
Qed.

Lemma rep_get_next HS XS s L h l :
  lists_rep HS XS s L -> L !! h = Some l ->
  get_next s (Some (Head h)) = Done (Some (first_of (Node <$> l) (Head h))).
Proof.
  intros R E. pose proof (rep_chain _ _ _ _ _ _ R E) as Hc.
  apply (chain_split s (Head h) [] (Node <$> l) (Head h)) in Hc as [Hn _].
  by apply get_next_nx.
Qed.

Lemma list_empty_rep HS XS s L h l :
  lists_rep HS XS s L -> L !! h = Some l ->
  list_empty (Head h) s = Done (bool_decide (l = [])).
Proof.
  intros R E. unfold list_empty. rewrite (rep_get_next _ _ _ _ _ _ R E). ocbn.
  f_equal. apply bool_decide_ext. destruct l; cbn; split; congruence.
Qed.

Lemma list_first_entry_rep HS XS s L h x l :
  lists_rep HS XS s L -> L !! h = Some (x :: l) ->
  list_first_entry (Head h) s = Done x.
Proof.
  intros R E. unfold list_first_entry. by rewrite (rep_get_next _ _ _ _ _ _ R E).
Qed.

Lemma list_nodes_from_chain s h a (l : list N) fuel :
  chain s a (Node <$> l) (Head h) -> (length l < fuel)%nat ->
  list_nodes_from fuel (Head h) (Some (first_of (Node <$> l) (Head h))) s = Done l.
Proof.
  revert a fuel. induction l as [|x l IH]; intros a fuel Hc Hf;
    (destruct fuel as [|fuel]; [cbn in Hf; lia|]); cbn [list_nodes_from].
  - by rewrite bool_decide_eq_true_2.
  - change (first_of (Node <$> x :: l) (Head h)) with (@Node H N x).
    rewrite bool_decide_eq_false_2 by done.
    destruct Hc as (_ & _ & Hc). change (chain s (Node x) (Node <$> l) (Head h)) in Hc.
    assert (nx s (Node x) = Some (Some (first_of (Node <$> l) (Head h)))) as Hn.
    { apply (chain_split s (Node x) [] (Node <$> l) (Head h) Hc). }
    rewrite (get_next_nx _ _ _ Hn). ocbn.
    rewrite (IH (Node x)); [done|done|cbn in Hf; lia].
Qed.

Lemma rep_length HS XS s L h l :
  lists_rep HS XS s L -> L !! h = Some l -> (length l <= size s)%nat.
Proof.
  intros R E. pose proof (rep_NoDup _ _ _ _ _ _ R E) as Hnd.
  rewrite <- size_dom, <- (length_fmap (@Node H N) l).
  rewrite <- (size_list_to_set (C := gset ptr)).
  2: { by apply NoDup_fmap; [apply _|]. }
  apply subseteq_size. intros p. rewrite elem_of_list_to_set, elem_of_dom.
  rewrite list_elem_of_fmap. intros (n & -> & Hn). eauto using rep_node, rep_member.
Qed.

(** The walk of [list_for_each_entry] terminates and meets the list in order. *)
Lemma list_for_each_rep HS XS s L h l :
  lists_rep HS XS s L -> L !! h = Some l ->
  list_for_each (Head h) s = Done l.
Proof.
  intros R E. unfold list_for_each. rewrite (rep_get_next _ _ _ _ _ _ R E). ocbn.
  eapply list_nodes_from_chain; [by eapply rep_chain|].
  pose proof (rep_length _ _ _ _ _ _ R E). lia.
Qed.
End rep.

(** ** Nodes that are in no list

    [list_del_reinit] leaves a node pointing at itself, so that deleting it
    again is harmless.  The scheduler relies on it: it removes threads from
    queues they have already left. *)

Section idle.
Context {H N : Type} `{Countable H, Countable N}.
Local Abbreviation ptr := (lptr H N).
Local Abbreviation store := (gmap ptr (list_head ptr)).
Implicit Types (s : store) (L : gmap H (list N)) (x y : N).

Definition idle s x : Prop :=
  nx s (Node x) = Some (Some (Node x)) /\ pv s (Node x) = Some (Some (Node x)).

Lemma off_walk L h l x (y : ptr) :
  unlinked L x -> L !! h = Some l -> y ∈ Head h :: (Node <$> l) -> y <> Node x.
Proof. intros Hu E [->|(m & -> & Hm)]%walk_node; [done|]. intros [= ->]. by eapply Hu. Qed.

Lemma idle_upd s s' x fn fp : upd s s' fn fp -> fn (Node x) = nx s (Node x) ->
  fp (Node x) = pv s (Node x) -> idle s x -> idle s' x.
Proof. intros (_ & Un & Up) En Ep [In Ip]. split; [by rewrite Un, En|by rewrite Up, Ep]. Qed.

Lemma list_add_tail_idle HS XS s s' L h l x y :
  lists_rep HS XS s L -> L !! h = Some l -> x ∈ XS -> unlinked L y -> y <> x ->
  list_add_tail (Node x) (Head h) s = Done s' -> idle s y -> idle s' y.
Proof.
  intros R E Hx Hu Hne. unfold list_add_tail.
  pose proof (rep_chain _ _ _ _ _ _ R E) as Hc. rewrite <- (app_nil_r (Node <$> l)) in Hc.
  destruct (chain_split s (Head h) (Node <$> l) [] (Head h) Hc) as [_ Hp].
  change (first_of [] (Head h)) with (@Head H N h) in Hp.
  rewrite (get_prev_pv _ _ _ Hp). ocbn.
  assert (last_of (Head h) (Node <$> l) ∈ Head h :: (Node <$> l)) as Hl.
  { pose proof (last_of_walk h l []) as Hl. by rewrite app_nil_r in Hl. }
  assert (Head h ∈ Head h :: (Node <$> l)) as Hh by (by left).
  destruct (__list_add_upd s (Node x) (last_of (Head h) (Node <$> l)) (Head h)) as (s1 & E1 & U);
    [by eapply rep_node|by eapply rep_walk_dom|by eapply rep_walk_dom|].
  rewrite E1. intros Es%(inj Done). subst s1.
  pose proof (off_walk _ _ _ _ _ Hu E Hl). eapply idle_upd; [exact U| |]; cbn beta;
    rewrite !decide_False; congruence.
Qed.

Lemma list_del_reinit_self s s' x :
  is_Some (s !! Node x) -> (exists s1, list_del (Node x) s = Done s1 /\ is_Some (s1 !! Node x)) ->
  list_del_reinit (Node x) s = Done s' -> idle s' x.
Proof.
  intros Hx (s1 & E1 & D1). unfold list_del_reinit. rewrite E1. ocbn.
  destruct (INIT_LIST_HEAD_upd s1 (Node x) D1) as (s2 & E2 & _ & Un & Up). rewrite E2.
  intros Es%(inj Done). subst s2. split; [rewrite Un|rewrite Up]; by rewrite decide_True.
Qed.

(** Deleting a member: it is idle afterwards, and the others stay idle. *)
Lemma list_del_reinit_idle HS XS s s' L h l1 l2 x :
  lists_rep HS XS s L -> L !! h = Some (l1 ++ x :: l2) -> list_del_reinit (Node x) s = Done s' ->
  idle s' x /\ forall y, unlinked L y -> idle s y -> idle s' y.
Proof.
  intros R E Es. destruct (rep_neighbours _ _ _ _ _ _ _ _ R E) as [Hp Hn].
  destruct (rep_neighbours_dom _ _ _ _ _ _ _ _ R E) as [Dp Dn].
  destruct (list_del_upd s (Node x) _ _ Hn Hp Dp Dn) as (s1 & E1 & U1).
  assert (is_Some (s1 !! Node x)) as D1 by (apply (proj1 U1); by apply nx_dom in Hn).
  split; [eapply list_del_reinit_self; [by eapply nx_dom|eauto|done]|]. intros y Hu Iy.
  unfold list_del_reinit in Es. rewrite E1 in Es. ocbn_in Es.
  destruct (INIT_LIST_HEAD_upd s1 (Node x) D1) as (s2 & E2 & U2). rewrite E2 in Es.
  apply (inj Done) in Es. subst s2.
  assert (forall z, z ∈ Head h :: (Node <$> (l1 ++ x :: l2)) -> z <> Node y) as Ho
    by (intros z; by apply off_walk with (L := L)).
  assert (Node x <> Node y) by (apply Ho, walk_node; right; exists x; rewrite elem_of_mid; tauto).
  assert (last_of (Head h) (Node <$> l1) <> Node y /\ first_of (Node <$> l2) (Head h) <> Node y) as [Ha Hb].
  { pose proof (last_of_walk h l1 (x :: l2)) as Ha. pose proof (first_of_walk h (l1 ++ [x]) l2) as Hb.
    rewrite <- app_assoc in Hb. split; by apply Ho. }
  eapply idle_upd; [exact U2| | |]; cbn beta; [by rewrite decide_False by congruence..|].
  eapply idle_upd; [exact U1| | |done]; cbn beta; rewrite !decide_False; congruence.
Qed.

(** Deleting a node that is idle: nothing changes. *)
Lemma list_del_reinit_noop HS XS s L x :
  lists_rep HS XS s L -> x ∈ XS -> unlinked L x -> idle s x ->
  exists s', list_del_reinit (Node x) s = Done s' /\ lists_rep HS XS s' L /\
    idle s' x /\ forall y, y <> x -> idle s y -> idle s' y.
Proof.
  intros R Hx Hu [Hn Hp]. pose proof (rep_node _ _ _ _ _ R Hx) as D.
  destruct (list_del_upd s (Node x) _ _ Hn Hp D D) as (s1 & E1 & U1).
  assert (is_Some (s1 !! Node x)) as D1 by (by apply (proj1 U1)).
  destruct (INIT_LIST_HEAD_upd s1 (Node x) D1) as (s2 & E2 & U2).
  assert (list_del_reinit (Node x) s = Done s2) as Es by (unfold list_del_reinit; by rewrite E1).
  exists s2. split; [done|]. pose proof U1 as (Ud1 & Un1 & Up1). pose proof U2 as (Ud2 & Un2 & Up2).
  assert (forall y : ptr, y <> Node x -> nx s2 y = nx s y /\ pv s2 y = pv s y) as Hf.
  { intros y Hy. rewrite Un2, Up2, !decide_False by done. by rewrite Un1, Up1, !decide_False. }
  split_and!.
  - eapply rep_unlinked_frame; [exact R|exact Hu| |exact Hf]. intros y. by rewrite Ud2.
  - eapply list_del_reinit_self; [exact D|by exists s1|exact Es].
  - intros y Hy [In Ip]. destruct (Hf (Node y)) as [En Ep]; [congruence|]. split; congruence.
Qed.

(** Initialising a node that is in no list. *)
Lemma INIT_LIST_HEAD_node HS XS s L x :
  lists_rep HS XS s L -> x ∈ XS -> unlinked L x ->
  exists s', INIT_LIST_HEAD (Node x) s = Done s' /\ lists_rep HS XS s' L /\
    idle s' x /\ forall y, y <> x -> idle s y -> idle s' y.
Proof.
  intros R Hx Hu.
  destruct (INIT_LIST_HEAD_upd s (Node x) (rep_node _ _ _ _ _ R Hx)) as (s' & E & U).
  exists s'. split; [done|]. pose proof U as (Ud & Un & Up). split_and!.
  - eapply rep_unlinked_frame; [exact R|exact Hu|exact Ud|]. intros y Hy. by rewrite Un, Up, !decide_False.
  - split; [rewrite Un|rewrite Up]; by rewrite decide_True.
  - intros y Hy. eapply idle_upd; [exact U|..]; cbn beta; rewrite decide_False; congruence.
Qed.

Lemma INIT_LIST_HEAD_idle HS XS s s' L h y :
  lists_rep HS XS s L -> h ∈ HS -> INIT_LIST_HEAD (Head h) s = Done s' -> idle s y -> idle s' y.
Proof.
  intros R Hh E. destruct (INIT_LIST_HEAD_upd s (Head h) (proj1 R h Hh)) as (s1 & E1 & U).
  rewrite E in E1. injection E1 as <-. by eapply idle_upd.
Qed.
End idle.

(** ** The interface the other components are proved against

    [ListOps] is what a client calls, [ListHeap] what it is promised: the
    operations run, and the lists seen through [lh_rep] change as the names
    say.  The instance below discharges the promise with the pointer code. *)

Class ListOps (H N W : Type) := {
  lh_init : H -> W -> outcome W;
  lh_init_node : N -> W -> outcome W;
  lh_add : N -> H -> W -> outcome W;
  lh_add_tail : N -> H -> W -> outcome W;
  lh_del : N -> W -> outcome W;
  lh_del_reinit : N -> W -> outcome W;
  lh_empty : H -> W -> outcome bool;
  lh_first : H -> W -> outcome N;
  lh_each : H -> W -> outcome (list N)
}.

Class ListHeap (H N W : Type) `{Countable H, Countable N} {OPS : ListOps H N W} := {
  lh_rep : gset H -> gset N -> W -> gmap H (list N) -> Prop;
  lh_rep_NoDup HS XS w L h l :
    lh_rep HS XS w L -> L !! h = Some l -> NoDup l;
  lh_rep_member HS XS w L h l n :
    lh_rep HS XS w L -> L !! h = Some l -> n ∈ l -> n ∈ XS;
  lh_rep_disjoint HS XS w L h1 h2 l1 l2 n :
    lh_rep HS XS w L -> L !! h1 = Some l1 -> L !! h2 = Some l2 ->
    n ∈ l1 -> n ∈ l2 -> h1 = h2;
  lh_init_rep HS XS w L h :
    lh_rep HS XS w L -> h ∈ HS ->
    exists w', lh_init h w = Done w' /\ lh_rep HS XS w' (<[h := []]> L);
  lh_add_rep HS XS w L h l x :
    lh_rep HS XS w L -> L !! h = Some l -> x ∈ XS -> unlinked L x ->
    exists w', lh_add x h w = Done w' /\ lh_rep HS XS w' (<[h := x :: l]> L);
  lh_add_tail_rep HS XS w L h l x :
    lh_rep HS XS w L -> L !! h = Some l -> x ∈ XS -> unlinked L x ->
    exists w', lh_add_tail x h w = Done w' /\ lh_rep HS XS w' (<[h := l ++ [x]]> L);
  lh_del_rep HS XS w L h l1 l2 x :
    lh_rep HS XS w L -> L !! h = Some (l1 ++ x :: l2) ->
    exists w', lh_del x w = Done w' /\ lh_rep HS XS w' (<[h := l1 ++ l2]> L);
  lh_del_reinit_rep HS XS w L h l1 l2 x :
    lh_rep HS XS w L -> L !! h = Some (l1 ++ x :: l2) ->
    exists w', lh_del_reinit x w = Done w' /\ lh_rep HS XS w' (<[h := l1 ++ l2]> L);
  lh_empty_rep HS XS w L h l :
    lh_rep HS XS w L -> L !! h = Some l -> lh_empty h w = Done (bool_decide (l = []));
  lh_first_rep HS XS w L h x l :
    lh_rep HS XS w L -> L !! h = Some (x :: l) -> lh_first h w = Done x;
  lh_each_rep HS XS w L h l :
    lh_rep HS XS w L -> L !! h = Some l -> lh_each h w = Done l
}.

#[export] Instance pointer_list_ops {H N} `{Countable H, Countable N} :
  ListOps H N (gmap (lptr H N) (list_head (lptr H N))) := {
  lh_init h := INIT_LIST_HEAD (Head h);
  lh_init_node x := INIT_LIST_HEAD (Node x);
  lh_add x h := list_add (Node x) (Head h);
  lh_add_tail x h := list_add_tail (Node x) (Head h);
  lh_del x := list_del (Node x);
  lh_del_reinit x := list_del_reinit (Node x);
  lh_empty h := list_empty (Head h);
  lh_first h := list_first_entry (Head h);
  lh_each h := list_for_each (Head h)
}.

#[export] Instance pointer_list_heap {H N} `{Countable H, Countable N} :
  ListHeap H N (gmap (lptr H N) (list_head (lptr H N))).
Proof.
  refine {| lh_rep := lists_rep |}.
  - exact rep_NoDup.
  - exact rep_member.
  - intros ????????? (_ & _ & _ & Hd). exact (Hd _ _ _ _ _).
  - exact INIT_LIST_HEAD_rep.
  - exact list_add_rep.
  - exact list_add_tail_rep.
  - exact list_del_rep.
  - exact list_del_reinit_rep.
  - exact list_empty_rep.
  - exact list_first_entry_rep.
  - exact list_for_each_rep.
Defined.

(** Clients that delete nodes again and again need more: a node that is in no
    list and points at itself ([lh_idle]) may be deleted without effect. *)
Class IdleNodes (H N W : Type) `{LH : ListHeap H N W} := {
  lh_idle : W -> N -> Prop;
  lh_init_node_rep HS XS w L x :
    lh_rep HS XS w L -> x ∈ XS -> unlinked L x ->
    exists w', lh_init_node x w = Done w' /\ lh_rep HS XS w' L /\
      lh_idle w' x /\ forall y, y <> x -> lh_idle w y -> lh_idle w' y;
  lh_init_idle HS XS w w' L h y :
    lh_rep HS XS w L -> h ∈ HS -> lh_init h w = Done w' -> lh_idle w y -> lh_idle w' y;
  lh_add_tail_idle HS XS w w' L h l x y :
    lh_rep HS XS w L -> L !! h = Some l -> x ∈ XS -> unlinked L y -> y <> x ->
    lh_add_tail x h w = Done w' -> lh_idle w y -> lh_idle w' y;
  lh_del_reinit_idle HS XS w w' L h l1 l2 x :
    lh_rep HS XS w L -> L !! h = Some (l1 ++ x :: l2) -> lh_del_reinit x w = Done w' ->
    lh_idle w' x /\ forall y, unlinked L y -> lh_idle w y -> lh_idle w' y;
  lh_del_reinit_noop HS XS w L x :
    lh_rep HS XS w L -> x ∈ XS -> unlinked L x -> lh_idle w x ->
    exists w', lh_del_reinit x w = Done w' /\ lh_rep HS XS w' L /\
      lh_idle w' x /\ forall y, y <> x -> lh_idle w y -> lh_idle w' y
}.

#[export] Instance pointer_idle_nodes {H N} `{Countable H, Countable N} :
  IdleNodes H N (gmap (lptr H N) (list_head (lptr H N))).
Proof.
  refine {| lh_idle := idle |}.
  - exact INIT_LIST_HEAD_node.
  - exact INIT_LIST_HEAD_idle.
  - exact list_add_tail_idle.
  - exact list_del_reinit_idle.
  - exact list_del_reinit_noop.
Defined.

(** ** A session of list operations, as pointers and as lists *)

Section session.
Context {H N : Type} `{Countable H, Countable N}.
Local Abbreviation ptr := (lptr H N).
Local Abbreviation store := (gmap ptr (list_head ptr)).

Inductive lop :=
  | LInit (h : H)
  | LAdd (x : N) (h : H)
  | LAddTail (x : N) (h : H)
  | LDel (x : N) (h : H)
  | LDelReinit (x : N) (h : H)
  | LMove (x : N) (h0 h : H)
  | LMoveTail (x : N) (h0 h : H).

Definition run_ptr (o : lop) (s : store) : outcome store :=
  match o with
  | LInit h => INIT_LIST_HEAD (Head h) s
  | LAdd x h => list_add (Node x) (Head h) s
  | LAddTail x h => list_add_tail (Node x) (Head h) s
  | LDel x _ => list_del (Node x) s
  | LDelReinit x _ => list_del_reinit (Node x) s
  | LMove x _ h => list_move (Node x) (Head h) s
  | LMoveTail x _ h => list_move_tail (Node x) (Head h) s
  end.

Fixpoint run_ptrs (os : list lop) (s : store) : outcome store :=
  match os with
  | [] => Done s
  | o :: os => s ← run_ptr o s; run_ptrs os s
  end.

(** What the caller must know: heads and nodes exist, a node that is added is
    in no list, a node that is removed is in the list named. *)
Definition lists_del (x : N) (h : H) (L : gmap H (list N)) : option (gmap H (list N)) :=
  l ← L !! h;
  if decide (x ∈ (l : list N)) then Some (<[h := filter (fun y : N => y <> x) l]> L) else None.

Definition lists_add (tl : bool) (XS : gset N) (x : N) (h : H) (L : gmap H (list N))
    : option (gmap H (list N)) :=
  l ← L !! h;
  if decide (x ∈ XS /\ map_Forall (fun _ (l : list N) => x ∉ l) L)
  then Some (<[h := if tl then l ++ [x] else x :: l]> L) else None.

Definition run_lists (HS : gset H) (XS : gset N) (o : lop) (L : gmap H (list N))
    : option (gmap H (list N)) :=
  match o with
  | LInit h => if decide (h ∈ HS) then Some (<[h := []]> L) else None
  | LAdd x h => lists_add false XS x h L
  | LAddTail x h => lists_add true XS x h L
  | LDel x h | LDelReinit x h => lists_del x h L
  | LMove x h0 h => L ← lists_del x h0 L; lists_add false XS x h L
  | LMoveTail x h0 h => L ← lists_del x h0 L; lists_add true XS x h L
  end.

Fixpoint run_listss (HS : gset H) (XS : gset N) (os : list lop) (L : gmap H (list N))
    : option (gmap H (list N)) :=
  match os with
  | [] => Some L
  | o :: os => L ← run_lists HS XS o L; run_listss HS XS os L
  end.

Lemma filter_remove (x : N) l1 l2 :
  x ∉ l1 ++ l2 -> filter (fun y : N => y <> x) (l1 ++ x :: l2) = l1 ++ l2.
Proof.
  intros Hx. assert (forall l : list N, x ∉ l -> filter (fun y : N => y <> x) l = l) as Hid.
  { clear. induction l as [|y l IH]; [done|]. intros Hx.
    rewrite elem_of_cons in Hx. rewrite filter_cons_True by (intros ->; tauto).
    rewrite IH; tauto. }
  rewrite elem_of_app in Hx. rewrite filter_app, filter_cons_False by tauto.
  rewrite !Hid; tauto.
Qed.

Lemma lists_del_inv HS XS s (L L' : gmap H (list N)) x h :
  lists_rep HS XS s L -> lists_del x h L = Some L' ->
  exists l1 l2, L !! h = Some (l1 ++ x :: l2) /\ L' = <[h := l1 ++ l2]> L.
Proof.
  unfold lists_del. intros R. destruct (L !! h) as [l|] eqn:E; [|done]. cbn.
  case_decide as Hx; [|done]. intros [= <-].
  apply list_elem_of_split in Hx as (l1 & l2 & ->). exists l1, l2. split; [done|].
  rewrite filter_remove; [done|].
  pose proof (rep_NoDup _ _ _ _ _ _ R E) as Hnd. by apply NoDup_mid in Hnd as [? _].
Qed.

Lemma lists_add_inv tl XS (L L' : gmap H (list N)) x h :
  lists_add tl XS x h L = Some L' ->
  exists l, L !! h = Some l /\ x ∈ XS /\ unlinked L x /\
    L' = <[h := if tl then l ++ [x] else x :: l]> L.
Proof.
  unfold lists_add. destruct (L !! h) as [l|] eqn:E; [|done]. cbn.
  case_decide as Hd; [|done]. destruct Hd as [? Hu].
  intros [= <-]. exists l. split_and!; done.
Qed.

Lemma run_ptr_refines HS XS o s L L' :
  lists_rep HS XS s L -> run_lists HS XS o L = Some L' ->
  exists s', run_ptr o s = Done s' /\ lists_rep HS XS s' L'.
Proof.
  intros R. destruct o as [h|x h|x h|x h|x h|x h0 h|x h0 h]; cbn [run_lists run_ptr].
  - case_decide; [|done]. intros [= <-]. by apply INIT_LIST_HEAD_rep.
  - intros (l & ? & ? & ? & ->)%lists_add_inv. by apply list_add_rep.
  - intros (l & ? & ? & ? & ->)%lists_add_inv. by apply list_add_tail_rep.
  - intros E. destruct (lists_del_inv _ _ _ _ _ _ _ R E) as (l1 & l2 & ? & ->).
    by apply list_del_rep.
  - intros E. destruct (lists_del_inv _ _ _ _ _ _ _ R E) as (l1 & l2 & ? & ->).
    by apply list_del_reinit_rep.
  - intros (L1 & E & (l & ? & ? & ? & ->)%lists_add_inv)%bind_Some.
    destruct (lists_del_inv _ _ _ _ _ _ _ R E) as (l1 & l2 & ? & ->).
    by eapply list_move_rep.
  - intros (L1 & E & (l & ? & ? & ? & ->)%lists_add_inv)%bind_Some.
    destruct (lists_del_inv _ _ _ _ _ _ _ R E) as (l1 & l2 & ? & ->).
    by eapply list_move_tail_rep.
Qed.

(** C3.  The linked lists of [list.h] implement sequences: any session of
    initialisations, insertions, removals and moves whose calls are allowed
    on the lists runs on the pointers without touching a NULL or wild link,
    and [list_for_each_entry] over any head then meets exactly the nodes of
    that head's list, in order. *)
Theorem list_session_refines HS XS os s L L' :
  lists_rep HS XS s L -> run_listss HS XS os L = Some L' ->
  exists s', run_ptrs os s = Done s' /\
    forall h l, L' !! h = Some l -> list_for_each (Head h) s' = Done l.
Proof.
  revert s L. induction os as [|o os IH]; intros s L R; cbn [run_listss run_ptrs].
  - intros [= <-]. exists s. split; [done|]. intros. by eapply list_for_each_rep.
  - intros (L1 & E1 & E2)%bind_Some.
    destruct (run_ptr_refines _ _ _ _ _ _ R E1) as (s1 & -> & R1). ocbn. eauto.
Qed.
End session.

(** A store in which no list is set up yet. *)
Definition blank_lists {H N} `{Countable H, Countable N} (HS : gset H) (XS : gset N)
    : gmap (lptr H N) (list_head (lptr H N)) :=
  gset_to_gmap (ListHead None None) (set_map Head HS ∪ set_map Node XS).

Lemma blank_lists_rep {H N} `{Countable H, Countable N} (HS : gset H) (XS : gset N) :
  lists_rep HS XS (blank_lists HS XS) ∅.
Proof.
  assert (forall p, p ∈ (set_map Head HS ∪ set_map Node XS : gset (lptr H N)) ->
    is_Some (blank_lists HS XS !! p)) as Hp.
  { intros p Hp. exists (ListHead None None). by apply lookup_gset_to_gmap_Some. }
  split_and!.
  - intros h Hh. apply Hp, elem_of_union_l, elem_of_map. eauto.
  - intros n Hn. apply Hp, elem_of_union_r, elem_of_map. eauto.
  - intros h l E. discriminate E.
  - intros h1 h2 l1 l2 n E. discriminate E.
Qed.

#[local] Open Scope Z_scope.

(** Two lists, four nodes. *)
Definition demo_list_store : gmap (lptr Z Z) (list_head (lptr Z Z)) :=
  list_to_map (map (fun p => (p, ListHead None None))
    [Head 0; Head 1; Node 0; Node 1; Node 2; Node 3]).

Definition demo_ops : list (@lop Z Z) :=
  [LInit 0; LInit 1; LAdd 2 0; LAddTail 3 0; LAdd 1 0; LMove 2 0 1; LDelReinit 1 0].

Definition demo_lists : gmap Z (list Z) := <[0 := [3]]> (<[1 := [2]]> ∅).

Lemma demo_list_rep : lists_rep {[0; 1]} {[0; 1; 2; 3]} demo_list_store ∅.
Proof.
  split_and!.
  - intros h [->%elem_of_singleton| ->%elem_of_singleton]%elem_of_union; vm_compute; eauto.
  - intros n Hn. rewrite !elem_of_union, !elem_of_singleton in Hn.
    destruct Hn as [[[->| ->]| ->]| ->]; vm_compute; eauto.
  - intros h l E. discriminate E.
  - intros h1 h2 l1 l2 n E. discriminate E.
Qed.

Lemma list_session_refines_witness : exists s',
  run_ptrs demo_ops demo_list_store = Done s' /\
  list_for_each (Head 0) s' = Done [3] /\ list_for_each (Head 1) s' = Done [2].
Proof.
  destruct (list_session_refines {[0; 1]} {[0; 1; 2; 3]} demo_ops demo_list_store ∅
              demo_lists demo_list_rep ltac:(vm_compute; reflexivity))
    as (s' & E & Hl).
  exists s'. split; [exact E|]. split; apply Hl; vm_compute; reflexivity.
Defined.
