(* ===== verification/Buddy.v ===== *)
(** * Buddy: the physical page allocator of one pool ([src/mm/buddy.c])

    A [struct page *] is the index of the page's metadata counted from
    [pagemeta_start].  The state holds the metadata array, the [num] counter of
    every free list and the store of the intrusive lists behind the free lists;
    the head of [pool->freelists[o].lists] is the pair of the pool's number and
    [o].  The routines run with the pool's lock held, so each is one step. *)

From stdpp Require Import base gmap sets list fin_maps.
From Stdlib Require Import ZArith Lia Znumtheory.
From S2P Require Import Prelude KList.
#[local] Open Scope Z_scope.

Definition START_MEM : Z := 0x82800000.
Definition PHYSTOP : Z := 0x80000000 + 1024 * 1024 * 1024.
Definition BUDDY_MAX_ORDER : Z := 13.
Definition NPAGES : Z := (PHYSTOP - START_MEM) / PGSIZE.

(** [sizeof(struct page)]: two ints, the list links, the page lock, the
    reference count, the flags, the mapping and the page-cache index. *)
Definition sizeof_page : Z := 4 + 4 + 16 + 24 + 8 + 8 + 8 + 8.

(** [struct page], the fields the allocator and copy-on-write use. *)
Record page := Page { allocated : Z; order : Z; refcnt : Z }.

Definition set_allocated (v : Z) (p : page) : page := Page v (order p) (refcnt p).
Definition set_order (v : Z) (p : page) : page := Page (allocated p) v (refcnt p).
Definition set_refcnt (v : Z) (p : page) : page := Page (allocated p) (order p) v.

(** [struct phys_mem_pool]: the fields that never change once it is set up. *)
Record phys_mem_pool := Pool {
  pool_id : Z; start_addr : Z; mem_size : Z; page_metadata : Z
}.

(** A [struct list_head] of the allocator: the head of free list [o] of pool
    [c], or the [list] member of a page. *)
Abbreviation fl_head := (Z * Z)%type.

Section buddy.
Context {W : Type} `{!ListOps fl_head Z W}.

Record state := State {
  pages : gmap Z page;
  nums : gmap fl_head Z;
  lists : W
}.

Definition page_at (s : state) (p : Z) : outcome page := deref (pages s !! p).

(** Writes to [p->...]; [p] must point into the metadata array. *)
Definition upd_page (p : Z) (f : page -> page) (s : state) : outcome state :=
  pg ← page_at s p;
  Done (State (<[p := f pg]> (pages s)) (nums s) (lists s)).

(** [pool->freelists[o].num += d]; [o] must be an index of the array. *)
Definition add_num (pl : phys_mem_pool) (o d : Z) (s : state) : outcome state :=
  n ← deref (nums s !! (pool_id pl, o));
  Done (State (pages s) (<[(pool_id pl, o) := n + d]> (nums s)) (lists s)).

Definition with_lists (f : W -> outcome W) (s : state) : outcome state :=
  w ← f (lists s); Done (State (pages s) (nums s) w).

Definition page_to_offset (pl : phys_mem_pool) (p : Z) : Z :=
  u64 ((p - page_metadata pl) * PGSIZE).

Definition offset_to_page (pl : phys_mem_pool) (offset : Z) : outcome Z :=
  ASSERT (offset mod PGSIZE =? 0);;
  Done (offset / PGSIZE + page_metadata pl).

Definition get_buddy (pl : phys_mem_pool) (p : Z) (s : state) : outcome (option Z) :=
  pg ← page_at s p;
  ASSERT (order pg <? BUDDY_MAX_ORDER);;
  let this_off := page_to_offset pl p in
  let buddy_off := Z.lxor this_off (u64 (Z.shiftl 1 (order pg + 12))) in
  if mem_size pl <=? buddy_off then Done None
  else b ← offset_to_page pl buddy_off; Done (Some b).

(** The search loop of [buddy_get_pages]: the first non empty list of order
    [i], [i+1], ...; [n] iterations are left. *)
Fixpoint find_free (pl : phys_mem_pool) (n : nat) (i : Z) (s : state)
    : outcome (option Z * state) :=
  match n with
  | O => Done (None, s)
  | S n =>
      e ← lh_empty (pool_id pl, i) (lists s);
      if (e : bool) then find_free pl n (i + 1) s
      else
        p ← lh_first (pool_id pl, i) (lists s);
        s ← with_lists (lh_del p) s;
        pg ← page_at s p;
        s ← add_num pl (order pg) (-1) s;
        Done (Some p, s)
  end.

(** The loop of [split_page]. *)
Fixpoint split_loop (fuel : nat) (pl : phys_mem_pool) (o : Z) (p : Z) (s : state)
    : outcome state :=
  pg ← page_at s p;
  if order pg <=? o then Done s
  else match fuel with
  | O => NoFuel
  | S fuel =>
      s ← upd_page p (set_order (order pg - 1)) s;
      b ← get_buddy pl p s;
      b ← deref b;
      bpg ← page_at s b;
      ASSERT (allocated bpg =? 0);;
      pg ← page_at s p;
      s ← upd_page b (set_order (order pg)) s;
      bpg ← page_at s b;
      s ← with_lists (lh_add b (pool_id pl, order bpg)) s;
      s ← add_num pl (order bpg) 1 s;
      split_loop fuel pl o p s
  end.

(** The orders of a pool are 0 to [BUDDY_MAX_ORDER]: no loop over orders
    needs more rounds. *)
Definition order_fuel : nat := Z.to_nat BUDDY_MAX_ORDER.

Definition split_page (pl : phys_mem_pool) (o : Z) (p : Z) (s : state)
    : outcome (Z * state) :=
  pg ← page_at s p;
  ASSERT (o <? order pg);;
  s ← split_loop order_fuel pl o p s;
  Done (p, s).

Definition buddy_get_pages (pl : phys_mem_pool) (o : Z) (s : state)
    : outcome (option Z * state) :=
  ASSERT (o <=? BUDDY_MAX_ORDER);;
  '(r, s) ← find_free pl (Z.to_nat (BUDDY_MAX_ORDER + 1 - o)) o s;
  match r with
  | None => Done (None, s)
  | Some p =>
      pg ← page_at s p;
      '(p, s) ← (if o <? order pg then split_page pl o p s else Done (p, s));
      s ← upd_page p (set_allocated 1) s;
      pg ← page_at s p;
      ASSERT (order pg =? o);;
      Done (Some p, s)
  end.

Fixpoint merge_page (fuel : nat) (pl : phys_mem_pool) (p : Z) (s : state)
    : outcome (Z * state) :=
  pg ← page_at s p;
  if order pg =? BUDDY_MAX_ORDER then Done (p, s)
  else
    b ← get_buddy pl p s;
    match b with
    | None => Done (p, s)
    | Some b =>
        bpg ← page_at s b;
        if (allocated bpg =? 0) && (order bpg =? order pg) then
          s ← with_lists (lh_del b) s;
          s ← add_num pl (order bpg) (-1) s;
          let m := if b <? p then b else p in
          mpg ← page_at s m;
          s ← upd_page m (set_order (order mpg + 1)) s;
          match fuel with
          | O => NoFuel
          | S fuel => merge_page fuel pl m s
          end
        else Done (p, s)
    end.

Definition buddy_free_pages (pl : phys_mem_pool) (p : Z) (s : state) : outcome state :=
  s ← upd_page p (set_allocated 0) s;
  pg ← page_at s p;
  '(p, s) ← (if order pg <? BUDDY_MAX_ORDER then merge_page order_fuel pl p s
             else Done (p, s));
  pg ← page_at s p;
  s ← with_lists (lh_add p (pool_id pl, order pg)) s;
  add_num pl (order pg) 1 s.

(** [init_buddy], with its loops: the free lists, the metadata, and the
    release of every page; [memsize] is the sum its last assertion checks. *)
Fixpoint init_freelists (pl : phys_mem_pool) (n : nat) (o : Z) (s : state)
    : outcome state :=
  match n with
  | O => Done s
  | S n =>
      s ← with_lists (lh_init (pool_id pl, o)) s;
      let s := State (pages s) (<[(pool_id pl, o) := 0]> (nums s)) (lists s) in
      init_freelists pl n (o + 1) s
  end.

Fixpoint init_pages (n : nat) (p : Z) (m : gmap Z page) : gmap Z page :=
  match n with
  | O => m
  | S n => init_pages n (p + 1) (<[p := Page 1 0 0]> m)
  end.

Fixpoint free_range (pl : phys_mem_pool) (n : nat) (p : Z) (s : state) : outcome state :=
  match n with
  | O => Done s
  | S n => s ← buddy_free_pages pl p s; free_range pl n (p + 1) s
  end.

Fixpoint sum_free (pl : phys_mem_pool) (n : nat) (o : Z) (s : state) : outcome Z :=
  match n with
  | O => Done 0
  | S n =>
      k ← deref (nums s !! (pool_id pl, o));
      r ← sum_free pl n (o + 1) s;
      Done (u64 (s32 (k * PGSIZE * Z.shiftl 1 o) + r))
  end.

Definition n_orders : nat := Z.to_nat (BUDDY_MAX_ORDER + 1).

(** [pm] is the address of the metadata array ([pagemeta_start]). *)
Definition init_buddy (pm c start_page start page_num : Z) (s : state)
    : outcome (phys_mem_pool * state) :=
  ASSERT (u64 (pm + start_page * sizeof_page + page_num * sizeof_page) <? START_MEM);;
  let pl := Pool c start (u64 (PGSIZE * page_num)) start_page in
  s ← init_freelists pl n_orders 0 s;
  let s := State (init_pages (Z.to_nat page_num) start_page (pages s)) (nums s) (lists s) in
  s ← free_range pl (Z.to_nat page_num) start_page s;
  memsize ← sum_free pl n_orders 0 s;
  ASSERT (memsize =? mem_size pl);;
  Done (pl, s).

(** [get_free_mem]: the loop over the pools. *)
Fixpoint get_free_mem (pls : list phys_mem_pool) (s : state) : outcome Z :=
  match pls with
  | [] => Done 0
  | pl :: pls =>
      m ← sum_free pl n_orders 0 s;
      r ← get_free_mem pls s;
      Done (u64 (m + r))
  end.
End buddy.
Arguments state : clear implicits.

Definition page_to_pa (p : Z) : Z := u64 (p * PGSIZE + START_MEM).
Definition pa_to_page (pa : Z) : outcome Z :=
  ASSERT (u64 (pa - START_MEM) mod PGSIZE =? 0);;
  Done (u64 (pa - START_MEM) / PGSIZE).

(** A concrete store of list nodes, for running the model. *)
Abbreviation pstore := (gmap (lptr fl_head Z) (list_head (lptr fl_head Z))).

Definition blank_store (c npg : Z) : pstore :=
  list_to_map (map (fun i => (Head (c, Z.of_nat i), ListHead None None)) (seq 0 14) ++
               map (fun i => (Node (Z.of_nat i), ListHead None None)) (seq 0 (Z.to_nat npg))).

Definition boot0 (npg : Z) : state pstore := State ∅ ∅ (blank_store 0 npg).

(** ** The tiling invariant

    [blk] is the ghost partition of a pool's pages into aligned blocks: it maps
    the offset of a block's first page to its order and status.  A floating
    block is one the running operation has taken out of the free lists. *)

Inductive bstatus := SFree | SAlloc | SFloat.
#[export] Instance bstatus_eq_dec : EqDecision bstatus.
Proof. solve_decision. Defined.

Definition alloc_flag (f : bstatus) : Z := match f with SAlloc => 1 | _ => 0 end.

Definition npg (pl : phys_mem_pool) : Z := mem_size pl / PGSIZE.

(** The pool's size is a whole number of pages, below 2^31 bytes. *)
Definition pool_wf (pl : phys_mem_pool) : Prop :=
  0 <= npg pl /\ mem_size pl = npg pl * PGSIZE /\ mem_size pl < 2 ^ 31 /\
  0 <= page_metadata pl.

Definition BUDDY_ORDERS (k : Z) : Prop := 0 <= k <= BUDDY_MAX_ORDER.

Section invariant.
Context {W : Type} `{!ListOps fl_head Z W, !ListHeap fl_head Z W}.
Implicit Types (s : state W) (pl : phys_mem_pool) (L : gmap fl_head (list Z))
  (blk : gmap Z (Z * bstatus)).

Record blocks_ok pl blk : Prop := {
  bo_range i k f : blk !! i = Some (k, f) ->
    BUDDY_ORDERS k /\ 0 <= i /\ i + 2 ^ k <= npg pl /\ (2 ^ k | i);
  bo_cover j : 0 <= j < npg pl ->
    exists i k f, blk !! i = Some (k, f) /\ i <= j < i + 2 ^ k;
  bo_disj i k f i' k' f' : blk !! i = Some (k, f) -> blk !! i' = Some (k', f') ->
    i < i' + 2 ^ k' -> i' < i + 2 ^ k -> i = i'
}.

(** No two free buddies of one order: everything that can be merged is. *)
Definition coalesced blk : Prop :=
  forall i k, blk !! i = Some (k, SFree) -> k < BUDDY_MAX_ORDER ->
    blk !! Z.lxor i (2 ^ k) <> Some (k, SFree).

Definition in_pool pl (p : Z) : Prop :=
  page_metadata pl <= p < page_metadata pl + npg pl.

Record pool_ok HS XS pl s L blk : Prop := {
  ok_wf : pool_wf pl;
  ok_blocks : blocks_ok pl blk;
  ok_coalesced : coalesced blk;
  ok_rep : lh_rep HS XS (lists s) L;
  ok_nodes p : in_pool pl p -> p ∈ XS;
  ok_pages j : 0 <= j < npg pl -> is_Some (pages s !! (page_metadata pl + j));
  ok_head i k f pg : blk !! i = Some (k, f) ->
    pages s !! (page_metadata pl + i) = Some pg ->
    order pg = k /\ allocated pg = alloc_flag f;
  ok_inner j pg : 0 <= j < npg pl -> blk !! j = None ->
    pages s !! (page_metadata pl + j) = Some pg -> allocated pg = 0;
  ok_lists k : BUDDY_ORDERS k -> exists l,
    L !! (pool_id pl, k) = Some l /\
    nums s !! (pool_id pl, k) = Some (Z.of_nat (length l)) /\
    (forall p, p ∈ l <-> blk !! (p - page_metadata pl) = Some (k, SFree));
  ok_sep h l p : L !! h = Some l -> p ∈ l -> in_pool pl p ->
    exists k, BUDDY_ORDERS k /\ h = (pool_id pl, k)
}.

(** ** Blocks *)

Lemma blk_size_pos pl blk i k f :
  blocks_ok pl blk -> blk !! i = Some (k, f) -> 0 < 2 ^ k.
Proof. intros B E. apply pow2_pos. by destruct (bo_range _ _ B _ _ _ E) as ([? _] & _). Qed.

Lemma lxor_range pl blk i k f :
  blocks_ok pl blk -> blk !! i = Some (k, f) -> 0 <= Z.lxor i (2 ^ k).
Proof.
  intros B E. destruct (bo_range _ _ B _ _ _ E) as ([Hk _] & Hi & Hn & Hd).
  apply Z.lxor_nonneg. pose proof (pow2_pos k Hk). split; lia.
Qed.
(** The buddy of a block, when it lies in the pool, heads a block that is no
    bigger. *)
Lemma buddy_heads pl blk i k f :
  blocks_ok pl blk -> blk !! i = Some (k, f) ->
  Z.lxor i (2 ^ k) < npg pl ->
  exists m g, blk !! Z.lxor i (2 ^ k) = Some (m, g) /\ m <= k.
Proof.
  intros B E Hb. destruct (bo_range _ _ B _ _ _ E) as ([Hk _] & Hi & Hn & Hd).
  pose proof (pow2_pos k Hk) as HP.
  set (b := Z.lxor i (2 ^ k)) in *.
  assert (0 <= b) as Hb0 by (by eapply lxor_range).
  assert (2 ^ k | b) as Hbd.
  { destruct (buddy_cases i k Hk Hd) as [[Eb _]|[Eb _]]; fold b in Eb; rewrite Eb;
      [apply Z.divide_add_r|apply Z.divide_sub_r]; try done; apply Z.divide_refl. }
  destruct (bo_cover _ _ B b ltac:(lia)) as (j & m & g & Ej & Hj).
  destruct (bo_range _ _ B _ _ _ Ej) as ([Hm _] & Hj0 & Hjn & Hjd).
  destruct (Z.le_gt_cases m k) as [Hmk|Hmk].
  - exists m, g. split; [|done]. replace b with j; [done|].
    destruct (blocks_nested j m b k) as [? _]; try lia; try done.
  - exfalso.
    assert (j = i) as ->; [|assert (m = k) by congruence; lia].
    (* the common parent of [i] and [b] is inside block [j] *)
    assert (exists c, (2 ^ (k + 1) | c) /\ c <= i /\ i + 2 ^ k <= c + 2 ^ (k + 1) /\
              c <= b /\ b + 2 ^ k <= c + 2 ^ (k + 1)) as (c & Hcd & Hc).
    { rewrite Z.pow_add_r by lia. change (2 ^ 1) with 2.
      destruct (buddy_cases i k Hk Hd) as [[Eb Hd']|[Eb Hd']]; fold b in Eb;
        rewrite Z.pow_add_r in Hd' by lia; change (2 ^ 1) with 2 in Hd'.
      - exists i. rewrite Eb. split; [done|]. lia.
      - exists (i - 2 ^ k). rewrite Eb. split; [done|]. lia. }
    destruct (blocks_nested c (k + 1) j m) as [? ?]; try lia; try done.
    eapply (bo_disj _ _ B); eauto; lia.
Qed.


Lemma blocks_restatus pl blk i k f f' :
  blocks_ok pl blk -> blk !! i = Some (k, f) -> blocks_ok pl (<[i := (k, f')]> blk).
Proof.
  intros B E.
  assert (forall j m g, <[i := (k, f')]> blk !! j = Some (m, g) ->
            exists g', blk !! j = Some (m, g')) as Hold.
  { intros j m g. destruct (decide (j = i)) as [->|].
    - rewrite lookup_insert_eq. intros [= <- <-]. eauto.
    - rewrite lookup_insert_ne by congruence. eauto. }
  constructor.
  - intros j m g (g' & Ej)%Hold. by eapply (bo_range _ _ B).
  - intros j Hj. destruct (bo_cover _ _ B j Hj) as (j0 & m & g & Ej & Hin).
    destruct (decide (j0 = i)) as [->|].
    + exists i, k, f'. rewrite lookup_insert_eq. split; [done|]. by rewrite E in Ej; injection Ej as <- <-.
    + exists j0, m, g. by rewrite lookup_insert_ne by congruence.
  - intros j m g j' m' g' (? & E1)%Hold (? & E2)%Hold. by eapply (bo_disj _ _ B).
Qed.

Lemma blocks_split pl blk i k f f1 f2 :
  blocks_ok pl blk -> blk !! i = Some (k, f) -> 0 < k ->
  blk !! (i + 2 ^ (k - 1)) = None /\
  blocks_ok pl (<[i := (k - 1, f1)]> (<[i + 2 ^ (k - 1) := (k - 1, f2)]> blk)).
Proof.
  intros B E Hk. destruct (bo_range _ _ B _ _ _ E) as ([_ Hk'] & Hi & Hn & Hd).
  set (b := i + 2 ^ (k - 1)).
  assert (2 ^ k = 2 * 2 ^ (k - 1)) as HP.
  { rewrite <- Z.pow_succ_r by lia. f_equal. lia. }
  pose proof (pow2_pos (k - 1) ltac:(lia)) as HP'.
  assert (2 ^ (k - 1) | i) as Hdi by (etrans; [apply pow2_divide|exact Hd]; lia).
  assert (blk !! b = None) as Hb.
  { destruct (blk !! b) as [[m g]|] eqn:Eb; [|done].
    pose proof (blk_size_pos _ _ _ _ _ B Eb).
    assert (b = i); [|lia]. eapply (bo_disj _ _ B); eauto; lia. }
  split; [done|].
  assert (forall j m g, <[i := (k - 1, f1)]> (<[b := (k - 1, f2)]> blk) !! j = Some (m, g) ->
    (j = i /\ m = k - 1) \/ (j = b /\ m = k - 1) \/
    (j <> i /\ j <> b /\ blk !! j = Some (m, g))) as Hold.
  { intros j m g. destruct (decide (j = i)) as [->|].
    - rewrite lookup_insert_eq. intros [= <- _]. tauto.
    - rewrite lookup_insert_ne by congruence. destruct (decide (j = b)) as [->|].
      + rewrite lookup_insert_eq. intros [= <- _]. tauto.
      + rewrite lookup_insert_ne by congruence. tauto. }
  constructor.
  - intros j m g [(-> & ->)|[(-> & ->)|(_ & _ & Ej)]]%Hold.
    + unfold BUDDY_ORDERS, BUDDY_MAX_ORDER in *. split_and!; try lia. done.
    + unfold BUDDY_ORDERS, BUDDY_MAX_ORDER, b in *. split_and!; try lia.
      apply Z.divide_add_r; [done|apply Z.divide_refl].
    + by eapply (bo_range _ _ B).
  - intros j Hj. destruct (bo_cover _ _ B j Hj) as (j0 & m & g & Ej & Hin).
    destruct (decide (j0 = i)) as [->|Hne].
    + rewrite E in Ej. injection Ej as <- <-. destruct (Z.lt_ge_cases j b).
      * exists i, (k - 1), f1. rewrite lookup_insert_eq. split; [done|lia].
      * exists b, (k - 1), f2. rewrite lookup_insert_ne by (unfold b; lia).
        rewrite lookup_insert_eq. split; [done|lia].
    + exists j0, m, g. rewrite !lookup_insert_ne by congruence. done.
  - intros j m g j' m' g' H1%Hold H2%Hold Ha Hc.
    assert (forall j m g, j <> i -> blk !! j = Some (m, g) ->
              i < j + 2 ^ m -> j < i + 2 ^ k -> False) as Hx.
    { intros j1 m1 g1 Hne E1 ??. apply Hne. eapply (bo_disj _ _ B); eauto. }
    destruct H1 as [(-> & ->)|[(-> & ->)|(Hn1 & Hn2 & E1)]],
             H2 as [(-> & ->)|[(-> & ->)|(Hn3 & Hn4 & E2)]]; subst b; try lia.
    + exfalso. eapply (Hx j'); eauto; lia.
    + exfalso. eapply (Hx j'); eauto; lia.
    + exfalso. eapply (Hx j); eauto; lia.
    + exfalso. eapply (Hx j); eauto; lia.
    + by eapply (bo_disj _ _ B).
Qed.

(** The two halves [c] and [c + 2^k] of an aligned block merge. *)
Lemma blocks_join pl blk c k f g h :
  blocks_ok pl blk -> (2 ^ (k + 1) | c) -> k < BUDDY_MAX_ORDER ->
  blk !! c = Some (k, f) -> blk !! (c + 2 ^ k) = Some (k, g) ->
  blocks_ok pl (<[c := (k + 1, h)]> (delete (c + 2 ^ k) blk)).
Proof.
  intros B Hd Hk E1 E2.
  destruct (bo_range _ _ B _ _ _ E1) as ([Hk0 _] & Hc & Hn & _).
  destruct (bo_range _ _ B _ _ _ E2) as (_ & _ & Hn2 & _).
  pose proof (pow2_pos k Hk0) as HP.
  assert (2 ^ (k + 1) = 2 * 2 ^ k) as HPS by (apply Z.pow_succ_r; lia).
  assert (forall j m g, <[c := (k + 1, h)]> (delete (c + 2 ^ k) blk) !! j = Some (m, g) ->
    (j = c /\ m = k + 1) \/ (j <> c /\ j <> c + 2 ^ k /\ blk !! j = Some (m, g))) as Hold.
  { intros j m g'. destruct (decide (j = c)) as [->|].
    - rewrite lookup_insert_eq. intros [= <- _]. tauto.
    - rewrite lookup_insert_ne by congruence. rewrite lookup_delete_Some. naive_solver. }
  constructor.
  - intros j m g' [(-> & ->)|(_ & _ & Ej)]%Hold; [|by eapply (bo_range _ _ B)].
    unfold BUDDY_ORDERS, BUDDY_MAX_ORDER in *. split_and!; try lia. done.
  - intros j Hj. destruct (bo_cover _ _ B j Hj) as (j0 & m & g' & Ej & Hin).
    destruct (decide (j0 = c)) as [->|]; [|destruct (decide (j0 = c + 2 ^ k)) as [->|]].
    + rewrite E1 in Ej. injection Ej as <- <-.
      exists c, (k + 1), h. rewrite lookup_insert_eq. split; [done|lia].
    + rewrite E2 in Ej. injection Ej as <- <-.
      exists c, (k + 1), h. rewrite lookup_insert_eq. split; [done|lia].
    + exists j0, m, g'. rewrite lookup_insert_ne, lookup_delete_ne by congruence. done.
  - intros j m g1 j' m' g2 H1%Hold H2%Hold Ha Hc'.
    assert (forall j m g, j <> c -> j <> c + 2 ^ k -> blk !! j = Some (m, g) ->
              c < j + 2 ^ m -> j < c + 2 ^ (k + 1) -> False) as Hx.
    { intros j1 m1 g1' Hne Hne' Ej1 ??. destruct (Z.lt_ge_cases j1 (c + 2 ^ k)).
      - apply Hne. eapply (bo_disj _ _ B); eauto.
      - apply Hne'. eapply (bo_disj _ _ B); eauto; lia. }
    destruct H1 as [(-> & ->)|(Hn1 & Hn2' & Ej1)], H2 as [(-> & ->)|(Hn3 & Hn4 & Ej2)]; try lia.
    + exfalso. eapply (Hx j'); eauto; lia.
    + exfalso. eapply (Hx j); eauto; lia.
    + by eapply (bo_disj _ _ B).
Qed.

Lemma get_buddy_val pl s i pg :
  pool_wf pl -> 0 <= i < npg pl ->
  pages s !! (page_metadata pl + i) = Some pg ->
  0 <= order pg < BUDDY_MAX_ORDER ->
  get_buddy pl (page_metadata pl + i) s =
    Done (if npg pl <=? Z.lxor i (2 ^ order pg) then None
          else Some (page_metadata pl + Z.lxor i (2 ^ order pg))).
Proof.
  intros (Hn & Hm & Hs & Hb) Hi E Hk. unfold BUDDY_MAX_ORDER, PGSIZE in *.
  unfold get_buddy, page_at. rewrite E. ocbn.
  rewrite (proj2 (Z.ltb_lt _ _)) by (unfold BUDDY_MAX_ORDER; lia). ocbn.
  unfold page_to_offset.
  replace (page_metadata pl + i - page_metadata pl) with i by lia.
  change PGSIZE with (2 ^ 12). rewrite u64_small by lia.
  rewrite Z.shiftl_mul_pow2, Z.mul_1_l by lia.
  assert (2 ^ (order pg + 12) < 2 ^ 64) by (apply Z.pow_lt_mono_r; lia).
  pose proof (pow2_pos (order pg + 12) ltac:(lia)).
  rewrite u64_small, lxor_scale by lia.
  set (b := Z.lxor i (2 ^ order pg)). change (2 ^ 12) with 4096.
  replace (mem_size pl <=? b * 4096) with (npg pl <=? b).
  2: { destruct (Z.leb_spec (npg pl) b), (Z.leb_spec (mem_size pl) (b * 4096)); lia. }
  destruct (npg pl <=? b); [done|].
  unfold offset_to_page, PGSIZE. rewrite Z.mod_mul, Z.eqb_refl, Z.div_mul by lia. ocbn.
  by rewrite Z.add_comm.
Qed.

(** What an operation on pool [pl] may touch. *)
Record frame pl s s' L L' : Prop := {
  fr_pages p : ~ in_pool pl p -> pages s' !! p = pages s !! p;
  fr_dom p : is_Some (pages s !! p) -> is_Some (pages s' !! p);
  fr_ref p : refcnt <$> pages s' !! p = refcnt <$> pages s !! p;
  fr_nums h : fst h <> pool_id pl -> nums s' !! h = nums s !! h;
  fr_lists h : fst h <> pool_id pl -> L' !! h = L !! h;
  fr_nodes h l' p : L' !! h = Some l' -> p ∈ l' -> ~ in_pool pl p ->
    exists l, L !! h = Some l /\ p ∈ l
}.

Lemma frame_refl pl s L : frame pl s s L L.
Proof. constructor; eauto. Qed.

Lemma frame_trans pl s1 s2 s3 L1 L2 L3 :
  frame pl s1 s2 L1 L2 -> frame pl s2 s3 L2 L3 -> frame pl s1 s3 L1 L3.
Proof.
  intros [A1 B1 C1 D1 E1 G1] [A2 B2 C2 D2 E2 G2]. constructor; intros.
  - by rewrite A2, A1.
  - auto.
  - by rewrite C2, C1.
  - by rewrite D2, D1.
  - by rewrite E2, E1.
  - destruct (G2 h l' p) as (l2 & ? & ?); auto. by apply (G1 h l2 p).
Qed.

Lemma page_at_run s p pg : pages s !! p = Some pg -> page_at s p = Done pg.
Proof. intros E. unfold page_at. by rewrite E. Qed.

(** Writing a page of the pool, keeping its reference count. *)
Lemma upd_page_run p f s pg :
  pages s !! p = Some pg ->
  upd_page p f s = Done (State (<[p := f pg]> (pages s)) (nums s) (lists s)).
Proof. intros E. unfold upd_page, page_at. by rewrite E. Qed.

Lemma frame_page pl s L p pg pg' :
  in_pool pl p -> pages s !! p = Some pg -> refcnt pg' = refcnt pg ->
  frame pl s (State (<[p := pg']> (pages s)) (nums s) (lists s)) L L.
Proof.
  intros Hp E Hr. constructor; cbn; eauto; intros q.
  - intros Hq. by rewrite lookup_insert_ne by congruence.
  - intros Hq. destruct (decide (p = q)) as [->|]; [rewrite lookup_insert_eq; eauto|].
    by rewrite lookup_insert_ne.
  - destruct (decide (p = q)) as [->|]; [rewrite lookup_insert_eq, E; cbn; congruence|].
    by rewrite lookup_insert_ne.
Qed.

Lemma frame_list pl s L k l (w : W) n :
  (forall p, p ∈ l -> ~ in_pool pl p -> exists l0, L !! (pool_id pl, k) = Some l0 /\ p ∈ l0) ->
  frame pl s (State (pages s) (<[(pool_id pl, k) := n]> (nums s)) w) L
    (<[(pool_id pl, k) := l]> L).
Proof.
  intros Hl. constructor; cbn; auto; try (intros h Hh; by rewrite lookup_insert_ne by (intros <-; by apply Hh)).
  intros h l' p. destruct (decide ((pool_id pl, k) = h)) as [<-|].
  - rewrite lookup_insert_eq. intros [= <-]. apply Hl.
  - rewrite lookup_insert_ne by done. eauto.
Qed.

(** The free list of an order, as [pool_ok] sees it. *)
Lemma ok_list_member HS XS pl s L blk k l i :
  pool_ok HS XS pl s L blk -> BUDDY_ORDERS k -> L !! (pool_id pl, k) = Some l ->
  page_metadata pl + i ∈ l <-> blk !! i = Some (k, SFree).
Proof.
  intros P Hk E. destruct (ok_lists _ _ _ _ _ _ P k Hk) as (l' & E' & _ & Hl).
  rewrite E in E'. injection E' as <-. rewrite Hl.
  by replace (page_metadata pl + i - page_metadata pl) with i by lia.
Qed.

Lemma ok_list_order HS XS pl s L blk h l i k f :
  pool_ok HS XS pl s L blk -> L !! h = Some l -> page_metadata pl + i ∈ l ->
  blk !! i = Some (k, f) -> h = (pool_id pl, k) /\ f = SFree.
Proof.
  intros P E Hi Eb. destruct (bo_range _ _ (ok_blocks _ _ _ _ _ _ P) _ _ _ Eb) as (Hk & ? & ? & _).
  assert (0 < 2 ^ k) by (apply pow2_pos; apply Hk).
  destruct (ok_sep _ _ _ _ _ _ P h l (page_metadata pl + i)) as (k' & Hk' & ->); auto.
  { unfold in_pool. lia. }
  apply (ok_list_member _ _ _ _ _ _ _ _ _ P Hk' E) in Hi. rewrite Eb in Hi.
  by injection Hi as -> ->.
Qed.

(** Changing the status of one block together with its free list. *)
Lemma ok_restatus HS XS pl s L blk i k f f' l l' n w :
  pool_ok HS XS pl s L blk -> blk !! i = Some (k, f) -> alloc_flag f' = alloc_flag f ->
  coalesced (<[i := (k, f')]> blk) ->
  L !! (pool_id pl, k) = Some l ->
  lh_rep HS XS w (<[(pool_id pl, k) := l']> L) ->
  n = Z.of_nat (length l') ->
  (forall p, p ∈ l' <-> (p = page_metadata pl + i /\ f' = SFree) \/
                       (p <> page_metadata pl + i /\ p ∈ l)) ->
  pool_ok HS XS pl (State (pages s) (<[(pool_id pl, k) := n]> (nums s)) w)
    (<[(pool_id pl, k) := l']> L) (<[i := (k, f')]> blk).
Proof.
  intros P E Hf Hco El R -> Hmem. destruct P.
  destruct (bo_range _ _ ok_blocks0 _ _ _ E) as (Hk & _).
  constructor; cbn; auto.
  - by eapply blocks_restatus.
  - intros j m g pg Ej Ep. destruct (decide (i = j)) as [->|].
    + rewrite lookup_insert_eq in Ej. injection Ej as <- <-. rewrite Hf. by eapply ok_head0.
    + rewrite lookup_insert_ne in Ej by done. by eapply ok_head0.
  - intros j pg Hj Ej. destruct (decide (i = j)) as [->|].
    + by rewrite lookup_insert_eq in Ej.
    + rewrite lookup_insert_ne in Ej by done. by apply ok_inner0.
  - intros m Hm. destruct (decide (m = k)) as [->|Hne].
    + exists l'. rewrite !lookup_insert_eq. split_and!; [done..|]. intros p. rewrite Hmem.
      destruct (ok_lists0 k Hm) as (l0 & El0 & _ & Hl0). rewrite El in El0. injection El0 as <-.
      destruct (decide (p = page_metadata pl + i)) as [->|Hp].
      * replace (page_metadata pl + i - page_metadata pl) with i by lia.
        rewrite lookup_insert_eq. naive_solver.
      * rewrite lookup_insert_ne by lia. rewrite <- Hl0. tauto.
    + rewrite !lookup_insert_ne by congruence.
      destruct (ok_lists0 m Hm) as (l0 & El0 & En0 & Hl0). exists l0. split_and!; [done..|].
      intros p. rewrite Hl0. destruct (decide (p - page_metadata pl = i)) as [->|].
      * rewrite lookup_insert_eq, E. naive_solver.
      * by rewrite lookup_insert_ne by done.
  - intros h l0 p E0 Hp Hin. destruct (decide (h = (pool_id pl, k))) as [->|]; [eauto|].
    rewrite lookup_insert_ne in E0 by done. eauto.
Qed.

Lemma coalesced_float blk i k f :
  coalesced blk -> f <> SFree -> coalesced (<[i := (k, f)]> blk).
Proof.
  intros Hc Hf j m. destruct (decide (i = j)) as [->|].
  - rewrite lookup_insert_eq. intros [= _ ?]. done.
  - rewrite lookup_insert_ne by done. intros E Hm. specialize (Hc j m E Hm).
    destruct (decide (i = Z.lxor j (2 ^ m))) as [->|].
    + rewrite lookup_insert_eq. intros [= _ ?]. done.
    + by rewrite lookup_insert_ne.
Qed.

Lemma coalesced_free blk i k :
  coalesced blk -> (k < BUDDY_MAX_ORDER -> blk !! Z.lxor i (2 ^ k) <> Some (k, SFree)) ->
  0 <= k -> coalesced (<[i := (k, SFree)]> blk).
Proof.
  intros Hc Hi Hk j m. destruct (decide (i = j)) as [->|].
  - rewrite lookup_insert_eq. intros [= ->] Hm. rewrite lookup_insert_ne; [auto|].
    intros Hx. symmetry in Hx.
    pose proof (Z.lxor_nilpotent j) as Hn. rewrite <- Hx in Hn at 2.
    rewrite <- Z.lxor_assoc, Z.lxor_nilpotent, Z.lxor_0_l in Hn.
    pose proof (pow2_pos m Hk). lia.
  - rewrite lookup_insert_ne by done. intros E Hm.
    destruct (decide (i = Z.lxor j (2 ^ m))) as [->|].
    + rewrite lookup_insert_eq. intros [= ->]. specialize (Hi Hm).
      by rewrite lxor_involutive in Hi.
    + rewrite lookup_insert_ne by done. by apply Hc.
Qed.

(** Taking a free block out of its list. *)
Lemma take_block HS XS pl s L blk i k :
  pool_ok HS XS pl s L blk -> blk !! i = Some (k, SFree) ->
  exists s1 s2 L', with_lists (lh_del (page_metadata pl + i)) s = Done s1 /\
    pages s1 = pages s /\
    add_num pl k (-1) s1 = Done s2 /\ pages s2 = pages s /\
    pool_ok HS XS pl s2 L' (<[i := (k, SFloat)]> blk) /\ frame pl s s2 L L'.
Proof.
  intros P E. destruct (bo_range _ _ (ok_blocks _ _ _ _ _ _ P) _ _ _ E) as (Hk & _).
  destruct (ok_lists _ _ _ _ _ _ P k Hk) as (l & El & En & Hl).
  assert (page_metadata pl + i ∈ l) as Hin by (by eapply ok_list_member).
  apply list_elem_of_split in Hin as (l1 & l2 & ->).
  destruct (lh_del_rep _ _ _ _ _ _ _ _ (ok_rep _ _ _ _ _ _ P) El) as (w & Ew & Rw).
  pose proof (lh_rep_NoDup _ _ _ _ _ _ (ok_rep _ _ _ _ _ _ P) El) as Hnd.
  apply NoDup_mid in Hnd as [Hni _].
  eexists _, _, _. unfold with_lists. rewrite Ew. ocbn. split; [done|]. split; [done|].
  unfold add_num; cbn [nums pages lists]. rewrite En. ocbn. split; [done|]. split; [done|].
  split; cycle 1.
  { apply frame_list with (l := l1 ++ l2). intros p Hp _. exists (l1 ++ page_metadata pl + i :: l2). split; [done|].
    apply elem_of_mid. by right. }
  eapply ok_restatus; try done.
  - apply coalesced_float; [by eapply ok_coalesced|done].
  - rewrite !length_app. cbn. lia.
  - intros p. rewrite elem_of_mid. split.
    + intros Hp. right. split; [|tauto]. by intros ->.
    + intros [[_ ?]|[? [?|?]]]; done.
Qed.

(** Putting a floating block into the list of its order. *)
Lemma give_block HS XS pl s L blk i k :
  pool_ok HS XS pl s L blk -> blk !! i = Some (k, SFloat) ->
  (k < BUDDY_MAX_ORDER -> blk !! Z.lxor i (2 ^ k) <> Some (k, SFree)) ->
  exists s1 s2 L', with_lists (lh_add (page_metadata pl + i) (pool_id pl, k)) s = Done s1 /\
    pages s1 = pages s /\
    add_num pl k 1 s1 = Done s2 /\ pages s2 = pages s /\
    pool_ok HS XS pl s2 L' (<[i := (k, SFree)]> blk) /\ frame pl s s2 L L'.
Proof.
  intros P E Hb. destruct (bo_range _ _ (ok_blocks _ _ _ _ _ _ P) _ _ _ E) as (Hk & Hi & Hn & _).
  assert (0 < 2 ^ k) by (apply pow2_pos, Hk).
  destruct (ok_lists _ _ _ _ _ _ P k Hk) as (l & El & En & Hl).
  assert (unlinked L (page_metadata pl + i)) as Hu.
  { intros h0 l0 E0 Hin. by destruct (ok_list_order _ _ _ _ _ _ _ _ _ _ _ P E0 Hin E). }
  destruct (lh_add_rep HS XS (lists s) L (pool_id pl, k) l (page_metadata pl + i))
    as (w & Ew & Rw); auto.
  { by eapply ok_rep. }
  { eapply ok_nodes; [done|]. unfold in_pool. lia. }
  eexists _, _, _. unfold with_lists. rewrite Ew. ocbn. split; [done|]. split; [done|].
  unfold add_num; cbn [nums pages lists]. rewrite En. ocbn. split; [done|]. split; [done|].
  split; cycle 1.
  { apply frame_list with (l := page_metadata pl + i :: l).
    intros p [->|Hp]%elem_of_cons Hn0; [|eauto].
    exfalso. apply Hn0. unfold in_pool. lia. }
  eapply ok_restatus; try done.
  - apply coalesced_free; [by eapply ok_coalesced|done|apply Hk].
  - cbn. lia.
  - intros p. rewrite elem_of_cons. split.
    + intros [->|Hp]; [by left|]. right. split; [|done]. intros ->. by eapply Hu.
    + tauto.
Qed.

(** Ghost relations between the partitions before and after an operation. *)
Definition same_alloc blk blk' : Prop :=
  forall j m, blk' !! j = Some (m, SAlloc) <-> blk !! j = Some (m, SAlloc).
Definition only_float blk i : Prop :=
  forall j m, blk !! j = Some (m, SFloat) -> j = i.

Lemma same_alloc_trans b1 b2 b3 : same_alloc b1 b2 -> same_alloc b2 b3 -> same_alloc b1 b3.
Proof. intros A B j m. by rewrite (B j m), (A j m). Qed.

Lemma same_alloc_insert blk i k f k' f' :
  blk !! i = Some (k, f) -> f <> SAlloc -> f' <> SAlloc ->
  same_alloc blk (<[i := (k', f')]> blk).
Proof.
  intros E Hf Hf' j m. destruct (decide (i = j)) as [->|].
  - rewrite lookup_insert_eq, E. naive_solver.
  - by rewrite lookup_insert_ne.
Qed.

Lemma page_cases pl p : in_pool pl p -> exists j, p = page_metadata pl + j /\ 0 <= j < npg pl.
Proof. intros Hp. exists (p - page_metadata pl). unfold in_pool in Hp. lia. Qed.

Lemma ok_join HS XS pl s L blk c k pg :
  pool_ok HS XS pl s L blk -> (2 ^ (k + 1) | c) -> k < BUDDY_MAX_ORDER ->
  blk !! c = Some (k, SFloat) -> blk !! (c + 2 ^ k) = Some (k, SFloat) ->
  pages s !! (page_metadata pl + c) = Some pg ->
  pool_ok HS XS pl
    (State (<[page_metadata pl + c := set_order (k + 1) pg]> (pages s)) (nums s) (lists s)) L
    (<[c := (k + 1, SFloat)]> (delete (c + 2 ^ k) blk)).
Proof.
  intros P Hd Hk E1 E2 Ep. pose proof P as []. 
  pose proof (blk_size_pos _ _ _ _ _ ok_blocks0 E1) as HP.
  assert (forall j m g, g <> SFloat ->
    <[c := (k + 1, SFloat)]> (delete (c + 2 ^ k) blk) !! j = Some (m, g) <->
    blk !! j = Some (m, g)) as Hold.
  { intros j m g Hg. destruct (decide (c = j)) as [->|].
    - rewrite lookup_insert_eq, E1. naive_solver.
    - rewrite lookup_insert_ne, lookup_delete_Some by done.
      split; [tauto|]. intros Ej. split; [|done]. intros <-. rewrite E2 in Ej. naive_solver. }
  constructor; cbn; auto.
  - by eapply blocks_join.
  - intros j m Ej Hm. apply Hold in Ej; [|done].
    rewrite Hold by done. by apply ok_coalesced0.
  - intros j Hj. destruct (decide (c = j)) as [->|]; [rewrite lookup_insert_eq; eauto|].
    rewrite lookup_insert_ne by lia. auto.
  - intros j m g pg' Ej Ep'. destruct (decide (c = j)) as [->|Hne].
    + rewrite lookup_insert_eq in Ej; rewrite lookup_insert_eq in Ep'. injection Ej as <- <-. injection Ep' as <-.
      split; [done|]. cbn. by destruct (ok_head0 j k SFloat pg E1 Ep) as [_ ->].
    + rewrite lookup_insert_ne in Ej by done; rewrite lookup_insert_ne in Ep' by lia.
      apply lookup_delete_Some in Ej as [_ Ej]. eauto.
  - intros j pg' Hj Ej Ep'. destruct (decide (c = j)) as [->|Hne].
    + by rewrite lookup_insert_eq in Ej.
    + rewrite lookup_insert_ne in Ej by done; rewrite lookup_insert_ne in Ep' by lia.
      destruct (decide (c + 2 ^ k = j)) as [<-|].
      * by destruct (ok_head0 _ _ _ _ E2 Ep') as [_ ?].
      * rewrite lookup_delete_ne in Ej by done. eauto.
  - intros m Hm. destruct (ok_lists0 m Hm) as (l & El & En & Hl).
    exists l. split_and!; [done..|]. intros p. by rewrite Hl, Hold by done.
Qed.

(** [merge_page]: it always returns, and the block it returns cannot be
    merged any further. *)
Lemma merge_page_ok HS XS pl fuel : forall s L blk i k,
  pool_ok HS XS pl s L blk -> blk !! i = Some (k, SFloat) -> only_float blk i ->
  BUDDY_MAX_ORDER - k <= Z.of_nat fuel ->
  exists i' k' s' L' blk',
    merge_page fuel pl (page_metadata pl + i) s = Done (page_metadata pl + i', s') /\
    pool_ok HS XS pl s' L' blk' /\ blk' !! i' = Some (k', SFloat) /\
    only_float blk' i' /\
    (k' < BUDDY_MAX_ORDER -> blk' !! Z.lxor i' (2 ^ k') <> Some (k', SFree)) /\
    same_alloc blk blk' /\ frame pl s s' L L'.
Proof.
  induction fuel as [|fuel IH]; intros s L blk i k P E Hf Hfuel.
  all: pose proof (ok_blocks _ _ _ _ _ _ P) as B;
    destruct (bo_range _ _ B _ _ _ E) as ((Hk0 & Hk1) & Hi & Hn & Hd);
    pose proof (pow2_pos k Hk0) as HP;
    destruct (ok_pages _ _ _ _ _ _ P i ltac:(lia)) as [pg Epg];
    destruct (ok_head _ _ _ _ _ _ P _ _ _ _ E Epg) as [Eo Ea];
    cbn [merge_page]; rewrite (page_at_run _ _ _ Epg); ocbn; rewrite Eo.
  - assert (k = BUDDY_MAX_ORDER) as -> by lia. rewrite Z.eqb_refl.
    exists i, BUDDY_MAX_ORDER, s, L, blk. split_and!; try done; try apply frame_refl; lia.
  - destruct (Z.eqb_spec k BUDDY_MAX_ORDER) as [->|Hkne].
    { exists i, BUDDY_MAX_ORDER, s, L, blk. split_and!; try done; try apply frame_refl; lia. }
    rewrite (get_buddy_val pl s i pg (ok_wf _ _ _ _ _ _ P)) by (done || lia). ocbn. rewrite Eo.
    set (b := Z.lxor i (2 ^ k)).
    assert (0 <= b) as Hb0 by (by eapply lxor_range).
    destruct (Z.leb_spec (npg pl) b) as [Hout|Hin].
    { exists i, k, s, L, blk. split_and!; try done; try apply frame_refl.
      intros _ Eb. destruct (bo_range _ _ B _ _ _ Eb) as (_ & _ & ? & _). fold b in H. lia. }
    destruct (buddy_heads pl blk i k SFloat B E Hin) as (m & g & Eb & Hm). fold b in Eb.
    destruct (ok_pages _ _ _ _ _ _ P b ltac:(lia)) as [bpg Ebpg].
    destruct (ok_head _ _ _ _ _ _ P _ _ _ _ Eb Ebpg) as [Ebo Eba].
    rewrite (page_at_run _ _ _ Ebpg). ocbn. rewrite Ebo, Eba.
    destruct (Z.eqb_spec (alloc_flag g) 0) as [Hg|Hg], (Z.eqb_spec m k) as [->|Hmk]; cbn [andb].
    2,3,4: exists i, k, s, L, blk; split_and!; try done; try apply frame_refl;
           intros _; fold b; rewrite Eb; naive_solver.
    assert (g = SFree) as ->.
    { destruct g; [done|done|]. exfalso.
      apply Hf in Eb. destruct (buddy_cases i k Hk0 Hd) as [[Ex _]|[Ex _]]; fold b in Ex; lia. }
    destruct (take_block _ _ _ _ _ _ _ _ P Eb) as (s1 & s2 & L2 & R1 & Ep1 & R2 & Ep2 & P2 & F2).
    rewrite R1. ocbn. rewrite R2. ocbn.
    assert (exists c, (2 ^ (k + 1) | c) /\ ((c = i /\ c + 2 ^ k = b) \/ (c = b /\ c + 2 ^ k = i)))
      as (c & Hcd & Hc).
    { destruct (buddy_cases i k Hk0 Hd) as [[Ex ?]|[Ex ?]]; fold b in Ex.
      - exists i. split; [done|]. left. lia.
      - exists b. split; [by rewrite Ex|]. right. lia. }
    replace (if page_metadata pl + b <? page_metadata pl + i
             then page_metadata pl + b else page_metadata pl + i) with (page_metadata pl + c).
    2: { destruct (Z.ltb_spec (page_metadata pl + b) (page_metadata pl + i)); lia. }
    set (blk2 := <[b := (k, SFloat)]> blk) in *.
    assert (i <> b) as Hib by lia.
    assert (blk2 !! b = Some (k, SFloat)) as E2b by apply lookup_insert_eq.
    assert (blk2 !! i = Some (k, SFloat)) as E2i by (unfold blk2; by rewrite lookup_insert_ne).
    assert (blk2 !! c = Some (k, SFloat) /\ blk2 !! (c + 2 ^ k) = Some (k, SFloat)) as [E2c E2d]
      by (destruct Hc as [[-> ->]|[-> ->]]; done).
    destruct (bo_range _ _ (ok_blocks _ _ _ _ _ _ P2) _ _ _ E2c) as (_ & Hc0 & Hcn & _).
    destruct (ok_pages _ _ _ _ _ _ P2 c ltac:(lia)) as [cpg Ecpg].
    destruct (ok_head _ _ _ _ _ _ P2 _ _ _ _ E2c Ecpg) as [Eco _].
    rewrite (page_at_run _ _ _ Ecpg). ocbn. rewrite Eco.
    rewrite (upd_page_run _ _ _ _ Ecpg). ocbn.
    pose proof (ok_join _ _ _ _ _ _ _ _ _ P2 Hcd ltac:(lia) E2c E2d Ecpg) as P3.
    destruct (IH _ _ _ c (k + 1) P3) as (i' & k' & s' & L' & blk' & R & P' & E' & Hf' & Hb' & Ha' & F').
    { apply lookup_insert_eq. }
    { intros j m Ej. destruct (decide (c = j)) as [->|]; [done|].
      rewrite lookup_insert_ne in Ej by done. apply lookup_delete_Some in Ej as [Hj Ej].
      unfold blk2 in Ej. destruct (decide (b = j)) as [->|]; [lia|].
      rewrite lookup_insert_ne in Ej by done. apply Hf in Ej. lia. }
    { lia. }
    exists i', k', s', L', blk'. split_and!; try done.
    + eapply same_alloc_trans; [|exact Ha']. intros j m.
      destruct (decide (c = j)) as [->|].
      { rewrite lookup_insert_eq. destruct Hc as [[-> _]|[-> _]]; naive_solver. }
      rewrite lookup_insert_ne, lookup_delete_Some by done. unfold blk2.
      destruct (decide (b = j)) as [->|]; [rewrite lookup_insert_eq; naive_solver|].
      rewrite lookup_insert_ne by done. split; [tauto|]. intros Ej. split; [|done].
      intros <-. destruct Hc as [[-> Hx]|[-> Hx]]; [congruence|]. rewrite Hx in Ej. congruence.
    + eapply frame_trans; [exact F2|]. eapply frame_trans; [|exact F'].
      apply (frame_page _ _ _ _ cpg); [unfold in_pool; lia|done|done].
Qed.

(** Marking a block that is in no list as allocated or not. *)
Lemma ok_set_allocated HS XS pl s L blk i k f f' pg :
  pool_ok HS XS pl s L blk -> blk !! i = Some (k, f) -> f <> SFree -> f' <> SFree ->
  pages s !! (page_metadata pl + i) = Some pg ->
  pool_ok HS XS pl
    (State (<[page_metadata pl + i := set_allocated (alloc_flag f') pg]> (pages s))
       (nums s) (lists s)) L (<[i := (k, f')]> blk).
Proof.
  intros P E Hf Hf' Ep. pose proof P as [].
  constructor; cbn; auto.
  - by eapply blocks_restatus.
  - by apply coalesced_float.
  - intros j Hj. destruct (decide (i = j)) as [->|]; [rewrite lookup_insert_eq; eauto|].
    rewrite lookup_insert_ne by lia. auto.
  - intros j m g pg' Ej Ep'. destruct (decide (i = j)) as [->|Hne].
    + rewrite lookup_insert_eq in Ej; rewrite lookup_insert_eq in Ep'.
      injection Ej as <- <-. injection Ep' as <-. split; [|done]. cbn. by eapply ok_head0.
    + rewrite lookup_insert_ne in Ej by done; rewrite lookup_insert_ne in Ep' by lia. eauto.
  - intros j pg' Hj Ej Ep'. destruct (decide (i = j)) as [->|Hne].
    + by rewrite lookup_insert_eq in Ej.
    + rewrite lookup_insert_ne in Ej by done; rewrite lookup_insert_ne in Ep' by lia. eauto.
  - intros m Hm. destruct (ok_lists0 m Hm) as (l & El & En & Hl).
    exists l. split_and!; [done..|]. intros p. rewrite Hl.
    destruct (decide (i = p - page_metadata pl)) as [->|].
    + rewrite lookup_insert_eq, E. naive_solver.
    + by rewrite lookup_insert_ne.
Qed.

(** One round of [split_page] on the metadata: both halves float. *)
Lemma ok_split HS XS pl s L blk i k pg bpg :
  pool_ok HS XS pl s L blk -> blk !! i = Some (k, SFloat) -> 0 < k ->
  pages s !! (page_metadata pl + i) = Some pg ->
  pages s !! (page_metadata pl + (i + 2 ^ (k - 1))) = Some bpg ->
  pool_ok HS XS pl
    (State (<[page_metadata pl + (i + 2 ^ (k - 1)) := set_order (k - 1) bpg]>
             (<[page_metadata pl + i := set_order (k - 1) pg]> (pages s)))
       (nums s) (lists s)) L
    (<[i := (k - 1, SFloat)]> (<[i + 2 ^ (k - 1) := (k - 1, SFloat)]> blk)).
Proof.
  intros P E Hk Ep Eb. pose proof P as [].
  destruct (blocks_split pl blk i k SFloat SFloat SFloat ok_blocks0 E Hk) as [Hbn Hb'].
  destruct (bo_range _ _ ok_blocks0 _ _ _ E) as ((_ & Hk') & Hi & Hn & Hd).
  assert (2 ^ k = 2 * 2 ^ (k - 1)) as HP.
  { rewrite <- Z.pow_succ_r by lia. f_equal. lia. }
  pose proof (pow2_pos (k - 1) ltac:(lia)) as HP'.
  set (b := i + 2 ^ (k - 1)) in *.
  assert (forall j m g, g <> SFloat ->
    <[i := (k - 1, SFloat)]> (<[b := (k - 1, SFloat)]> blk) !! j = Some (m, g) <->
    blk !! j = Some (m, g)) as Hold.
  { intros j m g Hg. destruct (decide (i = j)) as [->|].
    - rewrite lookup_insert_eq, E. naive_solver.
    - rewrite lookup_insert_ne by done. destruct (decide (b = j)) as [<-|].
      + rewrite lookup_insert_eq, Hbn. naive_solver.
      + by rewrite lookup_insert_ne. }
  constructor; cbn; auto.
  - intros j m Ej Hm. apply Hold in Ej; [|done]. rewrite Hold by done. by apply ok_coalesced0.
  - intros j Hj. destruct (decide (b = j)) as [<-|]; [rewrite lookup_insert_eq; eauto|].
    rewrite lookup_insert_ne by lia.
    destruct (decide (i = j)) as [<-|]; [rewrite lookup_insert_eq; eauto|].
    rewrite lookup_insert_ne by lia. auto.
  - intros j m g pg' Ej Ep'. destruct (decide (i = j)) as [<-|Hne].
    { rewrite lookup_insert_eq in Ej. injection Ej as <- <-.
      rewrite lookup_insert_ne in Ep' by lia. rewrite lookup_insert_eq in Ep'.
      injection Ep' as <-. split; [done|]. by destruct (ok_head0 _ _ _ _ E Ep) as [_ <-]. }
    rewrite lookup_insert_ne in Ej by done.
    destruct (decide (b = j)) as [<-|Hne'].
    { rewrite lookup_insert_eq in Ej; rewrite lookup_insert_eq in Ep'.
      injection Ej as <- <-. injection Ep' as <-. split; [done|]. cbn.
      eapply (ok_inner0 b); [lia|done|done]. }
    rewrite lookup_insert_ne in Ej by done.
    rewrite !lookup_insert_ne in Ep' by lia. eauto.
  - intros j pg' Hj Ej Ep'. destruct (decide (i = j)) as [<-|Hne].
    { by rewrite lookup_insert_eq in Ej. }
    rewrite lookup_insert_ne in Ej by done.
    destruct (decide (b = j)) as [<-|Hne']; [by rewrite lookup_insert_eq in Ej|].
    rewrite lookup_insert_ne in Ej by done. rewrite !lookup_insert_ne in Ep' by lia. eauto.
  - intros m Hm. destruct (ok_lists0 m Hm) as (l & El & En & Hl).
    exists l. split_and!; [done..|]. intros p. by rewrite Hl, Hold by done.
Qed.

(** The upper half is the buddy of the lower one. *)
Lemma buddy_of_half i k : 0 < k -> (2 ^ k | i) -> Z.lxor i (2 ^ (k - 1)) = i + 2 ^ (k - 1).
Proof.
  intros Hk Hd. assert (2 ^ k = 2 * 2 ^ (k - 1)) as HP.
  { rewrite <- Z.pow_succ_r by lia. f_equal. lia. }
  pose proof (pow2_pos (k - 1) ltac:(lia)) as HP'.
  destruct (buddy_cases i (k - 1)) as [[Ex _]|[_ Hx]]; [lia| |done|].
  { etrans; [apply pow2_divide|exact Hd]; lia. }
  exfalso. replace (k - 1 + 1) with k in Hx by lia.
  destruct Hd as [q ->]. destruct Hx as [q' Hx]. rewrite HP in Hx.
  assert ((2 * (q - q') - 1) * 2 ^ (k - 1) = 0) as Hz by lia.
  apply Z.mul_eq_0 in Hz. lia.
Qed.

(** [split_page]'s loop brings a floating block down to the order asked for. *)
Lemma split_loop_ok HS XS pl o fuel : forall s L blk i k,
  0 <= o -> pool_ok HS XS pl s L blk -> blk !! i = Some (k, SFloat) -> only_float blk i ->
  o <= k <= o + Z.of_nat fuel ->
  exists s' L' blk',
    split_loop fuel pl o (page_metadata pl + i) s = Done s' /\
    pool_ok HS XS pl s' L' blk' /\ blk' !! i = Some (o, SFloat) /\
    only_float blk' i /\ same_alloc blk blk' /\ frame pl s s' L L'.
Proof.
  induction fuel as [|fuel IH]; intros s L blk i k Ho P E Hf Hk;
    pose proof (ok_blocks _ _ _ _ _ _ P) as B;
    destruct (bo_range _ _ B _ _ _ E) as ((Hk0 & Hk1) & Hi & Hn & Hd);
    pose proof (pow2_pos k Hk0) as HP;
    destruct (ok_pages _ _ _ _ _ _ P i ltac:(lia)) as [pg Epg];
    destruct (ok_head _ _ _ _ _ _ P _ _ _ _ E Epg) as [Eo Ea];
    cbn [split_loop]; rewrite (page_at_run _ _ _ Epg); ocbn; rewrite Eo.
  { assert (k = o) as -> by lia. rewrite Z.leb_refl.
    exists s, L, blk. split_and!; try done; apply frame_refl. }
  destruct (Z.leb_spec k o) as [?|Hlt].
  { assert (k = o) as -> by lia. exists s, L, blk. split_and!; try done; apply frame_refl. }
  assert (2 ^ k = 2 * 2 ^ (k - 1)) as HP2.
  { rewrite <- Z.pow_succ_r by lia. f_equal. lia. }
  pose proof (pow2_pos (k - 1) ltac:(lia)) as HP'.
  destruct (blocks_split pl blk i k SFloat SFloat SFloat B E ltac:(lia)) as [Hbn _].
  set (b := i + 2 ^ (k - 1)) in *.
  destruct (ok_pages _ _ _ _ _ _ P b ltac:(lia)) as [bpg Ebpg].
  rewrite (upd_page_run _ _ _ _ Epg). ocbn.
  rewrite (get_buddy_val pl _ i (set_order (k - 1) pg) (ok_wf _ _ _ _ _ _ P));
    [|lia|cbn [pages]; apply lookup_insert_eq|cbn [order set_order]; unfold BUDDY_MAX_ORDER in *; lia].
  cbn [order set_order]. rewrite (buddy_of_half i k ltac:(lia) Hd). fold b.
  rewrite (proj2 (Z.leb_gt _ _)) by lia. ocbn.
  rewrite (page_at_run _ (page_metadata pl + b) bpg) by (cbn [pages]; by rewrite lookup_insert_ne by lia). ocbn.
  rewrite (ok_inner _ _ _ _ _ _ P b bpg ltac:(lia) Hbn Ebpg), Z.eqb_refl. ocbn.
  rewrite (page_at_run _ (page_metadata pl + i) (set_order (k - 1) pg))
    by (cbn [pages]; by rewrite lookup_insert_eq). ocbn.
  rewrite (upd_page_run (page_metadata pl + b) _ _ bpg) by (cbn [pages]; by rewrite lookup_insert_ne by lia). ocbn.
  cbn [pages nums lists order set_order].
  rewrite (page_at_run _ (page_metadata pl + b) (set_order (k - 1) bpg)) by (cbn [pages]; by rewrite lookup_insert_eq). ocbn.
  cbn [order set_order].
  pose proof (ok_split _ _ _ _ _ _ _ _ _ _ P E ltac:(lia) Epg Ebpg) as P1. fold b in P1.
  destruct (give_block _ _ _ _ _ _ b (k - 1) P1) as (s1 & s2 & L2 & R1 & _ & R2 & _ & P2 & F2).
  { rewrite lookup_insert_ne by lia. apply lookup_insert_eq. }
  { intros _. unfold b. rewrite <- (buddy_of_half i k ltac:(lia) Hd), lxor_involutive.
    by rewrite lookup_insert_eq. }
  rewrite R1. ocbn. rewrite R2. ocbn.
  destruct (IH _ _ _ i (k - 1) Ho P2) as (s' & L' & blk' & R & P' & E' & Hf' & Ha' & F').
  { rewrite lookup_insert_ne by lia. apply lookup_insert_eq. }
  { intros j m. destruct (decide (b = j)) as [<-|]; [by rewrite lookup_insert_eq|].
    rewrite lookup_insert_ne by done. destruct (decide (i = j)) as [<-|]; [done|].
    rewrite !lookup_insert_ne by done. apply Hf. }
  { lia. }
  exists s', L', blk'. split_and!; try done.
  - eapply same_alloc_trans; [|exact Ha']. intros j m.
    destruct (decide (b = j)) as [<-|]; [rewrite lookup_insert_eq, Hbn; naive_solver|].
    rewrite lookup_insert_ne by done.
    destruct (decide (i = j)) as [<-|]; [rewrite lookup_insert_eq, E; naive_solver|].
    by rewrite !lookup_insert_ne.
  - eapply frame_trans; [|exact F']. eapply frame_trans; [|exact F2].
    eapply (frame_trans _ _ (State (<[page_metadata pl + i := set_order (k - 1) pg]> (pages s))
              (nums s) (lists s)) _ _ L).
    + apply (frame_page _ _ _ _ pg); [unfold in_pool; lia|done|done].
    + apply (frame_page _ (State _ _ _) _ _ bpg); [unfold in_pool; lia| |done].
      cbn [pages]. by rewrite lookup_insert_ne by lia.
Qed.

(** ** The abstract pool: which blocks are handed out *)

Definition no_float blk : Prop := forall j m, blk !! j <> Some (m, SFloat).

(** [A] maps the first page of every allocated block to its order. *)
Definition pool_rep HS XS pl s L (A : gmap Z Z) : Prop :=
  exists blk, pool_ok HS XS pl s L blk /\ no_float blk /\
    forall p o, A !! p = Some o <-> blk !! (p - page_metadata pl) = Some (o, SAlloc).

Definition meets (p o q r : Z) : Prop := p < q + 2 ^ r /\ q < p + 2 ^ o.

(** A run of [2^o] pages a pool could hand out. *)
Definition block_of pl (p o : Z) : Prop :=
  page_metadata pl <= p /\ p + 2 ^ o <= page_metadata pl + npg pl /\
  (2 ^ o | p - page_metadata pl).

(** What happens in one pool leaves the others as they are. *)
Record others pl s s' L L' : Prop := {
  ot_pages p : ~ in_pool pl p -> pages s' !! p = pages s !! p;
  ot_nums h : fst h <> pool_id pl -> nums s' !! h = nums s !! h;
  ot_lists h : fst h <> pool_id pl -> L' !! h = L !! h;
  ot_nodes h l' p : L' !! h = Some l' -> p ∈ l' -> ~ in_pool pl p ->
    exists l, L !! h = Some l /\ p ∈ l
}.

Lemma frame_others pl s s' L L' : frame pl s s' L L' -> others pl s s' L L'.
Proof. intros []. by constructor. Qed.

Lemma pool_rep_other HS XS pl pl' s s' L L' A :
  pool_rep HS XS pl' s L A -> others pl s s' L L' -> lh_rep HS XS (lists s') L' ->
  pool_id pl <> pool_id pl' -> (forall p, in_pool pl p -> ~ in_pool pl' p) ->
  pool_rep HS XS pl' s' L' A.
Proof.
  intros (blk & P & F & HA) Fr R Hid Hdis. exists blk. split; [|done].
  assert (forall p, in_pool pl' p -> pages s' !! p = pages s !! p) as Hp.
  { intros p Hp. apply (ot_pages _ _ _ _ _ Fr). intros Hq. by eapply Hdis. }
  assert (forall j, 0 <= j < npg pl' ->
    pages s' !! (page_metadata pl' + j) = pages s !! (page_metadata pl' + j)) as Hj.
  { intros j ?. apply Hp. unfold in_pool. lia. }
  destruct P. constructor; auto.
  - intros j ?. rewrite Hj by done. auto.
  - intros i k f pg E. pose proof (bo_range _ _ ok_blocks0 _ _ _ E) as (Hk & ? & ? & _).
    rewrite Hj by (pose proof (pow2_pos k (proj1 Hk)); lia). by apply ok_head0.
  - intros j pg ? Eb. rewrite Hj by done. by apply ok_inner0.
  - intros k Hk. destruct (ok_lists0 k Hk) as (l & ? & ? & ?). exists l.
    rewrite (ot_lists _ _ _ _ _ Fr), (ot_nums _ _ _ _ _ Fr) by (cbn; congruence). done.
  - intros h l p E Hin Hq.
    destruct (ot_nodes _ _ _ _ _ Fr _ _ _ E Hin) as (l0 & E0 & Hin0);
      [intros Hq'; by eapply Hdis|eauto].
Qed.

(** Blocks in use, their metadata, and changes of other metadata fields. *)
Lemma pool_rep_head HS XS pl s L A p o :
  pool_rep HS XS pl s L A -> A !! p = Some o ->
  BUDDY_ORDERS o /\ block_of pl p o /\
  exists pg, pages s !! p = Some pg /\ order pg = o /\ allocated pg = 1.
Proof.
  intros (blk & P & _ & HA) E%HA.
  destruct (bo_range _ _ (ok_blocks _ _ _ _ _ _ P) _ _ _ E) as (Hk & ? & ? & ?).
  pose proof (pow2_pos o (proj1 Hk)).
  split; [done|]. split; [unfold block_of; split_and!; [lia|lia|done]|].
  destruct (ok_pages _ _ _ _ _ _ P (p - page_metadata pl)) as [pg Epg]; [lia|].
  destruct (ok_head _ _ _ _ _ _ P _ _ _ _ E Epg) as [? ?].
  replace (page_metadata pl + (p - page_metadata pl)) with p in Epg by lia.
  exists pg. done.
Qed.

Definition block_meta (pg : page) : Z * Z := (order pg, allocated pg).

Lemma pool_rep_meta HS XS pl s s' L A :
  pool_rep HS XS pl s L A -> nums s' = nums s -> lists s' = lists s ->
  (forall p, block_meta <$> pages s' !! p = block_meta <$> pages s !! p) ->
  pool_rep HS XS pl s' L A.
Proof.
  intros (blk & P & F & HA) En El Hp. exists blk. split; [|done].
  assert (forall p pg', pages s' !! p = Some pg' -> exists pg, pages s !! p = Some pg /\
    order pg' = order pg /\ allocated pg' = allocated pg) as Hb.
  { intros p pg' E. specialize (Hp p). rewrite E in Hp. cbn in Hp.
    destruct (pages s !! p) as [pg|]; [|done]. exists pg. by injection Hp as -> ->. }
  destruct P. constructor; rewrite ?En, ?El; auto.
  - intros j Hj. specialize (ok_pages0 j Hj) as [pg E]. specialize (Hp (page_metadata pl + j)).
    rewrite E in Hp. destruct (pages s' !! _); [eauto|done].
  - intros i k f pg' E (pg & Epg & -> & ->)%Hb. by eapply ok_head0.
  - intros j pg' Hj Eb (pg & Epg & _ & ->)%Hb. by eapply ok_inner0.
Qed.

Lemma pool_rep_lists HS XS pl s L A : pool_rep HS XS pl s L A -> lh_rep HS XS (lists s) L.
Proof. intros (blk & P & _). by eapply ok_rep. Qed.

Lemma find_free_ok HS XS pl n : forall s L blk i,
  pool_ok HS XS pl s L blk -> 0 <= i -> i + Z.of_nat n = BUDDY_MAX_ORDER + 1 ->
  (find_free pl n i s = Done (None, s) /\
   forall j k, i <= k -> blk !! j <> Some (k, SFree)) \/
  (exists j k s' L', find_free pl n i s = Done (Some (page_metadata pl + j), s') /\
     i <= k /\ blk !! j = Some (k, SFree) /\
     pool_ok HS XS pl s' L' (<[j := (k, SFloat)]> blk) /\ frame pl s s' L L').
Proof.
  induction n as [|n IH]; intros s L blk i P Hi Hn; cbn [find_free].
  - left. split; [done|]. intros j k Hk E.
    destruct (bo_range _ _ (ok_blocks _ _ _ _ _ _ P) _ _ _ E) as ((_ & ?) & _). lia.
  - assert (BUDDY_ORDERS i) as Hio by (unfold BUDDY_ORDERS; lia).
    destruct (ok_lists _ _ _ _ _ _ P i Hio) as (l & El & En & Hl).
    rewrite (lh_empty_rep _ _ _ _ _ _ (ok_rep _ _ _ _ _ _ P) El). ocbn.
    destruct l as [|p l]; cbn [bool_decide].
    + rewrite bool_decide_eq_true_2 by done.
      destruct (IH s L blk (i + 1) P ltac:(lia) ltac:(lia)) as [[R Hno]|(j & k & s' & L' & R & ? & ? & ? & ?)].
      * left. split; [done|]. intros j k Hk E. destruct (decide (k = i)) as [->|].
        -- rewrite <- (ok_list_member _ _ _ _ _ _ _ _ j P Hio El) in E. set_solver.
        -- eapply Hno; [|exact E]. lia.
      * right. exists j, k, s', L'. split_and!; try done. lia.
    + rewrite bool_decide_eq_false_2 by done.
      rewrite (lh_first_rep _ _ _ _ _ _ _ (ok_rep _ _ _ _ _ _ P) El). ocbn.
      assert (blk !! (p - page_metadata pl) = Some (i, SFree)) as Eb by (apply Hl; by left).
      set (j := p - page_metadata pl) in *.
      replace p with (page_metadata pl + j) in * by lia.
      destruct (take_block _ _ _ _ _ _ _ _ P Eb) as (s1 & s2 & L2 & R1 & Ep1 & R2 & Ep2 & P2 & F2).
      destruct (bo_range _ _ (ok_blocks _ _ _ _ _ _ P) _ _ _ Eb) as (_ & Hj & Hjn & _).
      pose proof (pow2_pos i Hi).
      destruct (ok_pages _ _ _ _ _ _ P j ltac:(lia)) as [pg Epg].
      destruct (ok_head _ _ _ _ _ _ P _ _ _ _ Eb Epg) as [Eo _].
      rewrite R1. ocbn. rewrite (page_at_run s1 _ pg) by (by rewrite Ep1). ocbn.
      rewrite Eo, R2. ocbn. right. exists j, i, s2, L2. split_and!; try done; lia.
Qed.

(** Freed memory is never lost to fragmentation the allocator could undo: an
    aligned range with no allocated page lies in one free block. *)
Lemma free_range_in_block pl blk (o : nat) : forall j,
  blocks_ok pl blk -> coalesced blk -> no_float blk ->
  Z.of_nat o <= BUDDY_MAX_ORDER ->
  0 <= j -> j + 2 ^ Z.of_nat o <= npg pl -> (2 ^ Z.of_nat o | j) ->
  (forall i k, blk !! i = Some (k, SAlloc) -> ~ meets i k j (Z.of_nat o)) ->
  exists i k, blk !! i = Some (k, SFree) /\ Z.of_nat o <= k /\
    i <= j /\ j + 2 ^ Z.of_nat o <= i + 2 ^ k.
Proof.
  induction o as [|o IH]; intros j B C F Ho Hj Hn Hd Ha.
  - change (2 ^ Z.of_nat 0) with 1 in *.
    destruct (bo_cover _ _ B j ltac:(lia)) as (i & k & f & E & Hi).
    exists i, k. destruct (bo_range _ _ B _ _ _ E) as ((? & _) & _).
    destruct f; [split_and!; try done; lia| |by apply F in E].
    exfalso. apply (Ha i k E). unfold meets. lia.
  - assert (2 ^ Z.of_nat (S o) = 2 * 2 ^ Z.of_nat o) as HP.
    { rewrite Nat2Z.inj_succ. apply Z.pow_succ_r. lia. }
    pose proof (pow2_pos (Z.of_nat o) ltac:(lia)) as HP0.
    rewrite HP in *.
    assert (2 ^ Z.of_nat o | j) as Hd0 by (etrans; [|exact Hd]; exists 2; ring).
    assert (2 ^ Z.of_nat o | j + 2 ^ Z.of_nat o) as Hd1
      by (apply Z.divide_add_r; [done|apply Z.divide_refl]).
    destruct (IH j) as (i0 & k0 & E0 & Hk0 & Hi0); try done; try lia.
    { intros i k E (? & ?). apply (Ha i k E). unfold meets. rewrite HP. lia. }
    destruct (IH (j + 2 ^ Z.of_nat o)) as (i1 & k1 & E1 & Hk1 & Hi1); try done; try lia.
    { intros i k E (? & ?). apply (Ha i k E). unfold meets. rewrite HP. lia. }
    destruct (bo_range _ _ B _ _ _ E0) as ((? & ?) & _ & _ & Hdi0).
    destruct (bo_range _ _ B _ _ _ E1) as (_ & _ & _ & Hdi1).
    pose proof Hd as Hd'. rewrite <- HP in Hd'.
    destruct (decide (k0 = Z.of_nat o)) as [->|Hne0].
    2: { exists i0, k0. destruct (blocks_nested j (Z.of_nat (S o)) i0 k0); try done; try lia.
         split_and!; try done; lia. }
    destruct (decide (k1 = Z.of_nat o)) as [->|Hne1].
    2: { exists i1, k1. destruct (blocks_nested j (Z.of_nat (S o)) i1 k1); try done; try lia.
         split_and!; try done; lia. }
    exfalso. assert (i0 = j) as -> by lia. assert (i1 = j + 2 ^ Z.of_nat o) as -> by lia.
    apply (C j (Z.of_nat o) E0); [lia|].
    pose proof (buddy_of_half j (Z.of_nat o + 1) ltac:(lia)) as Hb.
    replace (Z.of_nat o + 1 - 1) with (Z.of_nat o) in Hb by lia.
    rewrite Hb; [done|]. replace (Z.of_nat o + 1) with (Z.of_nat (S o)) by lia. done.
Qed.

Lemma buddy_get_ok HS XS pl s L A o :
  pool_rep HS XS pl s L A -> BUDDY_ORDERS o ->
  (buddy_get_pages pl o s = Done (None, s) /\
   forall p, block_of pl p o -> exists q r, A !! q = Some r /\ meets q r p o) \/
  (exists p s' L', buddy_get_pages pl o s = Done (Some p, s') /\ block_of pl p o /\
     (forall q r, A !! q = Some r -> ~ meets q r p o) /\
     pool_rep HS XS pl s' L' (<[p := o]> A) /\ frame pl s s' L L').
Proof.
  intros (blk & P & F & HA) [Ho0 Ho1]. unfold buddy_get_pages.
  rewrite (proj2 (Z.leb_le _ _)) by done. ocbn.
  destruct (find_free_ok HS XS pl (Z.to_nat (BUDDY_MAX_ORDER + 1 - o)) s L blk o P Ho0 ltac:(lia))
    as [[R Hno]|(j & k & s1 & L1 & R & Hok & Ej & P1 & F1)]; rewrite R; ocbn.
  - left. split; [done|]. intros p (Hp0 & Hp1 & Hp2).
    pose proof (ok_blocks _ _ _ _ _ _ P) as B.
    destruct (decide (Exists (fun x => (snd x).2 = SAlloc /\
                meets (fst x) (snd x).1 (p - page_metadata pl) o) (map_to_list blk))) as [Hx|Hx].
    { apply Exists_exists in Hx as ([i [k f]] & Hin & Hf & Hm). cbn in *. subst f.
      apply elem_of_map_to_list in Hin. exists (page_metadata pl + i), k. split.
      - apply HA. by replace (page_metadata pl + i - page_metadata pl) with i by lia.
      - unfold meets in *. lia. }
    exfalso. replace o with (Z.of_nat (Z.to_nat o)) in * by lia.
    destruct (free_range_in_block pl blk (Z.to_nat o) (p - page_metadata pl)) as (i & k & E & Hk & _);
      try done; try lia.
    { by eapply ok_coalesced. }
    { intros i k E Hm. apply Hx, Exists_exists. exists (i, (k, SAlloc)). split; [|done].
      by apply elem_of_map_to_list. }
    by apply (Hno i k).
  - right. pose proof (ok_blocks _ _ _ _ _ _ P) as B.
    destruct (bo_range _ _ B _ _ _ Ej) as ((Hk0 & Hk1) & Hj & Hjn & Hjd).
    pose proof (pow2_pos k Hk0) as HP.
    set (blk1 := <[j := (k, SFloat)]> blk) in *.
    assert (blk1 !! j = Some (k, SFloat)) as E1 by apply lookup_insert_eq.
    assert (only_float blk1 j) as Hf1.
    { intros i m. unfold blk1. destruct (decide (j = i)) as [->|]; [done|].
      rewrite lookup_insert_ne by done. intros Hm. by apply F in Hm. }
    assert (same_alloc blk blk1) as Ha1 by (by eapply same_alloc_insert).
    destruct (ok_pages _ _ _ _ _ _ P1 j ltac:(lia)) as [pg Epg].
    destruct (ok_head _ _ _ _ _ _ P1 _ _ _ _ E1 Epg) as [Eo _].
    rewrite (page_at_run _ _ _ Epg). ocbn. rewrite Eo.
    assert (exists s2 L2 blk2,
      (if o <? k then split_page pl o (page_metadata pl + j) s1
       else Done (page_metadata pl + j, s1)) = Done (page_metadata pl + j, s2) /\
      pool_ok HS XS pl s2 L2 blk2 /\ blk2 !! j = Some (o, SFloat) /\ only_float blk2 j /\
      same_alloc blk1 blk2 /\ frame pl s1 s2 L1 L2) as (s2 & L2 & blk2 & R2 & P2 & E2 & Hf2 & Ha2 & F2).
    { destruct (Z.ltb_spec o k) as [Hlt|Hge].
      - destruct (split_loop_ok HS XS pl o order_fuel s1 L1 blk1 j k Ho0 P1 E1 Hf1)
          as (s2 & L2 & blk2 & R2 & P2 & E2 & Hf2 & Ha2 & F2).
        { unfold order_fuel, BUDDY_MAX_ORDER in *. lia. }
        exists s2, L2, blk2. unfold split_page. rewrite (page_at_run _ _ _ Epg). ocbn.
        rewrite Eo, (proj2 (Z.ltb_lt _ _)) by done. ocbn. rewrite R2. ocbn. done.
      - assert (k = o) as -> by lia. exists s1, L1, blk1. split_and!; try done; apply frame_refl. }
    rewrite R2. ocbn.
    destruct (bo_range _ _ (ok_blocks _ _ _ _ _ _ P2) _ _ _ E2) as (_ & _ & Hjn2 & Hjd2).
    pose proof (pow2_pos o Ho0).
    destruct (ok_pages _ _ _ _ _ _ P2 j ltac:(lia)) as [pg2 Epg2].
    destruct (ok_head _ _ _ _ _ _ P2 _ _ _ _ E2 Epg2) as [Eo2 _].
    rewrite (upd_page_run _ _ _ _ Epg2). ocbn.
    rewrite (page_at_run _ (page_metadata pl + j) (set_allocated 1 pg2))
      by (cbn [pages]; by rewrite lookup_insert_eq). ocbn.
    cbn [order set_allocated]. rewrite Eo2, Z.eqb_refl. ocbn.
    pose proof (ok_set_allocated _ _ _ _ _ _ _ _ SFloat SAlloc _ P2 E2 ltac:(done) ltac:(done) Epg2) as P3.
    assert (same_alloc blk blk2) as Ha by (by eapply same_alloc_trans).
    assert (A !! (page_metadata pl + j) = None) as HAj.
    { destruct (A !! (page_metadata pl + j)) as [r|] eqn:EA; [|done].
      apply HA in EA. replace (page_metadata pl + j - page_metadata pl) with j in EA by lia.
      congruence. }
    eexists _, _, L2. split_and!; [done| | | |].
    + unfold block_of. replace (page_metadata pl + j - page_metadata pl) with j by lia.
      split_and!; [lia|lia|done].
    + intros q r EA Hm. apply HA in EA. apply Ha in EA.
      unfold meets in Hm.
      assert (q - page_metadata pl = j) as Hq.
      { eapply (bo_disj _ _ (ok_blocks _ _ _ _ _ _ P2)); eauto; lia. }
      rewrite Hq in EA. congruence.
    + exists (<[j := (o, SAlloc)]> blk2). split_and!; [done| |].
      * intros i m. destruct (decide (j = i)) as [->|]; [by rewrite lookup_insert_eq|].
        rewrite lookup_insert_ne by done. intros Hm. by apply Hf2 in Hm.
      * intros p r. destruct (decide (p = page_metadata pl + j)) as [->|Hp].
        -- replace (page_metadata pl + j - page_metadata pl) with j by lia.
           rewrite !lookup_insert_eq. split; congruence.
        -- rewrite !lookup_insert_ne by lia. by rewrite HA, (Ha _ _).
    + eapply frame_trans; [exact F1|]. eapply frame_trans; [exact F2|].
      apply (frame_page _ _ _ _ pg2); [unfold in_pool; lia|done|done].
Qed.

Lemma buddy_free_ok HS XS pl s L A p o :
  pool_rep HS XS pl s L A -> A !! p = Some o ->
  exists s' L', buddy_free_pages pl p s = Done s' /\
    pool_rep HS XS pl s' L' (delete p A) /\ frame pl s s' L L'.
Proof.
  intros (blk & P & F & HA) EA. apply HA in EA as E.
  assert (exists i, p = page_metadata pl + i) as [i ->] by (exists (p - page_metadata pl); lia).
  replace (page_metadata pl + i - page_metadata pl) with i in E by lia.
  pose proof (ok_blocks _ _ _ _ _ _ P) as B.
  destruct (bo_range _ _ B _ _ _ E) as ((Ho0 & Ho1) & Hi & Hin & Hid).
  pose proof (pow2_pos o Ho0) as HP.
  destruct (ok_pages _ _ _ _ _ _ P i ltac:(lia)) as [pg Epg].
  destruct (ok_head _ _ _ _ _ _ P _ _ _ _ E Epg) as [Eo _].
  unfold buddy_free_pages. rewrite (upd_page_run _ _ _ _ Epg). ocbn.
  set (s1 := State _ _ _).
  assert (pool_ok HS XS pl s1 L (<[i := (o, SFloat)]> blk)) as P1
    by (eapply (ok_set_allocated _ _ _ _ _ _ _ _ SAlloc SFloat); done).
  assert (pages s1 !! (page_metadata pl + i) = Some (set_allocated 0 pg)) as Epg1
    by (cbn [pages s1]; apply lookup_insert_eq).
  rewrite (page_at_run _ _ _ Epg1). ocbn. cbn [order set_allocated]. rewrite Eo.
  set (blk1 := <[i := (o, SFloat)]> blk) in *.
  assert (blk1 !! i = Some (o, SFloat)) as E1 by apply lookup_insert_eq.
  assert (only_float blk1 i) as Hf1.
  { intros j m. unfold blk1. destruct (decide (i = j)) as [->|]; [done|].
    rewrite lookup_insert_ne by done. intros Hm. by apply F in Hm. }
  assert (frame pl s s1 L L) as F1
    by (apply (frame_page _ _ _ _ pg); [unfold in_pool; lia|done|done]).
  assert (exists i' k' s2 L2 blk2,
    (if o <? BUDDY_MAX_ORDER then merge_page order_fuel pl (page_metadata pl + i) s1
     else Done (page_metadata pl + i, s1)) = Done (page_metadata pl + i', s2) /\
    pool_ok HS XS pl s2 L2 blk2 /\ blk2 !! i' = Some (k', SFloat) /\ only_float blk2 i' /\
    (k' < BUDDY_MAX_ORDER -> blk2 !! Z.lxor i' (2 ^ k') <> Some (k', SFree)) /\
    same_alloc blk1 blk2 /\ frame pl s1 s2 L L2)
    as (i' & k' & s2 & L2 & blk2 & R2 & P2 & E2 & Hf2 & Hb2 & Ha2 & F2).
  { destruct (Z.ltb_spec o BUDDY_MAX_ORDER) as [Hlt|Hge].
    - apply (merge_page_ok HS XS pl order_fuel s1 L blk1 i o P1 E1 Hf1).
      unfold order_fuel. unfold BUDDY_MAX_ORDER in *. lia.
    - exists i, o, s1, L, blk1. split_and!; try done; try apply frame_refl; lia. }
  rewrite R2. ocbn.
  destruct (bo_range _ _ (ok_blocks _ _ _ _ _ _ P2) _ _ _ E2) as ((Hk0 & Hk1) & Hi' & Hin' & _).
  pose proof (pow2_pos k' Hk0).
  destruct (ok_pages _ _ _ _ _ _ P2 i' ltac:(lia)) as [pg2 Epg2].
  destruct (ok_head _ _ _ _ _ _ P2 _ _ _ _ E2 Epg2) as [Eo2 _].
  rewrite (page_at_run _ _ _ Epg2). ocbn. rewrite Eo2.
  destruct (give_block _ _ _ _ _ _ _ _ P2 E2 Hb2) as (s3 & s4 & L4 & R3 & Ep3 & R4 & Ep4 & P4 & F4).
  rewrite R3. ocbn. rewrite R4. exists s4, L4. split; [done|]. split.
  - exists (<[i' := (k', SFree)]> blk2). split_and!; [done| |].
    + intros j m. destruct (decide (i' = j)) as [->|]; [by rewrite lookup_insert_eq|].
      rewrite lookup_insert_ne by done. intros Hm. by apply Hf2 in Hm.
    + assert (same_alloc blk1 (<[i' := (k', SFree)]> blk2)) as Ha.
      { eapply same_alloc_trans; [exact Ha2|]. by eapply same_alloc_insert. }
      intros p r. rewrite (Ha _ _). unfold blk1.
      destruct (decide (p = page_metadata pl + i)) as [->|Hp].
      * rewrite lookup_delete_eq. replace (page_metadata pl + i - page_metadata pl) with i by lia.
        rewrite lookup_insert_eq. split; congruence.
      * rewrite lookup_delete_ne, lookup_insert_ne by lia. apply HA.
  - eapply frame_trans; [exact F1|]. by eapply frame_trans.
Qed.

(** ** Counting free memory *)

(** The offsets covered by the free list of order [k]. *)
Definition free_offsets pl L (k : Z) : list Z :=
  default [] (L !! (pool_id pl, k)) ≫= fun p => seqZ (p - page_metadata pl) (2 ^ k).

Definition handed_out (A : gmap Z Z) (p : Z) : Prop :=
  map_Exists (fun q r => q <= p < q + 2 ^ r) A.
#[global] Instance handed_out_dec A p : Decision (handed_out A p).
Proof. unfold handed_out. apply _. Qed.

(** The number of the pool's pages that are not handed out. *)
Definition free_count pl (A : gmap Z Z) : Z :=
  Z.of_nat (length (filter (fun j => ~ handed_out A (page_metadata pl + j)) (seqZ 0 (npg pl)))).

Lemma seqZ_elem m n x : x ∈ seqZ m n <-> m <= x < m + n.
Proof. apply elem_of_seqZ. Qed.

Lemma length_bind_const {X Y} (f : X -> list Y) (l : list X) n :
  (forall x, x ∈ l -> length (f x) = n) -> length (l ≫= f) = (length l * n)%nat.
Proof.
  induction l as [|x l IH]; intros Hf; [done|]. cbn.
  rewrite length_app, (Hf x) by (by left).
  change (length (l ≫= f)) with (length (l ≫= f)). rewrite IH; [lia|].
  intros y Hy. apply Hf. by right.
Qed.

Lemma free_offsets_elem HS XS pl s L blk k j :
  pool_ok HS XS pl s L blk -> BUDDY_ORDERS k ->
  j ∈ free_offsets pl L k <-> exists i, blk !! i = Some (k, SFree) /\ i <= j < i + 2 ^ k.
Proof.
  intros P Hk. destruct (ok_lists _ _ _ _ _ _ P k Hk) as (l & El & _ & Hl).
  unfold free_offsets. rewrite El. cbn. rewrite list_elem_of_bind. split.
  - intros (p & Hj%seqZ_elem & Hp). exists (p - page_metadata pl). by rewrite <- Hl.
  - intros (i & Ei & Hj). exists (page_metadata pl + i). split.
    + apply seqZ_elem. lia.
    + apply Hl. by replace (page_metadata pl + i - page_metadata pl) with i by lia.
Qed.

Lemma free_offsets_NoDup HS XS pl s L blk :
  pool_ok HS XS pl s L blk ->
  NoDup (seqZ 0 (BUDDY_MAX_ORDER + 1) ≫= free_offsets pl L).
Proof.
  intros P. apply NoDup_bind; [| |apply NoDup_seqZ].
  - intros k1 k2 j H1%seqZ_elem H2%seqZ_elem Hj1 Hj2.
    apply (free_offsets_elem _ _ _ _ _ _ _ _ P) in Hj1 as (i1 & E1 & ?); [|unfold BUDDY_ORDERS; lia].
    apply (free_offsets_elem _ _ _ _ _ _ _ _ P) in Hj2 as (i2 & E2 & ?); [|unfold BUDDY_ORDERS; lia].
    assert (i1 = i2) as -> by (eapply (bo_disj _ _ (ok_blocks _ _ _ _ _ _ P)); eauto; lia).
    congruence.
  - intros k Hk%seqZ_elem. unfold free_offsets.
    destruct (ok_lists _ _ _ _ _ _ P k) as (l & El & _ & Hl); [unfold BUDDY_ORDERS; lia|].
    rewrite El. cbn. apply NoDup_bind; [| |by eapply lh_rep_NoDup; [by eapply ok_rep|]].
    + intros p1 p2 j Hp1 Hp2 Hj1%seqZ_elem Hj2%seqZ_elem. apply Hl in Hp1, Hp2.
      assert (p1 - page_metadata pl = p2 - page_metadata pl); [|lia].
      eapply (bo_disj _ _ (ok_blocks _ _ _ _ _ _ P)); eauto; lia.
    + intros p _. apply NoDup_seqZ.
Qed.

Lemma free_offsets_perm HS XS pl s L A :
  pool_rep HS XS pl s L A ->
  (seqZ 0 (BUDDY_MAX_ORDER + 1) ≫= free_offsets pl L) ≡ₚ
  filter (fun j => ~ handed_out A (page_metadata pl + j)) (seqZ 0 (npg pl)).
Proof.
  intros (blk & P & F & HA). pose proof (ok_blocks _ _ _ _ _ _ P) as B.
  apply NoDup_Permutation.
  - by eapply free_offsets_NoDup.
  - apply NoDup_filter, NoDup_seqZ.
  - intros j. rewrite list_elem_of_bind, list_elem_of_filter, seqZ_elem. split.
    + intros (k & Hj & Hk%seqZ_elem).
      apply (free_offsets_elem _ _ _ _ _ _ _ _ P) in Hj as (i & E & Hj); [|unfold BUDDY_ORDERS; lia].
      destruct (bo_range _ _ B _ _ _ E) as (_ & ? & ? & _). split; [|lia].
      intros (q & r & EA & Hq). apply HA in EA.
      assert (i = q - page_metadata pl) as -> by (eapply (bo_disj _ _ B); eauto; lia).
      congruence.
    + intros (Hno & Hj). destruct (bo_cover _ _ B j Hj) as (i & k & f & E & Hi).
      destruct (bo_range _ _ B _ _ _ E) as ([? ?] & _ & _ & _).
      exists k. split; [|apply seqZ_elem; lia].
      apply (free_offsets_elem _ _ _ _ _ _ _ _ P); [done|]. exists i. split; [|done].
      destruct f; [done| |by apply F in E]. exfalso. apply Hno.
      exists (page_metadata pl + i), k. split; [|lia].
      apply HA. by replace (page_metadata pl + i - page_metadata pl) with i by lia.
Qed.

Lemma sum_free_run HS XS pl s L blk n : forall o,
  pool_ok HS XS pl s L blk -> 0 <= o -> o + Z.of_nat n <= BUDDY_MAX_ORDER + 1 ->
  PGSIZE * Z.of_nat (length (seqZ o (Z.of_nat n) ≫= free_offsets pl L)) < 2 ^ 31 ->
  sum_free pl n o s =
    Done (PGSIZE * Z.of_nat (length (seqZ o (Z.of_nat n) ≫= free_offsets pl L))).
Proof.
  induction n as [|n IH]; intros o P Ho Hn Hlt; cbn [sum_free].
  - by rewrite seqZ_nil by lia.
  - rewrite seqZ_cons in * by lia. replace (Z.pred (Z.of_nat (S n))) with (Z.of_nat n) in * by lia.
    cbn [mbind list_bind] in *. rewrite length_app, Nat2Z.inj_add in *.
    change (list_bind Z Z (free_offsets pl L)) with (mbind (M := list) (free_offsets pl L)) in *.
    destruct (ok_lists _ _ _ _ _ _ P o) as (l & El & En & Hl); [unfold BUDDY_ORDERS; lia|].
    assert (Z.of_nat (length (free_offsets pl L o)) = Z.of_nat (length l) * 2 ^ o) as Hlen.
    { unfold free_offsets. rewrite El. change (default [] (Some l)) with l.
      rewrite (length_bind_const _ _ (Z.to_nat (2 ^ o))).
      - pose proof (pow2_pos o Ho). rewrite Nat2Z.inj_mul, Z2Nat.id; lia.
      - intros p _. by rewrite length_seqZ. }
    rewrite En. ocbn. rewrite Hlen in *. unfold PGSIZE in *.
    set (R := Z.of_nat (length (seqZ (Z.succ o) (Z.of_nat n) ≫= free_offsets pl L))) in *.
    assert (0 <= R) by (unfold R; lia).
    pose proof (pow2_pos o Ho).
    replace (o + 1) with (Z.succ o) by lia. rewrite IH; [|done|lia|lia|]; fold R; [|nia].
    ocbn. f_equal. rewrite Z.shiftl_mul_pow2, Z.mul_1_l by lia.
    rewrite s32_small by nia. rewrite u64_small by nia. lia.
Qed.

Lemma sum_free_count HS XS pl s L A :
  pool_rep HS XS pl s L A ->
  sum_free pl n_orders 0 s = Done (PGSIZE * free_count pl A).
Proof.
  intros R. pose proof (free_offsets_perm _ _ _ _ _ _ R) as Hp.
  pose proof R as (blk & P & _).
  assert (free_count pl A =
    Z.of_nat (length (seqZ 0 (Z.of_nat n_orders) ≫= free_offsets pl L))) as Hc.
  { unfold free_count. by rewrite <- (Permutation_length Hp). }
  rewrite (sum_free_run HS XS pl s L blk n_orders 0); [by rewrite Hc|done|done|done|].
  rewrite <- Hc. unfold free_count.
  destruct (ok_wf _ _ _ _ _ _ P) as (? & Hm & ? & _). rewrite Hm in *.
  pose proof (length_filter (fun j => ~ handed_out A (page_metadata pl + j)) (seqZ 0 (npg pl))) as Hl.
  rewrite length_seqZ in Hl. unfold PGSIZE in *. lia.
Qed.

(** ** Setting a pool up *)

Lemma init_freelists_ok HS XS pl n : forall o s L,
  lh_rep HS XS (lists s) L ->
  (forall k, o <= k < o + Z.of_nat n -> (pool_id pl, k) ∈ HS) ->
  exists s' L', init_freelists pl n o s = Done s' /\ lh_rep HS XS (lists s') L' /\
    pages s' = pages s /\
    (forall k, o <= k < o + Z.of_nat n ->
       L' !! (pool_id pl, k) = Some [] /\ nums s' !! (pool_id pl, k) = Some 0) /\
    (forall h, (forall k, o <= k < o + Z.of_nat n -> h <> (pool_id pl, k)) ->
       L' !! h = L !! h /\ nums s' !! h = nums s !! h).
Proof.
  induction n as [|n IH]; intros o s L R Hh; cbn [init_freelists].
  - exists s, L. split_and!; try done. intros; lia.
  - destruct (lh_init_rep HS XS (lists s) L (pool_id pl, o) R) as (w & Ew & Rw); [apply Hh; lia|].
    unfold with_lists. rewrite Ew. ocbn. cbn [pages nums lists].
    destruct (IH (o + 1) (State (pages s) (<[(pool_id pl, o) := 0]> (nums s)) w) _ Rw)
      as (s' & L' & E' & R' & Ep & Hin & Hout); [intros; apply Hh; lia|].
    exists s', L'. split_and!; try done.
    + intros k Hk. destruct (decide (k = o)) as [->|]; [|apply Hin; lia].
      destruct (Hout (pool_id pl, o)) as [-> ->]; [intros k ? [= ?]; lia|].
      cbn. by rewrite !lookup_insert_eq.
    + intros h Hne. destruct (Hout h) as [-> ->]; [intros k ?; apply Hne; lia|].
      cbn. by rewrite !lookup_insert_ne by (intros <-; by apply (Hne o); [lia|]).
Qed.

Lemma init_pages_lookup n : forall p m q,
  init_pages n p m !! q =
    if decide (p <= q < p + Z.of_nat n) then Some (Page 1 0 0) else m !! q.
Proof.
  induction n as [|n IH]; intros p m q; cbn [init_pages].
  - by rewrite decide_False by lia.
  - rewrite IH. destruct (decide (p = q)) as [->|].
    + rewrite lookup_insert_eq. repeat case_decide; done || lia.
    + rewrite lookup_insert_ne by done. apply decide_ext. lia.
Qed.

Lemma free_range_ok HS XS pl n : forall p s L A,
  pool_rep HS XS pl s L A ->
  (forall q r, A !! q = Some r <-> p <= q < p + Z.of_nat n /\ r = 0) ->
  exists s' L', free_range pl n p s = Done s' /\ pool_rep HS XS pl s' L' ∅ /\
    frame pl s s' L L'.
Proof.
  induction n as [|n IH]; intros p s L A R HA; cbn [free_range].
  - exists s, L. split_and!; [done| |apply frame_refl].
    replace (∅ : gmap Z Z) with A; [done|]. apply map_eq. intros q. rewrite lookup_empty.
    destruct (A !! q) as [r|] eqn:E; [|done]. apply HA in E. lia.
  - destruct (buddy_free_ok _ _ _ _ _ _ p 0 R) as (s1 & L1 & E1 & R1 & F1).
    { apply HA. lia. }
    rewrite E1. ocbn. destruct (IH (p + 1) s1 L1 _ R1) as (s' & L' & E' & R' & F').
    { intros q r. rewrite lookup_delete_Some, HA. lia. }
    exists s', L'. split_and!; [done..|]. by eapply frame_trans.
Qed.

(** Before the pages are released every page is a block in use. *)
Lemma all_in_use HS XS pl s L :
  pool_wf pl -> lh_rep HS XS (lists s) L ->
  (forall p, in_pool pl p -> p ∈ XS) ->
  (forall p, in_pool pl p -> pages s !! p = Some (Page 1 0 0)) ->
  (forall k, BUDDY_ORDERS k ->
     L !! (pool_id pl, k) = Some [] /\ nums s !! (pool_id pl, k) = Some 0) ->
  (forall h l p, L !! h = Some l -> p ∈ l -> in_pool pl p -> fst h = pool_id pl) ->
  (forall k, L !! (pool_id pl, k) <> None -> BUDDY_ORDERS k) ->
  exists A, pool_rep HS XS pl s L A /\
    forall q r, A !! q = Some r <->
      page_metadata pl <= q < page_metadata pl + npg pl /\ r = 0.
Proof.
  intros Hwf R HX Hp Hl Hsep Hk.
  set (blk := list_to_map ((fun j => (j, (0, SAlloc))) <$> seqZ 0 (npg pl)) : gmap Z (Z * bstatus)).
  assert (forall j x, blk !! j = Some x <-> 0 <= j < npg pl /\ x = (0, SAlloc)) as Hblk.
  { intros j x. unfold blk. rewrite <- elem_of_list_to_map.
    2: { rewrite <- list_fmap_compose. apply NoDup_fmap; [|apply NoDup_seqZ]. by intros ? ?. }
    rewrite list_elem_of_fmap. setoid_rewrite seqZ_elem. split.
    - intros (j' & [= -> ->] & ?). split; [lia|done].
    - intros [? ->]. exists j. split; [done|lia]. }
  set (A := list_to_map ((fun j => (page_metadata pl + j, 0)) <$> seqZ 0 (npg pl)) : gmap Z Z).
  assert (forall q r, A !! q = Some r <->
      page_metadata pl <= q < page_metadata pl + npg pl /\ r = 0) as HA.
  { intros q r. unfold A. rewrite <- elem_of_list_to_map.
    2: { rewrite <- list_fmap_compose. apply NoDup_fmap; [|apply NoDup_seqZ].
         intros x y Hxy. cbn in Hxy. lia. }
    rewrite list_elem_of_fmap. setoid_rewrite seqZ_elem. split.
    - intros (j' & [= -> ->] & ?). lia.
    - intros [? ->]. exists (q - page_metadata pl). split; [f_equal; lia|lia]. }
  exists A. split; [|exact HA]. exists blk. split_and!.
  - constructor; auto.
    + constructor.
      * intros j k f [? [= -> ->]]%Hblk. change (2 ^ 0) with 1.
        unfold BUDDY_ORDERS, BUDDY_MAX_ORDER. split_and!; try lia. apply Z.divide_1_l.
      * intros j Hj. exists j, 0, SAlloc. rewrite Hblk. change (2 ^ 0) with 1. split_and!; done || lia.
      * intros j k f j' k' f' [? [= -> ->]]%Hblk [? [= -> ->]]%Hblk. change (2 ^ 0) with 1. lia.
    + by intros j k [? [=]]%Hblk.
    + intros j Hj. rewrite Hp; [eauto|]. unfold in_pool. lia.
    + intros j k f pg [? [= -> ->]]%Hblk Epg. rewrite Hp in Epg by (unfold in_pool; lia).
      by injection Epg as <-.
    + intros j pg Hj Ej. assert (blk !! j = Some (0, SAlloc)) by (by apply Hblk). congruence.
    + intros k Hok. exists []. destruct (Hl k Hok) as [-> ->]. split_and!; [done..|].
      intros p. rewrite Hblk. set_solver.
    + intros [c k] l p El Hpl Hin. assert (c = pool_id pl) as -> by (by apply (Hsep (c, k) l p)).
      exists k. split; [|done]. apply Hk. by rewrite El.
  - intros j m [_ [=]]%Hblk.
  - intros p o. rewrite HA, Hblk. split; [intros [? ->]; split; [lia|done]|].
    intros [? [= ->]]. split; [lia|done].
Qed.

Lemma init_buddy_ok HS XS pm c start_page start page_num s L :
  0 <= pm -> pm + (start_page + page_num) * sizeof_page < START_MEM ->
  0 <= page_num -> PGSIZE * page_num < 2 ^ 31 -> 0 <= start_page ->
  lh_rep HS XS (lists s) L ->
  (forall k, BUDDY_ORDERS k -> (c, k) ∈ HS) ->
  (forall p, start_page <= p < start_page + page_num -> p ∈ XS) ->
  (forall h l p, L !! h = Some l -> p ∈ l -> ~ start_page <= p < start_page + page_num) ->
  (forall k, L !! (c, k) = None) ->
  exists pl s' L', init_buddy pm c start_page start page_num s = Done (pl, s') /\
    pl = Pool c start (PGSIZE * page_num) start_page /\
    pool_rep HS XS pl s' L' ∅ /\
    others pl s s' L L' /\
    (forall p, in_pool pl p -> refcnt <$> pages s' !! p = Some 0).
Proof.
  intros Hpm Hmeta Hn Hlt Hst R HHS HXS Hsep Hnone. unfold init_buddy.
  rewrite (u64_small (pm + _ + _)), (proj2 (Z.ltb_lt _ _))
    by (unfold START_MEM, sizeof_page in *; lia). ocbn.
  rewrite u64_small by (unfold PGSIZE in *; lia).
  set (pl := Pool c start (PGSIZE * page_num) start_page).
  assert (npg pl = page_num) as Hnpg.
  { unfold npg, pl; cbn [mem_size]. rewrite Z.mul_comm, Z.div_mul by done. done. }
  assert (pool_wf pl) as Hwf.
  { unfold pool_wf. rewrite Hnpg. cbn [mem_size page_metadata pl]. lia. }
  destruct (init_freelists_ok HS XS pl n_orders 0 s L R) as (s1 & L1 & E1 & R1 & Ep1 & Hin & Hout).
  { intros k Hk. apply HHS. unfold BUDDY_ORDERS, n_orders, BUDDY_MAX_ORDER in *. lia. }
  rewrite E1. ocbn.
  set (s2 := State (init_pages (Z.to_nat page_num) start_page (pages s1)) (nums s1) (lists s1)).
  assert (forall h l p, L1 !! h = Some l -> p ∈ l -> ~ in_pool pl p) as Hsep1.
  { intros h l p El Hp Hi. unfold in_pool in Hi. rewrite Hnpg in Hi. cbn [page_metadata pl] in Hi.
    destruct (decide (fst h = c /\ BUDDY_ORDERS (snd h))) as [[Hc Ho]|Hne].
    - destruct h as [c' k]; cbn in *; subst c'. destruct (Hin k) as [E _].
      { unfold BUDDY_ORDERS, n_orders, BUDDY_MAX_ORDER in *. lia. }
      change (pool_id pl) with c in E. rewrite El in E. injection E as ->. set_solver.
    - destruct (Hout h) as [E _].
      { intros k Hk ->. apply Hne. split; [done|].
        unfold BUDDY_ORDERS, n_orders, BUDDY_MAX_ORDER in *. cbn. lia. }
      rewrite E in El. by apply (Hsep h l p). }
  destruct (all_in_use HS XS pl s2 L1) as (A & RA & HA); try done.
  { intros p Hp. apply HXS. unfold in_pool in Hp. by rewrite Hnpg in Hp. }
  { intros p Hp. cbn [s2 pages]. rewrite init_pages_lookup, decide_True; [done|].
    unfold in_pool in Hp. rewrite Hnpg in Hp. cbn [page_metadata pl] in Hp. lia. }
  { intros k Hk. apply Hin. unfold BUDDY_ORDERS, n_orders, BUDDY_MAX_ORDER in *. lia. }
  { intros h l p El Hp Hi. exfalso. by eapply Hsep1. }
  { intros k Hk. destruct (decide (BUDDY_ORDERS k)) as [|Hno]; [done|]. exfalso. apply Hk. change (pool_id pl) with c.
    destruct (Hout (c, k)) as [-> _]; [|apply Hnone].
    intros k' Hk' [= ->]. apply Hno. unfold BUDDY_ORDERS, n_orders, BUDDY_MAX_ORDER in *. lia. }
  destruct (free_range_ok HS XS pl (Z.to_nat page_num) start_page s2 L1 A RA)
    as (s3 & L3 & E3 & R3 & F3).
  { intros q r. rewrite HA, Hnpg. cbn [page_metadata pl]. lia. }
  rewrite E3. ocbn. rewrite (sum_free_count _ _ _ _ _ _ R3). ocbn.
  assert (free_count pl ∅ = page_num) as Hfc.
  { unfold free_count. rewrite filter_all.
    - rewrite length_seqZ, Hnpg. lia.
    - intros j _ (q & r & E & _). by rewrite lookup_empty in E. }
  rewrite Hfc. cbn [mem_size pl]. rewrite Z.eqb_refl. ocbn.
  exists pl, s3, L3. split_and!; try done.
  - assert (forall h, fst h <> c -> L1 !! h = L !! h /\ nums s1 !! h = nums s !! h) as Hc.
    { intros h Hh. apply Hout. intros k _ ->. done. }
    constructor.
    + intros p Hp. rewrite (fr_pages _ _ _ _ _ F3) by done. cbn [s2 pages].
      rewrite init_pages_lookup, Ep1, decide_False; [done|].
      intros Hr. apply Hp. unfold in_pool. rewrite Hnpg. cbn [page_metadata pl]. lia.
    + intros h Hh. rewrite (fr_nums _ _ _ _ _ F3) by done. by apply Hc.
    + intros h Hh. rewrite (fr_lists _ _ _ _ _ F3) by done. by apply Hc.
    + intros h l' p E Hin' Hq. destruct (fr_nodes _ _ _ _ _ F3 _ _ _ E Hin' Hq) as (l & El & Hpl).
      destruct (decide (fst h = c /\ 0 <= snd h < 0 + Z.of_nat n_orders)) as [[Hh Hk]|Hno].
      * destruct h as [c' k]; cbn in Hh, Hk; subst c'. destruct (Hin k Hk) as [E0 _].
        change (pool_id pl) with c in E0. rewrite E0 in El. injection El as <-. set_solver.
      * exists l. split; [|done]. rewrite <- El. symmetry. apply Hout.
        intros k Hk ->. by apply Hno.
  - intros p Hp. rewrite (fr_ref _ _ _ _ _ F3). cbn [s2 pages].
    rewrite init_pages_lookup, decide_True; [done|].
    unfold in_pool in Hp. rewrite Hnpg in Hp. cbn [page_metadata pl] in Hp. lia.
Qed.

(** ** The properties *)

(** C1.  [buddy_get_pages] always returns.  If it returns a page, the [2^o]
    pages that start there are an aligned range of the pool that shares no
    page with any block in use; the range becomes the only new block in use.
    If it returns NULL, nothing has changed and the pool has no aligned range
    of [2^o] pages that is entirely unused: splitting and merging never lose
    a block to fragmentation. *)
Theorem buddy_get_pages_spec HS XS pl s L A o :
  pool_rep HS XS pl s L A -> BUDDY_ORDERS o ->
  exists r s' L', buddy_get_pages pl o s = Done (r, s') /\ frame pl s s' L L' /\
    match r with
    | Some p => block_of pl p o /\ (forall q r, A !! q = Some r -> ~ meets q r p o) /\
                pool_rep HS XS pl s' L' (<[p := o]> A)
    | None => s' = s /\ L' = L /\
              forall p, block_of pl p o -> exists q r, A !! q = Some r /\ meets q r p o
    end.
Proof.
  intros R Ho. destruct (buddy_get_ok _ _ _ _ _ _ _ R Ho) as [[E Hno]|(p & s' & L' & E & ? & ? & ? & ?)].
  - exists None, s, L. split_and!; try done; try apply frame_refl.
  - exists (Some p), s', L'. split_and!; done.
Qed.

(** C2.  [buddy_free_pages] of a block in use always returns, takes exactly
    that block out of use, and leaves a pool with all its invariants: blocks
    tile the pool, the free lists and their counters agree with the metadata,
    and no two free buddies are left unmerged. *)
Theorem buddy_free_pages_spec HS XS pl s L A p o :
  pool_rep HS XS pl s L A -> A !! p = Some o ->
  exists s' L', buddy_free_pages pl p s = Done s' /\ frame pl s s' L L' /\
    pool_rep HS XS pl s' L' (delete p A).
Proof.
  intros R E. destruct (buddy_free_ok _ _ _ _ _ _ _ _ R E) as (s' & L' & ? & ? & ?).
  exists s', L'. done.
Qed.

(** [init_buddy] always returns, its closing assertion on the amount of
    free memory included, with every page of the pool unused. *)
Theorem init_buddy_spec HS XS pm c start_page start page_num s L :
  0 <= pm -> pm + (start_page + page_num) * sizeof_page < START_MEM ->
  0 <= page_num -> PGSIZE * page_num < 2 ^ 31 -> 0 <= start_page ->
  lh_rep HS XS (lists s) L ->
  (forall k, BUDDY_ORDERS k -> (c, k) ∈ HS) ->
  (forall p, start_page <= p < start_page + page_num -> p ∈ XS) ->
  (forall h l p, L !! h = Some l -> p ∈ l -> ~ start_page <= p < start_page + page_num) ->
  (forall k, L !! (c, k) = None) ->
  exists pl s' L', init_buddy pm c start_page start page_num s = Done (pl, s') /\
    pl = Pool c start (PGSIZE * page_num) start_page /\
    pool_rep HS XS pl s' L' ∅.
Proof.
  intros Hpm Hmeta Hn Hlt Hst R H1 H2 H3 H4.
  destruct (init_buddy_ok _ _ pm c start_page start page_num _ _ Hpm Hmeta Hn Hlt Hst R H1 H2 H3 H4)
    as (pl & s' & L' & ? & ? & ? & _).
  exists pl, s', L'. done.
Qed.

(** The counters of the free lists account for every page: the loop of
    [get_free_mem] over a pool computes [PGSIZE] times the number of pages of
    the pool that lie in no block in use. *)
Theorem free_mem_exact HS XS pl s L A :
  pool_rep HS XS pl s L A ->
  get_free_mem [pl] s = Done (PGSIZE * free_count pl A).
Proof.
  intros R. cbn [get_free_mem]. rewrite (sum_free_count _ _ _ _ _ _ R). ocbn.
  pose proof R as (blk & P & _). destruct (ok_wf _ _ _ _ _ _ P) as (? & Hm & Hlt & _).
  pose proof (length_filter (fun j => ~ handed_out A (page_metadata pl + j)) (seqZ 0 (npg pl))) as Hl.
  rewrite length_seqZ in Hl. rewrite Hm in Hlt.
  unfold free_count, PGSIZE in *. rewrite Z.add_0_r, u64_small by lia. done.
Qed.
End invariant.

(** ** A pool of eight pages *)

Definition demo_heads : gset fl_head := list_to_set (map (fun k => (0, Z.of_nat k)) (seq 0 14)).
Definition demo_nodes : gset Z := list_to_set (seqZ 0 8).
Definition demo_meta : Z := 0x80800000.

Lemma demo_heads_stored : set_Forall (fun h => is_Some (lists (boot0 8) !! Head h)) demo_heads.
Proof. refine (bool_decide_unpack _ _). vm_compute. exact I. Qed.

Lemma demo_nodes_stored : set_Forall (fun n => is_Some (lists (boot0 8) !! Node n)) demo_nodes.
Proof. refine (bool_decide_unpack _ _). vm_compute. exact I. Qed.

Lemma demo_rep : lists_rep demo_heads demo_nodes (lists (boot0 8)) ∅.
Proof.
  split_and!.
  - exact demo_heads_stored.
  - exact demo_nodes_stored.
  - intros h l E. by rewrite lookup_empty in E.
  - intros h1 h2 l1 l2 n E. by rewrite lookup_empty in E.
Qed.

Lemma demo_heads_elem k : BUDDY_ORDERS k -> (0, k) ∈ demo_heads.
Proof.
  unfold BUDDY_ORDERS, BUDDY_MAX_ORDER. intros Hk. unfold demo_heads.
  rewrite elem_of_list_to_set, list_elem_of_In, in_map_iff. exists (Z.to_nat k).
  rewrite in_seq, Z2Nat.id by lia. split; [done|lia].
Qed.

Lemma demo_nodes_elem p : 0 <= p < 0 + 8 -> p ∈ demo_nodes.
Proof. intros Hp. unfold demo_nodes. rewrite elem_of_list_to_set, elem_of_seqZ. lia. Qed.

Lemma init_buddy_spec_witness :
  exists pl s' L', init_buddy demo_meta 0 0 START_MEM 8 (boot0 8) = Done (pl, s') /\
    pl = Pool 0 START_MEM (PGSIZE * 8) 0 /\ pool_rep demo_heads demo_nodes pl s' L' ∅.
Proof.
  refine (init_buddy_spec demo_heads demo_nodes demo_meta 0 0 START_MEM 8 (boot0 8) ∅ _ _ _ _ _
            demo_rep demo_heads_elem demo_nodes_elem _ _).
  - unfold demo_meta. lia.
  - unfold demo_meta, sizeof_page, START_MEM. lia.
  - lia.
  - unfold PGSIZE. lia.
  - lia.
  - intros h l p E. discriminate E.
  - intros k. reflexivity.
Defined.

Lemma order_1 : BUDDY_ORDERS 1.
Proof. unfold BUDDY_ORDERS, BUDDY_MAX_ORDER. lia. Qed.

(** The demonstration pool just after it is set up. *)
Lemma demo_pool : exists s L,
  init_buddy demo_meta 0 0 START_MEM 8 (boot0 8) = Done (Pool 0 START_MEM (PGSIZE * 8) 0, s) /\
  pool_rep demo_heads demo_nodes (Pool 0 START_MEM (PGSIZE * 8) 0) s L ∅.
Proof.
  destruct (init_buddy_ok demo_heads demo_nodes demo_meta 0 0 START_MEM 8 (boot0 8) ∅)
    as (pl & s & L & E & -> & R & _).
  - unfold demo_meta. lia.
  - unfold demo_meta, sizeof_page, START_MEM. lia.
  - lia.
  - unfold PGSIZE. lia.
  - lia.
  - exact demo_rep.
  - exact demo_heads_elem.
  - exact demo_nodes_elem.
  - intros h l p E. discriminate E.
  - intros k. reflexivity.
  - exists s, L. split; [exact E|exact R].
Qed.

Lemma buddy_get_pages_spec_witness : exists s L r s' L',
  init_buddy demo_meta 0 0 START_MEM 8 (boot0 8) = Done (Pool 0 START_MEM (PGSIZE * 8) 0, s) /\
  pool_rep demo_heads demo_nodes (Pool 0 START_MEM (PGSIZE * 8) 0) s L ∅ /\
  buddy_get_pages (Pool 0 START_MEM (PGSIZE * 8) 0) 1 s = Done (r, s') /\
  frame (Pool 0 START_MEM (PGSIZE * 8) 0) s s' L L'.
Proof.
  destruct demo_pool as (s & L & E & R).
  destruct (buddy_get_pages_spec demo_heads demo_nodes _ s L ∅ 1 R) as (r & s' & L' & E' & F & _).
  - exact order_1.
  - exists s, L, r, s', L'. exact (conj E (conj R (conj E' F))).
Defined.

Lemma demo_block : block_of (Pool 0 START_MEM (PGSIZE * 8) 0) 0 1.
Proof. split_and!; [done..|]. apply Z.divide_0_r. Qed.

(** A block of two pages can be taken from the fresh pool. *)
Lemma demo_taken : exists s L p,
  pool_rep demo_heads demo_nodes (Pool 0 START_MEM (PGSIZE * 8) 0) s L (<[p := 1]> ∅).
Proof.
  destruct demo_pool as (s & L & _ & R).
  destruct (buddy_get_ok demo_heads demo_nodes _ s L ∅ 1 R order_1)
    as [[_ Hno]|(p & s' & L' & _ & _ & _ & R' & _)].
  - exfalso. destruct (Hno 0 demo_block) as (q & r & E & _). discriminate E.
  - exists s', L', p. exact R'.
Qed.

Lemma buddy_free_pages_spec_witness : exists s L p s' L',
  pool_rep demo_heads demo_nodes (Pool 0 START_MEM (PGSIZE * 8) 0) s L (<[p := 1]> ∅) /\
  buddy_free_pages (Pool 0 START_MEM (PGSIZE * 8) 0) p s = Done s' /\
  pool_rep demo_heads demo_nodes (Pool 0 START_MEM (PGSIZE * 8) 0) s' L'
    (delete p (<[p := 1]> ∅)).
Proof.
  destruct demo_taken as (s & L & p & R).
  destruct (buddy_free_pages_spec demo_heads demo_nodes _ s L _ p 1 R)
    as (s2 & L2 & E2 & _ & R2); [apply lookup_insert_eq|].
  exists s, L, p, s2, L2. exact (conj R (conj E2 R2)).
Defined.

Lemma free_mem_exact_witness : exists s : state pstore,
  get_free_mem [Pool 0 START_MEM (PGSIZE * 8) 0] s =
    Done (PGSIZE * free_count (Pool 0 START_MEM (PGSIZE * 8) 0) ∅).
Proof.
  destruct demo_pool as (s & L & _ & R). exists s.
  exact (free_mem_exact demo_heads demo_nodes _ s L ∅ R).
Defined.
