(* ===== verification/Kstring.v ===== *)
(** * Kstring: byte memory and the C string routines

    [src/lib/string.c] and the character classes of [src/lib/ctype.c].  Memory
    is a finite map from addresses to bytes (as numbers 0..255; [char] is
    unsigned on RISC-V); touching an address that is not mapped is [Undef].
    Loops that count down a length are structural in it; loops that look for a
    NUL byte take fuel [str_fuel m], one more than the number of mapped bytes,
    which the theorems show to be enough for every terminated string. *)

From stdpp Require Import base gmap sets list fin_maps.
From Stdlib Require Import ZArith Lia.
From S2P Require Import Prelude.
#[local] Open Scope Z_scope.

Abbreviation mem := (gmap Z Z).

Definition load (m : mem) (a : Z) : outcome Z := deref (m !! a).
Definition store (a v : Z) (m : mem) : outcome mem :=
  _ ← load m a; Done (<[a := v]> m).

Definition str_fuel (m : mem) : nat := S (size m).

(** ** The routines *)

Fixpoint memset_loop (n : nat) (cdst c : Z) (m : mem) : outcome mem :=
  match n with
  | O => Done m
  | S n => m ← store cdst c m; memset_loop n (cdst + 1) c m
  end.

(** [memset] returns its first argument; so do [memmove], [strncpy], ... *)
Definition memset (dst c n : Z) (m : mem) : outcome mem :=
  memset_loop (Z.to_nat (u32 n)) dst (c mod 256) m.

Fixpoint memcmp_loop (n : nat) (s1 s2 : Z) (m : mem) : outcome Z :=
  match n with
  | O => Done 0
  | S n =>
      a ← load m s1; b ← load m s2;
      if negb (a =? b) then Done (a - b) else memcmp_loop n (s1 + 1) (s2 + 1) m
  end.

Definition memcmp (v1 v2 n : Z) (m : mem) : outcome Z :=
  memcmp_loop (Z.to_nat (u32 n)) v1 v2 m.

(** The two copying loops; [d] and [s] of the first point past the bytes left. *)
Fixpoint memmove_down (n : nat) (d s : Z) (m : mem) : outcome mem :=
  match n with
  | O => Done m
  | S n =>
      x ← load m (s - 1);
      m ← store (d - 1) x m;
      memmove_down n (d - 1) (s - 1) m
  end.

(** The loop also compares both bytes with the constant 0x88200000, which no
    byte equals, before it copies. *)
Fixpoint memmove_up (n : nat) (d s : Z) (m : mem) : outcome mem :=
  match n with
  | O => Done m
  | S n =>
      _ ← load m d;
      x ← load m s;
      m ← store d x m;
      memmove_up n (d + 1) (s + 1) m
  end.

Definition memmove (dst src n : Z) (m : mem) : outcome mem :=
  let n := u32 n in
  if n =? 0 then Done m
  else if (src <? dst) && (dst <? src + n)
  then memmove_down (Z.to_nat n) (dst + n) (src + n) m
  else memmove_up (Z.to_nat n) dst src m.

Definition memcpy (dst src n : Z) (m : mem) : outcome mem := memmove dst src n m.

Fixpoint strncmp_loop (n : nat) (p q : Z) (m : mem) : outcome Z :=
  match n with
  | O => Done 0
  | S n' =>
      a ← load m p;
      if a =? 0 then b ← load m q; Done (a - b)
      else
        b ← load m q;
        if a =? b then strncmp_loop n' (p + 1) (q + 1) m else Done (a - b)
  end.

Definition strncmp (p q n : Z) (m : mem) : outcome Z :=
  strncmp_loop (Z.to_nat (u32 n)) p q m.

(** The loop that copies bytes up to and including a NUL, [n] at most; it leaves
    the cursor [s] and the number of bytes still to fill. *)
Fixpoint copy_loop (n : nat) (s t : Z) (m : mem) : outcome (Z * nat * mem) :=
  match n with
  | O => Done (s, O, m)
  | S n' =>
      x ← load m t;
      m ← store s x m;
      if x =? 0 then Done (s + 1, n', m) else copy_loop n' (s + 1) (t + 1) m
  end.

Definition strncpy (s t n : Z) (m : mem) : outcome mem :=
  '(s, n, m) ← copy_loop (Z.to_nat n) s t m;
  memset_loop n s 0 m.

Definition safestrcpy (s t n : Z) (m : mem) : outcome mem :=
  if n <=? 0 then Done m
  else
    '(s, _, m) ← copy_loop (Z.to_nat n) s t m;
    store s 0 m.

Fixpoint strlen_loop (fuel : nat) (s n : Z) (m : mem) : outcome Z :=
  match fuel with
  | O => NoFuel
  | S f =>
      x ← load m (s + n);
      if x =? 0 then Done n else strlen_loop f s (n + 1) m
  end.

Definition strlen (s : Z) (m : mem) : outcome Z := strlen_loop (str_fuel m) s 0 m.

(** [count] is a [size_t]: a negative argument is a huge bound. *)
Fixpoint strnlen_loop (fuel : nat) (s sc count : Z) (m : mem) : outcome Z :=
  match fuel with
  | O => NoFuel
  | S f =>
      x ← load m sc;
      if x =? 0 then Done (sc - s)
      else if count =? 0 then Done (sc - s)
      else strnlen_loop f s (sc + 1) (count - 1) m
  end.

Definition strnlen (s count : Z) (m : mem) : outcome Z :=
  strnlen_loop (str_fuel m) s s (u64 count) m.

(** The flags of [_ctype] that matter here: upper and lower case letters. *)
Definition isupper (c : Z) : bool := (65 <=? c) && (c <=? 90).
Definition islower (c : Z) : bool := (97 <=? c) && (c <=? 122).
Definition tolower (c : Z) : Z := if isupper c then c + 32 else c.
Definition toupper (c : Z) : Z := if islower c then c - 32 else c.

Fixpoint str_map (f : Z -> Z) (fuel : nat) (str : Z) (m : mem) : outcome mem :=
  match fuel with
  | O => NoFuel
  | S fu =>
      x ← load m str;
      if x =? 0 then Done m
      else m ← store str (f x) m; str_map f fu (str + 1) m
  end.

(** A NULL string is left alone; address 0 is NULL. *)
Definition str_toupper (str : Z) (m : mem) : outcome mem :=
  if str =? 0 then Done m else str_map toupper (str_fuel m) str m.
Definition str_tolower (str : Z) (m : mem) : outcome mem :=
  if str =? 0 then Done m else str_map tolower (str_fuel m) str m.

Fixpoint strchr_loop (fuel : nat) (str c : Z) (m : mem) : outcome (option Z) :=
  match fuel with
  | O => NoFuel
  | S f =>
      x ← load m str;
      if x =? 0 then Done (if c =? 0 then Some str else None)
      else if x =? c mod 256 then Done (Some str)
      else strchr_loop f (str + 1) c m
  end.

Definition strchr (str c : Z) (m : mem) : outcome (option Z) :=
  strchr_loop (str_fuel m) str c m.

Definition str_split (str ch str1 str2 : Z) (m : mem) : outcome (Z * mem) :=
  p ← strchr str ch m;
  match p with
  | None => Done (-1, m)
  | Some p =>
      m ← strncpy str1 str (p - str) m;
      n ← strlen str m;
      m ← strncpy str2 (p + 1) (n - 1 - (p - str)) m;
      Done (1, m)
  end.

(** [strcat]: the end of [dest], then the copy, then the NUL. *)
Fixpoint strcat_copy (fuel : nat) (p src : Z) (m : mem) : outcome mem :=
  match fuel with
  | O => NoFuel
  | S f =>
      x ← load m src;
      if x =? 0 then store p 0 m
      else m ← store p x m; strcat_copy f (p + 1) (src + 1) m
  end.

Definition strcat (dest src : Z) (m : mem) : outcome mem :=
  n ← strlen dest m;
  strcat_copy (str_fuel m) (dest + n) src m.

Fixpoint strstr_match (fuel : nat) (h n : Z) (m : mem) : outcome Z :=
  match fuel with
  | O => NoFuel
  | S f =>
      a ← load m h; b ← load m n;
      if (a =? b) && negb (b =? 0) then strstr_match f (h + 1) (n + 1) m else Done n
  end.

Fixpoint strstr_loop (fuel : nat) (haystack needle : Z) (m : mem) : outcome (option Z) :=
  match fuel with
  | O => NoFuel
  | S f =>
      x ← load m haystack;
      if x =? 0 then Done None
      else
        n ← strstr_match (str_fuel m) haystack needle m;
        y ← load m n;
        if y =? 0 then Done (Some haystack) else strstr_loop f (haystack + 1) needle m
  end.

Definition strstr (haystack needle : Z) (m : mem) : outcome (option Z) :=
  x ← load m needle;
  if x =? 0 then Done (Some haystack) else strstr_loop (str_fuel m) haystack needle m.

Fixpoint strcmp_loop (fuel : nat) (l r : Z) (m : mem) : outcome Z :=
  match fuel with
  | O => NoFuel
  | S f =>
      a ← load m l; b ← load m r;
      if (a =? b) && negb (a =? 0) then strcmp_loop f (l + 1) (r + 1) m else Done (a - b)
  end.

Definition strcmp (l r : Z) (m : mem) : outcome Z := strcmp_loop (str_fuel m) l r m.

Definition is_suffix (str suffix : Z) (m : mem) : outcome bool :=
  str_len ← strlen str m;
  suffix_len ← strlen suffix m;
  if str_len <? suffix_len then Done false
  else c ← strcmp (str + (str_len - suffix_len)) suffix m; Done (c =? 0).

(** ** Strings in memory *)

Fixpoint bytes_at (m : mem) (a : Z) (l : list Z) : Prop :=
  match l with
  | [] => True
  | x :: l => m !! a = Some x /\ bytes_at m (a + 1) l
  end.

(** A NUL-terminated string [l] at [a]. *)
Definition cstr (m : mem) (a : Z) (l : list Z) : Prop :=
  bytes_at m a (l ++ [0]) /\ Forall (fun x => 0 < x < 256) l.

Definition valid (m : mem) (a n : Z) : Prop := forall i, 0 <= i < n -> is_Some (m !! (a + i)).

Lemma bytes_at_lookup m l : forall a,
  bytes_at m a l <-> forall i x, l !! i = Some x -> m !! (a + Z.of_nat i) = Some x.
Proof.
  induction l as [|y l IH]; intros a; cbn [bytes_at]; [split; [done|by intros]|].
  rewrite IH. split.
  - intros [Hy Hl] [|i] x; cbn.
    + intros [= ->]. by rewrite Z.add_0_r.
    + intros E. replace (a + Z.of_nat (S i)) with (a + 1 + Z.of_nat i) by lia. by apply Hl.
  - intros Hl. split; [rewrite <- (Z.add_0_r a); by apply (Hl 0%nat)|].
    intros i x E. replace (a + 1 + Z.of_nat i) with (a + Z.of_nat (S i)) by lia. by apply Hl.
Qed.

Lemma cstr_nil m a : cstr m a [] -> load m a = Done 0.
Proof. intros [[E _] _]. unfold load. by rewrite E. Qed.

Lemma cstr_cons m a x l : cstr m a (x :: l) -> load m a = Done x /\ 0 < x < 256 /\ cstr m (a + 1) l.
Proof.
  intros [[E Hb] Hf]. inversion Hf; subst. unfold load. rewrite E. split; [done|split; done].
Qed.

Lemma cstr_drop m l : forall a k,
  cstr m a l -> (k <= length l)%nat -> cstr m (a + Z.of_nat k) (drop k l).
Proof.
  induction l as [|x l IH]; intros a [|k] Hc Hk; cbn in *; rewrite ?Z.add_0_r; try done; try lia.
  replace (a + Z.of_nat (S k)) with (a + 1 + Z.of_nat k) by lia.
  apply IH; [|lia]. by apply cstr_cons in Hc as (_ & _ & ?).
Qed.

(** A string has fewer bytes than memory is mapped: the fuel is enough. *)
Lemma bytes_at_size m l a : bytes_at m a l -> (length l <= size m)%nat.
Proof.
  intros Hb. rewrite bytes_at_lookup in Hb.
  set (ks := (fun i => a + Z.of_nat i) <$> seq 0 (length l)).
  assert (length ks = length l) as <- by (unfold ks; by rewrite length_fmap, length_seq).
  rewrite <- size_dom, <- (size_list_to_set (C := gset Z) ks).
  2: { apply NoDup_fmap; [intros ???; lia|apply NoDup_seq]. }
  apply subseteq_size. intros k. rewrite elem_of_list_to_set, elem_of_dom.
  unfold ks. rewrite list_elem_of_fmap. intros (i & -> & Hi%elem_of_seq).
  destruct (lookup_lt_is_Some_2 l i) as [x E]; [lia|]. rewrite (Hb i x E). eauto.
Qed.

Lemma cstr_fuel m a l : cstr m a l -> (length l < str_fuel m)%nat.
Proof.
  intros [Hb _]. apply bytes_at_size in Hb. rewrite length_app in Hb. cbn in Hb.
  unfold str_fuel. lia.
Qed.

Lemma load_valid m a n i : valid m a n -> 0 <= i < n -> exists x, load m (a + i) = Done x.
Proof. intros H Hi. destruct (H i Hi) as [x E]. exists x. unfold load. by rewrite E. Qed.

Lemma store_run m a v : is_Some (m !! a) -> store a v m = Done (<[a := v]> m).
Proof. intros [x E]. unfold store, load. by rewrite E. Qed.

Lemma valid_insert m a n b v : valid m a n -> valid (<[b := v]> m) a n.
Proof.
  intros H i Hi. destruct (decide (b = a + i)) as [->|].
  - rewrite lookup_insert_eq. eauto.
  - rewrite lookup_insert_ne by done. by apply H.
Qed.

Lemma valid_at m a n i : valid m a n -> 0 <= i < n -> is_Some (m !! (a + i)).
Proof. auto. Qed.

Lemma valid_0 m a n : valid m a n -> 0 < n -> is_Some (m !! a).
Proof. intros H ?. rewrite <- (Z.add_0_r a). apply H. lia. Qed.

Lemma valid_shift m a n k : valid m a n -> 0 <= k -> valid m (a + k) (n - k).
Proof. intros H Hk i Hi. rewrite <- Z.add_assoc. apply H. lia. Qed.

(** ** Filling and copying *)

Lemma memset_loop_ok n : forall d c m, valid m d (Z.of_nat n) ->
  exists m', memset_loop n d c m = Done m' /\
    forall a, m' !! a = if decide (d <= a < d + Z.of_nat n) then Some c else m !! a.
Proof.
  induction n as [|n IH]; intros d c m V; cbn [memset_loop].
  - exists m. split; [done|]. intros a. by rewrite decide_False by lia.
  - rewrite store_run by (eapply valid_0; [done|lia]). ocbn.
    destruct (IH (d + 1) c (<[d := c]> m)) as (m' & E & Hm).
    { apply valid_insert. apply (valid_shift _ _ _ 1) in V; [|lia].
      by replace (Z.of_nat (S n) - 1) with (Z.of_nat n) in V by lia. }
    exists m'. split; [done|]. intros a. rewrite Hm.
    destruct (decide (a = d)) as [->|].
    + rewrite decide_False, decide_True, lookup_insert_eq by lia. done.
    + rewrite lookup_insert_ne by done. apply decide_ext. lia.
Qed.

Lemma memmove_up_ok n : forall d s m,
  valid m d (Z.of_nat n) -> valid m s (Z.of_nat n) -> d <= s \/ s + Z.of_nat n <= d ->
  exists m', memmove_up n d s m = Done m' /\
    forall a, m' !! a = if decide (d <= a < d + Z.of_nat n) then m !! (s + (a - d)) else m !! a.
Proof.
  induction n as [|n IH]; intros d s m Vd Vs Hds; cbn [memmove_up].
  - exists m. split; [done|]. intros a. by rewrite decide_False by lia.
  - destruct (valid_0 m d _ Vd ltac:(lia)) as [y Ey].
    destruct (valid_0 m s _ Vs ltac:(lia)) as [x Ex].
    unfold load at 1 2. rewrite Ey, Ex. ocbn. rewrite store_run by eauto. ocbn.
    destruct (IH (d + 1) (s + 1) (<[d := x]> m)) as (m' & E & Hm).
    + apply valid_insert. apply (valid_shift _ _ _ 1) in Vd; [|lia].
      by replace (Z.of_nat (S n) - 1) with (Z.of_nat n) in Vd by lia.
    + apply valid_insert. apply (valid_shift _ _ _ 1) in Vs; [|lia].
      by replace (Z.of_nat (S n) - 1) with (Z.of_nat n) in Vs by lia.
    + lia.
    + exists m'. split; [done|]. intros a. rewrite Hm.
      destruct (decide (a = d)) as [->|Hne].
      * rewrite decide_False, decide_True, lookup_insert_eq, <- Ex by lia. f_equal. lia.
      * destruct (decide (d <= a < d + Z.of_nat (S n))).
        -- rewrite decide_True by lia. rewrite lookup_insert_ne by lia. f_equal. lia.
        -- rewrite decide_False by lia. by rewrite lookup_insert_ne.
Qed.

Lemma memmove_down_ok n : forall d s m,
  valid m (d - Z.of_nat n) (Z.of_nat n) -> valid m (s - Z.of_nat n) (Z.of_nat n) -> s <= d ->
  exists m', memmove_down n d s m = Done m' /\
    forall a, m' !! a =
      if decide (d - Z.of_nat n <= a < d) then m !! (s + (a - d)) else m !! a.
Proof.
  induction n as [|n IH]; intros d s m Vd Vs Hds; cbn [memmove_down].
  - exists m. split; [done|]. intros a. by rewrite decide_False by lia.
  - destruct (Vd (Z.of_nat n)) as [y Ey]; [lia|]. destruct (Vs (Z.of_nat n)) as [x Ex]; [lia|].
    replace (d - Z.of_nat (S n) + Z.of_nat n) with (d - 1) in Ey by lia.
    replace (s - Z.of_nat (S n) + Z.of_nat n) with (s - 1) in Ex by lia.
    unfold load at 1. rewrite Ex. ocbn. rewrite store_run by eauto. ocbn.
    destruct (IH (d - 1) (s - 1) (<[d - 1 := x]> m)) as (m' & E & Hm).
    + apply valid_insert. intros i Hi. replace (d - 1 - Z.of_nat n) with (d - Z.of_nat (S n)) by lia.
      apply Vd. lia.
    + apply valid_insert. intros i Hi. replace (s - 1 - Z.of_nat n) with (s - Z.of_nat (S n)) by lia.
      apply Vs. lia.
    + lia.
    + exists m'. split; [done|]. intros a. rewrite Hm.
      destruct (decide (a = d - 1)) as [->|Hne].
      * rewrite decide_False, decide_True, lookup_insert_eq, <- Ex by lia. f_equal. lia.
      * destruct (decide (d - Z.of_nat (S n) <= a < d)).
        -- rewrite decide_True by lia. rewrite lookup_insert_ne by lia. f_equal. lia.
        -- rewrite decide_False by lia. by rewrite lookup_insert_ne.
Qed.

Lemma memmove_ok dst src n m :
  0 <= n < 2 ^ 32 -> valid m dst n -> valid m src n ->
  exists m', memmove dst src n m = Done m' /\
    forall a, m' !! a = if decide (dst <= a < dst + n) then m !! (src + (a - dst)) else m !! a.
Proof.
  intros Hn Vd Vs. unfold memmove. rewrite u32_small by done.
  destruct (Z.eqb_spec n 0) as [->|Hn0].
  { exists m. split; [done|]. intros a. by rewrite decide_False by lia. }
  destruct ((src <? dst) && (dst <? src + n)) eqn:E.
  - rewrite andb_true_iff, !Z.ltb_lt in E.
    destruct (memmove_down_ok (Z.to_nat n) (dst + n) (src + n) m) as (m' & E' & Hm);
      rewrite ?Z2Nat.id in * by lia.
    + by replace (dst + n - n) with dst by lia.
    + by replace (src + n - n) with src by lia.
    + lia.
    + exists m'. split; [done|]. intros a. rewrite Hm.
      replace (dst + n - n) with dst by lia. replace (src + n + (a - (dst + n))) with (src + (a - dst)) by lia.
      done.
  - rewrite andb_false_iff, !Z.ltb_ge in E.
    destruct (memmove_up_ok (Z.to_nat n) dst src m) as (m' & E' & Hm);
      rewrite ?Z2Nat.id in * by lia; try done; try lia.
    exists m'. split; [done|]. intros a. by rewrite Hm.
Qed.

(** ** Searching and comparing *)

Lemma strlen_loop_ok l : forall fuel s n m,
  cstr m (s + n) l -> (length l < fuel)%nat ->
  strlen_loop fuel s n m = Done (n + Z.of_nat (length l)).
Proof.
  induction l as [|x l IH]; intros [|f] s n m Hc Hf; cbn in Hf; try lia; cbn [strlen_loop].
  - rewrite (cstr_nil _ _ Hc). ocbn. cbn. f_equal. lia.
  - apply cstr_cons in Hc as (-> & Hx & Hc). ocbn. destruct (Z.eqb_spec x 0); [lia|].
    rewrite IH; [f_equal; cbn; lia| |lia]. by rewrite Z.add_assoc.
Qed.

Lemma strlen_ok m s l : cstr m s l -> strlen s m = Done (Z.of_nat (length l)).
Proof.
  intros Hc. unfold strlen. rewrite (strlen_loop_ok l); [done| |by eapply cstr_fuel].
  by rewrite Z.add_0_r.
Qed.

(** The order of two strings, byte by byte. *)
Fixpoint str_diff (l r : list Z) : Z :=
  match l, r with
  | [], [] => 0
  | [], y :: _ => - y
  | x :: _, [] => x
  | x :: l, y :: r => if x =? y then str_diff l r else x - y
  end.

Lemma str_diff_0 l : forall r, Forall (fun x => 0 < x < 256) l -> Forall (fun x => 0 < x < 256) r ->
  str_diff l r = 0 <-> l = r.
Proof.
  induction l as [|x l IH]; intros [|y r] Hl Hr; cbn; try done.
  - inversion Hr; subst. split; [lia|done].
  - inversion Hl; subst. split; [lia|done].
  - inversion Hl; inversion Hr; subst. destruct (Z.eqb_spec x y) as [->|].
    + rewrite IH by done. split; congruence.
    + split; [lia|congruence].
Qed.

Lemma strcmp_loop_ok l : forall r fuel p q m,
  cstr m p l -> cstr m q r -> (length l < fuel)%nat ->
  strcmp_loop fuel p q m = Done (str_diff l r).
Proof.
  induction l as [|x l IH]; intros r [|f] p q m Hp Hq Hf; cbn in Hf; try lia; cbn [strcmp_loop].
  - rewrite (cstr_nil _ _ Hp). ocbn. destruct r as [|y r].
    + rewrite (cstr_nil _ _ Hq). done.
    + apply cstr_cons in Hq as (-> & Hy & _). ocbn.
      rewrite (proj2 (Z.eqb_neq 0 y)) by lia. done.
  - apply cstr_cons in Hp as (-> & Hx & Hp). ocbn. destruct r as [|y r].
    + rewrite (cstr_nil _ _ Hq). ocbn. rewrite (proj2 (Z.eqb_neq x 0)) by lia.
      cbn. f_equal. lia.
    + apply cstr_cons in Hq as (-> & Hy & Hq). ocbn. cbn [str_diff].
      destruct (Z.eqb_spec x y) as [<-|]; [|done].
      rewrite (proj2 (Z.eqb_neq x 0)) by lia. cbn [andb negb]. apply IH; [done..|lia].
Qed.

Lemma strcmp_ok m p q l r : cstr m p l -> cstr m q r -> strcmp p q m = Done (str_diff l r).
Proof. intros Hp Hq. apply strcmp_loop_ok; [done..|]. by eapply cstr_fuel. Qed.

Lemma strncmp_loop_ok n : forall l r p q m,
  cstr m p l -> cstr m q r ->
  strncmp_loop n p q m = Done (str_diff (take n l) (take n r)).
Proof.
  induction n as [|n IH]; intros l r p q m Hp Hq; cbn [strncmp_loop]; [by destruct l, r|].
  destruct l as [|x l].
  - rewrite (cstr_nil _ _ Hp). ocbn. cbn [Z.eqb]. destruct r as [|y r].
    + rewrite (cstr_nil _ _ Hq). done.
    + apply cstr_cons in Hq as (-> & Hy & _). done.
  - apply cstr_cons in Hp as (-> & Hx & Hp). ocbn.
    rewrite (proj2 (Z.eqb_neq x 0)) by lia. destruct r as [|y r].
    + rewrite (cstr_nil _ _ Hq). ocbn. rewrite (proj2 (Z.eqb_neq x 0)) by lia.
      cbn. f_equal. lia.
    + apply cstr_cons in Hq as (-> & Hy & Hq). ocbn. cbn [take str_diff].
      destruct (Z.eqb_spec x y) as [<-|]; [|done]. by apply IH.
Qed.

Lemma strchr_loop_ok l : forall fuel s c m,
  cstr m s l -> 0 <= c < 256 -> (length l < fuel)%nat ->
  strchr_loop fuel s c m =
    Done (match list_find (fun x => x = c) l with
          | Some (i, _) => Some (s + Z.of_nat i)
          | None => if c =? 0 then Some (s + Z.of_nat (length l)) else None
          end).
Proof.
  induction l as [|x l IH]; intros [|f] s c m Hc Hr Hf; cbn in Hf; try lia; cbn [strchr_loop].
  - rewrite (cstr_nil _ _ Hc). ocbn. cbn. by rewrite Z.add_0_r.
  - apply cstr_cons in Hc as (-> & Hx & Hc). ocbn. rewrite (proj2 (Z.eqb_neq x 0)) by lia.
    rewrite (Z.mod_small c) by lia. cbn [list_find].
    destruct (Z.eqb_spec x c) as [->|Hne].
    + rewrite decide_True by done. cbn. by rewrite Z.add_0_r.
    + rewrite decide_False by done. rewrite IH by (done || lia). cbn [length].
      destruct (list_find _ l) as [[i y]|]; cbn; do 2 f_equal; [lia|].
      destruct (c =? 0); [|done]. f_equal. lia.
Qed.

Lemma strchr_ok m s l c : cstr m s l -> 0 <= c < 256 ->
  strchr s c m = Done (match list_find (fun x => x = c) l with
                       | Some (i, _) => Some (s + Z.of_nat i)
                       | None => if c =? 0 then Some (s + Z.of_nat (length l)) else None
                       end).
Proof. intros Hc ?. apply strchr_loop_ok; [done..|]. by eapply cstr_fuel. Qed.

(** The inner loop stops inside the needle exactly when the needle is no
    prefix of what is left of the haystack. *)
Lemma strstr_match_ok N : forall X fuel h n m,
  cstr m h X -> cstr m n N -> (length N < fuel)%nat ->
  exists k, strstr_match fuel h n m = Done (n + Z.of_nat k) /\ (k <= length N)%nat /\
    (k = length N <-> N `prefix_of` X).
Proof.
  induction N as [|y N IH]; intros X [|f] h n m HX HN Hf; cbn in Hf; try lia; cbn [strstr_match].
  - exists 0%nat. rewrite (cstr_nil _ _ HN). split_and!; [|done|].
    + destruct X as [|x X]; [rewrite (cstr_nil _ _ HX)|apply cstr_cons in HX as (-> & _)]; ocbn;
        rewrite andb_false_r; f_equal; lia.
    + split; [|done]. intros _. apply prefix_nil.
  - apply cstr_cons in HN as (-> & Hy & HN).
    destruct X as [|x X].
    + exists 0%nat. rewrite (cstr_nil _ _ HX). ocbn. rewrite (proj2 (Z.eqb_neq 0 y)) by lia.
      split_and!; [cbn; f_equal; lia|lia|]. split; [done|]. by intros ?%prefix_nil_inv.
    + apply cstr_cons in HX as (-> & Hx & HX). ocbn. rewrite (proj2 (Z.eqb_neq y 0)) by lia.
      destruct (Z.eqb_spec x y) as [->|Hne]; cbn [andb negb].
      * destruct (IH X f (h + 1) (n + 1) m HX HN ltac:(lia)) as (k & -> & Hk & Hp).
        exists (S k). split_and!; [f_equal; lia|cbn; lia|]. cbn [length]. split.
        -- intros [= ?]. apply prefix_cons, Hp. done.
        -- intros ?%prefix_cons_inv_2. f_equal. by apply Hp.
      * exists 0%nat. split_and!; [f_equal; lia|lia|]. split; [done|].
        intros ?%prefix_cons_inv_1. congruence.
Qed.

(** The offset of the first occurrence of [N] in [X]. *)
Fixpoint first_occ (N X : list Z) : option nat :=
  if decide (N `prefix_of` X) then Some 0%nat
  else match X with
       | [] => None
       | _ :: X => S <$> first_occ N X
       end.

Lemma strstr_loop_ok N X : forall fuel h n m,
  cstr m h X -> cstr m n N -> N <> [] -> (length X < fuel)%nat ->
  strstr_loop fuel h n m = Done ((fun k => h + Z.of_nat k) <$> first_occ N X).
Proof.
  induction X as [|x X IH]; intros [|f] h n m HX HN Hne Hf; cbn in Hf; try lia; cbn [strstr_loop].
  - rewrite (cstr_nil _ _ HX). ocbn. cbn [Z.eqb first_occ].
    rewrite decide_False; [done|]. by intros ?%prefix_nil_inv.
  - destruct (strstr_match_ok N (x :: X) (str_fuel m) h n m HX HN) as (k & Ek & Hk & Hp);
      [by eapply cstr_fuel|].
    rewrite Ek. apply cstr_cons in HX as (-> & Hx & HX). ocbn.
    rewrite (proj2 (Z.eqb_neq x 0)) by lia.
    pose proof (cstr_drop _ _ _ _ HN Hk) as Hd. cbn [first_occ].
    destruct (decide (N `prefix_of` x :: X)) as [Hpre|Hpre].
    + rewrite (proj2 Hp Hpre), drop_all in Hd.
      rewrite (proj2 Hp Hpre), (cstr_nil _ _ Hd). cbn. do 2 f_equal. lia.
    + destruct (drop k N) as [|y N'] eqn:E.
      { exfalso. apply Hpre, Hp. apply (f_equal length) in E. rewrite length_drop in E. cbn in E. lia. }
      apply cstr_cons in Hd as (-> & Hy & _). ocbn. rewrite (proj2 (Z.eqb_neq y 0)) by lia.
      rewrite (IH f (h + 1) n m) by (done || lia).
      destruct (first_occ N X) as [j|]; cbn; [|done]. do 2 f_equal. lia.
Qed.

Lemma first_occ_Some N X k : first_occ N X = Some k <->
  (k <= length X)%nat /\ N `prefix_of` drop k X /\ forall j, (j < k)%nat -> ~ N `prefix_of` drop j X.
Proof.
  revert k. induction X as [|x X IH]; intros k; cbn [first_occ]; destruct (decide _) as [Hp|Hp].
  - split; [intros [= <-]; split_and!; [done|done|lia]|]. intros (Hk & _ & Hj). f_equal. cbn in Hk. lia.
  - split; [done|]. intros (Hk & H & _). cbn in Hk. replace k with 0%nat in H by lia. done.
  - split; [intros [= <-]; split_and!; [lia|done|lia]|]. intros (_ & _ & Hj).
    destruct k as [|k]; [done|]. exfalso. apply (Hj 0%nat); [lia|done].
  - rewrite fmap_Some. setoid_rewrite IH. split.
    + intros (j & (Hj & Hd & Hm) & ->). split_and!; [cbn; lia|done|].
      intros [|i] Hi; [done|]. apply Hm. lia.
    + intros (Hk & Hd & Hm). destruct k as [|k]; [done|]. exists k. split_and!; [cbn in Hk; lia|done| |done].
      intros j Hj. apply (Hm (S j)). lia.
Qed.

Lemma first_occ_None N X : first_occ N X = None <-> forall k, ~ N `prefix_of` drop k X.
Proof.
  induction X as [|x X IH]; cbn [first_occ]; destruct (decide _) as [Hp|Hp].
  - split; [done|]. intros H. by apply (H 0%nat) in Hp.
  - split; [|done]. intros _ k. by rewrite drop_nil.
  - split; [done|]. intros H. by apply (H 0%nat) in Hp.
  - rewrite fmap_None, IH. split; [intros H [|k]; [done|apply H]|].
    intros H k. apply (H (S k)).
Qed.

(** ** Bounded copies *)

Lemma copy_loop_ok n : forall l s t m,
  cstr m t l -> valid m s (Z.of_nat n) ->
  (forall i j, 0 <= i < Z.of_nat n -> 0 <= j <= Z.of_nat (length l) -> s + i <> t + j) ->
  exists m', copy_loop n s t m =
      Done (s + Z.of_nat (min n (S (length l))), (n - S (length l))%nat, m') /\
    valid m' s (Z.of_nat n) /\
    forall a, m' !! a = if decide (s <= a < s + Z.of_nat (min n (S (length l))))
                        then (l ++ [0]) !! Z.to_nat (a - s) else m !! a.
Proof.
  induction n as [|n IH]; intros l s t m Hc V Hd; cbn [copy_loop].
  - exists m. cbn [Nat.min Nat.sub]. split_and!; [do 3 f_equal; lia|done|].
    intros a. by rewrite decide_False by lia.
  - assert (valid (<[s := hd 0 (l ++ [0])]> m) s (Z.of_nat (S n))) as V' by by apply valid_insert.
    destruct l as [|x l].
    + rewrite (cstr_nil _ _ Hc). ocbn. rewrite store_run by (eapply valid_0; [done|lia]). ocbn.
      cbn [Z.eqb length]. exists (<[s := 0]> m).
      replace (min (S n) 1) with 1%nat by lia. replace (S n - 1)%nat with n by lia.
      split_and!; [done|done|].
      intros a. destruct (decide (a = s)) as [->|].
      * rewrite lookup_insert_eq, decide_True by lia. by rewrite Z.sub_diag.
      * rewrite lookup_insert_ne by done. by rewrite decide_False by lia.
    + pose proof Hc as Hc0. apply cstr_cons in Hc as (-> & Hx & Hc). ocbn.
      rewrite store_run by (eapply valid_0; [done|lia]). ocbn.
      rewrite (proj2 (Z.eqb_neq x 0)) by lia. cbn [app hd] in V'.
      destruct (IH l (s + 1) (t + 1) (<[s := x]> m)) as (m' & E & Vm & Hm).
      * destruct Hc as [Hb Hf]. split; [|done]. rewrite bytes_at_lookup in *.
        intros i y Ei. rewrite lookup_insert_ne; [by apply Hb|].
        apply lookup_lt_Some in Ei. rewrite length_app in Ei. cbn in Ei.
        intros Heq. apply (Hd 0 (1 + Z.of_nat i)); [lia|cbn; lia|lia].
      * apply (valid_shift _ _ _ 1) in V'; [|lia].
        by replace (Z.of_nat (S n) - 1) with (Z.of_nat n) in V' by lia.
      * intros i j Hi Hj. specialize (Hd (1 + i) (1 + j)). cbn [length] in Hd. lia.
      * rewrite E. exists m'. cbn [length Nat.min Nat.sub].
        assert (m' !! s = Some x) as Es.
        { rewrite Hm, decide_False by lia. by rewrite lookup_insert_eq. }
        split_and!.
        -- do 3 f_equal. lia.
        -- intros i Hi. destruct (decide (i = 0)) as [->|]; [rewrite Z.add_0_r; eauto|].
           replace (s + i) with (s + 1 + (i - 1)) by lia. apply Vm. lia.
        -- intros a. destruct (decide (a = s)) as [->|Hne].
           ++ rewrite decide_True by lia. by rewrite Z.sub_diag.
           ++ rewrite Hm. rewrite lookup_insert_ne by done.
              destruct (decide (s <= a < s + Z.of_nat (S (min n (S (length l)))))).
              ** rewrite decide_True by lia. replace (Z.to_nat (a - s)) with (S (Z.to_nat (a - (s + 1)))) by lia.
                 done.
              ** by rewrite decide_False by lia.
Qed.

(** ** The properties *)

(** C4.  [memmove] copies [n] bytes whatever the overlap of the two ranges: it
    returns, every destination byte gets the source byte as it was before the
    call, and no other byte changes. *)
Theorem memmove_spec dst src n m :
  0 <= n < 2 ^ 32 -> valid m dst n -> valid m src n ->
  exists m', memmove dst src n m = Done m' /\
    (forall i, 0 <= i < n -> m' !! (dst + i) = m !! (src + i)) /\
    (forall a, ~ dst <= a < dst + n -> m' !! a = m !! a).
Proof.
  intros Hn Vd Vs. destruct (memmove_ok dst src n m Hn Vd Vs) as (m' & E & Hm).
  exists m'. split_and!; [done| |].
  - intros i Hi. rewrite Hm, decide_True by lia. f_equal. lia.
  - intros a Ha. by rewrite Hm, decide_False.
Qed.

(** [strstr] of two strings in memory returns, and finds the first place
    of the haystack where the needle starts, or NULL when there is none. *)
Theorem strstr_spec m h n X N :
  cstr m h X -> cstr m n N ->
  exists r, strstr h n m = Done r /\
    match r with
    | Some p => exists k, p = h + Z.of_nat k /\ (k <= length X)%nat /\ N `prefix_of` drop k X /\
                  forall j, (j < k)%nat -> ~ N `prefix_of` drop j X
    | None => forall k, ~ N `prefix_of` drop k X
    end.
Proof.
  intros HX HN. unfold strstr. destruct N as [|y N].
  - rewrite (cstr_nil _ _ HN). exists (Some h). split; [done|].
    exists 0%nat. split_and!; [lia|lia|apply prefix_nil|lia].
  - pose proof HN as HN0. apply cstr_cons in HN as (-> & Hy & _). ocbn.
    rewrite (proj2 (Z.eqb_neq y 0)) by lia.
    rewrite (strstr_loop_ok (y :: N) X) by (done || by eapply cstr_fuel).
    destruct (first_occ (y :: N) X) as [k|] eqn:E; eexists; (split; [done|]); cbn.
    + exists k. split; [done|]. by apply first_occ_Some.
    + by apply first_occ_None.
Qed.

Lemma is_suffix_drop (L R : list Z) :
  (length R <= length L)%nat -> R `suffix_of` L <-> drop (length L - length R) L = R.
Proof.
  intros Hl. split.
  - intros [k ->]. rewrite length_app.
    replace (length k + length R - length R)%nat with (length k + 0)%nat by lia.
    by rewrite drop_app_add.
  - intros <-. exists (take (length L - length R) L). by rewrite take_drop.
Qed.

(** [is_suffix] returns and decides whether the second string is a suffix
    of the first. *)
Theorem is_suffix_spec m p q L R :
  cstr m p L -> cstr m q R -> is_suffix p q m = Done (bool_decide (R `suffix_of` L)).
Proof.
  intros HL HR. unfold is_suffix. rewrite (strlen_ok _ _ _ HL), (strlen_ok _ _ _ HR). ocbn.
  destruct (Z.ltb_spec (Z.of_nat (length L)) (Z.of_nat (length R))) as [Hlt|Hge].
  - rewrite bool_decide_eq_false_2; [done|]. intros ?%suffix_length. lia.
  - rewrite <- Nat2Z.inj_sub by lia.
    pose proof (cstr_drop _ _ _ (length L - length R) HL ltac:(lia)) as Hd.
    rewrite (strcmp_ok _ _ _ _ _ Hd HR). ocbn. f_equal.
    pose proof (str_diff_0 _ _ (proj2 Hd) (proj2 HR)) as H0.
    assert (bool_decide (R `suffix_of` L) = bool_decide (drop (length L - length R) L = R)) as ->
      by (apply bool_decide_ext, is_suffix_drop; lia).
    destruct (Z.eqb_spec (str_diff (drop (length L - length R) L) R) 0) as [E|E].
    + symmetry. apply bool_decide_eq_true_2. by apply H0.
    + symmetry. apply bool_decide_eq_false_2. by rewrite <- H0.
Qed.

(** [safestrcpy] writes one byte past its buffer: the string has [n - 1]
    characters or more, so that the [n] bytes of the buffer are filled, and the
    final NUL goes to the byte after them.  If that byte is not mapped the call
    has no meaning, even for a string that fits with its own NUL. *)
Theorem safestrcpy_overruns s t n m l :
  0 < n -> cstr m t l -> n - 1 <= Z.of_nat (length l) -> valid m s n ->
  (forall i j, 0 <= i < n -> 0 <= j <= Z.of_nat (length l) -> s + i <> t + j) ->
  m !! (s + n) = None -> safestrcpy s t n m = Undef.
Proof.
  intros Hn Hc Hl V Hd E. unfold safestrcpy. rewrite (proj2 (Z.leb_gt n 0)) by done.
  destruct (copy_loop_ok (Z.to_nat n) l s t m Hc) as (m' & Ec & _ & Hm);
    rewrite ?Z2Nat.id in * by lia; try done.
  rewrite Ec. ocbn. replace (s + Z.of_nat (min (Z.to_nat n) (S (length l)))) with (s + n) in * by lia.
  unfold store, load. rewrite Hm, decide_False by lia. by rewrite E.
Qed.

(** ** Strings to run the model on *)

(** "abcabd" at 100, "abd" at 200, mapped bytes 300..303. *)
Definition demo_mem : mem := list_to_map
  ([(100, 97); (101, 98); (102, 99); (103, 97); (104, 98); (105, 100); (106, 0);
    (200, 97); (201, 98); (202, 100); (203, 0)] ++ map (fun i => (i, 7)) [300; 301; 302; 303]).

Lemma demo_hay : cstr demo_mem 100 [97; 98; 99; 97; 98; 100].
Proof. split; [cbn [app bytes_at]; split_and!; reflexivity|repeat constructor]. Qed.
Lemma demo_needle : cstr demo_mem 200 [97; 98; 100].
Proof. split; [cbn [app bytes_at]; split_and!; reflexivity|repeat constructor]. Qed.

Lemma demo_valid (a n : Z) :
  forallb (fun i => match demo_mem !! (a + i) with Some _ => true | None => false end) (seqZ 0 n) = true ->
  valid demo_mem a n.
Proof.
  intros H i Hi. rewrite forallb_forall in H. specialize (H i).
  destruct (demo_mem !! (a + i)); [eauto|]. discriminate H.
  apply list_elem_of_In, elem_of_seqZ. lia.
Qed.

Lemma memmove_spec_witness : exists m', memmove 101 100 5 demo_mem = Done m' /\
  m' !! 105 = Some 98 /\ m' !! 102 = Some 98.
Proof.
  destruct (memmove_spec 101 100 5 demo_mem) as (m' & E & Hin & _).
  - lia.
  - apply demo_valid. vm_compute. reflexivity.
  - apply demo_valid. vm_compute. reflexivity.
  - exists m'. split; [exact E|]. split.
    + exact (Hin 4 ltac:(lia)).
    + exact (Hin 1 ltac:(lia)).
Defined.

Lemma strstr_spec_witness : strstr 100 200 demo_mem = Done (Some 103) /\
  exists r, strstr 100 200 demo_mem = Done r.
Proof.
  split; [vm_compute; reflexivity|].
  destruct (strstr_spec demo_mem 100 200 _ _ demo_hay demo_needle) as (r & E & _).
  exists r. exact E.
Defined.

Lemma is_suffix_spec_witness : is_suffix 100 200 demo_mem = Done true.
Proof. exact (is_suffix_spec demo_mem 100 200 _ _ demo_hay demo_needle). Defined.

(** "abd" and its NUL fit the four bytes at 300; the copy does not. *)
Lemma safestrcpy_overruns_witness : safestrcpy 300 200 4 demo_mem = Undef.
Proof.
  apply (safestrcpy_overruns 300 200 4 demo_mem _ ltac:(lia) demo_needle).
  - cbn. lia.
  - apply demo_valid. vm_compute. reflexivity.
  - intros i j Hi Hj. cbn in Hj. lia.
  - vm_compute. reflexivity.
Defined.
