(* ===== verification/Printf.v ===== *)
(** * Printf: formatted output

    [src/lib/sprintf.c] and [src/lib/printf.c].  The two files hold the same
    conversion routines; one stores characters ([*str++ = c]), the other sends them to the console
    ([consputc(c)]), and [vsnprintf] stores them until its buffer is full and then jumps to its end.
    The routines are written once over the way a character is put: a monad [M] that
    can at least fail as C does ([OutM]), a state [S] and [put].  Each slot of the
    argument list is a 64-bit register.  Signed arithmetic that leaves [int] or [long]
    is [Undef].

    The reference is [format]: what a format and its arguments print, as a function
    on lists of characters.  [printf_sprintf_format] shows both files compute it,
    [snprintf_text] that [snprintf] cuts it to its buffer when nothing but text is converted, and
    [snprintf_overflows] that it does not when a number is. *)

From stdpp Require Import base gmap sets list fin_maps.
From Stdlib Require Import ZArith Lia.
From S2P Require Import Prelude Kstring.
#[local] Open Scope Z_scope.

(** ** Monads that characters are put in *)

Class OutM (M : Type -> Type) `{MRet M, MBind M} := {
  lift : forall A, outcome A -> M A;
  lift_Done : forall A (a : A), lift A (Done a) = mret a;
  out_ret : forall A B (a : A) (f : A -> M B), (mret a ≫= f) = f a;
  out_ret_r : forall A (x : M A), (x ≫= mret) = x;
  out_assoc : forall A B C (x : M A) (f : A -> M B) (g : B -> M C),
    ((x ≫= f) ≫= g) = (x ≫= fun a => f a ≫= g);
  out_ext : forall A B (x : M A) (f g : A -> M B), (forall a, f a = g a) -> (x ≫= f) = (x ≫= g);
}.
Arguments lift {_ _ _ _ _} _.

#[export] Program Instance outcome_OutM : OutM outcome := {| lift := fun A x => x |}.
Next Obligation. by intros. Qed.
Next Obligation. by intros. Qed.
Next Obligation. intros; by destruct x. Qed.
Next Obligation. intros; by destruct x. Qed.
Next Obligation. intros; destruct x; cbn; auto. Qed.

(** [goto finish]: the rest is skipped and the state at the jump is kept. *)
Definition exiting (F A : Type) : Type := outcome (F + A).
#[export] Instance exiting_ret F : MRet (exiting F) := fun A a => Done (inr a).
#[export] Instance exiting_bind F : MBind (exiting F) := fun A B f x =>
  match x with
  | Done (inl s) => Done (inl s)
  | Done (inr a) => f a
  | Panic => Panic
  | Undef => Undef
  | NoFuel => NoFuel
  end.
#[export] Program Instance exiting_OutM F : OutM (exiting F) :=
  {| lift := fun A x => match x with
                        | Done a => Done (inr a)
                        | Panic => Panic
                        | Undef => Undef
                        | NoFuel => NoFuel
                        end |}.
Next Obligation. by intros. Qed.
Next Obligation. by intros. Qed.
Next Obligation. intros; by destruct x as [[]| | |]. Qed.
Next Obligation. intros; by destruct x as [[]| | |]. Qed.
Next Obligation. intros; destruct x as [[]| | |]; cbn; auto. Qed.

(** ** Integers, flags and arguments *)

(** The result of signed [int] and [long] arithmetic. *)
Definition int (z : Z) : outcome Z := if (- 2 ^ 31 <=? z) && (z <? 2 ^ 31) then Done z else Undef.
Definition long (z : Z) : outcome Z := if (- 2 ^ 63 <=? z) && (z <? 2 ^ 63) then Done z else Undef.
Definition s64 (x : Z) : Z := let y := x mod 2 ^ 64 in if y <? 2 ^ 63 then y else y - 2 ^ 64.

Definition ZEROPAD : Z := 1.
Definition SIGN : Z := 2.
Definition PLUS : Z := 4.
Definition SPACE : Z := 8.
Definition LEFT : Z := 16.
Definition SPECIAL : Z := 32.
Definition LARGE : Z := 64.

(** [type & f] as a condition. *)
Definition flag (type f : Z) : bool := negb (Z.land type f =? 0).

Definition is_digit (c : Z) : bool := (48 <=? c) && (c <=? 57).

Definition digit_chars (first_letter : Z) : list Z :=
  ((fun i => 48 + Z.of_nat i) <$> seq 0 10) ++ ((fun i => first_letter + Z.of_nat i) <$> seq 0 26).
Definition lower_digits : list Z := digit_chars 97.
Definition upper_digits : list Z := digit_chars 65.

(** [va_arg]: the next slot. *)
Definition va_arg (args : list Z) : outcome (Z * list Z) :=
  match args with a :: args => Done (a, args) | [] => Undef end.

(** ** Reading a directive: flags, width, precision, qualifier *)

Record directive := mk_dir { d_flags : Z; d_width : Z; d_prec : Z; d_qual : Z }.

Definition flag_of (c : Z) : option Z :=
  if c =? 45 then Some LEFT
  else if c =? 43 then Some PLUS
  else if c =? 32 then Some SPACE
  else if c =? 35 then Some SPECIAL
  else if c =? 48 then Some ZEROPAD
  else None.

Fixpoint read_flags (fuel : nat) (fmt flags : Z) (m : mem) : outcome (Z * Z) :=
  match fuel with
  | O => NoFuel
  | S f =>
      c ← load m (fmt + 1);
      match flag_of c with
      | Some b => read_flags f (fmt + 1) (Z.lor flags b) m
      | None => Done (fmt + 1, flags)
      end
  end.

(** The number read and the first character after it. *)
Fixpoint skip_atoi_loop (fuel : nat) (s i : Z) (m : mem) : outcome (Z * Z) :=
  match fuel with
  | O => NoFuel
  | S f =>
      c ← load m s;
      if is_digit c then x ← int (i * 10 + c); skip_atoi_loop f (s + 1) (x - 48) m
      else Done (i, s)
  end.
Definition skip_atoi (s : Z) (m : mem) : outcome (Z * Z) := skip_atoi_loop (str_fuel m) s 0 m.

Definition read_width (fmt flags : Z) (args : list Z) (m : mem) : outcome (Z * Z * Z * list Z) :=
  c ← load m fmt;
  if is_digit c then '(w, fmt) ← skip_atoi fmt m; Done (fmt, flags, w, args)
  else if c =? 42 then
    '(a, args) ← va_arg args;
    let w := s32 a in
    if w <? 0 then w ← int (- w); Done (fmt + 1, Z.lor flags LEFT, w, args)
    else Done (fmt + 1, flags, w, args)
  else Done (fmt, flags, -1, args).

Definition read_precision (fmt : Z) (args : list Z) (m : mem) : outcome (Z * Z * list Z) :=
  c ← load m fmt;
  if c =? 46 then
    let fmt := fmt + 1 in
    c ← load m fmt;
    '(fmt, p, args) ←
      (if is_digit c then '(p, fmt) ← skip_atoi fmt m; Done (fmt, p, args)
       else if c =? 42 then '(a, args) ← va_arg args; Done (fmt + 1, s32 a, args)
       else Done (fmt, -1, args));
    Done (fmt, if p <? 0 then 0 else p, args)
  else Done (fmt, -1, args).

Definition read_qualifier (fmt : Z) (m : mem) : outcome (Z * Z) :=
  c ← load m fmt;
  if (c =? 108) || (c =? 76) then Done (fmt + 1, c) else Done (fmt, -1).

(** From the [%] to the conversion character. *)
Definition read_directive (fmt : Z) (args : list Z) (m : mem) : outcome (Z * directive * list Z) :=
  '(fmt, flags) ← read_flags (str_fuel m) fmt 0 m;
  '(fmt, flags, w, args) ← read_width fmt flags args m;
  '(fmt, p, args) ← read_precision fmt args m;
  '(fmt, q) ← read_qualifier fmt m;
  Done (fmt, mk_dir flags w p q, args).

(** The integer conversions: base and flags for [number]. *)
Definition int_conv (c flags : Z) : option (Z * Z) :=
  if c =? 111 then Some (8, flags)
  else if c =? 88 then Some (16, Z.lor flags LARGE)
  else if c =? 120 then Some (16, flags)
  else if (c =? 100) || (c =? 105) then Some (10, Z.lor flags SIGN)
  else if c =? 117 then Some (10, flags)
  else None.

(** The argument of an integer conversion, as the [long] that [number] gets. *)
Definition va_num (qualifier flags : Z) (args : list Z) : outcome (Z * list Z) :=
  '(a, args) ← va_arg args;
  Done (if qualifier =? 108 then s64 a else if flag flags SIGN then s32 a else u32 a, args).

(** ** Putting characters *)

(** The digits of [num], the last one first: [tmp] of [number]. *)
Fixpoint tmp_loop (fuel : nat) (num base : Z) (digits : list Z) : outcome (list Z) :=
  if num =? 0 then Done []
  else match fuel with
       | O => NoFuel
       | S f =>
           c ← deref (digits !! Z.to_nat (num mod base));
           tmp ← tmp_loop f (num / base) base digits;
           Done (c :: tmp)
       end.

Section printer.
Context `{OutM M} {S : Type}.
(** [rd] is the memory of a state; [null] is the state after [number] rejects its
    base ([sprintf.c] returns a NULL position, [printf.c] just returns). *)
Variable put : Z -> S -> M S.
Variable rd : S -> mem.
Variable null : S -> S.

Fixpoint puts (l : list Z) (s : S) : M S :=
  match l with
  | [] => mret s
  | c :: l => s ← put c s; puts l s
  end.

(** [while (lim < w--) put(c);] *)
Fixpoint post_loop (n : nat) (lim w c : Z) (s : S) : M (Z * S) :=
  w' ← lift (int (w - 1));
  if lim <? w then
    match n with
    | O => lift NoFuel
    | Datatypes.S n => s ← put c s; post_loop n lim w' c s
    end
  else mret (w', s).
Definition while_post (lim w c : Z) (s : S) : M (Z * S) := post_loop (Z.to_nat (w - lim)) lim w c s.

(** [while (--w > 0) put(c);] *)
Fixpoint pre_loop (n : nat) (w c : Z) (s : S) : M (Z * S) :=
  w ← lift (int (w - 1));
  if 0 <? w then
    match n with
    | O => lift NoFuel
    | Datatypes.S n => s ← put c s; pre_loop n w c s
    end
  else mret (w, s).
Definition while_pre (w c : Z) (s : S) : M (Z * S) := pre_loop (Z.to_nat w) w c s.

(** The sign character, 0 for none, the magnitude, and the width that is left. *)
Definition take_sign (num size type : Z) : outcome (Z * Z * Z) :=
  if flag type SIGN then
    if num <? 0 then num ← long (- num); size ← int (size - 1); Done (45, num, size)
    else if flag type PLUS then size ← int (size - 1); Done (43, num, size)
    else if flag type SPACE then size ← int (size - 1); Done (32, num, size)
    else Done (0, num, size)
  else Done (0, num, size).

Definition take_special (base size type : Z) : outcome Z :=
  if flag type SPECIAL then
    if base =? 16 then int (size - 2) else if base =? 8 then int (size - 1) else Done size
  else Done size.

Definition put_special (base type : Z) (digits : list Z) (s : S) : M S :=
  if flag type SPECIAL then
    if base =? 8 then put 48 s
    else if base =? 16 then s ← put 48 s; x ← lift (deref (digits !! 33%nat)); put x s
    else mret s
  else mret s.

Definition number (num base size precision type : Z) (s : S) : M S :=
  let digits := if flag type LARGE then upper_digits else lower_digits in
  let type := if flag type LEFT then Z.land type (Z.lnot ZEROPAD) else type in
  if (base <? 2) || (36 <? base) then mret (null s)
  else
    let c := if flag type ZEROPAD then 48 else 32 in
    '(sign, num, size) ← lift (take_sign num size type);
    size ← lift (take_special base size type);
    tmp ← lift (if num =? 0 then Done [48] else tmp_loop 64 (u64 num) base digits);
    let i := Z.of_nat (length tmp) in
    let precision := if precision <? i then i else precision in
    size ← lift (int (size - precision));
    '(size, s) ← (if flag type (ZEROPAD + LEFT) then mret (size, s) else while_post 0 size 32 s);
    s ← (if sign =? 0 then mret s else put sign s);
    s ← put_special base type digits s;
    '(size, s) ← (if flag type LEFT then mret (size, s) else while_post 0 size c s);
    '(_, s) ← while_post i precision 48 s;
    s ← puts (rev tmp) s;
    '(_, s) ← while_post 0 size 32 s;
    mret s.

Definition conv_char (d : directive) (a : Z) (s : S) : M S :=
  '(w, s) ← (if flag (d_flags d) LEFT then mret (d_width d, s) else while_pre (d_width d) 32 s);
  s ← put (u8 a) s;
  '(_, s) ← while_pre w 32 s;
  mret s.

Definition null_text : list Z := [60; 78; 85; 76; 76; 62].

(** [for (i = 0; i < len; ++i) put( *s++ );] *)
Fixpoint copy_text (n : nat) (a : Z) (s : S) : M S :=
  match n with
  | O => mret s
  | Datatypes.S n => c ← lift (load (rd s) a); s ← put c s; copy_text n (a + 1) s
  end.

Definition conv_text (d : directive) (a : Z) (s : S) : M S :=
  len ← lift (if a =? 0 then Done (Z.min 6 (u64 (d_prec d))) else strnlen a (d_prec d) (rd s));
  let len := s32 len in
  '(w, s) ← (if flag (d_flags d) LEFT then mret (d_width d, s) else while_post len (d_width d) 32 s);
  s ← (if a =? 0 then puts (take (Z.to_nat len) null_text) s else copy_text (Z.to_nat len) a s);
  '(_, s) ← while_post len w 32 s;
  mret s.

(** [%p]: without a width, sixteen digits. *)
Definition conv_pointer (d : directive) (a : Z) (s : S) : M S :=
  if d_width d =? -1
  then number (s64 a) 16 16 (d_prec d) (Z.lor (d_flags d) ZEROPAD) s
  else number (s64 a) 16 (d_width d) (d_prec d) (d_flags d) s.

(** A character that is no conversion: printed after [lead], unless the format ends there. *)
Definition conv_other (lead c : Z) (s : S) : M S :=
  s ← (if c =? 37 then mret s else put lead s);
  if c =? 0 then mret s else put c s.
End printer.

(** ** The three printers *)

(** [*str++ = c] *)
Definition put_mem (c : Z) (s : Z * mem) : outcome (Z * mem) :=
  let '(str, m) := s in m ← store str c m; Done (str + 1, m).
Definition null_mem (s : Z * mem) : Z * mem := (0, s.2).

(** The [n] bytes of a little-endian integer. *)
Fixpoint store_le (n : nat) (a v : Z) (m : mem) : outcome mem :=
  match n with
  | O => Done m
  | S n => m ← store a (v mod 256) m; store_le n (a + 1) (v / 256) m
  end.

Fixpoint vsprintf_loop (fuel : nat) (buf fmt : Z) (args : list Z) (s : Z * mem) : outcome (Z * mem) :=
  match fuel with
  | O => NoFuel
  | S f =>
      c ← load s.2 fmt;
      if c =? 0 then Done s
      else if negb (c =? 37) then s ← put_mem c s; vsprintf_loop f buf (fmt + 1) args s
      else
        '(fmt, d, args) ← read_directive fmt args s.2;
        c ← load s.2 fmt;
        if c =? 99 then
          '(a, args) ← va_arg args;
          s ← conv_char put_mem d a s; vsprintf_loop f buf (fmt + 1) args s
        else if c =? 115 then
          '(a, args) ← va_arg args;
          s ← conv_text put_mem snd d (u64 a) s; vsprintf_loop f buf (fmt + 1) args s
        else if c =? 112 then
          '(a, args) ← va_arg args;
          s ← conv_pointer put_mem null_mem d a s; vsprintf_loop f buf (fmt + 1) args s
        else if c =? 110 then
          '(a, args) ← va_arg args;
          m ← store_le (if d_qual d =? 108 then 8 else 4) (u64 a) (s.1 - buf) s.2;
          vsprintf_loop f buf (fmt + 1) args (s.1, m)
        else match int_conv c (d_flags d) with
             | Some (base, flags) =>
                 '(num, args) ← va_num (d_qual d) flags args;
                 s ← number put_mem null_mem num base (d_width d) (d_prec d) flags s;
                 vsprintf_loop f buf (fmt + 1) args s
             | None =>
                 s ← conv_other put_mem 37 c s;
                 vsprintf_loop f buf (if c =? 0 then fmt else fmt + 1) args s
             end
  end.

(** [vsprintf]: the number of characters, and the memory. *)
Definition vsprintf (buf fmt : Z) (args : list Z) (m : mem) : outcome (Z * mem) :=
  '(str, m) ← vsprintf_loop (str_fuel m) buf fmt args (buf, m);
  m ← store str 0 m;
  Done (s32 (str - buf), m).

Definition sprintf (buf fmt : Z) (args : list Z) (m : mem) : outcome (Z * mem) :=
  vsprintf buf fmt args m.

Section console.
(** The console is whatever state [consputc] of the driver changes. *)
Context {C : Type} (consputc : Z -> C -> C).
Definition put_con (c : Z) (k : C) : outcome C := Done (consputc c k).

Fixpoint vprintf_loop (fuel : nat) (fmt : Z) (args : list Z) (m : mem) (k : C) : outcome C :=
  match fuel with
  | O => NoFuel
  | S f =>
      c ← load m fmt;
      if c =? 0 then Done k
      else if negb (c =? 37) then k ← put_con c k; vprintf_loop f (fmt + 1) args m k
      else
        '(fmt, d, args) ← read_directive fmt args m;
        c ← load m fmt;
        if c =? 99 then
          '(a, args) ← va_arg args;
          k ← conv_char put_con d a k; vprintf_loop f (fmt + 1) args m k
        else if c =? 115 then
          '(a, args) ← va_arg args;
          k ← conv_text put_con (const m) d (u64 a) k; vprintf_loop f (fmt + 1) args m k
        else if c =? 112 then
          '(a, args) ← va_arg args;
          k ← conv_pointer put_con id d a k; vprintf_loop f (fmt + 1) args m k
        else match int_conv c (d_flags d) with
             | Some (base, flags) =>
                 '(num, args) ← va_num (d_qual d) flags args;
                 k ← number put_con id num base (d_width d) (d_prec d) flags k;
                 vprintf_loop f (fmt + 1) args m k
             | None =>
                 k ← conv_other put_con 37 c k;
                 vprintf_loop f (if c =? 0 then fmt else fmt + 1) args m k
             end
  end.

Definition vprintf (fmt : Z) (args : list Z) (m : mem) (k : C) : outcome C :=
  vprintf_loop (str_fuel m) fmt args m k.
End console.

(** [vsnprintf_writechar]; the state is [write_cnt], [str] and memory. *)
Definition sn_state : Type := Z * Z * mem.
Definition sn_mem (s : sn_state) : mem := s.2.
Definition put_lim (size c : Z) (s : sn_state) : exiting sn_state sn_state :=
  let '(cnt, str, m) := s in
  m ← lift (store str c m);
  cnt ← lift (int (cnt + 1));
  if size - 1 <=? cnt then Done (inl (cnt, str + 1, m)) else mret (cnt, str + 1, m).

(** [number] of [vsnprintf] stores without a limit and does not count. *)
Definition lim_number (num base size precision type : Z) (s : sn_state) : exiting sn_state sn_state :=
  let '(cnt, str, m) := s in
  '(str, m) ← lift (number put_mem null_mem num base size precision type (str, m));
  mret (cnt, str, m).

(** [%p] then adjusts the count. *)
Definition lim_pointer (size : Z) (d : directive) (a : Z) (s : sn_state) : exiting sn_state sn_state :=
  let w := if d_width d =? -1 then 16 else d_width d in
  let flags := if d_width d =? -1 then Z.lor (d_flags d) ZEROPAD else d_flags d in
  '(cnt, str, m) ← lim_number (s64 a) 16 w (d_prec d) flags s;
  x ← lift (int (size - 1 - cnt));
  cnt ← lift (if x <=? w then Done 0 else int (cnt - w));
  if cnt =? 0 then Done (inl (cnt, str, m)) else mret (cnt, str, m).

Fixpoint vsnprintf_loop (fuel : nat) (buf size fmt : Z) (args : list Z) (s : sn_state)
    : exiting sn_state sn_state :=
  match fuel with
  | O => NoFuel
  | S f =>
      c ← lift (load (sn_mem s) fmt);
      if c =? 0 then mret s
      else if negb (c =? 37) then s ← put_lim size c s; vsnprintf_loop f buf size (fmt + 1) args s
      else
        '(fmt, d, args) ← lift (read_directive fmt args (sn_mem s));
        c ← lift (load (sn_mem s) fmt);
        if c =? 99 then
          '(a, args) ← lift (va_arg args);
          s ← conv_char (put_lim size) d a s; vsnprintf_loop f buf size (fmt + 1) args s
        else if c =? 115 then
          '(a, args) ← lift (va_arg args);
          s ← conv_text (put_lim size) sn_mem d (u64 a) s; vsnprintf_loop f buf size (fmt + 1) args s
        else if c =? 112 then
          '(a, args) ← lift (va_arg args);
          s ← lim_pointer size d a s; vsnprintf_loop f buf size (fmt + 1) args s
        else if c =? 110 then
          '(a, args) ← lift (va_arg args);
          m ← lift (store_le (if d_qual d =? 108 then 8 else 4) (u64 a) (s.1.2 - buf) s.2);
          vsnprintf_loop f buf size (fmt + 1) args (s.1, m)
        else match int_conv c (d_flags d) with
             | Some (base, flags) =>
                 '(num, args) ← lift (va_num (d_qual d) flags args);
                 s ← lim_number num base (d_width d) (d_prec d) flags s;
                 vsnprintf_loop f buf size (fmt + 1) args s
             | None =>
                 s ← conv_other (put_lim size) 32 c s;
                 vsnprintf_loop f buf size (if c =? 0 then fmt else fmt + 1) args s
             end
  end.

Definition vsnprintf (buf size fmt : Z) (args : list Z) (m : mem) : outcome (Z * mem) :=
  if size =? 0 then Done (0, m)
  else
    x ← vsnprintf_loop (str_fuel m) buf size fmt args (0, buf, m);
    let '(_, str, m) := match x with inl s => s | inr s => s end in
    m ← store str 0 m;
    Done (s32 (if str - buf <? size then str - buf else size), m).

Definition snprintf (buf size fmt : Z) (args : list Z) (m : mem) : outcome (Z * mem) :=
  vsnprintf buf size fmt args m.

(** ** The reference: what a format prints *)

(** The digits of [n] in [base], the first one first. *)
Fixpoint digits_of (fuel : nat) (base n : Z) (acc : list Z) : list Z :=
  match fuel with
  | O => acc
  | S f => if n <? base then n :: acc else digits_of f base (n / base) (n mod base :: acc)
  end.
Definition digit_char (upper : bool) (d : Z) : Z := if d <? 10 then 48 + d else (if upper then 55 else 87) + d.
Definition numeral (upper : bool) (base n : Z) : list Z :=
  digit_char upper <$> digits_of 64 base n [].

Definition spaces (n : Z) : list Z := replicate (Z.to_nat n) 32.
Definition zeros (n : Z) : list Z := replicate (Z.to_nat n) 48.

(** Sign and prefix, zeros up to the precision, digits; then filled to the width. *)
Definition format_number (num base width prec type : Z) : list Z :=
  let signed := flag type SIGN in
  let upper := flag type LARGE in
  let text := numeral upper base (if signed then Z.abs num else u64 num) in
  let body := zeros (prec - Z.of_nat (length text)) ++ text in
  let sign := if signed then if num <? 0 then [45] else if flag type PLUS then [43]
                             else if flag type SPACE then [32] else []
              else [] in
  let prefix := if flag type SPECIAL then
                  if base =? 16 then [48; if upper then 88 else 120] else if base =? 8 then [48] else []
                else [] in
  let head := sign ++ prefix in
  let fill := width - Z.of_nat (length (head ++ body)) in
  if flag type LEFT then head ++ body ++ spaces fill
  else if flag type ZEROPAD then head ++ zeros fill ++ body
  else spaces fill ++ head ++ body.

Definition pad_text (left : bool) (width : Z) (l : list Z) : list Z :=
  let fill := spaces (width - Z.of_nat (length l)) in
  if left then l ++ fill else fill ++ l.

(** Reading a directive off a list of characters; [None] where the code's
    arithmetic overflows or the arguments run out. *)
Fixpoint ref_flags (l : list Z) (flags : Z) : list Z * Z :=
  match l with
  | c :: l' => match flag_of c with
               | Some b => ref_flags l' (Z.lor flags b)
               | None => (l, flags)
               end
  | [] => (l, flags)
  end.

Fixpoint ref_atoi (l : list Z) (i : Z) : list Z * Z :=
  match l with
  | c :: l' => if is_digit c then ref_atoi l' (i * 10 + (c - 48)) else (l, i)
  | [] => (l, i)
  end.

Definition small (i : Z) : option Z := if i <? 2 ^ 31 - 48 then Some i else None.

Definition ref_width (l : list Z) (flags : Z) (args : list Z) : option (list Z * Z * Z * list Z) :=
  match l with
  | c :: l' =>
      if is_digit c then w ← small (ref_atoi l 0).2; Some ((ref_atoi l 0).1, flags, w, args)
      else if c =? 42 then
        match args with
        | a :: args =>
            w ← small (Z.abs (s32 a));
            Some (l', if s32 a <? 0 then Z.lor flags LEFT else flags, w, args)
        | [] => None
        end
      else Some (l, flags, -1, args)
  | [] => Some (l, flags, -1, args)
  end.

Definition ref_precision (l : list Z) (args : list Z) : option (list Z * Z * list Z) :=
  match l with
  | c :: l' =>
      if c =? 46 then
        match l' with
        | c' :: l'' =>
            if is_digit c' then p ← small (ref_atoi l' 0).2; Some ((ref_atoi l' 0).1, p, args)
            else if c' =? 42 then
              match args with
              | a :: args => p ← small (Z.max 0 (s32 a)); Some (l'', p, args)
              | [] => None
              end
            else Some (l', 0, args)
        | [] => Some (l', 0, args)
        end
      else Some (l, -1, args)
  | [] => Some (l, -1, args)
  end.

Definition ref_qualifier (l : list Z) : list Z * Z :=
  match l with
  | c :: l' => if (c =? 108) || (c =? 76) then (l', c) else (l, -1)
  | [] => (l, -1)
  end.

Definition ref_directive (l : list Z) (args : list Z) : option (list Z * directive * list Z) :=
  let '(l, flags) := ref_flags l 0 in
  '(l, flags, w, args) ← ref_width l flags args;
  '(l, p, args) ← ref_precision l args;
  let '(l, q) := ref_qualifier l in
  Some (l, mk_dir flags w p q, args).

Section reference.
(** The strings that pointer arguments point to; [numbers] says whether conversions of
    numbers and characters that are no conversion are allowed. *)
Variable text_of : Z -> option (list Z).
Variable numbers : bool.

Definition ref_text (d : directive) (a : Z) : option (list Z) :=
  l ← (if u64 a =? 0 then Some null_text else text_of (u64 a));
  if Z.of_nat (length l) <? 2 ^ 31
  then Some (pad_text (flag (d_flags d) LEFT) (d_width d)
               (if d_prec d <? 0 then l else take (Z.to_nat (d_prec d)) l))
  else None.

Definition ref_number (num base width prec flags : Z) : option (list Z) :=
  if negb numbers || (flag flags SIGN && (num =? - 2 ^ 63)) then None
  else Some (format_number num base width prec flags).

(** One conversion: what it prints and the arguments left. *)
Definition ref_conv (c : Z) (d : directive) (args : list Z) : option (list Z * list Z) :=
  if c =? 99 then
    match args with
    | a :: args => Some (pad_text (flag (d_flags d) LEFT) (d_width d) [u8 a], args)
    | [] => None
    end
  else if c =? 115 then
    match args with
    | a :: args => l ← ref_text d a; Some (l, args)
    | [] => None
    end
  else if c =? 112 then
    match args with
    | a :: args =>
        l ← (if d_width d =? -1 then ref_number (s64 a) 16 16 (d_prec d) (Z.lor (d_flags d) ZEROPAD)
             else ref_number (s64 a) 16 (d_width d) (d_prec d) (d_flags d));
        Some (l, args)
    | [] => None
    end
  else if c =? 110 then None
  else match int_conv c (d_flags d) with
       | Some (base, flags) =>
           match args with
           | a :: args =>
               l ← ref_number (if d_qual d =? 108 then s64 a else if flag flags SIGN then s32 a else u32 a)
                     base (d_width d) (d_prec d) flags;
               Some (l, args)
           | [] => None
           end
       | None => if c =? 37 then Some ([37], args) else if numbers then Some ([37; c], args) else None
       end.

Fixpoint format_from (fuel : nat) (l : list Z) (args : list Z) : option (list Z) :=
  match fuel with
  | O => None
  | S f =>
      match l with
      | [] => Some []
      | c :: l =>
          if negb (c =? 37) then out ← format_from f l args; Some (c :: out)
          else
            '(l, d, args) ← ref_directive l args;
            match l with
            | [] => if numbers then Some [37] else None
            | c :: l =>
                '(out, args) ← ref_conv c d args;
                rest ← format_from f l args;
                Some (out ++ rest)
            end
      end
  end.

Definition format (l : list Z) (args : list Z) : option (list Z) := format_from (S (length l)) l args.
End reference.

(** ** Integers and flags *)

Lemma int_ok z : - 2 ^ 31 <= z < 2 ^ 31 -> int z = Done z.
Proof. intros Hz. unfold int. by rewrite (proj2 (Z.leb_le _ _)), (proj2 (Z.ltb_lt _ _)) by lia. Qed.
Lemma long_ok z : - 2 ^ 63 <= z < 2 ^ 63 -> long z = Done z.
Proof. intros Hz. unfold long. by rewrite (proj2 (Z.leb_le _ _)), (proj2 (Z.ltb_lt _ _)) by lia. Qed.

Lemma s32_range a : - 2 ^ 31 <= s32 a < 2 ^ 31.
Proof. unfold s32. pose proof (Z.mod_pos_bound a (2 ^ 32) eq_refl). destruct (Z.ltb_spec (a mod 2 ^ 32) (2 ^ 31)); lia. Qed.
Lemma s64_range a : - 2 ^ 63 <= s64 a < 2 ^ 63.
Proof. unfold s64. pose proof (Z.mod_pos_bound a (2 ^ 64) eq_refl). destruct (Z.ltb_spec (a mod 2 ^ 64) (2 ^ 63)); lia. Qed.

Lemma flag_bit type k : 0 <= k -> flag type (2 ^ k) = Z.testbit type k.
Proof.
  intros Hk. unfold flag. destruct (Z.eqb_spec (Z.land type (2 ^ k)) 0) as [E|E]; cbn.
  - assert (Z.testbit (Z.land type (2 ^ k)) k = false) as Hb by (rewrite E; apply Z.bits_0).
    rewrite Z.land_spec, Z.pow2_bits_true, andb_true_r in Hb by done. done.
  - destruct (Z.testbit type k) eqn:Hb; [done|]. destruct E. apply Z.bits_inj'. intros i Hi.
    rewrite Z.land_spec, Z.bits_0, Z.pow2_bits_eqb by done.
    destruct (Z.eqb_spec k i) as [->|]; [by rewrite Hb|apply andb_false_r].
Qed.

(** Clearing [ZEROPAD] leaves the other flags. *)
Lemma flag_unzero type k : 0 <= k ->
  flag (Z.land type (Z.lnot ZEROPAD)) (2 ^ k) = if k =? 0 then false else flag type (2 ^ k).
Proof.
  intros Hk. rewrite !flag_bit, Z.land_spec, Z.lnot_spec by done. change ZEROPAD with (2 ^ 0).
  rewrite Z.pow2_bits_eqb by done. rewrite (Z.eqb_sym 0).
  destruct (k =? 0); [apply andb_false_r|by rewrite andb_true_r].
Qed.

Lemma flag_either type : flag type (ZEROPAD + LEFT) = flag type ZEROPAD || flag type LEFT.
Proof.
  change ZEROPAD with (2 ^ 0) at 2. change LEFT with (2 ^ 4) at 2. rewrite !flag_bit by done. unfold flag.
  change (ZEROPAD + LEFT) with 17. destruct (Z.eqb_spec (Z.land type 17) 0) as [E|E]; cbn [negb].
  - assert (forall k, 0 <= k -> Z.testbit (Z.land type 17) k = false) as Hb by (intros; rewrite E; apply Z.bits_0).
    pose proof (Hb 0 ltac:(lia)) as H0. pose proof (Hb 4 ltac:(lia)) as H4.
    rewrite Z.land_spec, andb_true_r in H0, H4. by rewrite H0, H4.
  - destruct (Z.testbit type 0) eqn:H0, (Z.testbit type 4) eqn:H4; try done. destruct E.
    apply Z.bits_inj'. intros i Hi. rewrite Z.land_spec, Z.bits_0.
    change 17 with (2 ^ 4 + 2 ^ 0). rewrite Z.add_nocarry_lxor, Z.lxor_spec, !Z.pow2_bits_eqb by done.
    destruct (Z.eqb_spec 4 i) as [<-|]; [by rewrite H4|].
    destruct (Z.eqb_spec 0 i) as [<-|]; [by rewrite H0|apply andb_false_r].
Qed.

Lemma digit_at (upper : bool) d : 0 <= d < 36 ->
  (if upper then upper_digits else lower_digits) !! Z.to_nat d = Some (digit_char upper d).
Proof.
  intros Hd. assert (forallb (fun d : nat => bool_decide
    ((if upper then upper_digits else lower_digits) !! d = Some (digit_char upper (Z.of_nat d)))) (seq 0 36) = true)
    as Hall by (destruct upper; reflexivity).
  rewrite forallb_forall in Hall. specialize (Hall (Z.to_nat d)). rewrite bool_decide_eq_true in Hall.
  rewrite Hall, Z2Nat.id by (lia || apply in_seq; lia). done.
Qed.

(** ** Digits *)

Lemma digits_of_acc f : forall base n acc, digits_of f base n acc = digits_of f base n [] ++ acc.
Proof.
  induction f as [|f IH]; intros base n acc; cbn [digits_of]; [done|].
  destruct (n <? base); [done|]. rewrite IH, (IH _ _ [_]), <- app_assoc. done.
Qed.

(** The loop of [number] finds the digits, the last one first. *)
Lemma tmp_loop_ok (upper : bool) base f : forall n, 2 <= base <= 36 -> 0 < n < 2 ^ Z.of_nat f ->
  tmp_loop f n base (if upper then upper_digits else lower_digits)
  = Done (rev (digit_char upper <$> digits_of f base n [])).
Proof.
  induction f as [|f IH]; intros n Hb Hn; [cbn in Hn; lia|].
  rewrite Nat2Z.inj_succ, Z.pow_succ_r in Hn by lia. cbn [tmp_loop digits_of].
  destruct (Z.eqb_spec n 0); [lia|]. pose proof (Z.mod_pos_bound n base ltac:(lia)).
  rewrite digit_at by lia. cbn [deref]. ocbn. pose proof (Z.div_mod n base ltac:(lia)).
  destruct (Z.ltb_spec n base).
  - rewrite Z.div_small, Z.mod_small by lia. by destruct f.
  - rewrite IH by nia. ocbn. rewrite (digits_of_acc f base _ [_]). rewrite fmap_app, rev_app_distr. done.
Qed.

Definition value (base : Z) (l : list Z) : Z := foldl (fun a d => a * base + d) 0 l.

(** They are digits, their value is the number, and there is no leading zero. *)
Lemma digits_of_value base f : forall n, 2 <= base -> 0 <= n < 2 ^ Z.of_nat f ->
  value base (digits_of f base n []) = n /\
  Forall (fun d => 0 <= d < base) (digits_of f base n []) /\
  (n = 0 -> f <> O -> digits_of f base n [] = [0]) /\
  (n <> 0 -> exists d l, digits_of f base n [] = d :: l /\ d <> 0) /\
  (length (digits_of f base n []) <= f)%nat.
Proof.
  induction f as [|f IH]; intros n Hb Hn; cbn [digits_of].
  { cbn in Hn. split_and!; [cbn; lia|constructor|done|lia|done]. }
  rewrite Nat2Z.inj_succ, Z.pow_succ_r in Hn by lia. destruct (Z.ltb_spec n base).
  { split_and!; [cbn; lia|repeat constructor; lia|by intros ->|eauto|cbn; lia]. }
  pose proof (Z.mod_pos_bound n base ltac:(lia)). pose proof (Z.div_mod n base ltac:(lia)).
  destruct (IH (n / base) Hb) as (Hv & Hf & _ & Hh & Hl); [nia|]. rewrite digits_of_acc. split_and!.
  - unfold value in *. rewrite foldl_app, Hv. cbn. lia.
  - apply Forall_app; split; [done|repeat constructor; lia].
  - lia.
  - intros _. destruct Hh as (d & l & -> & Hd); [nia|]. by exists d, (l ++ [n mod base]).
  - rewrite length_app. cbn. lia.
Qed.

(** Two digit lists of one number without leading zeros are the same: [digits_of]
    gives the only one. *)
Lemma value_app base l d : value base (l ++ [d]) = value base l * base + d.
Proof. unfold value. by rewrite foldl_app. Qed.

(** ** The loops put lists of characters *)

Section printer_proofs.
Context `{OutM M} {S : Type}.
Variable put : Z -> S -> M S.
Variable rd : S -> mem.
Variable null : S -> S.

Notation puts := (puts put).

Lemma puts_app l1 : forall l2 s, puts (l1 ++ l2) s = puts l1 s ≫= puts l2.
Proof.
  induction l1 as [|c l1 IH]; intros l2 s; cbn [Printf.puts app]; [by rewrite out_ret|].
  rewrite out_assoc. apply out_ext. intros s'. apply IH.
Qed.

Lemma puts_one c s : puts [c] s = put c s.
Proof. cbn [Printf.puts]. apply out_ret_r. Qed.

(** Putting [l] and then going on with [f]: the normal form every routine is brought to. *)
Definition after {A} (l : list Z) (f : S -> M A) (s : S) : M A := puts l s ≫= f.

Lemma after_nil {A} (f : S -> M A) s : f s = after [] f s.
Proof. unfold after. cbn [Printf.puts]. by rewrite out_ret. Qed.

Lemma after_after {A} l1 l2 (f : S -> M A) s : after l1 (after l2 f) s = after (l1 ++ l2) f s.
Proof. unfold after. by rewrite puts_app, out_assoc. Qed.

Lemma after_ret l s : after l mret s = puts l s.
Proof. unfold after. apply out_ret_r. Qed.

Lemma after_ext {A} l (f g : S -> M A) s : (forall s, f s = g s) -> after l f s = after l g s.
Proof. intros Hfg. unfold after. by apply out_ext. Qed.

Lemma lift_int {A} z (f : Z -> M A) : - 2 ^ 31 <= z < 2 ^ 31 -> (lift (int z) ≫= f) = f z.
Proof. intros Hz. by rewrite int_ok, lift_Done, out_ret by done. Qed.

Lemma post_loop_ok n : forall lim w c s,
  - 2 ^ 31 < lim -> - 2 ^ 31 < w < 2 ^ 31 -> w - lim <= Z.of_nat n ->
  post_loop put n lim w c s = after (replicate (Z.to_nat (w - lim)) c) (fun s => mret (Z.min w lim - 1, s)) s.
Proof.
  induction n as [|n IH]; intros lim w c s Hl Hw Hn; cbn [post_loop]; rewrite lift_int by lia.
  - destruct (Z.ltb_spec lim w); [lia|]. replace (Z.to_nat (w - lim)) with O by lia.
    rewrite <- after_nil. do 2 f_equal. lia.
  - destruct (Z.ltb_spec lim w).
    + replace (Z.to_nat (w - lim)) with (Datatypes.S (Z.to_nat (w - 1 - lim))) by lia. cbn [replicate].
      change (c :: ?l) with ([c] ++ l). rewrite <- after_after. unfold after at 1. rewrite puts_one.
      apply out_ext. intros s'. rewrite IH by lia. apply after_ext. intros s''. do 2 f_equal. lia.
    + replace (Z.to_nat (w - lim)) with O by lia. rewrite <- after_nil. do 2 f_equal. lia.
Qed.

Lemma while_post_ok lim w c s : - 2 ^ 31 < lim -> - 2 ^ 31 < w < 2 ^ 31 ->
  while_post put lim w c s = after (replicate (Z.to_nat (w - lim)) c) (fun s => mret (Z.min w lim - 1, s)) s.
Proof. intros. apply post_loop_ok; lia. Qed.

Lemma pre_loop_ok n : forall w c s, - 2 ^ 31 < w < 2 ^ 31 -> w <= Z.of_nat n ->
  pre_loop put n w c s = after (replicate (Z.to_nat (w - 1)) c) (fun s => mret (Z.min (w - 1) 0, s)) s.
Proof.
  induction n as [|n IH]; intros w c s Hw Hn; cbn [pre_loop]; rewrite lift_int by lia.
  - destruct (Z.ltb_spec 0 (w - 1)); [lia|]. replace (Z.to_nat (w - 1)) with O by lia.
    rewrite <- after_nil. do 2 f_equal. lia.
  - destruct (Z.ltb_spec 0 (w - 1)).
    + replace (Z.to_nat (w - 1)) with (Datatypes.S (Z.to_nat (w - 1 - 1))) by lia. cbn [replicate].
      change (c :: ?l) with ([c] ++ l). rewrite <- after_after. unfold after at 1. rewrite puts_one.
      apply out_ext. intros s'. rewrite IH by lia. apply after_ext. intros s''. do 2 f_equal. lia.
    + replace (Z.to_nat (w - 1)) with O by lia. rewrite <- after_nil. do 2 f_equal. lia.
Qed.

Lemma while_pre_ok w c s : - 2 ^ 31 < w < 2 ^ 31 ->
  while_pre put w c s = after (replicate (Z.to_nat (w - 1)) c) (fun s => mret (Z.min (w - 1) 0, s)) s.
Proof. intros. apply pre_loop_ok; lia. Qed.

(** ** [number] *)

Definition sign_list (num type : Z) : list Z :=
  if flag type SIGN then if num <? 0 then [45] else if flag type PLUS then [43]
                         else if flag type SPACE then [32] else []
  else [].
Definition prefix_list (base type : Z) : list Z :=
  if flag type SPECIAL then
    if base =? 16 then [48; if flag type LARGE then 88 else 120] else if base =? 8 then [48] else []
  else [].

Lemma take_sign_ok num size type :
  - 2 ^ 31 < size < 2 ^ 31 -> - 2 ^ 63 <= num < 2 ^ 63 -> flag type SIGN && (num =? - 2 ^ 63) = false ->
  exists sign, take_sign num size type =
    Done (sign, if flag type SIGN then Z.abs num else num, size - Z.of_nat (length (sign_list num type))) /\
    sign_list num type = if sign =? 0 then [] else [sign].
Proof.
  intros Hs Hn Hm. unfold take_sign, sign_list. destruct (flag type SIGN).
  2:{ exists 0. split; [do 3 f_equal; cbn; lia|done]. }
  destruct (Z.eqb_spec num (- 2 ^ 63)); [done|]. destruct (Z.ltb_spec num 0).
  - rewrite long_ok by lia. ocbn. rewrite int_ok by lia. exists 45. by rewrite (Z.abs_neq num) by lia.
  - rewrite Z.abs_eq by lia. destruct (flag type PLUS); [rewrite int_ok by lia; by exists 43|].
    destruct (flag type SPACE); [rewrite int_ok by lia; by exists 32|].
    exists 0. split; [do 3 f_equal; cbn; lia|done].
Qed.

Lemma take_special_ok base size type : - 2 ^ 31 + 2 <= size < 2 ^ 31 ->
  take_special base size type = Done (size - Z.of_nat (length (prefix_list base type))).
Proof.
  intros Hs. unfold take_special, prefix_list. destruct (flag type SPECIAL); [|f_equal; cbn; lia].
  destruct (base =? 16); [by rewrite int_ok by lia|]. destruct (base =? 8); [by rewrite int_ok by lia|f_equal; cbn; lia].
Qed.

Lemma put_special_ok base type type' s : flag type' SPECIAL = flag type SPECIAL ->
  put_special put base type' (if flag type LARGE then upper_digits else lower_digits) s
  = puts (prefix_list base type) s.
Proof.
  intros E. unfold put_special, prefix_list. rewrite E. destruct (flag type SPECIAL); [|done].
  destruct (Z.eqb_spec base 8) as [->|]; [exact (eq_sym (puts_one 48 s))|]. destruct (base =? 16); [|done].
  assert ((if flag type LARGE then upper_digits else lower_digits) !! 33%nat
    = Some (if flag type LARGE then 88 else 120)) as -> by by destruct (flag type LARGE).
  cbn [Printf.puts deref]. apply out_ext. intros s'. by rewrite lift_Done, out_ret, out_ret_r.
Qed.

(** A routine that puts [l] and goes on with one that puts [l2]. *)
Lemma bind_puts (x : M S) l (f : S -> M S) l2 s : x = puts l s -> (forall s', f s' = puts l2 s') -> (x ≫= f) = puts (l ++ l2) s.
Proof. intros -> Hf. rewrite puts_app. by apply out_ext. Qed.
Lemma bind_after_puts {A} (x : M (A * S)) l r f l2 s :
  x = after l (fun s => mret (r, s)) s -> (forall s', f (r, s') = puts l2 s') -> (x ≫= f) = puts (l ++ l2) s.
Proof.
  intros -> Hf. unfold after. rewrite out_assoc, puts_app. apply out_ext. intros s'. by rewrite out_ret.
Qed.

Lemma number_tail sign base (type type' : Z) i precision size c tmp sl s :
  sl = (if sign =? 0 then [] else [sign]) -> flag type' SPECIAL = flag type SPECIAL ->
  - 2 ^ 31 + 8 <= size < 2 ^ 31 -> - 2 ^ 31 + 8 <= precision < 2 ^ 31 -> 0 <= i ->
  (s ← (if sign =? 0 then mret s else put sign s);
   s ← put_special put base type' (if flag type LARGE then upper_digits else lower_digits) s;
   '(size, s) ← (if flag type' LEFT then mret (size, s) else while_post put 0 size c s);
   '(_, s) ← while_post put i precision 48 s;
   s ← puts (rev tmp) s;
   '(_, s) ← while_post put 0 size 32 s;
   mret s)
  = puts (sl ++ prefix_list base type ++ (if flag type' LEFT then [] else replicate (Z.to_nat size) c)
          ++ zeros (precision - i) ++ rev tmp ++ (if flag type' LEFT then spaces size else [])) s.
Proof.
  intros -> HS Hsz Hp Hi.
  apply bind_puts; [destruct (sign =? 0); [done|by rewrite puts_one]|clear s; intros s].
  apply bind_puts; [by apply put_special_ok|clear s; intros s].
  apply (bind_after_puts _ _ (if flag type' LEFT then size else Z.min size 0 - 1)).
  { destruct (flag type' LEFT); [exact (after_nil (fun s => mret (size, s)) s)|]. rewrite while_post_ok, Z.sub_0_r by lia. done. }
  clear s; intros s.
  apply (bind_after_puts _ _ (Z.min precision i - 1)); [apply while_post_ok; lia|clear s; intros s].
  apply bind_puts; [done|clear s; intros s].
  destruct (flag type' LEFT).
  - rewrite <- (app_nil_r (spaces size)). apply (bind_after_puts _ _ (Z.min size 0 - 1)); [|done]. unfold spaces.
    rewrite while_post_ok, Z.sub_0_r by lia. done.
  - apply (bind_after_puts _ [] (Z.min size 0 - 1 - 1) _ []); [|done].
    rewrite while_post_ok by lia. replace (Z.to_nat _) with O by lia. replace (Z.min _ _) with (Z.min size 0 - 1) by lia. done.
Qed.

Lemma numeral_length upper base n : 2 <= base -> 0 <= n < 2 ^ 64 ->
  1 <= Z.of_nat (length (numeral upper base n)) <= 64.
Proof.
  intros Hb Hn. unfold numeral. rewrite length_fmap.
  destruct (digits_of_value base 64 n Hb) as (_ & _ & Hz & Hnz & Hl); [lia|].
  destruct (decide (n = 0)) as [E|E]; [by rewrite Hz|]. destruct (Hnz E) as (d & l & E' & _).
  rewrite E' in *. cbn [length] in *. lia.
Qed.

(** What [number] puts is the sign, prefix, zeros and digits, filled to the width. *)
Lemma number_ok num base width prec type s :
  2 <= base <= 36 -> -1 <= width < 2 ^ 31 - 48 -> -1 <= prec < 2 ^ 31 - 48 ->
  - 2 ^ 63 <= num < 2 ^ 63 -> flag type SIGN && (num =? - 2 ^ 63) = false ->
  number put null num base width prec type s = puts (format_number num base width prec type) s.
Proof.
  intros Hb Hw Hp Hn Hm. unfold number.
  set (type' := if flag type LEFT then _ else type).
  assert (forall k, 0 < k -> flag type' (2 ^ k) = flag type (2 ^ k)) as HT.
  { intros k Hk. unfold type'. destruct (flag type LEFT); [|done]. rewrite flag_unzero by lia.
    by rewrite (proj2 (Z.eqb_neq k 0)) by lia. }
  assert (flag type' ZEROPAD = flag type ZEROPAD && negb (flag type LEFT)) as HZ.
  { unfold type'. destruct (flag type LEFT); [|by rewrite andb_true_r]. rewrite andb_false_r.
    exact (flag_unzero type 0 (Z.le_refl 0)). }
  pose proof (HT 1 eq_refl) as Hsign. pose proof (HT 2 eq_refl) as Hplus. pose proof (HT 3 eq_refl) as Hspace.
  pose proof (HT 4 eq_refl) as Hleft. pose proof (HT 5 eq_refl) as Hspecial. clear HT.
  change (2 ^ 1) with SIGN in *. change (2 ^ 2) with PLUS in *. change (2 ^ 3) with SPACE in *.
  change (2 ^ 4) with LEFT in *. change (2 ^ 5) with SPECIAL in *.
  destruct (Z.ltb_spec base 2); [lia|]. destruct (Z.ltb_spec 36 base); [lia|]. cbn [orb].
  destruct (take_sign_ok num width type' ltac:(lia) Hn) as (sign & -> & Hsl); [by rewrite Hsign|].
  assert (sign_list num type' = sign_list num type) as Es by (unfold sign_list; by rewrite Hsign, Hplus, Hspace).
  rewrite Es in *. rewrite lift_Done, out_ret.
  assert ((length (sign_list num type) <= 1)%nat) by (rewrite Hsl; destruct (sign =? 0); cbn; lia).
  rewrite take_special_ok by lia. rewrite lift_Done, out_ret.
  assert (prefix_list base type' = prefix_list base type) as Ep.
  { unfold prefix_list. rewrite Hspecial. assert (flag type' LARGE = flag type LARGE) as ->; [|done].
    unfold type'. destruct (flag type LEFT); [exact (flag_unzero type 6 ltac:(lia))|done]. }
  rewrite Ep. assert ((length (prefix_list base type) <= 2)%nat).
  { unfold prefix_list. repeat case_match; cbn; lia. }
  rewrite Hsign. set (mag := if flag type SIGN then Z.abs num else num).
  set (n := if flag type SIGN then Z.abs num else u64 num).
  assert (0 <= n < 2 ^ 64 /\ u64 mag = n /\ (mag =? 0) = (n =? 0)) as (Hr & Emag & E0).
  { pose proof (u64_range num). unfold n, mag. destruct (flag type SIGN).
    - split_and!; [lia|lia|apply u64_small; lia|done].
    - split_and!; [lia|lia|done|]. unfold u64 in *. destruct (Z.eqb_spec num 0) as [->|]; [done|].
      symmetry. apply Z.eqb_neq. intros Em. apply Z.mod_divide in Em as [q Eq]; lia. }
  set (text := numeral (flag type LARGE) base n).
  pose proof (numeral_length (flag type LARGE) base n ltac:(lia) Hr) as Hlen. fold text in Hlen.
  rewrite E0, Emag.
  assert ((if n =? 0 then Done [48] else
    tmp_loop 64 n base (if flag type LARGE then upper_digits else lower_digits)) = Done (rev text)) as ->.
  { destruct (Z.eqb_spec n 0) as [Ez|]; [|apply tmp_loop_ok; lia]. unfold text, numeral.
    destruct (digits_of_value base 64 n ltac:(lia) ltac:(lia)) as (_ & _ & Hz & _). by rewrite Hz. }
  rewrite lift_Done, out_ret, length_rev.
  set (body := zeros (prec - Z.of_nat (length text)) ++ text).
  set (fill := width - Z.of_nat (length ((sign_list num type ++ prefix_list base type) ++ body))).
  set (precision := if prec <? Z.of_nat (length text) then Z.of_nat (length text) else prec).
  assert (precision = Z.max prec (Z.of_nat (length text))) as EP
    by (unfold precision; destruct (Z.ltb_spec prec (Z.of_nat (length text))); lia).
  assert (fill = width - Z.of_nat (length (sign_list num type)) - Z.of_nat (length (prefix_list base type)) - precision) as EF.
  { unfold fill, body, zeros. rewrite !length_app, length_replicate. lia. }
  rewrite <- EF, lift_int by lia.
  assert (zeros (precision - Z.of_nat (length text)) = zeros (prec - Z.of_nat (length text))) as EZ
    by (unfold zeros; f_equal; lia).
  unfold format_number. fold n text body. fold (sign_list num type) (prefix_list base type). fold fill.
  set (zl := flag type ZEROPAD || flag type LEFT).
  assert (flag type' (ZEROPAD + LEFT) = zl) as ->.
  { rewrite flag_either, HZ, Hleft. unfold zl. by destruct (flag type ZEROPAD), (flag type LEFT). }
  etrans.
  { apply (bind_after_puts _ (if zl then [] else spaces fill) (if zl then fill else Z.min fill 0 - 1)).
    - destruct zl; [exact (after_nil (fun s => mret (fill, s)) s)|].
      rewrite while_post_ok, Z.sub_0_r by lia. done.
    - intros s'. cbv beta iota. apply number_tail; [exact Hsl|exact Hspecial|destruct zl; lia|lia|lia]. }
  rewrite rev_involutive, EZ, Hleft, HZ. unfold body, zl.
  assert (replicate (Z.to_nat (Z.min fill 0 - 1)) 32 = []) as En by (by replace (Z.to_nat _) with O by lia).
  destruct (flag type LEFT), (flag type ZEROPAD); cbn [orb andb negb]; rewrite ?En, ?app_nil_r, <- ?app_assoc; done.
Qed.

(** ** Characters and strings *)

Lemma conv_char_ok d a s : -1 <= d_width d < 2 ^ 31 - 48 ->
  conv_char put d a s = puts (pad_text (flag (d_flags d) LEFT) (d_width d) [u8 a]) s.
Proof.
  intros Hw. unfold conv_char, pad_text. change (Z.of_nat (length [u8 a])) with 1.
  destruct (flag (d_flags d) LEFT).
  - rewrite out_ret. apply bind_puts; [by rewrite puts_one|clear s; intros s].
    rewrite <- (app_nil_r (spaces _)). eapply bind_after_puts; [apply while_pre_ok; lia|done].
  - eapply bind_after_puts; [apply while_pre_ok; lia|clear s; intros s; cbv beta iota].
    change [u8 a] with ([u8 a] ++ [] ++ []). apply bind_puts; [by rewrite puts_one|clear s; intros s].
    eapply bind_after_puts; [|done]. rewrite while_pre_ok by lia. by replace (Z.to_nat _) with O by lia.
Qed.

(** ** Room

    The strings a printer reads must survive what it puts.  [Inv k s]: in state [s] there is room for
    [k] more characters, and the strings of the memory [m0] are still there. *)

Class Room (m0 : mem) (Inv : nat -> S -> Prop) : Prop := {
  room_mem : forall k s, Inv k s -> m0 ⊆ rd s;
  room_weaken : forall k k' s, (k <= k')%nat -> Inv k' s -> Inv k s;
  room_put : forall A k c s (f g : S -> M A), Inv (Datatypes.S k) s ->
    (forall s', Inv k s' -> f s' = g s') -> (put c s ≫= f) = (put c s ≫= g);
}.

Section room.
Context (m0 : mem) (Inv : nat -> S -> Prop) `{!Room m0 Inv}.

Lemma room_le k k' s : Inv k' s -> (k <= k')%nat -> Inv k s.
Proof. intros HI Hk. by eapply room_weaken. Qed.

Lemma puts_room {A} l : forall k s (f g : S -> M A), Inv (length l + k)%nat s ->
  (forall s', Inv k s' -> f s' = g s') -> (puts l s ≫= f) = (puts l s ≫= g).
Proof.
  induction l as [|c l IH]; intros k s f g HI Hfg; cbn [Printf.puts]; [rewrite !out_ret; by apply Hfg|].
  rewrite !out_assoc. eapply room_put; [exact HI|]. intros s' HI'. by apply (IH k).
Qed.

Lemma bind_room (x : M S) l (f : S -> M S) l2 s : Inv (length (l ++ l2)) s ->
  x = puts l s -> (forall s', Inv (length l2) s' -> f s' = puts l2 s') -> (x ≫= f) = puts (l ++ l2) s.
Proof. intros HI -> Hf. rewrite puts_app. rewrite length_app in HI. by eapply puts_room. Qed.

Lemma bind_after_room {A} (x : M (A * S)) l r f l2 s : Inv (length (l ++ l2)) s ->
  x = after l (fun s => mret (r, s)) s -> (forall s', Inv (length l2) s' -> f (r, s') = puts l2 s') ->
  (x ≫= f) = puts (l ++ l2) s.
Proof.
  intros HI -> Hf. rewrite length_app in HI. unfold after. rewrite out_assoc, puts_app.
  eapply puts_room; [exact HI|]. intros s' HI'. by rewrite out_ret, Hf.
Qed.

Lemma copy_text_ok l : forall a s, bytes_at m0 a l -> Inv (length l) s ->
  copy_text put rd (length l) a s = puts l s.
Proof.
  induction l as [|c l IH]; intros a s Hb HI; [done|]. cbn [copy_text length Printf.puts] in *.
  destruct Hb as [E Hb]. assert (rd s !! a = Some c) as E' by by eapply lookup_weaken, room_mem.
  unfold load. rewrite E'. cbn [deref]. rewrite lift_Done, out_ret.
  eapply room_put; [exact HI|]. intros s' HI'. by apply IH.
Qed.
End room.
End printer_proofs.

(** ** Strings *)

Lemma cstr_mono m m' a l : m ⊆ m' -> cstr m a l -> cstr m' a l.
Proof.
  intros Hm [Hb Hf]. split; [|done]. rewrite bytes_at_lookup in *. intros i x E.
  eapply lookup_weaken; eauto.
Qed.

Lemma bytes_at_prefix m l1 : forall a l2, bytes_at m a (l1 ++ l2) -> bytes_at m a l1.
Proof. induction l1 as [|x l1 IH]; intros a l2; cbn; [done|]. intros [? ?]. split; eauto. Qed.

Lemma strnlen_loop_ok l : forall fuel s sc count m, cstr m sc l -> (length l < fuel)%nat -> 0 <= count ->
  strnlen_loop fuel s sc count m = Done (sc - s + Z.min (Z.of_nat (length l)) count).
Proof.
  induction l as [|x l IH]; intros [|fuel] s sc count m Hc Hf Hn; cbn [length] in *; try lia; cbn [strnlen_loop].
  - rewrite (cstr_nil _ _ Hc). ocbn. f_equal. lia.
  - apply cstr_cons in Hc as (-> & Hx & Hc). ocbn. destruct (Z.eqb_spec x 0); [lia|].
    destruct (Z.eqb_spec count 0); [f_equal; lia|]. rewrite IH by (done || lia). f_equal. lia.
Qed.

Lemma strnlen_ok m s l count : cstr m s l ->
  strnlen s count m = Done (Z.min (Z.of_nat (length l)) (u64 count)).
Proof.
  intros Hc. unfold strnlen. pose proof (u64_range count).
  rewrite (strnlen_loop_ok l) by (done || apply (cstr_fuel _ _ _ Hc) || lia). f_equal. lia.
Qed.

(** ** Reading a directive *)

(** The string [l] is at [a] in [m], in the part [m0] of it that is not written. *)
Definition reads (m0 m : mem) (a : Z) (l : list Z) : Prop := m0 ⊆ m /\ cstr m0 a l.

Lemma reads_nil m0 m a : reads m0 m a [] -> load m a = Done 0.
Proof. intros [Hm Hc]. by eapply cstr_nil, cstr_mono. Qed.
Lemma reads_cons m0 m a x l : reads m0 m a (x :: l) -> load m a = Done x /\ 0 < x < 256 /\ reads m0 m (a + 1) l.
Proof.
  intros [Hm Hc]. destruct (cstr_cons _ _ _ _ (cstr_mono _ _ _ _ Hm Hc)) as (? & ? & _).
  split_and!; [done|lia|lia|]. split; [done|]. by apply cstr_cons in Hc as (_ & _ & ?).
Qed.
Lemma reads_fuel m0 m a l : reads m0 m a l -> (length l < str_fuel m)%nat.
Proof. intros [Hm Hc]. by eapply cstr_fuel, cstr_mono. Qed.

Lemma read_flags_ok m0 l : forall fuel fmt flags m, reads m0 m (fmt + 1) l -> (length l < fuel)%nat ->
  exists fmt', read_flags fuel fmt flags m = Done (fmt', (ref_flags l flags).2) /\
    reads m0 m fmt' (ref_flags l flags).1.
Proof.
  induction l as [|c l IH]; intros [|fuel] fmt flags m Hc Hf; cbn [length] in Hf; try lia; cbn [read_flags ref_flags].
  - rewrite (reads_nil _ _ _ Hc). ocbn. eauto.
  - destruct (reads_cons _ _ _ _ _ Hc) as (-> & _ & Hc'). ocbn. destruct (flag_of c); [|eauto]. apply IH; [done|lia].
Qed.

Lemma ref_atoi_le l : forall i, 0 <= i -> i <= (ref_atoi l i).2.
Proof.
  induction l as [|c l IH]; intros i Hi; cbn [ref_atoi]; [done|].
  unfold is_digit. destruct (Z.leb_spec 48 c); [|done]. destruct (c <=? 57); [|done].
  etrans; [|apply IH; cbn; lia]. cbn. lia.
Qed.

Lemma skip_atoi_loop_ok m0 l : forall fuel s i m, reads m0 m s l -> (length l < fuel)%nat -> 0 <= i ->
  (ref_atoi l i).2 < 2 ^ 31 - 48 ->
  exists s', skip_atoi_loop fuel s i m = Done ((ref_atoi l i).2, s') /\ reads m0 m s' (ref_atoi l i).1 /\
    s' = s + Z.of_nat (length l) - Z.of_nat (length (ref_atoi l i).1).
Proof.
  induction l as [|c l IH]; intros [|fuel] s i m Hc Hf Hi Hv; cbn [length] in Hf; try lia;
    cbn [skip_atoi_loop ref_atoi] in *.
  - rewrite (reads_nil _ _ _ Hc). ocbn. exists s. split_and!; [done|done|cbn; lia].
  - destruct (reads_cons _ _ _ _ _ Hc) as (-> & _ & Hc'). ocbn. destruct (is_digit c) eqn:Ed; [|exists s; split_and!; [done|done|cbn [fst length]; lia]].
    unfold is_digit in Ed. apply andb_true_iff in Ed as [E1%Z.leb_le E2%Z.leb_le].
    pose proof (ref_atoi_le l (i * 10 + (c - 48)) ltac:(lia)). rewrite int_ok by lia. ocbn.
    replace (i * 10 + c - 48) with (i * 10 + (c - 48)) by lia. destruct (IH fuel (s + 1) (i * 10 + (c - 48)) m Hc') as (s' & ? & ? & ->); [lia|lia|done|].
    eexists. split_and!; [done|done|cbn [length]; lia].
Qed.

Lemma skip_atoi_ok m0 m s l v : reads m0 m s l -> small (ref_atoi l 0).2 = Some v ->
  exists s', skip_atoi s m = Done (v, s') /\ reads m0 m s' (ref_atoi l 0).1 /\ 0 <= v < 2 ^ 31 - 48.
Proof.
  unfold small. destruct (Z.ltb_spec (ref_atoi l 0).2 (2 ^ 31 - 48)); intros Hc [= <-].
  destruct (skip_atoi_loop_ok m0 l (str_fuel m) s 0 m Hc (reads_fuel _ _ _ _ Hc) ltac:(done) ltac:(done)) as (s' & E & Hc' & _).
  exists s'. split_and!; [exact E|done|by apply ref_atoi_le|done].
Qed.

Lemma read_width_ok m0 l flags args m fmt l' flags' w args' : reads m0 m fmt l ->
  ref_width l flags args = Some (l', flags', w, args') ->
  exists fmt', read_width fmt flags args m = Done (fmt', flags', w, args') /\ reads m0 m fmt' l' /\ -1 <= w < 2 ^ 31 - 48.
Proof.
  intros Hc. unfold ref_width, read_width. destruct l as [|c l].
  { intros [= <- <- <- <-]. rewrite (reads_nil _ _ _ Hc). ocbn. exists fmt. done. }
  destruct (reads_cons _ _ _ _ _ Hc) as (-> & _ & Hc'). ocbn. destruct (is_digit c).
  { destruct (small _) as [v|] eqn:Ev; [|done]. intros [= <- <- <- <-].
    destruct (skip_atoi_ok _ _ _ _ _ Hc Ev) as (s' & -> & ? & ?). ocbn. exists s'. split_and!; (done || lia). }
  destruct (c =? 42); [|intros [= <- <- <- <-]; exists fmt; done].
  destruct args as [|a args]; [done|]. unfold small. destruct (Z.ltb_spec (Z.abs (s32 a)) (2 ^ 31 - 48)); [|done].
  cbn [mbind option_bind]. intros [= <- <- <- <-]. cbn [va_arg]. ocbn. cbv zeta. destruct (Z.ltb_spec (s32 a) 0).
  - rewrite int_ok by lia. ocbn. exists (fmt + 1). rewrite Z.abs_neq by lia. split_and!; (done || lia).
  - exists (fmt + 1). rewrite Z.abs_eq by lia. split_and!; (done || lia).
Qed.

Lemma read_precision_ok m0 l args m fmt l' p args' : reads m0 m fmt l ->
  ref_precision l args = Some (l', p, args') ->
  exists fmt', read_precision fmt args m = Done (fmt', p, args') /\ reads m0 m fmt' l' /\ -1 <= p < 2 ^ 31 - 48.
Proof.
  intros Hc. unfold ref_precision, read_precision. destruct l as [|c l].
  { intros [= <- <- <-]. rewrite (reads_nil _ _ _ Hc). ocbn. exists fmt. done. }
  destruct (reads_cons _ _ _ _ _ Hc) as (-> & _ & Hc'). ocbn.
  destruct (c =? 46); [|intros [= <- <- <-]; exists fmt; done]. cbv zeta. destruct l as [|c' l].
  { intros [= <- <- <-]. rewrite (reads_nil _ _ _ Hc'). ocbn. exists (fmt + 1). done. }
  destruct (reads_cons _ _ _ _ _ Hc') as (-> & _ & Hc''). ocbn. destruct (is_digit c').
  { destruct (small _) as [v|] eqn:Ev; [|done]. intros [= <- <- <-].
    destruct (skip_atoi_ok _ _ _ _ _ Hc' Ev) as (s' & -> & ? & ?). ocbn. exists s'.
    destruct (Z.ltb_spec v 0); [lia|]. split_and!; (done || lia). }
  destruct (c' =? 42); [|intros [= <- <- <-]; exists (fmt + 1); done].
  destruct args as [|a args]; [done|]. unfold small. destruct (Z.ltb_spec (Z.max 0 (s32 a)) (2 ^ 31 - 48)); [|done].
  cbn [mbind option_bind]. intros [= <- <- <-]. cbn [va_arg]. ocbn. exists (fmt + 1 + 1).
  destruct (Z.ltb_spec (s32 a) 0).
  - rewrite Z.max_l by lia. split_and!; (done || lia).
  - rewrite Z.max_r by lia. split_and!; (done || lia).
Qed.

Lemma read_qualifier_ok m0 l m fmt : reads m0 m fmt l ->
  exists fmt', read_qualifier fmt m = Done (fmt', (ref_qualifier l).2) /\ reads m0 m fmt' (ref_qualifier l).1.
Proof.
  intros Hc. unfold ref_qualifier, read_qualifier. destruct l as [|c l].
  { rewrite (reads_nil _ _ _ Hc). ocbn. exists fmt. done. }
  destruct (reads_cons _ _ _ _ _ Hc) as (-> & _ & Hc'). ocbn. destruct (_ || _); eauto.
Qed.

(** A directive in memory is read as the reference reads it off the list. *)
Lemma read_directive_ok m0 l args m fmt l' d args' : reads m0 m (fmt + 1) l ->
  ref_directive l args = Some (l', d, args') ->
  exists fmt', read_directive fmt args m = Done (fmt', d, args') /\ reads m0 m fmt' l' /\
    -1 <= d_width d < 2 ^ 31 - 48 /\ -1 <= d_prec d < 2 ^ 31 - 48.
Proof.
  intros Hc. unfold ref_directive, read_directive.
  destruct (read_flags_ok m0 l (str_fuel m) fmt 0 m Hc (reads_fuel _ _ _ _ Hc)) as (f1 & -> & Hc1). ocbn.
  destruct (ref_flags l 0) as [l1 fl]. cbn [fst snd] in *.
  destruct (ref_width l1 fl args) as [[[[l2 fl2] w] args2]|] eqn:E2; [|done]. cbn [mbind option_bind].
  destruct (read_width_ok _ _ _ _ _ _ _ _ _ _ Hc1 E2) as (f2 & -> & Hc2 & Hw). ocbn.
  destruct (ref_precision l2 args2) as [[[l3 p] args3]|] eqn:E3; [|done]. cbn [mbind option_bind].
  destruct (read_precision_ok _ _ _ _ _ _ _ _ Hc2 E3) as (f3 & -> & Hc3 & Hp). ocbn.
  destruct (read_qualifier_ok _ _ _ _ Hc3) as (f4 & -> & Hc4). ocbn.
  destruct (ref_qualifier l3) as [l4 q]. intros [= <- <- <-]. by exists f4.
Qed.

Lemma ref_flags_length l : forall fl, (length (ref_flags l fl).1 <= length l)%nat.
Proof. induction l as [|c l IH]; intros fl; cbn [ref_flags]; [done|]. destruct (flag_of c); [|done]. etrans; [apply IH|cbn; lia]. Qed.
Lemma ref_atoi_length l : forall i, (length (ref_atoi l i).1 <= length l)%nat.
Proof. induction l as [|c l IH]; intros i; cbn [ref_atoi]; [done|]. destruct (is_digit c); [|done]. etrans; [apply IH|cbn; lia]. Qed.

(** It never reads backwards. *)
Lemma ref_directive_length l args l' d args' : ref_directive l args = Some (l', d, args') ->
  (length l' <= length l)%nat.
Proof.
  unfold ref_directive. pose proof (ref_flags_length l 0). destruct (ref_flags l 0) as [l1 fl]. cbn [fst] in *.
  destruct (ref_width l1 fl args) as [[[[l2 fl2] w] args2]|] eqn:E2; [|done]. cbn [mbind option_bind].
  assert ((length l2 <= length l1)%nat).
  { unfold ref_width in E2. destruct l1 as [|c l1]; [by simplify_eq/=|]. pose proof (ref_atoi_length (c :: l1) 0).
    repeat case_match; simplify_option_eq; cbn in *; lia. }
  destruct (ref_precision l2 args2) as [[[l3 p] args3]|] eqn:E3; [|done]. cbn [mbind option_bind].
  assert ((length l3 <= length l2)%nat).
  { unfold ref_precision in E3. destruct l2 as [|c [|c' l2]]; try by (repeat case_match; simplify_eq/=; lia).
    pose proof (ref_atoi_length (c' :: l2) 0). repeat case_match; simplify_option_eq; cbn in *; lia. }
  intros E. assert ((length l' <= length l3)%nat); [|lia].
  unfold ref_qualifier in E. repeat case_match; simplify_eq/=; lia.
Qed.

(** ** Conversions *)

Section conversions.
Context `{OutM M} {S : Type} (put : Z -> S -> M S) (rd : S -> mem) (null : S -> S).
Context (m0 : mem) (Inv : nat -> S -> Prop) `{!Room put rd m0 Inv}.
Context (text_of : Z -> option (list Z)) (numbers : bool).
Hypothesis Htext : forall a l, text_of a = Some l -> cstr m0 a l.

Lemma ref_number_ok num base w p fl l s : 2 <= base <= 36 -> -1 <= w < 2 ^ 31 - 48 -> -1 <= p < 2 ^ 31 - 48 ->
  - 2 ^ 63 <= num < 2 ^ 63 -> ref_number numbers num base w p fl = Some l ->
  number put null num base w p fl s = puts put l s.
Proof.
  intros Hb Hw Hp Hn. unfold ref_number. destruct (negb numbers); [done|]. cbn [orb].
  destruct (_ && _) eqn:Em; [done|]. intros [= <-]. by apply number_ok.
Qed.

Lemma conv_pointer_ok d a l s : -1 <= d_width d < 2 ^ 31 - 48 -> -1 <= d_prec d < 2 ^ 31 - 48 ->
  (if d_width d =? -1 then ref_number numbers (s64 a) 16 16 (d_prec d) (Z.lor (d_flags d) ZEROPAD)
   else ref_number numbers (s64 a) 16 (d_width d) (d_prec d) (d_flags d)) = Some l ->
  conv_pointer put null d a s = puts put l s.
Proof.
  intros Hw Hp. unfold conv_pointer. pose proof (s64_range a).
  destruct (d_width d =? -1); intros E; eapply ref_number_ok; (exact E || lia).
Qed.

Lemma int_conv_base c fl base fl' : int_conv c fl = Some (base, fl') -> 2 <= base <= 36.
Proof. unfold int_conv. intros E. repeat case_match; simplify_eq; lia. Qed.

Lemma va_num_ok q fl a args : exists num, va_num q fl (a :: args) = Done (num, args) /\
  num = (if q =? 108 then s64 a else if flag fl SIGN then s32 a else u32 a) /\ - 2 ^ 63 <= num < 2 ^ 63.
Proof.
  eexists. split_and!; [done|done|..]; pose proof (s64_range a); pose proof (s32_range a); pose proof (u32_range a);
  repeat case_match; lia.
Qed.

Lemma conv_text_ok d a l s : -1 <= d_width d < 2 ^ 31 - 48 -> -1 <= d_prec d < 2 ^ 31 - 48 ->
  ref_text text_of d a = Some l -> Inv (length l) s -> conv_text put rd d (u64 a) s = puts put l s.
Proof.
  intros Hw Hp. unfold ref_text, conv_text. set (b := u64 a).
  set (left := flag (d_flags d) LEFT).
  destruct (if b =? 0 then _ else _) as [t|] eqn:Et; [|done]. cbn [mbind option_bind].
  destruct (Z.ltb_spec (Z.of_nat (length t)) (2 ^ 31)); [|done]. intros [= <-] HI.
  set (txt := if d_prec d <? 0 then t else take (Z.to_nat (d_prec d)) t) in *.
  assert (Z.of_nat (length txt) = Z.min (Z.of_nat (length t)) (u64 (d_prec d))
    /\ take (length txt) t = txt) as [El Etake].
  { unfold txt. destruct (Z.ltb_spec (d_prec d) 0).
    - replace (d_prec d) with (-1) by lia. change (u64 (-1)) with (2 ^ 64 - 1). split; [lia|by rewrite firstn_all].
    - rewrite u64_small, length_take by lia. split; [lia|].
      destruct (Nat.le_ge_cases (Z.to_nat (d_prec d)) (length t)); [by rewrite Nat.min_l|].
      by rewrite Nat.min_r, !take_ge by lia. }
  assert ((if b =? 0 then Done (Z.min 6 (u64 (d_prec d))) else strnlen b (d_prec d) (rd s))
    = Done (Z.of_nat (length txt))) as ->.
  { rewrite El. destruct (b =? 0); [injection Et as <-; done|].
    rewrite (strnlen_ok _ _ t); [done|]. eapply cstr_mono; [by eapply room_mem|auto]. }
  rewrite lift_Done, out_ret. cbv zeta. rewrite s32_small by lia. rewrite Nat2Z.id.
  assert (forall s, Inv (length txt) s ->
    (if b =? 0 then puts put (take (length txt) null_text) s else copy_text put rd (length txt) b s) = puts put txt s) as Hcopy.
  { intros s' HI'. destruct (b =? 0); [injection Et as <-; by rewrite Etake|].
    eapply copy_text_ok; [exact _| |done]. apply Htext in Et as [Hb _]. rewrite <- (take_drop (length txt) t), Etake in Hb.
    rewrite <- app_assoc in Hb. by apply bytes_at_prefix in Hb. }
  unfold pad_text in *. destruct left.
  - rewrite out_ret. eapply bind_room; [done|done|apply Hcopy; rewrite length_app in HI; refine (room_le put rd m0 Inv _ _ _ HI _); lia|].
    intros s' HI'. rewrite <- (app_nil_r (spaces _)). eapply bind_after_puts; [apply while_post_ok; lia|done].
  - eapply bind_after_room; [done|done|apply while_post_ok; lia|]. intros s' HI'. cbv beta iota.
    transitivity (puts put (txt ++ []) s'); [|by rewrite app_nil_r]. eapply bind_room; [done|by rewrite app_nil_r|by apply Hcopy|]. intros s'' _.
    refine (bind_after_puts put _ [] _ _ [] _ _ _); [|done]. rewrite while_post_ok by lia.
    by replace (Z.to_nat _) with O by lia.
Qed.

Lemma conv_other_ok lead c s : c <> 0 ->
  conv_other put lead c s = puts put (if c =? 37 then [37] else [lead; c]) s.
Proof.
  intros Hc. unfold conv_other. destruct (Z.eqb_spec c 0); [done|]. destruct (Z.eqb_spec c 37) as [->|].
  - rewrite out_ret. by rewrite puts_one.
  - cbn [puts]. apply out_ext. intros s'. by rewrite out_ret_r.
Qed.
End conversions.

(** The kinds of conversion, as the three printers tell them apart. *)
Inductive conv_case (text_of : Z -> option (list Z)) (numbers : bool) (d : directive) :
    Z -> list Z -> list Z -> list Z -> Prop :=
  | conv_case_char a args :
      conv_case text_of numbers d 99 (a :: args) (pad_text (flag (d_flags d) LEFT) (d_width d) [u8 a]) args
  | conv_case_text a args l : ref_text text_of d a = Some l ->
      conv_case text_of numbers d 115 (a :: args) l args
  | conv_case_pointer a args l :
      (if d_width d =? -1 then ref_number numbers (s64 a) 16 16 (d_prec d) (Z.lor (d_flags d) ZEROPAD)
       else ref_number numbers (s64 a) 16 (d_width d) (d_prec d) (d_flags d)) = Some l ->
      conv_case text_of numbers d 112 (a :: args) l args
  | conv_case_number c base fl a args l :
      c <> 99 -> c <> 115 -> c <> 112 -> c <> 110 -> int_conv c (d_flags d) = Some (base, fl) ->
      ref_number numbers (if d_qual d =? 108 then s64 a else if flag fl SIGN then s32 a else u32 a)
        base (d_width d) (d_prec d) fl = Some l ->
      conv_case text_of numbers d c (a :: args) l args
  | conv_case_other c args :
      c <> 99 -> c <> 115 -> c <> 112 -> c <> 110 -> int_conv c (d_flags d) = None -> c = 37 \/ numbers = true ->
      conv_case text_of numbers d c args (if c =? 37 then [37] else [37; c]) args.

Lemma ref_conv_case text_of numbers c d args o args' :
  ref_conv text_of numbers c d args = Some (o, args') -> conv_case text_of numbers d c args o args'.
Proof.
  unfold ref_conv. destruct (Z.eqb_spec c 99) as [->|]; [destruct args; [done|]; intros [= <- <-]; constructor|].
  destruct (Z.eqb_spec c 115) as [->|].
  { destruct args as [|a args]; [done|]. destruct (ref_text _ _ _) eqn:?; [|done]. intros [= <- <-]. by constructor. }
  destruct (Z.eqb_spec c 112) as [->|].
  { destruct args as [|a args]; [done|]. destruct (if d_width d =? -1 then _ else _) eqn:?; [|done].
    intros [= <- <-]. by constructor. }
  destruct (Z.eqb_spec c 110); [done|]. destruct (int_conv c (d_flags d)) as [[base fl]|] eqn:?.
  { destruct args as [|a args]; [done|]. destruct (ref_number _ _ _ _ _ _) eqn:?; [|done].
    intros [= <- <-]. by econstructor. }
  destruct (Z.eqb_spec c 37) as [->|].
  { intros [= <- <-]. change [37] with (if 37 =? 37 then [37] else [37; 37]). constructor; auto. }
  destruct numbers; [|done]. intros [= <- <-].
  replace [37; c] with (if c =? 37 then [37] else [37; c]) by by rewrite (proj2 (Z.eqb_neq c 37)).
  constructor; auto.
Qed.

Ltac eqb_false := repeat match goal with
  | Hc : ?c <> ?k |- context [?c =? ?k] => rewrite (proj2 (Z.eqb_neq c k) Hc)
  end.

(** ** The loop over the format

    What a printer's loop does at one place of the format; every loop with these laws
    puts what the reference says. *)

Section loops.
Context `{OutM M} {S : Type} (put : Z -> S -> M S) (rd : S -> mem).
Context (m0 : mem) (Inv : nat -> S -> Prop) `{!Room put rd m0 Inv}.
Context (text_of : Z -> option (list Z)) (numbers : bool).
Context (loop : nat -> Z -> list Z -> S -> M S).

Class PrinterLoop : Prop := {
  loop_end : forall f fmt args s, load (rd s) fmt = Done 0 -> loop (Datatypes.S f) fmt args s = mret s;
  loop_char : forall f fmt args s c, load (rd s) fmt = Done c -> c <> 0 -> c <> 37 ->
    loop (Datatypes.S f) fmt args s = (put c s ≫= loop f (fmt + 1) args);
  loop_stop : forall f fmt args s fmt2 d args2, load (rd s) fmt = Done 37 ->
    read_directive fmt args (rd s) = Done (fmt2, d, args2) -> load (rd s) fmt2 = Done 0 -> numbers = true ->
    loop (Datatypes.S f) fmt args s = (put 37 s ≫= loop f fmt2 args2);
  loop_conv : forall f fmt args s fmt2 d c args2 o args3 rest, load (rd s) fmt = Done 37 ->
    read_directive fmt args (rd s) = Done (fmt2, d, args2) -> load (rd s) fmt2 = Done c -> 0 < c ->
    -1 <= d_width d < 2 ^ 31 - 48 -> -1 <= d_prec d < 2 ^ 31 - 48 ->
    conv_case text_of numbers d c args2 o args3 -> Inv (length o) s -> Inv (length (o ++ rest)) s ->
    (forall s', Inv (length rest) s' -> loop f (fmt2 + 1) args3 s' = puts put rest s') ->
    loop (Datatypes.S f) fmt args s = puts put (o ++ rest) s;
}.

Lemma printer_loop_ok (HL : PrinterLoop) ff : forall l args out fuel fmt s,
  format_from text_of numbers ff l args = Some out -> cstr m0 fmt l -> (length l < fuel)%nat ->
  Inv (length out) s -> loop fuel fmt args s = puts put out s.
Proof.
  induction ff as [|ff IH]; intros l args out fuel fmt s E Hc Hf HI; [done|]. cbn [format_from] in E.
  destruct fuel as [|fuel]; [lia|]. destruct l as [|c l].
  { injection E as <-. apply loop_end, (reads_nil m0). split; [by eapply room_mem|done]. }
  assert (reads m0 (rd s) fmt (c :: l)) as Hr by (split; [by eapply room_mem|done]).
  assert (m0 ⊆ rd s) as Hm by by eapply room_mem. apply reads_cons in Hr as (Hld & Hc0 & _ & Hc1). cbn [length] in Hf.
  destruct (Z.eqb_spec c 37) as [->|]; cbn [negb] in *.
  2:{ destruct (format_from _ _ ff l args) as [out'|] eqn:E'; [|done]. injection E as <-. cbn [puts].
      rewrite (loop_char fuel fmt args s c) by (done || lia).
      eapply room_put; [exact _|exact HI|]. intros s' HI'. eapply IH; [done|done|lia|done]. }
  destruct (ref_directive l args) as [[[l2 d] args2]|] eqn:Ed; [|done]. cbn [mbind option_bind] in E.
  pose proof (ref_directive_length _ _ _ _ _ Ed) as Hlen.
  destruct (read_directive_ok m0 l args (rd s) fmt l2 d args2 (conj Hm Hc1) Ed) as (fmt2 & Hrd & Hr2 & Hw & Hp).
  destruct l2 as [|c2 l3].
  { destruct numbers eqn:Hnum; [|done]. injection E as <-. pose proof (reads_nil _ _ _ Hr2).
    rewrite (loop_stop fuel fmt args s fmt2 d args2) by done. cbn [puts]. eapply room_put; [exact _|exact HI|].
    intros s' HI'. destruct fuel; [lia|]. apply loop_end, (reads_nil m0). split; [by eapply room_mem|apply Hr2]. }
  destruct (reads_cons _ _ _ _ _ Hr2) as (Hld2 & Hc2 & Hr3). cbn [length] in Hlen.
  destruct (ref_conv _ _ c2 d args2) as [[o args3]|] eqn:Eo; [|done]. cbn [mbind option_bind] in E.
  destruct (format_from _ _ ff l3 args3) as [rest|] eqn:Er; [|done]. injection E as <-.
  eapply loop_conv; try eassumption; [lia|by apply ref_conv_case| |].
  - eapply room_le; [exact _|exact HI|rewrite length_app; lia].
  - intros s' HI'. eapply IH; [done|apply Hr3|lia|done].
Qed.
End loops.

(** ** The printers compute the reference *)

(** One conversion after the other, by the lemmas above. *)
Ltac conversions Ho Htext HI HIo Hw Hp Hrest :=
  let Ei := fresh "Ei" in let a := fresh "a" in let args := fresh "args" in let fl := fresh "fl" in
  destruct Ho as [| | |? ? fl a args ? ? ? ? ? Ei|? ? ? ? ? ? Ei]; eqb_false; cbn [Z.eqb Pos.eqb va_arg]; ocbn;
  try (rewrite Ei; cbv iota beta);
  [ eapply bind_room; [exact _|exact HI|by apply conv_char_ok|exact Hrest]
  | eapply bind_room; [exact _|exact HI| |exact Hrest];
    eapply conv_text_ok; [exact _|exact Htext|exact Hw|exact Hp|eassumption|exact HIo]
  | eapply bind_room; [exact _|exact HI|by eapply conv_pointer_ok|exact Hrest]
  | let num := fresh in let Enum := fresh in
    match goal with |- context [va_num ?q fl _] => destruct (va_num_ok q fl a args) as (num & -> & Enum & ?) end; ocbn;
    eapply bind_room; [exact _|exact HI| |exact Hrest];
    eapply ref_number_ok; [by eapply int_conv_base|exact Hw|exact Hp|done|rewrite Enum; eassumption]
  | eapply bind_room; [exact _|exact HI|by apply conv_other_ok|exact Hrest] ].

Section printers.
Context (m0 : mem) (text_of : Z -> option (list Z)).
Hypothesis Htext : forall a l, text_of a = Some l -> cstr m0 a l.

(** Room for [sprintf]: the next [k] bytes hold none of the strings. *)
Definition mem_room (k : nat) (s : Z * mem) : Prop :=
  m0 ⊆ s.2 /\ forall i, 0 <= i < Z.of_nat k -> m0 !! (s.1 + i) = None.

#[export] Instance put_mem_Room : Room put_mem snd m0 mem_room.
Proof.
  constructor.
  - by intros k s [? _].
  - intros k k' s Hk [Hm Hn]. split; [done|]. intros i Hi. apply Hn. lia.
  - intros A k c [str m] f g [Hm Hn] Hfg. unfold put_mem, store, load. cbn [fst snd] in *.
    destruct (m !! str) as [x|]; ocbn; [|done]. apply Hfg. split; cbn [fst snd].
    + apply insert_subseteq_r; [|done]. rewrite <- (Z.add_0_r str). apply Hn. lia.
    + intros i Hi. replace (str + 1 + i) with (str + (1 + i)) by lia. apply Hn. lia.
Qed.

#[local] Instance vsprintf_PrinterLoop buf :
  PrinterLoop put_mem snd mem_room text_of true (fun f fmt args s => vsprintf_loop f buf fmt args s).
Proof.
  constructor.
  - intros f fmt args s E. cbn [vsprintf_loop]. by rewrite E.
  - intros f fmt args s c E ? ?. cbn [vsprintf_loop]. rewrite E. ocbn. by eqb_false.
  - intros f fmt args s fmt2 d args2 E Er E2 _. cbn [vsprintf_loop]. rewrite E. ocbn. cbn [Z.eqb Pos.eqb negb].
    rewrite Er. ocbn. rewrite E2. ocbn. cbn [Z.eqb int_conv orb]. unfold conv_other. cbn [Z.eqb].
    by destruct (put_mem 37 s).
  - intros f fmt args s fmt2 d c args2 o args3 rest E Er E2 Hc Hw Hp Ho HIo HI Hrest. cbn [vsprintf_loop].
    rewrite E. ocbn. cbn [Z.eqb Pos.eqb negb]. rewrite Er. ocbn. rewrite E2. ocbn.
    destruct (Z.eqb_spec c 0); [lia|].
    conversions Ho Htext HI HIo Hw Hp Hrest.
Qed.

(** The console reads from memory that no one writes. *)
Section console_laws.
Context {C : Type} (consputc : Z -> C -> C).

#[local] Instance put_con_Room : Room (put_con consputc) (const m0) m0 (fun _ _ => True).
Proof. constructor; [done|done|]. intros A k c s f g _ Hfg. by apply Hfg. Qed.

#[local] Instance vprintf_PrinterLoop :
  PrinterLoop (put_con consputc) (const m0) (fun _ _ => True) text_of true
    (fun f fmt args k => vprintf_loop consputc f fmt args m0 k).
Proof.
  constructor.
  - intros f fmt args s E. change (const m0 s) with m0 in *. cbn [vprintf_loop]. by rewrite E.
  - intros f fmt args s c E ? ?. change (const m0 s) with m0 in *. cbn [vprintf_loop]. rewrite E. ocbn. by eqb_false.
  - intros f fmt args s fmt2 d args2 E Er E2 _. change (const m0 s) with m0 in *. cbn [vprintf_loop]. rewrite E. ocbn. cbn [Z.eqb Pos.eqb negb].
    rewrite Er. ocbn. rewrite E2. done.
  - intros f fmt args s fmt2 d c args2 o args3 rest E Er E2 Hc Hw Hp Ho HIo HI Hrest. change (const m0 s) with m0 in *. cbn [vprintf_loop].
    rewrite E. ocbn. cbn [Z.eqb Pos.eqb negb]. rewrite Er. ocbn. rewrite E2. ocbn.
    destruct (Z.eqb_spec c 0); [lia|].
    conversions Ho Htext HI HIo Hw Hp Hrest.
Qed.

Lemma puts_con l : forall k, puts (put_con consputc) l k = Done (foldl (fun k c => consputc c k) k l).
Proof. induction l as [|c l IH]; intros k; [done|]. apply IH. Qed.

Lemma vprintf_format l args out fmt k : format text_of true l args = Some out -> cstr m0 fmt l ->
  vprintf consputc fmt args m0 k = Done (foldl (fun k c => consputc c k) k out).
Proof.
  intros E Hc. rewrite <- puts_con. unfold vprintf.
  exact (printer_loop_ok (put_con consputc) (const m0) m0 (fun _ _ => True) text_of true
    (fun f fmt args k => vprintf_loop consputc f fmt args m0 k) vprintf_PrinterLoop _ l args out _ fmt k E Hc (cstr_fuel _ _ _ Hc) I).
Qed.
End console_laws.

(** [snprintf]: the buffer holds none of the strings, and there is room for at least one
    character and the NUL. *)
Definition lim_room (size : Z) (_ : nat) (s : sn_state) : Prop :=
  let '(cnt, str, m) := s in
  m0 ⊆ m /\ 0 <= cnt < size - 1 /\ size < 2 ^ 31 /\ forall i, 0 <= i < size - 1 - cnt -> m0 !! (str + i) = None.

#[export] Instance put_lim_Room size : Room (put_lim size) sn_mem m0 (lim_room size).
Proof.
  constructor.
  - by intros k [[cnt str] m] [? _].
  - by intros k k' [[cnt str] m] _ HI.
  - intros A k c [[cnt str] m] f g (Hm & Hcnt & Hs & Hn) Hfg. unfold put_lim, store, load.
    destruct (m !! str) as [x|]; cbn [deref]; ocbn; [|done]. rewrite lift_Done, !out_ret, !lift_int by lia.
    destruct (Z.leb_spec (size - 1) (cnt + 1)); [done|]. rewrite !out_ret. apply Hfg. cbn. split_and!; try lia.
    + apply insert_subseteq_r; [|done]. rewrite <- (Z.add_0_r str). apply Hn. lia.
    + intros i Hi. replace (str + 1 + i) with (str + (1 + i)) by lia. apply Hn. lia.
Qed.

Lemma lift_run {F A B} (a : A) (f : A -> exiting F B) : (lift (Done a) ≫= f) = f a.
Proof. done. Qed.

Lemma go_run {F A B} (a : A) (f : A -> exiting F B) : ((Done (inr a) : exiting F A) ≫= f) = f a.
Proof. done. Qed.

Ltac lrun E := rewrite E, lift_run.

#[local] Instance vsnprintf_PrinterLoop buf size :
  PrinterLoop (put_lim size) sn_mem (lim_room size) text_of false (fun f fmt args s => vsnprintf_loop f buf size fmt args s).
Proof.
  constructor.
  - intros f fmt args s E. cbn [vsnprintf_loop]. by lrun E.
  - intros f fmt args s c E ? ?. cbn [vsnprintf_loop]. lrun E. by eqb_false.
  - done.
  - intros f fmt args s fmt2 d c args2 o args3 rest E Er E2 Hc Hw Hp Ho HIo HI Hrest. cbn [vsnprintf_loop].
    lrun E. cbn [Z.eqb Pos.eqb negb]. lrun Er. lrun E2. destruct (Z.eqb_spec c 0); [lia|].
    destruct Ho as [|?? l El| |????? l ???? Ei En|? ? ? ? ? ? Ei]; eqb_false; cbn [Z.eqb Pos.eqb va_arg]; rewrite ?lift_run.
    + eapply bind_room; [exact _|exact HI|by apply conv_char_ok|exact Hrest].
    + eapply bind_room; [exact _|exact HI| |exact Hrest].
      eapply conv_text_ok; [exact _|exact Htext|exact Hw|exact Hp|exact El|exact HIo].
    + by destruct (d_width d =? -1).
    + done.
    + rewrite Ei. eapply bind_room; [exact _|exact HI| |exact Hrest].
      rewrite conv_other_ok by done. by destruct (Z.eqb_spec c 37); [|lia].
Qed.

End printers.

(** ** Characters in memory *)

Fixpoint writes (a : Z) (l : list Z) (m : mem) : mem :=
  match l with [] => m | c :: l => writes (a + 1) l (<[a := c]> m) end.

Lemma writes_snoc l c : forall a m, writes a (l ++ [c]) m = <[a + Z.of_nat (length l) := c]> (writes a l m).
Proof.
  induction l as [|x l IH]; intros a m; cbn [writes app length]; [by rewrite Z.add_0_r|].
  rewrite IH. f_equal. lia.
Qed.

Lemma writes_valid l a b n : forall m, valid m b n -> valid (writes a l m) b n.
Proof. revert a. induction l as [|c l IH]; intros a m Hv; [done|]. cbn [writes]. apply IH. by apply valid_insert. Qed.

Lemma puts_mem_ok l : forall str m, valid m str (Z.of_nat (length l)) ->
  puts put_mem l (str, m) = Done (str + Z.of_nat (length l), writes str l m).
Proof.
  induction l as [|c l IH]; intros str m Hv; cbn [puts length writes]; [by rewrite Z.add_0_r|].
  cbn [put_mem]. rewrite store_run by (apply (valid_0 _ _ _ Hv); cbn; lia). ocbn.
  rewrite IH; [do 2 f_equal; lia|]. apply valid_insert.
  apply (valid_shift _ _ _ 1) in Hv; [|lia]. cbn [length] in Hv. by replace (Z.of_nat (length l)) with (Z.of_nat (S (length l)) - 1) by lia.
Qed.

(** Without room for it the characters go outside. *)
Lemma puts_mem_undef l : forall str m k, valid m str (Z.of_nat k) -> (k < length l)%nat ->
  m !! (str + Z.of_nat k) = None -> puts put_mem l (str, m) = Undef.
Proof.
  induction l as [|c l IH]; intros str m k Hv Hk E; cbn [length] in Hk; [lia|]. cbn [puts put_mem]. destruct k as [|k].
  - rewrite Z.add_0_r in E. unfold store, load. by rewrite E.
  - rewrite store_run by (apply (valid_0 _ _ _ Hv); lia). ocbn. apply (IH _ _ k); [|lia|].
    + apply valid_insert. apply (valid_shift _ _ _ 1) in Hv; [|lia]. by replace (Z.of_nat k) with (Z.of_nat (S k) - 1) by lia.
    + rewrite lookup_insert_ne by lia. rewrite <- E. f_equal. lia.
Qed.

Lemma put_lim_ok size c cnt str m : 0 <= cnt < 2 ^ 31 - 1 -> is_Some (m !! str) ->
  put_lim size c (cnt, str, m) =
  if size - 1 <=? cnt + 1 then Done (inl (cnt + 1, str + 1, <[str := c]> m)) else Done (inr (cnt + 1, str + 1, <[str := c]> m)).
Proof. intros Hc Hv. unfold put_lim. rewrite store_run, lift_Done, out_ret, lift_int by (done || lia). done. Qed.

(** [vsnprintf_writechar] stops at one less than the size. *)
Lemma puts_lim_ok size l : forall cnt str m, 0 <= cnt < size - 1 -> size < 2 ^ 31 -> valid m str (size - cnt) ->
  puts (put_lim size) l (cnt, str, m) =
  if cnt + Z.of_nat (length l) <? size - 1
  then Done (inr (cnt + Z.of_nat (length l), str + Z.of_nat (length l), writes str l m))
  else Done (inl (size - 1, str + (size - 1 - cnt), writes str (take (Z.to_nat (size - 1 - cnt)) l) m)).
Proof.
  induction l as [|c l IH]; intros cnt str m Hc Hs Hv; cbn [puts length].
  { rewrite !Z.add_0_r, (proj2 (Z.ltb_lt _ _)) by lia. done. }
  rewrite put_lim_ok by (lia || apply (valid_0 _ _ _ Hv); lia). destruct (Z.leb_spec (size - 1) (cnt + 1)).
  - rewrite (proj2 (Z.ltb_ge _ _)) by lia. replace (size - 1) with (cnt + 1) by lia.
    replace (cnt + 1 - cnt) with 1 by lia. done.
  - cbn [mbind exiting_bind]. rewrite IH; [|lia|lia|].
    2:{ apply valid_insert. apply (valid_shift _ _ _ 1) in Hv; [|lia]. by replace (size - (cnt + 1)) with (size - cnt - 1) by lia. }
    replace (cnt + 1 + Z.of_nat (length l)) with (cnt + Z.of_nat (S (length l))) by lia. destruct (_ <? _).
    + cbn [writes]. by replace (str + 1 + Z.of_nat (length l)) with (str + Z.of_nat (S (length l))) by lia.
    + replace (Z.to_nat (size - 1 - cnt)) with (S (Z.to_nat (size - 1 - (cnt + 1)))) by lia. cbn [firstn writes].
      by replace (str + 1 + (size - 1 - (cnt + 1))) with (str + (size - 1 - cnt)) by lia.
Qed.

Lemma writes_out l : forall a b m, (forall i, 0 <= i < Z.of_nat (length l) -> b <> a + i) -> writes a l m !! b = m !! b.
Proof.
  induction l as [|c l IH]; intros a b m Hb; [done|]. cbn [writes length] in *. rewrite IH.
  - apply lookup_insert_ne. specialize (Hb 0). lia.
  - intros i Hi. specialize (Hb (i + 1)). lia.
Qed.

Lemma writes_at l : forall a m, bytes_at (writes a l m) a l.
Proof.
  induction l as [|c l IH]; intros a m; [done|]. cbn [writes bytes_at]. split; [|apply IH].
  rewrite writes_out by lia. apply lookup_insert_eq.
Qed.

Lemma writes_sub l : forall a m0 m, m0 ⊆ m -> (forall i, 0 <= i < Z.of_nat (length l) -> m0 !! (a + i) = None) ->
  m0 ⊆ writes a l m.
Proof.
  induction l as [|c l IH]; intros a m0 m Hm Hn; [done|]. cbn [writes length] in *. apply IH.
  - apply insert_subseteq_r; [|done]. rewrite <- (Z.add_0_r a). apply Hn. lia.
  - intros i Hi. replace (a + 1 + i) with (a + (1 + i)) by lia. apply Hn. lia.
Qed.

Lemma digits_of_length base f : forall n k, 2 <= base -> (0 < k)%nat -> 0 <= n < base ^ Z.of_nat k ->
  (length (digits_of f base n []) <= k)%nat.
Proof.
  induction f as [|f IH]; intros n k Hb Hk Hn; cbn [digits_of length]; [lia|].
  destruct (Z.ltb_spec n base); [cbn; lia|]. rewrite digits_of_acc, length_app. cbn [length].
  destruct k as [|[|k]]; [lia|cbn in Hn; lia|]. rewrite Nat2Z.inj_succ, Z.pow_succ_r in Hn by lia.
  specialize (IH (n / base) (S k) Hb ltac:(lia)).
  assert (0 <= n / base < base ^ Z.of_nat (S k)); [|specialize (IH ltac:(done)); lia].
  split; [apply Z.div_pos; lia|apply Z.div_lt_upper_bound; lia].
Qed.

(** Reading digits back. *)
Lemma ref_atoi_digits ds : forall i, Forall (fun d => 0 <= d < 10) ds ->
  ref_atoi (digit_char false <$> ds) i = ([], foldl (fun a d => a * 10 + d) i ds).
Proof.
  induction ds as [|d ds IH]; intros i Hd; [done|]. apply Forall_cons_1 in Hd as [Hd Hds].
  cbn [fmap list_fmap ref_atoi foldl]. assert (digit_char false d = 48 + d) as ->.
  { unfold digit_char. by rewrite (proj2 (Z.ltb_lt d 10)) by lia. }
  unfold is_digit. rewrite !(proj2 (Z.leb_le _ _)) by lia. cbn [andb].
  replace (i * 10 + (48 + d - 48)) with (i * 10 + d) by lia. by apply IH.
Qed.

Lemma numeral_chars base n : 2 <= base <= 10 -> 0 <= n < 2 ^ 64 -> Forall (fun x => 0 < x < 256) (numeral false base n).
Proof.
  intros Hb Hn. destruct (digits_of_value base 64 n ltac:(lia) ltac:(lia)) as (_ & Hf & _).
  unfold numeral. apply Forall_fmap. eapply Forall_impl; [exact Hf|]. cbn. intros d Hd. unfold digit_char. destruct (Z.ltb_spec d 10); lia.
Qed.

(** ** Properties *)

Lemma sprintf_format buf fmt args m m0 text_of l out :
  (forall a t, text_of a = Some t -> cstr m0 a t) -> cstr m0 fmt l -> m0 ⊆ m ->
  format text_of true l args = Some out -> Z.of_nat (length out) < 2 ^ 31 ->
  valid m buf (Z.of_nat (length out) + 1) ->
  (forall i, 0 <= i < Z.of_nat (length out) -> m0 !! (buf + i) = None) ->
  sprintf buf fmt args m = Done (Z.of_nat (length out), writes buf (out ++ [0]) m).
Proof.
  intros Ht Hc Hm E Hlen Hv Hn. unfold sprintf, vsprintf.
  rewrite (printer_loop_ok put_mem snd m0 (mem_room m0) text_of true
    (fun f fmt args s => vsprintf_loop f buf fmt args s) (vsprintf_PrinterLoop m0 text_of Ht buf)
    (Room0 := put_mem_Room m0) _ l args out (str_fuel m) fmt (buf, m) E Hc) by
    (done || eapply cstr_fuel, cstr_mono, Hc; done).
  rewrite puts_mem_ok by (intros i Hi; apply Hv; lia). ocbn.
  rewrite store_run by (apply writes_valid with (n := Z.of_nat (length out) + 1); [done|lia]). ocbn.
  rewrite <- writes_snoc. do 2 f_equal. rewrite s32_small; lia.
Qed.

(** C32. Both printers compute the reference: if [format] says that a format with its arguments
    prints [out], then [sprintf] stores exactly [out] and a NUL at [buf], changes nothing else and returns
    the length, and [printf] hands exactly [out] to the console, in order, whatever the console is. *)
Theorem printf_sprintf_format buf fmt args m m0 text_of l out :
  (forall a t, text_of a = Some t -> cstr m0 a t) -> cstr m0 fmt l -> m0 ⊆ m ->
  format text_of true l args = Some out -> Z.of_nat (length out) < 2 ^ 31 ->
  valid m buf (Z.of_nat (length out) + 1) ->
  (forall i, 0 <= i < Z.of_nat (length out) -> m0 !! (buf + i) = None) ->
  sprintf buf fmt args m = Done (Z.of_nat (length out), writes buf (out ++ [0]) m) /\
  forall (C : Type) (consputc : Z -> C -> C) k,
    vprintf consputc fmt args m k = Done (foldl (fun k c => consputc c k) k out).
Proof.
  intros Ht Hc Hm E Hlen Hv Hn. split; [by eapply sprintf_format|].
  intros C consputc k. apply (vprintf_format m text_of) with (l := l); [|done|by eapply cstr_mono].
  intros a t Ea. eapply cstr_mono; [exact Hm|by apply Ht].
Qed.

(** C33. When only text, characters and strings are printed, [snprintf] stores the first [size - 1]
    characters of what the format prints and a NUL, stays inside its buffer, and returns how many it stored. *)
Theorem snprintf_text buf size fmt args m m0 text_of l out :
  (forall a t, text_of a = Some t -> cstr m0 a t) -> cstr m0 fmt l -> m0 ⊆ m ->
  format text_of false l args = Some out -> 2 <= size < 2 ^ 31 -> valid m buf size ->
  (forall i, 0 <= i < size - 1 -> m0 !! (buf + i) = None) ->
  snprintf buf size fmt args m =
    Done (Z.min (Z.of_nat (length out)) (size - 1), writes buf (take (Z.to_nat (size - 1)) out ++ [0]) m).
Proof.
  intros Ht Hc Hm E Hs Hv Hn. unfold snprintf, vsnprintf. destruct (Z.eqb_spec size 0); [lia|].
  rewrite (printer_loop_ok (put_lim size) sn_mem m0 (lim_room m0 size) text_of false
    (fun f fmt args s => vsnprintf_loop f buf size fmt args s) (vsnprintf_PrinterLoop m0 text_of Ht buf size)
    (Room0 := put_lim_Room m0 size) _ l args out (str_fuel m) fmt (0, buf, m) E Hc).
  2: { eapply cstr_fuel, cstr_mono, Hc; done. }
  2: { split_and!; (done || lia || intros i Hi; apply Hn; lia). }
  rewrite puts_lim_ok by (lia || by rewrite Z.sub_0_r). rewrite Z.add_0_l, Z.sub_0_r.
  destruct (Z.ltb_spec (Z.of_nat (length out)) (size - 1)); ocbn.
  - rewrite store_run by (apply (writes_valid out buf buf size m Hv); lia). ocbn.
    rewrite <- writes_snoc, take_ge by lia. rewrite (proj2 (Z.ltb_lt _ _)) by lia. do 2 f_equal. rewrite s32_small; lia.
  - rewrite store_run by (apply (writes_valid _ buf buf size m Hv); lia). ocbn.
    assert (Z.of_nat (length (take (Z.to_nat (size - 1)) out)) = size - 1) as El by (rewrite length_take; lia).
    rewrite writes_snoc, El. rewrite (proj2 (Z.ltb_lt _ _)) by lia. do 2 f_equal. rewrite s32_small; lia.
Qed.

Lemma format_number_d n : 0 <= n < 2 ^ 63 -> format_number n 10 (-1) (-1) SIGN = numeral false 10 n.
Proof.
  intros Hn. unfold format_number. change (flag SIGN SIGN) with true. change (flag SIGN LARGE) with false.
  change (flag SIGN SPECIAL) with false. change (flag SIGN LEFT) with false. change (flag SIGN ZEROPAD) with false.
  change (flag SIGN PLUS) with false. change (flag SIGN SPACE) with false. cbn iota. rewrite Z.abs_eq by lia.
  rewrite (proj2 (Z.ltb_ge n 0)) by lia. cbn [app]. unfold spaces, zeros. by rewrite !Z2Nat.nonpos by lia.
Qed.

Lemma format_d text_of n : 0 <= n < 2 ^ 31 -> format text_of true [37; 100] [n] = Some (numeral false 10 n).
Proof.
  intros Hn. transitivity (l ← ref_number true (s32 n) 10 (-1) (-1) SIGN; Some (l ++ [])).
  { unfold format. cbn. by destruct (ref_number _ _ _ _ _). }
  rewrite s32_small by lia. unfold ref_number. cbn [negb orb]. rewrite (proj2 (Z.eqb_neq n _)) by lia.
  rewrite andb_false_r. cbn [mbind option_bind]. by rewrite app_nil_r, format_number_d by lia.
Qed.

(** What [sprintf] prints with "%d" the kernel's own number reader [skip_atoi] reads back, up to
    the terminating NUL, for every number the reader can take without overflow. *)
Theorem print_read_round_trip buf fmt m m0 n :
  cstr m0 fmt [37; 100] -> m0 ⊆ m -> 0 <= n < 2 ^ 31 - 48 -> valid m buf 11 ->
  (forall i, 0 <= i < 11 -> m0 !! (buf + i) = None) ->
  exists k m', sprintf buf fmt [n] m = Done (k, m') /\ skip_atoi buf m' = Done (n, buf + k) /\ 0 < k <= 10.
Proof.
  intros Hc Hm Hn Hv H0. set (out := numeral false 10 n).
  assert (length out <= 10)%nat as Hl.
  { unfold out, numeral. rewrite length_fmap. apply digits_of_length; lia. }
  pose proof (numeral_length false 10 n ltac:(lia) ltac:(lia)) as Hl1. fold out in Hl1.
  exists (Z.of_nat (length out)), (writes buf (out ++ [0]) m). split_and!; [|..]; [| |lia|lia].
  { eapply (sprintf_format _ _ _ _ m0 (const None)); [done|done|done|apply format_d; lia|fold out; lia|..]; fold out.
    - intros i Hi. apply Hv. lia.
    - intros i Hi. apply H0. lia. }
  destruct (digits_of_value 10 64 n ltac:(lia) ltac:(lia)) as (Hval & Hd & _).
  assert (ref_atoi out 0 = ([], n)) as Ea by (unfold out, numeral; rewrite ref_atoi_digits by done; f_equal; exact Hval).
  assert (cstr (writes buf (out ++ [0]) m) buf out) as Hco by (split; [apply writes_at|apply numeral_chars; lia]).
  destruct (skip_atoi_loop_ok (writes buf (out ++ [0]) m) out (str_fuel (writes buf (out ++ [0]) m)) buf 0
    (writes buf (out ++ [0]) m)) as (s' & E & _ & ->); [by split|by eapply cstr_fuel|done|rewrite Ea; cbn [snd]; lia|].
  unfold skip_atoi. rewrite E, Ea. cbn [fst snd length]. do 2 f_equal. lia.
Qed.

(** The name of a thread, as [exec.c] and [tcb_life.c] print it: the process's name, a dash, a number. *)
Lemma name_part_ok buf fmt name m m0 l t fuel size :
  cstr m0 fmt [37; 115; 45; 37; 100] -> cstr m0 name l -> m0 ⊆ m -> 0 < name < 2 ^ 64 ->
  Z.of_nat (length l) + 2 < size < 2 ^ 31 -> valid m buf size -> (forall i, 0 <= i < size -> m0 !! (buf + i) = None) ->
  exists fmt', cstr m0 fmt' [37; 100] /\
  vsnprintf_loop (S (S fuel)) buf size fmt [name; t] (0, buf, m)
  = vsnprintf_loop fuel buf size fmt' [t]
      (Z.of_nat (length l) + 1, buf + (Z.of_nat (length l) + 1), writes buf (l ++ [45]) m).
Proof.
  intros Hc Hname Hm Hn Hl Hv H0.
  assert (forall i, 0 <= i < Z.of_nat (length l) -> m0 !! (buf + i) = None) as Hl0 by (intros i Hi; apply H0; lia).
  destruct (reads_cons m0 m fmt 37 [115; 45; 37; 100]) as (E1 & _ & Hr1); [by split|].
  set (d := mk_dir 0 (-1) (-1) (-1)).
  destruct (read_directive_ok m0 [115; 45; 37; 100] [name; t] m fmt [115; 45; 37; 100] d [name; t] Hr1 eq_refl)
    as (f2 & Er & Hr2 & Hw & Hp).
  apply reads_cons in Hr2 as (E2 & _ & [_ Hr3]). exists (f2 + 1 + 1).
  set (m1 := writes buf l m). assert (m0 ⊆ m1) as Hm1 by (by apply writes_sub).
  destruct (reads_cons m0 m1 (f2 + 1) 45 [37; 100]) as (E3 & _ & [_ Hr4]); [by split|]. split; [done|].
  cbn [vsnprintf_loop]. unfold sn_mem. cbn [snd]. rewrite E1, lift_run. cbn [Z.eqb Pos.eqb negb].
  rewrite Er, lift_run, E2, lift_run. cbn [Z.eqb Pos.eqb va_arg]. rewrite lift_run.
  rewrite (conv_text_ok (put_lim size) sn_mem m0 (lim_room m0 size) (fun a => if a =? name then Some l else None)) with (l := l).
  2: { intros a t'. destruct (Z.eqb_spec a name) as [->|]; [by intros [= <-]|done]. }
  2, 3: done.
  2: { unfold ref_text. rewrite u64_small by lia. rewrite (proj2 (Z.eqb_neq name 0)), Z.eqb_refl by lia. cbn [mbind option_bind].
       rewrite (proj2 (Z.ltb_lt _ _)) by lia. unfold pad_text, spaces. cbn. rewrite Z2Nat.nonpos by lia. done. }
  2: { split_and!; [done|lia|lia|lia|]. intros i Hi. apply H0. lia. }
  rewrite puts_lim_ok by (lia || by rewrite Z.sub_0_r). rewrite (proj2 (Z.ltb_lt _ _)) by lia. rewrite Z.add_0_l.
  rewrite go_run. fold m1. cbn [snd]. rewrite E3, lift_run. cbn [Z.eqb Pos.eqb negb].
  rewrite put_lim_ok; [|lia|apply (writes_valid l buf buf size m Hv); lia].
  destruct (Z.leb_spec (size - 1) (Z.of_nat (length l) + 1)); [lia|]. rewrite go_run.
  rewrite writes_snoc, Z.add_assoc. done.
Qed.

(** The name of a thread overflows its buffer.  A process name of at most 17 characters and a thread
    number, with their dash 20 characters or more together, are printed into [char name_tmp[20]] with
    [snprintf(name_tmp, 20, "%s-%d", ...)]: [number] neither counts nor stops, and [snprintf] writes
    outside its buffer. *)
Theorem snprintf_overflows buf fmt name m m0 l tidx :
  cstr m0 fmt [37; 115; 45; 37; 100] -> cstr m0 name l -> m0 ⊆ m -> 0 < name < 2 ^ 64 ->
  0 <= tidx < 2 ^ 31 -> (length l <= 17)%nat -> 20 <= Z.of_nat (length l) + 1 + Z.of_nat (length (numeral false 10 tidx)) ->
  valid m buf 20 -> (forall i, 0 <= i < 20 -> m0 !! (buf + i) = None) -> m !! (buf + 20) = None ->
  snprintf buf 20 fmt [name; tidx] m = Undef.
Proof.
  intros Hc Hname Hm Hn Ht Hl Hlen Hv H0 Hend. unfold snprintf, vsnprintf. cbn [Z.eqb].
  pose proof (cstr_fuel m fmt _ (cstr_mono _ _ _ _ Hm Hc)) as Hf. cbn [length] in Hf.
  destruct (str_fuel m) as [|[|[|[|fuel]]]]; [lia..|].
  destruct (name_part_ok buf fmt name m m0 l tidx (S (S fuel)) 20) as (f' & Hc' & ->); try done; [lia|].
  set (m1 := writes buf (l ++ [45]) m). set (p := Z.of_nat (length l) + 1).
  assert (m0 ⊆ m1) as Hm1.
  { apply writes_sub; [done|]. rewrite length_app. cbn [length]. intros i Hi. apply H0. lia. }
  assert (valid m1 buf 20) as Hv1 by by apply writes_valid.
  assert (m1 !! (buf + 20) = None) as Hend1.
  { unfold m1. rewrite writes_out; [done|]. rewrite length_app. cbn [length]. intros i Hi. lia. }
  destruct (reads_cons m0 m1 f' 37 [100]) as (E1 & _ & Hr1); [by split|].
  set (d := mk_dir 0 (-1) (-1) (-1)).
  destruct (read_directive_ok m0 [100] [tidx] m1 f' [100] d [tidx] Hr1 eq_refl) as (f2 & Er & Hr2 & Hw & Hp).
  apply reads_cons in Hr2 as (E2 & _ & [_ Hr3]).
  cbn [vsnprintf_loop]. unfold sn_mem. cbn [snd]. rewrite E1, lift_run. cbn [Z.eqb Pos.eqb negb].
  rewrite Er, lift_run, E2, lift_run. cbn [Z.eqb Pos.eqb int_conv orb d_flags d va_num va_arg].
  change (va_num (d_qual d) (Z.lor 0 SIGN) [tidx]) with (Done (s32 tidx, @nil Z)). rewrite lift_run, s32_small by lia.
  unfold lim_number. change (Z.lor 0 SIGN) with SIGN.
  rewrite number_ok; [|lia..|by rewrite (proj2 (Z.eqb_neq tidx _)) by lia]. cbn [d_width d_prec d].
  rewrite format_number_d by lia. set (out := numeral false 10 tidx) in *.
  pose proof (valid_shift _ _ _ p Hv1 ltac:(lia)) as Hvp.
  destruct (decide (Z.of_nat (length out) = 20 - p)) as [El|].
  - rewrite puts_mem_ok by by rewrite El. rewrite lift_run, El. replace (buf + p + (20 - p)) with (buf + 20) by lia.
    change (mret (?a, ?b, ?c)) with (Done (inr (a, b, c)) : exiting sn_state sn_state). rewrite go_run. cbn [snd].
    rewrite (reads_nil m0) by (split; [|done]; apply writes_sub; [done|]; rewrite El; intros i Hi;
      replace (buf + p + i) with (buf + (p + i)) by lia; apply H0; lia).
    rewrite lift_run. cbn [Z.eqb]. unfold mret, exiting_ret. ocbn. unfold store, load.
    rewrite writes_out by lia. by rewrite Hend1.
  - rewrite (puts_mem_undef _ _ _ (Z.to_nat (20 - p))); [done| | |].
    + by rewrite Z2Nat.id by lia.
    + lia.
    + rewrite Z2Nat.id by lia. by replace (buf + p + (20 - p)) with (buf + 20) by lia.
Qed.

(** ** Witnesses *)

Definition bytes_from (a : Z) (l : list Z) : mem := list_to_map (zip ((fun i => a + Z.of_nat i) <$> seq 0 (length l)) l).

(** "n=%05d|%-4s!" at 100, "%d" at 120, "%s-%d" at 130, "busybox-applets17" at 200; the buffer at 300. *)
Definition demo_strings : mem :=
  bytes_from 100 [110; 61; 37; 48; 53; 100; 124; 37; 45; 52; 115; 33; 0]
  ∪ bytes_from 120 [37; 100; 0] ∪ bytes_from 130 [37; 115; 45; 37; 100; 0] ∪ bytes_from 140 [60; 37; 115; 62; 0]
  ∪ bytes_from 200 [98; 117; 115; 121; 98; 111; 120; 45; 97; 112; 112; 108; 101; 116; 115; 49; 55; 0].
Definition demo_name : list Z := [98; 117; 115; 121; 98; 111; 120; 45; 97; 112; 112; 108; 101; 116; 115; 49; 55].
Definition demo_print : mem := demo_strings ∪ bytes_from 300 (replicate 20 255).
Definition demo_text (a : Z) : option (list Z) := if a =? 200 then Some demo_name else None.

Lemma demo_name_at : cstr demo_strings 200 demo_name.
Proof. split; [cbn [app bytes_at demo_name]; split_and!; reflexivity|repeat constructor]. Qed.

Lemma demo_text_ok a t : demo_text a = Some t -> cstr demo_strings a t.
Proof.
  unfold demo_text. destruct (Z.eqb_spec a 200) as [->|]; [|done]. intros [= <-]. apply demo_name_at.
Qed.

Lemma demo_print_sub : demo_strings ⊆ demo_print.
Proof. apply map_union_subseteq_l. Qed.

Lemma demo_print_valid : valid demo_print 300 20.
Proof.
  assert (forallb (fun i => bool_decide (is_Some (demo_print !! (300 + Z.of_nat i)))) (seq 0 20) = true) as Hall
    by (vm_compute; reflexivity).
  rewrite forallb_forall in Hall. intros i Hi. specialize (Hall (Z.to_nat i)). rewrite bool_decide_eq_true, Z2Nat.id in Hall by lia.
  apply Hall, in_seq. lia.
Qed.

Lemma demo_print_free i : 0 <= i < 20 -> demo_strings !! (300 + i) = None.
Proof.
  intros Hi. assert (forallb (fun i => bool_decide (demo_strings !! (300 + Z.of_nat i) = None)) (seq 0 20) = true) as Hall
    by (vm_compute; reflexivity).
  rewrite forallb_forall in Hall. specialize (Hall (Z.to_nat i)). rewrite bool_decide_eq_true, Z2Nat.id in Hall by lia.
  apply Hall, in_seq. lia.
Qed.

Ltac demo_cstr := split; [cbn [app bytes_at]; split_and!; reflexivity|repeat constructor].

(** "n=%05d|%-4s!" with -42 and NULL: "n=-0042|<NULL>!" *)
Lemma printf_sprintf_format_witness : exists m',
  sprintf 300 100 [-42; 0] demo_print = Done (15, m') /\
  vprintf (fun c k => k ++ [c]) 100 [-42; 0] demo_print []
  = Done [110; 61; 45; 48; 48; 52; 50; 124; 60; 78; 85; 76; 76; 62; 33].
Proof.
  eexists.
  destruct (printf_sprintf_format 300 100 [-42; 0] demo_print demo_strings demo_text
    [110; 61; 37; 48; 53; 100; 124; 37; 45; 52; 115; 33] [110; 61; 45; 48; 48; 52; 50; 124; 60; 78; 85; 76; 76; 62; 33])
    as [E1 E2].
  - exact demo_text_ok.
  - demo_cstr.
  - exact demo_print_sub.
  - vm_compute. reflexivity.
  - cbn. lia.
  - intros i Hi. apply demo_print_valid. cbn in Hi. lia.
  - intros i Hi. apply demo_print_free. cbn in Hi. lia.
  - split; [exact E1|exact (E2 (list Z) (fun c k => k ++ [c]) [])].
Defined.

(** "<%s>" into 10 bytes: nine characters and the NUL. *)
Lemma snprintf_text_witness : exists m', snprintf 300 10 140 [200] demo_print = Done (9, m') /\
  (fun i => m' !! (300 + i)) <$> [0; 1; 8; 9; 10] = [Some 60; Some 98; Some 45; Some 0; Some 255].
Proof.
  eexists. split.
  - apply (snprintf_text 300 10 140 [200] demo_print demo_strings demo_text [60; 37; 115; 62] ([60] ++ demo_name ++ [62])).
    + exact demo_text_ok.
    + demo_cstr.
    + exact demo_print_sub.
    + vm_compute. reflexivity.
    + lia.
    + intros i Hi. apply demo_print_valid. lia.
    + intros i Hi. apply demo_print_free. lia.
  - vm_compute. reflexivity.
Defined.

Lemma print_read_round_trip_witness : exists k m',
  sprintf 300 120 [20231] demo_print = Done (k, m') /\ skip_atoi 300 m' = Done (20231, 300 + k) /\ 0 < k <= 10.
Proof.
  apply (print_read_round_trip 300 120 demo_print demo_strings 20231).
  - demo_cstr.
  - exact demo_print_sub.
  - lia.
  - intros i Hi. apply demo_print_valid. lia.
  - intros i Hi. apply demo_print_free. lia.
Defined.

(** Thread 10 of a process with a name of 17 characters. *)
Lemma snprintf_overflows_witness : snprintf 300 20 130 [200; 10] demo_print = Undef.
Proof.
  apply (snprintf_overflows 300 130 200 demo_print demo_strings demo_name 10).
  - demo_cstr.
  - exact demo_name_at.
  - exact demo_print_sub.
  - lia.
  - lia.
  - cbn. lia.
  - vm_compute. discriminate.
  - exact demo_print_valid.
  - exact demo_print_free.
  - vm_compute. reflexivity.
Defined.
