(* ===== verification/Kalloc.v ===== *)
(** * Kalloc: reference-counted page blocks over the buddy pools

    [src/mm/kalloc.c] and [mm_init] of [src/mm/buddy.c]: one pool per cpu, a
    block is taken from the pool of the calling cpu or stolen from another one,
    carries a reference count (shared by copy-on-write), and goes back to the
    pool of its address when the count reaches zero.  When memory runs low the
    allocator calls back into the file system ([alloc_fail]), which gives up
    cached pages: that is the class [Reclaimer], with its promise
    [ReclaimerOk].

    The theorems are about [krep]: the allocator's state seen as a map from the
    first page of every block in use to its order and reference count. *)

From stdpp Require Import base gmap sets list fin_maps.
From Stdlib Require Import ZArith Lia.
From S2P Require Import Prelude KList Buddy Kstring.
#[local] Open Scope Z_scope.

Definition PAGES_THRESHOLD : Z := 500.

(** [while (tmp > 1)]: halving a 64-bit number takes fewer than 64 rounds. *)
Fixpoint order_loop (fuel : nat) (tmp order : Z) : outcome Z :=
  match fuel with
  | O => NoFuel
  | S f => if 1 <? tmp then order_loop f (Z.shiftr tmp 1) (order + 1) else Done order
  end.

(** [1 << order] is an [int]: shifting by 31 or more has no meaning. *)
Definition size_to_page_order (size : Z) : outcome Z :=
  let page_num := PGROUNDUP size / PGSIZE in
  order ← order_loop 64 page_num 0;
  if order <? 31
  then Done (if Z.shiftl 1 order <? page_num then order + 1 else order)
  else Undef.

Section kalloc.
Context {W C : Type} `{!ListOps fl_head Z W}.
(** The build's number of cpus. *)
Context (NCPU : Z).

Definition PAGES_PER_CPU : Z := NPAGES / NCPU.

(** The allocator's globals: the pools and their metadata, the count of free
    pages and the flag that keeps reclaiming from recursing; [fsst] is the state
    of the file system, which only [alloc_fail] looks at. *)
Record kstate := KState {
  mempools : list phys_mem_pool;
  bst : Buddy.state W;
  pages_cnt : Z;
  recycling : Z;
  fsst : C
}.

Definition with_bst (s : Buddy.state W) (ks : kstate) : kstate :=
  KState (mempools ks) s (pages_cnt ks) (recycling ks) (fsst ks).
Definition add_pages_cnt (d : Z) (ks : kstate) : kstate :=
  KState (mempools ks) (bst ks) (s32 (pages_cnt ks + d)) (recycling ks) (fsst ks).
Definition add_recycling (d : Z) (ks : kstate) : kstate :=
  KState (mempools ks) (bst ks) (pages_cnt ks) (s32 (recycling ks + d)) (fsst ks).

(** [mempools[id]] *)
Definition pool_of (ks : kstate) (id : Z) : outcome phys_mem_pool :=
  if (0 <=? id) then deref (mempools ks !! Z.to_nat id) else Undef.

(** [mm_init]: one pool per cpu, in order. *)
Fixpoint init_pools (n : nat) (i pm : Z) (ks : kstate) : outcome kstate :=
  match n with
  | O => Done ks
  | S n =>
      '(pl, s) ← init_buddy pm i (i * PAGES_PER_CPU)
                   (START_MEM + i * PAGES_PER_CPU * PGSIZE) PAGES_PER_CPU (bst ks);
      init_pools n (i + 1) pm
        (KState (mempools ks ++ [pl]) s (pages_cnt ks) (recycling ks) (fsst ks))
  end.

Definition mm_init (pm : Z) (s : Buddy.state W) (c : C) : outcome kstate :=
  init_pools (Z.to_nat NCPU) 0 pm (KState [] s NPAGES 0 c).

Definition get_pages_cpu (p : Z) : Z := p / PAGES_PER_CPU.

(** [steal_mem]: the other pools in turn. *)
Fixpoint steal_loop (n : nat) (i cur_id order : Z) (ks : kstate)
    : outcome (option Z * kstate) :=
  match n with
  | O => Done (None, ks)
  | S n =>
      if i =? cur_id then steal_loop n (i + 1) cur_id order ks
      else
        pl ← pool_of ks i;
        '(r, s) ← buddy_get_pages pl order (bst ks);
        match r with
        | Some p => Done (Some p, with_bst s ks)
        | None => steal_loop n (i + 1) cur_id order (with_bst s ks)
        end
  end.

Definition steal_mem (cur_id order : Z) (ks : kstate) : outcome (option Z * kstate) :=
  steal_loop (Z.to_nat NCPU) 0 cur_id order ks.

(** What the file system does when pages run low. *)
Class Reclaimer := alloc_fail : kstate -> outcome kstate.
Context `{!Reclaimer}.

(** The part [kmalloc] and [kalloc] share: find a block of the order, claim it,
    account for it, and reclaim when few pages are left. *)
Definition alloc_block (id order : Z) (ks : kstate) : outcome (option Z * kstate) :=
  ASSERT ((0 <=? id) && (id <? NCPU));;
  pl ← pool_of ks id;
  '(r, s) ← buddy_get_pages pl order (bst ks);
  let ks := with_bst s ks in
  '(r, ks) ← match r with Some p => Done (Some p, ks) | None => steal_mem id order ks end;
  match r with
  | None => Done (None, ks)
  | Some p =>
      pg ← page_at (bst ks) p;
      ASSERT (refcnt pg =? 0);;
      s ← upd_page p (set_refcnt 1) (bst ks);
      let ks := with_bst s ks in
      let page_ret := page_to_pa p in
      pg ← page_at (bst ks) p;
      let ks := add_pages_cnt (- Z.shiftl 1 (Buddy.order pg)) ks in
      ks ← (if (recycling ks =? 0) && (pages_cnt ks <? PAGES_THRESHOLD)
            then ks ← alloc_fail (add_recycling 1 ks); Done (add_recycling (-1) ks)
            else Done ks);
      Done (Some page_ret, ks)
  end.

Definition kmalloc (id size : Z) (ks : kstate) : outcome (option Z * kstate) :=
  order ← (if size <=? PGSIZE then Done 0 else size_to_page_order size);
  alloc_block id order ks.

Definition kalloc (id : Z) (ks : kstate) : outcome (option Z * kstate) :=
  alloc_block id 0 ks.

(** [kzalloc] also clears the first [size] bytes of the block. *)
Definition kzalloc (id size : Z) (ks : kstate) (m : mem)
    : outcome (option Z * kstate * mem) :=
  '(r, ks) ← kmalloc id size ks;
  match r with
  | None => Done (None, ks, m)
  | Some pa => m ← memset pa 0 size m; Done (Some pa, ks, m)
  end.

Definition kfree (pa : Z) (ks : kstate) : outcome kstate :=
  p ← pa_to_page pa;
  pg ← page_at (bst ks) p;
  if refcnt pg <? 1 then Panic
  else
    s ← upd_page p (set_refcnt (refcnt pg - 1)) (bst ks);
    let ks := with_bst s ks in
    pg ← page_at (bst ks) p;
    if 1 <=? refcnt pg then Done ks
    else
      ASSERT (refcnt pg =? 0);;
      ASSERT (allocated pg =? 1);;
      let id := get_pages_cpu p in
      ASSERT ((0 <=? id) && (id <? NCPU));;
      let ks := add_pages_cnt (Z.shiftl 1 (Buddy.order pg)) ks in
      pl ← pool_of ks id;
      s ← buddy_free_pages pl p (bst ks);
      Done (with_bst s ks).

Definition share_page (pa : Z) (ks : kstate) : outcome kstate :=
  p ← pa_to_page pa;
  pg ← page_at (bst ks) p;
  ASSERT (1 <=? refcnt pg);;
  s ← upd_page p (set_refcnt (s32 (refcnt pg + 1))) (bst ks);
  Done (with_bst s ks).
End kalloc.
Arguments kstate : clear implicits.

(** ** Orders *)

Lemma order_loop_ok fuel : forall tmp order,
  1 <= tmp < 2 ^ Z.of_nat fuel ->
  order_loop fuel tmp order = Done (order + Z.log2 tmp).
Proof.
  induction fuel as [|f IH]; intros tmp order Ht; [cbn in Ht; lia|]. cbn [order_loop].
  destruct (Z.ltb_spec 1 tmp) as [Hlt|Hge].
  - rewrite Z.shiftr_div_pow2 by lia. change (2 ^ 1) with 2.
    replace (2 ^ Z.of_nat (S f)) with (2 * 2 ^ Z.of_nat f) in Ht
      by (rewrite Nat2Z.inj_succ, Z.pow_succ_r by lia; lia).
    rewrite IH.
    + pose proof (Z.log2_shiftr tmp 1) as Hl. rewrite Z.shiftr_div_pow2 in Hl by lia.
      change (2 ^ 1) with 2 in Hl. rewrite Hl by lia.
      assert (1 <= Z.log2 tmp) by (apply Z.log2_le_pow2; lia). f_equal. lia.
    + split; [apply Z.div_le_lower_bound; lia|apply Z.div_lt_upper_bound; lia].
  - replace tmp with 1 by lia. cbn. f_equal. lia.
Qed.

(** [o] is the least order whose blocks hold [size] bytes. *)
Definition least_order (size o : Z) : Prop :=
  0 <= o /\ size <= PGSIZE * 2 ^ o /\ forall k, 0 <= k < o -> PGSIZE * 2 ^ k < size.

Lemma size_to_page_order_ok size : 0 < size <= 2 ^ 40 ->
  exists o, size_to_page_order size = Done o /\ least_order size o.
Proof.
  intros Hs. unfold size_to_page_order. rewrite PGROUNDUP_alt, u64_small by lia.
  unfold least_order, PGSIZE. set (n := (size + 4095 - (size + 4095) mod 4096) / 4096).
  assert (4096 * n = size + 4095 - (size + 4095) mod 4096) as Hn4.
  { unfold n. pose proof (Z_div_mod_eq_full (size + 4095) 4096).
    replace (size + 4095 - (size + 4095) mod 4096) with ((size + 4095) / 4096 * 4096) by lia.
    rewrite Z.div_mul by lia. lia. }
  pose proof (Z.mod_pos_bound (size + 4095) 4096 ltac:(lia)).
  assert (1 <= n < 2 ^ 30) as Hn by lia.
  rewrite order_loop_ok by (cbn; lia). ocbn. rewrite Z.add_0_l.
  pose proof (Z.log2_spec n ltac:(lia)) as [Hlo Hhi].
  assert (0 <= Z.log2 n < 30) as Hlog.
  { split; [apply Z.log2_nonneg|apply Z.log2_lt_pow2; lia]. }
  rewrite (proj2 (Z.ltb_lt _ _)) by lia. rewrite Z.shiftl_mul_pow2, Z.mul_1_l by lia.
  assert (forall k, 0 <= k -> 2 ^ k < n -> 4096 * 2 ^ k < size) as Hlow by (intros; lia).
  assert (forall k, n <= 2 ^ k -> size <= 4096 * 2 ^ k) as Hup by (intros; lia).
  eexists; split; [done|]. destruct (Z.ltb_spec (2 ^ Z.log2 n) n).
  - split_and!; [lia|apply Hup; rewrite Z.add_1_r; lia|]. intros k Hk. apply Hlow; [lia|].
    eapply Z.le_lt_trans; [|done]. apply Z.pow_le_mono_r; lia.
  - split_and!; [lia|apply Hup; lia|]. intros k Hk. apply Hlow; [lia|].
    eapply Z.lt_le_trans; [|exact Hlo]. apply Z.pow_lt_mono_r; lia.
Qed.

(** The order [kmalloc] asks for. *)
Lemma order_of_size size : 0 < size <= PGSIZE * 2 ^ BUDDY_MAX_ORDER ->
  exists o, (if size <=? PGSIZE then Done 0 else size_to_page_order size) = Done o /\
    least_order size o /\ BUDDY_ORDERS o.
Proof.
  intros Hs. assert (exists o, (if size <=? PGSIZE then Done 0 else size_to_page_order size) = Done o /\
    least_order size o) as (o & -> & Hl).
  { destruct (Z.leb_spec size PGSIZE) as [H|H].
    - exists 0. split; [done|]. unfold least_order. change (2 ^ 0) with 1. split_and!; [lia|lia|lia].
    - apply size_to_page_order_ok. unfold PGSIZE, BUDDY_MAX_ORDER in *. lia. }
  exists o. split_and!; [done|done|]. destruct Hl as (Ho & _ & Hmin). split; [done|].
  destruct (Z.le_gt_cases o BUDDY_MAX_ORDER) as [|Hgt]; [done|].
  specialize (Hmin BUDDY_MAX_ORDER). unfold BUDDY_MAX_ORDER in *. lia.
Qed.

(** ** The allocator as a map of blocks in use *)

(** Pages of all blocks in use, counted by their orders. *)
Definition blocks_total (R : gmap Z (Z * Z)) : Z :=
  map_fold (fun _ x acc => 2 ^ fst x + acc) 0 R.

Lemma blocks_total_insert R p o n :
  R !! p = None -> blocks_total (<[p := (o, n)]> R) = 2 ^ o + blocks_total R.
Proof. intros E. unfold blocks_total. rewrite map_fold_insert_L; [done| |done]. intros; lia. Qed.

Lemma blocks_total_delete R p o n :
  R !! p = Some (o, n) -> blocks_total R = 2 ^ o + blocks_total (delete p R).
Proof.
  intros E. rewrite <- (insert_delete_id R p (o, n)) at 1 by done.
  apply blocks_total_insert, lookup_delete_eq.
Qed.

Lemma blocks_total_ref R p o n n' :
  R !! p = Some (o, n) -> blocks_total (<[p := (o, n')]> R) = blocks_total R.
Proof.
  intros E. rewrite <- insert_delete_eq, blocks_total_insert by apply lookup_delete_eq.
  by rewrite (blocks_total_delete R p o n).
Qed.

Lemma s32_add_s32 a b : s32 (s32 a + b) = s32 (a + b).
Proof.
  assert (exists k, s32 a = a + k * 2 ^ 32) as [k ->].
  { unfold s32. pose proof (Z_div_mod_eq_full a (2 ^ 32)).
    destruct (a mod 2 ^ 32 <? 2 ^ 31);
      [exists (- (a / 2 ^ 32))|exists (- (a / 2 ^ 32) - 1)]; lia. }
  unfold s32. replace (a + k * 2 ^ 32 + b) with (a + b + k * 2 ^ 32) by lia.
  by rewrite Z.mod_add.
Qed.

Lemma page_to_pa_to_page p : 0 <= p < NPAGES -> pa_to_page (page_to_pa p) = Done p.
Proof.
  intros Hp. unfold pa_to_page, page_to_pa.
  assert (NPAGES = 251904) as EN by reflexivity. unfold START_MEM, PGSIZE.
  rewrite (u64_small (p * _ + _)) by lia.
  replace (p * 4096 + 2189426688 - 2189426688) with (p * 4096) by lia.
  rewrite u64_small by lia. rewrite Z.mod_mul, Z.eqb_refl by lia. ocbn. by rewrite Z.div_mul.
Qed.

Section krep.
Context {W C : Type} `{!ListOps fl_head Z W, !ListHeap fl_head Z W}.
Context (NCPU : Z) (HN : 0 < NCPU <= NPAGES).
Context (HS : gset fl_head) (XS : gset Z).
Implicit Types (ks : kstate W C) (L : gmap fl_head (list Z)) (R : gmap Z (Z * Z)).
Local Abbreviation PPC := (PAGES_PER_CPU NCPU).

(** Pool [i], as [mm_init] sets it up. *)
Definition mempool (i : Z) : phys_mem_pool :=
  Pool i (START_MEM + i * PPC * PGSIZE) (PGSIZE * PPC) (i * PPC).

(** The orders of the blocks that lie in pool [i]. *)
Definition blocks_in (i : Z) R : gmap Z Z :=
  fst <$> filter (fun x => in_pool (mempool i) (fst x)) R.

Definition cpu_range (i : Z) : Prop := 0 <= i < NCPU.

Record krep ks L R : Prop := {
  kr_pools : mempools ks = mempool <$> seqZ 0 NCPU;
  kr_rep i : cpu_range i -> pool_rep HS XS (mempool i) (bst ks) L (blocks_in i R);
  kr_ref p : 0 <= p < NCPU * PPC ->
    refcnt <$> pages (bst ks) !! p = Some (default 0 (snd <$> R !! p));
  kr_range p o n : R !! p = Some (o, n) -> 0 <= p < NCPU * PPC /\ 1 <= n < 2 ^ 31;
  kr_cnt : pages_cnt ks = s32 (NPAGES - blocks_total R)
}.

Lemma ppc_pos : 0 < PPC /\ NCPU * PPC <= NPAGES.
Proof.
  unfold PAGES_PER_CPU. split; [apply Z.div_str_pos; lia|]. apply Z.mul_div_le. lia.
Qed.

Lemma npg_mempool i : npg (mempool i) = PPC.
Proof. unfold npg, mempool; cbn [mem_size]. by rewrite Z.mul_comm, Z.div_mul. Qed.

Lemma in_mempool i p : in_pool (mempool i) p <-> i * PPC <= p < i * PPC + PPC.
Proof. unfold in_pool. by rewrite npg_mempool. Qed.

Lemma in_mempool_div i p : in_pool (mempool i) p <-> p / PPC = i.
Proof.
  rewrite in_mempool. pose proof ppc_pos as [Hp _]. split.
  - intros H. symmetry. apply (Z.div_unique p PPC i (p - i * PPC)); lia.
  - intros <-. pose proof (Z_div_mod_eq_full p PPC). pose proof (Z.mod_pos_bound p PPC Hp). lia.
Qed.

Lemma cpu_of_page p : 0 <= p < NCPU * PPC -> cpu_range (p / PPC).
Proof.
  intros Hp. pose proof ppc_pos as [? _]. split; [apply Z.div_pos; lia|].
  apply Z.div_lt_upper_bound; lia.
Qed.

Lemma pool_page_range i p : cpu_range i -> in_pool (mempool i) p -> 0 <= p < NCPU * PPC.
Proof. intros Hi Hp%in_mempool. pose proof ppc_pos. unfold cpu_range in Hi. nia. Qed.

#[local] Instance in_pool_dec pl p : Decision (in_pool pl p).
Proof. unfold in_pool. apply _. Defined.

Lemma pool_of_run ks L R i : krep ks L R -> cpu_range i -> pool_of ks i = Done (mempool i).
Proof.
  intros K [Hi Hi']. unfold pool_of. rewrite (proj2 (Z.leb_le 0 i)) by done.
  rewrite (kr_pools _ _ _ K), list_lookup_fmap, lookup_seqZ_lt by lia.
  cbn. by rewrite Z2Nat.id by lia.
Qed.

Lemma cpu_check i : cpu_range i -> (0 <=? i) && (i <? NCPU) = true.
Proof. unfold cpu_range. intros. apply andb_true_iff. rewrite Z.leb_le, Z.ltb_lt. lia. Qed.

(** *** Blocks of one pool and of the whole map *)

Lemma blocks_in_lookup i R p o :
  blocks_in i R !! p = Some o <-> in_pool (mempool i) p /\ exists n, R !! p = Some (o, n).
Proof.
  unfold blocks_in. rewrite lookup_fmap_Some. setoid_rewrite map_lookup_filter_Some. split.
  - intros ([o' n] & <- & ? & ?). eauto.
  - intros (? & n & ?). exists (o, n). done.
Qed.

Lemma blocks_in_insert i R p o n : in_pool (mempool i) p ->
  blocks_in i (<[p := (o, n)]> R) = <[p := o]> (blocks_in i R).
Proof.
  intros Hp. apply map_eq. intros q. apply option_eq. intros r. rewrite blocks_in_lookup.
  destruct (decide (p = q)) as [->|].
  - rewrite !lookup_insert_eq. naive_solver.
  - rewrite !lookup_insert_ne by done. by rewrite blocks_in_lookup.
Qed.

Lemma blocks_in_insert_ne i R p x : ~ in_pool (mempool i) p ->
  blocks_in i (<[p := x]> R) = blocks_in i R.
Proof.
  intros Hp. apply map_eq. intros q. apply option_eq. intros r. rewrite !blocks_in_lookup.
  destruct (decide (p = q)) as [->|]; [tauto|]. by rewrite lookup_insert_ne.
Qed.

Lemma blocks_in_ref i R p o n n' : R !! p = Some (o, n) ->
  blocks_in i (<[p := (o, n')]> R) = blocks_in i R.
Proof.
  intros E. apply map_eq. intros q. apply option_eq. intros r. rewrite !blocks_in_lookup.
  destruct (decide (p = q)) as [<-|]; [|by rewrite lookup_insert_ne].
  rewrite lookup_insert_eq, E. naive_solver.
Qed.

Lemma blocks_in_delete i R p :
  blocks_in i (delete p R) = delete p (blocks_in i R).
Proof.
  apply map_eq. intros q. apply option_eq. intros r. rewrite blocks_in_lookup.
  destruct (decide (p = q)) as [->|].
  - rewrite !lookup_delete_eq. naive_solver.
  - rewrite !lookup_delete_ne by done. by rewrite blocks_in_lookup.
Qed.

(** *** Reference counts *)

Lemma krep_pages ks L R : krep ks L R -> forall p, 0 <= p < NCPU * PPC ->
  exists pg, pages (bst ks) !! p = Some pg /\ refcnt pg = default 0 (snd <$> R !! p).
Proof.
  intros K p Hp. pose proof (kr_ref _ _ _ K p Hp) as E.
  destruct (pages (bst ks) !! p) as [pg|]; [|done]. exists pg. by injection E.
Qed.

Lemma set_refcnt_meta p n (s : Buddy.state W) pg :
  pages s !! p = Some pg -> forall q,
  block_meta <$> <[p := set_refcnt n pg]> (pages s) !! q = block_meta <$> pages s !! q.
Proof.
  intros E q. destruct (decide (p = q)) as [<-|]; [by rewrite lookup_insert_eq, E|].
  by rewrite lookup_insert_ne.
Qed.

(** Changing the reference count of a block in use. *)
Lemma krep_set_ref ks L R p o n n' pg :
  krep ks L R -> R !! p = Some (o, n) -> 1 <= n' < 2 ^ 31 -> pages (bst ks) !! p = Some pg ->
  krep (with_bst (State (<[p := set_refcnt n' pg]> (pages (bst ks))) (nums (bst ks)) (lists (bst ks))) ks)
    L (<[p := (o, n')]> R).
Proof.
  intros K E Hn' Epg. destruct K. constructor; cbn [mempools bst pages_cnt with_bst pages]; auto.
  - intros i Hi. rewrite (blocks_in_ref _ _ _ _ n) by done.
    eapply pool_rep_meta; [by apply kr_rep0|done|done|]. by apply set_refcnt_meta.
  - intros q Hq. destruct (decide (p = q)) as [<-|].
    + by rewrite !lookup_insert_eq.
    + rewrite !lookup_insert_ne by done. by apply kr_ref0.
  - intros q r m. destruct (decide (p = q)) as [<-|].
    + rewrite lookup_insert_eq. intros [= <- <-]. split; [by apply (kr_range0 p o n)|done].
    + rewrite lookup_insert_ne by done. apply kr_range0.
  - rewrite kr_cnt0. by rewrite (blocks_total_ref _ _ _ n).
Qed.

(** *** Taking a block *)

(** Pool [j] has handed out the block of order [o] at page [p]. *)
Definition taken ks L R j p o s' L' : Prop :=
  cpu_range j /\ block_of (mempool j) p o /\ BUDDY_ORDERS o /\
  (forall q r, blocks_in j R !! q = Some r -> ~ meets q r p o) /\
  pool_rep HS XS (mempool j) s' L' (<[p := o]> (blocks_in j R)) /\
  frame (mempool j) (bst ks) s' L L'.

(** No run of [2^o] pages of pool [j] is unused. *)
Definition no_room R j o : Prop :=
  forall p, block_of (mempool j) p o -> exists q r, blocks_in j R !! q = Some r /\ meets q r p o.

Lemma with_bst_same ks : with_bst (bst ks) ks = ks.
Proof. by destruct ks. Qed.

Lemma pool_get ks L R j o : krep ks L R -> cpu_range j -> BUDDY_ORDERS o ->
  (buddy_get_pages (mempool j) o (bst ks) = Done (None, bst ks) /\ no_room R j o) \/
  (exists p s' L', buddy_get_pages (mempool j) o (bst ks) = Done (Some p, s') /\
     taken ks L R j p o s' L').
Proof.
  intros K Hj Ho.
  destruct (buddy_get_ok _ _ _ _ _ _ o (kr_rep _ _ _ K j Hj) Ho)
    as [[E Hno]|(p & s' & L' & E & Hb & Hm & R' & F)]; [by left|].
  right. exists p, s', L'. split; [done|]. done.
Qed.

Lemma steal_loop_ok ks L R cur o n : forall i,
  krep ks L R -> BUDDY_ORDERS o -> 0 <= i -> i + Z.of_nat n = NCPU ->
  (steal_loop n i cur o ks = Done (None, ks) /\
   forall j, i <= j < NCPU -> j <> cur -> no_room R j o) \/
  (exists j p s' L', steal_loop n i cur o ks = Done (Some p, with_bst s' ks) /\
     taken ks L R j p o s' L').
Proof.
  induction n as [|n IH]; intros i K Ho Hi Hn; cbn [steal_loop].
  - left. split; [done|]. intros; lia.
  - assert (forall r, r = steal_loop n (i + 1) cur o ks ->
      (i = cur \/ no_room R i o) ->
      (r = Done (None, ks) /\ forall j, i <= j < NCPU -> j <> cur -> no_room R j o) \/
      (exists j p s' L', r = Done (Some p, with_bst s' ks) /\ taken ks L R j p o s' L')) as Hnext.
    { intros r -> Hi0. destruct (IH (i + 1) K Ho ltac:(lia) ltac:(lia)) as [[E Hno]|Ht]; [left|by right].
      split; [done|]. intros j Hj Hc. destruct (decide (j = i)) as [->|]; [by destruct Hi0|].
      apply Hno; [lia|done]. }
    destruct (Z.eqb_spec i cur) as [->|Hne]; [apply Hnext; [done|by left]|].
    assert (cpu_range i) as Hr by (unfold cpu_range; lia).
    rewrite (pool_of_run _ _ _ _ K Hr). ocbn.
    destruct (pool_get _ _ _ i o K Hr Ho) as [[E Hno]|(p & s' & L' & E & Ht)]; rewrite E; ocbn.
    + rewrite with_bst_same. apply Hnext; [done|by right].
    + right. exists i, p, s', L'. done.
Qed.

Lemma block_in_pool j p o q : block_of (mempool j) p o -> p <= q < p + 2 ^ o ->
  in_pool (mempool j) q.
Proof. intros (? & ? & _) Hq. unfold in_pool. lia. Qed.

Lemma taken_fresh ks L R j p o s' L' : krep ks L R -> taken ks L R j p o s' L' ->
  in_pool (mempool j) p /\ R !! p = None.
Proof.
  intros K (Hj & Hb & [Ho _] & Hm & _). pose proof (pow2_pos o Ho).
  assert (in_pool (mempool j) p) as Hp by (eapply block_in_pool; [done|lia]).
  split; [done|]. destruct (R !! p) as [[r n]|] eqn:E; [|done]. exfalso.
  assert (blocks_in j R !! p = Some r) as Er by (rewrite blocks_in_lookup; eauto).
  destruct (pool_rep_head _ _ _ _ _ _ _ _ (kr_rep _ _ _ K j Hj) Er) as ([Hr _] & _).
  pose proof (pow2_pos r Hr). apply (Hm p r Er). unfold meets. lia.
Qed.

Lemma krep_block ks L R q r n : krep ks L R -> R !! q = Some (r, n) ->
  exists j, cpu_range j /\ blocks_in j R !! q = Some r /\ BUDDY_ORDERS r /\
    block_of (mempool j) q r.
Proof.
  intros K E. destruct (kr_range _ _ _ K _ _ _ E) as [Hq _].
  exists (q / PPC). pose proof (cpu_of_page q Hq) as Hj.
  assert (blocks_in (q / PPC) R !! q = Some r) as Eb.
  { rewrite blocks_in_lookup. split; [by apply in_mempool_div|eauto]. }
  destruct (pool_rep_head _ _ _ _ _ _ _ _ (kr_rep _ _ _ K _ Hj) Eb) as (? & ? & _). done.
Qed.

(** The block taken shares no page with a block in use, in any pool. *)
Lemma taken_disjoint ks L R j p o s' L' : krep ks L R -> taken ks L R j p o s' L' ->
  forall q r n, R !! q = Some (r, n) -> ~ meets q r p o.
Proof.
  intros K (Hj & Hb & [Ho _] & Hm & _) q r n E Hmeet.
  destruct (krep_block _ _ _ _ _ _ K E) as (i & Hi & Ei & [Hr _] & Hbi).
  pose proof (pow2_pos o Ho). pose proof (pow2_pos r Hr). unfold meets in Hmeet.
  assert (in_pool (mempool i) (Z.max p q)) as H1 by (eapply block_in_pool; [exact Hbi|lia]).
  assert (in_pool (mempool j) (Z.max p q)) as H2 by (eapply block_in_pool; [exact Hb|lia]).
  apply in_mempool_div in H1, H2. assert (i = j) as -> by congruence. by apply (Hm q r).
Qed.

Lemma krep_take ks L R j p o s' L' pg :
  krep ks L R -> taken ks L R j p o s' L' -> pages s' !! p = Some pg ->
  krep (add_pages_cnt (- Z.shiftl 1 o)
         (with_bst (State (<[p := set_refcnt 1 pg]> (pages s')) (nums s') (lists s')) ks))
    L' (<[p := (o, 1)]> R).
Proof.
  intros K T Epg. pose proof (taken_fresh _ _ _ _ _ _ _ _ K T) as [Hin Hnone].
  destruct T as (Hj & Hb & Ho & Hm & R' & F). pose proof K as [].
  constructor; cbn [mempools bst pages_cnt with_bst add_pages_cnt pages]; auto.
  - intros i Hi. eapply pool_rep_meta with (s := s'); [|done|done|by apply set_refcnt_meta].
    destruct (decide (i = j)) as [->|Hne]; [by rewrite blocks_in_insert|].
    assert (forall q, in_pool (mempool j) q -> ~ in_pool (mempool i) q) as Hdis.
    { intros q Hq%in_mempool_div Hq'%in_mempool_div. congruence. }
    rewrite blocks_in_insert_ne by auto. eapply pool_rep_other; [by apply kr_rep0|exact (frame_others _ _ _ _ _ F)| |by cbn|done].
    by eapply pool_rep_lists.
  - intros q Hq. destruct (decide (p = q)) as [<-|].
    + by rewrite !lookup_insert_eq.
    + rewrite !lookup_insert_ne by done. rewrite (fr_ref _ _ _ _ _ F). by apply kr_ref0.
  - intros q r m. destruct (decide (p = q)) as [<-|].
    + rewrite lookup_insert_eq. intros [= <- <-]. split; [|lia]. by eapply pool_page_range.
    + rewrite lookup_insert_ne by done. apply kr_range0.
  - rewrite kr_cnt0, s32_add_s32, blocks_total_insert by done.
    rewrite Z.shiftl_mul_pow2, Z.mul_1_l by apply Ho. f_equal. lia.
Qed.
(** *** Giving references back *)

(** One reference fewer; the block goes when it was the last. *)
Definition drop_ref (p : Z) R : gmap Z (Z * Z) :=
  match R !! p with
  | Some (o, n) => if 1 <? n then <[p := (o, n - 1)]> R else delete p R
  | None => R
  end.

Lemma krep_pa ks L R p o n : krep ks L R -> R !! p = Some (o, n) ->
  pa_to_page (page_to_pa p) = Done p.
Proof.
  intros K E. destruct (kr_range _ _ _ K _ _ _ E). pose proof ppc_pos.
  apply page_to_pa_to_page. lia.
Qed.

Lemma krep_give ks s' L L' R p o n pg :
  krep ks L R -> R !! p = Some (o, n) -> pages (bst ks) !! p = Some pg ->
  let s0 := State (<[p := set_refcnt 0 pg]> (pages (bst ks))) (nums (bst ks)) (lists (bst ks)) in
  pool_rep HS XS (mempool (p / PPC)) s' L' (delete p (blocks_in (p / PPC) R)) ->
  frame (mempool (p / PPC)) s0 s' L L' ->
  krep (with_bst s' (add_pages_cnt (Z.shiftl 1 o) ks)) L' (delete p R).
Proof.
  intros K E Epg s0 R' F. destruct (kr_range _ _ _ K _ _ _ E) as [Hp _].
  destruct (krep_block _ _ _ _ _ _ K E) as (j & Hj & _ & Ho & _).
  pose proof K as []. constructor; cbn [mempools bst pages_cnt with_bst add_pages_cnt pages]; auto.
  - intros i Hi. destruct (decide (i = p / PPC)) as [->|Hne]; [by rewrite blocks_in_delete|].
    assert (forall q, in_pool (mempool (p / PPC)) q -> ~ in_pool (mempool i) q) as Hdis.
    { intros q Hq%in_mempool_div Hq'%in_mempool_div. congruence. }
    rewrite blocks_in_delete, delete_id.
    + eapply pool_rep_other with (s := s0); [|exact (frame_others _ _ _ _ _ F)| |by cbn|done].
      * eapply pool_rep_meta; [by apply kr_rep0|done|done|]. by apply set_refcnt_meta.
      * by eapply pool_rep_lists.
    + apply eq_None_not_Some. intros [r Er%blocks_in_lookup]. destruct Er as [Hq%in_mempool_div _].
      congruence.
  - intros q Hq. rewrite (fr_ref _ _ _ _ _ F). cbn [s0 pages].
    destruct (decide (p = q)) as [<-|].
    + by rewrite lookup_insert_eq, lookup_delete_eq.
    + rewrite lookup_insert_ne, lookup_delete_ne by done. by apply kr_ref0.
  - intros q r m [_ Em]%lookup_delete_Some. by eapply kr_range0.
  - rewrite kr_cnt0, s32_add_s32, (blocks_total_delete R p o n) by done.
    rewrite Z.shiftl_mul_pow2, Z.mul_1_l by apply Ho. f_equal. lia.
Qed.

Lemma kfree_ok ks L R p o n : krep ks L R -> R !! p = Some (o, n) ->
  exists ks' L', kfree NCPU (page_to_pa p) ks = Done ks' /\ krep ks' L' (drop_ref p R) /\
    recycling ks' = recycling ks /\ fsst ks' = fsst ks.
Proof.
  intros K E. destruct (kr_range _ _ _ K _ _ _ E) as [Hp Hn].
  unfold kfree. rewrite (krep_pa _ _ _ _ _ _ K E). ocbn.
  destruct (krep_pages _ _ _ K p Hp) as (pg & Epg & Er). rewrite E in Er. cbn in Er.
  rewrite (page_at_run _ _ _ Epg). ocbn. rewrite Er, (proj2 (Z.ltb_ge _ _)) by lia.
  rewrite (upd_page_run _ _ _ _ Epg). ocbn.
  rewrite (page_at_run _ p (set_refcnt (n - 1) pg)) by (cbn; by rewrite lookup_insert_eq). ocbn.
  cbn [refcnt set_refcnt allocated Buddy.order]. unfold drop_ref. rewrite E.
  destruct (Z.ltb_spec 1 n) as [Hlt|Hge].
  { rewrite (proj2 (Z.leb_le _ _)) by lia. eexists _, L. split; [done|]. split; [|done].
    eapply krep_set_ref; [done|done|lia|done]. }
  rewrite (proj2 (Z.leb_gt _ _)) by lia. replace n with 1 in * by lia. cbn [Z.sub Z.eqb]. ocbn.
  set (i := p / PPC). assert (cpu_range i) as Hi by by apply cpu_of_page.
  assert (blocks_in i R !! p = Some o) as Ei.
  { rewrite blocks_in_lookup. split; [by apply in_mempool_div|eauto]. }
  destruct (pool_rep_head _ _ _ _ _ _ _ _ (kr_rep _ _ _ K i Hi) Ei) as (Ho & _ & pg' & Epg' & Eo & Ea).
  rewrite Epg in Epg'. injection Epg' as <-. rewrite Ea. cbn [Z.eqb]. ocbn.
  change (get_pages_cpu NCPU p) with i. rewrite (cpu_check i Hi). ocbn.
  set (s0 := State _ _ _).
  assert (pool_rep HS XS (mempool i) s0 L (blocks_in i R)) as R0.
  { eapply pool_rep_meta; [by apply (kr_rep _ _ _ K)|done|done|]. by apply set_refcnt_meta. }
  destruct (buddy_free_ok _ _ _ _ _ _ _ _ R0 Ei) as (s' & L' & Es & R' & F).
  set (ks1 := add_pages_cnt _ _).
  assert (pool_of ks1 i = Done (mempool i)) as Ep by (apply (pool_of_run ks L R i K Hi)).
  rewrite Ep. ocbn. change (bst ks1) with s0. rewrite Es. ocbn.
  eexists _, L'. split; [done|]. split; [|done].
  pose proof (krep_give ks s' L L' R p o 1 pg K E Epg R' F) as KG.
  unfold ks1. rewrite Eo. exact KG.
Qed.

Lemma share_page_ok ks L R p o n : krep ks L R -> R !! p = Some (o, n) -> n + 1 < 2 ^ 31 ->
  exists ks', share_page (page_to_pa p) ks = Done ks' /\ krep ks' L (<[p := (o, n + 1)]> R) /\
    recycling ks' = recycling ks /\ fsst ks' = fsst ks.
Proof.
  intros K E Hn1. destruct (kr_range _ _ _ K _ _ _ E) as [Hp Hn].
  unfold share_page. rewrite (krep_pa _ _ _ _ _ _ K E). ocbn.
  destruct (krep_pages _ _ _ K p Hp) as (pg & Epg & Er). rewrite E in Er. cbn in Er.
  rewrite (page_at_run _ _ _ Epg). ocbn. rewrite Er, (proj2 (Z.leb_le _ _)) by lia. ocbn.
  rewrite (upd_page_run _ _ _ _ Epg). ocbn. rewrite s32_small by lia.
  eexists. split; [done|]. split; [|done]. eapply krep_set_ref; [done|done|lia|done].
Qed.

(** *** Reclaiming *)

(** What the allocator needs of the file system: [alloc_fail] may give up pages
    its cache owns, and nothing else. *)
Class ReclaimerOk `{!Reclaimer (W := W) (C := C)} (cached : C -> gset Z) : Prop :=
  alloc_fail_ok ks L R : krep ks L R -> cached (fsst ks) ⊆ dom R ->
    exists ks' L' R', alloc_fail ks = Done ks' /\ krep ks' L' R' /\
      (forall p, p ∉ cached (fsst ks) -> R' !! p = R !! p) /\ recycling ks' = recycling ks /\
      cached (fsst ks') ⊆ cached (fsst ks) /\ cached (fsst ks') ⊆ dom R'.

(** A cache that gives back a list of pages, one [kfree] each. *)
Fixpoint kfree_all (ps : list Z) ks : outcome (kstate W C) :=
  match ps with
  | [] => Done ks
  | p :: ps => ks ← kfree NCPU (page_to_pa p) ks; kfree_all ps ks
  end.

Lemma drop_ref_ne p q R : p <> q -> drop_ref p R !! q = R !! q.
Proof.
  intros Hne. unfold drop_ref. destruct (R !! p) as [[o n]|]; [|done].
  destruct (1 <? n); [by rewrite lookup_insert_ne|by rewrite lookup_delete_ne].
Qed.

Lemma drop_ref_self p R1 R2 : R1 !! p = R2 !! p -> drop_ref p R1 !! p = drop_ref p R2 !! p.
Proof.
  intros E. unfold drop_ref. rewrite <- E. destruct (R1 !! p) as [[o n]|] eqn:E1; [|congruence].
  destruct (1 <? n); [by rewrite !lookup_insert_eq|by rewrite !lookup_delete_eq].
Qed.

Lemma kfree_all_ok ps : forall ks L R, krep ks L R -> NoDup ps -> (forall p, p ∈ ps -> p ∈ dom R) ->
  exists ks' L' R', kfree_all ps ks = Done ks' /\ krep ks' L' R' /\
    (forall p, p ∉ ps -> R' !! p = R !! p) /\ recycling ks' = recycling ks.
Proof.
  induction ps as [|p ps IH]; intros ks L R K Hnd Hd; cbn [kfree_all].
  - exists ks, L, R. done.
  - apply NoDup_cons in Hnd as [Hp Hnd].
    assert (p ∈ dom R) as [[o n] E]%elem_of_dom by (apply Hd; by left).
    destruct (kfree_ok ks L R p o n K E) as (ks1 & L1 & E1 & K1 & Er1 & _). rewrite E1. ocbn.
    destruct (IH ks1 L1 _ K1 Hnd) as (ks' & L' & R' & E' & K' & Hk & Er).
    { intros q Hq. rewrite elem_of_dom, drop_ref_ne by (by intros ->).
      apply elem_of_dom, Hd. by right. }
    exists ks', L', R'. split_and!; [done|done| |congruence].
    intros q Hq. rewrite not_elem_of_cons in Hq. destruct Hq as [Hqp Hq].
    by rewrite Hk, drop_ref_ne.
Qed.

(** *** Allocation *)

Section alloc.
Context `{!Reclaimer (W := W) (C := C)} (cached : C -> gset Z) `{!ReclaimerOk cached}.

Definition run_of (p o : Z) : Prop := exists j, cpu_range j /\ block_of (mempool j) p o.

(** The outcome of an allocation of order [o]. *)
Definition allocated_to ks L R o (r : option Z) ks' : Prop :=
  match r with
  | None => ks' = ks /\ forall p, run_of p o -> exists q r n, R !! q = Some (r, n) /\ meets q r p o
  | Some pa => exists p L' R', pa = page_to_pa p /\ run_of p o /\
      (forall q r n, R !! q = Some (r, n) -> ~ meets q r p o) /\
      krep ks' L' R' /\ R' !! p = Some (o, 1) /\
      (forall q, q <> p -> q ∉ cached (fsst ks) -> R' !! q = R !! q) /\
      cached (fsst ks') ⊆ cached (fsst ks) /\ cached (fsst ks') ⊆ dom R'
  end.

(** Looking in the pool of the cpu and then in the others. *)
Lemma find_block ks L R id o : krep ks L R -> cpu_range id -> BUDDY_ORDERS o ->
  (exists s, buddy_get_pages (mempool id) o (bst ks) = Done (None, s) /\
     with_bst s ks = ks /\ steal_mem NCPU id o ks = Done (None, ks) /\
     forall p, run_of p o -> exists q r n, R !! q = Some (r, n) /\ meets q r p o) \/
  (exists s r, buddy_get_pages (mempool id) o (bst ks) = Done (r, s) /\
     exists j p s' L',
     match r with
     | Some p => Done (Some p, with_bst s ks)
     | None => steal_mem NCPU id o (with_bst s ks)
     end = Done (Some p, with_bst s' ks) /\ taken ks L R j p o s' L').
Proof.
  intros K Hid Ho.
  destruct (pool_get _ _ _ id o K Hid Ho) as [[E Hno]|(p & s' & L' & E & Ht)].
  - destruct (steal_loop_ok ks L R id o (Z.to_nat NCPU) 0 K Ho ltac:(lia) ltac:(lia))
      as [[Es Hno']|(j & p & s' & L' & Es & Ht)].
    + left. exists (bst ks). rewrite with_bst_same. split_and!; [done..|].
      intros p (j & Hj & Hb).
      assert (no_room R j o) as Hr.
      { destruct (decide (j = id)) as [->|]; [done|]. apply Hno'; [unfold cpu_range in Hj; lia|done]. }
      destruct (Hr p Hb) as (q & r & [_ [n En]]%blocks_in_lookup & Hm). eauto.
    + right. exists (bst ks), None. split; [done|]. exists j, p, s', L'. by rewrite with_bst_same.
  - right. exists s', (Some p). split; [done|]. exists id, p, s', L'. done.
Qed.

Lemma alloc_block_ok ks L R id o :
  krep ks L R -> cpu_range id -> BUDDY_ORDERS o -> cached (fsst ks) ⊆ dom R -> 0 <= recycling ks < 2 ^ 30 ->
  exists r ks', alloc_block NCPU id o ks = Done (r, ks') /\ recycling ks' = recycling ks /\
    allocated_to ks L R o r ks'.
Proof.
  intros K Hid Ho Hc Hrec. unfold alloc_block. rewrite (cpu_check id Hid). ocbn.
  rewrite (pool_of_run _ _ _ _ K Hid). ocbn.
  destruct (find_block ks L R id o K Hid Ho)
    as [(s & E0 & Ew & Es & Hno)|(s & r & E0 & j & p & s' & L' & E & T)]; rewrite E0; ocbn.
  { rewrite Ew, Es. ocbn. exists None, ks. done. }
  rewrite E. ocbn. cbn [bst with_bst].
  pose proof (taken_fresh _ _ _ _ _ _ _ _ K T) as [Hin Hnone].
  pose proof T as (Hj & Hb & _ & _ & Rj & F).
  pose proof (pool_page_range _ _ Hj Hin) as Hp.
  destruct (krep_pages _ _ _ K p Hp) as (pg0 & Epg0 & Er0). rewrite Hnone in Er0. cbn in Er0.
  pose proof (fr_ref _ _ _ _ _ F p) as Er. rewrite Epg0 in Er.
  destruct (pages s' !! p) as [pg|] eqn:Epg; [|done]. cbn in Er. injection Er as Er.
  rewrite (page_at_run _ _ _ Epg). ocbn. rewrite Er, Er0. cbn [Z.eqb]. ocbn.
  rewrite (upd_page_run _ _ _ _ Epg). ocbn. cbn [bst with_bst].
  rewrite (page_at_run _ p (set_refcnt 1 pg)) by (cbn; by rewrite lookup_insert_eq). ocbn.
  cbn [Buddy.order set_refcnt].
  assert (Buddy.order pg = o) as ->.
  { destruct (pool_rep_head _ _ _ _ _ _ p o Rj (lookup_insert_eq _ _ _)) as (_ & _ & pg' & Epg' & ? & _).
    congruence. }
  pose proof (krep_take _ _ _ _ _ _ _ _ _ K T Epg) as K1.
  pose proof (taken_disjoint _ _ _ _ _ _ _ _ K T) as Hdis.
  set (ks1 := add_pages_cnt _ _) in *.
  assert (recycling ks1 = recycling ks) as Erec by done.
  destruct ((recycling ks1 =? 0) && (pages_cnt ks1 <? PAGES_THRESHOLD)) eqn:Ec; ocbn.
  2: { exists (Some (page_to_pa p)), ks1. split_and!; [done|done|].
       exists p, L', (<[p := (o, 1)]> R). split_and!; try done; [by exists j| | |].
       - by rewrite lookup_insert_eq.
       - intros q Hq _. by rewrite lookup_insert_ne.
       - change (fsst ks1) with (fsst ks). rewrite dom_insert. set_solver. }
  assert (krep (add_recycling 1 ks1) L' (<[p := (o, 1)]> R)) as K2 by (destruct K1; by constructor).
  assert (p ∉ cached (fsst ks)) as Hpc by (intros Hpc%Hc%elem_of_dom; rewrite Hnone in Hpc; by destruct Hpc).
  destruct (alloc_fail_ok _ _ _ K2) as (ks3 & L3 & R3 & E3 & K3 & Hk3 & Er3 & Hc3 & Hd3).
  { change (fsst (add_recycling 1 ks1)) with (fsst ks). rewrite dom_insert. set_solver. }
  change (fsst (add_recycling 1 ks1)) with (fsst ks) in *.
  rewrite E3. ocbn. eexists _, _. split; [done|]. split.
  { cbn [recycling add_recycling]. rewrite Er3. cbn [recycling add_recycling].
    rewrite s32_add_s32, Erec. replace (recycling ks + 1 + -1) with (recycling ks) by lia.
    apply s32_small. lia. }
  exists p, L3, R3. split_and!; try done; [by exists j| | |].
  - destruct K3; by constructor.
  - by rewrite Hk3, lookup_insert_eq.
  - intros q Hq Hqc. rewrite Hk3 by done. by rewrite lookup_insert_ne.
Qed.
End alloc.

(** *** Booting *)

Lemma init_pools_ok pm n : forall i ks L,
  0 <= pm -> pm + (NCPU * PPC) * sizeof_page < START_MEM ->
  0 <= i -> i + Z.of_nat n = NCPU ->
  (forall c k, cpu_range c -> BUDDY_ORDERS k -> (c, k) ∈ HS) ->
  (forall p, 0 <= p < NCPU * PPC -> p ∈ XS) ->
  mempools ks = mempool <$> seqZ 0 i ->
  lh_rep HS XS (lists (bst ks)) L ->
  (forall h, i <= fst h -> L !! h = None) ->
  (forall h l p, L !! h = Some l -> p ∈ l -> p < i * PPC) ->
  (forall j, 0 <= j < i -> pool_rep HS XS (mempool j) (bst ks) L ∅) ->
  (forall p, 0 <= p < i * PPC -> refcnt <$> pages (bst ks) !! p = Some 0) ->
  exists ks' L', init_pools NCPU n i pm ks = Done ks' /\
    pages_cnt ks' = pages_cnt ks /\ recycling ks' = recycling ks /\ fsst ks' = fsst ks /\
    mempools ks' = mempool <$> seqZ 0 NCPU /\
    (forall j, 0 <= j < NCPU -> pool_rep HS XS (mempool j) (bst ks') L' ∅) /\
    (forall p, 0 <= p < NCPU * PPC -> refcnt <$> pages (bst ks') !! p = Some 0).
Proof.
  induction n as [|n IH]; intros i ks L Hpm Hm Hi Hn HHS HXS Hpl Hl Hfree Hlow Hrep Href;
    cbn [init_pools].
  { replace i with NCPU in * by lia. exists ks, L. done. }
  pose proof ppc_pos as [Hpp Hpn].
  destruct (init_buddy_ok HS XS pm i (i * PPC) (START_MEM + i * PPC * PGSIZE) PPC (bst ks) L)
    as (pl & s' & L' & E & -> & Rp & Fo & Rr); auto; try lia.
  { unfold sizeof_page in *. nia. }
  { assert (NPAGES = 251904) by reflexivity. unfold PGSIZE. nia. }
  { intros k Hk. apply HHS; [unfold cpu_range; lia|done]. }
  { intros p Hp. apply HXS. nia. }
  { intros h l p El Hp. specialize (Hlow h l p El Hp). lia. }
  { intros k. by apply Hfree. }
  rewrite E. ocbn. change (Pool i _ _ _) with (mempool i) in *.
  edestruct (IH (i + 1) (KState (mempools ks ++ [mempool i]) s' (pages_cnt ks) (recycling ks) (fsst ks)) L')
    as (ks' & L2 & -> & ? & ? & ? & ? & ? & ?); auto; try lia; cbn [mempools bst].
  - rewrite Hpl, (seqZ_app 0 i 1), fmap_app by lia. done.
  - by eapply pool_rep_lists.
  - intros h Hh. rewrite (ot_lists _ _ _ _ _ Fo) by (cbn; lia). apply Hfree. lia.
  - intros h l p El Hp. destruct (decide (in_pool (mempool i) p)) as [Hq%in_mempool|Hq]; [lia|].
    destruct (ot_nodes _ _ _ _ _ Fo h l p El Hp Hq) as (l0 & El0 & Hp0).
    specialize (Hlow h l0 p El0 Hp0). lia.
  - intros j Hj. destruct (decide (j = i)) as [->|]; [done|].
    eapply pool_rep_other; [apply Hrep; lia|exact Fo|by eapply pool_rep_lists|by cbn|].
    intros q Hq%in_mempool_div Hq'%in_mempool_div. congruence.
  - intros p Hp. destruct (decide (in_pool (mempool i) p)) as [Hq|Hq]; [by apply Rr|].
    rewrite (ot_pages _ _ _ _ _ Fo) by done. apply Href.
    rewrite in_mempool in Hq. lia.
  - eexists _, _. done.
Qed.

Lemma mm_init_ok pm s c :
  0 <= pm -> pm + (NCPU * PPC) * sizeof_page < START_MEM ->
  (forall c k, cpu_range c -> BUDDY_ORDERS k -> (c, k) ∈ HS) ->
  (forall p, 0 <= p < NCPU * PPC -> p ∈ XS) ->
  lh_rep HS XS (lists s) ∅ ->
  exists ks L, mm_init NCPU pm s c = Done ks /\ krep ks L ∅ /\ recycling ks = 0 /\ fsst ks = c.
Proof.
  intros Hpm Hm HHS HXS Hl. unfold mm_init.
  destruct (init_pools_ok pm (Z.to_nat NCPU) 0 (KState [] s NPAGES 0 c) ∅)
    as (ks & L & E & Ec & Er & Ef & Ep & Hrep & Href); auto; try lia; try (intros; lia).
  { intros h l p El. by rewrite lookup_empty in El. }
  exists ks, L. split_and!; [done| |done|done]. constructor; auto.
  intros p o n. by rewrite lookup_empty.
Qed.

(** *** Accounting *)

(** The pages of the blocks in use. *)
Definition used_pages R : gset Z :=
  map_fold (fun p x acc => list_to_set (seqZ p (2 ^ fst x)) ∪ acc) ∅ R.

Definition apart R : Prop :=
  forall p o n q r m, R !! p = Some (o, n) -> R !! q = Some (r, m) -> meets p o q r -> p = q.

Lemma used_pages_insert R p x : R !! p = None ->
  used_pages (<[p := x]> R) = list_to_set (seqZ p (2 ^ fst x)) ∪ used_pages R.
Proof.
  intros E. unfold used_pages. rewrite map_fold_insert_L; [done| |done].
  intros j1 j2 z1 z2 y _ _ _. set_solver.
Qed.

Lemma used_pages_size R : apart R -> (forall p o n, R !! p = Some (o, n) -> 0 <= o) ->
  Z.of_nat (size (used_pages R)) = blocks_total R /\
  forall q, q ∈ used_pages R -> exists p o n, R !! p = Some (o, n) /\ p <= q < p + 2 ^ o.
Proof.
  induction R as [|p [o n] R E IH] using map_ind; intros Ha Ho.
  { split; [done|]. intros q Hq. by apply elem_of_empty in Hq. }
  destruct IH as [IHs IHq].
  { intros p1 o1 n1 q1 r1 m1 E1 E2. apply (Ha p1 o1 n1 q1 r1 m1);
      rewrite lookup_insert_ne; congruence. }
  { intros p1 o1 n1 E1. apply (Ho p1 o1 n1). rewrite lookup_insert_ne; congruence. }
  assert (0 <= o) as Ho0 by (eapply Ho; apply lookup_insert_eq).
  pose proof (pow2_pos o Ho0). rewrite used_pages_insert, blocks_total_insert by done. cbn [fst].
  assert (forall q, q ∈ (list_to_set (seqZ p (2 ^ o)) : gset Z) <-> p <= q < p + 2 ^ o) as Hq.
  { intros q. rewrite elem_of_list_to_set, elem_of_seqZ. done. }
  split.
  - rewrite size_union.
    + rewrite size_list_to_set by apply NoDup_seqZ. rewrite length_seqZ, Nat2Z.inj_add, IHs.
      rewrite Z2Nat.id by lia. done.
    + intros q H1%Hq H2. destruct (IHq q H2) as (p' & o' & n' & E' & H').
      assert (p = p') as <-; [|congruence].
      apply (Ha p o n p' o' n'); [apply lookup_insert_eq|rewrite lookup_insert_ne; congruence|].
      unfold meets. lia.
  - intros q [H1%Hq|H2]%elem_of_union.
    + exists p, o, n. split; [apply lookup_insert_eq|done].
    + destruct (IHq q H2) as (p' & o' & n' & E' & H'). exists p', o', n'.
      split; [rewrite lookup_insert_ne; congruence|done].
Qed.

Lemma krep_apart ks L R : krep ks L R -> apart R.
Proof.
  intros K p o n q r m E1 E2 Hm.
  destruct (krep_block _ _ _ _ _ _ K E1) as (i & Hi & Ei & [Ho _] & Hbi).
  destruct (krep_block _ _ _ _ _ _ K E2) as (j & Hj & Ej & [Hr _] & Hbj).
  pose proof (pow2_pos o Ho). pose proof (pow2_pos r Hr). unfold meets in Hm.
  assert (in_pool (mempool i) (Z.max p q)) as H1%in_mempool_div
    by (eapply block_in_pool; [exact Hbi|lia]).
  assert (in_pool (mempool j) (Z.max p q)) as H2%in_mempool_div
    by (eapply block_in_pool; [exact Hbj|lia]).
  assert (i = j) as <- by congruence.
  destruct (kr_rep _ _ _ K i Hi) as (blk & P & _ & HA). apply HA in Ei, Ej.
  pose proof (bo_disj _ _ (ok_blocks _ _ _ _ _ _ P) _ _ _ _ _ _ Ei Ej). lia.
Qed.

Lemma krep_total ks L R : krep ks L R -> 0 <= blocks_total R <= NCPU * PPC.
Proof.
  intros K. destruct (used_pages_size R (krep_apart _ _ _ K)) as [<- Hq].
  { intros p o n E. by destruct (krep_block _ _ _ _ _ _ K E) as (_ & _ & _ & [? _] & _). }
  split; [lia|]. pose proof ppc_pos.
  assert (used_pages R ⊆ list_to_set (seqZ 0 (NCPU * PPC))) as Hs%subseteq_size.
  { intros q (p & o & n & E & Hpq)%Hq. rewrite elem_of_list_to_set, elem_of_seqZ.
    destruct (krep_block _ _ _ _ _ _ K E) as (j & Hj & _ & _ & Hb).
    rewrite Z.add_0_l. eapply pool_page_range; [exact Hj|]. by eapply block_in_pool. }
  rewrite size_list_to_set in Hs by apply NoDup_seqZ. rewrite length_seqZ in Hs. lia.
Qed.

(** ** The properties *)

(** [mm_init] returns, every assertion of [init_buddy] included, with all
    pools set up, no block in use and [NPAGES] pages counted free. *)
Theorem mm_init_spec pm s c :
  0 <= pm -> pm + (NCPU * PPC) * sizeof_page < START_MEM ->
  (forall c k, cpu_range c -> BUDDY_ORDERS k -> (c, k) ∈ HS) ->
  (forall p, 0 <= p < NCPU * PPC -> p ∈ XS) ->
  lh_rep HS XS (lists s) ∅ ->
  exists ks L, mm_init NCPU pm s c = Done ks /\ krep ks L ∅ /\ pages_cnt ks = NPAGES.
Proof.
  intros Hpm Hm H1 H2 Hl. destruct (mm_init_ok pm s c Hpm Hm H1 H2 Hl) as (ks & L & E & K & _).
  exists ks, L. split_and!; [done..|]. by rewrite (kr_cnt _ _ _ K).
Qed.

(** C5.  [kmalloc] of up to 2^13 pages returns, whatever the file system gives
    back meanwhile.  It uses the least order whose block holds [size] bytes.
    A returned address is the start of an aligned block of that order inside
    one pool, disjoint from every block in use, and the block is in use with
    one reference afterwards.  NULL means that no pool has an unused aligned
    run of that size, and then nothing has changed. *)
Theorem kmalloc_spec `{!Reclaimer (W := W) (C := C)} (cached : C -> gset Z) `{!ReclaimerOk cached}
    ks L R id size :
  krep ks L R -> cpu_range id -> cached (fsst ks) ⊆ dom R -> 0 <= recycling ks < 2 ^ 30 ->
  0 < size <= PGSIZE * 2 ^ BUDDY_MAX_ORDER ->
  exists o r ks', kmalloc NCPU id size ks = Done (r, ks') /\ recycling ks' = recycling ks /\
    least_order size o /\ allocated_to cached ks L R o r ks'.
Proof.
  intros K Hid Hc Hrec Hs. unfold kmalloc.
  destruct (order_of_size size Hs) as (o & -> & Hl & Ho). ocbn. exists o.
  destruct (alloc_block_ok cached ks L R id o K Hid Ho Hc Hrec) as (r & ks' & E & Er & Ha).
  exists r, ks'. done.
Qed.

(** C6.  [kfree] of a block in use returns: with several references it only
    drops one, with one reference the block leaves use and its pages are
    counted free again.  [kfree] of the first page of no block in use (a double
    free) stops the machine instead of corrupting a pool. *)
Theorem kfree_spec ks L R p :
  krep ks L R -> 0 <= p < NCPU * PPC ->
  match R !! p with
  | Some (o, n) => exists ks' L', kfree NCPU (page_to_pa p) ks = Done ks' /\
      krep ks' L' (if 1 <? n then <[p := (o, n - 1)]> R else delete p R)
  | None => kfree NCPU (page_to_pa p) ks = Panic
  end.
Proof.
  intros K Hp. destruct (R !! p) as [[o n]|] eqn:E.
  - destruct (kfree_ok ks L R p o n K E) as (ks' & L' & Ek & K' & _).
    exists ks', L'. split; [done|]. unfold drop_ref in K'. by rewrite E in K'.
  - destruct (krep_pages _ _ _ K p Hp) as (pg & Epg & Er). rewrite E in Er. cbn in Er.
    pose proof ppc_pos. unfold kfree. rewrite page_to_pa_to_page by lia. ocbn.
    rewrite (page_at_run _ _ _ Epg). ocbn. by rewrite Er.
Qed.

(** The counter of free pages is exact in every state of the allocator:
    it is [NPAGES] minus the pages of the blocks in use, without overflow, and
    never negative. *)
Theorem pages_cnt_exact ks L R : krep ks L R ->
  pages_cnt ks = NPAGES - blocks_total R /\ 0 <= pages_cnt ks <= NPAGES.
Proof.
  intros K. pose proof (krep_total _ _ _ K). pose proof ppc_pos.
  assert (NPAGES = 251904) as EN by reflexivity.
  rewrite (kr_cnt _ _ _ K), s32_small by lia. lia.
Qed.

(** Sharing a page and then freeing it once leaves the references of
    every block as they were: a block handed to two owners survives the first
    [kfree]. *)
Theorem share_then_free ks L R p o n :
  krep ks L R -> R !! p = Some (o, n) -> n + 1 < 2 ^ 31 ->
  exists ks1 ks2 L', share_page (page_to_pa p) ks = Done ks1 /\
    krep ks1 L (<[p := (o, n + 1)]> R) /\
    kfree NCPU (page_to_pa p) ks1 = Done ks2 /\ krep ks2 L' R.
Proof.
  intros K E Hn. destruct (share_page_ok ks L R p o n K E Hn) as (ks1 & E1 & K1 & _).
  destruct (kfree_ok ks1 L _ p o (n + 1) K1 (lookup_insert_eq _ _ _)) as (ks2 & L' & E2 & K2 & _).
  exists ks1, ks2, L'. split_and!; [done..|]. unfold drop_ref in K2.
  rewrite lookup_insert_eq, insert_insert_eq in K2.
  destruct (kr_range _ _ _ K _ _ _ E) as [_ ?].
  rewrite (proj2 (Z.ltb_lt _ _)) in K2 by lia. replace (n + 1 - 1) with n in K2 by lia.
  by rewrite insert_id in K2.
Qed.
End krep.

(** ** A page cache

    A file system whose state is the set of pages its cache owns, and which
    gives up all of them. *)

Section page_cache.
Context {W : Type} `{!ListOps fl_head Z W, !ListHeap fl_head Z W}.
Context (NCPU : Z) (HN : 0 < NCPU <= NPAGES).
Context (HS : gset fl_head) (XS : gset Z).

Definition with_fsst {C} (c : C) (ks : kstate W C) : kstate W C :=
  KState (mempools ks) (bst ks) (pages_cnt ks) (recycling ks) c.

Definition drop_cache : Reclaimer (W := W) (C := gset Z) := fun ks =>
  ks ← kfree_all NCPU (elements (fsst ks)) ks; Done (with_fsst ∅ ks).

Lemma drop_cache_ok : ReclaimerOk (Reclaimer0 := drop_cache) NCPU HS XS id.
Proof.
  intros ks L R K Hc.
  destruct (kfree_all_ok NCPU HN HS XS (elements (fsst ks)) ks L R K) as (ks' & L' & R' & E & K' & Hk & Er).
  - apply NoDup_elements.
  - intros p Hp. apply Hc. by apply elem_of_elements.
  - exists (with_fsst ∅ ks'), L', R'. split_and!.
    + unfold alloc_fail, drop_cache. by rewrite E.
    + destruct K'. by constructor.
    + intros p Hp. apply Hk. by rewrite elem_of_elements.
    + done.
    + apply empty_subseteq.
    + apply empty_subseteq.
Qed.
End page_cache.

(** ** The two-cpu build *)

Definition heads2 : gset fl_head :=
  list_to_set (c ← seqZ 0 2; k ← seqZ 0 (BUDDY_MAX_ORDER + 1); [(c, k)]).
Definition pages2 : gset Z := list_to_set (seqZ 0 NPAGES).
Definition blank_state (HS : gset fl_head) (XS : gset Z) : Buddy.state pstore :=
  State ∅ ∅ (blank_lists HS XS).

Lemma blank_state_rep HS XS : lh_rep HS XS (lists (blank_state HS XS)) ∅.
Proof. exact (blank_lists_rep HS XS). Qed.

Lemma heads2_elem c k : cpu_range 2 c -> BUDDY_ORDERS k -> (c, k) ∈ heads2.
Proof.
  intros Hc Hk. unfold heads2. rewrite elem_of_list_to_set, list_elem_of_bind.
  exists c. rewrite elem_of_seqZ, list_elem_of_bind. split; [|exact Hc].
  exists k. rewrite elem_of_seqZ. split; [by left|]. unfold BUDDY_ORDERS in Hk. lia.
Qed.

Lemma seqZ_set_elem n p : 0 <= p < n -> p ∈ (list_to_set (seqZ 0 n) : gset Z).
Proof. intros Hp. rewrite elem_of_list_to_set, elem_of_seqZ. lia. Qed.

Lemma pages2_elem p : 0 <= p < 2 * PAGES_PER_CPU 2 -> p ∈ pages2.
Proof. intros Hp. exact (seqZ_set_elem NPAGES p Hp). Qed.

Lemma ncpu2 : 0 < 2 <= NPAGES.
Proof. change NPAGES with 251904. lia. Qed.

Lemma meta2 : demo_meta + 2 * PAGES_PER_CPU 2 * sizeof_page < START_MEM.
Proof. vm_compute. reflexivity. Qed.

Lemma mm_init_spec_witness : exists ks L, mm_init 2 demo_meta (blank_state heads2 pages2) tt = Done ks /\
  krep 2 heads2 pages2 ks L ∅ /\ pages_cnt ks = NPAGES.
Proof.
  exact (mm_init_spec 2 ncpu2 heads2 pages2 demo_meta
           (blank_state heads2 pages2) tt ltac:(unfold demo_meta; lia) meta2
           heads2_elem pages2_elem (blank_state_rep heads2 pages2)).
Defined.

(** The machine just booted, and the same machine with one page in use. *)
Lemma booted {C} (c : C) : exists ks L, krep 2 heads2 pages2 ks L ∅ /\ recycling ks = 0 /\ fsst ks = c.
Proof.
  destruct (mm_init_ok 2 ncpu2 heads2 pages2 demo_meta
           (blank_state heads2 pages2) c ltac:(unfold demo_meta; lia) meta2
           heads2_elem pages2_elem (blank_state_rep heads2 pages2)) as (ks & L & _ & K & E & F).
  exists ks, L. exact (conj K (conj E F)).
Qed.

Lemma cpu0 : cpu_range 2 0.
Proof. unfold cpu_range. lia. Qed.

Lemma kmalloc_spec_witness : exists (ks : kstate pstore (gset Z)) L o r ks',
  krep 2 heads2 pages2 ks L ∅ /\
  @kmalloc _ _ _ 2 (drop_cache 2) 0 9000 ks = Done (r, ks') /\ least_order 9000 o.
Proof.
  destruct (booted (∅ : gset Z)) as (ks & L & K & Er & Ef).
  destruct (@kmalloc_spec _ _ _ _ 2 ncpu2 heads2 pages2 (drop_cache 2) id
              (drop_cache_ok 2 ncpu2 heads2 pages2)
              ks L ∅ 0 9000 K cpu0) as (o & r & ks' & E & _ & Hl & _).
  - rewrite Ef. apply empty_subseteq.
  - rewrite Er. lia.
  - unfold PGSIZE, BUDDY_MAX_ORDER. lia.
  - exists ks, L, o, r, ks'. exact (conj K (conj E Hl)).
Defined.

Lemma one_page {C} (c : C) : exists (ks : kstate pstore C) L p,
  krep 2 heads2 pages2 ks L {[p := (0, 1)]} /\ 0 <= p < 2 * PAGES_PER_CPU 2 /\
  recycling ks = 0 /\ fsst ks = c.
Proof.
  destruct (booted c) as (ks & L & K & Er & Ef).
  destruct (pool_get 2 heads2 pages2 ks L ∅ 0 0 K cpu0 ltac:(unfold BUDDY_ORDERS, BUDDY_MAX_ORDER; lia))
    as [[_ Hno]|(p & s' & L' & _ & T)].
  - exfalso. destruct (Hno 0) as (q & r & Eq & _).
    + unfold block_of. rewrite (npg_mempool 2). split_and!.
      * cbn [page_metadata mempool]. lia.
      * cbn [page_metadata mempool]. change (PAGES_PER_CPU 2) with 125952. lia.
      * apply Z.divide_0_r || apply Z.divide_1_l.
    + apply blocks_in_lookup in Eq as [_ [n En]]. rewrite lookup_empty in En. discriminate En.
  - pose proof (taken_fresh 2 heads2 pages2 ks L ∅ 0 p 0 s' L' K T) as [Hin _].
    pose proof (pool_page_range 2 ncpu2 0 p cpu0 Hin) as Hp.
    destruct T as (H1 & H2 & H3 & H4 & H5 & H6).
    destruct (pages s' !! p) as [pg|] eqn:Epg.
    + exists (add_pages_cnt (- Z.shiftl 1 0)
         (with_bst (State (<[p := set_refcnt 1 pg]> (pages s')) (nums s') (lists s')) ks)), L', p.
      split; [|exact (conj Hp (conj Er Ef))].
      exact (krep_take 2 ncpu2 heads2 pages2 ks L ∅ 0 p 0 s' L' pg K
               (conj H1 (conj H2 (conj H3 (conj H4 (conj H5 H6))))) Epg).
    + exfalso. destruct (pool_rep_head _ _ _ _ _ _ p 0 H5 (lookup_insert_eq _ _ _))
        as (_ & _ & pg & Epg' & _). congruence.
Qed.

Lemma kfree_spec_witness : exists (ks : kstate pstore unit) L p ks' L',
  krep 2 heads2 pages2 ks L {[p := (0, 1)]} /\
  kfree 2 (page_to_pa p) ks = Done ks' /\ krep 2 heads2 pages2 ks' L' (delete p {[p := (0, 1)]}).
Proof.
  destruct (one_page tt) as (ks & L & p & K & Hp & _).
  pose proof (kfree_spec 2 ncpu2 heads2 pages2 ks L {[p := (0, 1)]} p K Hp) as H.
  rewrite lookup_singleton_eq in H. destruct H as (ks' & L' & E & K').
  exists ks, L, p, ks', L'. exact (conj K (conj E K')).
Defined.

Lemma pages_cnt_exact_witness : exists (ks : kstate pstore unit) L p,
  krep 2 heads2 pages2 ks L {[p := (0, 1)]} /\
  pages_cnt ks = NPAGES - blocks_total {[p := (0, 1)]}.
Proof.
  destruct (one_page tt) as (ks & L & p & K & Hp & _). exists ks, L, p.
  exact (conj K (proj1 (pages_cnt_exact 2 ncpu2 heads2 pages2 ks L _ K))).
Defined.

Lemma share_then_free_witness : exists (ks : kstate pstore unit) p ks1 ks2,
  share_page (page_to_pa p) ks = Done ks1 /\ kfree 2 (page_to_pa p) ks1 = Done ks2.
Proof.
  destruct (one_page tt) as (ks & L & p & K & Hp & _).
  destruct (share_then_free 2 ncpu2 heads2 pages2 ks L {[p := (0, 1)]} p 0 1 K
              (lookup_singleton_eq p (0, 1)) ltac:(lia)) as (ks1 & ks2 & L' & E1 & _ & E2 & _).
  exists ks, p, ks1, ks2. exact (conj E1 E2).
Defined.
