(* ===== verification/Pmem.v ===== *)
(** * Pmem: 64-bit words in byte memory

    Page-table entries are [uint64] objects in the same physical memory the
    string routines work on.  [load64] and [store64] are the little-endian
    accesses the C code compiles to, with the equations the page-table proofs
    need: what was stored is read back, and bytes outside the word stay. *)

From stdpp Require Import base gmap sets list fin_maps.
From Stdlib Require Import ZArith Lia.
From S2P Require Import Prelude Kstring.
#[local] Open Scope Z_scope.

Fixpoint load_le (n : nat) (m : mem) (a : Z) : outcome Z :=
  match n with
  | O => Done 0
  | S n => b ← load m a; r ← load_le n m (a + 1); Done (b + 256 * r)
  end.

Fixpoint store_le (n : nat) (a v : Z) (m : mem) : outcome mem :=
  match n with
  | O => Done m
  | S n => m ← store a (v mod 256) m; store_le n (a + 1) (v / 256) m
  end.

Definition load64 (m : mem) (a : Z) : outcome Z := load_le 8 m a.
Definition store64 (a v : Z) (m : mem) : outcome mem := store_le 8 a v m.

Definition bytes_ok (m : mem) : Prop := forall a x, m !! a = Some x -> 0 <= x < 256.

Lemma load_le_frame n : forall m m' a,
  (forall x, a <= x < a + Z.of_nat n -> m' !! x = m !! x) -> load_le n m' a = load_le n m a.
Proof.
  induction n as [|n IH]; intros m m' a H; cbn [load_le]; [done|].
  unfold load. rewrite H by lia. destruct (m !! a) as [b|]; [|done]. ocbn.
  rewrite (IH m m' (a + 1)); [done|]. intros x Hx. apply H. lia.
Qed.

Lemma store_le_ok n : forall a v m, valid m a (Z.of_nat n) ->
  exists m', store_le n a v m = Done m' /\ load_le n m' a = Done (v mod 256 ^ Z.of_nat n) /\
    (forall x, ~ a <= x < a + Z.of_nat n -> m' !! x = m !! x) /\
    (forall x, is_Some (m !! x) -> is_Some (m' !! x)) /\ (bytes_ok m -> bytes_ok m').
Proof.
  induction n as [|n IH]; intros a v m V; cbn [store_le load_le].
  { exists m. split_and!; auto. f_equal. by rewrite Z.mod_1_r. }
  rewrite store_run by (eapply valid_0; [done|lia]). ocbn.
  destruct (IH (a + 1) (v / 256) (<[a := v mod 256]> m)) as (m' & E & El & Ho & Hd & Hb).
  { apply valid_insert. apply (valid_shift _ _ _ 1) in V; [|lia].
    by replace (Z.of_nat (S n) - 1) with (Z.of_nat n) in V by lia. }
  exists m'. rewrite E, El.
  assert (m' !! a = Some (v mod 256)) as Ea by (rewrite Ho by lia; apply lookup_insert_eq).
  unfold load. rewrite Ea. ocbn. split_and!; [done| | | |].
  - f_equal. rewrite Nat2Z.inj_succ, Z.pow_succ_r by lia.
    rewrite Z.rem_mul_r by (try apply Z.pow_pos_nonneg; lia). done.
  - intros x Hx. rewrite Ho by lia. by rewrite lookup_insert_ne by lia.
  - intros x Hx. apply Hd. destruct (decide (a = x)) as [->|].
    + rewrite lookup_insert_eq. eauto.
    + by rewrite lookup_insert_ne.
  - intros Hm. apply Hb. intros x y. destruct (decide (a = x)) as [->|].
    + rewrite lookup_insert_eq. intros [= <-]. by apply Z.mod_pos_bound.
    + rewrite lookup_insert_ne by done. apply Hm.
Qed.

Lemma load_le_ok n : forall a m, valid m a (Z.of_nat n) -> bytes_ok m ->
  exists v, load_le n m a = Done v /\ 0 <= v < 256 ^ Z.of_nat n.
Proof.
  induction n as [|n IH]; intros a m V B; cbn [load_le].
  { exists 0. split; [done|]. cbn. lia. }
  destruct (valid_0 _ _ _ V ltac:(lia)) as [b Eb]. unfold load. rewrite Eb. ocbn.
  destruct (IH (a + 1) m) as (v & Ev & Hv); [|done|].
  { apply (valid_shift _ _ _ 1) in V; [|lia].
    by replace (Z.of_nat (S n) - 1) with (Z.of_nat n) in V by lia. }
  rewrite Ev. ocbn. eexists; split; [done|]. pose proof (B _ _ Eb).
  rewrite Nat2Z.inj_succ, Z.pow_succ_r by lia. lia.
Qed.

Lemma load64_ok m a : valid m a 8 -> bytes_ok m -> exists v, load64 m a = Done v /\ 0 <= v < 2 ^ 64.
Proof. intros V B. exact (load_le_ok 8 a m V B). Qed.

Lemma load64_frame m m' a : (forall x, a <= x < a + 8 -> m' !! x = m !! x) -> load64 m' a = load64 m a.
Proof. apply (load_le_frame 8). Qed.

(** A 64-bit store: the word is read back, nothing else changes. *)
Lemma store64_ok m a v : valid m a 8 -> 0 <= v < 2 ^ 64 ->
  exists m', store64 a v m = Done m' /\ load64 m' a = Done v /\
    (forall x, ~ a <= x < a + 8 -> m' !! x = m !! x) /\
    (forall x, is_Some (m !! x) -> is_Some (m' !! x)) /\ (bytes_ok m -> bytes_ok m').
Proof.
  intros V Hv. destruct (store_le_ok 8 a v m V) as (m' & E & El & H).
  exists m'. split; [exact E|]. split; [|exact H].
  unfold load64. rewrite El. f_equal. apply Z.mod_small. exact Hv.
Qed.

(** Memory that was cleared reads as zero. *)
Lemma load_le_zero n : forall a m,
  (forall x, a <= x < a + Z.of_nat n -> m !! x = Some 0) -> load_le n m a = Done 0.
Proof.
  induction n as [|n IH]; intros a m H; cbn [load_le]; [done|].
  unfold load. rewrite H by lia. ocbn. rewrite IH; [done|]. intros x Hx. apply H. lia.
Qed.

Lemma load64_zero m a : (forall x, a <= x < a + 8 -> m !! x = Some 0) -> load64 m a = Done 0.
Proof. apply (load_le_zero 8). Qed.
