(* ===== verification/PageAlloc.v ===== *)
(** * PageAlloc: the page allocator as its clients see it

    [PageAlloc] is what the rest of the kernel calls (kmalloc, kfree and
    share_page on an opaque state), [PageAllocOk] what it is promised about the
    blocks in use; the kernel's allocator of [Kalloc] discharges the promise at
    the end of the file.  The lemmas between are the ones every client needs: a
    small allocation gives a fresh page or nothing, and what a client owns
    survives the allocations and releases of the others. *)

From stdpp Require Import base gmap sets list fin_maps.
From Stdlib Require Import ZArith Lia.
From S2P Require Import Prelude KList Buddy Kalloc.
#[local] Open Scope Z_scope.

(** ** The operations *)

Class PageAlloc (A : Type) := {
  pa_kmalloc : Z -> A -> outcome (option Z * A);
  pa_kfree : Z -> A -> outcome A;
  pa_share : Z -> A -> outcome A
}.

(** ** What the clients rely on *)

Class PageAllocOk (A : Type) `{!PageAlloc A} := {
  (** The blocks in use: first page, order, references. *)
  pa_rep : A -> gmap Z (Z * Z) -> Prop;
  (** Pages the allocator may take back on its own. *)
  pa_cached : A -> gset Z;
  pa_apart a R : pa_rep a R -> apart R;
  pa_range a R p o n : pa_rep a R -> R !! p = Some (o, n) ->
    0 <= o /\ 0 <= p /\ p + 2 ^ o <= NPAGES /\ 1 <= n;
  pa_kmalloc_ok a R size : pa_rep a R -> 0 < size <= PGSIZE * 2 ^ BUDDY_MAX_ORDER ->
    exists o r a', pa_kmalloc size a = Done (r, a') /\ least_order size o /\
      match r with
      | None => a' = a
      | Some pa => exists p R', pa = page_to_pa p /\ R !! p = None /\
          (forall q r n, R !! q = Some (r, n) -> ~ meets q r p o) /\
          pa_rep a' R' /\ R' !! p = Some (o, 1) /\ p ∉ pa_cached a' /\
          (forall q, q <> p -> q ∉ pa_cached a -> R' !! q = R !! q) /\
          pa_cached a' ⊆ pa_cached a
      end;
  pa_kfree_ok a R p o n : pa_rep a R -> R !! p = Some (o, n) -> p ∉ pa_cached a ->
    exists a', pa_kfree (page_to_pa p) a = Done a' /\ pa_rep a' (drop_ref p R) /\
      pa_cached a' = pa_cached a;
  pa_share_ok a R p o n : pa_rep a R -> R !! p = Some (o, n) -> p ∉ pa_cached a -> n + 1 < 2 ^ 31 ->
    exists a', pa_share (page_to_pa p) a = Done a' /\ pa_rep a' (<[p := (o, n + 1)]> R) /\
      pa_cached a' = pa_cached a
}.

Lemma least_order_page : forall o, least_order PGSIZE o -> o = 0.
Proof.
  intros o (Ho & _ & Hm). destruct (Z.eq_dec o 0) as [->|]; [done|].
  specialize (Hm 0). unfold PGSIZE in Hm. lia.
Qed.

Lemma page_to_pa_alt p : 0 <= p < NPAGES -> page_to_pa p = p * 4096 + START_MEM.
Proof.
  intros Hp. unfold page_to_pa, PGSIZE. apply u64_small.
  change NPAGES with 251904 in Hp. unfold START_MEM. lia.
Qed.

Lemma page_to_pa_inj p q : 0 <= p < NPAGES -> 0 <= q < NPAGES -> page_to_pa p = page_to_pa q -> p = q.
Proof. intros Hp Hq. rewrite !page_to_pa_alt by done. lia. Qed.

(** ** Owning pages *)

Section owning.
Context {A : Type} `{!PageAlloc A, !PageAllocOk A}.
Implicit Types (a : A) (R : gmap Z (Z * Z)).

Record fresh_page (a : A) R (q : Z) (a' : A) R' : Prop := {
  fp_range : 0 <= q < NPAGES;
  fp_new : R !! q = None;
  fp_rep : pa_rep a' R';
  fp_used : R' !! q = Some (0, 1);
  fp_uncached : q ∉ pa_cached a';
  fp_cached : pa_cached a' ⊆ pa_cached a;
  fp_kept p : p <> q -> p ∉ pa_cached a -> R' !! p = R !! p
}.

Lemma least_order_small size o : 0 < size <= PGSIZE -> least_order size o -> o = 0.
Proof.
  intros Hs (Ho & _ & Hm). destruct (Z.eq_dec o 0) as [->|]; [done|].
  specialize (Hm 0). change (2 ^ 0) with 1 in Hm. lia.
Qed.

(** A small allocation: a fresh page, or nothing and no change. *)
Lemma kmalloc_fresh a R size : pa_rep a R -> 0 < size <= PGSIZE ->
  pa_kmalloc size a = Done (None, a) \/
  exists q a' R', fresh_page a R q a' R' /\ pa_kmalloc size a = Done (Some (page_to_pa q), a').
Proof.
  intros Ha Hs. destruct (pa_kmalloc_ok a R size Ha) as (o & r & a' & Ek & Ho & Hr).
  { unfold PGSIZE in *. change (2 ^ BUDDY_MAX_ORDER) with (2 ^ 13). lia. }
  apply least_order_small in Ho as ->; [|done]. destruct r as [pa|]; [right|left; by subst].
  destruct Hr as (q & R' & -> & Hq & _ & Ha' & Hq' & Hqc & Hk & Hc).
  destruct (pa_range _ _ _ _ _ Ha' Hq') as (_ & Hq0 & Hq1 & _). change (2 ^ 0) with 1 in Hq1.
  exists q, a', R'. split; [|done]. constructor; try done; lia.
Qed.

(** After at most [n] allocations of at most [big] bytes each, with any releases between them, ... *)
Inductive uses (big : Z) : nat -> A -> A -> Prop :=
  | uses_none n a : uses big n a a
  | uses_alloc n a size p a1 a2 : size <= big -> pa_kmalloc size a = Done (Some p, a1) -> uses big n a1 a2 -> uses big (S n) a a2
  | uses_free n a p a1 a2 : pa_kfree p a = Done a1 -> uses big n a1 a2 -> uses big n a a2.

(** ... the allocator has nothing left for one more: one of the first [n] allocations fails. *)
Definition dry (big : Z) (n : nat) (a : A) : Prop :=
  exists m a' size, (m < n)%nat /\ uses big m a a' /\ size <= big /\ pa_kmalloc size a' = Done (None, a').

Lemma uses_le big big' n m a a' : uses big n a a' -> big <= big' -> (n <= m)%nat -> uses big' m a a'.
Proof.
  intros U Hb. revert m. induction U; intros m' Hm; [constructor| |].
  - destruct m' as [|m']; [lia|]. eapply uses_alloc; [|done|]; [lia|]. apply IHU. lia.
  - eapply uses_free; [done|]. by apply IHU.
Qed.

Lemma uses_trans big n m a1 a2 a3 : uses big n a1 a2 -> uses big m a2 a3 -> uses big (n + m) a1 a3.
Proof.
  intros U V. induction U; cbn [Nat.add]; [|by eapply uses_alloc; eauto|by eapply uses_free; eauto].
  eapply uses_le; [exact V|lia|lia].
Qed.

Lemma dry_now big n size a : (0 < n)%nat -> size <= big -> pa_kmalloc size a = Done (None, a) -> dry big n a.
Proof. exists O, a, size. eauto using uses. Qed.

Lemma dry_later big n m k a a' : uses big n a a' -> dry big m a' -> (n + m <= k)%nat -> dry big k a.
Proof.
  intros U (j & b & size & Hj & V & Hs & E) Hk. exists (n + j)%nat, b, size. split; [lia|]. eauto using uses_trans.
Qed.

Lemma dry_le big big' n m a : dry big n a -> big <= big' -> (n <= m)%nat -> dry big' m a.
Proof.
  intros (j & b & size & Hj & V & Hs & E) Hb Hn. exists j, b, size. split_and!; [lia| |lia|done]. by eapply uses_le.
Qed.

(** A block held through the only reference to it. *)
Definition owned a R (p : Z) : Prop :=
  exists q o, p = page_to_pa q /\ 0 <= q < NPAGES /\ R !! q = Some (o, 1) /\ q ∉ pa_cached a.

Lemma fresh_owned a R q a' R' : fresh_page a R q a' R' -> owned a' R' (page_to_pa q).
Proof. intros []. exists q, 0. done. Qed.

Lemma owned_fresh a R q a' R' p : fresh_page a R q a' R' -> owned a R p ->
  owned a' R' p /\ p <> page_to_pa q.
Proof.
  intros [] (r & o & -> & Hr & Er & Hc).
  assert (r <> q) as Hne by (intros ->; congruence). split.
  - exists r, o. split_and!; [done|lia|lia|by rewrite fp_kept0|set_solver].
  - intros E. apply Hne. by eapply page_to_pa_inj.
Qed.

(** Releasing an owned block succeeds and leaves what others own. *)
Lemma kfree_owned a R p : pa_rep a R -> owned a R p ->
  exists a' R', pa_kfree p a = Done a' /\ pa_rep a' R' /\
    forall p', p' <> p -> owned a R p' -> owned a' R' p'.
Proof.
  intros Ha (q & o & -> & Hq & Eq & Hc).
  destruct (pa_kfree_ok a R q o 1 Ha Eq Hc) as (a' & Ek & Ha' & Ec).
  exists a', (drop_ref q R). split_and!; [done..|]. intros p' Hne (r & o' & -> & Hr & Er & Hrc).
  exists r, o'. rewrite Ec, drop_ref_ne by congruence. done.
Qed.
(** Any allocation: an owned block, apart from what was owned before. *)
Lemma kmalloc_owned a R size : pa_rep a R -> 0 < size <= PGSIZE * 2 ^ BUDDY_MAX_ORDER ->
  pa_kmalloc size a = Done (None, a) \/
  exists q a' R', pa_kmalloc size a = Done (Some (page_to_pa q), a') /\ 0 <= q < NPAGES /\ pa_rep a' R' /\
    owned a' R' (page_to_pa q) /\ forall p, owned a R p -> owned a' R' p /\ p <> page_to_pa q.
Proof.
  intros Ha Hs. destruct (pa_kmalloc_ok a R size Ha Hs) as (o & r & a' & Ek & _ & Hr).
  destruct r as [pa|]; [right|left; by subst].
  destruct Hr as (q & R' & -> & Hq & _ & Ha' & Hq' & Hqc & Hk & Hc).
  destruct (pa_range _ _ _ _ _ Ha' Hq') as (Ho & Hq0 & Hq1 & _). pose proof (pow2_pos o Ho).
  exists q, a', R'. split_and!; try done; [lia| |].
  - exists q, o. split_and!; try done; lia.
  - intros p (r & o' & -> & Hr & Er & Hrc). assert (r <> q) as Hne by (intros ->; congruence). split.
    + exists r, o'. split_and!; [done|lia|lia|by rewrite Hk|set_solver].
    + intros E. apply Hne. apply page_to_pa_inj; [done|lia|done].
Qed.
End owning.

(** ** Frames

    Blocks of others, by their first pages and orders, that an operation's client must find
    again: the same allocator, with these blocks counted among the ones a client may not touch.  What a
    component proves over any [PageAllocOk] it thereby proves to leave them alone. *)

Section frames.
Context {A : Type} `{PA : !PageAlloc A, OK : !PageAllocOk A} (F : gmap Z Z).

Definition kept (a : A) (R : gmap Z (Z * Z)) : Prop :=
  forall h o, F !! h = Some o -> R !! h = Some (o, 1) /\ h ∉ pa_cached a.

#[program] Definition framed : PageAllocOk A := {|
  pa_rep a R := pa_rep a R /\ kept a R;
  pa_cached a := pa_cached a ∪ dom F
|}.
Next Obligation. intros a R [Ha _]. by eapply pa_apart. Qed.
Next Obligation. intros a R p o n [Ha _] E. by eapply pa_range. Qed.
Next Obligation.
  intros a R size [Ha HF] Hs. destruct (pa_kmalloc_ok a R size Ha Hs) as (o & r & a' & E & Ho & Hr).
  exists o, r, a'. split; [done|]. split; [done|]. destruct r as [pa|]; [|done].
  destruct Hr as (p & R' & -> & Hp & Hd & Ha' & Ep & Hpc & Hk & Hc).
  assert (p ∉ dom F) as HpF. { intros [o' E']%elem_of_dom. destruct (HF _ _ E') as [E'' _]. congruence. }
  exists p, R'. split_and!; try done.
  - intros h o' E'. destruct (HF _ _ E') as [ER Hn]. split; [|set_solver]. rewrite Hk; [done| |done]. intros ->. congruence.
  - set_solver.
  - intros q Hq Hqc. apply Hk; [done|set_solver].
  - set_solver.
Qed.
Next Obligation.
  intros a R p o n [Ha HF] E Hp. destruct (pa_kfree_ok a R p o n Ha E) as (a' & Ek & Ha' & Ec); [set_solver|].
  exists a'. rewrite Ec. split_and!; [done|done| |done]. intros h o' E'. destruct (HF _ _ E') as [ER Hn]. rewrite Ec.
  split; [|done]. rewrite drop_ref_ne; [done|]. intros ->. apply Hp, elem_of_union_r, elem_of_dom. eauto.
Qed.
Next Obligation.
  intros a R p o n [Ha HF] E Hp Hn. destruct (pa_share_ok a R p o n Ha E) as (a' & Ek & Ha' & Ec); [set_solver|done|].
  exists a'. rewrite Ec. split_and!; [done|done| |done]. intros h o' E'. destruct (HF _ _ E') as [ER Hnc]. rewrite Ec.
  split; [|done]. rewrite lookup_insert_ne; [done|]. intros ->. apply Hp, elem_of_union_r, elem_of_dom. eauto.
Qed.
End frames.

(** ** The kernel's allocator behind the interface *)

Section kalloc_pages.
Context {W C : Type} `{!ListOps fl_head Z W, !ListHeap fl_head Z W}.
Context (NCPU : Z) (HN : 0 < NCPU <= NPAGES).
Context (HS : gset fl_head) (XS : gset Z).
Context `{RC : !Reclaimer (W := W) (C := C)} (cached : C -> gset Z) (ROK : ReclaimerOk NCPU HS XS cached).
Context (id : Z) (Hid : cpu_range NCPU id).

Definition kalloc_pages : PageAlloc (kstate W C) := {|
  pa_kmalloc := kmalloc NCPU id;
  pa_kfree := kfree NCPU;
  pa_share := share_page
|}.

Definition kalloc_rep (ks : kstate W C) (R : gmap Z (Z * Z)) : Prop :=
  (exists L, krep NCPU HS XS ks L R) /\ 0 <= recycling ks < 2 ^ 30 /\ cached (fsst ks) ⊆ dom R.

Lemma drop_ref_dom p (R : gmap Z (Z * Z)) (X : gset Z) : p ∉ X -> X ⊆ dom R -> X ⊆ dom (drop_ref p R).
Proof.
  intros Hp HX q Hq. rewrite elem_of_dom, drop_ref_ne by (intros ->; done). by apply elem_of_dom, HX.
Qed.

Program Definition kalloc_pages_ok : PageAllocOk (kstate W C) (PageAlloc0 := kalloc_pages) := {|
  pa_rep := kalloc_rep;
  pa_cached ks := cached (fsst ks)
|}.
Next Obligation. intros ks R ([L K] & _). by eapply krep_apart. Qed.
Next Obligation.
  intros ks R p o n ([L K] & _) E. destruct (kr_range _ _ _ _ _ _ K _ _ _ E) as [_ ?].
  destruct (krep_block _ HN _ _ _ _ _ _ _ _ K E) as (j & Hj & _ & [Ho _] & Hb).
  pose proof (pow2_pos o Ho). pose proof (ppc_pos NCPU HN).
  pose proof (pool_page_range NCPU HN j (p + 2 ^ o - 1) Hj) as Hr1.
  pose proof (pool_page_range NCPU HN j p Hj) as Hr2.
  destruct Hb as (Hb1 & Hb2 & _). unfold in_pool in *. lia.
Qed.
Next Obligation.
  intros ks R size ([L K] & Hrec & Hc) Hs.
  assert (exists o, (if size <=? PGSIZE then Done 0 else size_to_page_order size) = Done o /\
    least_order size o /\ BUDDY_ORDERS o) as (o & Eo & Hl & Ho) by (by apply order_of_size).
  destruct (alloc_block_ok NCPU HN HS XS cached ks L R id o K Hid Ho Hc Hrec) as (r & ks' & E & Er & Ha).
  exists o, r, ks'. cbn [pa_kmalloc kalloc_pages]. unfold kmalloc. rewrite Eo. ocbn.
  split_and!; [done..|]. destruct r as [pa|]; [|by destruct Ha].
  destruct Ha as (p & L' & R' & -> & _ & Hdis & K' & Ep & Hk & Hc1 & Hc2).
  assert (R !! p = None) as Hn.
  { destruct (R !! p) as [[r n]|] eqn:Er'; [|done]. exfalso. apply (Hdis p r n Er').
    destruct (krep_block _ HN _ _ _ _ _ _ _ _ K Er') as (_ & _ & _ & [Hr _] & _).
    pose proof (pow2_pos r Hr). pose proof (pow2_pos o (proj1 Ho)). unfold meets. lia. }
  exists p, R'. split_and!; try done.
  - split_and!; [by exists L'|rewrite Er; lia|rewrite Er; lia|done].
  - intros Hp%Hc1%Hc%elem_of_dom. rewrite Hn in Hp. by destruct Hp.
Qed.
Next Obligation.
  intros ks R p o n ([L K] & Hrec & Hc) E Hp.
  destruct (kfree_ok NCPU HN HS XS ks L R p o n K E) as (ks' & L' & Ek & K' & Er & Ef).
  exists ks'. split_and!; [done| |by rewrite Ef]. split_and!; [by exists L'|rewrite Er; lia|rewrite Er; lia|].
  rewrite Ef. by apply drop_ref_dom.
Qed.
Next Obligation.
  intros ks R p o n ([L K] & Hrec & Hc) E _ Hn.
  destruct (share_page_ok NCPU HN HS XS ks L R p o n K E Hn) as (ks' & Ek & K' & Er & Ef).
  exists ks'. split_and!; [done| |by rewrite Ef]. split_and!; [by exists L|rewrite Er; lia|rewrite Er; lia|].
  rewrite Ef, dom_insert. set_solver.
Qed.
End kalloc_pages.

(** ** A small allocator

    Single pages, four of them to give: the instance the concrete examples use. *)

Definition spare_list : list Z := [4; 5; 6; 7].
Definition spare : Type := gmap Z (Z * Z).

#[export] Instance spare_pages : PageAlloc spare := {|
  pa_kmalloc size a :=
    if size <=? PGSIZE then
      match filter (fun p => a !! p = None) spare_list with
      | p :: _ => Done (Some (page_to_pa p), <[p := (0, 1)]> a)
      | [] => Done (None, a)
      end
    else Done (None, a);
  pa_kfree pa a := p ← pa_to_page pa; Done (drop_ref p a);
  pa_share pa a :=
    p ← pa_to_page pa;
    Done (match a !! p with Some (o, n) => <[p := (o, n + 1)]> a | None => a end)
|}.

Definition spare_rep (a : spare) (R : gmap Z (Z * Z)) : Prop :=
  a = R /\ forall p o n, R !! p = Some (o, n) -> o = 0 /\ 0 <= p < NPAGES /\ 1 <= n.

Lemma meets_pages p q : meets p 0 q 0 -> p = q.
Proof. unfold meets. change (2 ^ 0) with 1. lia. Qed.

#[export] Program Instance spare_pages_ok : PageAllocOk spare := {|
  pa_rep := spare_rep; pa_cached _ := ∅
|}.
Next Obligation.
  intros a R [_ H] p o n q r m Ep Eq. destruct (H _ _ _ Ep) as [-> _], (H _ _ _ Eq) as [-> _]. apply meets_pages.
Qed.
Next Obligation.
  intros a R p o n [_ H] E. destruct (H _ _ _ E) as (-> & ? & ?). change (2 ^ 0) with 1. lia.
Qed.
Next Obligation.
  intros a R size [-> H] Hs. destruct (order_of_size size Hs) as (o & _ & Hl & _). cbn [pa_kmalloc spare_pages].
  destruct (Z.leb_spec size PGSIZE) as [Hle|]; [|by exists o, None, R].
  destruct (filter _ spare_list) as [|x l] eqn:Ef; [by exists o, None, R|].
  assert (x ∈ filter (fun p => R !! p = None) spare_list) as [Ex Hin]%list_elem_of_filter by (rewrite Ef; by left).
  assert (0 <= x < NPAGES) as Hx by (change NPAGES with 251904; unfold spare_list in Hin; set_solver by lia).
  apply least_order_small in Hl as Ho; [|lia]. subst o.
  eexists 0, (Some (page_to_pa x)), _. split; [done|]. split; [done|]. exists x, (<[x := (0, 1)]> R).
  split_and!; try done.
  - intros q r n Eq. destruct (H _ _ _ Eq) as (-> & _). intros ->%meets_pages. congruence.
  - split; [done|]. intros p o n. destruct (decide (x = p)) as [<-|].
    + rewrite lookup_insert_eq. intros [= <- <-]. lia.
    + rewrite lookup_insert_ne by done. apply H.
  - apply lookup_insert_eq.
  - intros q Hq _. by rewrite lookup_insert_ne.
Qed.
Next Obligation.
  intros a R p o n [-> H] E Hp. destruct (H _ _ _ E) as (-> & Hr & Hn). cbn [pa_kfree spare_pages].
  rewrite page_to_pa_to_page by done. ocbn. eexists. split; [done|]. split; [|done]. split; [done|].
  intros q o' n'. destruct (decide (p = q)) as [<-|Hne]; [|rewrite drop_ref_ne by done; apply H].
  unfold drop_ref. rewrite E. destruct (Z.ltb_spec 1 n).
  - rewrite lookup_insert_eq. intros [= <- <-]. lia.
  - by rewrite lookup_delete_eq.
Qed.
Next Obligation.
  intros a R p o n [-> H] E _ Hn. destruct (H _ _ _ E) as (-> & Hr & Hn1). cbn [pa_share spare_pages].
  rewrite page_to_pa_to_page by done. ocbn. rewrite E. eexists. split; [done|]. split; [|done]. split; [done|].
  intros q o' n'. destruct (decide (p = q)) as [<-|Hne].
  - rewrite lookup_insert_eq. intros [= <- <-]. lia.
  - rewrite lookup_insert_ne by done. apply H.
Qed.

(** How many pages it has left; an allocation takes one, a release takes none. *)
Definition left_over (a : spare) : nat := length (filter (fun p => a !! p = None) spare_list).

Lemma left_over_mono p (a a' : spare) : (forall q, q <> p -> a' !! q = None <-> a !! q = None) ->
  (left_over a <= left_over a' + 1)%nat.
Proof.
  intros H. unfold left_over, spare_list.
  assert (forall l : list Z, p ∉ l -> filter (fun q => a' !! q = None) l = filter (fun q => a !! q = None) l) as Hl.
  { intros l Hp. induction l as [|q l IH]; [done|]. apply not_elem_of_cons in Hp as [Hq Hp].
    rewrite !filter_cons. specialize (H q (not_eq_sym Hq)). repeat case_decide; try tauto; by rewrite IH. }
  assert (forall l : list Z, NoDup l ->
    length (filter (fun q => a !! q = None) l) <= length (filter (fun q => a' !! q = None) l) + 1)%nat as Hn.
  { intros l. induction l as [|q l IH]; intros Hnd; [cbn; lia|]. apply NoDup_cons in Hnd as [Hq Hnd].
    destruct (decide (q = p)) as [->|Hne].
    - pose proof (Hl l Hq) as E. rewrite !filter_cons. rewrite E. repeat case_decide; cbn [length]; try lia.
    - specialize (IH Hnd). specialize (H q Hne). rewrite !filter_cons. repeat case_decide; try tauto; cbn [length]; lia. }
  apply Hn. repeat constructor; set_solver by lia.
Qed.

Lemma drop_ref_unused (p q : Z) (R : gmap Z (Z * Z)) : R !! q = None -> drop_ref p R !! q = None.
Proof.
  intros Hn. destruct (decide (q = p)) as [->|]; [|by rewrite drop_ref_ne].
  unfold drop_ref. by rewrite Hn.
Qed.

Lemma uses_spare n (a a' : spare) : uses PGSIZE n a a' -> (left_over a <= left_over a' + n)%nat.
Proof.
  intros U. induction U as [|n a size p a1 a2 _ E _ IH|n a p a1 a2 E _ IH]; [lia| |].
  - cbn [pa_kmalloc spare_pages] in E. destruct (size <=? PGSIZE); [|done].
    destruct (filter _ spare_list) as [|x l]; [done|]. injection E as _ E.
    assert (left_over a <= left_over a1 + 1)%nat; [|lia].
    apply (left_over_mono x). intros q Hq.
    assert (a1 !! q = a !! q) as ->; [|done]. subst a1. by apply lookup_insert_ne.
  - cbn [pa_kfree spare_pages] in E. apply bind_Done in E as (x & _ & [= E]).
    assert (left_over a <= left_over a1)%nat; [|lia]. rewrite <- E. unfold left_over. apply submseteq_length, sublist_submseteq.
    induction spare_list as [|q l IHl]; [constructor|]. rewrite !filter_cons.
    destruct (decide (a !! q = None)) as [Hn|Hn].
    + pose proof (drop_ref_unused x q a Hn) as Hd. rewrite decide_True by done. by constructor.
    + case_decide; [by constructor|done].
Qed.

Lemma spare_not_dry n (a : spare) : (n <= left_over a)%nat -> ~ dry PGSIZE n a.
Proof.
  intros Hn (m & a' & size & Hm & U & Hs & E). apply uses_spare in U. cbn [pa_kmalloc spare_pages] in E.
  rewrite (proj2 (Z.leb_le _ _) Hs) in E.
  match type of E with context [filter ?P spare_list] => destruct (filter P spare_list) eqn:Ef end; [|discriminate E].
  assert (left_over a' = 0%nat) by exact (f_equal length Ef). lia.
Qed.

Definition demo_pages : gset Z := set_map page_to_pa (list_to_set (seqZ 0 NPAGES) : gset Z).

Lemma demo_pages_elem q : 0 <= q < NPAGES -> page_to_pa q ∈ demo_pages.
Proof.
  intros Hq. apply elem_of_map. exists q. split; [done|].
  apply elem_of_list_to_set, elem_of_seqZ. lia.
Qed.

(** Page 3 is in use: it holds the value of the examples. *)
Definition demo_used : spare := {[3 := (0, 1)]}.

Lemma demo_used_rep : pa_rep demo_used demo_used.
Proof.
  split; [reflexivity|]. intros p o n. unfold demo_used. change NPAGES with 251904.
  rewrite lookup_singleton_Some. intros [<- [= <- <-]]. lia.
Qed.
