(* ===== verification/PageTable.v ===== *)
(** * PageTable: Sv39 page tables in physical memory

    The page-table routines of [src/mm/vm.c] with the PTE macros of
    [include/lib/riscv.h].  A page table is what it is in the kernel: pages of
    512 little-endian 64-bit entries in byte memory, reached from the physical
    address of the root.  Tables and user pages come from the page allocator,
    used through the class [PageAlloc] of the file of that name.

    The theorems see the tables through [pt_ok], the ghost tree of table pages,
    and [leaf_of], the entry an address is translated by. *)

From stdpp Require Import base gmap sets list fin_maps.
From Stdlib Require Import ZArith Lia.
From S2P Require Import Prelude KList Buddy Kstring Pmem Kalloc PageAlloc.
#[local] Open Scope Z_scope.

(** ** Page-table entries *)

Definition PTE_V : Z := 2 ^ 0.
Definition PTE_R : Z := 2 ^ 1.
Definition PTE_W : Z := 2 ^ 2.
Definition PTE_X : Z := 2 ^ 3.
Definition PTE_U : Z := 2 ^ 4.
Definition PTE_D : Z := 2 ^ 7.
Definition PTE_SHARE : Z := 2 ^ 8.
Definition PTE_READONLY : Z := 2 ^ 9.

Definition PA2PTE (pa : Z) : Z := u64 (Z.shiftl (Z.shiftr pa 12) 10).
Definition PTE2PA (pte : Z) : Z := u64 (Z.shiftl (Z.shiftr pte 10) 12).
Definition PTE_FLAGS (pte : Z) : Z := Z.land pte 0x3FF.
Definition PN (level va : Z) : Z := Z.land (Z.shiftr va (12 + 9 * level)) 0x1FF.
Definition MAXVA : Z := 2 ^ (9 + 9 + 9 + 12 - 1).

(** [pte & flag] as a condition. *)
Definition has (pte flag : Z) : bool := negb (Z.land pte flag =? 0).

Definition LEVELS : Z := 3.
Definition COMMONPAGE : Z := 0.
Definition SUPERPAGE : Z := 1.

Section ops.
Context {A : Type} `{!PageAlloc A}.

(** Physical memory and the allocator's state. *)
Record ptstate := PS { pm : mem; al : A }.

Definition with_pm (m : mem) (s : ptstate) : ptstate := PS m (al s).
Definition with_al (a : A) (s : ptstate) : ptstate := PS (pm s) a.

Definition rd (a : Z) (s : ptstate) : outcome Z := load64 (pm s) a.
Definition wr (a v : Z) (s : ptstate) : outcome ptstate :=
  m ← store64 a v (pm s); Done (with_pm m s).

(** [kzalloc]: allocate and clear. *)
Definition zalloc (size : Z) (s : ptstate) : outcome (option Z * ptstate) :=
  '(r, a) ← pa_kmalloc size (al s);
  match r with
  | None => Done (None, with_al a s)
  | Some pa => m ← memset pa 0 size (pm s); Done (Some pa, PS m a)
  end.

Definition free (pa : Z) (s : ptstate) : outcome ptstate :=
  a ← pa_kfree pa (al s); Done (with_al a s).

(** [walk]: the loop over the levels above [lowlevel]; [n] levels are left.
    The result is the return value and the address stored in [*pte]. *)
Fixpoint walk_loop (n : nat) (pagetable va : Z) (alloc : bool) (lowlevel : Z) (s : ptstate)
    : outcome (Z * option Z * ptstate) :=
  match n with
  | O => Done (0, Some (pagetable + 8 * PN lowlevel va), s)
  | S n' =>
      let level := lowlevel + Z.of_nat n in
      let pte_tmp := pagetable + 8 * PN level va in
      v ← rd pte_tmp s;
      if has v PTE_V then
        if has v PTE_R || has v PTE_X
        then ASSERT (level =? 1);; Done (level, Some pte_tmp, s)
        else walk_loop n' (PTE2PA v) va alloc lowlevel s
      else if negb alloc then Done (-1, None, s)
      else
        '(r, s) ← zalloc PGSIZE s;
        match r with
        | None => Done (-1, None, s)
        | Some pt =>
            s ← wr pte_tmp (Z.lor (PA2PTE pt) PTE_V) s;
            walk_loop n' pt va alloc lowlevel s
        end
  end.

Definition walk (pagetable va : Z) (alloc : bool) (lowlevel : Z) (s : ptstate)
    : outcome (Z * option Z * ptstate) :=
  if MAXVA <=? va then Panic
  else walk_loop (Z.to_nat (LEVELS - 1 - lowlevel)) pagetable va alloc lowlevel s.

(** 0 stands for "not mapped". *)
Definition walkaddr (pagetable va : Z) (s : ptstate) : outcome Z :=
  if MAXVA <=? va then Done 0
  else
    '(level, pte, _) ← walk pagetable va false 0 s;
    ASSERT (level <=? 1);;
    match pte with
    | None => Done 0
    | Some p =>
        v ← rd p s;
        if negb (has v PTE_V) then Done 0
        else if negb (has v PTE_U) then Done 0
        else
          let pa := PTE2PA v in
          if level =? COMMONPAGE then Done pa
          else if level =? SUPERPAGE
          then Done (u64 (pa + (PGROUNDDOWN va - SUPERPG_DOWN va)))
          else Panic
    end.

Definition getphyaddr (pagetable va : Z) (s : ptstate) : outcome Z :=
  let aligned_va := PGROUNDDOWN va in
  aligned_pa ← walkaddr pagetable va s;
  if aligned_pa =? 0 then Done 0 else Done (u64 (aligned_pa + (va - aligned_va))).

(** [mappages]: the loop from [a] to [last]. *)
Fixpoint map_loop (fuel : nat) (pagetable a last pa perm pgsize lowlevel : Z) (s : ptstate)
    : outcome (Z * ptstate) :=
  match fuel with
  | O => NoFuel
  | S f =>
      '(_, pte, s) ← walk pagetable a true lowlevel s;
      match pte with
      | None => Done (-1, s)
      | Some p =>
          v ← rd p s;
          if has v PTE_V then Panic
          else
            s ← wr p (Z.lor (Z.lor (PA2PTE pa) perm) PTE_V) s;
            if a =? last then Done (0, s)
            else map_loop f pagetable (u64 (a + pgsize)) last (u64 (pa + pgsize)) perm pgsize lowlevel s
      end
  end.

Definition mappages (pagetable va size pa perm lowlevel : Z) (s : ptstate) : outcome (Z * ptstate) :=
  if size =? 0 then Panic
  else if lowlevel =? 0 then
    let a := PGROUNDDOWN va in
    let last := PGROUNDDOWN (u64 (va + size - 1)) in
    map_loop (S (Z.to_nat ((last - a) / PGSIZE))) pagetable a last pa perm PGSIZE 0 s
  else if lowlevel =? 1 then
    ASSERT (va mod SUPERPGSIZE =? 0);;
    let a := SUPERPG_DOWN va in
    let last := SUPERPG_DOWN (u64 (va + size - 1)) in
    map_loop (S (Z.to_nat ((last - a) / SUPERPGSIZE))) pagetable a last pa perm SUPERPGSIZE 1 s
  else Panic.

Definition kvmmap (kpgtbl va pa sz perm lowlevel : Z) (s : ptstate) : outcome ptstate :=
  '(r, s) ← mappages kpgtbl va sz pa perm lowlevel s;
  if negb (r =? 0) then Panic else Done s.

(** [uvmunmap]: the loop; [grow] is [uvmalloc], which puts back the part of a
    superpage below the first address unmapped. *)
Fixpoint unmap_loop (grow : Z -> Z -> Z -> Z -> ptstate -> outcome (Z * ptstate))
    (fuel : nat) (pagetable va endva a : Z) (do_free on_demand : bool) (s : ptstate)
    : outcome ptstate :=
  match fuel with
  | O => NoFuel
  | S f =>
      if negb (a <? endva) then Done s
      else
        '(level, pte, _) ← walk pagetable a false 0 s;
        match pte with
        | None =>
            if on_demand then unmap_loop grow f pagetable va endva (u64 (a + PGSIZE)) do_free on_demand s
            else Panic
        | Some p =>
            v ← rd p s;
            if negb (has v PTE_V) then
              if on_demand then unmap_loop grow f pagetable va endva (u64 (a + PGSIZE)) do_free on_demand s
              else Panic
            else if PTE_FLAGS v =? PTE_V then Panic
            else
              ASSERT (level <=? 1);;
              s ← (if (do_free : bool) then free (PTE2PA v) s else Done s);
              v ← rd p s;
              let pte_flags := PTE_FLAGS v in
              s ← wr p 0 s;
              if level =? SUPERPAGE then
                s ← (if negb (a =? SUPERPG_DOWN a) && (a =? va)
                     then '(_, s) ← grow pagetable (SUPERPG_DOWN a) a pte_flags s; Done s
                     else Done s);
                unmap_loop grow f pagetable va endva
                  (u64 (a + (SUPERPGSIZE - PGSIZE) + PGSIZE)) do_free on_demand s
              else unmap_loop grow f pagetable va endva (u64 (a + PGSIZE)) do_free on_demand s
        end
  end.

(** [uvmalloc]: one of its three loops, mapping fresh blocks of [pgsize]. *)
Fixpoint alloc_loop (shrink : Z -> Z -> Z -> ptstate -> outcome (Z * ptstate))
    (fuel : nat) (pagetable startva a stop pgsize perm lowlevel : Z) (s : ptstate)
    : outcome (bool * ptstate) :=
  match fuel with
  | O => NoFuel
  | S f =>
      if negb (a <? stop) then Done (true, s)
      else
        '(r, s) ← zalloc pgsize s;
        match r with
        | None => '(_, s) ← shrink pagetable a startva s; Done (false, s)
        | Some pa =>
            '(e, s) ← mappages pagetable a pgsize pa (Z.lor (Z.lor PTE_R PTE_U) perm) lowlevel s;
            if negb (e =? 0) then
              s ← free pa s;
              '(_, s) ← shrink pagetable a startva s;
              Done (false, s)
            else alloc_loop shrink f pagetable startva (u64 (a + pgsize)) stop pgsize perm lowlevel s
        end
  end.

Definition uvmdealloc_with (unmap : Z -> Z -> Z -> bool -> bool -> ptstate -> outcome ptstate)
    (pagetable oldsz newsz : Z) (s : ptstate) : outcome (Z * ptstate) :=
  if oldsz <=? newsz then Done (oldsz, s)
  else
    s ← (if PGROUNDUP newsz <? PGROUNDUP oldsz then
           let npages := s32 ((PGROUNDUP oldsz - PGROUNDUP newsz) / PGSIZE) in
           unmap pagetable (PGROUNDUP newsz) (u64 npages) true false s
         else Done s);
    Done (newsz, s).

(** Iterations of a loop that steps from [a] to [b]. *)
Definition steps (a b sz : Z) : nat := S (S (Z.to_nat ((b - a) / sz))).

(** [uvmunmap] and [uvmalloc] call each other: unmapping the end of a superpage
    maps its beginning again, and a failed [uvmalloc] unmaps what it mapped. *)
Fixpoint uvmunmap (d : nat) (pagetable va npages : Z) (do_free on_demand : bool) (s : ptstate)
    : outcome ptstate :=
  match d with
  | O => NoFuel
  | S d =>
      if negb (va mod PGSIZE =? 0) then Panic
      else
        let endva := u64 (va + npages * PGSIZE) in
        unmap_loop (uvmalloc d) (steps va endva PGSIZE) pagetable va endva va do_free on_demand s
  end
with uvmalloc (d : nat) (pagetable startva endva perm : Z) (s : ptstate) : outcome (Z * ptstate) :=
  match d with
  | O => NoFuel
  | S d =>
      let shrink := uvmdealloc_with (uvmunmap d) in
      if endva <? startva then Done (startva, s)
      else
        let aligned_sz := PGROUNDUP startva in
        let super_aligned_sz := SUPERPG_ROUNDUP startva in
        let min := if endva <=? super_aligned_sz then endva else super_aligned_sz in
        '(ok, s) ← alloc_loop shrink (steps aligned_sz min PGSIZE) pagetable startva
                     aligned_sz min PGSIZE perm COMMONPAGE s;
        if negb (ok : bool) then Done (0, s)
        else if endva <=? super_aligned_sz then ASSERT (min =? endva);; Done (endva, s)
        else
          let newsz_down := SUPERPG_DOWN endva in
          '(ok, s) ← alloc_loop shrink (steps super_aligned_sz newsz_down SUPERPGSIZE) pagetable
                       startva super_aligned_sz newsz_down SUPERPGSIZE perm SUPERPAGE s;
          if negb (ok : bool) then Done (0, s)
          else
            '(ok, s) ← alloc_loop shrink (steps newsz_down endva PGSIZE) pagetable startva
                         newsz_down endva PGSIZE perm COMMONPAGE s;
            if negb (ok : bool) then Done (0, s) else Done (endva, s)
  end.

(** The nesting is never deeper than this. *)
Definition UVM_DEPTH : nat := 4.

Definition uvmdealloc (pagetable oldsz newsz : Z) (s : ptstate) : outcome (Z * ptstate) :=
  uvmdealloc_with (uvmunmap UVM_DEPTH) pagetable oldsz newsz s.

Definition uvmcreate (s : ptstate) : outcome (option Z * ptstate) := zalloc PGSIZE s.

(** [freewalk]: [n] bounds the depth of the tree, three levels at most. *)
Fixpoint freewalk_entries (child : Z -> ptstate -> outcome ptstate) (k : nat) (pagetable i : Z)
    (s : ptstate) : outcome ptstate :=
  match k with
  | O => Done s
  | S k =>
      pte ← rd (pagetable + 8 * i) s;
      if has pte PTE_V && (Z.land pte (Z.lor (Z.lor PTE_R PTE_W) PTE_X) =? 0) then
        s ← child (PTE2PA pte) s;
        s ← wr (pagetable + 8 * i) 0 s;
        freewalk_entries child k pagetable (i + 1) s
      else if has pte PTE_V then Panic
      else freewalk_entries child k pagetable (i + 1) s
  end.

Fixpoint freewalk (n : nat) (pagetable : Z) (s : ptstate) : outcome ptstate :=
  match n with
  | O => NoFuel
  | S n =>
      s ← freewalk_entries (freewalk n) 512 pagetable 0 s;
      if pagetable =? 0 then Done s else free pagetable s
  end.

Definition uvmclear (pagetable va : Z) (s : ptstate) : outcome ptstate :=
  '(_, pte, _) ← walk pagetable va false 0 s;
  match pte with
  | None => Panic
  | Some p => v ← rd p s; wr p (Z.ldiff v PTE_U) s
  end.

(** [copyin]: at most one page per round. *)
Fixpoint copyin_loop (fuel : nat) (pagetable dst srcva len : Z) (s : ptstate)
    : outcome (Z * ptstate) :=
  match fuel with
  | O => NoFuel
  | S f =>
      if negb (0 <? len) then Done (0, s)
      else
        let va0 := PGROUNDDOWN srcva in
        pa0 ← walkaddr pagetable va0 s;
        if pa0 =? 0 then Done (-1, s)
        else
          let n := PGSIZE - (srcva - va0) in
          let n := if len <? n then len else n in
          m ← memmove dst (u64 (pa0 + (srcva - va0))) n (pm s);
          copyin_loop f pagetable (dst + n) (u64 (va0 + PGSIZE)) (len - n) (with_pm m s)
  end.

Definition copyin (pagetable dst srcva len : Z) (s : ptstate) : outcome (Z * ptstate) :=
  copyin_loop (steps 0 len PGSIZE) pagetable dst srcva len s.

(** [copyinstr]: the inner loop over the bytes of one page. *)
Fixpoint copyinstr_page (n : nat) (p dst max : Z) (m : mem) : outcome (bool * Z * Z * mem) :=
  match n with
  | O => Done (false, dst, max, m)
  | S n =>
      x ← load m p;
      if x =? 0 then m ← store dst 0 m; Done (true, dst, max, m)
      else m ← store dst x m; copyinstr_page n (p + 1) (dst + 1) (max - 1) m
  end.

Fixpoint copyinstr_loop (fuel : nat) (pagetable dst srcva max : Z) (s : ptstate)
    : outcome (Z * ptstate) :=
  match fuel with
  | O => NoFuel
  | S f =>
      if negb (0 <? max) then Done (-1, s)
      else
        let va0 := PGROUNDDOWN srcva in
        pa0 ← walkaddr pagetable va0 s;
        if pa0 =? 0 then Done (-1, s)
        else
          let n := PGSIZE - (srcva - va0) in
          let n := if max <? n then max else n in
          '(got_null, dst, max, m) ←
             copyinstr_page (Z.to_nat n) (u64 (pa0 + (srcva - va0))) dst max (pm s);
          if (got_null : bool) then Done (0, with_pm m s)
          else copyinstr_loop f pagetable dst (u64 (va0 + PGSIZE)) max (with_pm m s)
  end.

Definition copyinstr (pagetable dst srcva max : Z) (s : ptstate) : outcome (Z * ptstate) :=
  copyinstr_loop (steps 0 max PGSIZE) pagetable dst srcva max s.

(** [uvm_thread_stack]: the page taken for the guard is not mapped. *)
Definition USTACK_PAGE : Z := 10.
Definition USTACK : Z := MAXVA - 512 * 10 * PGSIZE - USTACK_PAGE * PGSIZE.
Definition TRAMPOLINE : Z := MAXVA - PGSIZE.
Definition SIGRETURN : Z := TRAMPOLINE - PGSIZE.
Definition TRAPFRAME : Z := SIGRETURN - PGSIZE.

Definition uvm_thread_stack (pagetable ustack_page : Z) (s : ptstate) : outcome (Z * ptstate) :=
  '(pa, s) ← zalloc PGSIZE s;
  match pa with
  | None => Done (-1, s)
  | Some _ =>
      '(r, s) ← uvmalloc UVM_DEPTH pagetable USTACK (USTACK + ustack_page * PGSIZE)
                  (Z.lor PTE_W PTE_R) s;
      if r =? 0 then Done (-1, s) else Done (0, s)
  end.

(** A NULL page ([kzalloc] failed) is mapped all the same. *)
Definition uvm_thread_trapframe (pagetable thread_idx : Z) (s : ptstate)
    : outcome (option Z * ptstate) :=
  '(pa, s) ← zalloc PGSIZE s;
  let pa := default 0 pa in
  '(r, s) ← mappages pagetable (TRAPFRAME - thread_idx * PGSIZE) PGSIZE pa (Z.lor PTE_R PTE_W) 0 s;
  if r <? 0 then s ← free pa s; Done (None, s) else Done (if pa =? 0 then None else Some pa, s).

(** [proc_pagetable] of [src/proc/pcb_mm.c]; the addresses of the trampoline
    and of the signal-return code are link-time constants. *)
Definition proc_pagetable (trampoline user_rt_sigreturn : Z) (s : ptstate)
    : outcome (option Z * ptstate) :=
  '(r, s) ← uvmcreate s;
  match r with
  | None => Done (None, s)
  | Some pagetable =>
      '(e, s) ← mappages pagetable TRAMPOLINE PGSIZE trampoline (Z.lor PTE_R PTE_X) 0 s;
      if e <? 0 then s ← freewalk 3 pagetable s; Done (None, s)
      else
        '(e, s) ← mappages pagetable SIGRETURN PGSIZE user_rt_sigreturn
                    (Z.lor (Z.lor PTE_R PTE_X) PTE_U) 0 s;
        if e <? 0 then
          s ← uvmunmap UVM_DEPTH pagetable TRAMPOLINE 1 false false s;
          s ← freewalk 3 pagetable s; Done (None, s)
        else Done (Some pagetable, s)
  end.
End ops.
Arguments ptstate : clear implicits.

(** ** Bits of an entry *)

Lemma has_testbit v k : 0 <= k -> has v (2 ^ k) = Z.testbit v k.
Proof.
  intros Hk. unfold has. assert (Z.land v (2 ^ k) = if Z.testbit v k then 2 ^ k else 0) as ->.
  { apply Z.bits_inj'. intros i Hi. rewrite Z.land_spec, Z.pow2_bits_eqb by done.
    destruct (Z.eqb_spec k i) as [->|Hne].
    - rewrite andb_true_r. destruct (Z.testbit v i) eqn:E; [|by rewrite Z.bits_0].
      by rewrite Z.pow2_bits_true.
    - rewrite andb_false_r. destruct (Z.testbit v k); [|by rewrite Z.bits_0].
      by rewrite Z.pow2_bits_false by lia. }
  pose proof (pow2_pos k Hk). destruct (Z.testbit v k); [|done].
  apply negb_true_iff, Z.eqb_neq. lia.
Qed.

Lemma lor_disjoint x f n : 0 <= n -> 0 <= f < 2 ^ n -> Z.lor (x * 2 ^ n) f = x * 2 ^ n + f.
Proof.
  intros Hn Hf. rewrite <- Z.lxor_lor, Z.add_nocarry_lxor; try done.
  all: apply Z.bits_inj'; intros i Hi; rewrite Z.land_spec, Z.bits_0.
  all: destruct (Z.lt_ge_cases i n);
    [by rewrite Z.mul_pow2_bits_low|rewrite <- (Z.mod_small f (2 ^ n)), Z.mod_pow2_bits_high by lia;
     by rewrite andb_false_r].
Qed.

Definition is_page (pa : Z) : Prop := 0 <= pa < 2 ^ 56 /\ pa mod 4096 = 0.

(** An entry is its page number above ten flag bits. *)
Lemma pte_make pa f : is_page pa -> 0 <= f < 1024 -> Z.lor (PA2PTE pa) f = pa / 4096 * 1024 + f.
Proof.
  intros [Hpa Hal] Hf. unfold PA2PTE. rewrite Z.shiftr_div_pow2, Z.shiftl_mul_pow2 by lia.
  change (2 ^ 12) with 4096. change (2 ^ 10) with 1024.
  rewrite u64_small; [apply (lor_disjoint _ _ 10); lia|].
  pose proof (Z.div_lt_upper_bound pa 4096 (2 ^ 44) ltac:(lia) ltac:(lia)).
  pose proof (Z.div_pos pa 4096 ltac:(lia) ltac:(lia)). lia.
Qed.

Lemma pte_range pa f : is_page pa -> 0 <= f < 1024 -> 0 <= Z.lor (PA2PTE pa) f < 2 ^ 64.
Proof.
  intros Hp Hf. rewrite pte_make by done. destruct Hp as [Hpa _].
  pose proof (Z.div_lt_upper_bound pa 4096 (2 ^ 44) ltac:(lia) ltac:(lia)).
  pose proof (Z.div_pos pa 4096 ltac:(lia) ltac:(lia)). lia.
Qed.

Lemma pte_pa pa f : is_page pa -> 0 <= f < 1024 -> PTE2PA (Z.lor (PA2PTE pa) f) = pa.
Proof.
  intros Hp Hf. rewrite pte_make by done. unfold PTE2PA.
  rewrite Z.shiftr_div_pow2, Z.shiftl_mul_pow2 by lia.
  change (2 ^ 12) with 4096. change (2 ^ 10) with 1024.
  rewrite Z.div_add_l, (Z.div_small f) by lia. destruct Hp as [Hpa Hal].
  pose proof (Z_div_mod_eq_full pa 4096). rewrite u64_small by lia. lia.
Qed.

Lemma pte_flags pa f : is_page pa -> 0 <= f < 1024 -> PTE_FLAGS (Z.lor (PA2PTE pa) f) = f.
Proof.
  intros Hp Hf. rewrite pte_make by done. unfold PTE_FLAGS. change 0x3FF with (Z.ones 10).
  rewrite Z.land_ones by lia. change (2 ^ 10) with 1024.
  rewrite Z.add_comm, Z.mod_add by lia. apply Z.mod_small. lia.
Qed.

Lemma flags_bits v k : 0 <= k < 10 -> Z.testbit (PTE_FLAGS v) k = Z.testbit v k.
Proof.
  intros Hk. unfold PTE_FLAGS. change 0x3FF with (Z.ones 10).
  rewrite Z.land_spec, Z.ones_spec_low by lia. apply andb_true_r.
Qed.

Lemma pte_has pa f k : is_page pa -> 0 <= f < 1024 -> 0 <= k < 10 ->
  has (Z.lor (PA2PTE pa) f) (2 ^ k) = Z.testbit f k.
Proof.
  intros Hp Hf Hk. rewrite has_testbit by lia.
  rewrite <- flags_bits by done. by rewrite pte_flags.
Qed.

Lemma lor_flags f g : 0 <= f < 1024 -> 0 <= g < 1024 -> 0 <= Z.lor f g < 1024.
Proof.
  intros Hf Hg. split; [apply Z.lor_nonneg; lia|].
  destruct (Z.eq_dec (Z.lor f g) 0) as [->|Hne]; [lia|].
  apply (Z.log2_lt_pow2 _ 10).
  { assert (0 <= Z.lor f g) by (apply Z.lor_nonneg; lia). lia. }
  rewrite Z.log2_lor by lia. apply Z.max_lub_lt.
  - destruct (Z.eq_dec f 0) as [->|]; [done|]. apply Z.log2_lt_pow2; lia.
  - destruct (Z.eq_dec g 0) as [->|]; [done|]. apply Z.log2_lt_pow2; lia.
Qed.

(** ** Indices of a virtual address *)

(** The number of the level-[l] table that translates [va]. *)
Definition tabno (l va : Z) : Z := va / 2 ^ (21 + 9 * l).

Lemma PN_alt l va : 0 <= l -> PN l va = (va / 2 ^ (12 + 9 * l)) mod 512.
Proof.
  intros Hl. unfold PN. change 0x1FF with (Z.ones 9).
  rewrite Z.land_ones, Z.shiftr_div_pow2 by lia. done.
Qed.

Lemma PN_range l va : 0 <= l -> 0 <= PN l va < 512.
Proof. intros. rewrite PN_alt by done. by apply Z.mod_pos_bound. Qed.

Lemma tabno_step l va : 1 <= l -> tabno (l - 1) va = 512 * tabno l va + PN l va.
Proof.
  intros Hl. rewrite PN_alt by lia. unfold tabno.
  replace (21 + 9 * (l - 1)) with (12 + 9 * l) by lia.
  replace (2 ^ (21 + 9 * l)) with (2 ^ (12 + 9 * l) * 512).
  - rewrite <- Z.div_div by (try apply Z.pow_pos_nonneg; lia).
    apply Z.div_mod. lia.
  - change 512 with (2 ^ 9). rewrite <- Z.pow_add_r by lia. f_equal. lia.
Qed.

Lemma tabno_2 va : 0 <= va < MAXVA -> tabno 2 va = 0.
Proof. intros Hva. unfold tabno, MAXVA in *. apply Z.div_small.
  change (2 ^ (21 + 9 * 2)) with (2 ^ 39). change (2 ^ (9 + 9 + 9 + 12 - 1)) with (2 ^ 38) in Hva. lia. Qed.

(** The page of an address, from its last table and its index there. *)
Lemma page_index va va' : tabno 0 va = tabno 0 va' -> PN 0 va = PN 0 va' -> va / 4096 = va' / 4096.
Proof.
  intros H1 H2. rewrite !PN_alt in H2 by lia. unfold tabno in H1.
  change (2 ^ (12 + 9 * 0)) with 4096 in H2. change (2 ^ (21 + 9 * 0)) with (4096 * 512) in H1.
  rewrite <- !Z.div_div in H1 by lia.
  rewrite (Z.div_mod (va / 4096) 512), (Z.div_mod (va' / 4096) 512) by lia. congruence.
Qed.

Lemma same_page_index va va' l : 0 <= l -> va / 4096 = va' / 4096 ->
  tabno l va = tabno l va' /\ PN l va = PN l va'.
Proof.
  intros Hl H. assert (forall k, 12 <= k -> va / 2 ^ k = va' / 2 ^ k) as Hk.
  { intros k Hk. replace (2 ^ k) with (4096 * 2 ^ (k - 12)).
    - rewrite <- !Z.div_div by (try apply Z.pow_pos_nonneg; lia). by rewrite H.
    - change 4096 with (2 ^ 12). rewrite <- Z.pow_add_r by lia. f_equal. lia. }
  rewrite !PN_alt by done. unfold tabno. rewrite !Hk by lia. done.
Qed.

(** ** Words of memory *)

Definition word (m : mem) (a : Z) : Z := match load64 m a with Done v => v | _ => 0 end.

(** All of RAM is mapped. *)
Definition mem_ok (m : mem) : Prop :=
  (forall a, START_MEM <= a < PHYSTOP -> is_Some (m !! a)) /\ bytes_ok m.

Definition ram_word (a : Z) : Prop := START_MEM <= a /\ a + 8 <= PHYSTOP.

Lemma page_to_pa_is_page p : 0 <= p < NPAGES -> is_page (page_to_pa p).
Proof.
  intros Hp. rewrite page_to_pa_alt by done. change NPAGES with 251904 in Hp.
  unfold is_page, START_MEM. split; [lia|].
  replace (p * 4096 + 2189426688) with ((p + 534528) * 4096) by lia. by apply Z.mod_mul.
Qed.

Lemma table_word p i : 0 <= p < NPAGES -> 0 <= i < 512 -> ram_word (page_to_pa p + 8 * i).
Proof.
  intros Hp Hi. rewrite page_to_pa_alt by done. change NPAGES with 251904 in Hp.
  unfold ram_word, START_MEM, PHYSTOP. lia.
Qed.

Lemma word_valid m a : mem_ok m -> ram_word a -> valid m a 8.
Proof. intros [Hm _] Ha i Hi. apply Hm. unfold ram_word in Ha. lia. Qed.

Section theory.
Context {A : Type} `{!PageAlloc A, !PageAllocOk A}.
Implicit Types (s : ptstate A) (R : gmap Z (Z * Z)) (tabs : gmap (Z * Z) Z).

Lemma rd_word s a : mem_ok (pm s) -> ram_word a ->
  rd a s = Done (word (pm s) a) /\ 0 <= word (pm s) a < 2 ^ 64.
Proof.
  intros M Ha. destruct (load64_ok (pm s) a (word_valid _ _ M Ha) (proj2 M)) as (v & E & Hv).
  unfold rd, word. by rewrite E.
Qed.

Lemma wr_al a v s s' : wr a v s = Done s' -> al s' = al s.
Proof. unfold wr. by intros (m & _ & [= <-])%bind_Done. Qed.

Lemma wr_word s a v : mem_ok (pm s) -> ram_word a -> 0 <= v < 2 ^ 64 ->
  exists s', wr a v s = Done s' /\ al s' = al s /\ mem_ok (pm s') /\ word (pm s') a = v /\
    forall b, b + 8 <= a \/ a + 8 <= b -> word (pm s') b = word (pm s) b.
Proof.
  intros M Ha Hv. destruct (store64_ok (pm s) a v (word_valid _ _ M Ha) Hv) as (m' & E & El & Ho & Hd & Hb).
  exists (with_pm m' s). unfold wr. rewrite E. split_and!; [done|done| | |].
  - destruct M as [M1 M2]. split; [intros x Hx; apply Hd; by apply M1|by apply Hb].
  - unfold word. cbn [pm with_pm]. by rewrite El.
  - intros b Hdis. unfold word. cbn [pm with_pm]. rewrite (load64_frame (pm s) m' b); [done|].
    intros x Hx. apply Ho. lia.
Qed.

(** Clearing a fresh block. *)
Lemma zalloc_page s R : pa_rep (al s) R -> mem_ok (pm s) ->
  (exists s', zalloc PGSIZE s = Done (None, s') /\ s' = s) \/
  (exists p s' R', zalloc PGSIZE s = Done (Some (page_to_pa p), s') /\ 0 <= p < NPAGES /\
     R !! p = None /\ (forall q r n, R !! q = Some (r, n) -> ~ q <= p < q + 2 ^ r) /\
     pa_rep (al s') R' /\ R' !! p = Some (0, 1) /\ p ∉ pa_cached (al s') /\
     (forall q, q <> p -> q ∉ pa_cached (al s) -> R' !! q = R !! q) /\
     pa_cached (al s') ⊆ pa_cached (al s) /\ mem_ok (pm s') /\
     (forall i, 0 <= i < 512 -> word (pm s') (page_to_pa p + 8 * i) = 0) /\
     (forall q i, 0 <= q < NPAGES -> q <> p -> 0 <= i < 512 ->
        word (pm s') (page_to_pa q + 8 * i) = word (pm s) (page_to_pa q + 8 * i))).
Proof.
  intros HR M. destruct (pa_kmalloc_ok (al s) R PGSIZE HR) as (o & r & a' & E & Ho%least_order_page & Hr).
  { unfold PGSIZE, BUDDY_MAX_ORDER. lia. }
  unfold zalloc. rewrite E. ocbn. subst o.
  destruct r as [pa|]; [right|left; subst; eexists; split; [done|by destruct s]].
  destruct Hr as (p & R' & -> & Hn & Hdis & HR' & Ep & Hc & Hk & Hs).
  destruct (pa_range _ _ _ _ _ HR' Ep) as (_ & Hp0 & Hp1 & _). change (2 ^ 0) with 1 in *.
  assert (0 <= p < NPAGES) as Hp by lia. pose proof Hp as Hp'. change NPAGES with 251904 in Hp'.
  pose proof (page_to_pa_alt p Hp) as Epa.
  unfold memset. rewrite u32_small by (unfold PGSIZE; lia). change (0 mod 256) with 0.
  destruct (memset_loop_ok (Z.to_nat PGSIZE) (page_to_pa p) 0 (pm s)) as (m' & Em & Hm).
  { intros i Hi. apply (proj1 M). rewrite Epa. unfold PGSIZE, START_MEM, PHYSTOP in *. lia. }
  rewrite Z2Nat.id in Hm by (unfold PGSIZE; lia). unfold PGSIZE in Hm.
  rewrite Em. ocbn. exists p, (PS m' a'), R'. cbn [pm al]. split; [done|]. split; [exact Hp|]. split_and!; try done.
  - intros q r n Eq Hq. apply (Hdis q r n Eq). unfold meets. lia.
  - split.
    + intros a Ha. rewrite Hm. case_decide; [eauto|]. by apply (proj1 M).
    + intros a x. rewrite Hm. case_decide; [intros [= <-]; lia|]. apply (proj2 M).
  - intros i Hi. unfold word. rewrite load64_zero; [done|]. intros x Hx. rewrite Hm.
    by rewrite decide_True by lia.
  - intros q i Hq Hne Hi. unfold word. rewrite (load64_frame (pm s) m'); [done|].
    intros x Hx. rewrite Hm, decide_False; [done|]. rewrite Epa. rewrite page_to_pa_alt in Hx by done. lia.
Qed.

(** What [kzalloc] of a page asks of the allocator. *)
Lemma zalloc_kmalloc s r s' : zalloc PGSIZE s = Done (r, s') -> pa_kmalloc PGSIZE (al s) = Done (r, al s').
Proof.
  unfold zalloc. destruct (pa_kmalloc PGSIZE (al s)) as [[r0 a']| | |]; cbn; try discriminate.
  destruct r0 as [pa|]; [|by intros [= <- <-]]. intros (m & _ & [= <- <-])%bind_Done. done.
Qed.

(** ** The tree of tables *)

(** How [walk] reads an entry above the lowest level. *)
Inductive entry := Einvalid | Eleaf | Etable.
Definition kind (v : Z) : entry :=
  if has v PTE_V then if has v PTE_R || has v PTE_X then Eleaf else Etable else Einvalid.

(** [tabs] maps (level, number) to the address of the table. *)
Record pt_ok s (root : Z) (tabs : gmap (Z * Z) Z) R : Prop := {
  pk_mem : mem_ok (pm s);
  pk_alloc : pa_rep (al s) R;
  pk_root : tabs !! (2, 0) = Some root;
  pk_tab l b t : tabs !! (l, b) = Some t -> 0 <= l <= 2 /\
    exists p, t = page_to_pa p /\ 0 <= p < NPAGES /\ R !! p = Some (0, 1) /\ p ∉ pa_cached (al s);
  pk_inj x y t : tabs !! x = Some t -> tabs !! y = Some t -> x = y;
  pk_parent l b t : tabs !! (l, b) = Some t -> l < 2 -> is_Some (tabs !! (l + 1, b / 512));
  pk_step l b t i : tabs !! (l, b) = Some t -> 0 < l -> 0 <= i < 512 ->
    match kind (word (pm s) (t + 8 * i)) with
    | Einvalid => tabs !! (l - 1, 512 * b + i) = None
    | Eleaf => l = 1 /\ tabs !! (l - 1, 512 * b + i) = None
    | Etable => tabs !! (l - 1, 512 * b + i) = Some (PTE2PA (word (pm s) (t + 8 * i)))
    end
}.

Lemma pk_word s root tabs R l b t i : pt_ok s root tabs R -> tabs !! (l, b) = Some t ->
  0 <= i < 512 -> ram_word (t + 8 * i).
Proof.
  intros P E Hi. destruct (pk_tab _ _ _ _ P _ _ _ E) as (_ & p & -> & Hp & _). by apply table_word.
Qed.

(** Two different slots of the tree never overlap. *)
Lemma pk_slots s root tabs R l b t i l' b' t' i' : pt_ok s root tabs R ->
  tabs !! (l, b) = Some t -> tabs !! (l', b') = Some t' -> 0 <= i < 512 -> 0 <= i' < 512 ->
  (l, b, i) <> (l', b', i') -> t + 8 * i + 8 <= t' + 8 * i' \/ t' + 8 * i' + 8 <= t + 8 * i.
Proof.
  intros P E E' Hi Hi' Hne. destruct (decide (t = t')) as [->|Ht].
  - pose proof (pk_inj _ _ _ _ P _ _ _ E E') as [= -> ->]. assert (i <> i') by congruence. lia.
  - destruct (pk_tab _ _ _ _ P _ _ _ E) as (_ & p & -> & Hp & _).
    destruct (pk_tab _ _ _ _ P _ _ _ E') as (_ & p' & -> & Hp' & _).
    rewrite !page_to_pa_alt in * by done. lia.
Qed.

(** The entry that translates [va], with its level. *)
Definition leaf_of (m : mem) (tabs : gmap (Z * Z) Z) (va : Z) : option (Z * Z) :=
  t1 ← tabs !! (1, tabno 1 va);
  let v1 := word m (t1 + 8 * PN 1 va) in
  match kind v1 with
  | Einvalid => None
  | Eleaf => Some (1, v1)
  | Etable =>
      t0 ← tabs !! (0, tabno 0 va);
      let v0 := word m (t0 + 8 * PN 0 va) in
      if has v0 PTE_V then Some (0, v0) else None
  end.

(** The slot [walk] stops at when it allocates nothing. *)
Definition slot_of (m : mem) (tabs : gmap (Z * Z) Z) (va : Z) : option (Z * Z) :=
  t1 ← tabs !! (1, tabno 1 va);
  match kind (word m (t1 + 8 * PN 1 va)) with
  | Einvalid => None
  | Eleaf => Some (1, t1 + 8 * PN 1 va)
  | Etable => t0 ← tabs !! (0, tabno 0 va); Some (0, t0 + 8 * PN 0 va)
  end.

Lemma walk_step s root tabs R n l va alloc low t :
  pt_ok s root tabs R -> tabs !! (l, tabno l va) = Some t -> 0 < l -> low + Z.of_nat (S n) = l ->
  walk_loop (S n) t va alloc low s =
    match kind (word (pm s) (t + 8 * PN l va)) with
    | Etable => walk_loop n (PTE2PA (word (pm s) (t + 8 * PN l va))) va alloc low s
    | Eleaf => Done (1, Some (t + 8 * PN l va), s)
    | Einvalid =>
        if negb alloc then Done (-1, None, s)
        else
          '(r, s) ← zalloc PGSIZE s;
          match r with
          | None => Done (-1, None, s)
          | Some pt =>
              s ← wr (t + 8 * PN l va) (Z.lor (PA2PTE pt) PTE_V) s;
              walk_loop n pt va alloc low s
          end
    end.
Proof.
  intros P E Hl Hn. cbn [walk_loop]. rewrite Hn.
  destruct (rd_word s (t + 8 * PN l va) (pk_mem _ _ _ _ P)) as [Er _].
  { eapply pk_word; [done..|]. apply PN_range. lia. }
  rewrite Er. ocbn. pose proof (pk_step _ _ _ _ P l _ t (PN l va) E Hl (PN_range l va ltac:(lia))) as Hs.
  unfold kind in *. destruct (has _ PTE_V); [|done].
  destruct (has _ PTE_R || has _ PTE_X); [|done]. destruct Hs as [-> _]. done.
Qed.

Lemma walk_lookup s root tabs R va : pt_ok s root tabs R -> 0 <= va < MAXVA ->
  walk root va false 0 s =
    Done (match slot_of (pm s) tabs va with
          | Some (l, p) => (l, Some p, s)
          | None => (-1, None, s)
          end).
Proof.
  intros P Hva. unfold walk. rewrite (proj2 (Z.leb_gt _ _)) by lia.
  change (Z.to_nat (LEVELS - 1 - 0)) with 2%nat.
  pose proof (pk_root _ _ _ _ P) as E2. rewrite <- (tabno_2 va) in E2 by done.
  rewrite (walk_step _ _ _ _ 1 2 va false 0 root P E2) by lia.
  pose proof (pk_step _ _ _ _ P 2 _ root (PN 2 va) E2 ltac:(lia) (PN_range 2 va ltac:(lia))) as H2.
  change (2 - 1) with 1 in H2. pose proof (tabno_step 2 va ltac:(lia)) as T2. change (2 - 1) with 1 in T2.
  rewrite <- T2 in H2.
  unfold slot_of. destruct (kind _); [by rewrite H2|by destruct H2|]. rewrite H2. cbn [mbind option_bind].
  rewrite (walk_step _ _ _ _ 0 1 va false 0 _ P H2) by lia.
  pose proof (pk_step _ _ _ _ P 1 _ _ (PN 1 va) H2 ltac:(lia) (PN_range 1 va ltac:(lia))) as H1.
  change (1 - 1) with 0 in H1. pose proof (tabno_step 1 va ltac:(lia)) as T1. change (1 - 1) with 0 in T1.
  rewrite <- T1 in H1.
  destruct (kind _); [done|done|]. by rewrite H1.
Qed.

(** *** Writing an entry of a lowest-level table *)

Lemma level0_parent s root tabs R va t0 : pt_ok s root tabs R ->
  tabs !! (0, tabno 0 va) = Some t0 ->
  exists t1, tabs !! (1, tabno 1 va) = Some t1 /\ kind (word (pm s) (t1 + 8 * PN 1 va)) = Etable.
Proof.
  intros P E. destruct (pk_parent _ _ _ _ P _ _ _ E ltac:(lia)) as [t1 E1].
  pose proof (tabno_step 1 va ltac:(lia)) as T1. change (1 - 1) with 0 in T1.
  pose proof (PN_range 1 va ltac:(lia)) as Hr.
  assert (tabno 0 va / 512 = tabno 1 va) as Hd.
  { rewrite T1. symmetry. apply (Z.div_unique _ 512 _ (PN 1 va)); lia. }
  rewrite Hd in E1. exists t1. split; [done|].
  pose proof (pk_step _ _ _ _ P 1 _ _ (PN 1 va) E1 ltac:(lia) Hr) as H1.
  change (1 - 1) with 0 in H1. rewrite <- T1, E in H1.
  destruct (kind _); [done|by destruct H1|done].
Qed.

Lemma write_leaf s root tabs R va t0 v : pt_ok s root tabs R -> 0 <= v < 2 ^ 64 ->
  tabs !! (0, tabno 0 va) = Some t0 ->
  exists s', wr (t0 + 8 * PN 0 va) v s = Done s' /\ al s' = al s /\ pt_ok s' root tabs R /\
    (forall va', va' / 4096 = va / 4096 ->
       leaf_of (pm s') tabs va' = if has v PTE_V then Some (0, v) else None) /\
    (forall va', va' / 4096 <> va / 4096 -> leaf_of (pm s') tabs va' = leaf_of (pm s) tabs va').
Proof.
  intros P Hv E. pose proof (PN_range 0 va ltac:(lia)) as Hr.
  destruct (wr_word s (t0 + 8 * PN 0 va) v (pk_mem _ _ _ _ P)) as (s' & Ew & Ea & M' & Eself & Ho);
    [by eapply pk_word|done|].
  assert (forall l b t i, tabs !! (l, b) = Some t -> 0 <= i < 512 -> (l, b, i) <> (0, tabno 0 va, PN 0 va) ->
    word (pm s') (t + 8 * i) = word (pm s) (t + 8 * i)) as Hsame.
  { intros l b t i Et Hi Hne. apply Ho.
    eapply (pk_slots s root tabs R l b t i 0 (tabno 0 va) t0 (PN 0 va)); done. }
  exists s'. split_and!; [done|done| | |].
  - pose proof P as []. constructor; rewrite ?Ea; auto.
    intros l b t i Et Hl Hi. rewrite (Hsame l b t i) by (done || congruence || (intros [=]; lia)).
    by apply pk_step0.
  - intros va' Hp. destruct (same_page_index va' va 0 ltac:(lia) Hp) as [Ht0 Hp0].
    destruct (same_page_index va' va 1 ltac:(lia) Hp) as [Ht1 Hp1].
    destruct (level0_parent _ _ _ _ _ _ P E) as (t1 & E1 & K1).
    unfold leaf_of. rewrite Ht0, Hp0, Ht1, Hp1, E1. cbn [mbind option_bind].
    rewrite (Hsame 1 _ t1 (PN 1 va) E1) by (apply PN_range; lia) || (intros [=]; lia).
    rewrite K1, E. cbn [mbind option_bind]. by rewrite Eself.
  - intros va' Hp. unfold leaf_of. destruct (tabs !! (1, tabno 1 va')) as [t1|] eqn:E1; [|done].
    cbn [mbind option_bind].
    rewrite (Hsame 1 _ t1 (PN 1 va') E1) by (apply PN_range; lia) || (intros [=]; lia).
    destruct (kind _); try done. destruct (tabs !! (0, tabno 0 va')) as [t0'|] eqn:E0; [|done].
    cbn [mbind option_bind]. rewrite (Hsame 0 _ t0' (PN 0 va') E0); [done|apply PN_range; lia|].
    intros [= H1 H2]. apply Hp. by apply page_index.
Qed.

(** *** Adding a table *)

Lemma kind_zero : kind 0 = Einvalid.
Proof. done. Qed.

Lemma kind_table pa : is_page pa -> kind (Z.lor (PA2PTE pa) PTE_V) = Etable.
Proof.
  intros Hp. unfold kind, PTE_V, PTE_R, PTE_X.
  rewrite !pte_has by (done || lia). done.
Qed.

Lemma add_table s root tabs R l b t i : pt_ok s root tabs R ->
  tabs !! (l, b) = Some t -> 0 < l -> 0 <= i < 512 ->
  kind (word (pm s) (t + 8 * i)) = Einvalid ->
  (exists s', zalloc PGSIZE s = Done (None, s') /\ s' = s) \/
  (exists pt s1 s2 R2, zalloc PGSIZE s = Done (Some pt, s1) /\
     wr (t + 8 * i) (Z.lor (PA2PTE pt) PTE_V) s1 = Done s2 /\
     pt_ok s2 root (<[(l - 1, 512 * b + i) := pt]> tabs) R2 /\
     pa_cached (al s2) ⊆ pa_cached (al s) /\
     (forall q, is_Some (R !! q) -> q ∉ pa_cached (al s) -> R2 !! q = R !! q) /\
     (forall va, leaf_of (pm s2) (<[(l - 1, 512 * b + i) := pt]> tabs) va = leaf_of (pm s) tabs va)).
Proof.
  intros P E Hl Hi Hk.
  destruct (zalloc_page s R (pk_alloc _ _ _ _ P) (pk_mem _ _ _ _ P))
    as [?|(p & s1 & R1 & Ez & Hp & Hnone & _ & HR1 & Ep & Hpc & Hkeep & Hsub & M1 & Hz & Hold)];
    [by left|right].
  pose proof (page_to_pa_is_page p Hp) as Hpg. set (pt := page_to_pa p) in *.
  assert (forall l' b' t', tabs !! (l', b') = Some t' -> exists q, t' = page_to_pa q /\ 0 <= q < NPAGES /\
    q <> p /\ R1 !! q = Some (0, 1) /\ q ∉ pa_cached (al s)) as Hq.
  { intros l' b' t' Et. destruct (pk_tab _ _ _ _ P _ _ _ Et) as (_ & q & -> & Hq & Er & Hc).
    assert (q <> p) by congruence. exists q. split_and!; try done; try lia. by rewrite Hkeep. }
  assert (ram_word (t + 8 * i)) as Hram by (by eapply pk_word).
  destruct (wr_word s1 (t + 8 * i) (Z.lor (PA2PTE pt) PTE_V) M1 Hram) as (s2 & Ew & Ea & M2 & Eself & Ho).
  { apply pte_range; [done|unfold PTE_V; lia]. }
  assert (forall l' b' t' j, tabs !! (l', b') = Some t' -> 0 <= j < 512 -> (l', b', j) <> (l, b, i) ->
    word (pm s2) (t' + 8 * j) = word (pm s) (t' + 8 * j)) as Hsame.
  { intros l' b' t' j Et Hj Hne. rewrite Ho.
    - destruct (Hq _ _ _ Et) as (q & -> & Hqr & Hqp & _). by apply Hold.
    - eapply (pk_slots s root tabs R l' b' t' j l b t i); done. }
  assert (forall j, 0 <= j < 512 -> word (pm s2) (pt + 8 * j) = 0) as Hzero.
  { intros j Hj. rewrite Ho; [by apply Hz|]. destruct (Hq _ _ _ E) as (q & -> & Hqr & Hqp & _).
    unfold pt. rewrite !page_to_pa_alt by done. lia. }
  pose proof (pk_step _ _ _ _ P l b t i E Hl Hi) as Hst. rewrite Hk in Hst.
  set (nk := (l - 1, 512 * b + i)) in *.
  assert (forall k i', 0 <= i' < 512 -> 512 * k + i' = 512 * b + i -> k = b /\ i' = i) as Hidx by lia.
  exists pt, s1, s2, R1. split_and!; [done|done| | | |].
  - pose proof (pk_tab _ _ _ _ P _ _ _ E) as (Hl2 & _).
    pose proof P as []. constructor; rewrite ?Ea; auto.
    + rewrite lookup_insert_ne; [done|]. unfold nk. intros [=]. lia.
    + intros l' b' t'. destruct (decide (nk = (l', b'))) as [Heq|Hne].
      * rewrite Heq, lookup_insert_eq. intros [= <-]. injection Heq as <- _. split; [lia|]. exists p. split_and!; done || lia.
      * rewrite lookup_insert_ne by done. intros Et.
        destruct (Hq _ _ _ Et) as (q & -> & ? & ? & ? & Hc). split; [by apply (pk_tab0 l' b' _ Et)|].
        exists q. split_and!; try done; try lia. intros Hbad%Hsub. done.
    + intros x y t'. destruct (decide (nk = x)) as [<-|Hx], (decide (nk = y)) as [<-|Hy];
        rewrite ?lookup_insert_eq, ?lookup_insert_ne by done; try done; [| |by apply pk_inj0].
      * intros [= <-] Et. destruct y as [l' b']. destruct (Hq _ _ _ Et) as (q & Eq & Hqr & Hqp & _).
        unfold pt in Eq. rewrite !page_to_pa_alt in Eq by done. lia.
      * intros Et [= <-]. destruct x as [l' b']. destruct (Hq _ _ _ Et) as (q & Eq & Hqr & Hqp & _).
        unfold pt in Eq. rewrite !page_to_pa_alt in Eq by done. lia.
    + intros l' b' t' Et Hl'. assert (is_Some (tabs !! (l' + 1, b' / 512))) as [x Ex].
      { destruct (decide (nk = (l', b'))) as [Heq|Hne].
        - injection Heq as <- <-. replace (l - 1 + 1) with l by lia.
          replace ((512 * b + i) / 512) with b by (apply (Z.div_unique _ 512 _ i); lia). eauto.
        - rewrite lookup_insert_ne in Et by done. by eapply pk_parent0. }
      destruct (decide (nk = (l' + 1, b' / 512))) as [<-|]; [rewrite lookup_insert_eq; eauto|].
      rewrite lookup_insert_ne; eauto.
    + intros l' b' t' j Et Hl' Hj. destruct (decide (nk = (l', b'))) as [Heq|Hne].
      * rewrite Heq, lookup_insert_eq in Et. injection Et as <-. rewrite Hzero, kind_zero by done.
        rewrite lookup_insert_ne by (rewrite Heq; intros [=]; lia).
        injection Heq as <- <-. destruct (tabs !! (l - 1 - 1, 512 * (512 * b + i) + j)) as [x|] eqn:Ex; [|done]. exfalso.
        destruct (pk_parent0 _ _ _ Ex ltac:(lia)) as [y Ey].
        replace ((512 * (512 * b + i) + j) / 512) with (512 * b + i) in Ey
          by (apply (Z.div_unique _ 512 _ j); lia).
        replace (l - 1 - 1 + 1) with (l - 1) in Ey by lia. fold nk in Ey. congruence.
      * rewrite lookup_insert_ne in Et by done.
        destruct (decide ((l', b', j) = (l, b, i))) as [Heq|Hd].
        -- injection Heq as -> -> ->. assert (t' = t) as -> by congruence.
           rewrite Eself, kind_table, pte_pa by (done || unfold PTE_V; lia). apply lookup_insert_eq.
        -- rewrite (Hsame l' b' t' j) by done. rewrite lookup_insert_ne; [by apply pk_step0|].
           intros [= H1 H2]. apply Hd. symmetry in H2. apply Hidx in H2 as [-> ->]; [|done].
           by replace l' with l by lia.
  - by rewrite Ea.
  - intros q Hqs Hqc. apply Hkeep; [|done]. intros ->. rewrite Hnone in Hqs. by destruct Hqs.
  - intros va. unfold leaf_of.
    pose proof (PN_range 1 va ltac:(lia)) as Hr1. pose proof (PN_range 0 va ltac:(lia)) as Hr0.
    pose proof (tabno_step 1 va ltac:(lia)) as T1. change (1 - 1) with 0 in T1.
    destruct (decide (nk = (1, tabno 1 va))) as [H1|H1].
    { rewrite H1, lookup_insert_eq, <- H1, Hst. cbn [mbind option_bind]. by rewrite Hzero, kind_zero. }
    rewrite (lookup_insert_ne tabs nk (1, tabno 1 va)) by exact H1.
    destruct (tabs !! (1, tabno 1 va)) as [t1|] eqn:E1; [|done].
    cbn [mbind option_bind].
    destruct (decide ((1, tabno 1 va, PN 1 va) = (l, b, i))) as [Heq|Hd].
    { injection Heq as Hl0 Hb0 Hi0. subst l b i. assert (t1 = t) as -> by congruence.
      rewrite Eself, Hk, kind_table by done.
      assert (nk = (0, tabno 0 va)) as Enk by (unfold nk; by rewrite T1).
      rewrite Enk, lookup_insert_eq. cbn [mbind option_bind]. by rewrite Hzero. }
    rewrite (Hsame 1 _ t1 (PN 1 va) E1 Hr1 Hd). destruct (kind _); try done.
    destruct (decide (nk = (0, tabno 0 va))) as [H0|H0].
    { exfalso. injection H0 as Hl0 Hb0. rewrite T1 in Hb0. symmetry in Hb0.
      apply Hidx in Hb0 as [<- <-]; [|done]. apply Hd. by replace l with 1 by lia. }
    rewrite (lookup_insert_ne tabs nk (0, tabno 0 va)) by exact H0.
    destruct (tabs !! (0, tabno 0 va)) as [t0|] eqn:E0; [|done].
    cbn [mbind option_bind]. rewrite (Hsame 0 _ t0 (PN 0 va) E0 Hr0); [done|]. intros [=]. lia.
Qed.

(** *** Walking with allocation *)

(** What a run may do to the allocator: blocks in use stay, apart from those the
    allocator may take back. *)
Definition extends s R s' R' : Prop :=
  pa_cached (al s') ⊆ pa_cached (al s) /\
  forall q, is_Some (R !! q) -> q ∉ pa_cached (al s) -> R' !! q = R !! q.

Lemma extends_refl s R : extends s R s R.
Proof. split; [done|by intros]. Qed.

Lemma extends_trans s1 R1 s2 R2 s3 R3 :
  extends s1 R1 s2 R2 -> extends s2 R2 s3 R3 -> extends s1 R1 s3 R3.
Proof.
  intros [C1 K1] [C2 K2]. split; [set_solver|]. intros q Hq Hc.
  rewrite <- (K1 q Hq Hc). apply K2; [by rewrite K1|set_solver].
Qed.

Lemma extends_al s R s' : al s' = al s -> extends s R s' R.
Proof. intros E. split; [by rewrite E|by intros]. Qed.

Definition stops_at s tabs va (r : Z) (pte : option Z) : Prop :=
  match pte with
  | None => r = -1
  | Some p =>
      (r = 0 /\ exists t0, tabs !! (0, tabno 0 va) = Some t0 /\ p = t0 + 8 * PN 0 va) \/
      (r = 1 /\ exists t1, tabs !! (1, tabno 1 va) = Some t1 /\ p = t1 + 8 * PN 1 va /\
         kind (word (pm s) p) = Eleaf)
  end.

(** Every table that was missing cost an allocation, and one that failed ended the walk. *)
Definition served (n : nat) s (pte : option Z) s' : Prop :=
  match pte with None => dry PGSIZE n (al s) | Some _ => uses PGSIZE n (al s) (al s') end.

Lemma walk_alloc_loop root va n : forall s tabs R t,
  pt_ok s root tabs R -> (n <= 2)%nat -> tabs !! (Z.of_nat n, tabno (Z.of_nat n) va) = Some t ->
  exists r pte s' tabs' R', walk_loop n t va true 0 s = Done (r, pte, s') /\
    pt_ok s' root tabs' R' /\ extends s R s' R' /\ stops_at s' tabs' va r pte /\
    (forall va', leaf_of (pm s') tabs' va' = leaf_of (pm s) tabs va') /\ served n s pte s'.
Proof.
  induction n as [|n IH]; intros s tabs R t P Hn E.
  { exists 0, (Some (t + 8 * PN 0 va)), s, tabs, R. split_and!; [done|done|apply extends_refl| |done|constructor].
    left. eauto. }
  rewrite (walk_step _ _ _ _ n (Z.of_nat (S n)) va true 0 t P E) by lia.
  pose proof (PN_range (Z.of_nat (S n)) va ltac:(lia)) as Hr.
  pose proof (pk_step _ _ _ _ P _ _ _ _ E ltac:(lia) Hr) as Hs.
  pose proof (tabno_step (Z.of_nat (S n)) va ltac:(lia)) as T. rewrite <- T in Hs.
  replace (Z.of_nat (S n) - 1) with (Z.of_nat n) in * by lia.
  destruct (kind _) eqn:K.
  - destruct (add_table _ _ _ _ _ _ _ _ P E ltac:(lia) Hr K)
      as [(s' & Ez & ->)|(pt & s1 & s2 & R2 & Ez & Ew & P2 & C2 & K2 & L2)]; cbn [negb]; rewrite Ez; ocbn.
    + exists (-1), None, s, tabs, R. split_and!; [done|done|apply extends_refl|done|done|].
      eapply dry_now; [lia|done|]. by apply zalloc_kmalloc.
    + rewrite Ew. ocbn. apply zalloc_kmalloc in Ez. apply wr_al in Ew as Ea. rewrite <- T in P2, L2.
      replace (Z.of_nat (S n) - 1) with (Z.of_nat n) in * by lia.
      destruct (IH s2 _ R2 pt P2 ltac:(lia) (lookup_insert_eq _ _ _))
        as (r & pte & s' & tabs' & R' & -> & P' & X' & S' & L' & U').
      exists r, pte, s', tabs', R'. split_and!; [done|done| |done| |].
      * eapply extends_trans; [|exact X']. by split.
      * intros va'. by rewrite L', L2.
      * unfold served in *. rewrite Ea in U'. destruct pte; [by eapply uses_alloc|].
        eapply (dry_later _ 1); [|exact U'|lia]. by eapply uses_alloc; [..|constructor].
  - destruct Hs as [Hl _]. assert (n = 0)%nat as -> by lia. change (Z.of_nat 1) with 1 in *.
    eexists 1, _, s, tabs, R. split_and!; [done|done|apply extends_refl| |done|constructor].
    right. split; [done|]. eauto.
  - destruct (IH s tabs R _ P ltac:(lia) Hs) as (r & pte & s' & tabs' & R' & E' & P' & X' & S' & L' & U').
    exists r, pte, s', tabs', R'. split_and!; try done.
    unfold served in *. destruct pte; [eapply uses_le; [exact U'|done|lia]|eapply dry_le; [exact U'|done|lia]].
Qed.

Lemma walk_alloc s root tabs R va : pt_ok s root tabs R -> 0 <= va < MAXVA ->
  exists r pte s' tabs' R', walk root va true 0 s = Done (r, pte, s') /\
    pt_ok s' root tabs' R' /\ extends s R s' R' /\ stops_at s' tabs' va r pte /\
    (forall va', leaf_of (pm s') tabs' va' = leaf_of (pm s) tabs va') /\ served 2 s pte s'.
Proof.
  intros P Hva. unfold walk. rewrite (proj2 (Z.leb_gt _ _)) by lia.
  change (Z.to_nat (LEVELS - 1 - 0)) with 2%nat. apply walk_alloc_loop; [done|lia|].
  change (Z.of_nat 2) with 2. rewrite tabno_2 by done. by eapply pk_root.
Qed.

(** *** Mapping one page *)

Definition map_pte (pa perm : Z) : Z := Z.lor (Z.lor (PA2PTE pa) perm) PTE_V.

Lemma map_pte_alt pa perm : map_pte pa perm = Z.lor (PA2PTE pa) (Z.lor perm PTE_V).
Proof. unfold map_pte. by rewrite Z.lor_assoc. Qed.

Lemma map_pte_facts pa perm : is_page pa -> 0 <= perm < 1024 ->
  0 <= map_pte pa perm < 2 ^ 64 /\ has (map_pte pa perm) PTE_V = true /\
  PTE2PA (map_pte pa perm) = pa /\
  forall k, 0 <= k < 10 -> k <> 0 -> has (map_pte pa perm) (2 ^ k) = Z.testbit perm k.
Proof.
  intros Hp Hf. rewrite map_pte_alt. assert (0 <= Z.lor perm PTE_V < 1024) as Hl
    by (apply lor_flags; unfold PTE_V; lia).
  split; [by apply pte_range|]. split_and!; [|by apply pte_pa|].
  - unfold PTE_V at 2. rewrite (pte_has pa _ 0) by (done || lia). rewrite Z.lor_spec.
    unfold PTE_V. by rewrite orb_true_r.
  - intros k Hk Hk0. rewrite pte_has by done. rewrite Z.lor_spec. unfold PTE_V.
    rewrite Z.pow2_bits_false by lia. apply orb_false_r.
Qed.

Lemma map_page s root tabs R a last pa perm f : pt_ok s root tabs R -> 0 <= a < MAXVA ->
  is_page pa -> 0 <= perm < 1024 -> leaf_of (pm s) tabs a = None ->
  exists s' tabs' R', pt_ok s' root tabs' R' /\ extends s R s' R' /\
    ((map_loop (S f) root a last pa perm PGSIZE 0 s = Done (-1, s') /\ dry PGSIZE 2 (al s) /\
      forall va', leaf_of (pm s') tabs' va' = leaf_of (pm s) tabs va') \/
     (map_loop (S f) root a last pa perm PGSIZE 0 s =
        (if a =? last then Done (0, s')
         else map_loop f root (u64 (a + PGSIZE)) last (u64 (pa + PGSIZE)) perm PGSIZE 0 s') /\ uses PGSIZE 2 (al s) (al s') /\
      (forall va', va' / 4096 = a / 4096 -> leaf_of (pm s') tabs' va' = Some (0, map_pte pa perm)) /\
      (forall va', va' / 4096 <> a / 4096 -> leaf_of (pm s') tabs' va' = leaf_of (pm s) tabs va'))).
Proof.
  intros P Ha Hpa Hperm Hnone. cbn [map_loop].
  destruct (walk_alloc s root tabs R a P Ha) as (r & pte & s1 & tabs1 & R1 & E & P1 & X1 & S1 & L1 & U1).
  rewrite E. ocbn. destruct pte as [p|]; cbn [served] in U1.
  2: { exists s1, tabs1, R1. split_and!; [done|done|]. by left. }
  destruct (map_pte_facts pa perm Hpa Hperm) as (Hv & HV & _).
  destruct S1 as [(-> & t0 & E0 & ->)|(-> & t1 & E1 & -> & K1)].
  - assert (has (word (pm s1) (t0 + 8 * PN 0 a)) PTE_V = false) as Hnv.
    { pose proof (L1 a) as Hl. rewrite Hnone in Hl. unfold leaf_of in Hl.
      destruct (level0_parent _ _ _ _ _ _ P1 E0) as (t1 & E1 & K1).
      rewrite E1 in Hl. cbn [mbind option_bind] in Hl. rewrite K1, E0 in Hl.
      cbn [mbind option_bind] in Hl. cbv zeta in Hl.
      destruct (has (word (pm s1) (t0 + 8 * PN 0 a)) PTE_V); [discriminate Hl|reflexivity]. }
    destruct (rd_word s1 (t0 + 8 * PN 0 a) (pk_mem _ _ _ _ P1)) as [Er _].
    { eapply pk_word; [done..|]. apply PN_range. lia. }
    rewrite Er. ocbn. rewrite Hnv.
    destruct (write_leaf s1 root tabs1 R1 a t0 (map_pte pa perm) P1 Hv E0) as (s2 & Ew & Ea & P2 & Hin & Hout).
    rewrite HV in Hin. fold (map_pte pa perm). rewrite Ew. ocbn.
    exists s2, tabs1, R1. split_and!; [done| |].
    + eapply extends_trans; [exact X1|]. by apply extends_al.
    + right. rewrite Ea. split_and!; [done|done|done|]. intros va' Hne. by rewrite Hout.
  - exfalso. pose proof (L1 a) as Hl. rewrite Hnone in Hl. unfold leaf_of in Hl.
    rewrite E1 in Hl. cbn [mbind option_bind] in Hl. by rewrite K1 in Hl.
Qed.

(** *** Mapping a range *)

Lemma page_floor va a : a mod 4096 = 0 -> a <= va < a + 4096 <-> va / 4096 = a / 4096.
Proof.
  intros Ha. pose proof (Z_div_mod_eq_full a 4096). pose proof (Z_div_mod_eq_full va 4096).
  pose proof (Z.mod_pos_bound va 4096 ltac:(lia)). split; intros; nia.
Qed.

Lemma map_loop_ok root perm last k : forall s tabs R a pa,
  pt_ok s root tabs R -> 0 <= a -> a mod 4096 = 0 -> last = a + 4096 * Z.of_nat k -> last < MAXVA ->
  is_page pa -> pa + 4096 * Z.of_nat k < 2 ^ 56 -> 0 <= perm < 1024 ->
  (forall va, a <= va < last + 4096 -> leaf_of (pm s) tabs va = None) ->
  exists e s' tabs' R', map_loop (S k) root a last pa perm PGSIZE 0 s = Done (e, s') /\
    pt_ok s' root tabs' R' /\ extends s R s' R' /\
    (forall va, ~ a <= va < last + 4096 -> leaf_of (pm s') tabs' va = leaf_of (pm s) tabs va) /\
    (e = -1 /\ dry PGSIZE (2 * S k) (al s) \/ e = 0 /\ forall va, a <= va < last + 4096 ->
       leaf_of (pm s') tabs' va = Some (0, map_pte (pa + (va / 4096 * 4096 - a)) perm)).
Proof.
  induction k as [|k IH]; intros s tabs R a pa P Ha Hal Hlast Hmax Hpa Hpb Hperm Hnone;
    pose proof (Z_div_mod_eq_full a 4096) as Hdiv; rewrite Hal in Hdiv.
  - destruct (map_page s root tabs R a last pa perm 0 P ltac:(lia) Hpa Hperm (Hnone a ltac:(lia)))
      as (s' & tabs' & R' & P' & X' & [(E & D & L)|(E & _ & Lin & Lout)]); rewrite E.
    + exists (-1), s', tabs', R'. split_and!; [done..| |by left]. intros va _. apply L.
    + rewrite (proj2 (Z.eqb_eq a last)) by lia. exists 0, s', tabs', R'. split_and!; [done..| |].
      * intros va Hva. apply Lout. rewrite <- page_floor by done. lia.
      * right. split; [done|]. intros va Hva. rewrite Lin by (apply page_floor; [done|lia]).
        do 2 f_equal. assert (va / 4096 = a / 4096) as -> by (apply page_floor; [done|lia]).
        f_equal. lia.
  - destruct (map_page s root tabs R a last pa perm (S k) P ltac:(lia) Hpa Hperm (Hnone a ltac:(lia)))
      as (s1 & tabs1 & R1 & P1 & X1 & [(E & D & L)|(E & U & Lin & Lout)]); rewrite E.
    { exists (-1), s1, tabs1, R1. split_and!; [done..| |].
      - intros va _. apply L.
      - left. split; [done|]. eapply dry_le; [exact D|done|lia]. }
    rewrite (proj2 (Z.eqb_neq a last)) by lia.
    unfold PGSIZE at 1 2. unfold MAXVA in Hmax. rewrite !u64_small by (unfold is_page in Hpa; lia).
    destruct (IH s1 tabs1 R1 (a + 4096) (pa + 4096)) as (e & s' & tabs' & R' & -> & P' & X' & Hout & He);
      try done; try lia.
    + rewrite <- (Z.mul_1_l 4096) at 1. by rewrite Z.mod_add.
    + destruct Hpa as [H1 H2]. split; [lia|]. rewrite <- (Z.mul_1_l 4096) at 1. by rewrite Z.mod_add.
    + intros va Hva. rewrite Lout by (rewrite <- page_floor by done; lia). apply Hnone. lia.
    + exists e, s', tabs', R'. split_and!; [done|done|by eapply extends_trans| |].
      * intros va Hva. rewrite Hout by lia. apply Lout. rewrite <- page_floor by done. lia.
      * destruct He as [[-> D]|[-> He]]; [left|right].
        { split; [done|]. eapply dry_later; [exact U|exact D|lia]. }
        split; [done|]. intros va Hva. destruct (Z.lt_ge_cases va (a + 4096)).
        -- rewrite Hout by lia. rewrite Lin by (apply page_floor; [done|lia]).
           do 2 f_equal. assert (va / 4096 = a / 4096) as -> by (apply page_floor; [done|lia]). f_equal. lia.
        -- rewrite He by lia. do 3 f_equal. lia.
Qed.

Lemma mappages_ok s root tabs R va size pa perm :
  pt_ok s root tabs R -> 0 <= va -> 0 < size -> va + size <= MAXVA ->
  is_page pa -> pa + size + 4096 < 2 ^ 56 -> 0 <= perm < 1024 ->
  let a := PGROUNDDOWN va in
  let stop := PGROUNDDOWN (va + size - 1) + 4096 in
  (forall x, a <= x < stop -> leaf_of (pm s) tabs x = None) ->
  exists e s' tabs' R', mappages root va size pa perm 0 s = Done (e, s') /\
    pt_ok s' root tabs' R' /\ extends s R s' R' /\
    (forall x, ~ a <= x < stop -> leaf_of (pm s') tabs' x = leaf_of (pm s) tabs x) /\
    (e = -1 /\ dry PGSIZE (2 * Z.to_nat ((stop - a) / PGSIZE)) (al s) \/ e = 0 /\ forall x, a <= x < stop ->
       leaf_of (pm s') tabs' x = Some (0, map_pte (pa + (PGROUNDDOWN x - a)) perm)).
Proof.
  intros P Hva Hsz Hmax Hpa Hpb Hperm a stop Hnone. unfold mappages.
  rewrite (proj2 (Z.eqb_neq size 0)) by lia. cbn [Z.eqb].
  unfold MAXVA in Hmax. rewrite u64_small by lia. fold a.
  set (last := PGROUNDDOWN (va + size - 1)) in *.
  assert (a = va - va mod 4096) as Ea by apply PGROUNDDOWN_alt.
  assert (last = va + size - 1 - (va + size - 1) mod 4096) as El by apply PGROUNDDOWN_alt.
  pose proof (Z.mod_pos_bound va 4096 ltac:(lia)). pose proof (Z.mod_pos_bound (va + size - 1) 4096 ltac:(lia)).
  assert (a = va / 4096 * 4096) as Ea' by (pose proof (Z_div_mod_eq_full va 4096); lia).
  assert (last = (va + size - 1) / 4096 * 4096) as El' by (pose proof (Z_div_mod_eq_full (va + size - 1) 4096); lia).
  pose proof (Z.div_le_mono va (va + size - 1) 4096 ltac:(lia) ltac:(lia)).
  set (k := Z.to_nat ((last - a) / PGSIZE)).
  assert (last = a + 4096 * Z.of_nat k) as Hk.
  { unfold k, PGSIZE. replace (last - a) with (((va + size - 1) / 4096 - va / 4096) * 4096) by lia.
    rewrite Z.div_mul, Z2Nat.id by lia. lia. }
  destruct (map_loop_ok root perm last k s tabs R a pa P) as (e & s' & tabs' & R' & E & P' & X' & Hout & He);
    try done; try lia.
  - rewrite Ea'. by apply Z.mod_mul.
  - unfold MAXVA. lia.
  - exists e, s', tabs', R'. split_and!; [done..|].
    destruct He as [[-> D]|[-> He]]; [left|right].
    { split; [done|]. eapply dry_le; [exact D|done|]. unfold stop. rewrite Hk.
      replace (a + 4096 * Z.of_nat k + 4096 - a) with (Z.of_nat (S k) * PGSIZE) by (unfold PGSIZE; lia).
      rewrite Z.div_mul by done. lia. }
    split; [done|]. intros x Hx. rewrite He by done.
    do 4 f_equal. rewrite PGROUNDDOWN_alt. pose proof (Z_div_mod_eq_full x 4096). lia.
Qed.

(** *** Translating *)

Lemma leaf_slot s root tabs R va : pt_ok s root tabs R ->
  match slot_of (pm s) tabs va with
  | Some (l, p) => ram_word p /\ (l = 0 \/ l = 1) /\
      leaf_of (pm s) tabs va = if has (word (pm s) p) PTE_V then Some (l, word (pm s) p) else None
  | None => leaf_of (pm s) tabs va = None
  end.
Proof.
  intros P. unfold slot_of, leaf_of. destruct (tabs !! (1, tabno 1 va)) as [t1|] eqn:E1; [|done].
  cbn [mbind option_bind]. destruct (kind _) eqn:K; [done| |].
  - split; [eapply pk_word; [done..|]; apply PN_range; lia|]. split; [by right|].
    unfold kind in K. by destruct (has _ PTE_V).
  - destruct (tabs !! (0, tabno 0 va)) as [t0|] eqn:E0; [|done]. cbn [mbind option_bind].
    split; [eapply pk_word; [done..|]; apply PN_range; lia|]. split; [by left|done].
Qed.

(** What [walkaddr] makes of the entry of an address. *)
Definition translate (va : Z) (leaf : option (Z * Z)) : Z :=
  match leaf with
  | None => 0
  | Some (l, v) =>
      if negb (has v PTE_U) then 0
      else if l =? 0 then PTE2PA v
      else u64 (PTE2PA v + (PGROUNDDOWN va - SUPERPG_DOWN va))
  end.

Lemma walkaddr_ok s root tabs R va : pt_ok s root tabs R -> 0 <= va < MAXVA ->
  walkaddr root va s = Done (translate va (leaf_of (pm s) tabs va)).
Proof.
  intros P Hva. unfold walkaddr. rewrite (proj2 (Z.leb_gt _ _)) by lia.
  rewrite (walk_lookup s root tabs R va P Hva). pose proof (leaf_slot s root tabs R va P) as Hs.
  destruct (slot_of (pm s) tabs va) as [[l p]|]; ocbn; [|by rewrite Hs].
  destruct Hs as (Hw & Hl & ->). assert ((l <=? 1) = true) as -> by (apply Z.leb_le; lia). ocbn.
  destruct (rd_word s p (pk_mem _ _ _ _ P) Hw) as [-> _]. ocbn.
  destruct (has _ PTE_V); cbn [negb translate]; [|done]. destruct (has _ PTE_U); cbn [negb]; [|done].
  by destruct Hl as [-> | ->].
Qed.

(** *** Unmapping *)

(** The entry [v] maps page [p], which is no table and is in use. *)
Definition user_page s tabs R (v p : Z) : Prop :=
  PTE2PA v = page_to_pa p /\ PTE_FLAGS v <> PTE_V /\ 0 <= p < NPAGES /\ is_Some (R !! p) /\
  p ∉ pa_cached (al s) /\ forall x, tabs !! x <> Some (page_to_pa p).

Lemma free_page s root tabs R v p : pt_ok s root tabs R -> user_page s tabs R v p ->
  exists s', free (PTE2PA v) s = Done s' /\ pm s' = pm s /\ pa_cached (al s') = pa_cached (al s) /\
    pt_ok s' root tabs (drop_ref p R).
Proof.
  intros P (Epa & _ & Hp & [[o n] ER] & Hc & Ht).
  destruct (pa_kfree_ok (al s) R p o n (pk_alloc _ _ _ _ P) ER Hc) as (a' & Ek & HR & Ec).
  unfold free. rewrite Epa, Ek. ocbn. exists (with_al a' s). split_and!; [done|done|done|].
  pose proof P as []. constructor; cbn [pm al with_al]; auto.
  intros l b t Et. destruct (pk_tab0 l b t Et) as (Hl & q & -> & Hq & Eq & Hqc). split; [done|].
  assert (q <> p) as Hne by (intros ->; by apply (Ht _ Et)).
  exists q. rewrite Ec, drop_ref_ne by done. done.
Qed.

Definition page_mapped (m : mem) tabs (lo hi q : Z) : Prop :=
  exists x l v, lo <= x < hi /\ leaf_of m tabs x = Some (l, v) /\ PTE2PA v = page_to_pa q.

(** The range [lo, hi) has been unmapped and its pages given back. *)
Record unmapped s R tabs (lo hi : Z) s' R' : Prop := {
  um_cached : pa_cached (al s') = pa_cached (al s);
  um_in x : lo <= x < hi -> leaf_of (pm s') tabs x = None;
  um_out x : ~ lo <= x < hi -> leaf_of (pm s') tabs x = leaf_of (pm s) tabs x;
  um_freed q : 0 <= q < NPAGES -> page_mapped (pm s) tabs lo hi q -> R' !! q = drop_ref q R !! q;
  um_kept q : 0 <= q < NPAGES -> ~ page_mapped (pm s) tabs lo hi q -> R' !! q = R !! q
}.

(** The range can be unmapped: common pages in use, each mapped once. *)
Record unmappable s R tabs (lo hi : Z) : Prop := {
  ua_user x l v : lo <= x < hi -> leaf_of (pm s) tabs x = Some (l, v) ->
    l = 0 /\ exists p, user_page s tabs R v p;
  ua_once x y l v l' v' : lo <= x < hi -> lo <= y < hi ->
    leaf_of (pm s) tabs x = Some (l, v) -> leaf_of (pm s) tabs y = Some (l', v') ->
    PTE2PA v = PTE2PA v' -> x / 4096 = y / 4096
}.

Lemma leaf_same_page m tabs x a : a mod 4096 = 0 -> a <= x < a + 4096 ->
  leaf_of m tabs x = leaf_of m tabs a.
Proof.
  intros Ha Hx%page_floor; [|done]. unfold leaf_of.
  destruct (same_page_index x a 0 ltac:(lia) Hx) as [-> ->].
  by destruct (same_page_index x a 1 ltac:(lia) Hx) as [-> ->].
Qed.

Lemma unmapped_skip s R tabs a hi s' R' : a mod 4096 = 0 -> a + 4096 <= hi ->
  leaf_of (pm s) tabs a = None -> unmapped s R tabs (a + 4096) hi s' R' ->
  unmapped s R tabs a hi s' R'.
Proof.
  intros Ha Hhi En [C Hin Hout Hf Hk].
  assert (forall q, page_mapped (pm s) tabs a hi q <-> page_mapped (pm s) tabs (a + 4096) hi q) as Hiff.
  { intros q. split; intros (x & l & v & Hx & El & Ep); exists x, l, v; split_and!; try done; try lia.
    destruct (Z.lt_ge_cases x (a + 4096)); [|lia].
    rewrite (leaf_same_page _ _ x a) in El by (done || lia). congruence. }
  constructor; [done| | | |].
  - intros x Hx. destruct (Z.lt_ge_cases x (a + 4096)); [|apply Hin; lia].
    rewrite Hout by lia. by rewrite (leaf_same_page _ _ x a) by (done || lia).
  - intros x Hx. apply Hout. lia.
  - intros q Hq Hqm. apply Hf; [done|]. by apply Hiff.
  - intros q Hq Hqm. apply Hk; [done|]. by rewrite <- Hiff.
Qed.

(** One mapped page at [a] has been given back and its entry cleared in [s2]. *)
Lemma unmapped_hit s R tabs a hi v p s2 : a mod 4096 = 0 -> a + 4096 <= hi ->
  leaf_of (pm s) tabs a = Some (0, v) -> user_page s tabs R v p -> unmappable s R tabs a hi ->
  pa_cached (al s2) = pa_cached (al s) ->
  (forall x, a <= x < a + 4096 -> leaf_of (pm s2) tabs x = None) ->
  (forall x, ~ a <= x < a + 4096 -> leaf_of (pm s2) tabs x = leaf_of (pm s) tabs x) ->
  unmappable s2 (drop_ref p R) tabs (a + 4096) hi /\
  (forall s' R', unmapped s2 (drop_ref p R) tabs (a + 4096) hi s' R' -> unmapped s R tabs a hi s' R').
Proof.
  intros Ha Hhi El Hup [Hu Ho] Hc2 Hin2 Hout2. pose proof Hup as (Epa & _ & Hp & _).
  assert (forall x l v', a + 4096 <= x < hi -> leaf_of (pm s) tabs x = Some (l, v') ->
    PTE2PA v' <> page_to_pa p) as Hne.
  { intros x l v' Hx Ex Heq. assert (a / 4096 = x / 4096) as Hpg.
    { eapply (Ho a x); [lia|lia|exact El|exact Ex|congruence]. }
    symmetry in Hpg. apply page_floor in Hpg; [lia|done]. }
  split.
  - constructor.
    + intros x l v' Hx Ex. rewrite Hout2 in Ex by lia.
      destruct (Hu x l v' ltac:(lia) Ex) as (-> & p' & H1 & H2 & H3 & H4 & H5 & H6).
      split; [done|]. exists p'. assert (p' <> p) by (intros ->; by eapply Hne).
      unfold user_page. rewrite Hc2, drop_ref_ne by congruence. done.
    + intros x y l v1 l' v2 Hx Hy Ex Ey. rewrite Hout2 in Ex, Ey by lia. eapply (Ho x y); try done; lia.
  - intros s' R' [C Hin Hout Hf Hk].
    assert (forall q, 0 <= q < NPAGES -> q <> p ->
      page_mapped (pm s) tabs a hi q <-> page_mapped (pm s2) tabs (a + 4096) hi q) as Hiff.
    { intros q Hq Hqp. split; intros (x & l & v' & Hx & Ex & Ep).
      - destruct (Z.lt_ge_cases x (a + 4096)).
        + rewrite (leaf_same_page _ _ x a), El in Ex by (done || lia). injection Ex as <- <-.
          exfalso. apply Hqp. apply page_to_pa_inj; [done|done|congruence].
        + exists x, l, v'. rewrite Hout2 by lia. split_and!; done || lia.
      - exists x, l, v'. rewrite Hout2 in Ex by lia. split_and!; done || lia. }
    constructor; [congruence| | | |].
    + intros x Hx. destruct (Z.lt_ge_cases x (a + 4096)); [|apply Hin; lia].
      rewrite Hout by lia. apply Hin2. lia.
    + intros x Hx. rewrite Hout by lia. apply Hout2. lia.
    + intros q Hq Hqm. destruct (decide (q = p)) as [->|Hqp].
      * rewrite Hk; [done|done|]. intros (x & l & v' & Hx & Ex & Ep). rewrite Hout2 in Ex by lia.
        by eapply Hne.
      * rewrite Hf by (done || by apply Hiff). apply drop_ref_self, drop_ref_ne. congruence.
    + intros q Hq Hqm. assert (q <> p) as Hqp.
      { intros ->. apply Hqm. exists a, 0, v. split_and!; done || lia. }
      rewrite Hk by (done || by rewrite <- Hiff). apply drop_ref_ne. congruence.
Qed.

Lemma unmap_loop_ok grow root tabs va hi k : forall s R a f,
  pt_ok s root tabs R -> 0 <= a -> a mod 4096 = 0 -> hi = a + 4096 * Z.of_nat k -> hi <= MAXVA ->
  (k < f)%nat -> unmappable s R tabs a hi ->
  exists s' R', unmap_loop grow f root va hi a true true s = Done s' /\ pt_ok s' root tabs R' /\
    unmapped s R tabs a hi s' R'.
Proof.
  induction k as [|k IH]; intros s R a [|f] P Ha Hal Hend Hmax Hf Hu; try lia; cbn [unmap_loop].
  { rewrite (proj2 (Z.ltb_ge a hi)) by lia. exists s, R. split; [done|]. split; [done|].
    constructor; try done; try lia. intros q _ (x & l & v & Hx & _). lia. }
  rewrite (proj2 (Z.ltb_lt a hi)) by lia. cbn [negb].
  rewrite (walk_lookup s root tabs R a P) by lia.
  pose proof (leaf_slot s root tabs R a P) as Hs.
  assert (u64 (a + PGSIZE) = a + 4096) as Eu by (apply u64_small; unfold PGSIZE, MAXVA in *; lia).
  assert ((a + 4096) mod 4096 = 0) as Hal' by (rewrite <- (Z.mul_1_l 4096) at 1; by rewrite Z.mod_add).
  assert (leaf_of (pm s) tabs a = None ->
    exists s' R', unmap_loop grow f root va hi (u64 (a + PGSIZE)) true true s = Done s' /\
    pt_ok s' root tabs R' /\ unmapped s R tabs a hi s' R') as Hskip.
  { intros En. rewrite Eu. destruct (IH s R (a + 4096) f) as (s' & R' & E' & P' & U'); try done; try lia.
    { destruct Hu as [H1 H2]. constructor; intros; [eapply H1; [|done]; lia|eapply (H2 x y); try done; lia]. }
    exists s', R'. split_and!; [done..|]. apply unmapped_skip; [done|lia|done|done]. }
  destruct (slot_of (pm s) tabs a) as [[l pte]|] eqn:Esl; ocbn; [|by apply Hskip].
  destruct Hs as (Hw & Hl & El). destruct (rd_word s pte (pk_mem _ _ _ _ P) Hw) as [Er _].
  rewrite Er. ocbn. destruct (has (word (pm s) pte) PTE_V) eqn:HV; cbn [negb]; [|by apply Hskip].
  clear Hskip. set (v := word (pm s) pte) in *.
  destruct (ua_user _ _ _ _ _ Hu a l v ltac:(lia) El) as (-> & p & Hup).
  rewrite (proj2 (Z.eqb_neq _ _) (proj1 (proj2 Hup))). change (0 <=? 1) with true. ocbn.
  destruct (free_page s root tabs R v p P Hup) as (s1 & Ef & Em & Ec & P1). rewrite Ef. ocbn.
  assert (rd pte s1 = Done v) as Er1 by (unfold rd; rewrite Em; exact Er). rewrite Er1. ocbn.
  assert (exists t0, tabs !! (0, tabno 0 a) = Some t0 /\ pte = t0 + 8 * PN 0 a) as (t0 & E0 & ->).
  { unfold slot_of in Esl. destruct (tabs !! (1, tabno 1 a)) as [t1|]; [|done].
    cbn [mbind option_bind] in Esl. destruct (kind _); try done.
    destruct (tabs !! (0, tabno 0 a)) as [t0|]; [|done]. cbn [mbind option_bind] in Esl.
    exists t0. split; [done|]. congruence. }
  destruct (write_leaf s1 root tabs _ a t0 0 P1 ltac:(lia) E0) as (s2 & Ew & Ea & P2 & Hin2 & Hout2).
  rewrite Ew. ocbn. change (0 =? SUPERPAGE) with false. cbn match. rewrite Eu.
  destruct (unmapped_hit s R tabs a hi v p s2) as [Hu2 Hback]; try done; [lia|by rewrite Ea| | |].
  { intros x Hx. apply Hin2. by apply page_floor. }
  { intros x Hx. rewrite Hout2, Em; [done|]. by rewrite <- page_floor. }
  destruct (IH s2 (drop_ref p R) (a + 4096) f) as (s' & R' & E' & P' & U'); try done; try lia.
  exists s', R'. split_and!; [done..|]. by apply Hback.
Qed.

Lemma PGROUNDDOWN_mod a : PGROUNDDOWN a mod 4096 = 0.
Proof.
  rewrite PGROUNDDOWN_alt. pose proof (Z_div_mod_eq_full a 4096).
  replace (a - a mod 4096) with (a / 4096 * 4096) by lia. by apply Z.mod_mul.
Qed.

Lemma page_in_range va size x : 0 <= va -> va <= x < va + size ->
  va < PGROUNDDOWN va + 4096 /\ PGROUNDDOWN va <= PGROUNDDOWN x <= x /\
  x < PGROUNDDOWN (va + size - 1) + 4096.
Proof.
  intros Hva Hx. rewrite !PGROUNDDOWN_alt.
  pose proof (Z_div_mod_eq_full x 4096). pose proof (Z_div_mod_eq_full va 4096).
  pose proof (Z_div_mod_eq_full (va + size - 1) 4096).
  pose proof (Z.mod_pos_bound x 4096 ltac:(lia)). pose proof (Z.mod_pos_bound va 4096 ltac:(lia)).
  pose proof (Z.mod_pos_bound (va + size - 1) 4096 ltac:(lia)).
  pose proof (Z.div_le_mono va x 4096 ltac:(lia) ltac:(lia)). lia.
Qed.

Lemma uvmunmap_ok s root tabs R va npages d :
  pt_ok s root tabs R -> 0 <= va -> va mod 4096 = 0 -> 0 <= npages ->
  va + npages * 4096 <= MAXVA -> unmappable s R tabs va (va + npages * 4096) ->
  exists s' R', uvmunmap (S d) root va npages true true s = Done s' /\ pt_ok s' root tabs R' /\
    unmapped s R tabs va (va + npages * 4096) s' R'.
Proof.
  intros P Hva Hal Hn Hmax Hu. cbn [uvmunmap]. change PGSIZE with 4096. rewrite Hal. cbn [Z.eqb negb].
  rewrite u64_small by (unfold MAXVA in Hmax; lia).
  apply (unmap_loop_ok (uvmalloc d) root tabs va (va + npages * 4096) (Z.to_nat npages)); try done; try lia.
  unfold steps. replace (va + npages * 4096 - va) with (npages * 4096) by lia.
  rewrite Z.div_mul by lia. lia.
Qed.

(** ** The properties *)

(** The entry made for a page, read back with the macros, gives the page
    and the flags it was made from, and its flag bits are the flags' bits. *)
Theorem pte_roundtrip pa f : is_page pa -> 0 <= f < 1024 ->
  PTE2PA (Z.lor (PA2PTE pa) f) = pa /\ PTE_FLAGS (Z.lor (PA2PTE pa) f) = f /\
  forall k, 0 <= k < 10 -> has (Z.lor (PA2PTE pa) f) (2 ^ k) = Z.testbit f k.
Proof. intros Hp Hf. split_and!; [by apply pte_pa|by apply pte_flags|]. intros. by apply pte_has. Qed.

(** C7.  [mappages] of an unmapped range returns, allocating table pages as it
    needs them; it fails only when one of the first two allocations per page of the range
    does.  On success every address of the range is translated by an
    entry for the matching page of [pa] with the permissions asked for; success
    or not, the translation of every other address is what it was, and the
    tables form a well-formed tree of pages in use. *)
Theorem mappages_spec s root tabs R va size pa perm :
  pt_ok s root tabs R -> 0 <= va -> 0 < size -> va + size <= MAXVA ->
  is_page pa -> pa + size + 4096 < 2 ^ 56 -> 0 <= perm < 1024 ->
  let a := PGROUNDDOWN va in
  let stop := PGROUNDDOWN (va + size - 1) + 4096 in
  (forall x, a <= x < stop -> leaf_of (pm s) tabs x = None) ->
  exists e s' tabs' R', mappages root va size pa perm 0 s = Done (e, s') /\
    pt_ok s' root tabs' R' /\ extends s R s' R' /\
    (forall x, ~ a <= x < stop -> leaf_of (pm s') tabs' x = leaf_of (pm s) tabs x) /\
    (e = -1 /\ dry PGSIZE (2 * Z.to_nat ((stop - a) / PGSIZE)) (al s) \/ e = 0 /\ forall x, a <= x < stop ->
       leaf_of (pm s') tabs' x = Some (0, map_pte (pa + (PGROUNDDOWN x - a)) perm)).
Proof. apply mappages_ok. Qed.

(** [mappages] followed by [walkaddr]: before the call no address of the
    range translates; when the call succeeds, [walkaddr] of any address of the
    range gives the physical page it was mapped to if [PTE_U] was asked for,
    and 0 otherwise. *)
Theorem map_then_walkaddr s root tabs R va size pa perm :
  pt_ok s root tabs R -> 0 <= va -> 0 < size -> va + size <= MAXVA ->
  is_page pa -> pa + size + 4096 < 2 ^ 56 -> 0 <= perm < 1024 ->
  (forall x, PGROUNDDOWN va <= x < PGROUNDDOWN (va + size - 1) + 4096 -> leaf_of (pm s) tabs x = None) ->
  exists e s', mappages root va size pa perm 0 s = Done (e, s') /\
  forall x, va <= x < va + size ->
    walkaddr root x s = Done 0 /\
    (e = 0 -> walkaddr root x s' =
       Done (if has perm PTE_U then pa + (PGROUNDDOWN x - PGROUNDDOWN va) else 0)).
Proof.
  intros P Hva Hsz Hmax Hpa Hpb Hperm Hnone.
  destruct (mappages_ok s root tabs R va size pa perm P Hva Hsz Hmax Hpa Hpb Hperm Hnone)
    as (e & s' & tabs' & R' & E & P' & _ & _ & He). exists e, s'. split; [done|]. intros x Hx.
  destruct (page_in_range va size x Hva Hx) as (H1 & H2 & H3).
  rewrite (walkaddr_ok s root tabs R x P) by lia. rewrite (walkaddr_ok s' root tabs' R' x P') by lia.
  rewrite Hnone by lia. split; [done|]. intros ->. destruct He as [[? _]|[_ He]]; [done|]. rewrite He by lia.
  set (pa' := pa + (PGROUNDDOWN x - PGROUNDDOWN va)).
  assert (is_page pa') as Hpa'.
  { destruct Hpa as [H4 H5]. unfold pa'. split; [lia|].
    rewrite Z.add_mod, Zminus_mod, H5, !PGROUNDDOWN_mod by lia. done. }
  destruct (map_pte_facts pa' perm Hpa' Hperm) as (_ & _ & Epa & Hbits).
  cbn [translate]. unfold PTE_U. rewrite (Hbits 4), (has_testbit perm 4) by lia. rewrite Epa.
  by destruct (Z.testbit perm 4).
Qed.

(** [uvmunmap] with [do_free] and [on_demand], on a page-aligned range of
    common pages each mapped once: it returns; no address of the range is
    mapped any more, every other address is translated as before, each page
    that was mapped loses exactly one reference, and no other block changes. *)
Theorem uvmunmap_spec s root tabs R va npages d :
  pt_ok s root tabs R -> 0 <= va -> va mod 4096 = 0 -> 0 <= npages ->
  va + npages * 4096 <= MAXVA -> unmappable s R tabs va (va + npages * 4096) ->
  exists s' R', uvmunmap (S d) root va npages true true s = Done s' /\ pt_ok s' root tabs R' /\
    unmapped s R tabs va (va + npages * 4096) s' R'.
Proof. apply uvmunmap_ok. Qed.
End theory.

(** ** A page table in the two-cpu machine *)

(** Memory of [n] zero bytes from [a] on. *)
Definition zero_mem (a n : Z) : mem := gset_to_gmap 0 (list_to_set (seqZ a n)).

Lemma zero_mem_lookup a n x : a <= x < a + n -> zero_mem a n !! x = Some 0.
Proof.
  intros Hx. unfold zero_mem. apply lookup_gset_to_gmap_Some.
  by rewrite elem_of_list_to_set, elem_of_seqZ.
Qed.

Lemma zero_mem_bytes a n : bytes_ok (zero_mem a n).
Proof. intros x y E. apply lookup_gset_to_gmap_Some in E as [_ <-]. lia. Qed.

Definition ram_size : Z := PHYSTOP - START_MEM.

Lemma zero_ram_ok : mem_ok (zero_mem START_MEM ram_size).
Proof.
  split; [|apply zero_mem_bytes]. intros a Ha. exists 0. apply zero_mem_lookup.
  unfold ram_size. lia.
Qed.

Lemma word_zero m a : (forall x, a <= x < a + 8 -> m !! x = Some 0) -> word m a = 0.
Proof. intros H. unfold word. by rewrite load64_zero. Qed.

Abbreviation kernel := (kstate pstore (gset Z)).
#[export] Instance kernel_pages : PageAlloc kernel :=
  kalloc_pages (RC := drop_cache 2) 2 0.
#[export] Instance kernel_pages_ok : PageAllocOk kernel :=
  kalloc_pages_ok (RC := drop_cache 2) 2 ncpu2 heads2 pages2 id (drop_cache_ok 2 ncpu2 heads2 pages2)
    0 cpu0.

(** A machine with one page in use, the root of an empty page table. *)
(** A cleared page is a page table that maps nothing. *)
Lemma empty_table {A} `{!PageAlloc A, !PageAllocOk A} (a : A) R p : pa_rep a R -> 0 <= p < NPAGES ->
  R !! p = Some (0, 1) -> p ∉ pa_cached a ->
  let s := PS (zero_mem START_MEM ram_size) a in
  pt_ok s (page_to_pa p) {[(2, 0) := page_to_pa p]} R /\
  forall va, leaf_of (pm s) {[(2, 0) := page_to_pa p]} va = None.
Proof.
  intros Ha Hp' ER Hc.
  assert (forall l b t, ({[(2, 0) := page_to_pa p]} : gmap (Z * Z) Z) !! (l, b) = Some t ->
    l = 2 /\ b = 0 /\ t = page_to_pa p) as Hone.
  { intros l b t E. apply lookup_singleton_Some in E as [[= <- <-] <-]. split; [reflexivity|]. split; reflexivity. }
  assert (forall i, 0 <= i < 512 -> word (zero_mem START_MEM ram_size) (page_to_pa p + 8 * i) = 0) as Hz.
  { intros i Hi. apply word_zero. intros x Hx. apply zero_mem_lookup.
    pose proof (table_word p i Hp' Hi) as [H1 H2]. unfold ram_size. lia. }
  split.
  - constructor; cbn [pm al].
    + exact zero_ram_ok.
    + exact Ha.
    + apply lookup_singleton_eq.
    + intros l b t E. destruct (Hone l b t E) as (-> & _ & ->). split; [lia|].
      exists p. split; [reflexivity|]. split; [exact Hp'|]. split; [exact ER|exact Hc].
    + intros [l b] [l' b'] t E E'. destruct (Hone _ _ _ E) as (-> & -> & _).
      destruct (Hone _ _ _ E') as (-> & -> & _). reflexivity.
    + intros l b t E Hl. destruct (Hone _ _ _ E) as (-> & _). lia.
    + intros l b t i E Hl Hi. destruct (Hone _ _ _ E) as (-> & -> & ->). rewrite (Hz i Hi).
      rewrite kind_zero. apply lookup_singleton_ne. intros [=].
  - intros va. unfold leaf_of. cbn [pm].
    destruct (({[(2, 0) := page_to_pa p]} : gmap (Z * Z) Z) !! (1, tabno 1 va)) as [t|] eqn:E; [|reflexivity].
    destruct (Hone _ _ _ E) as (H1 & _). lia.
Qed.

Lemma demo_pt : exists (s : ptstate kernel) root R,
  pt_ok s root {[(2, 0) := root]} R /\ forall va, leaf_of (pm s) {[(2, 0) := root]} va = None.
Proof.
  destruct (one_page (∅ : gset Z)) as (ks & L & p & K & Hp & Er & Ef).
  exists (PS (zero_mem START_MEM ram_size) ks), (page_to_pa p), {[p := (0, 1)]}.
  apply empty_table.
  - split; [exists L; exact K|]. rewrite Er, Ef. split; [lia|apply empty_subseteq].
  - exact Hp.
  - apply lookup_singleton_eq.
  - cbn. rewrite Ef. apply not_elem_of_empty.
Qed.

Lemma pte_roundtrip_witness : PTE2PA (Z.lor (PA2PTE 0x82801000) 0x17) = 0x82801000.
Proof. refine (proj1 (pte_roundtrip 0x82801000 0x17 _ _)); [split; [lia|reflexivity]|lia]. Defined.

Lemma demo_user_page : is_page 0x82801000.
Proof. split; [lia|reflexivity]. Qed.

Lemma mappages_spec_witness : exists (s : ptstate spare) root tabs s' tabs',
  pt_ok s root tabs demo_used /\ mappages root 0x1000 0x2000 0x82801000 0x16 0 s = Done (0, s') /\
  leaf_of (pm s') tabs' 0x2008 = Some (0, map_pte 0x82802000 0x16).
Proof.
  destruct (empty_table (A := spare) demo_used demo_used 3 demo_used_rep) as [P Hl].
  - change NPAGES with 251904. lia.
  - reflexivity.
  - apply not_elem_of_empty.
  - set (s := PS (zero_mem START_MEM ram_size) demo_used) in P, Hl.
    destruct (mappages_spec s (page_to_pa 3) _ demo_used 0x1000 0x2000 0x82801000 0x16 P)
      as (e & s' & tabs' & R' & E & P' & _ & _ & [[_ D]|[-> He]]).
    + lia.
    + lia.
    + unfold MAXVA. lia.
    + exact demo_user_page.
    + lia.
    + lia.
    + intros x _. apply Hl.
    + exfalso. refine (spare_not_dry _ demo_used _ D). vm_compute. reflexivity.
    + exists s, (page_to_pa 3), {[(2, 0) := page_to_pa 3]}, s', tabs'. split; [exact P|]. split; [exact E|].
      refine (He 0x2008 _). vm_compute. split; [discriminate|reflexivity].
Defined.

Lemma map_then_walkaddr_witness : exists (s : ptstate kernel) root e s',
  mappages root 0x1000 0x3000 0x82801000 0x16 0 s = Done (e, s') /\
  (e = 0 -> walkaddr root 0x2008 s' = Done 0x82802000).
Proof.
  destruct demo_pt as (s & root & R & P & Hl).
  destruct (map_then_walkaddr s root _ R 0x1000 0x3000 0x82801000 0x16 P) as (e & s' & E & Hw).
  - lia.
  - lia.
  - unfold MAXVA. lia.
  - exact demo_user_page.
  - lia.
  - lia.
  - intros x _. apply Hl.
  - exists s, root, e, s'. split; [exact E|]. exact (proj2 (Hw 0x2008 ltac:(lia))).
Defined.

Lemma uvmunmap_spec_witness : exists (s : ptstate kernel) root tabs R s' R',
  pt_ok s root tabs R /\ uvmunmap UVM_DEPTH root 0x1000 4 true true s = Done s' /\ pt_ok s' root tabs R'.
Proof.
  destruct demo_pt as (s & root & R & P & Hl).
  destruct (uvmunmap_spec s root _ R 0x1000 4 3 P) as (s' & R' & E & P' & _).
  - lia.
  - reflexivity.
  - lia.
  - unfold MAXVA. lia.
  - split.
    + intros x l v _ Ex. rewrite Hl in Ex. discriminate Ex.
    + intros x y l v l' v' _ _ Ex. rewrite Hl in Ex. discriminate Ex.
  - exists s, root, {[(2, 0) := root]}, R, s', R'. exact (conj P (conj E P')).
Defined.
