(* ===== verification/Vma.v ===== *)
(** * Vma: virtual memory areas

    [src/mm/vma.c], [src/mm/mmap.c] and [include/memory/vma.h]: the table of
    area descriptors, the list of areas of an address space, and the system
    calls that map, unmap, split and protect areas.  An address space (an
    [mm_struct]) is named by a number, which is also the head of its list; an
    area by its index in [vmas].  The page-table side of these calls goes
    through the class [PtOps], instantiated by the routines of [PageTable]. *)

From stdpp Require Import base gmap sets list fin_maps.
From Stdlib Require Import ZArith Lia.
From S2P Require Import Prelude KList Buddy Kalloc Pmem PageAlloc PageTable.
#[local] Open Scope Z_scope.

Definition NVMA : Z := 3000.

Definition MAP_SHARED : Z := 1.
Definition MAP_PRIVATE : Z := 2.
Definition MAP_FIXED : Z := 16.
Definition MAP_ANONYMOUS : Z := 32.
Definition MAP_FAILED : Z := u64 (-1).

Definition PERM_READ : Z := 2 ^ 0.
Definition PERM_WRITE : Z := 2 ^ 1.
Definition PERM_EXEC : Z := 2 ^ 2.
Definition PERM_SHARED : Z := 2 ^ 3.

Inductive vmatype := VMA_STACK | VMA_HEAP | VMA_TEXT | VMA_FILE | VMA_ANON | VMA_INTERP.
#[export] Instance vmatype_eq_dec : EqDecision vmatype.
Proof. solve_decision. Defined.

(** [struct vma], without its list links. *)
Record vma := Vma {
  vtype : vmatype; startva : Z; vsize : Z; perm : Z; used : Z; offset : Z; vm_file : option Z
}.

(** [struct mm_struct]: the fields the areas use. *)
Record mm_struct := Mm { mm_pagetable : Z; start_brk : Z; brk : Z; heapvma : option Z }.

(** [struct file]: whether [F_WRITEABLE], and the reference count. *)
Record file := File { f_writeable : bool; f_count : Z }.

(** What the areas need of the page tables and of the file system. *)
Class PtOps (P : Type) := {
  (** [walk(pagetable, va, 0, 0, &pte)]: the return value, and the entry when
      [pte] is not NULL. *)
  pt_walk : Z -> Z -> P -> outcome (Z * option Z);
  pt_uvmunmap : Z -> Z -> Z -> bool -> bool -> P -> outcome P;
  (** [fat32_filewrite(fp, addr, n)] *)
  pt_filewrite : Z -> Z -> Z -> P -> outcome P
}.

Section vma.
Context {W P : Type} `{!ListOps Z Z W, !PtOps P}.

Record vmstate := VS {
  vmas : gmap Z vma; vlists : W; mms : gmap Z mm_struct; files : gmap Z file; vpt : P
}.

Definition vma_at (s : vmstate) (i : Z) : outcome vma := deref (vmas s !! i).
Definition set_vma (i : Z) (v : vma) (s : vmstate) : vmstate :=
  VS (<[i := v]> (vmas s)) (vlists s) (mms s) (files s) (vpt s).
Definition with_vlists (w : W) (s : vmstate) : vmstate := VS (vmas s) w (mms s) (files s) (vpt s).
Definition with_vpt (p : P) (s : vmstate) : vmstate := VS (vmas s) (vlists s) (mms s) (files s) p.
Definition with_mms (m : gmap Z mm_struct) (s : vmstate) : vmstate :=
  VS (vmas s) (vlists s) m (files s) (vpt s).
Definition mm_at (s : vmstate) (mm : Z) : outcome mm_struct := deref (mms s !! mm).

Definition set_used (n : Z) (v : vma) : vma :=
  Vma (vtype v) (startva v) (vsize v) (perm v) n (offset v) (vm_file v).
Definition set_range (start size : Z) (v : vma) : vma :=
  Vma (vtype v) start size (perm v) (used v) (offset v) (vm_file v).
Definition set_perm (p : Z) (v : vma) : vma :=
  Vma (vtype v) (startva v) (vsize v) p (used v) (offset v) (vm_file v).
Definition set_offset (o : Z) (v : vma) : vma :=
  Vma (vtype v) (startva v) (vsize v) (perm v) (used v) o (vm_file v).
Definition set_file (o : Z) (f : option Z) (v : vma) : vma :=
  Vma (vtype v) (startva v) (vsize v) (perm v) (used v) o f.

(** [pos->startva + pos->size] *)
Definition vend (v : vma) : Z := u64 (startva v + vsize v).

Fixpoint find_slot (n : nat) (i : Z) (s : vmstate) : outcome (option Z) :=
  match n with
  | O => Done None
  | S n => v ← vma_at s i; if used v =? 0 then Done (Some i) else find_slot n (i + 1) s
  end.

(** [alloc_vma] only sets [used]: the other fields are those of the last user. *)
Definition alloc_vma (s : vmstate) : outcome (option Z * vmstate) :=
  r ← find_slot (Z.to_nat NVMA) 0 s;
  match r with
  | None => Done (None, s)
  | Some i => v ← vma_at s i; Done (Some i, set_vma i (set_used 1 v) s)
  end.

(** [vmas_init]: the table is cleared. *)
Definition zero_vma : vma := Vma VMA_STACK 0 0 0 0 0 None.
Definition vmas_init (w : W) (mm : gmap Z mm_struct) (fl : gmap Z file) (p : P) : vmstate :=
  VS (gset_to_gmap zero_vma (list_to_set (seqZ 0 NVMA))) w mm fl p.

Definition free_vma (i : Z) (s : vmstate) : outcome vmstate :=
  v ← vma_at s i; Done (set_vma i (set_used 0 v) s).

Fixpoint intersect_loop (l : list Z) (checked_start checked_end : Z) (s : vmstate) : outcome bool :=
  match l with
  | [] => Done false
  | pos :: l =>
      v ← vma_at s pos;
      let start := startva v in
      let end_ := vend v in
      if ((start <=? checked_start) && (checked_start <? end_)) ||
         ((start <=? checked_end) && (checked_end <? end_))
      then Done true
      else intersect_loop l checked_start checked_end s
  end.

Definition check_vma_intersect (head : Z) (checked_vma : Z) (s : vmstate) : outcome bool :=
  c ← vma_at s checked_vma;
  let checked_start := startva c in
  let checked_end := u64 (checked_start + vsize c - 1) in
  l ← lh_each head (vlists s);
  intersect_loop l checked_start checked_end s.

(** An overlap stops the machine ([ASSERT(0)]) before -1 could be returned. *)
Definition add_vma_to_vmspace (head i : Z) (s : vmstate) : outcome (Z * vmstate) :=
  b ← check_vma_intersect head i s;
  if (b : bool) then Panic
  else w ← lh_add i head (vlists s); Done (0, with_vlists w s).

Definition is_vma_in_vmspace (head i : Z) (s : vmstate) : outcome bool :=
  l ← lh_each head (vlists s); Done (bool_decide (i ∈ (l : list Z))).

Definition del_vma_from_vmspace (head i : Z) (s : vmstate) : outcome vmstate :=
  b ← is_vma_in_vmspace head i s;
  if (b : bool) then w ← lh_del i (vlists s); free_vma i (with_vlists w s) else Panic.

Definition vma_map_range (mm va len prm : Z) (type : vmatype) (s : vmstate)
    : outcome (option Z * vmstate) :=
  '(r, s) ← alloc_vma s;
  match r with
  | None => Done (None, s)
  | Some i =>
      ASSERT (va mod PGSIZE =? 0);;
      v ← vma_at s i;
      let len := if len <? PGSIZE then PGSIZE else len in
      let s := set_vma i (Vma type (PGROUNDDOWN va) (PGROUNDUP len) (u32 prm) (used v)
                              (offset v) (vm_file v)) s in
      '(e, s) ← add_vma_to_vmspace mm i s;
      if e <? 0 then s ← free_vma i s; Done (None, s) else Done (Some i, s)
  end.

(** [fat32_filedup] *)
Definition filedup (f : Z) (s : vmstate) : outcome vmstate :=
  fl ← deref (files s !! f);
  if f_count fl <? 1 then Panic
  else Done (VS (vmas s) (vlists s) (mms s)
               (<[f := File (f_writeable fl) (s32 (f_count fl + 1))]> (files s)) (vpt s)).

Definition vma_map_file (mm va len prm : Z) (type : vmatype) (off fp : Z) (s : vmstate)
    : outcome (Z * vmstate) :=
  fl ← deref (files s !! fp);
  if negb (f_writeable fl) && (has prm PERM_WRITE && has prm PERM_SHARED) then Done (-1, s)
  else
    '(r, s) ← vma_map_range mm va len prm type s;
    match r with
    | None => Done (-1, s)
    | Some i =>
        v ← vma_at s i;
        let s := set_vma i (set_file (u64 off) (Some fp) v) s in
        s ← filedup fp s;
        Done (0, s)
    end.

Definition set_heapvma (mm : Z) (h : option Z) (s : vmstate) : outcome vmstate :=
  m ← mm_at s mm;
  Done (with_mms (<[mm := Mm (mm_pagetable m) (start_brk m) (brk m) h]> (mms s)) s).

Definition vma_map (mm va len prm : Z) (type : vmatype) (s : vmstate) : outcome (Z * vmstate) :=
  '(r, s) ← vma_map_range mm va len prm type s;
  match r with
  | None => Done (-1, s)
  | Some i =>
      s ← (if bool_decide (type = VMA_HEAP) then set_heapvma mm (Some i) s else Done s);
      Done (0, s)
  end.

Fixpoint writeback_loop (fuel : nat) (pagetable fp addr endva : Z) (p : P) : outcome P :=
  match fuel with
  | O => NoFuel
  | S f =>
      if negb (addr <? endva) then Done p
      else
        '(_, pte) ← pt_walk pagetable addr p;
        p ← match pte with
            | Some v =>
                if negb (has v PTE_V) then Done p
                else if has (PTE_FLAGS v) PTE_D
                then pt_filewrite fp addr
                       (if endva - addr <? PGSIZE then endva - addr else PGSIZE) p
                else Done p
            | None => Done p
            end;
        writeback_loop f pagetable fp (u64 (addr + PGSIZE)) endva p
  end.

Definition writeback (pagetable : Z) (fp : option Z) (start len : Z) (p : P) : outcome P :=
  ASSERT (start mod PGSIZE =? 0);;
  match fp with
  | None => Panic
  | Some fp =>
      let endva := u64 (start + len) in
      writeback_loop (steps start endva PGSIZE) pagetable fp start endva p
  end.

Fixpoint find_area (l : list Z) (addr : Z) (s : vmstate) : outcome (option Z) :=
  match l with
  | [] => Done None
  | pos :: l =>
      v ← vma_at s pos;
      if (startva v <=? addr) && (addr <? vend v) then Done (Some pos) else find_area l addr s
  end.

Definition find_vma_for_va (mm addr : Z) (s : vmstate) : outcome (option Z) :=
  l ← lh_each mm (vlists s); find_area l addr s.

(** [vmspace_unmap]; each recursive call follows the removal of an area. *)
Fixpoint vmspace_unmap (fuel : nat) (mm va len : Z) (s : vmstate) : outcome (Z * vmstate) :=
  match fuel with
  | O => NoFuel
  | S f =>
      r ← find_vma_for_va mm va s;
      match r with
      | None => Done (-1, s)
      | Some i =>
          v ← vma_at s i;
          m ← mm_at s mm;
          let start := startva v in
          let size := vsize v in
          if negb (va =? start) then Done (-1, s)
          else
            let origin_len := len in
            let len := PGROUNDUP len in
            p ← (if bool_decide (vtype v = VMA_FILE) then
                   if has (perm v) PERM_SHARED && has (perm v) PERM_WRITE
                   then writeback (mm_pagetable m) (vm_file v) start origin_len (vpt s)
                   else Done (vpt s)
                 else Done (vpt s));
            let s := with_vpt p s in
            if len <? size then
              let s := set_vma i (set_range (u64 (start + len)) (u64 (size - len)) v) s in
              p ← pt_uvmunmap (mm_pagetable m) start (PGROUNDUP size / PGSIZE) true true (vpt s);
              Done (0, with_vpt p s)
            else
              s ← del_vma_from_vmspace mm i s;
              p ← pt_uvmunmap (mm_pagetable m) start (PGROUNDUP size / PGSIZE) true true (vpt s);
              let s := with_vpt p s in
              if size <? len then
                '(_, s) ← vmspace_unmap f mm (u64 (va + size)) (u64 (len - size)) s;
                Done (0, s)
              else Done (0, s)
      end
  end.

(** One round per area is enough. *)
Definition unmap_fuel : nat := S (Z.to_nat NVMA).

Definition MMAP_START : Z := 0x30000000.

Fixpoint max_end (l : list Z) (max : Z) (s : vmstate) : outcome Z :=
  match l with
  | [] => Done max
  | pos :: l =>
      v ← vma_at s pos;
      if bool_decide (vtype v = VMA_INTERP) then max_end l max s
      else if bool_decide (vtype v = VMA_STACK) then max_end l max s
      else max_end l (if max <? vend v then vend v else max) s
  end.

Definition find_mapping_space (mm : Z) (s : vmstate) : outcome Z :=
  l ← lh_each mm (vlists s);
  max ← max_end l MMAP_START s;
  ASSERT (max mod PGSIZE =? 0);;
  m ← mm_at s mm;
  '(ret, pte) ← pt_walk (mm_pagetable m) max (vpt s);
  match pte with
  | None => if ret =? -1 then Done max else Undef
  | Some v => if (ret =? -1) || (v =? 0) then Done max else Panic
  end.

(** [vmacopy]: the areas of the parent, in list order. *)
Fixpoint vmacopy_loop (l : list Z) (dst : Z) (s : vmstate) : outcome (Z * vmstate) :=
  match l with
  | [] => Done (0, s)
  | pos :: l =>
      v ← vma_at s pos;
      '(e, s) ← (if bool_decide (vtype v = VMA_FILE) then
                   fp ← deref (vm_file v);
                   vma_map_file dst (startva v) (vsize v) (perm v) (vtype v) (offset v) fp s
                 else vma_map dst (startva v) (vsize v) (perm v) (vtype v) s);
      if e <? 0 then Done (-1, s) else vmacopy_loop l dst s
  end.

Definition vmacopy (srcmm dstmm : Z) (s : vmstate) : outcome (Z * vmstate) :=
  l ← lh_each srcmm (vlists s); vmacopy_loop l dstmm s.

(** [free_all_vmas]: the walk is the safe one, over the areas there were when
    it started. *)
Fixpoint free_areas (l : list Z) (mm : Z) (s : vmstate) : outcome vmstate :=
  match l with
  | [] => Done s
  | pos :: l =>
      v ← vma_at s pos;
      if bool_decide (vtype v = VMA_HEAP) && (vsize v =? 0) then
        s ← del_vma_from_vmspace mm pos s; free_areas l mm s
      else
        '(e, s) ← vmspace_unmap unmap_fuel mm (startva v) (vsize v) s;
        if e <? 0 then Panic else free_areas l mm s
  end.

Definition free_all_vmas (mm : Z) (s : vmstate) : outcome vmstate :=
  l ← lh_each mm (vlists s); free_areas l mm s.

Definition split_vma (mm i addr : Z) (new_below : bool) (s : vmstate) : outcome (Z * vmstate) :=
  '(r, s) ← alloc_vma s;
  match r with
  | None => Done (-1, s)
  | Some n =>
      v ← vma_at s i;
      let s :=
        if new_below then
          let size := u64 (startva v + vsize v - addr) in
          let v' := set_offset (u64 (offset v + (addr - startva v))) (set_range addr size v) in
          set_vma n (set_range (startva v) (u64 (addr - startva v)) v) (set_vma i v' s)
        else
          let size := u64 (startva v + vsize v - addr) in
          let v' := set_range (startva v) (u64 (addr - startva v)) v in
          let n' := set_offset (u64 (offset v + (addr - startva v))) (set_range addr size v) in
          set_vma n n' (set_vma i v' s)
      in
      s ← match vm_file v with Some f => filedup f s | None => Done s end;
      '(e, s) ← add_vma_to_vmspace mm n s;
      if e <? 0 then s ← free_vma n s; Done (-1, s) else Done (0, s)
  end.

(** *** System calls *)

Definition mkperm (prot flags : Z) : Z :=
  Z.lor (if has flags MAP_SHARED then PERM_SHARED else 0) prot.

(** The heap area after an area of the heap was split. *)
Fixpoint fix_heapvma (l : list Z) (mm : Z) (s : vmstate) : outcome vmstate :=
  match l with
  | [] => Done s
  | pos :: l =>
      v ← vma_at s pos;
      m ← mm_at s mm;
      s ← (if bool_decide (vtype v = VMA_HEAP) && (vend v =? brk m)
           then set_heapvma mm (Some pos) s else Done s);
      fix_heapvma l mm s
  end.

(** The part of [do_mmap] for [MAP_FIXED]: make room at [addr]; the result is
    the address to map at, or [None] for [MAP_FAILED]. *)
Definition mmap_fixed (mm addr length : Z) (s : vmstate) : outcome (option Z * vmstate) :=
  let start := addr in
  let end_ := u64 (addr + length) in
  r ← find_vma_for_va mm addr s;
  match r with
  | None => Done (Some 0, s)
  | Some i =>
      v ← vma_at s i;
      '(e, s) ← (if negb (start =? startva v) then split_vma mm i start true s else Done (0, s));
      if e <? 0 then Done (None, s)
      else
        v ← vma_at s i;
        '(e, s) ← (if negb (end_ =? vend v) then split_vma mm i end_ false s else Done (0, s));
        if e <? 0 then Done (None, s)
        else
          v ← vma_at s i;
          s ← (if bool_decide (vtype v = VMA_HEAP)
               then l ← lh_each mm (vlists s); fix_heapvma l mm s else Done s);
          s ← del_vma_from_vmspace mm i s;
          Done (Some addr, s)
  end.

Definition do_mmap (mm addr length prot flags : Z) (fp : option Z) (off : Z) (s : vmstate)
    : outcome (Z * vmstate) :=
  '(mapva, s) ←
    (if addr =? 0 then m ← find_mapping_space mm s; Done (Some m, s)
     else if negb (has flags MAP_FIXED) then Done (None, s)
     else mmap_fixed mm addr length s);
  match mapva with
  | None => Done (MAP_FAILED, s)
  | Some mapva =>
      '(e, s) ← (match fp with
                 | Some fp =>
                     if has flags MAP_ANONYMOUS
                     then vma_map mm mapva length (mkperm prot flags) VMA_ANON s
                     else vma_map_file mm mapva length (mkperm prot flags) VMA_FILE off fp s
                 | None => vma_map mm mapva length (mkperm prot flags) VMA_ANON s
                 end);
      if e <? 0 then Done (MAP_FAILED, s) else Done (mapva, s)
  end.

(** [sys_mmap]; the arguments are those fetched from the trap frame. *)
Definition sys_mmap (mm addr length prot flags : Z) (fp : option Z) (off : Z) (s : vmstate)
    : outcome (Z * vmstate) :=
  if negb (off =? 0) then Done (MAP_FAILED, s)
  else do_mmap mm addr length prot flags fp off s.

(** [sys_munmap]; [entry_thread] is the test on the program's name and the
    thread's index. *)
Definition sys_munmap (entry_thread : bool) (mm addr length : Z) (s : vmstate)
    : outcome (Z * vmstate) :=
  v2 ← find_vma_for_va mm addr s;
  skip ← (if entry_thread
          then i ← deref v2; v ← vma_at s i; Done (bool_decide (vtype v = VMA_ANON))
          else Done false);
  if (skip : bool) then Done (0, s)
  else
    '(e, s) ← vmspace_unmap unmap_fuel mm addr length s;
    if negb (e =? 0) then Done (-1, s) else Done (0, s).

Definition sys_mprotect (mm start len prot : Z) (s : vmstate) : outcome (Z * vmstate) :=
  if len =? 0 then Done (0, s)
  else
    let len := PGROUNDUP len in
    let end_ := u64 (start + len) in
    if end_ <? start then Done (-1, s)
    else if negb (Z.ldiff (u32 prot) 7 =? 0) then Done (-1, s)
    else
      r ← find_vma_for_va mm start s;
      match r with
      | None => Done (-1, s)
      | Some i =>
          v ← vma_at s i;
          '(e, s) ← (if negb (start =? startva v) then split_vma mm i start true s else Done (0, s));
          if e <? 0 then Done (-1, s)
          else
            v ← vma_at s i;
            '(e, s) ← (if negb (end_ =? vend v) then split_vma mm i end_ false s else Done (0, s));
            if e <? 0 then Done (-1, s)
            else
              v ← vma_at s i;
              Done (0, set_vma i (set_perm (u32 prot) v) s)
      end.
End vma.
Arguments vmstate : clear implicits.

(** ** Well-formed address spaces *)

(** The addresses of an area. *)
Definition in_area (v : vma) (x : Z) : Prop := startva v <= x < startva v + vsize v.

#[export] Instance in_area_dec v x : Decision (in_area v x).
Proof. unfold in_area. apply _. Defined.

(** The top of the main stack; trap frames and trampoline are above. *)
Definition USER_TOP : Z := USTACK + USTACK_PAGE * PGSIZE.

Lemma USER_TOP_eq : USER_TOP = 2 ^ 38 - 5120 * 4096.
Proof. reflexivity. Qed.

(** Page-aligned and below the top of the stack. *)
Definition vma_wf (v : vma) : Prop :=
  0 <= startva v /\ 0 <= vsize v /\ startva v + vsize v <= USER_TOP /\
  startva v mod 4096 = 0 /\ vsize v mod 4096 = 0.

Definition apart_areas (v v' : vma) : Prop := forall x, in_area v x -> ~ in_area v' x.

Section wf.
Context {W P : Type} `{!ListOps Z Z W, !ListHeap Z Z W, !PtOps P}.
Implicit Types (s : vmstate W P) (L : gmap Z (list Z)).

(** Descriptors are in use exactly while they are in a list; the areas of one
    space are well-formed and disjoint. *)
Record vm_ok HS XS s L : Prop := {
  vo_rep : lh_rep HS XS (vlists s) L;
  vo_slots i : 0 <= i < NVMA -> is_Some (vmas s !! i) /\ i ∈ XS;
  vo_used i v : 0 <= i < NVMA -> vmas s !! i = Some v ->
    used v = 0 <-> forall h l, L !! h = Some l -> i ∉ l;
  vo_range h l i : L !! h = Some l -> i ∈ l -> 0 <= i < NVMA;
  vo_wf h l i v : L !! h = Some l -> i ∈ l -> vmas s !! i = Some v -> vma_wf v;
  vo_apart h l i j v w : L !! h = Some l -> i ∈ l -> j ∈ l -> i <> j ->
    vmas s !! i = Some v -> vmas s !! j = Some w -> apart_areas v w
}.

Lemma vend_wf v : vma_wf v -> vend v = startva v + vsize v.
Proof. intros (? & ? & Hm & _). unfold vend. apply u64_small. rewrite USER_TOP_eq in Hm. lia. Qed.

Lemma vma_at_run s i v : vmas s !! i = Some v -> vma_at s i = Done v.
Proof. intros E. unfold vma_at. by rewrite E. Qed.

Lemma vo_member HS XS s L h l i : vm_ok HS XS s L -> L !! h = Some l -> i ∈ l ->
  exists v, vmas s !! i = Some v /\ vma_wf v /\ 0 <= i < NVMA.
Proof.
  intros V E Hi. pose proof (vo_range _ _ _ _ V _ _ _ E Hi) as Hr.
  destruct (vo_slots _ _ _ _ V i Hr) as [[v Ev] _]. exists v. split; [done|].
  split; [|done]. by eapply vo_wf.
Qed.

(** *** Looking up an address *)

Lemma find_area_ok s l addr :
  (forall i, i ∈ l -> exists v, vmas s !! i = Some v /\ vma_wf v) ->
  exists r, find_area l addr s = Done r /\
    match r with
    | Some i => i ∈ l /\ exists v, vmas s !! i = Some v /\ in_area v addr
    | None => forall i v, i ∈ l -> vmas s !! i = Some v -> ~ in_area v addr
    end.
Proof.
  induction l as [|i l IH]; intros Hl; cbn [find_area].
  { exists None. split; [done|]. intros i v Hi. by apply not_elem_of_nil in Hi. }
  destruct (Hl i ltac:(by left)) as (v & Ev & Hv). rewrite (vma_at_run _ _ _ Ev). ocbn.
  rewrite (vend_wf _ Hv).
  destruct ((startva v <=? addr) && (addr <? startva v + vsize v)) eqn:Ec.
  - exists (Some i). split; [done|]. split; [by left|]. exists v. split; [done|].
    rewrite andb_true_iff, Z.leb_le, Z.ltb_lt in Ec. done.
  - destruct IH as (r & -> & Hr); [intros j Hj; apply Hl; by right|]. exists r. split; [done|].
    destruct r as [j|].
    + destruct Hr as [? ?]. split; [by right|done].
    + intros j w [->|Hj]%elem_of_cons Ew; [|by eapply Hr].
      rewrite Ev in Ew. injection Ew as <-.
      rewrite andb_false_iff, Z.leb_gt, Z.ltb_ge in Ec. unfold in_area. lia.
Qed.

Lemma find_vma_ok HS XS s L mm l addr : vm_ok HS XS s L -> L !! mm = Some l ->
  exists r, find_vma_for_va mm addr s = Done r /\
    match r with
    | Some i => i ∈ l /\ exists v, vmas s !! i = Some v /\ in_area v addr
    | None => forall i v, i ∈ l -> vmas s !! i = Some v -> ~ in_area v addr
    end.
Proof.
  intros V E. unfold find_vma_for_va. rewrite (lh_each_rep _ _ _ _ _ _ (vo_rep _ _ _ _ V) E). ocbn.
  apply find_area_ok. intros i Hi. destruct (vo_member _ _ _ _ _ _ _ V E Hi) as (v & ? & ? & _). eauto.
Qed.

(** *** Allocating a descriptor *)

Lemma find_slot_ok s n : forall i,
  (forall j, i <= j < i + Z.of_nat n -> is_Some (vmas s !! j)) ->
  exists r, find_slot n i s = Done r /\
    match r with
    | Some k => i <= k < i + Z.of_nat n /\ exists v, vmas s !! k = Some v /\ used v = 0
    | None => forall k v, i <= k < i + Z.of_nat n -> vmas s !! k = Some v -> used v <> 0
    end.
Proof.
  induction n as [|n IH]; intros i Hs; cbn [find_slot].
  { exists None. split; [done|]. intros; lia. }
  destruct (Hs i ltac:(lia)) as [v Ev]. rewrite (vma_at_run _ _ _ Ev). ocbn.
  destruct (Z.eqb_spec (used v) 0) as [E0|E0].
  - exists (Some i). split; [done|]. split; [lia|]. eauto.
  - destruct (IH (i + 1)) as (r & -> & Hr); [intros j Hj; apply Hs; lia|].
    exists r. split; [done|]. destruct r as [k|].
    + destruct Hr as [Hk Hv]. split; [lia|done].
    + intros k w Hk Ew. destruct (decide (k = i)) as [->|]; [congruence|]. apply (Hr k w); [lia|done].
Qed.

Lemma alloc_vma_ok HS XS s L : vm_ok HS XS s L ->
  (alloc_vma s = Done (None, s) /\ forall k v, 0 <= k < NVMA -> vmas s !! k = Some v -> used v <> 0) \/
  (exists i v, alloc_vma s = Done (Some i, set_vma i (set_used 1 v) s) /\ 0 <= i < NVMA /\
     vmas s !! i = Some v /\ unlinked L i /\ i ∈ XS).
Proof.
  intros V. unfold alloc_vma.
  destruct (find_slot_ok s (Z.to_nat NVMA) 0) as (r & -> & Hr).
  { intros j Hj. unfold NVMA in *. apply (vo_slots _ _ _ _ V). unfold NVMA. lia. }
  ocbn. replace (0 + Z.of_nat (Z.to_nat NVMA)) with NVMA in Hr by (unfold NVMA; lia).
  destruct r as [i|]; [right|left; by split].
  destruct Hr as (Hi & v & Ev & E0). exists i, v. rewrite (vma_at_run _ _ _ Ev). ocbn.
  split_and!; try done; try lia; [|by apply (vo_slots _ _ _ _ V)].
  exact (proj1 (vo_used _ _ _ _ V i v Hi Ev) E0).
Qed.

(** *** The overlap check *)

(** What the check looks at: the first and the last address of the new area. *)
Definition touches (v : vma) (lo hi : Z) : Prop := in_area v lo \/ in_area v hi.

Lemma intersect_loop_ok s l lo hi :
  (forall i, i ∈ l -> exists v, vmas s !! i = Some v /\ vma_wf v) ->
  exists b, intersect_loop l lo hi s = Done b /\
    if b then exists i v, i ∈ l /\ vmas s !! i = Some v /\ touches v lo hi
    else forall i v, i ∈ l -> vmas s !! i = Some v -> ~ touches v lo hi.
Proof.
  induction l as [|i l IH]; intros Hl; cbn [intersect_loop].
  { exists false. split; [done|]. intros i v Hi. by apply not_elem_of_nil in Hi. }
  destruct (Hl i ltac:(by left)) as (v & Ev & Hv). rewrite (vma_at_run _ _ _ Ev). ocbn.
  rewrite (vend_wf _ Hv). destruct (_ || _) eqn:Ec.
  - exists true. split; [done|]. exists i, v. split_and!; [by left|done|].
    rewrite orb_true_iff, !andb_true_iff, !Z.leb_le, !Z.ltb_lt in Ec. done.
  - destruct IH as (b & -> & Hb); [intros j Hj; apply Hl; by right|]. exists b. split; [done|].
    destruct b.
    + destruct Hb as (j & w & ? & ?). exists j, w. split; [by right|done].
    + intros j w [->|Hj]%elem_of_cons Ew; [|by eapply Hb].
      rewrite Ev in Ew. injection Ew as <-.
      rewrite orb_false_iff, !andb_false_iff, !Z.leb_gt, !Z.ltb_ge in Ec. unfold touches, in_area. lia.
Qed.

(** A new area that touches no area by its ends, and contains none, is apart
    from all. *)
Lemma not_touching v n : vma_wf v -> vma_wf n -> 0 < vsize n ->
  ~ touches v (startva n) (startva n + vsize n - 1) ->
  ~ (startva n < startva v /\ startva v + vsize v < startva n + vsize n /\ 0 < vsize v) ->
  apart_areas v n.
Proof. unfold touches, in_area, apart_areas. intros. unfold in_area in *. lia. Qed.

(** *** Adding an area *)

(** [new] is the descriptor written into the fresh slot [i]. *)
Lemma add_vma_ok HS XS s L mm l i new :
  vm_ok HS XS s L -> L !! mm = Some l -> 0 <= i < NVMA -> unlinked L i ->
  vma_wf new -> 0 < vsize new ->
  let s1 := set_vma i new s in
  (add_vma_to_vmspace mm i s1 = Panic /\
   exists j v, j ∈ l /\ vmas s !! j = Some v /\ touches v (startva new) (startva new + vsize new - 1)) \/
  (exists w, add_vma_to_vmspace mm i s1 = Done (0, with_vlists w s1) /\
     lh_rep HS XS w (<[mm := i :: l]> L) /\
     forall j v, j ∈ l -> vmas s !! j = Some v -> ~ touches v (startva new) (startva new + vsize new - 1)).
Proof.
  intros V E Hi Hu Hw Hsz s1. unfold add_vma_to_vmspace, check_vma_intersect.
  assert (forall j, j ∈ l -> vmas s1 !! j = vmas s !! j) as Hsame.
  { intros j Hj. cbn [s1 set_vma vmas]. rewrite lookup_insert_ne; [done|]. intros <-. by apply (Hu mm l). }
  rewrite (vma_at_run s1 i new) by (cbn; apply lookup_insert_eq). ocbn.
  change (vlists s1) with (vlists s). rewrite (lh_each_rep _ _ _ _ _ _ (vo_rep _ _ _ _ V) E). ocbn.
  rewrite u64_small by (destruct Hw as (? & ? & Hm & _); rewrite USER_TOP_eq in Hm; lia).
  destruct (intersect_loop_ok s1 l (startva new) (startva new + vsize new - 1)) as (b & -> & Hb).
  { intros j Hj. rewrite Hsame by done. destruct (vo_member _ _ _ _ _ _ _ V E Hj) as (v & ? & ? & _). eauto. }
  ocbn. destruct b.
  - left. split; [done|]. destruct Hb as (j & v & Hj & Ev & Ht). exists j, v. rewrite Hsame in Ev by done. done.
  - right. destruct (vo_slots _ _ _ _ V i Hi) as [_ HX].
    destruct (lh_add_rep HS XS (vlists s) L mm l i (vo_rep _ _ _ _ V) E HX Hu) as (w & Ew & Rw).
    rewrite Ew. ocbn. exists w. split_and!; [done|done|]. intros j v Hj Ev. apply (Hb j v Hj). by rewrite Hsame.
Qed.

(** The space after an area was put in front of its list. *)
Lemma vm_ok_add HS XS s L mm l i new w :
  vm_ok HS XS s L -> L !! mm = Some l -> 0 <= i < NVMA -> unlinked L i ->
  vma_wf new -> used new <> 0 -> lh_rep HS XS w (<[mm := i :: l]> L) ->
  (forall j v, j ∈ l -> vmas s !! j = Some v -> apart_areas v new) ->
  vm_ok HS XS (with_vlists w (set_vma i new s)) (<[mm := i :: l]> L).
Proof.
  intros V E Hi Hu Hw Hus Rw Hap. pose proof V as [].
  assert (forall h l', <[mm := i :: l]> L !! h = Some l' -> forall j, j ∈ l' ->
    (j = i /\ h = mm) \/ (j <> i /\ exists l0, L !! h = Some l0 /\ j ∈ l0)) as Hmem.
  { intros h l' El j Hj. destruct (decide (mm = h)) as [<-|].
    - rewrite lookup_insert_eq in El. injection El as <-. apply elem_of_cons in Hj as [->|Hj]; [by left|].
      right. split; [|eauto]. intros ->. by apply (Hu mm l).
    - rewrite lookup_insert_ne in El by done. right. split; [|eauto]. intros ->. by apply (Hu h l'). }
  constructor; cbn [vlists vmas with_vlists set_vma]; auto.
  - intros j Hj. destruct (decide (i = j)) as [<-|]; [rewrite lookup_insert_eq; split; [eauto|by apply vo_slots0]|].
    rewrite lookup_insert_ne by done. by apply vo_slots0.
  - intros j v Hj. destruct (decide (i = j)) as [<-|Hne].
    + rewrite lookup_insert_eq. intros [= <-]. split; [done|]. intros Hno. exfalso.
      apply (Hno mm (i :: l)); [apply lookup_insert_eq|by left].
    + rewrite lookup_insert_ne by done. intros Ev. rewrite (vo_used0 j v Hj Ev). split.
      * intros Hno h l' El Hin. destruct (Hmem h l' El j Hin) as [[-> _]|(_ & l0 & El0 & Hin0)]; [done|].
        by apply (Hno h l0).
      * intros Hno h l' El Hin. destruct (decide (mm = h)) as [<-|].
        -- apply (Hno mm (i :: l)); [apply lookup_insert_eq|]. right. congruence.
        -- apply (Hno h l'); [by rewrite lookup_insert_ne|done].
  - intros h l' j El Hin. destruct (Hmem h l' El j Hin) as [[-> _]|(_ & l0 & El0 & Hin0)]; [done|eauto].
  - intros h l' j v El Hin. destruct (Hmem h l' El j Hin) as [[-> _]|(Hne & l0 & El0 & Hin0)].
    + rewrite lookup_insert_eq. by intros [= <-].
    + rewrite lookup_insert_ne by done. eauto.
  - intros h l' j k v w' El Hj Hk Hjk.
    destruct (Hmem h l' El j Hj) as [[-> Hh]|(Hnj & l0 & El0 & Hj0)],
             (Hmem h l' El k Hk) as [[-> Hh']|(Hnk & l1 & El1 & Hk0)].
    + done.
    + rewrite lookup_insert_eq, lookup_insert_ne by done. intros [= <-] Ew.
      assert (l1 = l) as -> by congruence. intros x H1 H2. by eapply (Hap k w').
    + rewrite lookup_insert_eq, lookup_insert_ne by done. intros Ev [= <-].
      assert (l0 = l) as -> by congruence. by apply (Hap j v).
    + rewrite !lookup_insert_ne by done. assert (l0 = l1) as -> by congruence. eauto.
Qed.

(** *** Mapping *)

(** The size [vma_map_range] gives an area of [len] bytes. *)
Definition area_size (len : Z) : Z := PGROUNDUP (if len <? PGSIZE then PGSIZE else len).

Lemma area_size_ok len : 0 <= len < 2 ^ 63 ->
  4096 <= area_size len /\ len <= area_size len < len + 4096 + 4096 /\ area_size len mod 4096 = 0.
Proof.
  intros Hl. unfold area_size, PGSIZE.
  set (n := if len <? 4096 then 4096 else len).
  assert (4096 <= n /\ len <= n <= len + 4096) as Hn by (unfold n; destruct (Z.ltb_spec len 4096); lia).
  rewrite PGROUNDUP_alt, u64_small by lia.
  pose proof (Z.mod_pos_bound (n + 4095) 4096 ltac:(lia)).
  pose proof (Z_div_mod_eq_full (n + 4095) 4096) as Hd.
  assert (4096 <= n + 4095 - (n + 4095) mod 4096) by lia.
  split_and!; try lia.
  replace (n + 4095 - (n + 4095) mod 4096) with ((n + 4095) / 4096 * 4096) by lia. by apply Z.mod_mul.
Qed.

Lemma PGROUNDDOWN_aligned va : va mod 4096 = 0 -> PGROUNDDOWN va = va.
Proof. intros H. rewrite PGROUNDDOWN_alt. lia. Qed.

(** An area lies strictly inside the range: the case the overlap check misses. *)
Definition swallowed (v : vma) (lo size : Z) : Prop :=
  lo < startva v /\ startva v + vsize v < lo + size /\ 0 < vsize v.

Lemma set_vma_twice i v v' s : set_vma i v (set_vma i v' s) = set_vma i v s.
Proof. unfold set_vma; cbn. by rewrite insert_insert_eq. Qed.

Lemma vma_map_range_ok HS XS s L mm l va len prm type :
  vm_ok HS XS s L -> L !! mm = Some l -> va mod 4096 = 0 -> 0 <= va -> 0 <= len ->
  va + area_size len <= USER_TOP -> 0 <= len < 2 ^ 63 -> 0 <= prm < 2 ^ 32 ->
  (vma_map_range mm va len prm type s = Done (None, s) /\
   forall k v, 0 <= k < NVMA -> vmas s !! k = Some v -> used v <> 0) \/
  (vma_map_range mm va len prm type s = Panic /\
   exists j v, j ∈ l /\ vmas s !! j = Some v /\ touches v va (va + area_size len - 1)) \/
  (exists i s' v0, vma_map_range mm va len prm type s = Done (Some i, s') /\ vmas s !! i = Some v0 /\
     let new := Vma type va (area_size len) prm 1 (offset v0) (vm_file v0) in
     vmas s' = <[i := new]> (vmas s) /\ mms s' = mms s /\ files s' = files s /\ vpt s' = vpt s /\
     unlinked L i /\ 0 <= i < NVMA /\ lh_rep HS XS (vlists s') (<[mm := i :: l]> L) /\
     ((forall j v, j ∈ l -> vmas s !! j = Some v -> ~ swallowed v va (area_size len)) ->
      vm_ok HS XS s' (<[mm := i :: l]> L))).
Proof.
  intros V E Hal Hva _ Hmax Hlen Hprm. unfold vma_map_range.
  destruct (area_size_ok len Hlen) as (Hs1 & _ & Hs3).
  destruct (alloc_vma_ok _ _ _ _ V) as [[-> Hno]|(i & v0 & -> & Hi & E0 & Hu & HX)]; ocbn; [by left|].
  right. rewrite (proj2 (Z.eqb_eq (va mod PGSIZE) 0) Hal). ocbn.
  rewrite (vma_at_run _ i (set_used 1 v0)) by (cbn; apply lookup_insert_eq). ocbn.
  cbn [used set_used offset vm_file]. rewrite (PGROUNDDOWN_aligned va Hal), u32_small by done.
  fold (area_size len). rewrite set_vma_twice.
  set (new := Vma type va (area_size len) prm 1 (offset v0) (vm_file v0)).
  assert (vma_wf new) as Hw by (unfold vma_wf; cbn; lia).
  destruct (add_vma_ok HS XS s L mm l i new V E Hi Hu Hw ltac:(cbn; lia))
    as [[-> Ht]|(w & -> & Rw & Hnt)]; ocbn; [left; by split|right].
  change (0 <? 0) with false. cbn match.
  exists i, (with_vlists w (set_vma i new s)), v0. split; [done|].
  split_and!; try done; try lia.
  intros Hsw. apply vm_ok_add; try done. intros j v Hj Ev. apply not_touching; try done.
  - by eapply vo_wf.
  - cbn. lia.
  - by apply (Hnt j v).
  - by apply (Hsw j v).
Qed.

(** *** Removing *)

Lemma vm_ok_same HS XS s s' L : vm_ok HS XS s L -> vmas s' = vmas s -> vlists s' = vlists s ->
  vm_ok HS XS s' L.
Proof. intros [] E1 E2. constructor; rewrite ?E1, ?E2; auto. Qed.


(** *** Narrowing an area *)

Lemma vm_ok_narrow HS XS s L mm l i v v' :
  vm_ok HS XS s L -> L !! mm = Some l -> i ∈ l -> vmas s !! i = Some v ->
  vma_wf v' -> used v' = used v -> (forall x, in_area v' x -> in_area v x) ->
  vm_ok HS XS (set_vma i v' s) L.
Proof.
  intros V E Hi Ev Hw Hu Hsub. pose proof V as [].
  constructor; cbn [vlists vmas set_vma]; auto.
  - intros j Hj. destruct (decide (i = j)) as [<-|]; [rewrite lookup_insert_eq; split; [eauto|by apply vo_slots0]|].
    rewrite lookup_insert_ne by done. by apply vo_slots0.
  - intros j w Hj. destruct (decide (i = j)) as [<-|]; [|rewrite lookup_insert_ne by done; auto].
    rewrite lookup_insert_eq. intros [= <-]. rewrite Hu. auto.
  - intros h l' j w El Hin. destruct (decide (i = j)) as [<-|]; [|rewrite lookup_insert_ne by done; eauto].
    rewrite lookup_insert_eq. by intros [= <-].
  - intros h l' j k w1 w2 El Hj Hk Hjk.
    destruct (decide (i = j)) as [<-|Hij], (decide (i = k)) as [<-|Hik];
      rewrite ?lookup_insert_eq, ?lookup_insert_ne by done; [done| | |eauto].
    + intros [= <-] Ew. intros x H1%Hsub. by eapply (vo_apart0 h l' i k).
    + intros Ew [= <-]. intros x H1 H2%Hsub. by eapply (vo_apart0 h l' j i).
Qed.
End wf.

(** ** What the areas need of the page tables *)

(** The valid entry a walk finds. *)
Definition pt_entry {P} `{!PtOps P} (pt va : Z) (p : P) : option Z :=
  match pt_walk pt va p with
  | Done (_, Some v) => if has v PTE_V then Some v else None
  | _ => None
  end.

Class PtLaws (P : Type) `{!PtOps P} := {
  (** The table [pt] is well-formed and its user pages can be given back. *)
  pt_fine : Z -> P -> Prop;
  pt_walk_ok pt va p : pt_fine pt p -> 0 <= va < USER_TOP -> exists r, pt_walk pt va p = Done r;
  pt_unmap_ok pt va n p : pt_fine pt p -> 0 <= va -> va mod 4096 = 0 -> 0 <= n ->
    va + n * 4096 <= USER_TOP ->
    exists p', pt_uvmunmap pt va n true true p = Done p' /\ pt_fine pt p' /\
      forall x, 0 <= x < USER_TOP ->
        pt_entry pt x p' = if decide (va <= x < va + n * 4096) then None else pt_entry pt x p;
  pt_filewrite_ok pt f a n p : pt_fine pt p ->
    exists p', pt_filewrite f a n p = Done p' /\ pt_fine pt p' /\
      forall x, 0 <= x < USER_TOP -> pt_entry pt x p' = pt_entry pt x p
}.

Lemma roundup_ok len : 0 <= len <= USER_TOP ->
  PGROUNDUP len mod 4096 = 0 /\ len <= PGROUNDUP len < len + 4096.
Proof.
  rewrite USER_TOP_eq. intros Hl. rewrite PGROUNDUP_alt, u64_small by lia.
  pose proof (Z.mod_pos_bound (len + 4095) 4096 ltac:(lia)).
  pose proof (Z_div_mod_eq_full (len + 4095) 4096) as Hd. split; [|lia].
  replace (len + 4095 - (len + 4095) mod 4096) with ((len + 4095) / 4096 * 4096) by lia. by apply Z.mod_mul.
Qed.

Lemma aligned_le a b : a mod 4096 = 0 -> b mod 4096 = 0 -> a < b + 4096 -> a <= b.
Proof.
  intros Ha Hb Hlt. apply Z.mod_divide in Ha as [x ->], Hb as [y ->]; lia.
Qed.

Lemma roundup_aligned n : 0 <= n <= USER_TOP -> n mod 4096 = 0 -> PGROUNDUP n = n.
Proof.
  intros Hn Ha. destruct (roundup_ok n Hn) as [H1 H2].
  pose proof (aligned_le _ _ H1 Ha ltac:(lia)). lia.
Qed.

Section unmap.
Context {W P : Type} `{!ListOps Z Z W, !ListHeap Z Z W, !PtOps P, !PtLaws P}.
Implicit Types (s : vmstate W P) (L : gmap Z (list Z)).


















End unmap.

(** ** Splitting and protecting *)

Section split.
Context {W P : Type} `{!ListOps Z Z W, !ListHeap Z Z W, !PtOps P}.
Implicit Types (s : vmstate W P) (L : gmap Z (list Z)).

(** What an area says of one of its addresses: type, permissions, file and
    position in the file. *)
Definition backing (v : vma) (x : Z) : vmatype * Z * option Z * Z :=
  (vtype v, perm v, vm_file v, u64 (offset v + (x - startva v))).

Definition backs s (l : list Z) (x : Z) (d : vmatype * Z * option Z * Z) : Prop :=
  exists i v, i ∈ l /\ vmas s !! i = Some v /\ in_area v x /\ d = backing v x.

Lemma backing_shift v x o a : u64 (offset v + (a - startva v)) = o ->
  u64 (o + (x - a)) = u64 (offset v + (x - startva v)).
Proof. intros <-. unfold u64. rewrite Zplus_mod_idemp_l. f_equal. lia. Qed.

(** The lower and the upper part of an area cut at [addr]. *)
Definition lower (addr : Z) (v : vma) : vma := set_range (startva v) (addr - startva v) v.
Definition upper (addr : Z) (v : vma) : vma :=
  set_offset (u64 (offset v + (addr - startva v))) (set_range addr (startva v + vsize v - addr) v).

Lemma in_parts v addr x : startva v < addr < startva v + vsize v ->
  in_area v x <-> in_area (lower addr v) x \/ in_area (upper addr v) x.
Proof. unfold in_area, lower, upper; cbn. lia. Qed.

Lemma parts_apart v addr : apart_areas (lower addr v) (upper addr v).
Proof. intros x. unfold in_area, lower, upper; cbn. lia. Qed.

Lemma backing_lower v addr x : backing (lower addr v) x = backing v x.
Proof. done. Qed.

Lemma backing_upper v addr x : backing (upper addr v) x = backing v x.
Proof. unfold backing, upper; cbn. f_equal. by apply backing_shift. Qed.

Lemma parts_wf v addr : vma_wf v -> startva v < addr < startva v + vsize v -> addr mod 4096 = 0 ->
  vma_wf (lower addr v) /\ vma_wf (upper addr v).
Proof.
  intros (H1 & H2 & H3 & H4 & H5) Ha Hal. unfold vma_wf, lower, upper; cbn.
  split; split_and!; try lia; [by rewrite Zminus_mod, H4, Hal|].
  rewrite Zminus_mod, Hal, Z.add_mod, H4, H5 by lia. done.
Qed.

(** Replacing an area by its two parts. *)
Lemma backs_parts s l i n v a b s' addr : i ∈ l -> n ∉ l -> vmas s !! i = Some v ->
  startva v < addr < startva v + vsize v ->
  (a, b) = (lower addr v, upper addr v) \/ (a, b) = (upper addr v, lower addr v) ->
  vmas s' = <[n := b]> (<[i := a]> (vmas s)) ->
  forall x d, backs s' (n :: l) x d <-> backs s l x d.
Proof.
  intros Hi Hn Ev Ha Hab Es x d. unfold backs. rewrite Es.
  assert (n <> i) as Hni by (by intros ->).
  assert (forall d, (in_area a x /\ d = backing a x \/ in_area b x /\ d = backing b x) <->
    in_area v x /\ d = backing v x) as Hv.
  { intros d'. rewrite (in_parts v addr x Ha).
    destruct Hab as [[= -> ->]|[= -> ->]]; rewrite backing_lower, backing_upper; tauto. }
  split.
  - intros (j & w & [->|Hj]%elem_of_cons & Ew & Hx).
    + rewrite lookup_insert_eq in Ew. injection Ew as <-. exists i, v.
      split; [done|]. split; [done|]. apply Hv. by right.
    + rewrite lookup_insert_ne in Ew by (by intros ->). destruct (decide (i = j)) as [<-|Hij].
      * rewrite lookup_insert_eq in Ew. injection Ew as <-. exists i, v. split; [done|]. split; [done|]. apply Hv. by left.
      * rewrite lookup_insert_ne in Ew by done. exists j, w. done.
  - intros (j & w & Hj & Ew & Hx). destruct (decide (i = j)) as [<-|Hij].
    + assert (w = v) as -> by congruence. apply Hv in Hx as [Hx|Hx].
      * exists i, a. rewrite lookup_insert_ne, lookup_insert_eq by done. split; [by right|done].
      * exists n, b. rewrite lookup_insert_eq. split; [by left|done].
    + exists j, w. rewrite !lookup_insert_ne by (done || by intros ->). split; [by right|done].
Qed.

(** The file of an area is open. *)
Definition file_open s (v : vma) : Prop :=
  forall f, vm_file v = Some f -> exists fl, files s !! f = Some fl /\ 1 <= f_count fl.

(** The file table after a second area refers to the file of [v]. *)
Definition dup_file (v : vma) (f : Z) (fl : file) : file :=
  if bool_decide (vm_file v = Some f) then File (f_writeable fl) (s32 (f_count fl + 1)) else fl.

Lemma filedup_ok s v : file_open s v ->
  exists F, (forall s1, files s1 = files s ->
      match vm_file v with Some f => filedup f s1 | None => Done s1 end =
      Done (VS (vmas s1) (vlists s1) (mms s1) F (vpt s1))) /\
    forall f fl, files s !! f = Some fl -> F !! f = Some (dup_file v f fl).
Proof.
  intros Ho. unfold dup_file. destruct (vm_file v) as [f|] eqn:Ef.
  - destruct (Ho f Ef) as (fl & E & Hc).
    exists (<[f := File (f_writeable fl) (s32 (f_count fl + 1))]> (files s)). split.
    + intros s1 E1. unfold filedup. rewrite E1, E. ocbn. by destruct (Z.ltb_spec (f_count fl) 1); [lia|].
    + intros g gl Eg. case_bool_decide as Hg; [injection Hg as <-|].
      * rewrite lookup_insert_eq. congruence.
      * rewrite lookup_insert_ne; [done|congruence].
  - exists (files s). split; [|by intros]. intros s1 <-. by destruct s1.
Qed.

Lemma split_vma_ok HS XS s L mm l i v addr below :
  vm_ok HS XS s L -> L !! mm = Some l -> i ∈ l -> vmas s !! i = Some v ->
  startva v < addr < startva v + vsize v -> addr mod 4096 = 0 -> file_open s v ->
  (split_vma mm i addr below s = Done (-1, s) /\
   forall k v, 0 <= k < NVMA -> vmas s !! k = Some v -> used v <> 0) \/
  (exists n s', split_vma mm i addr below s = Done (0, s') /\
     vm_ok HS XS s' (<[mm := n :: l]> L) /\ (forall x d, backs s' (n :: l) x d <-> backs s l x d) /\
     vmas s' !! i = Some (if below then upper addr v else lower addr v) /\
     mms s' = mms s /\ vpt s' = vpt s /\
     (forall f fl, files s !! f = Some fl -> files s' !! f = Some (dup_file v f fl))).
Proof.
  intros V E Hi Ev Ha Hal Ho. unfold split_vma.
  destruct (alloc_vma_ok _ _ _ _ V) as [[-> Hno]|(n & v0 & -> & Hn & E0 & Hu & HX)]; ocbn; [by left|right].
  assert (n <> i) as Hni by (intros ->; by apply (Hu mm l)).
  destruct (vo_member _ _ _ _ _ _ i V E Hi) as (v' & Ev' & Hw & Hir). assert (v' = v) as -> by congruence.
  rewrite (vma_at_run _ i v) by (cbn; by rewrite lookup_insert_ne). ocbn.
  pose proof Hw as (Hw1 & Hw2 & Hw3 & _). pose proof USER_TOP_eq as HT.
  rewrite (u64_small (startva v + vsize v - addr)), (u64_small (addr - startva v)) by lia.
  destruct (parts_wf v addr Hw Ha Hal) as [Hwl Hwu].
  assert (used v <> 0) as Hus.
  { intros Hu0. by apply (proj1 (vo_used _ _ _ _ V i v Hir Ev) Hu0 mm l). }
  set (a := if below then upper addr v else lower addr v).
  set (b := if below then lower addr v else upper addr v).
  assert (forall x, in_area a x -> in_area v x) as Hsa.
  { intros x Hx. apply (in_parts v addr x Ha). unfold a in Hx. destruct below; auto. }
  assert (forall x, in_area b x -> in_area v x) as Hsb.
  { intros x Hx. apply (in_parts v addr x Ha). unfold b in Hx. destruct below; auto. }
  assert (apart_areas a b) as Hab.
  { unfold a, b. destruct below; [|apply parts_apart]. intros x H1 H2. by apply (parts_apart v addr x). }
  destruct (filedup_ok s v Ho) as (F & EF & HF).
  set (s0 := VS (<[i := a]> (vmas s)) (vlists s) (mms s) F (vpt s)).
  assert (vm_ok HS XS s0 L) as V0.
  { eapply vm_ok_same; [eapply (vm_ok_narrow HS XS s L mm l i v a)|done|done]; try done.
    - unfold a. by destruct below.
    - unfold a. by destruct below. }
  match goal with |- context [match vm_file v with Some f => filedup f ?s1 | None => _ end] =>
    replace s1 with (set_vma n b (VS (<[i := a]> (vmas s)) (vlists s) (mms s) (files s) (vpt s)))
  end.
  2:{ unfold set_vma, a, b. cbn [vmas vlists mms files vpt].
      destruct below; f_equal; rewrite (insert_insert_ne (vmas s) i n) by done; by rewrite insert_insert_eq. }
  rewrite EF by done. cbn [vmas vlists mms files vpt set_vma].
  change (VS _ _ _ _ _) with (set_vma n b s0).
  ocbn.
  assert (0 < vsize b) as Hzb by (unfold b; destruct below; cbn; lia).
  assert (forall j w, j ∈ l -> vmas s0 !! j = Some w -> apart_areas w b) as Hall.
  { intros j w Hj. cbn [vmas s0]. destruct (decide (i = j)) as [<-|Hij].
    - rewrite lookup_insert_eq. by intros [= <-].
    - rewrite lookup_insert_ne by done. intros Ew x H1 H2.
      by apply (vo_apart _ _ _ _ V mm l i j v w E Hi Hj Hij Ev Ew x); [apply Hsb|]. }
  destruct (add_vma_ok HS XS s0 L mm l n b V0 E Hn Hu ltac:(unfold b; by destruct below) Hzb)
    as [[_ (j & w & Hj & Ew & Ht)]|(w & -> & Rw & _)].
  { exfalso. destruct Ht as [Ht|Ht]; [apply (Hall j w Hj Ew (startva b))|
      apply (Hall j w Hj Ew (startva b + vsize b - 1))]; try done; unfold in_area; lia. }
  ocbn. change (0 <? 0) with false. cbn match.
  eexists n, _. split; [done|]. split_and!; try done.
  - apply vm_ok_add; try done; unfold b; by destruct below.
  - apply (backs_parts s l i n v a b _ addr); try done.
    + intros Hin. by apply (Hu mm l).
    + unfold a, b. destruct below; auto.
  - cbn. by rewrite lookup_insert_ne, lookup_insert_eq.
Qed.

(** *** Protecting *)

Definition protect (lo hi prot x : Z) (d : vmatype * Z * option Z * Z) : vmatype * Z * option Z * Z :=
  let '(t, p, f, o) := d in (t, if (lo <=? x) && (x <? hi) then prot else p, f, o).

Lemma backs_protect HS XS s L mm l i v prot : vm_ok HS XS s L -> L !! mm = Some l -> i ∈ l ->
  vmas s !! i = Some v -> forall x d,
  backs (set_vma i (set_perm prot v) s) l x d <->
  exists d0, backs s l x d0 /\ d = protect (startva v) (startva v + vsize v) prot x d0.
Proof.
  intros V E Hi Ev x d. unfold backs, protect.
  assert (forall x, in_area v x <-> (startva v <=? x) && (x <? startva v + vsize v) = true) as Hv.
  { intros y. unfold in_area. rewrite andb_true_iff, Z.leb_le, Z.ltb_lt. done. }
  assert (forall j w, j ∈ l -> j <> i -> vmas s !! j = Some w -> in_area w x ->
    (startva v <=? x) && (x <? startva v + vsize v) = false) as Hw.
  { intros j w Hj Hne Ew Hx. apply not_true_iff_false. rewrite <- Hv. intros Hx'.
    by apply (vo_apart _ _ _ _ V mm l i j v w E Hi Hj ltac:(done) Ev Ew x). }
  cbn [vmas set_vma]. split.
  - intros (j & w & Hj & Ew & Hx & ->). destruct (decide (i = j)) as [<-|Hij].
    + rewrite lookup_insert_eq in Ew. injection Ew as <-. exists (backing v x). split; [exists i, v; done|].
      unfold backing. by rewrite (proj1 (Hv x) Hx).
    + rewrite lookup_insert_ne in Ew by done. exists (backing w x). split; [exists j, w; done|].
      unfold backing. by rewrite (Hw j w).
  - intros (d0 & (j & w & Hj & Ew & Hx & ->) & ->). destruct (decide (i = j)) as [<-|Hij].
    + assert (w = v) as -> by congruence. exists i. eexists. rewrite lookup_insert_eq.
      split_and!; try done; try apply Hx. unfold backing. by rewrite (proj1 (Hv x) Hx).
    + exists j, w. rewrite lookup_insert_ne by done. split_and!; try done; try apply Hx.
      unfold backing. by rewrite (Hw j w).
Qed.

Definition headroom s (v : vma) (n : Z) : Prop :=
  forall f, vm_file v = Some f -> exists fl, files s !! f = Some fl /\ 1 <= f_count fl < 2 ^ 31 - n.

(** Splitting an area, when its bound is not there yet. *)
Lemma cut_ok HS XS s L mm l i v addr n (below : bool) :
  vm_ok HS XS s L -> L !! mm = Some l -> i ∈ l -> vmas s !! i = Some v -> headroom s v (n + 1) ->
  addr mod 4096 = 0 -> 0 <= n ->
  (if below then startva v <= addr < startva v + vsize v else startva v < addr <= startva v + vsize v) ->
  exists e s' l', (if negb (addr =? (if below then startva v else startva v + vsize v))
      then split_vma mm i addr below s else Done (0, s)) = Done (e, s') /\
    vm_ok HS XS s' (<[mm := l']> L) /\ (forall x d, backs s' l' x d <-> backs s l x d) /\
    (e = -1 \/ e = 0 /\ i ∈ l' /\ exists v', vmas s' !! i = Some v' /\ headroom s' v' n /\
      if below then startva v' = addr /\ startva v' + vsize v' = startva v + vsize v
      else startva v' = startva v /\ startva v' + vsize v' = addr).
Proof.
  intros V E Hi Ev Hh Hal Hn Ha.
  destruct (Z.eqb_spec addr (if below then startva v else startva v + vsize v)) as [He|Hne]; cbn [negb].
  { exists 0, s, l. rewrite insert_id by done. split_and!; try done. right. split_and!; try done.
    exists v. split_and!; try done; [|destruct below; lia].
    intros f Hf. destruct (Hh f Hf) as (fl & ? & ?). exists fl. split; [done|lia]. }
  destruct (split_vma_ok HS XS s L mm l i v addr below) as [[-> _]|(k & s' & -> & V' & Hb & Ei & _ & _ & HF)];
    try done.
  - destruct below; lia.
  - intros f Hf. destruct (Hh f Hf) as (fl & ? & ?). exists fl. split; [done|lia].
  - exists (-1), s, l. rewrite insert_id by done. split_and!; try done. by left.
  - exists 0, s', (k :: l). split_and!; try done. right. split_and!; try done; [by right|].
    eexists. split; [exact Ei|]. split; [|destruct below; cbn; lia].
    intros f Hf. assert (vm_file v = Some f) as Hf' by (by destruct below).
    destruct (Hh f Hf') as (fl & Efl & Hc). eexists. split; [by apply HF|].
    unfold dup_file. rewrite bool_decide_eq_true_2 by done. cbn [f_count]. rewrite s32_small by lia. lia.
Qed.

Lemma sys_mprotect_ok HS XS s L mm l i v start len prot :
  vm_ok HS XS s L -> L !! mm = Some l -> i ∈ l -> vmas s !! i = Some v -> headroom s v 2 ->
  start mod 4096 = 0 -> 0 < len -> 0 <= prot < 8 ->
  startva v <= start -> start + len <= startva v + vsize v ->
  exists e s' l', sys_mprotect mm start len prot s = Done (e, s') /\
    vm_ok HS XS s' (<[mm := l']> L) /\
    (e = 0 /\ (forall x d, backs s' l' x d <->
        exists d0, backs s l x d0 /\ d = protect start (start + PGROUNDUP len) prot x d0) \/
     e = -1 /\ forall x d, backs s' l' x d <-> backs s l x d).
Proof.
  intros V E Hi Ev Hh Hal Hlen Hprot Hlo Hhi. unfold sys_mprotect.
  destruct (vo_member _ _ _ _ _ _ i V E Hi) as (v' & Ev' & Hw & _). assert (v' = v) as -> by congruence.
  pose proof Hw as (Hw1 & Hw2 & Hw3 & Hw4 & Hw5). pose proof USER_TOP_eq as HT.
  destruct (Z.eqb_spec len 0); [lia|]. destruct (roundup_ok len ltac:(lia)) as [Hra Hrl].
  assert (start + PGROUNDUP len <= startva v + vsize v) as Hrt.
  { apply aligned_le; [by rewrite Z.add_mod, Hal, Hra by lia|by rewrite Z.add_mod, Hw4, Hw5 by lia|lia]. }
  cbv zeta. rewrite (u64_small (start + PGROUNDUP len)) by lia. set (hi := start + PGROUNDUP len) in *.
  destruct (Z.ltb_spec hi start); [lia|].
  rewrite (u32_small prot) by lia.
  assert (Z.ldiff prot 7 = 0) as ->.
  { change 7 with (Z.ones 3). rewrite Z.ldiff_ones_r by lia.
    rewrite Z.shiftr_div_pow2, Z.div_small by lia. apply Z.shiftl_0_l. }
  cbn [Z.eqb negb].
  destruct (find_vma_ok _ _ _ _ _ _ start V E) as (r & -> & Hr). ocbn.
  destruct r as [j|]; [|exfalso; apply (Hr i v Hi Ev); unfold in_area; lia].
  destruct Hr as (Hj & w & Ew & Hx).
  destruct (decide (i = j)) as [<-|Hij].
  2:{ exfalso. apply (vo_apart _ _ _ _ V mm l i j v w E Hi Hj Hij Ev Ew start); [|done]. unfold in_area; lia. }
  rewrite (vma_at_run _ _ _ Ev). ocbn.
  destruct (cut_ok HS XS s L mm l i v start 1 true V E Hi Ev Hh Hal ltac:(lia) ltac:(cbn match; lia))
    as (e1 & s1 & l1 & E1 & V1 & Hb1 & H1). cbn match in E1. rewrite E1. ocbn.
  destruct H1 as [->|(-> & Hi1 & v1 & Ev1 & Hh1 & Hs1 & He1)].
  { exists (-1), s1, l1. split_and!; try done. by right. }
  change (0 <? 0) with false. cbn match. rewrite (vma_at_run _ _ _ Ev1). ocbn.
  assert (<[mm := l1]> L !! mm = Some l1) as EL1 by apply lookup_insert_eq.
  rewrite (vend_wf v1) by (by eapply vo_wf).
  destruct (cut_ok HS XS s1 _ mm l1 i v1 hi 0 false V1 EL1 Hi1 Ev1 Hh1) as (e2 & s2 & l2 & E2 & V2 & Hb2 & H2).
  { unfold hi. by rewrite Z.add_mod, Hal, Hra by lia. } { lia. } { cbn match. lia. }
  cbn match in E2. rewrite E2. ocbn. rewrite insert_insert_eq in V2.
  destruct H2 as [->|(-> & Hi2 & v2 & Ev2 & Hh2 & Hs2 & He2)].
  { exists (-1), s2, l2. split_and!; try done. right. split; [done|]. intros x d. by rewrite Hb2. }
  change (0 <? 0) with false. cbn match. rewrite (vma_at_run _ _ _ Ev2). ocbn.
  assert (<[mm := l2]> L !! mm = Some l2) as EL2 by apply lookup_insert_eq.
  eexists 0, _, l2. split; [done|]. split.
  - apply (vm_ok_narrow HS XS s2 _ mm l2 i v2); try done. by eapply (vo_wf _ _ _ _ V2 mm l2 i v2).
  - left. split; [done|]. intros x d. rewrite (backs_protect HS XS s2 _ mm l2 i v2) by done.
    rewrite He2, Hs2, Hs1. setoid_rewrite Hb2. by setoid_rewrite Hb1.
Qed.
End split.

(** ** The page tables behind the interface *)

Section page_tables.
Context {A : Type} `{!PageAlloc A, !PageAllocOk A}.
(** The file system writes a page range of the current process to a file. *)
Context (filewrite : Z -> Z -> Z -> ptstate A -> outcome (ptstate A)).

Definition walk_entry (pagetable va : Z) (s : ptstate A) : outcome (Z * option Z) :=
  '(r, slot, s) ← walk pagetable va false 0 s;
  match slot with
  | None => Done (r, None)
  | Some a => v ← rd a s; Done (r, Some v)
  end.

#[local] Instance page_table_ops : PtOps (ptstate A) := {|
  pt_walk := walk_entry;
  pt_uvmunmap := uvmunmap UVM_DEPTH;
  pt_filewrite := filewrite
|}.

(** Below the top of the stack, each user page is mapped once. *)
Definition user_space (pt : Z) (s : ptstate A) : Prop :=
  exists tabs R, pt_ok s pt tabs R /\ unmappable s R tabs 0 USER_TOP.

Lemma USER_TOP_MAXVA : USER_TOP <= MAXVA.
Proof. by vm_compute. Qed.

Lemma unmappable_after s R tabs lo hi s' R' : 0 <= lo -> hi <= USER_TOP ->
  lo mod 4096 = 0 -> hi mod 4096 = 0 ->
  unmappable s R tabs 0 USER_TOP -> unmapped s R tabs lo hi s' R' -> unmappable s' R' tabs 0 USER_TOP.
Proof.
  intros Hlo Hhi Hl Hh [Hu Ho] [Hc Hin Hout Hf Hk].
  assert (forall x l v, leaf_of (pm s') tabs x = Some (l, v) ->
    ~ lo <= x < hi /\ leaf_of (pm s) tabs x = Some (l, v)) as Hold.
  { intros x l v Ex. destruct (decide (lo <= x < hi)) as [Hx|Hx]; [by rewrite Hin in Ex|].
    split; [done|]. by rewrite Hout in Ex. }
  constructor.
  - intros x l v Hx Ex. destruct (Hold _ _ _ Ex) as [Hnx Ex0].
    destruct (Hu x l v Hx Ex0) as (-> & p & Hpa & Hfl & Hp & Hs & Hca & Ht). split; [done|]. exists p.
    split_and!; try done; try lia; [|by rewrite Hc].
    rewrite Hk; [done|done|]. intros (y & l' & v' & Hy & Ey & Hpy). apply Hnx.
    assert (x / 4096 = y / 4096) as Hxy by (eapply (Ho x y); try done; [lia|congruence]).
    apply Z.mod_divide in Hl as [a ->]; [|lia]. apply Z.mod_divide in Hh as [b ->]; [|lia].
    pose proof (Z_div_mod_eq_full x 4096). pose proof (Z_div_mod_eq_full y 4096).
    pose proof (Z.mod_pos_bound x 4096 ltac:(lia)). pose proof (Z.mod_pos_bound y 4096 ltac:(lia)). lia.
  - intros x y l v l' v' Hx Hy Ex Ey. destruct (Hold _ _ _ Ex), (Hold _ _ _ Ey). eauto.
Qed.

(** Writing to a file leaves the page tables alone. *)
Context (filewrite_ok : forall pt f a n s, user_space pt s ->
  exists s', filewrite f a n s = Done s' /\ user_space pt s' /\
    forall x, 0 <= x < USER_TOP -> pt_entry pt x s' = pt_entry pt x s).

Lemma pt_entry_leaf s pt tabs R x : pt_ok s pt tabs R -> 0 <= x < MAXVA ->
  pt_entry pt x s = snd <$> leaf_of (pm s) tabs x.
Proof.
  intros P Hx. unfold pt_entry. cbn [pt_walk page_table_ops]. unfold walk_entry.
  rewrite (walk_lookup s pt tabs R x P Hx). pose proof (leaf_slot s pt tabs R x P) as Hs.
  destruct (slot_of (pm s) tabs x) as [[l a]|]; ocbn; [|by rewrite Hs].
  destruct Hs as (Hw & _ & ->). destruct (rd_word s a (pk_mem _ _ _ _ P) Hw) as [-> _]. ocbn.
  by destruct (has _ PTE_V).
Qed.

Program Definition page_table_laws : PtLaws (ptstate A) := {| pt_fine := user_space |}.
Next Obligation.
  intros pt va s (tabs & R & Hp & _) Hva. pose proof USER_TOP_MAXVA. cbn. unfold walk_entry.
  rewrite (walk_lookup s pt tabs R va Hp) by lia. pose proof (leaf_slot s pt tabs R va Hp) as Hs.
  destruct (slot_of (pm s) tabs va) as [[l a]|]; ocbn; [|eauto].
  destruct Hs as (Hw & _). destruct (rd_word s a (pk_mem _ _ _ _ Hp) Hw) as [-> _]. ocbn. eauto.
Qed.
Next Obligation.
  intros pt va n s (tabs & R & Hp & Hu) Hva Hal Hn Hmax. pose proof USER_TOP_MAXVA.
  destruct (uvmunmap_ok s pt tabs R va n 3) as (s' & R' & E & Hp' & Hun); try done; try lia.
  { destruct Hu as [H1 H2]. constructor.
    - intros x l v Hx. apply H1. lia.
    - intros x y l v l' v' Hx Hy. apply H2; lia. }
  exists s'. split; [exact E|]. split.
  - exists tabs, R'. split; [done|]. eapply (unmappable_after s R tabs va (va + n * 4096)); try done.
    rewrite Z.add_mod, Hal, Z.mod_mul by lia. done.
  - intros x Hx. rewrite (pt_entry_leaf s' pt tabs R'), (pt_entry_leaf s pt tabs R) by (done || lia).
    destruct Hun. case_decide; [by rewrite um_in|by rewrite um_out].
Qed.
Next Obligation. exact filewrite_ok. Qed.
End page_tables.

(** ** The properties *)

Section properties.
Context {W P : Type} `{!ListOps Z Z W, !ListHeap Z Z W, !PtOps P}.
Implicit Types (s : vmstate W P) (L : gmap Z (list Z)).

(** [vma_map] of a page-aligned range that fits below the top of the
    stack either fails with -1 and no change, because no descriptor is free; or
    stops the machine, because an area holds the first or the last address of
    the range; or adds one area: the addresses of the range, rounded up to
    pages, are then held by an area of the type and permissions asked for, all
    other areas are untouched, and if no area lay strictly inside the range the
    areas of the space are still well-formed and disjoint. *)
Theorem vma_map_spec HS XS s L mm l m va len prm type :
  vm_ok HS XS s L -> L !! mm = Some l -> mms s !! mm = Some m ->
  va mod 4096 = 0 -> 0 <= va -> 0 <= len < 2 ^ 63 -> va + area_size len <= USER_TOP -> 0 <= prm < 2 ^ 32 ->
  (vma_map mm va len prm type s = Done (-1, s) /\
   forall k v, 0 <= k < NVMA -> vmas s !! k = Some v -> used v <> 0) \/
  (vma_map mm va len prm type s = Panic /\
   exists j v, j ∈ l /\ vmas s !! j = Some v /\ touches v va (va + area_size len - 1)) \/
  (exists i s' v, vma_map mm va len prm type s = Done (0, s') /\ unlinked L i /\
     vmas s' = <[i := v]> (vmas s) /\ vtype v = type /\ perm v = prm /\
     (forall x, in_area v x <-> va <= x < va + area_size len) /\
     lh_each mm (vlists s') = Done (i :: l) /\
     mms s' !! mm = Some (if bool_decide (type = VMA_HEAP)
                          then Mm (mm_pagetable m) (start_brk m) (brk m) (Some i) else m) /\
     ((forall j v, j ∈ l -> vmas s !! j = Some v -> ~ swallowed v va (area_size len)) ->
      vm_ok HS XS s' (<[mm := i :: l]> L))).
Proof.
  intros V E Em Hal Hva Hlen Hmax Hprm. unfold vma_map.
  destruct (vma_map_range_ok HS XS s L mm l va len prm type)
    as [[-> Hno]|[[-> Ht]|(i & s' & v0 & -> & E0 & Ev & Emm & Ef & Ep & Hu & Hi & R & Hok)]]; try done; try lia.
  - left. done.
  - right; left. done.
  - right; right. ocbn. unfold set_heapvma, mm_at. rewrite Emm, Em. ocbn.
    exists i, (if bool_decide (type = VMA_HEAP)
      then with_mms (<[mm := Mm (mm_pagetable m) (start_brk m) (brk m) (Some i)]> (mms s)) s' else s').
    eexists. split; [by case_bool_decide|]. split; [done|].
    split; [by case_bool_decide; rewrite <- Ev|]. split_and!; try done.
    + by case_bool_decide; apply (lh_each_rep HS XS _ _ _ _ R), lookup_insert_eq.
    + case_bool_decide; [cbn; apply lookup_insert_eq|by rewrite Emm].
    + intros Hsw. specialize (Hok Hsw). case_bool_decide; [by eapply vm_ok_same|done].
Qed.

(** The overlap check of [add_vma_to_vmspace] only looks at the two ends of
    the new area: a range strictly around an existing area is accepted, and the
    space then has two areas for the same addresses. *)
Theorem intersect_misses_inner HS XS s L mm l i new j v :
  vm_ok HS XS s L -> L !! mm = Some l -> 0 <= i < NVMA -> unlinked L i -> vma_wf new -> j ∈ l ->
  vmas s !! j = Some v -> swallowed v (startva new) (vsize new) ->
  (forall k w, k ∈ l -> vmas s !! k = Some w -> ~ touches w (startva new) (startva new + vsize new - 1)) ->
  exists s' x, add_vma_to_vmspace mm i (set_vma i new s) = Done (0, s') /\
    lh_each mm (vlists s') = Done (i :: l) /\ in_area new x /\ in_area v x.
Proof.
  intros V E Hi Hu Hw Hj Ev [H1 H2] Hnt.
  destruct (add_vma_ok HS XS s L mm l i new V E Hi Hu Hw ltac:(lia))
    as [[_ (k & w & Hk & Ew & Ht)]|(w & -> & R & _)]; [by destruct (Hnt k w Hk Ew)|].
  eexists _, (startva v). split; [done|].
  split; [apply (lh_each_rep HS XS _ _ _ _ R), lookup_insert_eq|]. unfold in_area. lia.
Qed.

(** C8.  [split_vma] at a page boundary inside an area succeeds when a descriptor
    is free, leaves the areas well-formed and disjoint, and changes what is
    behind no address: type, permissions, file and file position are the same
    before and after, whichever half gets the new descriptor. *)
Theorem split_vma_transparent HS XS s L mm l i v addr below :
  vm_ok HS XS s L -> L !! mm = Some l -> i ∈ l -> vmas s !! i = Some v ->
  startva v < addr < startva v + vsize v -> addr mod 4096 = 0 -> file_open s v ->
  (exists k w, 0 <= k < NVMA /\ vmas s !! k = Some w /\ used w = 0) ->
  exists n s', split_vma mm i addr below s = Done (0, s') /\
    vm_ok HS XS s' (<[mm := n :: l]> L) /\ forall x d, backs s' (n :: l) x d <-> backs s l x d.
Proof.
  intros V E Hi Ev Ha Hal Ho (k & w & Hk & Ew & Hu).
  destruct (split_vma_ok HS XS s L mm l i v addr below) as [[_ Hno]|(n & s' & Es & V' & Hb & _)]; try done.
  - by destruct (Hno k w Hk Ew).
  - by exists n, s'.
Qed.

(** [sys_mprotect] of a page-aligned range inside one area returns: with 0,
    the pages of the range have the new permissions and nothing else changed;
    with -1 (no descriptor free), nothing behind any address has changed.
    Either way the areas stay well-formed and disjoint. *)
Theorem sys_mprotect_spec HS XS s L mm l i v start len prot :
  vm_ok HS XS s L -> L !! mm = Some l -> i ∈ l -> vmas s !! i = Some v -> headroom s v 2 ->
  start mod 4096 = 0 -> 0 < len -> 0 <= prot < 8 ->
  startva v <= start -> start + len <= startva v + vsize v ->
  exists e s' l', sys_mprotect mm start len prot s = Done (e, s') /\
    vm_ok HS XS s' (<[mm := l']> L) /\
    (e = 0 /\ (forall x d, backs s' l' x d <->
        exists d0, backs s l x d0 /\ d = protect start (start + PGROUNDUP len) prot x d0) \/
     e = -1 /\ forall x d, backs s' l' x d <-> backs s l x d).
Proof. apply sys_mprotect_ok. Qed.


(** When less than the area at [va] is unmapped, the area keeps its upper
    part, but the pages given back are those of the whole area: what was stored
    in the part that stays is lost. *)
Theorem vmspace_unmap_partial HS XS s L mm m l i v len p' fuel :
  vm_ok HS XS s L -> L !! mm = Some l -> i ∈ l -> vmas s !! i = Some v -> mms s !! mm = Some m ->
  vtype v = VMA_ANON -> 0 <= len -> PGROUNDUP len < vsize v ->
  pt_uvmunmap (mm_pagetable m) (startva v) (vsize v / 4096) true true (vpt s) = Done p' ->
  vmspace_unmap (S fuel) mm (startva v) len s =
    Done (0, with_vpt p' (set_vma i (set_range (startva v + PGROUNDUP len) (vsize v - PGROUNDUP len) v) s)).
Proof.
  intros V E Hi Ev Em Ht Hlen Hlt Hun. cbn [vmspace_unmap].
  destruct (vo_member _ _ _ _ _ _ i V E Hi) as (v' & Ev' & Hw & _). assert (v' = v) as -> by congruence.
  pose proof Hw as (Hw1 & Hw2 & Hw3 & Hw4 & Hw5). pose proof USER_TOP_eq as HT.
  assert (0 <= PGROUNDUP len) as Hr0.
  { rewrite PGROUNDUP_alt. pose proof (u64_range (len + 4095)) as Hu.
    pose proof (Z.mod_le (u64 (len + 4095)) 4096 ltac:(lia) ltac:(lia)). lia. }
  destruct (find_vma_ok _ _ _ _ _ _ (startva v) V E) as (r & -> & Hr). ocbn.
  destruct r as [j|]; [|exfalso; apply (Hr i v Hi Ev); unfold in_area; lia].
  destruct Hr as (Hj & w & Ew & Hx). destruct (decide (i = j)) as [<-|Hij].
  2:{ exfalso. apply (vo_apart _ _ _ _ V mm l i j v w E Hi Hj Hij Ev Ew (startva v)); [|done]. unfold in_area; lia. }
  rewrite (vma_at_run _ _ _ Ev). ocbn. unfold mm_at. rewrite Em. ocbn. rewrite Z.eqb_refl. cbn [negb].
  rewrite bool_decide_eq_false_2 by (by rewrite Ht). ocbn. cbv zeta.
  destruct (Z.ltb_spec (PGROUNDUP len) (vsize v)); [|lia].
  rewrite (u64_small (startva v + PGROUNDUP len)), (u64_small (vsize v - PGROUNDUP len)) by lia.
  rewrite (roundup_aligned (vsize v)) by (done || lia). change PGSIZE with 4096.
  cbn [vpt with_vpt set_vma]. rewrite Hun. ocbn. done.
Qed.

(** [do_mmap] with [MAP_FIXED] at an address no area holds does not map
    there: the new area is put at address 0, and 0 is returned. *)
Theorem do_mmap_fixed_unmapped HS XS s L mm l addr length prot flags off :
  vm_ok HS XS s L -> L !! mm = Some l -> addr <> 0 -> has flags MAP_FIXED = true ->
  (forall i v, i ∈ l -> vmas s !! i = Some v -> ~ in_area v addr) ->
  do_mmap mm addr length prot flags None off s =
    ('(e, s) ← vma_map mm 0 length (mkperm prot flags) VMA_ANON s;
     Done (if e <? 0 then MAP_FAILED else 0, s)).
Proof.
  intros V E Ha Hf Hno. unfold do_mmap. rewrite (proj2 (Z.eqb_neq addr 0) Ha), Hf. cbn [negb].
  unfold mmap_fixed. destruct (find_vma_ok _ _ _ _ _ _ addr V E) as (r & -> & Hr). ocbn.
  destruct r as [i|].
  { destruct Hr as (Hi & v & Ev & Hx). by destruct (Hno i v Hi Ev). }
  ocbn. destruct (vma_map mm 0 length (mkperm prot flags) VMA_ANON s) as [[e s']| | |]; ocbn; try done.
  by destruct (e <? 0).
Qed.
End properties.

(** ** A concrete address space *)

Section start.
Context {W P : Type} `{!ListOps Z Z W, !ListHeap Z Z W, !PtOps P}.

Lemma vmas_init_lookup (w : W) mm fl (p : P) i : 0 <= i < NVMA ->
  vmas (vmas_init w mm fl p) !! i = Some zero_vma.
Proof.
  intros Hi. cbn [vmas vmas_init]. apply lookup_gset_to_gmap_Some. split; [|reflexivity].
  apply elem_of_list_to_set, elem_of_seqZ. lia.
Qed.

Lemma vmas_init_ok HS XS (w : W) mm fl (p : P) h : lh_rep HS XS w {[h := []]} ->
  (forall i, 0 <= i < NVMA -> i ∈ XS) -> vm_ok HS XS (vmas_init w mm fl p) {[h := []]}.
Proof.
  intros R HX.
  assert (forall h' l (i : Z), ({[h := []]} : gmap Z (list Z)) !! h' = Some l -> i ∉ l) as Hno.
  { intros h' l i [_ <-]%lookup_singleton_Some. apply not_elem_of_nil. }
  constructor.
  - exact R.
  - intros i Hi. rewrite vmas_init_lookup by exact Hi. split; [by eexists|auto].
  - intros i v Hi. rewrite vmas_init_lookup by exact Hi. intros [= <-]. split; [|reflexivity].
    intros _ h' l E. exact (Hno h' l i E).
  - intros h' l i E Hi. by destruct (Hno h' l i E).
  - intros h' l i v E Hi. by destruct (Hno h' l i E).
  - intros h' l i j v v' E Hi. by destruct (Hno h' l i E).
Qed.
End start.

Definition demo_ids : gset Z := list_to_set (seqZ 0 NVMA).
Definition no_write (f a n : Z) (s : ptstate kernel) : outcome (ptstate kernel) := Done s.
#[local] Instance demo_pt_ops : PtOps (ptstate kernel) := page_table_ops no_write.
Lemma no_write_ok pt f a n s : user_space pt s -> exists s', no_write f a n s = Done s' /\ user_space pt s' /\
  forall x, 0 <= x < USER_TOP -> pt_entry pt x s' = pt_entry pt x s.
Proof. intros H. exists s. done. Qed.
#[local] Instance demo_pt_laws : PtLaws (ptstate kernel) := page_table_laws no_write no_write_ok.

(** Address space 7 with one anonymous area of four pages at 0x10000. *)
Definition demo_area : vma := Vma VMA_ANON 0x10000 0x4000 3 1 0 None.

Lemma blank_head (HS XS : gset Z) h : h ∈ HS ->
  exists w, lh_rep HS XS w ({[h := []]} : gmap Z (list Z)).
Proof.
  intros Hh. assert (lh_rep HS XS (blank_lists HS XS) ∅) as R0 by exact (blank_lists_rep HS XS).
  destruct (lh_init_rep HS XS (blank_lists HS XS) ∅ h R0 Hh) as (w & _ & R). eauto.
Qed.

Lemma demo_blank : exists w, lh_rep {[7]} demo_ids w ({[7 := []]} : gmap Z (list Z)).
Proof. apply blank_head. by apply elem_of_singleton. Qed.

Lemma demo_space_on {P} (p : P) root : exists (s : vmstate _ P) i,
  vm_ok {[7]} demo_ids s {[7 := [i]]} /\ 0 <= i < NVMA /\
  vmas s = <[i := demo_area]> (vmas (vmas_init (vlists s) (mms s) (files s) (vpt s))) /\
  mms s !! 7 = Some (Mm root 0 0 None) /\ vpt s = p.
Proof.
  destruct demo_blank as (w & Rw).
  set (m := Mm root 0 0 None). set (s0 := vmas_init w {[7 := m]} ∅ p).
  assert (vm_ok {[7]} demo_ids s0 {[7 := []]}) as V0.
  { apply vmas_init_ok; [exact Rw|]. intros i Hi. apply elem_of_list_to_set, elem_of_seqZ. lia. }
  destruct (vma_map_range_ok {[7]} demo_ids s0 _ 7 [] 0x10000 0x4000 3 VMA_ANON V0)
    as [[_ Hno]|[[_ (j & v & Hj & _)]|(i & s & v0 & _ & E0 & Ev & Em & Ef & Ep & Hu & Hi & _ & Hok)]].
  - apply lookup_insert_eq.
  - reflexivity.
  - lia.
  - lia.
  - vm_compute. congruence.
  - lia.
  - lia.
  - exfalso. apply (Hno 0 zero_vma); [unfold NVMA; lia|apply vmas_init_lookup; unfold NVMA; lia|reflexivity].
  - destruct (not_elem_of_nil _ Hj).
  - exists s, i. unfold s0 in E0. rewrite vmas_init_lookup in E0 by exact Hi. injection E0 as <-.
    split; [|split; [exact Hi|split; [exact Ev|split; [rewrite Em; exact (lookup_singleton_eq 7 m)|exact Ep]]]].
    rewrite insert_singleton_eq in Hok. apply Hok. intros j v Hj. destruct (not_elem_of_nil _ Hj).
Qed.

Lemma demo_space : exists (s : vmstate _ (ptstate kernel)) i m,
  vm_ok {[7]} demo_ids s {[7 := [i]]} /\ 0 <= i < NVMA /\
  vmas s = <[i := demo_area]> (vmas (vmas_init (vlists s) (mms s) (files s) (vpt s))) /\
  mms s !! 7 = Some m /\ pt_fine (mm_pagetable m) (vpt s).
Proof.
  destruct demo_pt as (p & root & R & Hp & Hl).
  destruct (demo_space_on p root) as (s & i & V & Hi & Ev & Em & Ep).
  exists s, i, (Mm root 0 0 None). rewrite Ep. split; [exact V|]. split; [exact Hi|].
  split; [rewrite Ep in Ev; exact Ev|]. split; [exact Em|].
  exists {[(2, 0) := root]}, R. split; [exact Hp|]. split.
  - intros x l v _ Ex. rewrite Hl in Ex. discriminate Ex.
  - intros x y l v l' v' _ _ Ex. rewrite Hl in Ex. discriminate Ex.
Qed.

(** The parts of [demo_space] the witnesses use. *)
Lemma demo_free_slot i : 0 <= i < NVMA ->
  exists k, 0 <= k < NVMA /\ k <> i /\ 0 <= k < 2.
Proof.
  intros Hi. destruct (decide (i = 0)) as [->|]; [exists 1|exists 0]; unfold NVMA; lia.
Qed.

Lemma demo_spare : exists (s : vmstate _ (ptstate kernel)) i m k,
  vm_ok {[7]} demo_ids s {[7 := [i]]} /\ vmas s !! i = Some demo_area /\ mms s !! 7 = Some m /\
  pt_fine (mm_pagetable m) (vpt s) /\ 0 <= k < NVMA /\ vmas s !! k = Some zero_vma /\
  unlinked {[7 := [i]]} k.
Proof.
  destruct demo_space as (s & i & m & V & Hi & Ev & Em & Hf).
  destruct (demo_free_slot i Hi) as (k & Hk & Hne & _). exists s, i, m, k.
  split; [exact V|]. split; [rewrite Ev; apply lookup_insert_eq|]. split; [exact Em|]. split; [exact Hf|].
  split; [exact Hk|]. split.
  - rewrite Ev, lookup_insert_ne by congruence. by apply vmas_init_lookup.
  - intros h l [_ <-]%lookup_singleton_Some Hin%list_elem_of_singleton. congruence.
Qed.

Lemma vma_map_spec_witness : exists (s : vmstate _ (ptstate kernel)) i,
  exists n s', vma_map 7 0x20000 100 1 VMA_ANON s = Done (0, s') /\ vm_ok {[7]} demo_ids s' {[7 := [n; i]]}.
Proof.
  destruct demo_spare as (s & i & m & k & V & Ei & Em & _ & Hk & Ek & _).
  exists s, i.
  destruct (vma_map_spec {[7]} demo_ids s _ 7 [i] m 0x20000 100 1 VMA_ANON V)
    as [[_ Hno]|[[_ (j & v & Hj & Ej & Ht)]|(n & s' & v & E & _ & _ & _ & _ & _ & _ & _ & Hok)]].
  - apply lookup_singleton_eq.
  - exact Em.
  - reflexivity.
  - lia.
  - lia.
  - vm_compute. congruence.
  - lia.
  - exfalso. exact (Hno k zero_vma Hk Ek eq_refl).
  - exfalso. apply list_elem_of_singleton in Hj as ->. rewrite Ei in Ej. injection Ej as <-.
    change (area_size 100) with 4096 in Ht. unfold touches, in_area, demo_area in Ht. cbn in Ht. lia.
  - exists n, s'. split; [exact E|]. rewrite insert_singleton_eq in Hok. apply Hok.
    intros j v' Hj Ej [H1 _]. apply list_elem_of_singleton in Hj as ->. rewrite Ei in Ej. injection Ej as <-.
    cbn in H1. lia.
Defined.

Lemma intersect_misses_inner_witness : exists (s : vmstate _ (ptstate kernel)) k s',
  add_vma_to_vmspace 7 k (set_vma k (Vma VMA_ANON 0xf000 0x6000 1 1 0 None) s) = Done (0, s').
Proof.
  destruct demo_spare as (s & i & m & k & V & Ei & Em & _ & Hk & Ek & Hu). exists s, k.
  destruct (intersect_misses_inner {[7]} demo_ids s _ 7 [i] k (Vma VMA_ANON 0xf000 0x6000 1 1 0 None) i demo_area V)
    as (s' & x & E & _).
  - apply lookup_singleton_eq.
  - exact Hk.
  - exact Hu.
  - unfold vma_wf. rewrite USER_TOP_eq. cbn [startva vsize]. split_and!; try reflexivity; lia.
  - by left.
  - exact Ei.
  - unfold swallowed. cbn. lia.
  - intros j w Hj Ej. apply list_elem_of_singleton in Hj as ->. rewrite Ei in Ej. injection Ej as <-.
    unfold touches, in_area. cbn. lia.
  - exists s'. exact E.
Defined.

Lemma split_vma_transparent_witness : exists (s : vmstate _ (ptstate kernel)) i n s',
  split_vma 7 i 0x12000 true s = Done (0, s') /\ vm_ok {[7]} demo_ids s' (<[7 := [n; i]]> {[7 := [i]]}).
Proof.
  destruct demo_spare as (s & i & m & k & V & Ei & Em & _ & Hk & Ek & Hu). exists s, i.
  destruct (split_vma_transparent {[7]} demo_ids s _ 7 [i] i demo_area 0x12000 true V) as (n & s' & E & V' & _).
  - apply lookup_singleton_eq.
  - by left.
  - exact Ei.
  - cbn. lia.
  - reflexivity.
  - intros f Hf. discriminate Hf.
  - exists k, zero_vma. split; [exact Hk|]. split; [exact Ek|reflexivity].
  - exists n, s'. split; [exact E|exact V'].
Defined.

Lemma sys_mprotect_spec_witness : exists (s : vmstate _ (ptstate kernel)) e s',
  sys_mprotect 7 0x11000 0x1800 1 s = Done (e, s').
Proof.
  destruct demo_spare as (s & i & m & k & V & Ei & Em & _ & Hk & Ek & Hu). exists s.
  destruct (sys_mprotect_spec {[7]} demo_ids s _ 7 [i] i demo_area 0x11000 0x1800 1 V) as (e & s' & l' & E & _).
  - apply lookup_singleton_eq.
  - by left.
  - exact Ei.
  - intros f Hf. discriminate Hf.
  - reflexivity.
  - lia.
  - lia.
  - cbn. lia.
  - cbn. lia.
  - exists e, s'. exact E.
Defined.


Lemma vmspace_unmap_partial_witness : exists (s s' : vmstate _ (ptstate kernel)),
  vmspace_unmap unmap_fuel 7 0x10000 0x1000 s = Done (0, s').
Proof.
  destruct demo_spare as (s & i & m & k & V & Ei & Em & Hf & _). exists s.
  destruct (pt_unmap_ok (mm_pagetable m) 0x10000 4 (vpt s) Hf) as (p' & Ep & _);
    [lia|reflexivity|lia|rewrite USER_TOP_eq; lia|].
  eexists. refine (vmspace_unmap_partial {[7]} demo_ids s _ 7 m [i] i demo_area 0x1000 p' (Z.to_nat NVMA) V
    _ _ Ei Em eq_refl _ _ Ep).
  - apply lookup_singleton_eq.
  - by left.
  - lia.
  - reflexivity.
Defined.

Lemma do_mmap_fixed_unmapped_witness : exists (s : vmstate _ (ptstate kernel)),
  do_mmap 7 0x40000 0x1000 3 (Z.lor MAP_FIXED MAP_PRIVATE) None 0 s =
    ('(e, s) ← vma_map 7 0 0x1000 3 VMA_ANON s; Done (if e <? 0 then MAP_FAILED else 0, s)).
Proof.
  destruct demo_spare as (s & i & m & k & V & Ei & _). exists s.
  refine (do_mmap_fixed_unmapped {[7]} demo_ids s _ 7 [i] 0x40000 0x1000 3 (Z.lor MAP_FIXED MAP_PRIVATE) 0 V
    _ _ eq_refl _).
  - apply lookup_singleton_eq.
  - lia.
  - intros j v Hj Ev. apply list_elem_of_singleton in Hj as ->. rewrite Ei in Ev. injection Ev as <-.
    unfold in_area. cbn. lia.
Defined.
