(* ===== verification/Fault.v ===== *)
(** * Fault: page faults, copy-on-write and the life of an address space

    [src/mm/pagefault.c], [src/mm/mm.c], the part of [src/mm/vm.c] that uses the
    areas ([uvmcopy], [uvmfree], [copyout]) and [src/proc/pcb_mm.c].  The state
    is that of [Vma] over the page tables of [PageTable]; reading a file into a
    page and writing one back are arguments of the definitions. *)

From stdpp Require Import base gmap sets list fin_maps.
From Stdlib Require Import ZArith Lia.
From S2P Require Import Prelude KList Buddy Kstring Kalloc Pmem PageAlloc PageTable Vma.
#[local] Open Scope Z_scope.

Definition INSTUCTION_PAGEFAULT : Z := 12.
Definition LOAD_PAGEFAULT : Z := 13.
Definition STORE_PAGEFAULT : Z := 15.

Definition CHECK_PERM (cause : Z) (v : vma) : bool :=
  ((cause =? STORE_PAGEFAULT) && has (perm v) PERM_WRITE)
  || ((cause =? LOAD_PAGEFAULT) && has (perm v) PERM_READ)
  || ((cause =? INSTUCTION_PAGEFAULT) && has (perm v) PERM_EXEC).

Definition perm_vma2pte (vma_perm : Z) : Z :=
  let pte_perm := 0 in
  let pte_perm := if has vma_perm PERM_READ then Z.lor pte_perm PTE_R else pte_perm in
  let pte_perm := if has vma_perm PERM_WRITE then Z.lor pte_perm PTE_W else pte_perm in
  if has vma_perm PERM_EXEC then Z.lor pte_perm PTE_X else pte_perm.

Definition is_a_cow_page (flags : Z) : bool :=
  if negb (has flags PTE_SHARE) then false
  else if has flags PTE_READONLY then false
  else true.

Definition USTACK_GURAD_PAGE : Z := USTACK - PGSIZE.
Definition NPROC : Z := 500.
Definition NTCB_PER_PROC : Z := 2.
Definition NTCB : Z := NPROC * NTCB_PER_PROC.
Definition KSTACK_PAGE : Z := 4.
Definition KSTACK (p : Z) : Z := TRAMPOLINE - (p + 1) * (KSTACK_PAGE + 1) * PGSIZE.

(** What [uvmcopy] does to the entry of a page that parent and child will share. *)
Definition share_pte (pte : Z) : Z :=
  let pte := if negb (has pte PTE_W) && negb (has pte PTE_SHARE) then Z.lor pte PTE_READONLY else pte in
  let pte := if negb (has pte PTE_W) && has pte PTE_READONLY then Z.lor pte PTE_READONLY else pte in
  let pte := Z.lor pte PTE_SHARE in
  Z.ldiff pte PTE_W.

Lemma share_pte_bits pte k : 0 <= k -> Z.testbit (share_pte pte) k =
  if k =? 2 then false else if k =? 8 then true
  else if k =? 9 then Z.testbit pte 9 || (negb (Z.testbit pte 2) && negb (Z.testbit pte 8))
  else Z.testbit pte k.
Proof.
  intros Hk. unfold share_pte. cbv zeta.
  change PTE_SHARE with (2 ^ 8). change PTE_READONLY with (2 ^ 9). change PTE_W with (2 ^ 2).
  assert (forall (b : bool) x y n, Z.testbit (if b then x else y) n = if b then Z.testbit x n else Z.testbit y n)
    as Hif by (by intros []).
  repeat (rewrite ?has_testbit, ?Hif, ?Z.ldiff_spec, ?Z.lor_spec, ?Z.pow2_bits_eqb by lia).
  destruct (Z.eqb_spec k 2) as [->|H2]; [by rewrite andb_false_r|].
  rewrite (proj2 (Z.eqb_neq 2 k)) by done. cbn [negb]. rewrite andb_true_r.
  destruct (Z.eqb_spec k 8) as [->|H8]; [by rewrite orb_true_r|].
  rewrite (proj2 (Z.eqb_neq 8 k)) by done. rewrite orb_false_r.
  destruct (Z.eqb_spec k 9) as [->|H9]; [|rewrite (proj2 (Z.eqb_neq 9 k)) by done];
    destruct (Z.testbit pte 2), (Z.testbit pte 8), (Z.testbit pte 9);
    cbn [negb andb orb Z.eqb Pos.eqb]; rewrite ?orb_false_r; done.
Qed.

Section fault.
Context {W A : Type} `{!ListOps Z Z W, !PageAlloc A}.
(** [fat32_filewrite], and [fat32_inode_read] of the file's inode into a page. *)
Context (filewrite : Z -> Z -> Z -> ptstate A -> outcome (ptstate A)).
Context (inode_read : Z -> Z -> Z -> Z -> mem -> outcome mem).

#[local] Instance fault_pt_ops : PtOps (ptstate A) := page_table_ops filewrite.
Local Abbreviation st := (vmstate W (ptstate A)).

(** Run a page-table routine. *)
Definition on_pt {X} (f : ptstate A -> outcome (X * ptstate A)) (s : st) : outcome (X * st) :=
  '(x, p) ← f (vpt s); Done (x, with_vpt p s).

(** [kmalloc] and [memmove] on the page-table state. *)
Definition pt_kmalloc (size : Z) (p : ptstate A) : outcome (option Z * ptstate A) :=
  '(r, a) ← pa_kmalloc size (al p); Done (r, with_al a p).
Definition pt_memmove (dst src n : Z) (p : ptstate A) : outcome (ptstate A) :=
  m ← memmove dst src n (pm p); Done (with_pm m p).

(** [pte] is the address of the entry. *)
Definition cow (pte level pa flags : Z) (p : ptstate A) : outcome (Z * ptstate A) :=
  if (level =? SUPERPAGE) || (level =? COMMONPAGE) then
    let size := if level =? SUPERPAGE then SUPERPGSIZE else PGSIZE in
    '(mem, p) ← pt_kmalloc size p;
    match mem with
    | None => Done (-1, p)
    | Some mem =>
        p ← pt_memmove mem pa size p;
        p ← wr pte (Z.lor (Z.lor (PA2PTE mem) flags) PTE_W) p;
        p ← free pa p;
        Done (0, p)
    end
  else Done (-1, p).

(** The first access to a page of an area. *)
Definition demand_page (pagetable : Z) (v : vma) (stval : Z) (s : st) : outcome (Z * st) :=
  '(_, s) ← on_pt (uvmalloc UVM_DEPTH pagetable (PGROUNDDOWN stval) (PGROUNDUP (u64 (stval + 1)))
                     (perm_vma2pte (perm v))) s;
  if bool_decide (vtype v = VMA_FILE) then
    pa ← walkaddr pagetable stval (vpt s);
    f ← deref (vm_file v);
    m ← inode_read f pa (u64 (offset v + PGROUNDDOWN stval - startva v)) PGSIZE (pm (vpt s));
    Done (0, with_vpt (with_pm m (vpt s)) s)
  else Done (0, s).

Definition pagefault (mm cause pagetable stval : Z) (s : st) : outcome (Z * st) :=
  if MAXVA <=? PGROUNDDOWN stval then Done (-1, s)
  else
    r ← find_vma_for_va mm stval s;
    match r with
    | None => Done (-1, s)
    | Some i =>
        v ← vma_at s i;
        if negb (CHECK_PERM cause v) then Done (-1, s)
        else
          '(level, pte, _) ← walk pagetable stval false 0 (vpt s);
          match pte with
          | None => demand_page pagetable v stval s
          | Some a =>
              w ← rd a (vpt s);
              if w =? 0 then demand_page pagetable v stval s
              else
                let pa := PTE2PA w in
                let flags := PTE_FLAGS w in
                ASSERT (has flags PTE_V);;
                if is_a_cow_page flags then on_pt (cow a level pa flags) s else Done (-1, s)
          end
    end.

(** [copyout]: the pointer [pte] of the first [walk] is used again after the
    page fault it may have led to. *)
Fixpoint copyout_loop (fuel : nat) (mm pagetable dstva src len : Z) (s : st) : outcome (Z * st) :=
  match fuel with
  | O => NoFuel
  | S f =>
      if negb (0 <? len) then Done (0, s)
      else
        let va0 := PGROUNDDOWN dstva in
        if MAXVA <=? va0 then Done (-1, s)
        else
          '(_, pte, _) ← walk pagetable va0 false 0 (vpt s);
          w ← match pte with None => Done 0 | Some a => rd a (vpt s) end;
          '(e, s) ← (if w =? 0 then pagefault mm STORE_PAGEFAULT pagetable dstva s else Done (0, s));
          if e <? 0 then Done (-1, s)
          else
            a ← deref pte;
            w ← rd a (vpt s);
            let flags := PTE_FLAGS w in
            '(e, s) ← (if negb (has flags PTE_W) && is_a_cow_page flags
                       then pagefault mm STORE_PAGEFAULT pagetable dstva s else Done (0, s));
            if e <? 0 then Done (-1, s)
            else
              pa0 ← walkaddr pagetable va0 (vpt s);
              if pa0 =? 0 then Done (-1, s)
              else
                let n := u64 (PGSIZE - (dstva - va0)) in
                let n := if len <? n then len else n in
                p ← pt_memmove (u64 (pa0 + (dstva - va0))) src n (vpt s);
                copyout_loop f mm pagetable (u64 (va0 + PGSIZE)) (u64 (src + n)) (u64 (len - n)) (with_vpt p s)
  end.

Definition copyout (mm pagetable dstva src len : Z) (s : st) : outcome (Z * st) :=
  copyout_loop (steps 0 len PGSIZE) mm pagetable dstva src len s.

Definition either_copyout (mm : Z) (user_dst : bool) (dst src len : Z) (s : st) : outcome (Z * st) :=
  if user_dst then m ← mm_at s mm; copyout mm (mm_pagetable m) dst src len s
  else p ← pt_memmove dst src len (vpt s); Done (0, with_vpt p s).

Definition either_copyin (mm dst : Z) (user_src : bool) (src len : Z) (s : st) : outcome (Z * st) :=
  if user_src then m ← mm_at s mm; on_pt (copyin (mm_pagetable m) dst src len) s
  else p ← pt_memmove dst src len (vpt s); Done (0, with_vpt p s).

(** *** Copying an address space *)

(** The pages of a stack are copied. *)
Fixpoint copy_stack (fuel : nat) (src dst startva size offset : Z) (p : ptstate A)
    : outcome (Z * ptstate A) :=
  match fuel with
  | O => NoFuel
  | S f =>
      if negb (offset <? size) then Done (0, p)
      else
        '(level, pte, _) ← walk src (u64 (startva + offset)) false 0 p;
        if negb ((level <=? 1) && (0 <=? level)) then Panic
        else
          a ← deref pte;
          w ← rd a p;
          let pa := PTE2PA w in
          '(new, p) ← zalloc PGSIZE p;
          match new with
          | None => Done (-1, p)
          | Some new =>
              p ← pt_memmove new pa PGSIZE p;
              '(e, p) ← mappages dst (u64 (startva + offset)) PGSIZE new
                          (Z.lor (Z.lor PTE_W PTE_R) PTE_U) COMMONPAGE p;
              if negb (e =? 0) then Panic
              else copy_stack f src dst startva size (u64 (offset + PGSIZE)) p
          end
  end.

(** The other pages are shared; [shared] is the test for a shared file area. *)
Fixpoint copy_shared (fuel : nat) (src dst i endva : Z) (shared : bool) (p : ptstate A)
    : outcome (ptstate A) :=
  match fuel with
  | O => NoFuel
  | S f =>
      if negb (i <? endva) then Done p
      else
        '(level, pte, _) ← walk src i false 0 p;
        match pte with
        | None => copy_shared f src dst (u64 (i + PGSIZE)) endva shared p
        | Some a =>
            w ← rd a p;
            if w =? 0 then copy_shared f src dst (u64 (i + PGSIZE)) endva shared p
            else if negb ((level <=? 1) && (0 <=? level)) then Panic
            else
              p ← (if negb shared then wr a (share_pte w) p else Done p);
              w ← rd a p;
              let pa := PTE2PA w in
              let flags := PTE_FLAGS w in
              '(e, i, p) ← (if level =? SUPERPAGE then
                              ASSERT (i =? SUPERPG_DOWN i);;
                              '(e, p) ← mappages dst i SUPERPGSIZE pa flags SUPERPAGE p;
                              Done (e, u64 (i + (SUPERPGSIZE - PGSIZE)), p)
                            else
                              '(e, p) ← mappages dst i PGSIZE pa flags COMMONPAGE p;
                              Done (e, i, p));
              if negb (e =? 0) then Panic
              else
                al' ← pa_share pa (al p);
                copy_shared f src dst (u64 (i + PGSIZE)) endva shared (with_al al' p)
        end
  end.

Fixpoint uvmcopy_loop (l : list Z) (src dst : Z) (s : st) : outcome (Z * st) :=
  match l with
  | [] => Done (0, s)
  | pos :: l =>
      v ← vma_at s pos;
      if bool_decide (vtype v = VMA_STACK) then
        '(e, s) ← on_pt (copy_stack (steps 0 (vsize v) PGSIZE) src dst (startva v) (vsize v) 0) s;
        if e <? 0 then Done (-1, s) else uvmcopy_loop l src dst s
      else
        let startva := startva v in
        let endva := vend v in
        ASSERT ((startva mod PGSIZE =? 0) && (endva mod PGSIZE =? 0));;
        let shared := bool_decide (vtype v = VMA_FILE) && has (perm v) PERM_SHARED in
        p ← copy_shared (steps startva endva PGSIZE) src dst startva endva shared (vpt s);
        uvmcopy_loop l src dst (with_vpt p s)
  end.

Definition uvmcopy (srcmm dstmm : Z) (s : st) : outcome (Z * st) :=
  ms ← mm_at s srcmm;
  md ← mm_at s dstmm;
  l ← lh_each srcmm (vlists s);
  uvmcopy_loop l (mm_pagetable ms) (mm_pagetable md) s.

(** *** Creating and freeing an address space *)

Definition uvmfree (mm : Z) (s : st) : outcome st :=
  s ← free_all_vmas mm s;
  m ← mm_at s mm;
  p ← freewalk 3 (mm_pagetable m) (vpt s);
  Done (with_vpt p s).

Fixpoint unmap_trapframes (k : nat) (pagetable offset : Z) (p : ptstate A) : outcome (ptstate A) :=
  match k with
  | O => Done p
  | S k =>
      p ← uvmunmap UVM_DEPTH pagetable (TRAPFRAME - offset * PGSIZE) 1 false true p;
      unmap_trapframes k pagetable (offset + 1) p
  end.

Definition proc_freepagetable (mm thread_cnt : Z) (s : st) : outcome st :=
  m ← mm_at s mm;
  let pt := mm_pagetable m in
  p ← uvmunmap UVM_DEPTH pt TRAMPOLINE 1 false false (vpt s);
  p ← uvmunmap UVM_DEPTH pt SIGRETURN 1 false false p;
  p ← uvmunmap UVM_DEPTH pt USTACK_GURAD_PAGE 1 false true p;
  p ← unmap_trapframes (Z.to_nat thread_cnt) pt 0 p;
  uvmfree mm (with_vpt p s).

(** [alloc_mm]; the structure is at the address [kzalloc] returns.  [mm_size] is
    [sizeof(struct mm_struct)]. *)
Definition alloc_mm (mm_size trampoline user_rt_sigreturn : Z) (s : st) : outcome (option Z * st) :=
  '(r, s) ← on_pt (zalloc mm_size) s;
  match r with
  | None => Done (None, s)
  | Some mm =>
      let s := with_mms (<[mm := Mm 0 0 0 None]> (mms s)) s in
      w ← lh_init mm (vlists s);
      let s := with_vlists w s in
      '(pt, s) ← on_pt (proc_pagetable trampoline user_rt_sigreturn) s;
      let s := with_mms (<[mm := Mm (default 0 pt) 0 0 None]> (mms s)) s in
      match pt with
      | None => p ← free mm (vpt s); Done (None, with_vpt p s)
      | Some _ => Done (Some mm, s)
      end
  end.

Definition free_mm (mm : option Z) (thread_cnt : Z) (s : st) : outcome st :=
  match mm with
  | None => Done s
  | Some mm =>
      m ← mm_at s mm;
      s ← (if negb (mm_pagetable m =? 0) then proc_freepagetable mm thread_cnt s else Done s);
      m ← mm_at s mm;
      let s := with_mms (<[mm := Mm 0 (start_brk m) 0 (heapvma m)]> (mms s)) s in
      p ← free mm (vpt s);
      Done (with_vpt p s)
  end.

Definition set_brk (mm sz : Z) (s : st) : outcome st :=
  m ← mm_at s mm;
  Done (with_mms (<[mm := Mm (mm_pagetable m) (start_brk m) sz (heapvma m)]> (mms s)) s).

(** The end of [growheap]: record the new size of the heap. *)
Definition set_heap (mm sz : Z) (s : st) : outcome (Z * st) :=
  m ← mm_at s mm;
  s ← (match heapvma m with
       | None =>
           '(e, s) ← vma_map mm (start_brk m) (u64 (sz - start_brk m)) (Z.lor PERM_READ PERM_WRITE) VMA_HEAP s;
           if e <? 0 then Panic else Done s
       | Some _ => Done s
       end);
  s ← set_brk mm sz s;
  m ← mm_at s mm;
  i ← deref (heapvma m);
  v ← vma_at s i;
  Done (0, set_vma i (set_range (startva v) (u64 (PGROUNDUP sz - start_brk m)) v) s).

(** [growheap]; [None] when the process exits. *)
Definition growheap (mm n : Z) (s : st) : outcome (option Z * st) :=
  m ← mm_at s mm;
  let oldsz := brk m in
  let newsz := u64 (brk m + n) in
  if newsz <? start_brk m then Done (None, s)
  else if 0 <? n then
    '(level, pte, _) ← walk (mm_pagetable m) oldsz false 0 (vpt s);
    if bool_decide (pte = None) && negb (level =? -1) then Panic
    else
      ASSERT (level <=? 1);;
      if (level =? COMMONPAGE) && (newsz <=? PGROUNDUP oldsz) then
        s ← set_brk mm newsz s; Done (Some 0, s)
      else if (level =? SUPERPAGE) && (newsz <=? SUPERPG_ROUNDUP oldsz) then
        s ← set_brk mm newsz s; Done (Some 0, s)
      else if negb ((level =? COMMONPAGE) || (level =? SUPERPAGE) || (level =? -1)) then Panic
      else
        '(sz, s) ← on_pt (uvmalloc UVM_DEPTH (mm_pagetable m) oldsz newsz (Z.lor PTE_W PTE_R)) s;
        if sz =? 0 then Done (Some (-1), s)
        else '(e, s) ← set_heap mm sz s; Done (Some e, s)
  else if n <? 0 then
    '(sz, s) ← on_pt (uvmdealloc (mm_pagetable m) oldsz newsz) s;
    '(e, s) ← set_heap mm sz s; Done (Some e, s)
  else '(e, s) ← set_heap mm oldsz s; Done (Some e, s).

(** [tcb_mapstacks]: the kernel stack of thread [t] and of those after it. *)
Fixpoint tcb_mapstacks_loop (k : nat) (kpgtbl t : Z) (p : ptstate A) : outcome (ptstate A) :=
  match k with
  | O => Done p
  | S k =>
      '(pa, p) ← pt_kmalloc (KSTACK_PAGE * PGSIZE) p;
      match pa with
      | None => Panic
      | Some pa =>
          p ← kvmmap kpgtbl (KSTACK t) pa (KSTACK_PAGE * PGSIZE) (Z.lor PTE_R PTE_W) COMMONPAGE p;
          tcb_mapstacks_loop k kpgtbl (t + 1) p
      end
  end.

Definition tcb_mapstacks (kpgtbl : Z) (p : ptstate A) : outcome (ptstate A) :=
  tcb_mapstacks_loop (Z.to_nat NTCB) kpgtbl 0 p.
End fault.

(** ** Copy on write *)

Section cow.
Context {A : Type} `{!PageAlloc A, !PageAllocOk A}.
Implicit Types (s : ptstate A) (R : gmap Z (Z * Z)).

Lemma kmalloc_page s root tabs R : pt_ok s root tabs R ->
  pt_kmalloc PGSIZE s = Done (None, s) /\ pa_kmalloc PGSIZE (al s) = Done (None, al s) \/
  exists q a' R', pt_kmalloc PGSIZE s = Done (Some (page_to_pa q), with_al a' s) /\
    0 <= q < NPAGES /\ R !! q = None /\ pt_ok (with_al a' s) root tabs R' /\
    R' !! q = Some (0, 1) /\ q ∉ pa_cached a' /\ pa_cached a' ⊆ pa_cached (al s) /\
    (forall p, p <> q -> p ∉ pa_cached (al s) -> R' !! p = R !! p) /\
    (forall x, tabs !! x <> Some (page_to_pa q)).
Proof.
  intros P. unfold pt_kmalloc.
  destruct (pa_kmalloc_ok (al s) R PGSIZE (pk_alloc _ _ _ _ P)) as (o & r & a' & Ek & Ho & Hr).
  { unfold PGSIZE. change (2 ^ BUDDY_MAX_ORDER) with (2 ^ 13). lia. }
  rewrite Ek. apply least_order_page in Ho as ->. ocbn.
  destruct r as [pa|]; [right|left; subst; split; [by destruct s|done]].
  destruct Hr as (q & R' & -> & Hq & _ & Ha & Hq' & Hqc & Hk & Hc).
  destruct (pa_range _ _ _ _ _ Ha Hq') as (_ & Hq0 & Hq1 & _). change (2 ^ 0) with 1 in Hq1.
  assert (forall x t, tabs !! x = Some t -> exists p, t = page_to_pa p /\ 0 <= p < NPAGES /\ p <> q /\
    R !! p = Some (0, 1) /\ p ∉ pa_cached (al s)) as Htab.
  { intros [l b] t Et. destruct (pk_tab _ _ _ _ P _ _ _ Et) as (_ & p & -> & Hp & Ep & Hpc).
    exists p. split_and!; try done; try lia. intros ->. congruence. }
  exists q, a', R'. split_and!; try done; try lia.
  - constructor; cbn [pm al with_al]; try apply P; try done.
    intros l b t Et. split; [by destruct (pk_tab _ _ _ _ P l b t Et)|].
    destruct (Htab _ _ Et) as (p & -> & Hp & Hne & Ep & Hpc). exists p. split_and!; try done; try lia.
    + by rewrite Hk.
    + set_solver.
  - intros x Et. destruct (Htab _ _ Et) as (p & E & Hp & Hne & _). apply page_to_pa_inj in E; lia.
Qed.

(** Memory may change outside the tables. *)
Lemma pt_ok_mem s root tabs R m' : pt_ok s root tabs R -> mem_ok m' ->
  (forall x t i, tabs !! x = Some t -> 0 <= i < 512 -> word m' (t + 8 * i) = word (pm s) (t + 8 * i)) ->
  pt_ok (with_pm m' s) root tabs R /\ forall va, leaf_of m' tabs va = leaf_of (pm s) tabs va.
Proof.
  intros P M Hw. split.
  - constructor; cbn [pm al with_pm]; try apply P; try done. intros l b t i E Hl Hi.
    rewrite (Hw (l, b)) by done. by apply (pk_step _ _ _ _ P).
  - intros va. unfold leaf_of. destruct (tabs !! (1, tabno 1 va)) as [t1|] eqn:E1; [|done].
    cbn [mbind option_bind]. rewrite (Hw _ _ _ E1) by (apply PN_range; lia).
    destruct (kind _); try done. destruct (tabs !! (0, tabno 0 va)) as [t0|] eqn:E0; [|done].
    cbn [mbind option_bind]. by rewrite (Hw _ _ _ E0) by (apply PN_range; lia).
Qed.

Lemma page_valid m q : mem_ok m -> 0 <= q < NPAGES -> valid m (page_to_pa q) 4096.
Proof.
  intros [M _] Hq i Hi. apply M. rewrite page_to_pa_alt by done. change NPAGES with 251904 in Hq.
  unfold START_MEM, PHYSTOP. lia.
Qed.

(** Copying page [p] to a page [q] that is no table. *)
Lemma copy_page s root tabs R p q : pt_ok s root tabs R -> 0 <= p < NPAGES -> 0 <= q < NPAGES ->
  (forall x, tabs !! x <> Some (page_to_pa q)) ->
  exists m', pt_memmove (page_to_pa q) (page_to_pa p) PGSIZE s = Done (with_pm m' s) /\
    pt_ok (with_pm m' s) root tabs R /\ (forall va, leaf_of m' tabs va = leaf_of (pm s) tabs va) /\
    (forall i, 0 <= i < 4096 -> m' !! (page_to_pa q + i) = pm s !! (page_to_pa p + i)) /\
    (forall x, ~ page_to_pa q <= x < page_to_pa q + 4096 -> m' !! x = pm s !! x).
Proof.
  intros P Hp Hq Ht. pose proof (pk_mem _ _ _ _ P) as M. unfold pt_memmove.
  destruct (memmove_ok (page_to_pa q) (page_to_pa p) PGSIZE (pm s)) as (m' & -> & Hm);
    [unfold PGSIZE; lia|by apply page_valid|by apply page_valid|].
  ocbn. exists m'. split; [done|]. change PGSIZE with 4096 in Hm.
  assert (forall i, 0 <= i < 4096 -> m' !! (page_to_pa q + i) = pm s !! (page_to_pa p + i)) as Hin.
  { intros i Hi. rewrite Hm, decide_True by lia. f_equal. lia. }
  assert (forall x, ~ page_to_pa q <= x < page_to_pa q + 4096 -> m' !! x = pm s !! x) as Hout.
  { intros x Hx. by rewrite Hm, decide_False. }
  destruct (pt_ok_mem s root tabs R m' P) as [P' Hl]; [| |by split_and!].
  - destruct M as [M1 M2]. split.
    + intros x Hx. rewrite Hm. case_decide; [|auto]. apply (page_valid (pm s) p (conj M1 M2) Hp). lia.
    + intros x y. rewrite Hm. case_decide; apply M2.
  - intros [l b] t i Et Hi. unfold word. rewrite (load64_frame (pm s) m'); [done|].
    intros x Hx. apply Hout. destruct (pk_tab _ _ _ _ P _ _ _ Et) as (_ & r & -> & Hr & _).
    assert (r <> q) by (intros ->; by apply (Ht _ Et)). rewrite !page_to_pa_alt in * by done. lia.
Qed.

(** The slot and the page of an address mapped by a common page. *)
Lemma leaf0_slot s root tabs R va w : pt_ok s root tabs R -> leaf_of (pm s) tabs va = Some (0, w) ->
  exists t0, tabs !! (0, tabno 0 va) = Some t0 /\ has w PTE_V = true /\
    word (pm s) (t0 + 8 * PN 0 va) = w /\ slot_of (pm s) tabs va = Some (0, t0 + 8 * PN 0 va).
Proof.
  intros P. unfold leaf_of, slot_of. destruct (tabs !! (1, tabno 1 va)) as [t1|] eqn:E1; [|done].
  cbn [mbind option_bind]. destruct (kind _); [done|intros [= H]; lia|].
  destruct (tabs !! (0, tabno 0 va)) as [t0|] eqn:E0; [|done]. cbn [mbind option_bind].
  destruct (has _ PTE_V) eqn:Ev; [|done]. intros [= <-]. exists t0. done.
Qed.

(** What a copy-on-write fault on the page of [va], mapped by [w], must give. *)
Record cow_done s tabs R (va w p : Z) s' R' (q w' : Z) : Prop := {
  cd_here x : x / 4096 = va / 4096 -> leaf_of (pm s') tabs x = Some (0, w');
  cd_else x : x / 4096 <> va / 4096 -> leaf_of (pm s') tabs x = leaf_of (pm s) tabs x;
  cd_page : PTE2PA w' = page_to_pa q;
  cd_flags : PTE_FLAGS w' = Z.lor (PTE_FLAGS w) PTE_W;
  cd_fresh : R !! q = None /\ R' !! q = Some (0, 1);
  cd_copy i : 0 <= i < 4096 -> pm s' !! (page_to_pa q + i) = pm s !! (page_to_pa p + i);
  cd_drop : R' !! p = drop_ref p R !! p;
  cd_keep r : r <> p -> r <> q -> r ∉ pa_cached (al s) -> R' !! r = R !! r
}.

Lemma PTE_FLAGS_range v : 0 <= PTE_FLAGS v < 1024.
Proof.
  unfold PTE_FLAGS. change 0x3FF with (Z.ones 10). rewrite Z.land_ones by lia.
  by apply Z.mod_pos_bound.
Qed.

Lemma cow_ok s root tabs R va w p : pt_ok s root tabs R -> leaf_of (pm s) tabs va = Some (0, w) ->
  user_page s tabs R w p ->
  exists a, slot_of (pm s) tabs va = Some (0, a) /\ rd a s = Done w /\ has w PTE_V = true /\
  (cow a 0 (PTE2PA w) (PTE_FLAGS w) s = Done (-1, s) /\ pa_kmalloc PGSIZE (al s) = Done (None, al s) \/
   exists s' R' q w', cow a 0 (PTE2PA w) (PTE_FLAGS w) s = Done (0, s') /\ pt_ok s' root tabs R' /\
     cow_done s tabs R va w p s' R' q w').
Proof.
  intros P Hl Hu. destruct (leaf0_slot _ _ _ _ _ _ P Hl) as (t0 & E0 & Hv & Hw & Hsl).
  pose proof (pk_word _ _ _ _ _ _ _ (PN 0 va) P E0 (PN_range 0 va ltac:(lia))) as Hram.
  exists (t0 + 8 * PN 0 va). split; [done|].
  destruct (rd_word s _ (pk_mem _ _ _ _ P) Hram) as [-> _]. split; [by rewrite Hw|]. split; [done|].
  unfold cow. cbn [Z.eqb SUPERPAGE COMMONPAGE orb]. cbv zeta.
  destruct (kmalloc_page s root tabs R P) as [[-> Ek]|(q & a' & R1 & -> & Hq & Eq & P1 & Eq1 & Hqc & Hc & Hk & Ht)];
    ocbn; [by left|right].
  pose proof Hu as (Epa & Hnf & Hp & [[o n] EpR] & Hpc & Hpt).
  assert (p <> q) as Hpq by (intros ->; congruence).
  rewrite Epa.
  destruct (copy_page (with_al a' s) root tabs R1 p q P1 Hp Hq Ht) as (m' & -> & P2 & Hl2 & Hcp & Hout). ocbn.
  assert (Z.lor (Z.lor (PA2PTE (page_to_pa q)) (PTE_FLAGS w)) PTE_W =
          Z.lor (PA2PTE (page_to_pa q)) (Z.lor (PTE_FLAGS w) PTE_W)) as -> by (by rewrite Z.lor_assoc).
  set (w' := Z.lor (PA2PTE (page_to_pa q)) (Z.lor (PTE_FLAGS w) PTE_W)).
  pose proof (page_to_pa_is_page q Hq) as Hqp.
  assert (0 <= Z.lor (PTE_FLAGS w) PTE_W < 1024) as Hfl
    by (apply lor_flags; [apply PTE_FLAGS_range|unfold PTE_W; lia]).
  assert (has w' PTE_V = true) as Hv'.
  { unfold w', PTE_V. rewrite pte_has by (done || lia). rewrite Z.lor_spec, flags_bits by lia.
    change PTE_V with (2 ^ 0) in Hv. rewrite has_testbit in Hv by lia. by rewrite Hv. }
  destruct (write_leaf _ root tabs R1 va t0 w' P2 (pte_range _ _ Hqp Hfl) E0) as (s3 & Ew & Ea & P3 & Hin3 & Hout3).
  rewrite Hv' in Hin3. rewrite Ew. ocbn.
  assert (forall x, ~ t0 + 8 * PN 0 va <= x < t0 + 8 * PN 0 va + 8 -> pm s3 !! x = m' !! x) as Hbytes.
  { unfold wr in Ew. cbn [pm with_pm] in Ew.
    destruct (store64_ok m' (t0 + 8 * PN 0 va) w') as (m3 & Em & _ & Hf & _);
      [apply word_valid; [apply (pk_mem _ _ _ _ P2)|done]|by apply pte_range|].
    rewrite Em in Ew. ocbn_in Ew. injection Ew as <-. exact Hf. }
  assert (al s3 = a') as Ea3 by (rewrite Ea; done).
  assert (user_page s3 tabs R1 w p) as Hu3.
  { unfold user_page. rewrite Ea3. split_and!; try done; try lia; [|set_solver]. rewrite Hk by done. eauto. }
  rewrite <- Epa.
  destruct (free_page s3 root tabs R1 w p P3 Hu3) as (s4 & -> & Epm & Ec & P4). ocbn.
  exists s4, (drop_ref p R1), q, w'. split; [done|]. split; [done|].
  constructor; rewrite ?Epm.
  - exact Hin3.
  - intros x Hx. rewrite Hout3 by done. cbn [pm with_pm]. by rewrite Hl2.
  - by apply pte_pa.
  - by apply pte_flags.
  - split; [done|]. by rewrite drop_ref_ne.
  - intros i Hi. rewrite Hbytes; [by apply Hcp|].
    destruct (pk_tab _ _ _ _ P _ _ _ E0) as (_ & r & -> & Hr & _).
    assert (r <> q) by (intros ->; by apply (Ht _ E0)).
    pose proof (PN_range 0 va ltac:(lia)). rewrite !page_to_pa_alt by done. lia.
  - apply drop_ref_self. by apply Hk.
  - intros r Hrp Hrq Hrc. rewrite drop_ref_ne by done. by apply Hk.
Qed.
End cow.

(** ** The properties *)

Section properties.
Context {W A : Type} `{!ListOps Z Z W, !ListHeap Z Z W, !PageAlloc A, !PageAllocOk A}.
Context (inode_read : Z -> Z -> Z -> Z -> mem -> outcome mem).
Implicit Types (s : vmstate W (ptstate A)) (L : gmap Z (list Z)).

(** The area [find_vma_for_va] finds is the one that holds the address. *)
Lemma find_vma_hit HS XS s L mm l i v x : vm_ok HS XS s L -> L !! mm = Some l -> i ∈ l ->
  vmas s !! i = Some v -> in_area v x -> find_vma_for_va mm x s = Done (Some i).
Proof.
  intros V E Hi Ev Hx. destruct (find_vma_ok _ _ _ _ _ _ x V E) as (r & -> & Hr).
  destruct r as [j|]; [|by destruct (Hr i v Hi Ev)]. destruct Hr as (Hj & w & Ew & Hw).
  destruct (decide (i = j)) as [<-|Hij]; [done|].
  by destruct (vo_apart _ _ _ _ V mm l i j v w E Hi Hj Hij Ev Ew x Hx).
Qed.

Lemma PGROUNDDOWN_below x : 0 <= x < MAXVA -> (MAXVA <=? PGROUNDDOWN x) = false.
Proof.
  intros Hx. apply Z.leb_gt. rewrite PGROUNDDOWN_alt. pose proof (Z.mod_pos_bound x 4096 ltac:(lia)). lia.
Qed.

(** C10.  A store to a copy-on-write page of a writable area: when the allocator has no
    page left [pagefault] fails with no change; otherwise it maps the page of the address, and it
    alone, to a fresh page with the same contents and with the old flags plus
    write permission; the old page loses one reference and no other block in use
    changes. *)
Theorem pagefault_cow_spec HS XS s L mm l i v stval root tabs R w p :
  vm_ok HS XS s L -> L !! mm = Some l -> i ∈ l -> vmas s !! i = Some v -> in_area v stval ->
  has (perm v) PERM_WRITE = true -> 0 <= stval < MAXVA ->
  pt_ok (vpt s) root tabs R -> leaf_of (pm (vpt s)) tabs stval = Some (0, w) ->
  user_page (vpt s) tabs R w p -> is_a_cow_page (PTE_FLAGS w) = true ->
  pagefault inode_read mm STORE_PAGEFAULT root stval s = Done (-1, s) /\
    pa_kmalloc PGSIZE (al (vpt s)) = Done (None, al (vpt s)) \/
  exists t' R' q w', pagefault inode_read mm STORE_PAGEFAULT root stval s = Done (0, with_vpt t' s) /\
    pt_ok t' root tabs R' /\ cow_done (vpt s) tabs R stval w p t' R' q w'.
Proof.
  intros V E Hi Ev Hx Hperm Hva P Hl Hu Hcow. unfold pagefault. rewrite PGROUNDDOWN_below by done.
  rewrite (find_vma_hit HS XS s L mm l i v) by done. ocbn. rewrite (vma_at_run _ _ _ Ev). ocbn.
  unfold CHECK_PERM. rewrite Hperm. cbn [Z.eqb STORE_PAGEFAULT andb orb negb].
  rewrite (walk_lookup _ _ _ _ _ P Hva).
  destruct (cow_ok (vpt s) root tabs R stval w p P Hl Hu) as (a & -> & Ha & Hv & Hc). ocbn. rewrite Ha. ocbn.
  assert (w <> 0) as Hw0 by (by intros ->). rewrite (proj2 (Z.eqb_neq w 0) Hw0).
  assert (has (PTE_FLAGS w) PTE_V = true) as ->.
  { change PTE_V with (2 ^ 0) in *. rewrite has_testbit in * by lia. by rewrite flags_bits by lia. }
  ocbn. rewrite Hcow. unfold on_pt. destruct Hc as [[-> Ek]|(s' & R' & q & w' & -> & P' & D)]; ocbn.
  - left. split; [by destruct s|exact Ek].
  - right. exists s', R', q, w'. done.
Qed.

(** What [fork] does to the entry of a private page: it names the same page
    and loses write permission; a later store is taken as copy-on-write exactly
    when the page was writable, or already shared, and not read-only; and
    forking again changes nothing more. *)
Theorem share_pte_spec pte : 0 <= pte < 2 ^ 64 ->
  PTE2PA (share_pte pte) = PTE2PA pte /\ has (share_pte pte) PTE_W = false /\
  (has (share_pte pte) PTE_V = has pte PTE_V /\ has (share_pte pte) PTE_R = has pte PTE_R /\
   has (share_pte pte) PTE_X = has pte PTE_X /\ has (share_pte pte) PTE_U = has pte PTE_U) /\
  is_a_cow_page (PTE_FLAGS (share_pte pte)) =
    negb (has pte PTE_READONLY) && (has pte PTE_W || has pte PTE_SHARE) /\
  share_pte (share_pte pte) = share_pte pte.
Proof.
  intros Hp.
  assert (forall k, 0 <= k -> Z.testbit (share_pte pte) k =
    if k =? 2 then false else if k =? 8 then true
    else if k =? 9 then Z.testbit pte 9 || (negb (Z.testbit pte 2) && negb (Z.testbit pte 8))
    else Z.testbit pte k) as Hb by (intros; by apply share_pte_bits).
  assert (forall k, 0 <= k < 10 -> has (PTE_FLAGS (share_pte pte)) (2 ^ k) = Z.testbit (share_pte pte) k) as Hf.
  { intros k Hk. rewrite has_testbit, flags_bits by lia. done. }
  split_and!.
  - unfold PTE2PA. do 2 f_equal. apply Z.bits_inj'. intros k Hk. rewrite !Z.shiftr_spec, Hb by lia.
    repeat (match goal with |- context [?a =? ?b] => destruct (Z.eqb_spec a b) end); try lia. done.
  - change PTE_W with (2 ^ 2). by rewrite has_testbit, Hb by lia.
  - change PTE_V with (2 ^ 0). by rewrite !has_testbit, Hb by lia.
  - change PTE_R with (2 ^ 1). by rewrite !has_testbit, Hb by lia.
  - change PTE_X with (2 ^ 3). by rewrite !has_testbit, Hb by lia.
  - change PTE_U with (2 ^ 4). by rewrite !has_testbit, Hb by lia.
  - unfold is_a_cow_page. change PTE_SHARE with (2 ^ 8). change PTE_READONLY with (2 ^ 9). change PTE_W with (2 ^ 2).
    rewrite !Hf, !has_testbit, !Hb by lia. cbn [Z.eqb Pos.eqb negb].
    by destruct (Z.testbit pte 9), (Z.testbit pte 2), (Z.testbit pte 8).
  - apply Z.bits_inj'. intros k Hk. rewrite share_pte_bits, !Hb by lia.
    destruct (Z.eqb_spec k 2), (Z.eqb_spec k 8), (Z.eqb_spec k 9); subst; try done.
    cbn [Z.eqb Pos.eqb negb andb]. by rewrite orb_false_r.
Qed.

(** [copyout] to a page of a valid area whose table page does not exist yet:
    the page fault succeeds, and then the entry is read through the NULL pointer
    the first [walk] returned. *)
Theorem copyout_null_pte s mm pagetable dstva src len s' :
  0 < len -> 0 <= dstva < MAXVA ->
  walk pagetable (PGROUNDDOWN dstva) false 0 (vpt s) = Done (-1, None, vpt s) ->
  pagefault inode_read mm STORE_PAGEFAULT pagetable dstva s = Done (0, s') ->
  copyout inode_read mm pagetable dstva src len s = Undef.
Proof.
  intros Hlen Hva Hw Hpf. unfold copyout, steps. cbn [copyout_loop].
  rewrite (proj2 (Z.ltb_lt 0 len) Hlen), (PGROUNDDOWN_below _ Hva). cbn [negb].
  rewrite Hw. ocbn. cbn [Z.eqb]. rewrite Hpf. ocbn. done.
Qed.
End properties.

(** ** A concrete shared page *)

(** Pages 0 to 2 are the tables of address 0x10000, page 3 is mapped there,
    shared and not writable. *)
Definition demo_pte : Z := Z.lor (PA2PTE (page_to_pa 3)) 0x113.
Definition demo_tabs : gmap (Z * Z) Z :=
  {[(2, 0) := page_to_pa 0; (1, 0) := page_to_pa 1; (0, 0) := page_to_pa 2]}.
Definition demo_refs : gmap Z (Z * Z) := {[0 := (0, 1); 1 := (0, 1); 2 := (0, 1); 3 := (0, 2)]}.

Definition link (p : Z) : Z := Z.lor (PA2PTE (page_to_pa p)) PTE_V.

Lemma demo_mem : exists m, mem_ok m /\
  (forall i, 0 <= i < 512 -> word m (page_to_pa 0 + 8 * i) = if i =? 0 then link 1 else 0) /\
  (forall i, 0 <= i < 512 -> word m (page_to_pa 1 + 8 * i) = if i =? 0 then link 2 else 0) /\
  (forall i, 0 <= i < 512 -> word m (page_to_pa 2 + 8 * i) = if i =? 16 then demo_pte else 0).
Proof.
  assert (forall p i, 0 <= p < 4 -> 0 <= i < 512 ->
    word (zero_mem START_MEM ram_size) (page_to_pa p + 8 * i) = 0) as Hz.
  { intros p i Hp Hi. apply word_zero. intros x Hx. apply zero_mem_lookup.
    destruct (table_word p i) as [H1 H2]; [change NPAGES with 251904; lia|exact Hi|]. unfold ram_size. lia. }
  assert (forall p, 0 <= p < 4 -> page_to_pa p = p * 4096 + START_MEM) as Hpa.
  { intros p Hp. apply page_to_pa_alt. change NPAGES with 251904. lia. }
  assert (forall p i, 0 <= p < 4 -> 0 <= i < 512 -> ram_word (page_to_pa p + 8 * i)) as Hram.
  { intros p i Hp Hi. apply table_word; [change NPAGES with 251904; lia|exact Hi]. }
  set (s0 := PS (zero_mem START_MEM ram_size) tt).
  destruct (wr_word s0 (page_to_pa 0 + 8 * 0) (link 1) zero_ram_ok (Hram 0 0 ltac:(lia) ltac:(lia)))
    as (s1 & _ & _ & M1 & E1 & O1); [vm_compute; split; congruence|].
  destruct (wr_word s1 (page_to_pa 1 + 8 * 0) (link 2) M1 (Hram 1 0 ltac:(lia) ltac:(lia)))
    as (s2 & _ & _ & M2 & E2 & O2); [vm_compute; split; congruence|].
  destruct (wr_word s2 (page_to_pa 2 + 8 * 16) demo_pte M2 (Hram 2 16 ltac:(lia) ltac:(lia)))
    as (s3 & _ & _ & M3 & E3 & O3); [vm_compute; split; congruence|].
  pose proof (Hpa 0 ltac:(lia)) as P0. pose proof (Hpa 1 ltac:(lia)) as P1. pose proof (Hpa 2 ltac:(lia)) as P2.
  exists (pm s3). split; [exact M3|]. split; [|split]; intros i Hi.
  - rewrite O3, O2 by lia. destruct (Z.eqb_spec i 0) as [->|]; [exact E1|]. rewrite O1 by lia.
    apply (Hz 0); lia.
  - rewrite O3 by lia. destruct (Z.eqb_spec i 0) as [->|]; [exact E2|]. rewrite O2, O1 by lia.
    apply (Hz 1); lia.
  - destruct (Z.eqb_spec i 16) as [->|]; [exact E3|]. rewrite O3, O2, O1 by lia. apply (Hz 2); lia.
Qed.

Lemma demo_tabs_inv l b t : demo_tabs !! (l, b) = Some t ->
  b = 0 /\ (l = 2 /\ t = page_to_pa 0 \/ l = 1 /\ t = page_to_pa 1 \/ l = 0 /\ t = page_to_pa 2).
Proof.
  unfold demo_tabs. rewrite !lookup_insert_Some, lookup_singleton_Some.
  intros [[[= <- <-] <-]|[_ [[[= <- <-] <-]|[_ [[= <- <-] <-]]]]]; tauto.
Qed.

Lemma link_ok p : 0 <= p < 4 -> kind (link p) = Etable /\ PTE2PA (link p) = page_to_pa p.
Proof.
  intros Hp. assert (is_page (page_to_pa p)) as Hpg.
  { apply page_to_pa_is_page. change NPAGES with 251904. lia. }
  unfold link. split; [exact (kind_table _ Hpg)|]. apply pte_pa; [exact Hpg|]. change PTE_V with 1. lia.
Qed.

Lemma demo_refs_inv p o n : demo_refs !! p = Some (o, n) -> o = 0 /\ 0 <= p < 4 /\ 1 <= n.
Proof.
  unfold demo_refs. rewrite !lookup_insert_Some, lookup_singleton_Some.
  intros [[<- [= <- <-]]|[_ [[<- [= <- <-]]|[_ [[<- [= <- <-]]|[_ [<- [= <- <-]]]]]]]]; lia.
Qed.

Lemma demo_shared : exists m, let s := PS m demo_refs in
  pt_ok s (page_to_pa 0) demo_tabs demo_refs /\ leaf_of m demo_tabs 0x10000 = Some (0, demo_pte) /\
  user_page s demo_tabs demo_refs demo_pte 3.
Proof.
  destruct demo_mem as (m & M & W0 & W1 & W2). exists m. cbv zeta.
  assert (forall p q, 0 <= p < 4 -> 0 <= q < 4 -> page_to_pa p = page_to_pa q -> p = q) as Hinj.
  { intros p q Hp Hq. apply page_to_pa_inj; change NPAGES with 251904; lia. }
  split; [constructor; cbn [pm al]|split].
  - exact M.
  - split; [reflexivity|]. intros p o n (-> & Hp & Hn)%demo_refs_inv. change NPAGES with 251904. lia.
  - reflexivity.
  - intros l b t (-> & H)%demo_tabs_inv. change NPAGES with 251904.
    destruct H as [[-> ->]|[[-> ->]|[-> ->]]]; (split; [lia|]);
      [exists 0|exists 1|exists 2]; (split; [done|]); (split; [lia|]); (split; [done|]); apply not_elem_of_empty.
  - intros [l b] [l' b'] t (-> & H)%demo_tabs_inv (-> & H')%demo_tabs_inv.
    destruct H as [[-> ->]|[[-> ->]|[-> ->]]], H' as [[-> H']|[[-> H']|[-> H']]]; try done;
      apply Hinj in H'; lia.
  - intros l b t (-> & [[-> ->]|[[-> ->]|[-> ->]]])%demo_tabs_inv Hl; [lia|by eexists|by eexists].
  - intros l b t i (-> & [[-> ->]|[[-> ->]|[-> ->]]])%demo_tabs_inv Hl Hi; [| |lia].
    + rewrite W0 by done. destruct (Z.eqb_spec i 0) as [->|Hne].
      * destruct (link_ok 1 ltac:(lia)) as [-> ->]. reflexivity.
      * rewrite kind_zero. destruct (demo_tabs !! _) as [t|] eqn:E; [|done].
        apply demo_tabs_inv in E. lia.
    + rewrite W1 by done. destruct (Z.eqb_spec i 0) as [->|Hne].
      * destruct (link_ok 2 ltac:(lia)) as [-> ->]. reflexivity.
      * rewrite kind_zero. destruct (demo_tabs !! _) as [t|] eqn:E; [|done].
        apply demo_tabs_inv in E. lia.
  - unfold leaf_of. change (tabno 1 0x10000) with 0. change (tabno 0 0x10000) with 0.
    change (PN 1 0x10000) with 0. change (PN 0 0x10000) with 16.
    change (demo_tabs !! (1, 0)) with (Some (page_to_pa 1)). cbn [mbind option_bind].
    rewrite W1 by lia. cbn [Z.eqb]. destruct (link_ok 2 ltac:(lia)) as [-> _].
    change (demo_tabs !! (0, 0)) with (Some (page_to_pa 2)). cbn [mbind option_bind].
    rewrite W2 by lia. reflexivity.
  - unfold user_page. split; [reflexivity|]. split; [vm_compute; congruence|].
    split; [change NPAGES with 251904; lia|]. split; [by eexists|]. split; [apply not_elem_of_empty|].
    intros [l b] (-> & H)%demo_tabs_inv. destruct H as [[_ H]|[[_ H]|[_ H]]]; apply Hinj in H; lia.
Qed.

Definition no_file (f pa off n : Z) (m : mem) : outcome mem := Done m.

Lemma pagefault_cow_spec_witness : exists (s : vmstate _ (ptstate spare)) t' w',
  pagefault no_file 7 STORE_PAGEFAULT (page_to_pa 0) 0x10000 s = Done (0, with_vpt t' s) /\
  leaf_of (pm t') demo_tabs 0x10008 = Some (0, w') /\ PTE_FLAGS w' = Z.lor (PTE_FLAGS demo_pte) PTE_W.
Proof.
  destruct demo_shared as (m & P & Hl & Hu). cbv zeta in P, Hu.
  destruct (demo_space_on (PS m demo_refs) (page_to_pa 0)) as (s & i & V & Hi & Ev & Em & Ep).
  exists s. rewrite <- Ep in P, Hu.
  destruct (pagefault_cow_spec no_file {[7]} demo_ids s _ 7 [i] i demo_area 0x10000 (page_to_pa 0)
              demo_tabs demo_refs demo_pte 3 V) as [[_ E]|(t' & R' & q & w' & E & _ & D)].
  - apply lookup_singleton_eq.
  - by left.
  - rewrite Ev. apply lookup_insert_eq.
  - unfold in_area. cbn. lia.
  - reflexivity.
  - unfold MAXVA. lia.
  - exact P.
  - rewrite Ep. exact Hl.
  - exact Hu.
  - reflexivity.
  - exfalso. rewrite Ep in E. cbn [al] in E. vm_compute in E. discriminate E.
  - exists t', w'. split; [exact E|]. split; [by apply (cd_here _ _ _ _ _ _ _ _ _ _ D)|].
    exact (cd_flags _ _ _ _ _ _ _ _ _ _ D).
Defined.

Lemma share_pte_spec_witness : is_a_cow_page (PTE_FLAGS (share_pte (Z.lor (PA2PTE (page_to_pa 3)) 0x17))) = true.
Proof.
  destruct (share_pte_spec (Z.lor (PA2PTE (page_to_pa 3)) 0x17)) as (_ & _ & _ & E & _).
  - vm_compute. split; congruence.
  - rewrite E. reflexivity.
Defined.

(** An address space whose only table is the root, and no page left. *)
Definition full_refs : gmap Z (Z * Z) := {[0 := (0, 1); 4 := (0, 1); 5 := (0, 1); 6 := (0, 1); 7 := (0, 1)]}.

Lemma full_rep : pa_rep full_refs full_refs.
Proof.
  split; [reflexivity|]. intros p o n. unfold full_refs. change NPAGES with 251904.
  rewrite !lookup_insert_Some, lookup_singleton_Some.
  intros [[<- [= <- <-]]|[_ [[<- [= <- <-]]|[_ [[<- [= <- <-]]|[_ [[<- [= <- <-]]|[_ [<- [= <- <-]]]]]]]]]]; lia.
Qed.

(** [uvmalloc] of one page when there is none left. *)
Lemma uvmalloc_none (m : mem) root perm :
  uvmalloc UVM_DEPTH root 0x10000 0x11000 perm (PS m full_refs) = Done (0, PS m full_refs).
Proof. vm_compute. reflexivity. Qed.

Lemma copyout_null_pte_witness : exists (s : vmstate _ (ptstate spare)),
  copyout no_file 7 (page_to_pa 0) 0x10000 0x1000 8 s = Undef.
Proof.
  destruct (empty_table full_refs full_refs 0 full_rep) as [P Hl].
  - change NPAGES with 251904. lia.
  - reflexivity.
  - apply not_elem_of_empty.
  - set (m := zero_mem START_MEM ram_size) in *. cbn [pm] in Hl. clearbody m.
    destruct (demo_space_on (PS m full_refs) (page_to_pa 0)) as (s & i & V & Hi & Ev & Em & Ep).
    assert (walk (page_to_pa 0) 0x10000 false 0 (vpt s) = Done (-1, None, vpt s)) as Hw.
    { rewrite Ep. rewrite (walk_lookup _ _ _ _ 0x10000 P) by (unfold MAXVA; lia).
      unfold slot_of. rewrite lookup_singleton_ne by (intros [=]). reflexivity. }
    exists s. refine (copyout_null_pte no_file s 7 (page_to_pa 0) 0x10000 0x1000 8 s _ _ _ _).
    + lia.
    + unfold MAXVA. lia.
    + exact Hw.
    + unfold pagefault. rewrite PGROUNDDOWN_below by (unfold MAXVA; lia).
      assert (vmas s !! i = Some demo_area) as Ei by (rewrite Ev; apply lookup_insert_eq).
      rewrite (find_vma_hit {[7]} demo_ids s _ 7 [i] i demo_area 0x10000 V);
        [|apply lookup_singleton_eq|by left|exact Ei|unfold in_area; cbn; lia].
      ocbn. rewrite (vma_at_run _ _ _ Ei). ocbn.
      change (CHECK_PERM STORE_PAGEFAULT demo_area) with true. cbn [negb]. rewrite Hw. ocbn.
      unfold demand_page, on_pt. rewrite Ep.
      change (PGROUNDDOWN 0x10000) with 0x10000. change (PGROUNDUP (u64 (0x10000 + 1))) with 0x11000.
      rewrite uvmalloc_none. ocbn. rewrite <- Ep. destruct s. reflexivity.
Defined.
