(* ===== verification/Radix.v ===== *)
(** * Radix: the radix tree of the page cache

    [src/lib/radix-tree.c] and [include/lib/radix-tree.h]: a map from page
    indexes to items (pointers), 64 slots per node, with two tags per item that
    are propagated to the root.  Nodes live at the addresses the page allocator
    returned; an item is a non-zero even address. *)

From stdpp Require Import base gmap sets list fin_maps.
From Stdlib Require Import ZArith Lia.
From S2P Require Import Prelude Buddy Kalloc PageAlloc PageTable.
#[local] Open Scope Z_scope.

Definition RADIX_TREE_MAP_SHIFT : Z := 6.
Definition RADIX_TREE_MAP_SIZE : Z := Z.shiftl 1 RADIX_TREE_MAP_SHIFT.
Definition RADIX_TREE_MAX_TAGS : Z := 2.
Definition RADIX_TREE_INDEX_BITS : Z := 64.
Definition RADIX_TREE_MAX_PATH : Z :=
  (RADIX_TREE_INDEX_BITS + RADIX_TREE_MAP_SHIFT - 1) / RADIX_TREE_MAP_SHIFT.
Definition RADIX_TREE_INDIRECT_PTR : Z := 1.
Definition RADIX_TREE_MAP_MASK : Z := RADIX_TREE_MAP_SIZE - 1.
Definition GFP_BITS_SHIFT : Z := 22.
Definition GFP_BITS_MASK : Z := Z.shiftl 1 GFP_BITS_SHIFT - 1.

Definition radix_tree_is_indirect_ptr (p : Z) : bool := has p RADIX_TREE_INDIRECT_PTR.
Definition radix_tree_indirect_to_ptr (p : Z) : Z := Z.ldiff p RADIX_TREE_INDIRECT_PTR.
Definition radix_tree_ptr_to_indirect (p : Z) : Z := Z.lor p RADIX_TREE_INDIRECT_PTR.

(** [struct radix_tree_node]; one word of tags per tag. *)
Record rnode := Rnode { n_height : Z; n_count : Z; n_slots : list Z; n_tags : list Z }.

Definition empty_node : rnode := Rnode 0 0 (replicate (Z.to_nat RADIX_TREE_MAP_SIZE) 0) (replicate 2 0).

(** [4 + 4 + 64 * 8 + 2 * 8] *)
Definition sizeof_rnode : Z := 536.

Section radix.
Context {A : Type} `{!PageAlloc A}.

(** [struct radix_tree_root], with the nodes and the allocator's state. *)
Record rtree := RT { r_height : Z; r_rnode : Z; r_gfp : Z; r_nodes : gmap Z rnode; r_al : A }.

Definition set_root (h p : Z) (s : rtree) : rtree := RT h p (r_gfp s) (r_nodes s) (r_al s).
Definition set_gfp (g : Z) (s : rtree) : rtree := RT (r_height s) (r_rnode s) g (r_nodes s) (r_al s).
Definition set_node (p : Z) (n : rnode) (s : rtree) : rtree :=
  RT (r_height s) (r_rnode s) (r_gfp s) (<[p := n]> (r_nodes s)) (r_al s).
Definition node_at (s : rtree) (p : Z) : outcome rnode := deref (r_nodes s !! p).

Definition INIT_RADIX_TREE (mask : Z) (s : rtree) : rtree := RT 0 0 mask (r_nodes s) (r_al s).

Definition slot_at (n : rnode) (offset : Z) : outcome Z := deref (n_slots n !! Z.to_nat offset).
Definition set_slot (offset v : Z) (n : rnode) : rnode :=
  Rnode (n_height n) (n_count n) (<[Z.to_nat offset := v]> (n_slots n)) (n_tags n).
Definition set_count (c : Z) (n : rnode) : rnode := Rnode (n_height n) (u32 c) (n_slots n) (n_tags n).
Definition set_height (h : Z) (n : rnode) : rnode := Rnode h (n_count n) (n_slots n) (n_tags n).

(** *** Tags *)

Definition tag_set (n : rnode) (tag offset : Z) : outcome rnode :=
  w ← deref (n_tags n !! Z.to_nat tag);
  Done (Rnode (n_height n) (n_count n) (n_slots n) (<[Z.to_nat tag := Z.setbit w offset]> (n_tags n))).
Definition tag_clear (n : rnode) (tag offset : Z) : outcome rnode :=
  w ← deref (n_tags n !! Z.to_nat tag);
  Done (Rnode (n_height n) (n_count n) (n_slots n) (<[Z.to_nat tag := Z.clearbit w offset]> (n_tags n))).
Definition tag_get (n : rnode) (tag offset : Z) : outcome bool :=
  w ← deref (n_tags n !! Z.to_nat tag); Done (Z.testbit w offset).
Definition any_tag_set (n : rnode) (tag : Z) : outcome bool :=
  w ← deref (n_tags n !! Z.to_nat tag); Done (negb (w =? 0)).

Definition root_tag_set (tag : Z) (s : rtree) : rtree := set_gfp (Z.setbit (r_gfp s) (tag + GFP_BITS_SHIFT)) s.
Definition root_tag_get (tag : Z) (s : rtree) : bool := Z.testbit (r_gfp s) (tag + GFP_BITS_SHIFT).
Definition root_tag_clear (tag : Z) (s : rtree) : rtree :=
  set_gfp (Z.clearbit (r_gfp s) (tag + GFP_BITS_SHIFT)) s.
Definition root_tag_clear_all (s : rtree) : rtree := set_gfp (Z.land (r_gfp s) GFP_BITS_MASK) s.

(** [radix_tree_maxindex]: the shift is one of an [int]. *)
Definition radix_tree_maxindex (height : Z) : outcome Z :=
  if RADIX_TREE_MAX_PATH <? height then Panic
  else if 31 <=? height * RADIX_TREE_MAP_SHIFT then Undef
  else Done (Z.shiftl 1 (height * RADIX_TREE_MAP_SHIFT) - 1).

Definition offset_of (index shift : Z) : Z := Z.land (Z.shiftr index shift) RADIX_TREE_MAP_MASK.
Definition top_shift (height : Z) : Z := u32 ((height - 1) * RADIX_TREE_MAP_SHIFT).

(** The loops of this file go down one level per round; [h] is the number of
    levels left. *)
Fixpoint tag_set_loop (h : nat) (index tag shift slot : Z) (s : rtree) : outcome (Z * rtree) :=
  match h with
  | O => Done (slot, s)
  | S h =>
      let offset := offset_of index shift in
      n ← node_at s slot;
      b ← tag_get n tag offset;
      n ← (if negb b then tag_set n tag offset else Done n);
      let s := set_node slot n s in
      slot ← slot_at n offset;
      ASSERT (negb (slot =? 0));;
      tag_set_loop h index tag (u32 (shift - RADIX_TREE_MAP_SHIFT)) slot s
  end.

Definition radix_tree_tag_set (index tag : Z) (s : rtree) : outcome (Z * rtree) :=
  let height := r_height s in
  mx ← radix_tree_maxindex height;
  ASSERT (index <=? mx);;
  '(slot, s) ← tag_set_loop (Z.to_nat height) index tag (top_shift height)
                 (radix_tree_indirect_to_ptr (r_rnode s)) s;
  let s := if negb (slot =? 0) && negb (root_tag_get tag s) then root_tag_set tag s else s in
  Done (slot, s).

(** Walking down, keeping the path: (node, offset) pairs, the lowest first.  The
    result is the last slot and the path, or [None] when a node was missing. *)
Fixpoint path_loop (h : nat) (index shift slot : Z) (path : list (Z * Z)) (s : rtree)
    : outcome (option (Z * list (Z * Z))) :=
  match h with
  | O => Done (Some (slot, path))
  | S h =>
      if slot =? 0 then Done None
      else
        let offset := offset_of index shift in
        n ← node_at s slot;
        next ← slot_at n offset;
        path_loop h index (u32 (shift - RADIX_TREE_MAP_SHIFT)) next ((slot, offset) :: path) s
  end.

(** Clearing upwards; [true] when the root was passed. *)
Fixpoint clear_loop (path : list (Z * Z)) (tag : Z) (s : rtree) : outcome (bool * rtree) :=
  match path with
  | [] => Done (true, s)
  | (p, offset) :: path =>
      n ← node_at s p;
      b ← tag_get n tag offset;
      if negb b then Done (false, s)
      else
        n ← tag_clear n tag offset;
        let s := set_node p n s in
        b ← any_tag_set n tag;
        if (b : bool) then Done (false, s) else clear_loop path tag s
  end.

Definition radix_tree_tag_clear (index tag : Z) (s : rtree) : outcome (Z * rtree) :=
  let height := r_height s in
  mx ← radix_tree_maxindex height;
  if mx <? index then Done (0, s)
  else
    r ← path_loop (Z.to_nat height) index (top_shift height) (radix_tree_indirect_to_ptr (r_rnode s)) [] s;
    match r with
    | None => Done (0, s)
    | Some (slot, path) =>
        if slot =? 0 then Done (0, s)
        else
          '(top, s) ← clear_loop path tag s;
          Done (slot, if top && root_tag_get tag s then root_tag_clear tag s else s)
    end.

(** The walk ends at the level of height 1. *)
Fixpoint tag_get_loop (h : nat) (index tag shift p : Z) (s : rtree) : outcome bool :=
  match h with
  | O => NoFuel
  | S h =>
      if p =? 0 then Done false
      else
        let offset := offset_of index shift in
        n ← node_at s p;
        b ← tag_get n tag offset;
        match h with
        | O => Done b
        | S _ =>
            next ← slot_at n offset;
            tag_get_loop h index tag (u32 (shift - RADIX_TREE_MAP_SHIFT)) next s
        end
  end.

Definition radix_tree_tag_get (index tag : Z) (s : rtree) : outcome bool :=
  if negb (root_tag_get tag s) then Done false
  else if r_rnode s =? 0 then Done false
  else if negb (radix_tree_is_indirect_ptr (r_rnode s)) then Done (index =? 0)
  else
    let p := radix_tree_indirect_to_ptr (r_rnode s) in
    n ← node_at s p;
    mx ← radix_tree_maxindex (n_height n);
    if mx <? index then Done false
    else tag_get_loop (Z.to_nat (n_height n)) index tag (top_shift (n_height n)) p s.

(** *** Nodes *)

Definition radix_tree_node_alloc (s : rtree) : outcome (Z * rtree) :=
  '(r, a) ← pa_kmalloc sizeof_rnode (r_al s);
  match r with
  | None => Panic
  | Some p =>
      Done (p, RT (r_height s) (r_rnode s) (r_gfp s) (<[p := empty_node]> (r_nodes s)) a)
  end.

Definition radix_tree_node_free (p : Z) (s : rtree) : outcome rtree :=
  n ← node_at s p;
  n ← tag_clear n 0 0;
  n ← tag_clear n 1 0;
  a ← pa_kfree p (r_al s);
  Done (RT (r_height s) (r_rnode s) (r_gfp s) (delete p (r_nodes s)) a).

(** *** Lookup *)

(** [radix_tree_lookup_element]: the slot's place (node and offset) and its
    contents. *)
Fixpoint lookup_loop (h : nat) (index shift p : Z) (s : rtree) : outcome (option (Z * Z * Z)) :=
  match h with
  | O => NoFuel
  | S h =>
      let offset := offset_of index shift in
      n ← node_at s p;
      next ← slot_at n offset;
      if next =? 0 then Done None
      else
        match h with
        | O => Done (Some (p, offset, next))
        | S _ => lookup_loop h index (u32 (shift - RADIX_TREE_MAP_SHIFT)) next s
        end
  end.

(** Where an item is kept: the root itself, or a slot of a node. *)
Inductive place := InRoot | InSlot (p offset : Z).

Definition radix_tree_lookup_element (index : Z) (s : rtree) : outcome (option (place * Z)) :=
  let p := r_rnode s in
  if negb (radix_tree_is_indirect_ptr p) then
    if 0 <? index then Done None else Done (Some (InRoot, p))
  else
    let p := radix_tree_indirect_to_ptr p in
    n ← node_at s p;
    mx ← radix_tree_maxindex (n_height n);
    if mx <? index then Done None
    else
      r ← lookup_loop (Z.to_nat (n_height n)) index (top_shift (n_height n)) p s;
      Done (match r with Some (p, o, v) => Some (InSlot p o, v) | None => None end).

(** NULL is 0. *)
Definition radix_tree_lookup_node (index : Z) (s : rtree) : outcome Z :=
  r ← radix_tree_lookup_element index s; Done (match r with Some (_, v) => v | None => 0 end).
Definition radix_tree_lookup_slot (index : Z) (s : rtree) : outcome (option place) :=
  r ← radix_tree_lookup_element index s; Done (match r with Some (pl, _) => Some pl | None => None end).

(** *** Insertion *)

(** [while (index > radix_tree_maxindex(height)) height++] *)
Fixpoint grow_height (fuel : nat) (index height : Z) : outcome Z :=
  match fuel with
  | O => NoFuel
  | S f => mx ← radix_tree_maxindex height; if mx <? index then grow_height f index (height + 1) else Done height
  end.

(** The tags of a new root: those of the root. *)
Definition inherit_tag (tag : Z) (s : rtree) (n : rnode) : outcome rnode :=
  if root_tag_get tag s then tag_set n tag 0 else Done n.

Fixpoint extend_loop (fuel : nat) (height : Z) (s : rtree) : outcome rtree :=
  match fuel with
  | O => NoFuel
  | S f =>
      '(p, s) ← radix_tree_node_alloc s;
      n ← node_at s p;
      let n := set_slot 0 (radix_tree_indirect_to_ptr (r_rnode s)) n in
      n ← inherit_tag 0 s n;
      n ← inherit_tag 1 s n;
      let newheight := r_height s + 1 in
      let s := set_node p (set_count 1 (set_height newheight n)) s in
      let s := set_root newheight (radix_tree_ptr_to_indirect p) s in
      if r_height s <? height then extend_loop f height s else Done s
  end.

Definition radix_tree_extend (index : Z) (s : rtree) : outcome (Z * rtree) :=
  height ← grow_height 12 index (r_height s + 1);
  if r_rnode s =? 0 then Done (0, set_root height (r_rnode s) s)
  else s ← extend_loop (Z.to_nat height) height s; Done (0, s).

Fixpoint insert_loop (h : nat) (index shift : Z) (node : option Z) (offset slot : Z) (s : rtree)
    : outcome (option Z * Z * Z * rtree) :=
  match h with
  | O => Done (node, offset, slot, s)
  | S h' =>
      '(slot, s) ←
        (if slot =? 0 then
           '(p, s) ← radix_tree_node_alloc s;
           n ← node_at s p;
           let s := set_node p (set_height (Z.of_nat h) n) s in
           match node with
           | Some q =>
               nq ← node_at s q;
               Done (p, set_node q (set_count (n_count nq + 1) (set_slot offset p nq)) s)
           | None => Done (p, set_root (r_height s) (radix_tree_ptr_to_indirect p) s)
           end
         else Done (slot, s));
      let offset := offset_of index shift in
      n ← node_at s slot;
      next ← slot_at n offset;
      insert_loop h' index (u32 (shift - RADIX_TREE_MAP_SHIFT)) (Some slot) offset next s
  end.

Definition radix_tree_insert (index item : Z) (s : rtree) : outcome (Z * rtree) :=
  ASSERT (negb (radix_tree_is_indirect_ptr item));;
  mx ← radix_tree_maxindex (r_height s);
  '(error, s) ← (if mx <? index then radix_tree_extend index s else Done (0, s));
  if negb (error =? 0) then Done (error, s)
  else
    let height := r_height s in
    '(node, offset, slot, s) ←
      insert_loop (Z.to_nat height) index (top_shift height) None 0
        (radix_tree_indirect_to_ptr (r_rnode s)) s;
    if negb (slot =? 0) then Done (-1, s)
    else
      match node with
      | Some q =>
          n ← node_at s q;
          let n := set_slot offset item (set_count (n_count n + 1) n) in
          let s := set_node q n s in
          b0 ← tag_get n 0 offset; ASSERT (negb b0);;
          b1 ← tag_get n 1 offset; ASSERT (negb b1);;
          Done (0, s)
      | None =>
          let s := set_root (r_height s) item s in
          ASSERT (negb (root_tag_get 0 s));;
          ASSERT (negb (root_tag_get 1 s));;
          Done (0, s)
      end.

(** *** Deletion *)

Fixpoint shrink_loop (fuel : nat) (s : rtree) : outcome rtree :=
  match fuel with
  | O => Done s
  | S f =>
      ASSERT (radix_tree_is_indirect_ptr (r_rnode s));;
      let to_free := radix_tree_indirect_to_ptr (r_rnode s) in
      n ← node_at s to_free;
      if negb (n_count n =? 1) then Done s
      else
        newptr ← slot_at n 0;
        if newptr =? 0 then Done s
        else
          let newptr := if 1 <? r_height s then radix_tree_ptr_to_indirect newptr else newptr in
          s ← radix_tree_node_free to_free (set_root (r_height s - 1) newptr s);
          shrink_loop f s
  end.

Definition radix_tree_shrink (s : rtree) : outcome rtree := shrink_loop (Z.to_nat (r_height s)) s.

(** The nodes of the path that became empty are freed, each after its parent's
    slot was cleared. *)
Fixpoint unlink_loop (path : list (Z * Z)) (to_free : option Z) (s : rtree) : outcome rtree :=
  match path with
  | [] =>
      let s := set_root 0 0 (root_tag_clear_all s) in
      match to_free with Some q => radix_tree_node_free q s | None => Done s end
  | (p, offset) :: path =>
      n ← node_at s p;
      let n := set_slot offset 0 n in
      let n := set_count (n_count n - 1) n in
      let s := set_node p n s in
      s ← match to_free with Some q => radix_tree_node_free q s | None => Done s end;
      if negb (n_count n =? 0) then
        if p =? radix_tree_indirect_to_ptr (r_rnode s) then radix_tree_shrink s else Done s
      else unlink_loop path (Some p) s
  end.

Definition clear_item_tag (index tag p offset : Z) (s : rtree) : outcome rtree :=
  n ← node_at s p;
  b ← tag_get n tag offset;
  if (b : bool) then '(_, s) ← radix_tree_tag_clear index tag s; Done s else Done s.

Definition radix_tree_delete (index : Z) (s : rtree) : outcome (Z * rtree) :=
  let height := r_height s in
  mx ← radix_tree_maxindex height;
  if mx <? index then Done (0, s)
  else if height =? 0 then
    Done (r_rnode s, set_root (r_height s) 0 (root_tag_clear_all s))
  else
    r ← path_loop (Z.to_nat height) index (top_shift height) (radix_tree_indirect_to_ptr (r_rnode s)) [] s;
    match r with
    | None => Done (0, s)
    | Some (slot, path) =>
        if slot =? 0 then Done (0, s)
        else
          match path with
          | [] => Undef
          | (p, offset) :: _ =>
              s ← clear_item_tag index 0 p offset s;
              s ← clear_item_tag index 1 p offset s;
              s ← unlink_loop path None s;
              Done (slot, s)
          end
    end.

(** *** Gang lookup *)

(** The tag looked for, or none ([tag == -1]). *)
Definition wanted (tag : option Z) (n : rnode) (i : Z) : outcome bool :=
  match tag with
  | Some t => tag_get n t i
  | None => v ← slot_at n i; Done (negb (v =? 0))
  end.

(** [for (;;)]: the next wanted slot of a node; the offset is [None] when the
    node (or the index space) is exhausted. *)
Fixpoint next_slot (fuel : nat) (tag : option Z) (n : rnode) (shift index i : Z)
    : outcome (option Z * Z) :=
  match fuel with
  | O => NoFuel
  | S f =>
      b ← wanted tag n i;
      if (b : bool) then Done (Some i, index)
      else
        let index := Z.ldiff index (Z.shiftl 1 shift - 1) in
        let index := u64 (index + Z.shiftl 1 shift) in
        if index =? 0 then Done (None, index)
        else if i + 1 =? RADIX_TREE_MAP_SIZE then Done (None, index)
        else next_slot f tag n shift index (i + 1)
  end.

(** The bottom level: the calls [function(page_head, item, index, item)]. *)
Fixpoint grab (fuel : nat) (tag : option Z) (n : rnode) (i index nr max_items : Z)
    : outcome (list (Z * Z) * Z) :=
  match fuel with
  | O => Done ([], index)
  | S f =>
      let index := u64 (index + 1) in
      b ← match tag with Some t => tag_get n t i | None => Done true end;
      if negb b then grab f tag n (i + 1) index nr max_items
      else
        v ← slot_at n i;
        if v =? 0 then grab f tag n (i + 1) index nr max_items
        else if nr + 1 =? max_items then Done ([(v, u64 (index - 1))], index)
        else
          '(l, e) ← grab f tag n (i + 1) index (nr + 1) max_items;
          Done ((v, u64 (index - 1)) :: l, e)
  end.

Fixpoint batch_loop (h : nat) (tag : option Z) (slot shift index max_items : Z) (s : rtree)
    : outcome (list (Z * Z) * Z) :=
  n ← node_at s slot;
  let grab_here index :=
    let i := Z.land index RADIX_TREE_MAP_MASK in
    grab (Z.to_nat (RADIX_TREE_MAP_SIZE - i)) tag n i index 0 max_items in
  match h with
  | O => grab_here index
  | S h' =>
      '(r, index) ← next_slot (Z.to_nat RADIX_TREE_MAP_SIZE) tag n shift index (offset_of index shift);
      match r with
      | None => Done ([], index)
      | Some i =>
          match tag, h' with
          | Some _, O => grab_here index
          | _, _ =>
              next ← slot_at n i;
              if next =? 0 then Done ([], index)
              else batch_loop h' tag next (u32 (shift - RADIX_TREE_MAP_SHIFT)) index max_items s
          end
      end
  end.

(** The calls made and [*next_index]. *)
Definition radix_tree_lookup_batch_elements (slot index max_items : Z) (tag : option Z) (s : rtree)
    : outcome (list (Z * Z) * Z) :=
  n ← node_at s slot;
  if n_height n =? 0 then Done ([], index)
  else
    let height_min := match tag with Some _ => 0 | None => 1 end in
    batch_loop (Z.to_nat (n_height n - height_min)) tag slot (top_shift (n_height n)) index max_items s.

Definition maxitems_invald : Z := 2 ^ 64 - 1.

Fixpoint gang_loop (fuel : nat) (node max_index cur ret max_items : Z) (tag : option Z) (s : rtree)
    : outcome (list (Z * Z)) :=
  match fuel with
  | O => NoFuel
  | S f =>
      if negb (ret <? max_items) then Done []
      else if max_index <? cur then Done []
      else
        '(l, next) ← radix_tree_lookup_batch_elements node cur (u64 (max_items - ret)) tag s;
        let ret := ret + Z.of_nat (length l) in
        if next =? 0 then Done l
        else if negb (max_items =? maxitems_invald) then Done l
        else l' ← gang_loop f node max_index next ret max_items tag s; Done (l ++ l')
  end.

(** [radix_tree_general_gang_lookup_elements]: the calls of [function], whose
    number is the value returned. *)
Definition radix_tree_general_gang_lookup_elements (first_index max_items : Z) (tag : option Z) (s : rtree)
    : outcome (list (Z * Z)) :=
  if match tag with Some t => negb (root_tag_get t s) | None => false end then Done []
  else if r_rnode s =? 0 then Done []
  else if negb (radix_tree_is_indirect_ptr (r_rnode s)) then
    if 0 <? first_index then Done [] else Done [(r_rnode s, 0)]
  else
    let p := radix_tree_indirect_to_ptr (r_rnode s) in
    n ← node_at s p;
    max_index ← radix_tree_maxindex (n_height n);
    gang_loop (S (Z.to_nat (max_index + 1 - first_index))) p max_index first_index 0 max_items tag s.

(** *** Freeing the whole tree *)

(** [page_of] reads a [struct page]: its [allocated] field and its address. *)
Context (page_of : Z -> A -> outcome (bool * Z)).

Definition with_al_of (a : A) (s : rtree) : rtree := RT (r_height s) (r_rnode s) (r_gfp s) (r_nodes s) a.

Fixpoint free_slots (child : Z -> rtree -> outcome rtree) (l : list Z) (bottom : bool) (s : rtree)
    : outcome rtree :=
  match l with
  | [] => Done s
  | v :: l =>
      if v =? 0 then free_slots child l bottom s
      else if bottom then
        '(allocated, pa) ← page_of v (r_al s);
        if (allocated : bool) then a ← pa_kfree pa (r_al s); free_slots child l bottom (with_al_of a s)
        else free_slots child l bottom s
      else s ← child v s; free_slots child l bottom s
  end.

(** [d] levels are below [node]. *)
Fixpoint radix_tree_free_whole_tree (d : nat) (node : Z) (s : rtree) : outcome rtree :=
  n ← node_at s node;
  s ← match d with
      | O => free_slots (fun _ s => Done s) (n_slots n) true s
      | S d => free_slots (radix_tree_free_whole_tree d) (n_slots n) false s
      end;
  a ← pa_kfree node (r_al s);
  Done (RT (r_height s) (r_rnode s) (r_gfp s) (delete node (r_nodes s)) a).
End radix.
Arguments rtree : clear implicits.

(** ** Indexes *)

(** The number of the node of height [l] an index belongs to. *)
Definition pre (l x : Z) : Z := x / 2 ^ (6 * l).

Lemma offset_range x sh : 0 <= offset_of x sh < 64.
Proof.
  unfold offset_of. change RADIX_TREE_MAP_MASK with (Z.ones 6). rewrite Z.land_ones by lia.
  apply Z.mod_pos_bound. lia.
Qed.

Lemma pre_0 x : pre 0 x = x.
Proof. unfold pre. rewrite Z.mul_0_r. apply Z.div_1_r. Qed.

Lemma pre_step l x : 1 <= l -> pre (l - 1) x = 64 * pre l x + offset_of x (6 * (l - 1)).
Proof.
  intros Hl. unfold pre, offset_of. change RADIX_TREE_MAP_MASK with (Z.ones 6).
  rewrite Z.land_ones, Z.shiftr_div_pow2 by lia.
  replace (2 ^ (6 * l)) with (2 ^ (6 * (l - 1)) * 2 ^ 6) by (rewrite <- Z.pow_add_r by lia; f_equal; lia).
  rewrite <- Z.div_div by (try apply Z.pow_nonzero; try apply Z.pow_pos_nonneg; lia).
  apply Z_div_mod_eq_full.
Qed.

Lemma pre_up l x : 0 <= l -> pre (l + 1) x = pre l x / 64.
Proof.
  intros Hl. replace l with (l + 1 - 1) at 2 by lia. rewrite pre_step by lia.
  pose proof (offset_range x (6 * (l + 1 - 1))) as Ho. rewrite Z.mul_comm, Z.div_add_l by lia.
  rewrite (Z.div_small _ _ Ho). lia.
Qed.

Lemma pre_nonneg l x : 0 <= l -> 0 <= x -> 0 <= pre l x.
Proof. intros Hl Hx. apply Z.div_pos; [done|]. apply Z.pow_pos_nonneg; lia. Qed.

Lemma pre_small l x : 0 <= x < 2 ^ (6 * l) -> pre l x = 0.
Proof. apply Z.div_small. Qed.

Lemma top_shift_eq h : 1 <= h <= 11 -> top_shift h = 6 * (h - 1).
Proof. intros Hh. unfold top_shift, RADIX_TREE_MAP_SHIFT. rewrite u32_small by lia. lia. Qed.

Lemma next_shift_eq l : 2 <= l <= 11 -> u32 (6 * (l - 1) - RADIX_TREE_MAP_SHIFT) = 6 * (l - 1 - 1).
Proof. intros Hl. unfold RADIX_TREE_MAP_SHIFT. rewrite u32_small by lia. lia. Qed.

Lemma maxindex_ok h : 0 <= h <= 5 -> radix_tree_maxindex h = Done (2 ^ (6 * h) - 1).
Proof.
  intros Hh. unfold radix_tree_maxindex, RADIX_TREE_MAP_SHIFT. change RADIX_TREE_MAX_PATH with 11.
  destruct (Z.ltb_spec 11 h); [lia|]. destruct (Z.leb_spec 31 (h * 6)); [lia|].
  rewrite Z.shiftl_mul_pow2, Z.mul_1_l by lia. do 3 f_equal. lia.
Qed.

(** Pointers and the indirect bit. *)
Lemma even_page p : 0 <= p < NPAGES -> page_to_pa p <> 0 /\ Z.testbit (page_to_pa p) 0 = false.
Proof.
  intros Hp. rewrite page_to_pa_alt by done. change NPAGES with 251904 in Hp. unfold START_MEM.
  split; [lia|]. rewrite Z.bit0_odd.
  replace (p * 4096 + 2189426688) with (2 * (p * 2048 + 1094713344)) by lia. by rewrite Z.odd_mul.
Qed.

Lemma indirect_even p : Z.testbit p 0 = false -> radix_tree_is_indirect_ptr p = false /\
  radix_tree_indirect_to_ptr p = p.
Proof.
  intros H. unfold radix_tree_is_indirect_ptr, radix_tree_indirect_to_ptr.
  change RADIX_TREE_INDIRECT_PTR with (2 ^ 0). rewrite has_testbit by lia. split; [done|].
  apply Z.bits_inj'. intros k Hk. rewrite Z.ldiff_spec, Z.pow2_bits_eqb by lia.
  destruct (Z.eqb_spec 0 k) as [<-|]; [by rewrite H|]. by rewrite andb_true_r.
Qed.

Lemma indirect_inv p : Z.testbit p 0 = false ->
  radix_tree_is_indirect_ptr (radix_tree_ptr_to_indirect p) = true /\
  radix_tree_indirect_to_ptr (radix_tree_ptr_to_indirect p) = p /\ radix_tree_ptr_to_indirect p <> 0.
Proof.
  intros H. unfold radix_tree_is_indirect_ptr, radix_tree_indirect_to_ptr, radix_tree_ptr_to_indirect.
  change RADIX_TREE_INDIRECT_PTR with (2 ^ 0). rewrite has_testbit, Z.lor_spec, H by lia. split; [done|]. split.
  - apply Z.bits_inj'. intros k Hk. rewrite Z.ldiff_spec, Z.lor_spec, Z.pow2_bits_eqb by lia.
    destruct (Z.eqb_spec 0 k) as [<-|]; [by rewrite H|]. by rewrite orb_false_r, andb_true_r.
  - intros E. assert (Z.testbit (Z.lor p (2 ^ 0)) 0 = false) as E0 by (by rewrite E).
    by rewrite Z.lor_spec, H in E0.
Qed.

(** ** The tree as a map

    [tabs] maps (height, number) to the address of a node, [M] indexes to
    items, [T] holds the (tag, index) pairs. *)

Definition item_ok (v : Z) : Prop := v <> 0 /\ Z.testbit v 0 = false.

(** What the slot for child [j] of a node of height [l] holds. *)
Definition child (tabs : gmap (Z * Z) Z) (M : gmap Z Z) (l j : Z) : Z :=
  if l =? 1 then default 0 (M !! j) else default 0 (tabs !! (l - 1, j)).

Definition filled (l : list Z) : Z := Z.of_nat (length (filter (fun v => v <> 0) l)).

Definition tagged (T : gset (Z * Z)) (t l j : Z) : Prop :=
  exists x, (t, x) ∈ T /\ pre l x = j.

Definition tag_no (t : Z) : Prop := t = 0 \/ t = 1.

(** The node [n] at (l, b). *)
Record node_ok tabs M T (l b : Z) (n : rnode) : Prop := {
  no_height : n_height n = l;
  no_len : length (n_slots n) = 64%nat;
  no_slots i : 0 <= i < 64 -> slot_at n i = Done (child tabs M l (64 * b + i));
  no_count : n_count n = filled (n_slots n);
  no_tags t i : tag_no t -> 0 <= i < 64 ->
    exists r, tag_get n t i = Done r /\ (r = true <-> tagged T t (l - 1) (64 * b + i))
}.

Section theory.
Context {A : Type} `{!PageAlloc A, !PageAllocOk A}.
Implicit Types (s : rtree A) (tabs : gmap (Z * Z) Z) (M : gmap Z Z) (T : gset (Z * Z)) (R : gmap Z (Z * Z)).

Record radix_ok s tabs M T R : Prop := {
  rk_height : 0 <= r_height s <= 5;
  rk_alloc : pa_rep (r_al s) R;
  rk_root : r_rnode s =
    if r_height s =? 0 then default 0 (M !! 0)
    else match tabs !! (r_height s, 0) with Some p => radix_tree_ptr_to_indirect p | None => 0 end;
  rk_tab l b p : tabs !! (l, b) = Some p -> 1 <= l <= r_height s /\ 0 <= b < 2 ^ (6 * (r_height s - l)) /\
    exists q, p = page_to_pa q /\ 0 <= q < NPAGES /\ R !! q = Some (0, 1) /\ q ∉ pa_cached (r_al s);
  rk_inj x y p : tabs !! x = Some p -> tabs !! y = Some p -> x = y;
  rk_parent l b p : tabs !! (l, b) = Some p -> l < r_height s -> is_Some (tabs !! (l + 1, b / 64));
  rk_node l b p : tabs !! (l, b) = Some p ->
    exists n, r_nodes s !! p = Some n /\ node_ok tabs M T l b n;
  rk_item x v : M !! x = Some v -> item_ok v /\ 0 <= x < 2 ^ (6 * r_height s) /\
    (1 <= r_height s -> is_Some (tabs !! (1, x / 64)));
  rk_tag t x : (t, x) ∈ T -> tag_no t /\ is_Some (M !! x);
  rk_gfp t : tag_no t -> root_tag_get t s = true <-> exists x, (t, x) ∈ T
}.

Lemma child_even s tabs M T R l j : radix_ok s tabs M T R -> Z.testbit (child tabs M l j) 0 = false.
Proof.
  intros K. unfold child. destruct (l =? 1).
  - destruct (M !! j) as [v|] eqn:E; [|done]. by destruct (rk_item _ _ _ _ _ K _ _ E) as ([_ ?] & _).
  - destruct (tabs !! _) as [p|] eqn:E; [|done].
    destruct (rk_tab _ _ _ _ _ K _ _ _ E) as (_ & _ & q & -> & Hq & _). by apply even_page.
Qed.

Lemma tab_nonzero s tabs M T R x p : radix_ok s tabs M T R -> tabs !! x = Some p ->
  p <> 0 /\ Z.testbit p 0 = false.
Proof.
  destruct x as [l b]. intros K E.
  destruct (rk_tab _ _ _ _ _ K _ _ _ E) as (_ & _ & q & -> & Hq & _). by apply even_page.
Qed.

(** All the nodes above an existing one exist. *)
Lemma ancestors s tabs M T R x : radix_ok s tabs M T R -> forall k l, 1 <= l -> l + Z.of_nat k <= r_height s ->
  is_Some (tabs !! (l, pre l x)) -> is_Some (tabs !! (l + Z.of_nat k, pre (l + Z.of_nat k) x)).
Proof.
  intros K. induction k as [|k IH]; intros l Hl Hk He; [by rewrite Z.add_0_r|].
  replace (l + Z.of_nat (S k)) with (l + 1 + Z.of_nat k) by lia. apply IH; [lia|lia|].
  destruct He as [p Ep]. rewrite pre_up by lia. eapply rk_parent; [done|done|lia].
Qed.

Lemma item_path s tabs M T R x l : radix_ok s tabs M T R -> is_Some (M !! x) -> 1 <= l <= r_height s ->
  is_Some (tabs !! (l, pre l x)).
Proof.
  intros K [v Ev] Hl. destruct (rk_item _ _ _ _ _ K _ _ Ev) as (_ & Hx & H1).
  replace l with (1 + Z.of_nat (Z.to_nat (l - 1))) by lia.
  apply (ancestors s tabs M T R x K); [lia|lia|]. apply H1. lia.
Qed.

(** *** Reading *)

Lemma node_run s tabs M T R l b p : radix_ok s tabs M T R -> tabs !! (l, b) = Some p ->
  exists n, node_at s p = Done n /\ node_ok tabs M T l b n.
Proof.
  intros K E. destruct (rk_node _ _ _ _ _ K _ _ _ E) as (n & En & Hn). exists n. unfold node_at. by rewrite En.
Qed.

(** The place of an item in the tree. *)
Definition slot_place tabs (x : Z) : place :=
  match tabs !! (1, x / 64) with Some p => InSlot p (x mod 64) | None => InRoot end.

Lemma lookup_loop_ok s tabs M T R x : radix_ok s tabs M T R -> forall h p,
  1 <= Z.of_nat (S h) <= r_height s -> tabs !! (Z.of_nat (S h), pre (Z.of_nat (S h)) x) = Some p ->
  lookup_loop (S h) x (6 * (Z.of_nat (S h) - 1)) p s =
    Done (match M !! x with
          | Some v => match tabs !! (1, x / 64) with Some p => Some (p, offset_of x 0, v) | None => None end
          | None => None
          end).
Proof.
  intros K. pose proof (rk_height _ _ _ _ _ K) as HH. induction h as [|h IH]; intros p Hh Ep.
  - cbn [lookup_loop]. change (Z.of_nat 1) with 1 in *. change (6 * (1 - 1)) with 0.
    destruct (node_run _ _ _ _ _ _ _ _ K Ep) as (n & -> & Hn). ocbn.
    rewrite (no_slots _ _ _ _ _ _ Hn) by apply offset_range. ocbn.
    pose proof (pre_step 1 x ltac:(lia)) as Hx. change (6 * (1 - 1)) with 0 in Hx. rewrite <- Hx, pre_0.
    unfold child. cbn [Z.eqb Pos.eqb].
    change 1 with (0 + 1) in Ep at 2. rewrite pre_up, pre_0 in Ep by lia.
    destruct (M !! x) as [v|] eqn:Ev; cbn [from_option id]; [|done].
    destruct (rk_item _ _ _ _ _ K _ _ Ev) as ([Hv _] & _). rewrite (proj2 (Z.eqb_neq v 0) Hv). by rewrite Ep.
  - set (l := Z.of_nat (S (S h))) in *. cbn [lookup_loop].
    destruct (node_run _ _ _ _ _ _ _ _ K Ep) as (n & -> & Hn). ocbn.
    rewrite (no_slots _ _ _ _ _ _ Hn) by apply offset_range. ocbn.
    rewrite <- pre_step by lia. unfold child. destruct (Z.eqb_spec l 1); [lia|].
    destruct (tabs !! (l - 1, pre (l - 1) x)) as [q|] eqn:Eq; cbn [from_option id].
    + destruct (tab_nonzero _ _ _ _ _ _ _ K Eq) as [Hq _]. rewrite (proj2 (Z.eqb_neq q 0) Hq).
      rewrite next_shift_eq by lia. replace (l - 1) with (Z.of_nat (S h)) in * by lia. apply IH; [lia|done].
    + cbn [Z.eqb]. destruct (M !! x) as [v|] eqn:Ev; [|done]. exfalso.
      destruct (item_path _ _ _ _ _ x (l - 1) K ltac:(eauto) ltac:(lia)) as [q E]. congruence.
Qed.

Lemma lookup_element_ok s tabs M T R x : radix_ok s tabs M T R -> 0 <= x ->
  exists r, radix_tree_lookup_element x s = Done r /\
    match r with Some (_, v) => v | None => 0 end = default 0 (M !! x).
Proof.
  intros K Hx. pose proof (rk_height _ _ _ _ _ K) as HH. unfold radix_tree_lookup_element.
  rewrite (rk_root _ _ _ _ _ K). destruct (Z.eqb_spec (r_height s) 0) as [H0|H0].
  - assert (Z.testbit (default 0 (M !! 0)) 0 = false) as He by exact (child_even _ _ _ _ _ 1 0 K).
    destruct (indirect_even _ He) as [-> _]. cbn [negb]. destruct (Z.ltb_spec 0 x).
    + exists None. split; [done|]. destruct (M !! x) as [v|] eqn:Ev; [|done].
      destruct (rk_item _ _ _ _ _ K _ _ Ev) as (_ & Hr & _). rewrite H0 in Hr. change (2 ^ (6 * 0)) with 1 in Hr. lia.
    + replace x with 0 by lia. eexists; split; done.
  - assert (forall v, M !! x = Some v -> is_Some (tabs !! (r_height s, 0))) as Hi.
    { intros v Ev. destruct (rk_item _ _ _ _ _ K _ _ Ev) as (_ & Hr & _).
      destruct (item_path _ _ _ _ _ x (r_height s) K ltac:(eauto) ltac:(lia)) as [p Ep].
      rewrite pre_small in Ep by done. eauto. }
    destruct (tabs !! (r_height s, 0)) as [p|] eqn:Ep.
    2:{ change (radix_tree_is_indirect_ptr 0) with false. cbn [negb].
        assert (M !! x = None) as ->.
        { destruct (M !! x) as [v|]; [|done]. by destruct (Hi v eq_refl). }
        destruct (0 <? x); by eexists. }
    destruct (tab_nonzero _ _ _ _ _ _ _ K Ep) as [_ Hp]. destruct (indirect_inv _ Hp) as (-> & -> & _).
    cbn [negb]. destruct (node_run _ _ _ _ _ _ _ _ K Ep) as (n & -> & Hn). ocbn.
    rewrite (no_height _ _ _ _ _ _ Hn), maxindex_ok by lia. ocbn.
    destruct (Z.ltb_spec (2 ^ (6 * r_height s) - 1) x).
    + exists None. split; [done|]. destruct (M !! x) as [v|] eqn:Ev; [|done].
      destruct (rk_item _ _ _ _ _ K _ _ Ev) as (_ & Hr & _). lia.
    + rewrite top_shift_eq by lia. destruct (Z.to_nat (r_height s)) as [|h] eqn:Eh; [lia|].
      assert (r_height s = Z.of_nat (S h)) as EH by lia. rewrite EH in *.
      rewrite (lookup_loop_ok _ _ _ _ _ x K h p); [|lia|by rewrite pre_small by lia]. ocbn.
      destruct (M !! x) as [v|] eqn:Ev; [|by eexists].
      destruct (item_path _ _ _ _ _ x 1 K ltac:(eauto) ltac:(lia)) as [p1 Ep1].
      change 1 with (0 + 1) in Ep1 at 2. rewrite pre_up, pre_0 in Ep1 by lia. rewrite Ep1. by eexists.
Qed.

(** *** A fresh node *)

(** The allocator fails one of the next [n] allocations. *)
Definition refused (n : nat) s : Prop := dry PGSIZE n (r_al s).
(** At most [n] nodes were allocated. *)
Definition later (n : nat) s s' : Prop := uses PGSIZE n (r_al s) (r_al s').

Lemma refused_later n m k s s' : later n s s' -> refused m s' -> (n + m <= k)%nat -> refused k s.
Proof. apply dry_later. Qed.

Lemma node_alloc_ok s R : pa_rep (r_al s) R ->
  radix_tree_node_alloc s = Panic /\ refused 1 s \/
  exists q a' R', fresh_page (r_al s) R q a' R' /\ uses PGSIZE 1 (r_al s) a' /\
    radix_tree_node_alloc s = Done (page_to_pa q,
      RT (r_height s) (r_rnode s) (r_gfp s) (<[page_to_pa q := empty_node]> (r_nodes s)) a').
Proof.
  intros Ha. unfold radix_tree_node_alloc.
  destruct (kmalloc_fresh (r_al s) R sizeof_rnode Ha) as [E|(q & a' & R' & F & E)].
  - unfold sizeof_rnode, PGSIZE. lia.
  - left. rewrite E. split; [done|]. apply (dry_now _ _ sizeof_rnode); [lia|done|done].
  - right. exists q, a', R'. rewrite E. split; [done|]. split; [|done]. by eapply uses_alloc; [|exact E|constructor].
Qed.

Lemma fresh_tab s tabs M T R q a' R' x p : radix_ok s tabs M T R -> fresh_page (r_al s) R q a' R' ->
  tabs !! x = Some p -> p <> page_to_pa q /\
  exists r, p = page_to_pa r /\ 0 <= r < NPAGES /\ R' !! r = Some (0, 1) /\ r ∉ pa_cached a'.
Proof.
  destruct x as [l b]. intros K F E. pose proof (fp_new _ _ _ _ _ F). pose proof (fp_cached _ _ _ _ _ F). pose proof (fp_range _ _ _ _ _ F).
  destruct (rk_tab _ _ _ _ _ K _ _ _ E) as (_ & _ & r & -> & Hr & Er & Hrc).
  assert (r <> q) as Hne by (intros ->; congruence). split.
  - intros Hpp. apply Hne. by eapply page_to_pa_inj.
  - exists r. split_and!; try done; try lia; [by rewrite (fp_kept _ _ _ _ _ F)|set_solver].
Qed.

Lemma filled_insert l i v : l !! i = Some 0 -> v <> 0 -> filled (<[i := v]> l) = filled l + 1.
Proof.
  intros E Hv. unfold filled. rewrite insert_take_drop by (by eapply lookup_lt_Some).
  rewrite <- (take_drop_middle l i 0 E) at 3.
  rewrite !filter_app, filter_cons_True, filter_cons_False by (by intros ?).
  rewrite !length_app. cbn [length]. lia.
Qed.

Lemma filled_range l : 0 <= filled l <= Z.of_nat (length l).
Proof. unfold filled. pose proof (length_filter (fun v : Z => v <> 0) l). lia. Qed.

Lemma child_insert tabs M h b p l j : 1 <= h ->
  child (<[(h, b) := p]> tabs) M l j = if decide (l = h + 1 /\ j = b) then p else child tabs M l j.
Proof.
  intros Hh. unfold child. destruct (Z.eqb_spec l 1).
  - by rewrite decide_False by lia.
  - case_decide as Hd.
    + destruct Hd as [-> ->]. replace (h + 1 - 1) with h by lia. by rewrite lookup_insert_eq.
    + rewrite lookup_insert_ne; [done|]. intros [= -> ->]. apply Hd. lia.
Qed.

(** Nothing is below a node that does not exist. *)
Lemma no_below s tabs M T R h b : radix_ok s tabs M T R -> tabs !! (h, b) = None -> 1 <= h <= r_height s ->
  (forall i, 0 <= i < 64 -> child tabs M h (64 * b + i) = 0) /\
  (forall x, pre h x = b -> M !! x = None).
Proof.
  intros K E Hh.
  assert (forall x, pre h x = b -> M !! x = None) as HM.
  { intros x Hx. destruct (M !! x) as [v|] eqn:Ev; [|done].
    destruct (item_path _ _ _ _ _ x h K ltac:(eauto) Hh) as [p Ep]. congruence. }
  split; [|done]. intros i Hi. unfold child.
  assert ((64 * b + i) / 64 = b) as Hb by (rewrite Z.mul_comm, Z.div_add_l, Z.div_small by lia; lia).
  destruct (Z.eqb_spec h 1) as [->|].
  - rewrite HM; [done|]. change 1 with (0 + 1). by rewrite pre_up, pre_0 by lia.
  - destruct (tabs !! (h - 1, 64 * b + i)) as [p|] eqn:Ep; [exfalso|done].
    destruct (rk_parent _ _ _ _ _ K _ _ _ Ep ltac:(lia)) as [q Eq]. rewrite Hb in Eq.
    replace (h - 1 + 1) with h in Eq by lia. congruence.
Qed.

Lemma no_tagged s tabs M T R h b t i : radix_ok s tabs M T R -> tabs !! (h, b) = None ->
  1 <= h <= r_height s -> 0 <= i < 64 -> ~ tagged T t (h - 1) (64 * b + i).
Proof.
  intros K E Hh Hi (x & Hx & Hp). destruct (rk_tag _ _ _ _ _ K _ _ Hx) as [_ HM].
  rewrite (proj2 (no_below _ _ _ _ _ _ _ K E Hh) x) in HM; [by destruct HM|].
  replace h with (h - 1 + 1) by lia. rewrite pre_up, Hp by lia.
  rewrite Z.mul_comm, Z.div_add_l, Z.div_small by lia. lia.
Qed.

Lemma empty_node_ok tabs M T h b : (forall i, 0 <= i < 64 -> child tabs M h (64 * b + i) = 0) ->
  (forall t i, 0 <= i < 64 -> ~ tagged T t (h - 1) (64 * b + i)) ->
  node_ok tabs M T h b (set_height h empty_node).
Proof.
  intros Hc Ht. constructor; cbn [n_height n_slots n_count n_tags set_height empty_node].
  - done.
  - reflexivity.
  - intros i Hi. unfold slot_at. cbn [n_slots set_height empty_node].
    rewrite lookup_replicate_2 by (change (Z.to_nat RADIX_TREE_MAP_SIZE) with 64%nat; lia).
    by rewrite (Hc i Hi).
  - reflexivity.
  - intros t i Ht' Hi. exists false. split; [|by split; [|intros []%(Ht t i Hi)]].
    unfold tag_get. cbn [n_tags set_height empty_node]. rewrite lookup_replicate_2.
    + ocbn. by rewrite Z.testbit_0_l.
    + destruct Ht' as [-> | ->]; cbn; lia.
Qed.

(** A node whose view of the tree did not change. *)
Lemma node_ok_same tabs M T l b n tabs' M' T' : node_ok tabs M T l b n ->
  (forall i, 0 <= i < 64 -> child tabs' M' l (64 * b + i) = child tabs M l (64 * b + i)) ->
  (forall t i, 0 <= i < 64 -> tagged T' t (l - 1) (64 * b + i) <-> tagged T t (l - 1) (64 * b + i)) ->
  node_ok tabs' M' T' l b n.
Proof.
  intros [] Hc Ht. constructor; try done.
  - intros i Hi. rewrite Hc by done. auto.
  - intros t i Ht' Hi. destruct (no_tags0 t i Ht' Hi) as (r & E & Hr). exists r. rewrite (Ht t i Hi). done.
Qed.

(** Filling an empty slot of a node. *)
Lemma node_ok_fill tabs M T l b n tabs' M' i v : node_ok tabs M T l b n -> 0 <= i < 64 -> v <> 0 ->
  child tabs M l (64 * b + i) = 0 ->
  (forall j, 0 <= j < 64 -> child tabs' M' l (64 * b + j) = if decide (j = i) then v else child tabs M l (64 * b + j)) ->
  node_ok tabs' M' T l b (set_slot i v (set_count (n_count n + 1) n)).
Proof.
  intros [] Hi Hv H0 Hc.
  assert (n_slots n !! Z.to_nat i = Some 0) as E0.
  { apply deref_Done. rewrite <- H0. by apply no_slots0. }
  constructor; cbn [n_height n_slots n_count n_tags set_slot set_count]; try done.
  - by rewrite length_insert.
  - intros j Hj. unfold slot_at. cbn [n_slots set_slot set_count]. rewrite (Hc j Hj). case_decide as Hd.
    + subst j. by rewrite list_lookup_insert_eq by (rewrite no_len0; lia).
    + rewrite list_lookup_insert_ne by lia. by apply no_slots0.
  - rewrite no_count0, filled_insert by done. pose proof (filled_range (n_slots n)). rewrite u32_small by lia. done.
Qed.

Definition with_child (i p : Z) (n : rnode) : rnode := set_slot i p (set_count (n_count n + 1) n).

(** A new node at (h, b): the root, or a child of the node above. *)
Lemma link_node s tabs M T R q a' R' h b s' : radix_ok s tabs M T R -> fresh_page (r_al s) R q a' R' ->
  tabs !! (h, b) = None -> 1 <= h <= r_height s -> 0 <= b < 2 ^ (6 * (r_height s - h)) ->
  r_height s' = r_height s -> r_gfp s' = r_gfp s -> r_al s' = a' ->
  r_rnode s' = (if h =? r_height s then radix_tree_ptr_to_indirect (page_to_pa q) else r_rnode s) ->
  (h < r_height s -> is_Some (tabs !! (h + 1, b / 64))) ->
  r_nodes s' !! page_to_pa q = Some (set_height h empty_node) ->
  (forall l' b' p' n, tabs !! (l', b') = Some p' -> r_nodes s !! p' = Some n ->
     r_nodes s' !! p' = Some (if decide ((l', b') = (h + 1, b / 64))
                              then with_child (b mod 64) (page_to_pa q) n else n)) ->
  radix_ok s' (<[(h, b) := page_to_pa q]> tabs) M T R'.
Proof.
  intros K F E Hh Hb EH Eg Ea Er Hpar Enew Eold. pose proof (rk_height _ _ _ _ _ K) as HH.
  destruct (no_below _ _ _ _ _ _ _ K E Hh) as [Hc0 HM0].
  assert (forall t i, 0 <= i < 64 -> ~ tagged T t (h - 1) (64 * b + i)) as Ht0
    by (intros; by eapply no_tagged).
  assert (page_to_pa q <> 0) as Hp0 by (apply even_page, (fp_range _ _ _ _ _ F)).
  constructor; rewrite ?EH.
  - done.
  - rewrite Ea. apply (fp_rep _ _ _ _ _ F).
  - rewrite Er, (rk_root _ _ _ _ _ K). destruct (Z.eqb_spec (r_height s) 0); [lia|].
    destruct (Z.eqb_spec h (r_height s)) as [->|Hne].
    + replace (r_height s - r_height s) with 0 in Hb by lia. change (2 ^ (6 * 0)) with 1 in Hb.
      replace b with 0 by lia. by rewrite lookup_insert_eq.
    + rewrite lookup_insert_ne by congruence. done.
  - intros l b' p. rewrite Ea. destruct (decide ((h, b) = (l, b'))) as [Heq|Hne].
    + injection Heq as <- <-. rewrite lookup_insert_eq. intros [= <-]. split; [lia|]. split; [done|].
      exists q. pose proof F as []. split_and!; try done; lia.
    + rewrite lookup_insert_ne by done. intros Et. destruct (rk_tab _ _ _ _ _ K _ _ _ Et) as (Hl & Hb' & _).
      split; [done|]. split; [done|]. by eapply fresh_tab.
  - intros x y p. destruct (decide ((h, b) = x)) as [<-|Hx], (decide ((h, b) = y)) as [<-|Hy];
      rewrite ?lookup_insert_eq, ?lookup_insert_ne by done; [done| | |by eapply rk_inj].
    + intros [= <-] Ey. by destruct (fresh_tab _ _ _ _ _ _ _ _ _ _ K F Ey).
    + intros Ex [= <-]. by destruct (fresh_tab _ _ _ _ _ _ _ _ _ _ K F Ex).
  - intros l b' p. destruct (decide ((h, b) = (l, b'))) as [Heq|Hne].
    + injection Heq as <- <-. intros _ Hl. rewrite lookup_insert_ne by (intros [=]; lia). auto.
    + rewrite lookup_insert_ne by done. intros Et Hl.
      destruct (rk_parent _ _ _ _ _ K _ _ _ Et Hl) as [r Er'].
      rewrite lookup_insert_ne; [eauto|]. intros Heq. congruence.
  - intros l b' p. destruct (decide ((h, b) = (l, b'))) as [Heq|Hne].
    + injection Heq as <- <-. rewrite lookup_insert_eq. intros [= <-]. eexists. split; [exact Enew|].
      apply empty_node_ok; [|done]. intros i Hi. rewrite child_insert, decide_False by lia. auto.
    + rewrite lookup_insert_ne by done. intros Et. destruct (rk_node _ _ _ _ _ K _ _ _ Et) as (n & En & Hn).
      rewrite (Eold _ _ _ _ Et En). eexists. split; [done|]. case_decide as Hd.
      * injection Hd as -> ->. apply (node_ok_fill tabs M T _ _ n); [done|apply Z.mod_pos_bound; lia|done| |].
        -- unfold child. destruct (Z.eqb_spec (h + 1) 1); [lia|].
           rewrite <- Z_div_mod_eq_full. replace (h + 1 - 1) with h by lia. by rewrite E.
        -- intros j Hj. rewrite child_insert by lia. pose proof (Z_div_mod_eq_full b 64).
           destruct (decide (j = b mod 64)) as [->|]; [rewrite decide_True by lia|rewrite decide_False by lia]; done.
      * eapply node_ok_same; [done| |done]. intros i Hi. rewrite child_insert by lia.
        rewrite decide_False; [done|]. intros [-> Hx]. apply Hd. f_equal.
        rewrite <- Hx, Z.mul_comm, Z.div_add_l, Z.div_small by lia. lia.
  - intros x v Ev. destruct (rk_item _ _ _ _ _ K _ _ Ev) as (? & ? & H1). split_and!; try done; try lia.
    intros Hl. destruct (H1 Hl) as [p Ep]. destruct (decide ((h, b) = (1, x / 64))) as [<-|].
    + rewrite lookup_insert_eq. eauto.
    + rewrite lookup_insert_ne by done. eauto.
  - apply (rk_tag _ _ _ _ _ K).
  - intros t Ht. unfold root_tag_get. rewrite Eg. by apply (rk_gfp _ _ _ _ _ K).
Qed.

(** *** The insertion loop *)

(** [slot] is what the loop found at (h, b), through the node above. *)
Definition at_level s tabs M x (h : Z) (node : option Z) (offset slot : Z) : Prop :=
  slot = (if h =? 0 then default 0 (M !! x) else default 0 (tabs !! (h, pre h x))) /\
  match node with
  | None => h = r_height s
  | Some q => h < r_height s /\ tabs !! (h + 1, pre (h + 1) x) = Some q /\ offset = pre h x mod 64
  end.

Lemma at_level_next s tabs M T R x h p : radix_ok s tabs M T R -> 0 <= x -> 1 <= h <= r_height s ->
  tabs !! (h, pre h x) = Some p ->
  exists n next, node_at s p = Done n /\ slot_at n (offset_of x (6 * (h - 1))) = Done next /\
    at_level s tabs M x (h - 1) (Some p) (offset_of x (6 * (h - 1))) next.
Proof.
  intros K Hx Hh Ep. destruct (node_run _ _ _ _ _ _ _ _ K Ep) as (n & En & Hn).
  exists n. eexists. split; [done|]. split; [apply (no_slots _ _ _ _ _ _ Hn), offset_range|].
  rewrite <- pre_step by lia. split.
  - unfold child. destruct (Z.eqb_spec h 1), (Z.eqb_spec (h - 1) 0); try lia.
    subst h. by rewrite pre_0.
  - split; [lia|]. replace (h - 1 + 1) with h by lia. split; [done|].
    rewrite pre_step by lia. pose proof (offset_range x (6 * (h - 1))) as Ho.
    rewrite (Z.mul_comm 64), Z.add_comm, Z.mod_add by lia. by rewrite Z.mod_small.
Qed.
Lemma node_at_run s p n : r_nodes s !! p = Some n -> node_at s p = Done n.
Proof. intros E. unfold node_at. by rewrite E. Qed.

(** A missing node at (h, b) is allocated and linked. *)
Lemma add_level s tabs M T R x h node offset : radix_ok s tabs M T R -> 0 <= x < 2 ^ (6 * r_height s) ->
  1 <= h <= r_height s -> at_level s tabs M x h node offset 0 -> tabs !! (h, pre h x) = None ->
  let run :=
    '(p, s) ← radix_tree_node_alloc s;
    n ← node_at s p;
    let s := set_node p (set_height h n) s in
    match node with
    | Some q =>
        nq ← node_at s q;
        Done (p, set_node q (set_count (n_count nq + 1) (set_slot offset p nq)) s)
    | None => Done (p, set_root (r_height s) (radix_tree_ptr_to_indirect p) s)
    end in
  run = Panic /\ refused 1 s \/
  exists p s' R', run = Done (p, s') /\ r_height s' = r_height s /\ later 1 s s' /\
    radix_ok s' (<[(h, pre h x) := p]> tabs) M T R'.
Proof.
  intros K Hx Hh [_ Hnode] E. cbv zeta.
  destruct (node_alloc_ok s R (rk_alloc _ _ _ _ _ K)) as [[-> Hr]|(q & a' & R' & F & G & ->)]; ocbn; [by left|right].
  rewrite (node_at_run _ _ empty_node) by (cbn [r_nodes]; apply lookup_insert_eq). ocbn.
  pose proof (fun y p => fresh_tab _ _ _ _ _ _ _ _ y p K F) as Hf.
  assert (0 <= pre h x < 2 ^ (6 * (r_height s - h))) as Hb.
  { split; [apply pre_nonneg; lia|]. unfold pre. apply Z.div_lt_upper_bound; [apply Z.pow_pos_nonneg; lia|].
    rewrite <- Z.pow_add_r by lia. replace (6 * h + 6 * (r_height s - h)) with (6 * r_height s) by lia. lia. }
  destruct node as [pq|].
  - destruct Hnode as (Hlt & Epq & ->).
    destruct (rk_node _ _ _ _ _ K _ _ _ Epq) as (nq & Enq & Hnq).
    destruct (Hf _ _ Epq) as [Hne _].
    rewrite (node_at_run _ _ nq) by (cbn [r_nodes set_node]; by rewrite !lookup_insert_ne). ocbn.
    eexists _, _, R'. split; [done|]. split; [done|]. split; [exact G|].
    eapply (link_node s tabs M T R q a' R' h (pre h x)); try done; cbn [r_rnode r_nodes set_node].
    + destruct (Z.eqb_spec h (r_height s)); [lia|done].
    + intros _. rewrite <- pre_up by lia. eauto.
    + rewrite lookup_insert_ne by done. by rewrite lookup_insert_eq.
    + intros l' b' p' n Et En. destruct (decide (p' = pq)) as [->|Hpp].
      * pose proof (rk_inj _ _ _ _ _ K _ _ _ Et Epq) as [= -> ->]. rewrite lookup_insert_eq.
        rewrite decide_True by (rewrite pre_up by lia; done). assert (n = nq) as -> by congruence. done.
      * rewrite lookup_insert_ne by done. destruct (Hf _ _ Et) as [Hpn _].
        rewrite !lookup_insert_ne by done. rewrite decide_False; [done|]. intros [= -> ->].
        rewrite <- pre_up in Et by lia. congruence.
  - subst h. eexists _, _, R'. split; [done|]. split; [done|]. split; [exact G|].
    eapply (link_node s tabs M T R q a' R' (r_height s) (pre (r_height s) x)); try done;
      cbn [r_rnode r_nodes set_node set_root].
    + by rewrite Z.eqb_refl.
    + lia.
    + by rewrite lookup_insert_eq.
    + intros l' b' p' n Et En. destruct (Hf _ _ Et) as [Hpn _]. rewrite !lookup_insert_ne by done.
      rewrite decide_False; [done|]. intros [= -> ->]. destruct (rk_tab _ _ _ _ _ K _ _ _ Et). lia.
Qed.

Lemma insert_loop_ok x tot h : forall s tabs M T R node offset slot, radix_ok s tabs M T R ->
  0 <= x < 2 ^ (6 * r_height s) -> r_height s = tot -> Z.of_nat h <= tot ->
  at_level s tabs M x (Z.of_nat h) node offset slot ->
  insert_loop h x (6 * (Z.of_nat h - 1)) node offset slot s = Panic /\ refused h s /\ M !! x = None \/
  exists node' offset' slot' s' tabs' R',
    insert_loop h x (6 * (Z.of_nat h - 1)) node offset slot s = Done (node', offset', slot', s') /\
    radix_ok s' tabs' M T R' /\ r_height s' = tot /\ at_level s' tabs' M x 0 node' offset' slot' /\
    (is_Some (M !! x) -> s' = s) /\ later h s s'.
Proof.
  induction h as [|h IH]; intros s tabs M T R node offset slot K Hx Htot Hh Hat.
  { right. exists node, offset, slot, s, tabs, R. split_and!; try done. constructor. }
  cbn [insert_loop]. set (l := Z.of_nat (S h)) in *. pose proof (rk_height _ _ _ _ _ K) as HH.
  assert (forall s1 tabs1 R1 p, radix_ok s1 tabs1 M T R1 -> r_height s1 = tot -> later 1 s s1 ->
    tabs1 !! (l, pre l x) = Some p -> (is_Some (M !! x) -> s1 = s) ->
    let run := (n ← node_at s1 p; next ← slot_at n (offset_of x (6 * (l - 1)));
      insert_loop h x (u32 (6 * (l - 1) - RADIX_TREE_MAP_SHIFT)) (Some p) (offset_of x (6 * (l - 1))) next s1) in
    run = Panic /\ refused (S h) s /\ M !! x = None \/ exists node' offset' slot' s' tabs' R', run = Done (node', offset', slot', s') /\
      radix_ok s' tabs' M T R' /\ r_height s' = tot /\ at_level s' tabs' M x 0 node' offset' slot' /\
      (is_Some (M !! x) -> s' = s) /\ later (S h) s s') as Hgo.
  { intros s1 tabs1 R1 p K1 Et1 G1 Ep Hsame. cbv zeta.
    destruct (at_level_next s1 tabs1 M T R1 x l p K1) as (n & next & -> & En & Hat1); [lia|lia|done|].
    ocbn. rewrite En. ocbn.
    replace (l - 1) with (Z.of_nat h) in * by lia. destruct h as [|h].
    - right. cbn [insert_loop]. eexists _, _, _, s1, tabs1, R1. split_and!; try done.
    - replace (u32 (6 * Z.of_nat (S h) - RADIX_TREE_MAP_SHIFT)) with (6 * (Z.of_nat (S h) - 1)).
      2:{ replace (Z.of_nat (S h)) with (l - 1) at 2 by lia. rewrite next_shift_eq by lia. lia. }
      destruct (IH s1 tabs1 M T R1 _ _ _ K1 ltac:(by rewrite Et1, <- Htot) Et1 ltac:(lia) Hat1)
        as [(-> & ? & ?)|(node' & offset' & slot' & s' & tabs' & R' & -> & K' & H1 & H2 & H3 & H4)];
        [left; split_and!; [done|by eapply refused_later; [done..|lia]|done]|right].
      exists node', offset', slot', s', tabs', R'. split_and!; try done; [|by eapply (uses_trans _ 1)]. intros HM. by rewrite H3, Hsame. }
  pose proof (proj1 Hat) as Hs. destruct (Z.eqb_spec l 0); [lia|].
  destruct (tabs !! (l, pre l x)) as [p|] eqn:Ep; cbn [from_option id] in Hs.
  - destruct (tab_nonzero _ _ _ _ _ _ _ K Ep) as [Hp _]. subst slot.
    rewrite (proj2 (Z.eqb_neq p 0) Hp). ocbn. by apply (Hgo s tabs R p K Htot (uses_none _ _ _)).
  - subst slot. cbn [Z.eqb].
    pose proof (add_level s tabs M T R x l node offset K Hx ltac:(lia) Hat Ep) as Ha. cbv zeta in Ha.
    assert (M !! x = None) as HM.
    { destruct (M !! x) as [v|] eqn:Ev; [|done].
      destruct (item_path _ _ _ _ _ x l K ltac:(eauto) ltac:(lia)) as [r Er]. congruence. }
    destruct Ha as [[-> Hr]|(p & s1 & R1 & -> & Eh & G & K1)]; ocbn.
    { left. split_and!; [done| |done]. eapply dry_le; [exact Hr|done|lia]. }
    apply (Hgo s1 _ R1 p K1); [by rewrite Eh|done|apply lookup_insert_eq|]. rewrite HM. by intros [].
Qed.

(** *** Making the tree higher *)

Lemma grow_height_ok x : 0 <= x < 2 ^ 30 -> forall fuel h, 1 <= h <= 5 -> (Z.to_nat (5 - h) < fuel)%nat ->
  exists h', grow_height fuel x h = Done h' /\ h <= h' <= 5 /\ x < 2 ^ (6 * h').
Proof.
  intros Hx. induction fuel as [|fuel IH]; intros h Hh Hf; [lia|]. cbn [grow_height].
  rewrite maxindex_ok by lia. ocbn. destruct (Z.ltb_spec (2 ^ (6 * h) - 1) x) as [Hlt|Hge].
  - assert (h <> 5) by (intros ->; change (2 ^ (6 * 5)) with (2 ^ 30) in Hlt; lia).
    destruct (IH (h + 1)) as (h' & -> & ? & ?); [lia|lia|]. exists h'. split_and!; try done; lia.
  - exists h. split_and!; try done; lia.
Qed.

(** Without a root there is nothing. *)
Lemma no_root s tabs M T R : radix_ok s tabs M T R -> r_rnode s = 0 ->
  (forall x, tabs !! x = None) /\ (forall x, M !! x = None) /\ (forall y, y ∉ T).
Proof.
  intros K H0. pose proof (rk_height _ _ _ _ _ K) as HH. pose proof (rk_root _ _ _ _ _ K) as Er. rewrite H0 in Er.
  assert (1 <= r_height s -> tabs !! (r_height s, 0) = None) as Htop.
  { intros Hl. destruct (Z.eqb_spec (r_height s) 0); [lia|]. destruct (tabs !! (r_height s, 0)) as [p|] eqn:Ep; [|done].
    destruct (tab_nonzero _ _ _ _ _ _ _ K Ep) as [_ Hp]. by destruct (indirect_inv _ Hp) as (_ & _ & []). }
  assert (forall x, tabs !! x = None) as Htabs.
  { intros [l b]. destruct (tabs !! (l, b)) as [p|] eqn:Ep; [exfalso|done].
    destruct (rk_tab _ _ _ _ _ K _ _ _ Ep) as (Hl & Hb & _).
    destruct (ancestors s tabs M T R (b * 2 ^ (6 * l)) K (Z.to_nat (r_height s - l)) l) as [r Er']; try lia.
    - unfold pre. rewrite Z.div_mul by (apply Z.pow_nonzero; lia). eauto.
    - replace (l + Z.of_nat (Z.to_nat (r_height s - l))) with (r_height s) in Er' by lia.
      rewrite pre_small in Er'; [rewrite Htop in Er' by lia; done|].
      pose proof (pow2_pos (6 * l) ltac:(lia)). split; [lia|].
      replace (2 ^ (6 * r_height s)) with (2 ^ (6 * (r_height s - l)) * 2 ^ (6 * l))
        by (rewrite <- Z.pow_add_r by lia; f_equal; lia). nia. }
  assert (forall x, M !! x = None) as HM.
  { intros x. destruct (M !! x) as [v|] eqn:Ev; [exfalso|done].
    destruct (rk_item _ _ _ _ _ K _ _ Ev) as ([Hv _] & Hx & H1). destruct (Z.eqb_spec (r_height s) 0) as [E0|].
    - rewrite E0 in Hx. change (2 ^ (6 * 0)) with 1 in Hx. replace x with 0 in Ev by lia. by rewrite Ev in Er.
    - destruct H1 as [p Ep]; [lia|]. by rewrite Htabs in Ep. }
  split_and!; try done. intros [t x] Hx. destruct (rk_tag _ _ _ _ _ K _ _ Hx) as [_ [v Ev]]. by rewrite HM in Ev.
Qed.

Lemma extend_empty s tabs M T R h : radix_ok s tabs M T R -> r_rnode s = 0 -> 1 <= h <= 5 ->
  radix_ok (set_root h (r_rnode s) s) tabs M T R.
Proof.
  intros K H0 Hh. destruct (no_root _ _ _ _ _ K H0) as (Ht & HM & HT).
  constructor; cbn [r_height r_rnode r_nodes r_al set_root]; try (by intros; simplify_map_eq).
  - lia.
  - apply (rk_alloc _ _ _ _ _ K).
  - rewrite H0, Ht, HM. by destruct (h =? 0).
  - intros l b p E. by rewrite Ht in E.
  - intros x y p E. by rewrite Ht in E.
  - intros l b p E. by rewrite Ht in E.
  - intros l b p E. by rewrite Ht in E.
  - intros x v E. by rewrite HM in E.
  - intros t x Hx. by apply HT in Hx.
  - apply (rk_gfp _ _ _ _ _ K).
Qed.

Lemma tag_set_run n t w i : n_tags n !! Z.to_nat t = Some w ->
  tag_set n t i = Done (Rnode (n_height n) (n_count n) (n_slots n) (<[Z.to_nat t := Z.setbit w i]> (n_tags n))).
Proof. intros E. unfold tag_set. by rewrite E. Qed.

(** The root of the higher tree before it is linked. *)
Definition top_node (v : Z) (t0 t1 : bool) (h : Z) : rnode :=
  Rnode h 1 (<[0%nat := v]> (n_slots empty_node)) [if t0 then 1 else 0; if t1 then 1 else 0].

Lemma inherit_tags v s h :
  (n ← inherit_tag 0 s (set_slot 0 v empty_node); n ← inherit_tag 1 s n; Done (set_count 1 (set_height h n))) =
  Done (top_node v (root_tag_get 0 s) (root_tag_get 1 s) h).
Proof. unfold inherit_tag. by destruct (root_tag_get 0 s), (root_tag_get 1 s). Qed.

Lemma top_node_ok s tabs M T R p : radix_ok s tabs M T R -> r_rnode s <> 0 ->
  let h := r_height s + 1 in
  node_ok (<[(h, 0) := p]> tabs) M T h 0
    (top_node (radix_tree_indirect_to_ptr (r_rnode s)) (root_tag_get 0 s) (root_tag_get 1 s) h).
Proof.
  intros K H0. cbv zeta. pose proof (rk_height _ _ _ _ _ K) as HH.
  assert (forall i, 0 <= i < 64 -> child (<[(r_height s + 1, 0) := p]> tabs) M (r_height s + 1) (64 * 0 + i) =
    if i =? 0 then radix_tree_indirect_to_ptr (r_rnode s) else 0) as Hc.
  { intros i Hi. rewrite child_insert, decide_False by lia. unfold child. rewrite (rk_root _ _ _ _ _ K).
    replace (64 * 0 + i) with i by lia. replace (r_height s + 1 - 1) with (r_height s) by lia.
    destruct (Z.eqb_spec (r_height s) 0) as [E0|E0], (Z.eqb_spec (r_height s + 1) 1); try lia.
    - destruct (Z.eqb_spec i 0) as [->|].
      + assert (Z.testbit (default 0 (M !! 0)) 0 = false) as He by exact (child_even _ _ _ _ _ 1 0 K).
        by destruct (indirect_even _ He) as [_ ->].
      + destruct (M !! i) as [v|] eqn:Ev; [|done]. destruct (rk_item _ _ _ _ _ K _ _ Ev) as (_ & Hr & _).
        rewrite E0 in Hr. change (2 ^ (6 * 0)) with 1 in Hr. lia.
    - destruct (Z.eqb_spec i 0) as [->|].
      + destruct (tabs !! (r_height s, 0)) as [q|] eqn:Eq; [|done].
        destruct (tab_nonzero _ _ _ _ _ _ _ K Eq) as [_ Hq]. by destruct (indirect_inv _ Hq) as (_ & -> & _).
      + destruct (tabs !! (r_height s, i)) as [q|] eqn:Eq; [|done].
        destruct (rk_tab _ _ _ _ _ K _ _ _ Eq) as (_ & Hb & _). rewrite Z.sub_diag in Hb.
        change (2 ^ (6 * 0)) with 1 in Hb. lia. }
  assert (radix_tree_indirect_to_ptr (r_rnode s) <> 0) as Hv.
  { pose proof (rk_root _ _ _ _ _ K) as Er. destruct (Z.eqb_spec (r_height s) 0).
    - assert (Z.testbit (r_rnode s) 0 = false) as He by (rewrite Er; exact (child_even _ _ _ _ _ 1 0 K)).
      by destruct (indirect_even _ He) as [_ ->].
    - destruct (tabs !! (r_height s, 0)) as [q|] eqn:Eq; [|done].
      destruct (tab_nonzero _ _ _ _ _ _ _ K Eq) as [Hq0 Hq]. rewrite Er. by destruct (indirect_inv _ Hq) as (_ & -> & _). }
  constructor; cbn [n_height n_slots n_count n_tags top_node].
  - done.
  - by rewrite length_insert.
  - intros i Hi. rewrite Hc by done. unfold slot_at. cbn [n_slots top_node].
    destruct (Z.eqb_spec i 0) as [->|]; [done|]. rewrite list_lookup_insert_ne by lia.
    change (n_slots empty_node) with (replicate 64 0). by rewrite lookup_replicate_2 by lia.
  - by rewrite (filled_insert _ _ _ (eq_refl : n_slots empty_node !! 0%nat = Some 0)).
  - intros t i Ht Hi. eexists. split.
    + unfold tag_get. cbn [n_tags top_node]. destruct Ht as [-> | ->]; reflexivity.
    + assert (tagged T t (r_height s + 1 - 1) (64 * 0 + i) <-> i = 0 /\ root_tag_get t s = true) as ->.
      { rewrite (rk_gfp _ _ _ _ _ K t Ht). replace (r_height s + 1 - 1) with (r_height s) by lia.
        unfold tagged. assert (forall x, (t, x) ∈ T -> pre (r_height s) x = 0) as Hp.
        { intros x Hx. destruct (rk_tag _ _ _ _ _ K _ _ Hx) as [_ [v Ev]].
          destruct (rk_item _ _ _ _ _ K _ _ Ev) as (_ & Hr & _). by apply pre_small. }
        split; [intros (x & Hx & Hi'); rewrite (Hp x Hx) in Hi'; split; [lia|eauto]|].
        intros (-> & x & Hx). exists x. rewrite (Hp x Hx). done. }
      assert (forall b : bool, Z.testbit (if b then 1 else 0) i = true <-> i = 0 /\ b = true) as Hb.
      { intros []; [|rewrite Z.testbit_0_l; naive_solver]. change 1 with (2 ^ 0).
        rewrite Z.pow2_bits_eqb, Z.eqb_eq by lia. naive_solver. }
      destruct Ht as [-> | ->]; apply Hb.
Qed.
Lemma push_root s tabs M T R q a' R' n : radix_ok s tabs M T R -> fresh_page (r_al s) R q a' R' ->
  r_rnode s <> 0 -> r_height s <= 4 ->
  let h := r_height s + 1 in
  node_ok (<[(h, 0) := page_to_pa q]> tabs) M T h 0 n ->
  radix_ok (RT h (radix_tree_ptr_to_indirect (page_to_pa q)) (r_gfp s) (<[page_to_pa q := n]> (r_nodes s)) a')
    (<[(h, 0) := page_to_pa q]> tabs) M T R'.
Proof.
  intros K F H0 H4. cbv zeta. intros Hn. pose proof (rk_height _ _ _ _ _ K) as HH.
  set (h := r_height s + 1) in *. pose proof (fun y p => fresh_tab _ _ _ _ _ _ _ _ y p K F) as Hf.
  assert (2 ^ (6 * h) = 64 * 2 ^ (6 * r_height s)) as Hpow.
  { unfold h. replace (6 * (r_height s + 1)) with (6 + 6 * r_height s) by lia. by rewrite Z.pow_add_r by lia. }
  assert (forall l b p, tabs !! (l, b) = Some p -> (h, 0) <> (l, b)) as Hne.
  { intros l b p Et [= <- _]. destruct (rk_tab _ _ _ _ _ K _ _ _ Et). lia. }
  assert (1 <= r_height s -> is_Some (tabs !! (r_height s, 0))) as Htop.
  { intros Hl. pose proof (rk_root _ _ _ _ _ K) as Er. destruct (Z.eqb_spec (r_height s) 0); [lia|].
    destruct (tabs !! (r_height s, 0)); [eauto|done]. }
  constructor; cbn [r_height r_rnode r_nodes r_al].
  - lia.
  - apply (fp_rep _ _ _ _ _ F).
  - destruct (Z.eqb_spec h 0); [lia|]. by rewrite lookup_insert_eq.
  - intros l b p. destruct (decide ((h, 0) = (l, b))) as [Heq|Hn'].
    + injection Heq as <- <-. rewrite lookup_insert_eq. intros [= <-]. split; [lia|].
      rewrite Z.sub_diag. split; [change (2 ^ (6 * 0)) with 1; lia|].
      exists q. pose proof F as []. split_and!; try done; lia.
    + rewrite lookup_insert_ne by done. intros Et. destruct (rk_tab _ _ _ _ _ K _ _ _ Et) as (Hl & Hb & _).
      split; [lia|]. split; [|by eapply Hf].
      split; [lia|]. eapply Z.lt_le_trans; [apply Hb|]. apply Z.pow_le_mono_r; lia.
  - intros x y p. destruct (decide ((h, 0) = x)) as [<-|Hx], (decide ((h, 0) = y)) as [<-|Hy];
      rewrite ?lookup_insert_eq, ?lookup_insert_ne by done; [done| | |by eapply rk_inj].
    + intros [= <-] Ey. by destruct (Hf _ _ Ey).
    + intros Ex [= <-]. by destruct (Hf _ _ Ex).
  - intros l b p. destruct (decide ((h, 0) = (l, b))) as [Heq|Hn']; [injection Heq as <- <-; lia|].
    rewrite lookup_insert_ne by done. intros Et Hl. destruct (rk_tab _ _ _ _ _ K _ _ _ Et) as (Hl' & Hb & _).
    destruct (decide (l = r_height s)) as [->|].
    + rewrite Z.sub_diag in Hb. change (2 ^ (6 * 0)) with 1 in Hb. replace b with 0 by lia.
      rewrite lookup_insert_eq. eauto.
    + destruct (rk_parent _ _ _ _ _ K _ _ _ Et ltac:(lia)) as [r Er].
      rewrite lookup_insert_ne; [eauto|]. by eapply Hne.
  - intros l b p. destruct (decide ((h, 0) = (l, b))) as [Heq|Hn'].
    + injection Heq as <- <-. rewrite lookup_insert_eq. intros [= <-]. exists n. by rewrite lookup_insert_eq.
    + rewrite lookup_insert_ne by done. intros Et. destruct (rk_node _ _ _ _ _ K _ _ _ Et) as (m & Em & Hm).
      destruct (Hf _ _ Et) as [Hp _]. exists m. rewrite lookup_insert_ne by done. split; [done|].
      eapply node_ok_same; [done| |done]. intros i Hi. rewrite child_insert by lia.
      rewrite decide_False; [done|]. intros [-> _]. destruct (rk_tab _ _ _ _ _ K _ _ _ Et). lia.
  - intros x v Ev. destruct (rk_item _ _ _ _ _ K _ _ Ev) as (? & Hx & H1). split; [done|]. split; [lia|].
    intros _. destruct (Z.eq_dec (r_height s) 0) as [E0|].
    + unfold h in *. rewrite E0 in *. change (2 ^ (6 * 0)) with 1 in Hx. replace x with 0 by lia.
      change (0 / 64) with 0. rewrite lookup_insert_eq. eauto.
    + destruct H1 as [p Ep]; [lia|]. rewrite lookup_insert_ne; [eauto|by eapply Hne].
  - apply (rk_tag _ _ _ _ _ K).
  - apply (rk_gfp _ _ _ _ _ K).
Qed.

Lemma extend_loop_ok h fuel : forall s tabs M T R, radix_ok s tabs M T R -> r_rnode s <> 0 ->
  r_height s < h <= 5 -> (Z.to_nat (h - r_height s) <= fuel)%nat ->
  extend_loop fuel h s = Panic /\ refused (Z.to_nat (h - r_height s)) s \/
  exists s' tabs' R', extend_loop fuel h s = Done s' /\ radix_ok s' tabs' M T R' /\ r_height s' = h /\ later (Z.to_nat (h - r_height s)) s s'.
Proof.
  induction fuel as [|fuel IH]; intros s tabs M T R K H0 Hh Hf; [lia|]. cbn [extend_loop].
  pose proof (rk_height _ _ _ _ _ K) as HH.
  destruct (node_alloc_ok s R (rk_alloc _ _ _ _ _ K)) as [[-> Hr]|(q & a' & R' & F & G & ->)]; ocbn.
  { left. split; [done|]. eapply dry_le; [exact Hr|done|lia]. }
  rewrite (node_at_run _ _ empty_node) by (cbn [r_nodes]; apply lookup_insert_eq). ocbn.
  cbn [r_rnode]. set (v := radix_tree_indirect_to_ptr (r_rnode s)).
  match goal with |- context [inherit_tag 0 ?sx (set_slot 0 v empty_node)] => set (s1 := sx) end.
  pose proof (inherit_tags v s1 (r_height s + 1)) as Hin.
  destruct (inherit_tag 0 s1 (set_slot 0 v empty_node)) as [n0| | |]; try discriminate Hin. ocbn_in Hin. ocbn.
  destruct (inherit_tag 1 s1 n0) as [n1| | |]; try discriminate Hin. ocbn_in Hin. ocbn.
  apply (inj Done) in Hin. cbn [r_height s1]. rewrite Hin.
  pose proof (push_root s tabs M T R q a' R' _ K F H0 ltac:(lia) (top_node_ok s tabs M T R (page_to_pa q) K H0)) as K'.
  unfold set_root, set_node, s1 in *. cbn [r_height r_rnode r_gfp r_nodes r_al] in *. rewrite insert_insert_eq.
  change (root_tag_get 0 _) with (root_tag_get 0 s). change (root_tag_get 1 _) with (root_tag_get 1 s).
  fold v in K'.
  destruct (Z.ltb_spec (r_height s + 1) h).
  - destruct (IH _ _ _ _ _ K') as [[-> Hr]|(s' & tabs' & R2 & -> & K2 & E2 & G2)]; cbn [r_rnode r_height]; [|lia|lia| |].
    + apply indirect_inv, even_page, (fp_range _ _ _ _ _ F).
    + left. split; [done|]. cbn [r_height] in Hr. eapply (dry_later _ 1); [exact G|exact Hr|lia].
    + right. exists s', tabs', R2. split_and!; try done. cbn [r_height] in G2. eapply uses_le; [exact (uses_trans _ _ _ _ _ _ G G2)|done|lia].
  - right. eexists _, _, R'. split; [done|]. split; [exact K'|]. split; [cbn; lia|]. eapply uses_le; [exact G|done|lia].
Qed.

Lemma extend_ok s tabs M T R x : radix_ok s tabs M T R -> 0 <= x < 2 ^ 30 -> 2 ^ (6 * r_height s) - 1 < x ->
  radix_tree_extend x s = Panic /\ refused 5 s \/
  exists s' tabs' R', radix_tree_extend x s = Done (0, s') /\ radix_ok s' tabs' M T R' /\
    x < 2 ^ (6 * r_height s') /\ later 5 s s'.
Proof.
  intros K Hx Hgt. pose proof (rk_height _ _ _ _ _ K) as HH. unfold radix_tree_extend.
  assert (r_height s <> 5) by (intros E; rewrite E in Hgt; change (2 ^ (6 * 5)) with (2 ^ 30) in Hgt; lia).
  destruct (grow_height_ok x Hx 12 (r_height s + 1)) as (h & -> & Hh & Hxh); [lia|lia|]. ocbn.
  destruct (Z.eqb_spec (r_rnode s) 0) as [E0|H0].
  - right. eexists _, tabs, R. split; [done|]. split; [by apply extend_empty; [done|done|lia]|]. split; [exact Hxh|constructor].
  - destruct (extend_loop_ok h (Z.to_nat h) s tabs M T R K H0) as [[-> Hr]|(s' & tabs' & R' & -> & K' & Eh & G)];
      [lia|lia|left|right].
    + split; [done|]. eapply dry_le; [exact Hr|done|lia].
    + ocbn. exists s', tabs', R'. rewrite Eh. split_and!; try done. eapply uses_le; [exact G|done|lia].
Qed.

(** *** Storing the item *)

Lemma child_item tabs M l j x v : child tabs (<[x := v]> M) l j = if decide (l = 1 /\ j = x) then v else child tabs M l j.
Proof.
  unfold child. destruct (Z.eqb_spec l 1) as [->|]; [|by rewrite decide_False by lia].
  case_decide as Hd; [destruct Hd as [_ ->]; by rewrite lookup_insert_eq|].
  rewrite lookup_insert_ne; [done|]. intros ->. by apply Hd.
Qed.

Lemma not_tagged s tabs M T R x t : radix_ok s tabs M T R -> M !! x = None -> ~ tagged T t 0 x.
Proof.
  intros K HM (y & Hy & Hp). rewrite pre_0 in Hp. subst y.
  destruct (rk_tag _ _ _ _ _ K _ _ Hy) as [_ E]. rewrite HM in E. by destruct E.
Qed.

Lemma put_in_node s tabs M T R x q v n : radix_ok s tabs M T R -> 0 <= x < 2 ^ (6 * r_height s) ->
  tabs !! (1, x / 64) = Some q -> M !! x = None -> item_ok v -> r_nodes s !! q = Some n ->
  1 <= r_height s -> radix_ok (set_node q (with_child (x mod 64) v n) s) tabs (<[x := v]> M) T R.
Proof.
  intros K Hx Eq HM Hv En HH. pose proof (Z_div_mod_eq_full x 64) as Hdm.
  pose proof (Z.mod_pos_bound x 64 ltac:(lia)) as Hmb.
  constructor; cbn [r_height r_rnode r_nodes r_al set_node]; try apply K.
  - rewrite (rk_root _ _ _ _ _ K). destruct (Z.eqb_spec (r_height s) 0); [lia|done].
  - intros l b p Ep. destruct (rk_node _ _ _ _ _ K _ _ _ Ep) as (m & Em & Hm).
    destruct (decide (p = q)) as [->|Hpq].
    + pose proof (rk_inj _ _ _ _ _ K _ _ _ Ep Eq) as [= -> ->]. assert (m = n) as -> by congruence.
      eexists. rewrite lookup_insert_eq. split; [done|].
      apply (node_ok_fill tabs M T 1 (x / 64) n); [done|done|apply Hv| |].
      * unfold child. cbn [Z.eqb Pos.eqb]. by rewrite <- Hdm, HM.
      * intros j Hj. rewrite child_item.
        destruct (decide (j = x mod 64)) as [->|]; [rewrite decide_True by lia|rewrite decide_False by lia]; done.
    + exists m. rewrite lookup_insert_ne by done. split; [done|]. eapply node_ok_same; [done| |done].
      intros i Hi. rewrite child_item, decide_False; [done|]. intros [-> Hix]. apply Hpq.
      assert (b = x / 64) as ->; [|congruence]. lia.
  - intros y w. destruct (decide (x = y)) as [<-|].
    + rewrite lookup_insert_eq. intros [= <-]. split_and!; try done; lia.
    + rewrite lookup_insert_ne by done. apply K.
  - intros t y Hy. destruct (rk_tag _ _ _ _ _ K _ _ Hy) as [? ?]. split; [done|].
    destruct (decide (x = y)) as [<-|]; [rewrite lookup_insert_eq; eauto|by rewrite lookup_insert_ne].
Qed.

Lemma put_in_root s tabs M T R x v : radix_ok s tabs M T R -> 0 <= x < 2 ^ (6 * r_height s) ->
  r_height s = 0 -> M !! x = None -> item_ok v ->
  radix_ok (set_root (r_height s) v s) tabs (<[x := v]> M) T R.
Proof.
  intros K Hx H0 HM Hv. pose proof Hx as Hx0. rewrite H0 in Hx0. change (2 ^ (6 * 0)) with 1 in Hx0.
  assert (forall l b p, tabs !! (l, b) <> Some p) as Ht.
  { intros l b p E. destruct (rk_tab _ _ _ _ _ K _ _ _ E) as [? _]. lia. }
  constructor; cbn [r_height r_rnode r_nodes r_al set_root]; try apply K.
  - rewrite H0. cbn [Z.eqb]. replace x with 0 by lia. by rewrite lookup_insert_eq.
  - intros l b p Ep. by apply Ht in Ep.
  - intros y w. destruct (decide (x = y)) as [<-|].
    + rewrite lookup_insert_eq. intros [= <-]. split_and!; try done; lia.
    + rewrite lookup_insert_ne by done. apply K.
  - intros t y Hy. destruct (rk_tag _ _ _ _ _ K _ _ Hy) as [? ?]. split; [done|].
    destruct (decide (x = y)) as [<-|]; [rewrite lookup_insert_eq; eauto|by rewrite lookup_insert_ne].
Qed.

Lemma insert_ok s tabs M T R x v : radix_ok s tabs M T R -> 0 <= x < 2 ^ 30 -> item_ok v ->
  match M !! x with
  | Some _ => radix_tree_insert x v s = Done (-1, s)
  | None =>
      radix_tree_insert x v s = Panic /\ refused 10 s \/
      exists s' tabs' R', radix_tree_insert x v s = Done (0, s') /\ radix_ok s' tabs' (<[x := v]> M) T R' /\ later 10 s s'
  end.
Proof.
  intros K Hx Hv. pose proof (rk_height _ _ _ _ _ K) as HH. unfold radix_tree_insert.
  destruct (indirect_even _ (proj2 Hv)) as [-> _]. ocbn. cbn [negb]. rewrite maxindex_ok by lia. ocbn.
  assert (forall s tabs R, radix_ok s tabs M T R -> 0 <= x < 2 ^ (6 * r_height s) ->
    let run := (let height := r_height s in
      '(node, offset, slot, s) ←
        insert_loop (Z.to_nat height) x (top_shift height) None 0 (radix_tree_indirect_to_ptr (r_rnode s)) s;
      if negb (slot =? 0) then Done (-1, s)
      else match node with
        | Some q =>
            n ← node_at s q;
            let n := set_slot offset v (set_count (n_count n + 1) n) in
            let s := set_node q n s in
            b0 ← tag_get n 0 offset; ASSERT (negb b0);;
            b1 ← tag_get n 1 offset; ASSERT (negb b1);;
            Done (0, s)
        | None =>
            let s := set_root (r_height s) v s in
            ASSERT (negb (root_tag_get 0 s));; ASSERT (negb (root_tag_get 1 s));; Done (0, s)
        end) in
    match M !! x with
    | Some _ => run = Done (-1, s)
    | None => run = Panic /\ refused 5 s \/
        exists s' tabs' R', run = Done (0, s') /\ radix_ok s' tabs' (<[x := v]> M) T R' /\ later 5 s s'
    end) as Hgo.
  { clear s tabs R K HH. intros s tabs R K Hxh. cbv zeta. pose proof (rk_height _ _ _ _ _ K) as HH.
    assert (at_level s tabs M x (Z.of_nat (Z.to_nat (r_height s))) None 0 (radix_tree_indirect_to_ptr (r_rnode s))) as Hat.
    { rewrite Z2Nat.id by lia. split; [|done]. rewrite (rk_root _ _ _ _ _ K).
      destruct (Z.eqb_spec (r_height s) 0) as [E0|].
      - rewrite E0 in Hxh. change (2 ^ (6 * 0)) with 1 in Hxh. replace x with 0 by lia.
        by destruct (indirect_even _ (child_even _ _ _ _ _ 1 0 K : Z.testbit (default 0 (M !! 0)) 0 = false)).
      - rewrite pre_small by done. destruct (tabs !! (r_height s, 0)) as [p|] eqn:Ep; [|done].
        destruct (tab_nonzero _ _ _ _ _ _ _ K Ep) as [_ Hp]. by destruct (indirect_inv _ Hp) as (_ & -> & _). }
    assert (insert_loop (Z.to_nat (r_height s)) x (top_shift (r_height s)) None 0 (radix_tree_indirect_to_ptr (r_rnode s)) s =
      insert_loop (Z.to_nat (r_height s)) x (6 * (Z.of_nat (Z.to_nat (r_height s)) - 1)) None 0
        (radix_tree_indirect_to_ptr (r_rnode s)) s) as ->.
    { destruct (Z.eq_dec (r_height s) 0) as [E0|]; [by rewrite E0|]. rewrite top_shift_eq by lia. do 2 f_equal. lia. }
    destruct (insert_loop_ok x (r_height s) (Z.to_nat (r_height s)) s tabs M T R None 0 _ K Hxh eq_refl ltac:(lia) Hat)
      as [(-> & Hr & ->)|(node & offset & slot & s1 & tabs1 & R1 & -> & K1 & E1 & [Hs Hn] & Hsame & G)]; ocbn.
    { left. split; [done|]. eapply dry_le; [exact Hr|done|lia]. }
    assert (later 5 s s1) as G5 by (eapply uses_le; [exact G|done|lia]).
    cbn [Z.eqb] in Hs. destruct (M !! x) as [w|] eqn:HM; cbn [from_option id] in Hs; subst slot.
    { destruct (rk_item _ _ _ _ _ K _ _ HM) as ([Hw _] & _). rewrite (proj2 (Z.eqb_neq w 0) Hw). cbn [negb].
      by rewrite Hsame by eauto. }
    cbn [Z.eqb negb]. right. destruct node as [q|].
    - destruct Hn as (Hlt & Eq & ->). rewrite pre_0. change (0 + 1) with 1 in Eq. change 1 with (0 + 1) in Eq at 2.
      rewrite pre_up, pre_0 in Eq by lia.
      destruct (rk_node _ _ _ _ _ K1 _ _ _ Eq) as (n & En & Hn). rewrite (node_at_run _ _ _ En). ocbn.
      pose proof (Z_div_mod_eq_full x 64) as Hdm. pose proof (Z.mod_pos_bound x 64 ltac:(lia)) as Hmb.
      assert (forall t, tag_no t -> tag_get (set_slot (x mod 64) v (set_count (n_count n + 1) n)) t (x mod 64) = Done false) as Htag.
      { intros t Ht. destruct (no_tags _ _ _ _ _ _ Hn t (x mod 64) Ht Hmb) as (r & Er & Hr).
        unfold tag_get in *. cbn [n_tags set_slot set_count]. rewrite Er. f_equal.
        apply not_true_iff_false. rewrite Hr, <- Hdm. by eapply not_tagged. }
      rewrite (Htag 0 (or_introl eq_refl)). ocbn. cbn [negb]. ocbn.
      rewrite (Htag 1 (or_intror eq_refl)). ocbn. cbn [negb]. ocbn.
      eexists _, tabs1, R1. split; [done|]. split; [|exact G5]. apply (put_in_node s1 tabs1 M T R1 x q v n); try done; [by rewrite E1|lia].
    - assert (forall t, tag_no t -> root_tag_get t (set_root (r_height s1) v s1) = false) as Htag.
      { intros t Ht. apply not_true_iff_false. intros Hr. apply (rk_gfp _ _ _ _ _ K1 t Ht) in Hr as [y Hy].
        destruct (rk_tag _ _ _ _ _ K1 _ _ Hy) as [_ [w Ew]]. destruct (rk_item _ _ _ _ _ K1 _ _ Ew) as (_ & Hyr & _).
        rewrite <- Hn in Hyr. rewrite E1 in Hn. rewrite <- Hn in Hxh. change (2 ^ (6 * 0)) with 1 in *.
        replace y with x in Ew by lia. congruence. }
      rewrite (Htag 0 (or_introl eq_refl)). ocbn. cbn [negb]. ocbn.
      rewrite (Htag 1 (or_intror eq_refl)). ocbn. cbn [negb]. ocbn.
      eexists _, tabs1, R1. split; [done|]. split; [|exact G5]. apply put_in_root; try done. by rewrite E1. }
  destruct (Z.ltb_spec (2 ^ (6 * r_height s) - 1) x) as [Hgt|Hle].
  - assert (M !! x = None) as HM.
    { destruct (M !! x) as [w|] eqn:Ew; [|done]. destruct (rk_item _ _ _ _ _ K _ _ Ew) as (_ & ? & _). lia. }
    destruct (extend_ok s tabs M T R x K Hx Hgt) as [[-> Hr]|(s1 & tabs1 & R1 & -> & K1 & Hx1 & G)]; ocbn.
    + rewrite HM. left. split; [done|]. eapply dry_le; [exact Hr|done|lia].
    + cbn [Z.eqb negb]. rewrite HM. specialize (Hgo s1 tabs1 R1 K1 ltac:(lia)). rewrite HM in Hgo.
      destruct Hgo as [[Er Hr]|(s' & tabs' & R' & Er & K' & G')]; [left|right].
      * split; [exact Er|]. by eapply refused_later.
      * exists s', tabs', R'. split; [exact Er|]. split; [done|]. exact (uses_trans _ _ _ _ _ _ G G').
  - ocbn. cbn [Z.eqb negb]. specialize (Hgo s tabs R K ltac:(lia)). destruct (M !! x); [exact Hgo|].
    destruct Hgo as [[Er Hr]|(s' & tabs' & R' & Er & K' & G')]; [left|right].
    + split; [exact Er|]. eapply dry_le; [exact Hr|done|lia].
    + exists s', tabs', R'. split; [exact Er|]. split; [done|]. eapply uses_le; [exact G'|done|lia].
Qed.

(** *** Tags *)

Lemma tagged_leaf T t x : tagged T t 0 x <-> (t, x) ∈ T.
Proof.
  unfold tagged. split; [intros (y & Hy & Hp); rewrite pre_0 in Hp; by subst|].
  intros Hx. exists x. by rewrite pre_0.
Qed.

Lemma tag_get_loop_ok s tabs M T R x t : radix_ok s tabs M T R -> tag_no t -> forall h p,
  1 <= Z.of_nat (S h) <= r_height s ->
  (p = 0 /\ M !! x = None \/ tabs !! (Z.of_nat (S h), pre (Z.of_nat (S h)) x) = Some p) ->
  exists r, tag_get_loop (S h) x t (6 * (Z.of_nat (S h) - 1)) p s = Done r /\ (r = true <-> (t, x) ∈ T).
Proof.
  intros K Ht. pose proof (rk_height _ _ _ _ _ K) as HH.
  assert (M !! x = None -> (t, x) ∉ T) as Hno.
  { intros HM Hx. destruct (rk_tag _ _ _ _ _ K _ _ Hx) as [_ E]. rewrite HM in E. by destruct E. }
  induction h as [|h IH]; intros p Hh Hp;
    [set (l := Z.of_nat 1) in *|set (l := Z.of_nat (S (S h))) in *]; cbn [tag_get_loop].
  all: destruct Hp as [[-> HM]|Ep]; [exists false; split; [done|]; split; [done|intros Hx; by apply Hno in Hx]|].
  all: destruct (tab_nonzero _ _ _ _ _ _ _ K Ep) as [Hp _]; rewrite (proj2 (Z.eqb_neq p 0) Hp).
  all: destruct (node_run _ _ _ _ _ _ _ _ K Ep) as (n & -> & Hn); ocbn.
  all: destruct (no_tags _ _ _ _ _ _ Hn t (offset_of x (6 * (l - 1))) Ht (offset_range _ _)) as (r & -> & Hr); ocbn.
  - change l with 1 in *. exists r. split; [done|]. rewrite Hr, <- pre_step by lia.
    change (1 - 1) with 0. by rewrite pre_0, tagged_leaf.
  - rewrite (no_slots _ _ _ _ _ _ Hn) by apply offset_range. ocbn. rewrite <- pre_step by lia.
    rewrite next_shift_eq by lia. replace (l - 1) with (Z.of_nat (S h)) in * by lia.
    apply IH; [lia|]. unfold child. destruct (Z.eqb_spec l 1); [lia|].
    replace (l - 1) with (Z.of_nat (S h)) by lia.
    destruct (tabs !! (Z.of_nat (S h), pre (Z.of_nat (S h)) x)) as [q|] eqn:Eq; cbn [from_option id]; [by right|left].
    split; [done|]. destruct (M !! x) as [v|] eqn:Ev; [exfalso|done].
    destruct (item_path _ _ _ _ _ x (Z.of_nat (S h)) K ltac:(eauto) ltac:(lia)) as [q E]. congruence.
Qed.

Lemma tag_get_ok s tabs M T R x t : radix_ok s tabs M T R -> tag_no t -> 0 <= x ->
  exists r, radix_tree_tag_get x t s = Done r /\ (r = true <-> (t, x) ∈ T).
Proof.
  intros K Ht Hx. pose proof (rk_height _ _ _ _ _ K) as HH. unfold radix_tree_tag_get.
  pose proof (rk_gfp _ _ _ _ _ K t Ht) as Hg. destruct (root_tag_get t s); cbn [negb].
  2:{ exists false. split; [done|]. split; [done|]. intros Hin. apply Hg. eauto. }
  destruct (proj1 Hg eq_refl) as [y Hy]. destruct (rk_tag _ _ _ _ _ K _ _ Hy) as [_ [w Ew]].
  destruct (rk_item _ _ _ _ _ K _ _ Ew) as ([Hw Hwe] & Hyr & Hy1). rewrite (rk_root _ _ _ _ _ K).
  destruct (Z.eqb_spec (r_height s) 0) as [E0|E0].
  - rewrite E0 in Hyr. change (2 ^ (6 * 0)) with 1 in Hyr. replace y with 0 in * by lia. rewrite Ew.
    cbn [from_option id]. rewrite (proj2 (Z.eqb_neq w 0) Hw). destruct (indirect_even _ Hwe) as [-> _]. cbn [negb].
    exists (x =? 0). split; [done|]. rewrite Z.eqb_eq. split; [by intros ->|]. intros Hin.
    destruct (rk_tag _ _ _ _ _ K _ _ Hin) as [_ [v Ev]]. destruct (rk_item _ _ _ _ _ K _ _ Ev) as (_ & Hr & _).
    rewrite E0 in Hr. change (2 ^ (6 * 0)) with 1 in Hr. lia.
  - destruct (item_path _ _ _ _ _ y (r_height s) K ltac:(eauto) ltac:(lia)) as [p Ep].
    rewrite pre_small in Ep by done. rewrite Ep.
    destruct (tab_nonzero _ _ _ _ _ _ _ K Ep) as [_ Hp]. destruct (indirect_inv _ Hp) as (-> & -> & Hnz).
    rewrite (proj2 (Z.eqb_neq _ 0) Hnz). cbn [negb].
    destruct (node_run _ _ _ _ _ _ _ _ K Ep) as (n & -> & Hn). ocbn.
    rewrite (no_height _ _ _ _ _ _ Hn), maxindex_ok by lia. ocbn.
    destruct (Z.ltb_spec (2 ^ (6 * r_height s) - 1) x).
    + exists false. split; [done|]. split; [done|]. intros Hin. destruct (rk_tag _ _ _ _ _ K _ _ Hin) as [_ [v Ev]].
      destruct (rk_item _ _ _ _ _ K _ _ Ev) as (_ & Hr & _). lia.
    + rewrite top_shift_eq by lia. destruct (Z.to_nat (r_height s)) as [|h] eqn:Eh; [lia|].
      assert (r_height s = Z.of_nat (S h)) as EH by lia. rewrite EH in *.
      apply (tag_get_loop_ok s tabs M T R x t K Ht h p); [lia|]. right. by rewrite pre_small by lia.
Qed.

(** The node [n] with a tag set. *)
Definition mark (t i : Z) (n : rnode) : rnode :=
  Rnode (n_height n) (n_count n) (n_slots n) (alter (fun w => Z.setbit w i) (Z.to_nat t) (n_tags n)).

Lemma mark_run t i n b : tag_get n t i = Done b -> 0 <= i ->
  (if negb b then tag_set n t i else Done n) = Done (mark t i n).
Proof.
  unfold tag_get, tag_set, mark. destruct (n_tags n !! Z.to_nat t) as [w|] eqn:E; [|done]. ocbn.
  intros [= <-] Hi. destruct (Z.testbit w i) eqn:Eb; cbn [negb].
  - destruct n as [h c sl tg]; cbn [n_height n_count n_slots n_tags] in *. do 2 f_equal. symmetry.
    apply list_eq. intros j. destruct (decide (j = Z.to_nat t)) as [->|]; [|by rewrite list_lookup_alter_ne].
    rewrite list_lookup_alter_eq, E. cbn. f_equal. apply Z.bits_inj'. intros k Hk.
    rewrite Z.setbit_eqb by lia. destruct (Z.eqb_spec i k) as [<-|]; [by rewrite Eb|done].
  - ocbn. do 2 f_equal. apply list_eq. intros j. destruct (decide (j = Z.to_nat t)) as [->|].
    + rewrite list_lookup_alter_eq, E. by rewrite list_lookup_insert_eq by (by eapply lookup_lt_Some).
    + by rewrite list_lookup_alter_ne, list_lookup_insert_ne.
Qed.

Lemma mark_get t i n t' i' r : tag_get n t' i' = Done r -> tag_no t -> tag_no t' -> 0 <= i -> 0 <= i' ->
  tag_get (mark t i n) t' i' = Done (r || ((t =? t') && (i =? i'))).
Proof.
  unfold tag_get, mark. cbn [n_tags]. destruct (n_tags n !! Z.to_nat t') as [w|] eqn:E; [|done]. ocbn.
  intros [= <-] Ht Ht' Hi Hi'. destruct (Z.eqb_spec t t') as [<-|Hne].
  - rewrite list_lookup_alter_eq, E. ocbn. cbn. ocbn. rewrite Z.setbit_eqb, orb_comm by lia. done.
  - rewrite list_lookup_alter_ne, E by (unfold tag_no in *; lia). ocbn. by rewrite orb_false_r.
Qed.

Lemma tag_set_loop_ok s0 tabs M T R x v t : radix_ok s0 tabs M T R -> M !! x = Some v -> tag_no t ->
  forall h p s, 1 <= Z.of_nat (S h) <= r_height s0 ->
  tabs !! (Z.of_nat (S h), pre (Z.of_nat (S h)) x) = Some p ->
  (forall l b p, tabs !! (l, b) = Some p -> l <= Z.of_nat (S h) -> r_nodes s !! p = r_nodes s0 !! p) ->
  exists s', tag_set_loop (S h) x t (6 * (Z.of_nat (S h) - 1)) p s = Done (v, s') /\
    r_height s' = r_height s /\ r_rnode s' = r_rnode s /\ r_gfp s' = r_gfp s /\ r_al s' = r_al s /\
    (forall l b p n, tabs !! (l, b) = Some p -> r_nodes s0 !! p = Some n -> l <= Z.of_nat (S h) ->
       r_nodes s' !! p = Some (if decide (b = pre l x) then mark t (offset_of x (6 * (l - 1))) n else n)) /\
    (forall l b p, tabs !! (l, b) = Some p -> Z.of_nat (S h) < l -> r_nodes s' !! p = r_nodes s !! p).
Proof.
  intros K Ev Ht. pose proof (rk_height _ _ _ _ _ K) as HH.
  induction h as [|h IH]; intros p s Hh Ep Hs;
    [set (l := Z.of_nat 1) in *|set (l := Z.of_nat (S (S h))) in *]; cbn [tag_set_loop].
  all: destruct (rk_node _ _ _ _ _ K _ _ _ Ep) as (n & En & Hn).
  all: rewrite (node_at_run s p n) by (rewrite (Hs _ _ _ Ep) by lia; done); ocbn.
  all: destruct (no_tags _ _ _ _ _ _ Hn t (offset_of x (6 * (l - 1))) Ht (offset_range _ _)) as (r & Er & _).
  all: rewrite Er; ocbn; rewrite (mark_run _ _ _ _ Er) by apply offset_range; ocbn.
  all: assert (forall i, slot_at (mark t i n) (offset_of x (6 * (l - 1))) = Done (child tabs M l (pre (l - 1) x))) as Hsl
    by (intros i; unfold slot_at, mark; cbn [n_slots]; rewrite pre_step by lia;
        apply (no_slots _ _ _ _ _ _ Hn), offset_range).
  all: rewrite Hsl; ocbn.
  - change l with 1 in *. change (1 - 1) with 0. unfold child. cbn [Z.eqb Pos.eqb]. rewrite pre_0, Ev.
    cbn [from_option id]. destruct (rk_item _ _ _ _ _ K _ _ Ev) as ([Hv _] & _).
    rewrite (proj2 (Z.eqb_neq v 0) Hv). ocbn. cbn [negb]. ocbn. eexists. split; [done|].
    cbn [r_height r_rnode r_gfp r_al r_nodes set_node]. split_and!; try done.
    + intros l' b' p' n' Et En' Hl'. destruct (rk_tab _ _ _ _ _ K _ _ _ Et) as [Hl1 _].
      assert (l' = 1) as -> by lia. case_decide as Hd.
      * subst b'. assert (p' = p) as -> by congruence. rewrite lookup_insert_eq.
        assert (n' = n) as -> by congruence. done.
      * rewrite lookup_insert_ne; [by rewrite (Hs _ _ _ Et) by lia|]. intros <-. apply Hd.
        pose proof (rk_inj _ _ _ _ _ K _ _ _ Et Ep) as [=]. done.
    + intros l' b' p' Et Hl'. rewrite lookup_insert_ne; [done|]. intros <-.
      pose proof (rk_inj _ _ _ _ _ K _ _ _ Et Ep) as [=]. lia.
  - destruct (item_path _ _ _ _ _ x (l - 1) K ltac:(eauto) ltac:(lia)) as [q Eq].
    unfold child. destruct (Z.eqb_spec l 1); [lia|]. rewrite Eq. cbn [from_option id].
    destruct (tab_nonzero _ _ _ _ _ _ _ K Eq) as [Hq _]. rewrite (proj2 (Z.eqb_neq q 0) Hq). cbn [negb]. ocbn.
    rewrite next_shift_eq by lia. replace (l - 1) with (Z.of_nat (S h)) in * by lia.
    destruct (IH q (set_node p (mark t (offset_of x (6 * Z.of_nat (S h))) n) s) ltac:(lia) Eq)
      as (s' & E' & H1 & H2 & H3 & H4 & H5 & H6).
    { intros l' b' p' Et Hl'. cbn [r_nodes set_node]. rewrite lookup_insert_ne; [by apply (Hs _ _ _ Et); lia|].
      intros <-. pose proof (rk_inj _ _ _ _ _ K _ _ _ Et Ep) as [=]. lia. }
    exists s'. split; [exact E'|]. split_and!; try done.
    + intros l' b' p' n' Et En' Hl'. destruct (decide (l' = l)) as [->|]; [|apply (H5 _ _ _ _ Et En'); lia].
      rewrite (H6 _ _ _ Et) by lia. cbn [r_nodes set_node]. case_decide as Hd.
      * subst b'. assert (p' = p) as -> by congruence. rewrite lookup_insert_eq.
        assert (n' = n) as -> by congruence. by replace (l - 1) with (Z.of_nat (S h)) by lia.
      * rewrite lookup_insert_ne; [by rewrite (Hs _ _ _ Et) by lia|]. intros <-. apply Hd.
        pose proof (rk_inj _ _ _ _ _ K _ _ _ Et Ep) as [=]. done.
    + intros l' b' p' Et Hl'. rewrite (H6 _ _ _ Et) by lia. cbn [r_nodes set_node]. rewrite lookup_insert_ne; [done|].
      intros <-. pose proof (rk_inj _ _ _ _ _ K _ _ _ Et Ep) as [=]. lia.
Qed.

Lemma tagged_add T t x t' l j : tagged ({[(t, x)]} ∪ T) t' l j <-> tagged T t' l j \/ (t' = t /\ pre l x = j).
Proof.
  unfold tagged. split.
  - intros (y & [Hy|Hy]%elem_of_union & Hp); [right|left; eauto].
    apply elem_of_singleton in Hy as [= -> ->]. done.
  - intros [(y & Hy & Hp)|[-> Hp]]; [exists y; split; [set_solver|done]|].
    exists x. split; [set_solver|done].
Qed.

Lemma node_ok_mark tabs M T l b n t x : node_ok tabs M T l b n -> tag_no t -> 1 <= l ->
  node_ok tabs M ({[(t, x)]} ∪ T) l b
    (if decide (b = pre l x) then mark t (offset_of x (6 * (l - 1))) n else n).
Proof.
  intros Hn Ht Hl. pose proof (offset_range x (6 * (l - 1))) as Ho. pose proof (pre_step l x Hl) as Hp.
  pose proof Hn as []. destruct (decide (b = pre l x)) as [->|Hne].
  - constructor; try done. intros t' i Ht' Hi. destruct (no_tags0 t' i Ht' Hi) as (r & Er & Hr).
    eexists. split; [apply mark_get; try done; lia|]. rewrite tagged_add, <- Hr, orb_true_iff, andb_true_iff, !Z.eqb_eq.
    split; intros [?|[? ?]]; [by left|right; lia|by left|right; lia].
  - eapply node_ok_same; [done|done|]. intros t' i Hi. rewrite tagged_add. split; [|by left].
    intros [?|[_ Hx]]; [done|exfalso]. apply Hne. lia.
Qed.

Lemma root_tag_set_get t t' s : tag_no t -> tag_no t' ->
  root_tag_get t' (root_tag_set t s) = root_tag_get t' s || (t =? t').
Proof.
  intros Ht Ht'. unfold root_tag_get, root_tag_set. cbn [r_gfp set_gfp].
  rewrite Z.setbit_eqb by (unfold tag_no, GFP_BITS_SHIFT in *; lia). rewrite orb_comm. f_equal.
  destruct (Z.eqb_spec (t + GFP_BITS_SHIFT) (t' + GFP_BITS_SHIFT)), (Z.eqb_spec t t'); lia || done.
Qed.

Lemma tag_set_ok s tabs M T R x v t : radix_ok s tabs M T R -> M !! x = Some v -> tag_no t ->
  exists s', radix_tree_tag_set x t s = Done (v, s') /\ radix_ok s' tabs M ({[(t, x)]} ∪ T) R /\ r_al s' = r_al s.
Proof.
  intros K Ev Ht. pose proof (rk_height _ _ _ _ _ K) as HH. unfold radix_tree_tag_set.
  destruct (rk_item _ _ _ _ _ K _ _ Ev) as ([Hv Hve] & Hx & _). rewrite maxindex_ok by lia. ocbn.
  destruct (Z.leb_spec x (2 ^ (6 * r_height s) - 1)); [|lia]. ocbn.
  assert (exists s1, tag_set_loop (Z.to_nat (r_height s)) x t (top_shift (r_height s))
      (radix_tree_indirect_to_ptr (r_rnode s)) s = Done (v, s1) /\
    r_height s1 = r_height s /\ r_rnode s1 = r_rnode s /\ r_gfp s1 = r_gfp s /\ r_al s1 = r_al s /\
    forall l b p n, tabs !! (l, b) = Some p -> r_nodes s !! p = Some n ->
      r_nodes s1 !! p = Some (if decide (b = pre l x) then mark t (offset_of x (6 * (l - 1))) n else n))
    as (s1 & -> & E1 & E2 & E3 & E4 & E5).
  { assert (radix_tree_indirect_to_ptr (r_rnode s) =
      if r_height s =? 0 then v else default 0 (tabs !! (r_height s, 0))) as ->.
    { rewrite (rk_root _ _ _ _ _ K). destruct (Z.eqb_spec (r_height s) 0) as [E0|E0].
      - rewrite E0 in Hx. change (2 ^ (6 * 0)) with 1 in Hx. assert (x = 0) as -> by lia. rewrite Ev.
        cbn [from_option id]. by destruct (indirect_even _ Hve) as [_ ->].
      - destruct (tabs !! (r_height s, 0)) as [p|] eqn:Ep; [|done].
        destruct (tab_nonzero _ _ _ _ _ _ _ K Ep) as [_ Hp]. by destruct (indirect_inv _ Hp) as (_ & -> & _). }
    destruct (Z.eqb_spec (r_height s) 0) as [E0|E0].
    - exists s. rewrite E0. cbn [Z.to_nat tag_set_loop].
      split_and!; try done. intros l b p n Et _. destruct (rk_tab _ _ _ _ _ K _ _ _ Et). lia.
    - destruct (item_path _ _ _ _ _ x (r_height s) K ltac:(eauto) ltac:(lia)) as [p Ep].
      pose proof Ep as Ep'. rewrite pre_small in Ep' by done. rewrite Ep'. cbn [from_option id].
      rewrite top_shift_eq by lia. destruct (Z.to_nat (r_height s)) as [|h] eqn:Eh; [lia|].
      assert (r_height s = Z.of_nat (S h)) as EH by lia.
      destruct (tag_set_loop_ok s tabs M T R x v t K Ev Ht h p s) as (s1 & E1 & H1 & H2 & H3 & H4 & H5 & _);
        [lia|by rewrite <- EH|done|].
      exists s1. rewrite EH at 1. split; [exact E1|]. split_and!; try done. intros l b q n Et En.
      apply (H5 _ _ _ _ Et En). destruct (rk_tab _ _ _ _ _ K _ _ _ Et). lia. }
  ocbn. rewrite (proj2 (Z.eqb_neq v 0) Hv). cbn [negb andb].
  set (s2 := if negb (root_tag_get t s1) then root_tag_set t s1 else s1).
  assert (forall t', tag_no t' -> root_tag_get t' s2 = root_tag_get t' s || (t =? t')) as Hg.
  { intros t' Ht'. assert (forall u, root_tag_get u s1 = root_tag_get u s) as Hs
      by (intros u; unfold root_tag_get; by rewrite E3).
    unfold s2. destruct (root_tag_get t s1) eqn:Er; cbn [negb]; [|by rewrite root_tag_set_get, Hs].
    rewrite Hs in *. destruct (Z.eqb_spec t t') as [<-|]; [by rewrite Er|by rewrite orb_false_r]. }
  assert (r_height s2 = r_height s /\ r_rnode s2 = r_rnode s /\ r_al s2 = r_al s /\ r_nodes s2 = r_nodes s1)
    as (F1 & F2 & F3 & F4) by (unfold s2; destruct (root_tag_get t s1); done).
  exists s2. split; [done|]. split; [|exact F3]. constructor; rewrite ?F1, ?F2, ?F3, ?F4; try apply K.
  - intros l b p Ep. destruct (rk_tab _ _ _ _ _ K _ _ _ Ep) as [Hl _].
    destruct (rk_node _ _ _ _ _ K _ _ _ Ep) as (n & En & Hn).
    eexists. split; [by apply (E5 _ _ _ _ Ep En)|]. apply node_ok_mark; [done|done|lia].
  - intros t' y [Hy|Hy]%elem_of_union; [|by eapply rk_tag].
    apply elem_of_singleton in Hy as [= -> ->]. eauto.
  - intros t' Ht'. rewrite Hg, orb_true_iff, Z.eqb_eq, (rk_gfp _ _ _ _ _ K t' Ht') by done. split.
    + intros [[y Hy]| ->]; [exists y|exists x]; set_solver.
    + intros [y [Hy|Hy]%elem_of_union]; [|eauto]. apply elem_of_singleton in Hy as [= -> ->]. by right.
Qed.

(** *** Indexes that do not fit *)

Lemma grow_height_overflow x : 2 ^ 30 <= x -> forall fuel h, 0 <= h <= 6 -> (Z.to_nat (6 - h) < fuel)%nat ->
  grow_height fuel x h = Undef.
Proof.
  intros Hx. induction fuel as [|fuel IH]; intros h Hh Hf; [lia|]. cbn [grow_height].
  destruct (Z.eq_dec h 6) as [->|]; [reflexivity|]. rewrite maxindex_ok by lia. ocbn.
  assert (2 ^ (6 * h) <= 2 ^ 30) by (apply Z.pow_le_mono_r; lia).
  destruct (Z.ltb_spec (2 ^ (6 * h) - 1) x); [|lia]. apply IH; lia.
Qed.
End theory.

(** ** The properties *)

Section properties.
Context {A : Type} `{!PageAlloc A, !PageAllocOk A}.
Implicit Types (s : rtree A) (M : gmap Z Z) (T : gset (Z * Z)).

(** C11.  The tree implements a finite map: inserting an item at an index below
    2^30 fails with -1 and no change when the index is taken, and otherwise adds
    exactly that item, whatever levels and nodes it has to create; the machine
    only stops when the allocator fails one of the next ten allocations. *)
Theorem radix_insert_spec s tabs M T R x v : radix_ok s tabs M T R -> 0 <= x < 2 ^ 30 -> item_ok v ->
  match M !! x with
  | Some _ => radix_tree_insert x v s = Done (-1, s)
  | None =>
      radix_tree_insert x v s = Panic /\ refused 10 s \/
      exists s' tabs' R', radix_tree_insert x v s = Done (0, s') /\ radix_ok s' tabs' (<[x := v]> M) T R'
  end.
Proof.
  intros K Hx Hv. pose proof (insert_ok s tabs M T R x v K Hx Hv) as H. destruct (M !! x); [done|].
  destruct H as [?|(s' & tabs' & R' & ? & ? & _)]; [by left|right]. by exists s', tabs', R'.
Qed.

(** [radix_tree_lookup_node] gives the item of the index, or NULL exactly
    when there is none, for any index. *)
Theorem radix_lookup_spec s tabs M T R x : radix_ok s tabs M T R -> 0 <= x ->
  radix_tree_lookup_node x s = Done (default 0 (M !! x)).
Proof.
  intros K Hx. destruct (lookup_element_ok s tabs M T R x K Hx) as (r & E & Hr).
  unfold radix_tree_lookup_node. rewrite E. ocbn. by rewrite Hr.
Qed.

(** Setting a tag of an item tags that item and no other: the tree with its
    aggregated tags stays well-formed, [radix_tree_tag_get] afterwards tells for
    every index and tag whether it is set, and every item stays where it was. *)
Theorem radix_tag_spec s tabs M T R x v t : radix_ok s tabs M T R -> M !! x = Some v -> tag_no t ->
  exists s', radix_tree_tag_set x t s = Done (v, s') /\ radix_ok s' tabs M ({[(t, x)]} ∪ T) R /\
    forall t' y, tag_no t' -> 0 <= y ->
      radix_tree_tag_get y t' s' = Done (bool_decide ((t', y) ∈ T \/ (t', y) = (t, x))).
Proof.
  intros K Ev Ht. destruct (tag_set_ok s tabs M T R x v t K Ev Ht) as (s' & E & K' & _).
  exists s'. split; [done|]. split; [done|]. intros t' y Ht' Hy.
  destruct (tag_get_ok s' tabs M _ R y t' K' Ht' Hy) as (r & -> & Hr). f_equal.
  apply eq_bool_prop_intro. rewrite !Is_true_true, bool_decide_eq_true, Hr. set_solver.
Qed.

(** An index of 2^30 or more cannot be inserted: the height that would hold
    it makes [radix_tree_maxindex] shift an [int] by more than its width. *)
Theorem radix_insert_overflow s tabs M T R x v : radix_ok s tabs M T R -> 2 ^ 30 <= x -> item_ok v ->
  radix_tree_insert x v s = Undef.
Proof.
  intros K Hx Hv. pose proof (rk_height _ _ _ _ _ K) as HH. unfold radix_tree_insert.
  destruct (indirect_even _ (proj2 Hv)) as [-> _]. ocbn. cbn [negb]. rewrite maxindex_ok by lia. ocbn.
  assert (2 ^ (6 * r_height s) <= 2 ^ 30) by (apply Z.pow_le_mono_r; lia).
  destruct (Z.ltb_spec (2 ^ (6 * r_height s) - 1) x); [|lia]. unfold radix_tree_extend.
  by rewrite (grow_height_overflow x Hx 12) by lia.
Qed.
End properties.

(** ** A concrete tree *)

Lemma radix_init_ok {A} `{!PageAlloc A, !PageAllocOk A} (s : rtree A) R mask : pa_rep (r_al s) R ->
  0 <= mask < 2 ^ 22 -> radix_ok (INIT_RADIX_TREE mask s) ∅ ∅ ∅ R.
Proof.
  intros Ha Hm. constructor; cbn [r_height r_rnode r_al r_nodes INIT_RADIX_TREE]; try done.
  intros t Ht. split; [|intros [x Hx]; by apply not_elem_of_empty in Hx].
  unfold root_tag_get. cbn [r_gfp INIT_RADIX_TREE]. intros Hb. exfalso.
  rewrite Z.testbit_true in Hb by (unfold tag_no, GFP_BITS_SHIFT in *; lia).
  rewrite Z.div_small in Hb; [done|]. split; [lia|]. eapply Z.lt_le_trans; [apply Hm|].
  apply Z.pow_le_mono_r; unfold tag_no, GFP_BITS_SHIFT in *; lia.
Qed.

(** An empty tree on the allocator with three spare pages, and the tree with one
  item at index 0. *)
Definition demo_root : rtree (gmap Z (Z * Z)) := RT 0 0 0 ∅ ∅.

Lemma demo_root_ok : radix_ok (A := spare) demo_root ∅ ∅ ∅ ∅.
Proof. apply (radix_init_ok (A := spare) demo_root ∅ 0); [|lia]. split; [reflexivity|]. intros p o n E. discriminate E. Qed.

Lemma demo_item : item_ok 0x1000.
Proof. split; [lia|reflexivity]. Qed.

Lemma demo_one : exists (s : rtree spare) tabs R, radix_ok s tabs {[0 := 0x1000]} ∅ R.
Proof.
  pose proof (insert_ok demo_root ∅ ∅ ∅ ∅ 0 0x1000 demo_root_ok ltac:(lia) demo_item) as H.
  rewrite lookup_empty in H. destruct H as [[E _]|(s' & tabs' & R' & _ & K & _)]; [discriminate E|].
  exists s', tabs', R'. exact K.
Qed.

Lemma radix_insert_spec_witness : exists (s' : rtree spare) tabs R,
  radix_tree_insert 5 0x2000 demo_root = Done (0, s') /\ radix_ok s' tabs {[5 := 0x2000]} ∅ R.
Proof.
  pose proof (radix_insert_spec demo_root ∅ ∅ ∅ ∅ 5 0x2000 demo_root_ok ltac:(lia)
    (conj (ltac:(lia) : 0x2000 <> 0) eq_refl)) as H.
  rewrite lookup_empty in H. destruct H as [[E _]|(s' & tabs' & R' & E & K)].
  - vm_compute in E. discriminate E.
  - exists s', tabs', R'. exact (conj E K).
Defined.

Lemma radix_lookup_spec_witness : exists (s : rtree spare), radix_tree_lookup_node 0 s = Done 0x1000.
Proof.
  destruct demo_one as (s & tabs & R & K). exists s.
  rewrite (radix_lookup_spec s tabs _ _ R 0 K ltac:(lia)). reflexivity.
Defined.

Lemma radix_tag_spec_witness : exists (s s' : rtree spare),
  radix_tree_tag_set 0 1 s = Done (0x1000, s') /\ radix_tree_tag_get 0 1 s' = Done true /\
  radix_tree_tag_get 0 0 s' = Done false.
Proof.
  destruct demo_one as (s & tabs & R & K). exists s.
  destruct (radix_tag_spec s tabs {[0 := 0x1000]} ∅ R 0 0x1000 1 K) as (s' & E & _ & H).
  - reflexivity.
  - right. reflexivity.
  - exists s'. split; [exact E|]. split.
    + rewrite (H 1 0 (or_intror eq_refl) ltac:(lia)). reflexivity.
    + rewrite (H 0 0 (or_introl eq_refl) ltac:(lia)). reflexivity.
Defined.

Lemma radix_insert_overflow_witness : radix_tree_insert (2 ^ 30) 0x1000 demo_root = Undef.
Proof. exact (radix_insert_overflow demo_root ∅ ∅ ∅ ∅ (2 ^ 30) 0x1000 demo_root_ok ltac:(lia) demo_item). Defined.
