(* ===== verification/Gang.v ===== *)
(** * Gang: looking up many items of a radix tree

    The theory of [radix_tree_lookup_batch_elements] and
    [radix_tree_general_gang_lookup_elements] ([src/lib/radix-tree.c], defined in [Radix]): without a
    limit they pass over the items of the tree in the order of their indexes. *)

From stdpp Require Import base gmap sets list fin_maps sorting.
From Stdlib Require Import ZArith Lia.
From S2P Require Import Prelude Buddy Kalloc PageAlloc Radix.
#[local] Open Scope Z_scope.

(** ** The items of a range *)

(** The item at an index, when it has the tag looked for. *)
Definition item_at (M : gmap Z Z) (T : gset (Z * Z)) (tag : option Z) (x : Z) : list (Z * Z) :=
  match M !! x with
  | Some v => if match tag with Some t => bool_decide ((t, x) ∈ T) | None => true end then [(v, x)] else []
  | None => []
  end.

Definition items_in M T tag (a b : Z) : list (Z * Z) := seqZ a (b - a) ≫= item_at M T tag.

Lemma items_in_app M T tag a b c : a <= b <= c -> items_in M T tag a c = items_in M T tag a b ++ items_in M T tag b c.
Proof.
  intros H. unfold items_in. rewrite <- bind_app. f_equal.
  replace (c - a) with ((b - a) + (c - b)) by lia. rewrite seqZ_app by lia. do 2 f_equal. lia.
Qed.

Lemma items_in_empty M T tag a b : b <= a -> items_in M T tag a b = [].
Proof. intros H. unfold items_in. by rewrite seqZ_nil by lia. Qed.

Lemma items_in_one M T tag a : items_in M T tag a (a + 1) = item_at M T tag a.
Proof.
  unfold items_in. replace (a + 1 - a) with 1 by lia. rewrite seqZ_cons, seqZ_nil by lia. cbn. apply app_nil_r.
Qed.

Lemma item_at_elem M T tag x y : y ∈ item_at M T tag x <->
  y.2 = x /\ M !! x = Some y.1 /\ match tag with Some t => (t, x) ∈ T | None => True end.
Proof.
  unfold item_at. destruct y as [v z]. destruct (M !! x) as [w|]; [|set_solver].
  destruct tag as [t|]; [case_bool_decide|]; set_solver.
Qed.

Lemma items_in_elem M T tag a b y : y ∈ items_in M T tag a b <->
  a <= y.2 < b /\ M !! y.2 = Some y.1 /\ match tag with Some t => (t, y.2) ∈ T | None => True end.
Proof.
  unfold items_in. rewrite list_elem_of_bind. setoid_rewrite item_at_elem. setoid_rewrite elem_of_seqZ.
  split; [intros (x & (<- & ? & ?) & ?); split; [lia|done]|intros (? & ? & ?)]. exists y.2. split; [done|lia].
Qed.

Lemma items_in_none M T tag a b :
  (forall x, a <= x < b -> is_Some (M !! x) -> match tag with Some t => (t, x) ∉ T | None => False end) ->
  items_in M T tag a b = [].
Proof.
  intros H. apply elem_of_nil_inv. intros y Hy. apply items_in_elem in Hy as (Hr & Hv & Ht).
  specialize (H _ Hr ltac:(eauto)). by destruct tag.
Qed.

Lemma items_in_length M T tag a b : a <= b -> Z.of_nat (length (items_in M T tag a b)) <= b - a.
Proof.
  intros H. remember (Z.to_nat (b - a)) as n eqn:En. revert a H En. induction n as [|n IH]; intros a H En.
  - rewrite items_in_empty by lia. cbn. lia.
  - rewrite (items_in_app _ _ _ a (a + 1) b), length_app, items_in_one by lia. specialize (IH (a + 1) ltac:(lia) ltac:(lia)).
    assert (length (item_at M T tag a) <= 1)%nat; [|lia].
    unfold item_at. destruct (M !! a); [|cbn; lia]. destruct (match tag with Some _ => _ | None => _ end); cbn; lia.
Qed.

Lemma items_in_sorted M T tag a b : StronglySorted Z.lt (items_in M T tag a b).*2.
Proof.
  remember (Z.to_nat (b - a)) as n eqn:En. revert a En. induction n as [|n IH]; intros a En.
  - rewrite items_in_empty by lia. constructor.
  - rewrite (items_in_app _ _ _ a (a + 1) b), items_in_one, fmap_app by lia. specialize (IH (a + 1) ltac:(lia)).
    unfold item_at. destruct (M !! a) as [v|]; [|done]. destruct (match tag with Some _ => _ | None => _ end); [|done].
    cbn. constructor; [done|]. apply Forall_forall. intros x (y & -> & Hy)%list_elem_of_fmap.
    apply items_in_elem in Hy. lia.
Qed.

(** ** One batch *)

Section gang.
Context {A : Type} `{!PageAlloc A, !PageAllocOk A}.
Context (s : rtree A) (tabs : gmap (Z * Z) Z) (M : gmap Z Z) (T : gset (Z * Z)) (R : gmap Z (Z * Z)).
Context (tag : option Z).
Hypothesis (K : radix_ok s tabs M T R).
Hypothesis (Htag : forall t, tag = Some t -> tag_no t).

Notation items := (items_in M T tag).

(** The last index below a node. *)
Definition node_end (l b : Z) : Z := (b + 1) * 2 ^ (6 * l).

Lemma pre_bounds l x : 0 <= l -> pre l x * 2 ^ (6 * l) <= x < node_end l (pre l x).
Proof.
  intros Hl. unfold pre, node_end. pose proof (Z.pow_pos_nonneg 2 (6 * l) ltac:(lia) ltac:(lia)).
  pose proof (Z.div_mod x (2 ^ (6 * l)) ltac:(lia)). pose proof (Z.mod_pos_bound x (2 ^ (6 * l)) ltac:(lia)). lia.
Qed.

Lemma pre_unique l x b : 0 <= l -> b * 2 ^ (6 * l) <= x < node_end l b -> pre l x = b.
Proof.
  intros Hl Hx. unfold pre, node_end in *. symmetry. apply Z.div_unique with (x - b * 2 ^ (6 * l)); lia.
Qed.

Lemma node_end_up l b : 1 <= l -> node_end (l - 1) (64 * b + 63) = node_end l b.
Proof.
  intros Hl. unfold node_end. replace (6 * l) with (6 * (l - 1) + 6) by lia. rewrite Z.pow_add_r by lia.
  change (2 ^ 6) with 64. lia.
Qed.

(** What a wanted slot means for the items below it. *)
Lemma wanted_ok l b n i : 1 <= l <= r_height s -> node_ok tabs M T l b n -> 0 <= i < 64 ->
  exists r, wanted tag n i = Done r /\
    (r = false -> items ((64 * b + i) * 2 ^ (6 * (l - 1))) (node_end (l - 1) (64 * b + i)) = []) /\
    (r = true -> child tabs M l (64 * b + i) <> 0).
Proof.
  intros Hl Hn Hi. pose proof (rk_height _ _ _ _ _ K). unfold wanted.
  assert (forall x, is_Some (M !! x) -> pre (l - 1) x = 64 * b + i -> child tabs M l (64 * b + i) <> 0) as Hch.
  { intros x Hx Ep. unfold child. destruct (Z.eqb_spec l 1) as [->|].
    - change (1 - 1) with 0 in Ep. rewrite pre_0 in Ep. subst x. destruct Hx as [v Ev]. rewrite Ev. cbn.
      apply (rk_item _ _ _ _ _ K _ _ Ev).
    - destruct (item_path _ _ _ _ _ x (l - 1) K Hx ltac:(lia)) as [q Eq]. rewrite Ep in Eq. rewrite Eq. cbn.
      by destruct (tab_nonzero _ _ _ _ _ _ _ K Eq). }
  destruct tag as [t|] eqn:Etag.
  - destruct (no_tags _ _ _ _ _ _ Hn t i (Htag t eq_refl) Hi) as (r & -> & Hr). exists r. split; [done|]. split.
    + intros ->. apply items_in_none. intros x Hx _ Hin. apply pre_unique in Hx; [|lia].
      assert (false = true); [|done]. apply Hr. by exists x.
    + intros ->. destruct (proj1 Hr eq_refl) as (x & Hx & Ep). destruct (rk_tag _ _ _ _ _ K _ _ Hx) as [_ HM]. eauto.
  - rewrite (no_slots _ _ _ _ _ _ Hn i Hi). ocbn. eexists. split; [done|]. split.
    + intros E%negb_false_iff%Z.eqb_eq. apply items_in_none. intros x Hx HM. apply pre_unique in Hx; [|lia]. by apply (Hch x).
    + intros E%negb_true_iff%Z.eqb_neq. done.
Qed.

Lemma node_bound l b p : tabs !! (l, b) = Some p -> 0 <= b /\ node_end l b <= 2 ^ (6 * r_height s) <= 2 ^ 30.
Proof.
  intros Ep. destruct (rk_tab _ _ _ _ _ K _ _ _ Ep) as (Hl & Hb & _). pose proof (rk_height _ _ _ _ _ K).
  split; [lia|]. split; [|apply Z.pow_le_mono_r; lia]. unfold node_end.
  replace (6 * r_height s) with (6 * (r_height s - l) + 6 * l) by lia. rewrite Z.pow_add_r by lia.
  apply Z.mul_le_mono_nonneg_r; [apply Z.pow_nonneg|]; lia.
Qed.

(** The step to the next child: its first index. *)
Lemma next_index l x : 0 <= l -> 0 <= x -> node_end l (pre l x) < 2 ^ 64 ->
  u64 (Z.ldiff x (Z.shiftl 1 (6 * l) - 1) + Z.shiftl 1 (6 * l)) = node_end l (pre l x).
Proof.
  intros Hl Hx Hlt. rewrite Z.shiftl_mul_pow2, Z.mul_1_l by lia.
  replace (2 ^ (6 * l) - 1) with (Z.ones (6 * l)) by (rewrite Z.ones_equiv; lia).
  rewrite Z.ldiff_ones_r, Z.shiftl_mul_pow2, Z.shiftr_div_pow2 by lia. fold (pre l x).
  replace (pre l x * 2 ^ (6 * l) + 2 ^ (6 * l)) with (node_end l (pre l x)) by (unfold node_end; lia).
  pose proof (pre_bounds l x Hl). rewrite u64_small; [done|lia].
Qed.

Lemma next_slot_ok l b p n : tabs !! (l, b) = Some p -> node_ok tabs M T l b n -> forall fuel x i,
  0 <= i < 64 -> pre (l - 1) x = 64 * b + i -> 64 - i <= Z.of_nat fuel ->
  exists r x', next_slot fuel tag n (6 * (l - 1)) x i = Done (r, x') /\ x <= x' /\ items x x' = [] /\
    match r with
    | Some j => 0 <= j < 64 /\ pre (l - 1) x' = 64 * b + j /\ child tabs M l (64 * b + j) <> 0
    | None => x < x' /\ x' = node_end l b
    end.
Proof.
  intros Ep Hn. destruct (rk_tab _ _ _ _ _ K _ _ _ Ep) as (Hl & _). destruct (node_bound _ _ _ Ep) as (Hb & Hb1 & Hb2).
  induction fuel as [|fuel IH]; intros x i Hi Hx Hf; [lia|]. cbn [next_slot].
  destruct (wanted_ok l b n i Hl Hn Hi) as (r & -> & Hr0 & Hr1). ocbn. destruct r.
  { exists (Some i), x. split; [done|]. split; [lia|]. split; [by rewrite items_in_empty by lia|]. auto. }
  specialize (Hr0 eq_refl). pose proof (pre_bounds (l - 1) x ltac:(lia)) as Hxb. rewrite Hx in Hxb.
  assert (0 <= x) as Hx0.
  { pose proof (Z.pow_nonneg 2 (6 * (l - 1)) ltac:(lia)). nia. }
  assert (node_end (l - 1) (64 * b + i) <= node_end l b) as He.
  { rewrite <- (node_end_up l b) by lia. unfold node_end. apply Z.mul_le_mono_nonneg_r; [apply Z.pow_nonneg|]; lia. }
  rewrite next_index by (rewrite ?Hx; lia). rewrite Hx. set (x' := node_end (l - 1) (64 * b + i)) in *.
  assert (items x x' = []) as Hnil.
  { rewrite (items_in_app _ _ _ _ x) in Hr0 by lia. by apply app_eq_nil in Hr0 as [_ ?]. }
  rewrite (proj2 (Z.eqb_neq x' 0)) by lia. change RADIX_TREE_MAP_SIZE with 64. destruct (Z.eqb_spec (i + 1) 64) as [E|E].
  - exists None, x'. split; [done|]. split; [lia|]. split; [done|]. split; [lia|]. rewrite <- (node_end_up l b) by lia.
    unfold x'. do 2 f_equal. lia.
  - destruct (IH x' (i + 1)) as (r & y & -> & Hy & Hnil' & Hr); [lia| |lia|].
    { apply pre_unique; [lia|]. unfold x', node_end. pose proof (Z.pow_pos_nonneg 2 (6 * (l - 1)) ltac:(lia) ltac:(lia)). lia. }
    exists r, y. split; [done|]. split; [lia|]. split.
    + rewrite (items_in_app _ _ _ x x' y), Hnil, Hnil' by lia. done.
    + destruct r; [done|]. lia.
Qed.

Lemma grab_ok b p n : tabs !! (1, b) = Some p -> node_ok tabs M T 1 b n -> forall fuel i nr max,
  i + Z.of_nat fuel = 64 -> 0 <= i -> 0 <= nr -> nr + Z.of_nat fuel < max ->
  grab fuel tag n i (64 * b + i) nr max = Done (items (64 * b + i) (64 * b + 64), 64 * b + 64).
Proof.
  intros Ep Hn. destruct (rk_tab _ _ _ _ _ K _ _ _ Ep) as (Hl & _). destruct (node_bound _ _ _ Ep) as (Hb & Hb1 & Hb2).
  unfold node_end in Hb1. change (2 ^ (6 * 1)) with 64 in Hb1.
  induction fuel as [|fuel IH]; intros i nr max Hf Hi Hnr Hmax; cbn [grab].
  { rewrite items_in_empty by lia. do 2 f_equal. lia. }
  rewrite !u64_small by lia. set (x := 64 * b + i) in *. rewrite (items_in_app _ _ _ x (x + 1)), items_in_one by lia.
  replace (x + 1) with (64 * b + (i + 1)) by lia.
  assert (match tag with Some t => tag_get n t i | None => Done true end =
    Done (match tag with Some t => bool_decide ((t, x) ∈ T) | None => true end)) as ->.
  { destruct tag as [t|]; [|done]. destruct (no_tags _ _ _ _ _ _ Hn t i (Htag t eq_refl) ltac:(lia)) as (r & -> & Hr).
    change (1 - 1) with 0 in Hr. rewrite tagged_leaf in Hr. f_equal.
    case_bool_decide as E; destruct r; [done| | |done]; [by apply Hr in E|by destruct (E (proj1 Hr eq_refl))]. }
  ocbn. unfold item_at. set (c := match tag with Some t => _ | None => true end). destruct c eqn:Ec; cbn [negb].
  2:{ rewrite IH by lia. by destruct (M !! x). }
  rewrite (no_slots _ _ _ _ _ _ Hn) by lia. ocbn. unfold child. cbn [Z.eqb Pos.eqb]. fold x.
  destruct (M !! x) as [v|] eqn:Ev; cbn [from_option id Z.eqb]; [|by rewrite IH by lia].
  destruct (rk_item _ _ _ _ _ K _ _ Ev) as ([Hv _] & _). rewrite (proj2 (Z.eqb_neq v 0) Hv).
  rewrite (proj2 (Z.eqb_neq (nr + 1) max)) by lia. rewrite IH by lia. ocbn.
  by replace (64 * b + (i + 1) - 1) with x by lia.
Qed.

Lemma land_mask x b i : x = 64 * b + i -> 0 <= i < 64 -> Z.land x RADIX_TREE_MAP_MASK = i.
Proof.
  intros -> Hi. change RADIX_TREE_MAP_MASK with (Z.ones 6). rewrite Z.land_ones by lia. change (2 ^ 6) with 64.
  symmetry. apply Z.mod_unique with b; lia.
Qed.

(** At a leaf. *)
Lemma grab_here b p n x max : tabs !! (1, b) = Some p -> node_ok tabs M T 1 b n -> pre 1 x = b -> 64 < max ->
  grab (Z.to_nat (RADIX_TREE_MAP_SIZE - Z.land x RADIX_TREE_MAP_MASK)) tag n (Z.land x RADIX_TREE_MAP_MASK) x 0 max =
  Done (items x (64 * b + 64), 64 * b + 64) /\ x < 64 * b + 64.
Proof.
  intros Ep Hn Hx Hmax. pose proof (pre_bounds 1 x ltac:(lia)) as Hb. rewrite Hx in Hb. unfold node_end in Hb.
  change (2 ^ (6 * 1)) with 64 in Hb. assert (exists i, x = 64 * b + i) as [i ->] by (exists (x - 64 * b); lia).
  rewrite (land_mask _ b i) by lia. change RADIX_TREE_MAP_SIZE with 64.
  split; [|lia]. eapply grab_ok; eauto; lia.
Qed.

Lemma batch_loop_ok max : 64 < max -> forall h l p x,
  Z.of_nat h = match tag with Some _ => l | None => l - 1 end -> 1 <= l -> 0 <= x -> tabs !! (l, pre l x) = Some p ->
  exists x', batch_loop h tag p (6 * (l - 1)) x max s = Done (items x x', x') /\ x < x' <= node_end l (pre l x).
Proof.
  intros Hmax. induction h as [|h IH]; intros l p x Hh Hl Hx Ep; cbn [batch_loop];
    destruct (node_run _ _ _ _ _ _ _ _ K Ep) as (n & -> & Hn); ocbn.
  - assert (l = 1) as -> by (destruct tag; lia). destruct (grab_here _ _ _ x max Ep Hn eq_refl Hmax) as [-> Hlt].
    eexists. split; [done|]. unfold node_end. change (2 ^ (6 * 1)) with 64. lia.
  - destruct (rk_tab _ _ _ _ _ K _ _ _ Ep) as (Hlh & _). pose proof (rk_height _ _ _ _ _ K).
    set (b := pre l x) in *.
    destruct (next_slot_ok l b p n Ep Hn (Z.to_nat RADIX_TREE_MAP_SIZE) x (offset_of x (6 * (l - 1)))) as (r & y & -> & Hy & Hnil & Hr).
    { apply offset_range. } { by apply pre_step. } { pose proof (offset_range x (6 * (l - 1))). change RADIX_TREE_MAP_SIZE with 64. lia. }
    ocbn. destruct r as [j|]; [|destruct Hr as [Hlt ->]; exists (node_end l b); rewrite Hnil; split; [done|lia]].
    destruct Hr as (Hj & Epy & Hch).
    assert (pre l y = b) as Eb.
    { replace l with (l - 1 + 1) by lia. rewrite pre_up, Epy by lia. symmetry. apply Z.div_unique with j; lia. }
    destruct (Z.eq_dec l 1) as [->|Hl1].
    + assert (h = O) as -> by (destruct tag; lia).
      destruct (grab_here b p n y max Ep Hn Eb Hmax) as [Eg Hlt]. destruct tag as [t|]; [|lia]. rewrite Eg. exists (64 * b + 64). split.
      * rewrite (items_in_app _ _ _ x y), Hnil by lia. done.
      * unfold node_end. change (2 ^ (6 * 1)) with 64. lia.
    + assert (match tag, h with Some _, O => false | _, _ => true end = true) as Hdown by (destruct tag, h; try done; lia).
      unfold child in Hch. destruct (Z.eqb_spec l 1); [done|]. destruct (tabs !! (l - 1, 64 * b + j)) as [q|] eqn:Eq; [|done].
      destruct (IH (l - 1) q y) as (z & Ez & Hz); [destruct tag; lia|lia|lia|by rewrite Epy|]. exists z.
      assert (Done (items y z, z) = (next ← slot_at n j; if next =? 0 then Done ([], y) else
        batch_loop h tag next (u32 (6 * (l - 1) - RADIX_TREE_MAP_SHIFT)) y max s)) as Erec.
      { rewrite (no_slots _ _ _ _ _ _ Hn j Hj). ocbn. unfold child. destruct (Z.eqb_spec l 1); [done|]. rewrite Eq. cbn [from_option id].
        destruct (tab_nonzero _ _ _ _ _ _ _ K Eq) as [Hq _]. rewrite (proj2 (Z.eqb_neq q 0) Hq), next_shift_eq by lia. done. }
      rewrite Epy in Hz. assert (node_end (l - 1) (64 * b + j) <= node_end l b) as He.
      { rewrite <- (node_end_up l b) by lia. unfold node_end. apply Z.mul_le_mono_nonneg_r; [apply Z.pow_nonneg|]; lia. }
      split; [|lia]. rewrite (items_in_app _ _ _ x y z), Hnil, app_nil_l by lia. rewrite Erec. by destruct tag, h.
Qed.

(** ** All batches *)

Lemma gang_loop_ok p : 1 <= r_height s -> tabs !! (r_height s, 0) = Some p -> forall fuel x ret,
  0 <= x -> (Z.to_nat (2 ^ (6 * r_height s) - x) < fuel)%nat -> 0 <= ret <= x ->
  gang_loop fuel p (2 ^ (6 * r_height s) - 1) x ret maxitems_invald tag s = Done (items x (2 ^ (6 * r_height s))).
Proof.
  intros HH Ep. pose proof (rk_height _ _ _ _ _ K). destruct (node_bound _ _ _ Ep) as (_ & Hb).
  assert (node_end (r_height s) 0 = 2 ^ (6 * r_height s)) as Hend by (unfold node_end; lia).
  set (e := 2 ^ (6 * r_height s)) in *. unfold maxitems_invald.
  induction fuel as [|fuel IH]; intros x ret Hx Hf Hr; cbn [gang_loop].
  { lia. }
  destruct (Z.ltb_spec (e - 1) x); [|].
  { destruct (negb _); by rewrite items_in_empty by lia. }
  destruct (Z.ltb_spec ret (2 ^ 64 - 1)); [|lia]. cbn [negb].
  unfold radix_tree_lookup_batch_elements. destruct (node_run _ _ _ _ _ _ _ _ K Ep) as (n & -> & Hn). ocbn.
  rewrite (no_height _ _ _ _ _ _ Hn), (proj2 (Z.eqb_neq (r_height s) 0)), top_shift_eq, u64_small by lia.
  assert (pre (r_height s) x = 0) as Ex by (apply pre_small; lia).
  destruct (batch_loop_ok (2 ^ 64 - 1 - ret) ltac:(lia) (Z.to_nat (r_height s - match tag with Some _ => 0 | None => 1 end)) (r_height s) p x)
    as (x' & -> & Hx'); [destruct tag; lia|lia|lia|by rewrite Ex|]. rewrite Ex in Hx'. ocbn.
  rewrite (proj2 (Z.eqb_neq x' 0)) by lia. cbn [negb Z.eqb]. rewrite Z.eqb_refl. cbn [negb].
  pose proof (items_in_length M T tag x x' ltac:(lia)). rewrite IH by lia. ocbn. by rewrite <- items_in_app by lia.
Qed.
End gang.

(** The items from [first] on, all of them, by index. *)
Lemma gang_ok {A} `{!PageAlloc A, !PageAllocOk A} (s : rtree A) tabs M T R tag first : radix_ok s tabs M T R ->
  (forall t, tag = Some t -> tag_no t) -> 0 <= first ->
  radix_tree_general_gang_lookup_elements first maxitems_invald tag s = Done (items_in M T tag first (2 ^ (6 * r_height s))).
Proof.
  intros K Ht Hf. pose proof (rk_height _ _ _ _ _ K) as HH. unfold radix_tree_general_gang_lookup_elements.
  assert (match tag with Some t => negb (root_tag_get t s) | None => false end = true -> items_in M T tag first (2 ^ (6 * r_height s)) = []) as Hroot.
  { intros E. apply items_in_none. intros x _ _. destruct tag as [t|]; [|done]. intros Hin.
    rewrite (proj2 (rk_gfp _ _ _ _ _ K t (Ht t eq_refl))) in E by eauto. done. }
  destruct (match tag with Some t => _ | None => _ end) eqn:Er; [by rewrite Hroot|clear Hroot].
  rewrite (rk_root _ _ _ _ _ K). destruct (Z.eqb_spec (r_height s) 0) as [E0|E0].
  - rewrite E0. change (2 ^ (6 * 0)) with 1. destruct (M !! 0) as [v|] eqn:Ev; cbn [from_option id].
    + destruct (rk_item _ _ _ _ _ K _ _ Ev) as ([Hv Hve] & _). rewrite (proj2 (Z.eqb_neq v 0) Hv).
      destruct (indirect_even _ Hve) as [-> _]. cbn [negb]. destruct (Z.ltb_spec 0 first); [by rewrite items_in_empty by lia|].
      assert (first = 0) as -> by lia. change 1 with (0 + 1). rewrite items_in_one. unfold item_at. rewrite Ev.
      destruct tag as [t|]; [|done]. apply negb_false_iff in Er. apply (rk_gfp _ _ _ _ _ K t (Ht t eq_refl)) in Er as [x Hx].
      destruct (rk_tag _ _ _ _ _ K _ _ Hx) as [_ [w Ew]]. destruct (rk_item _ _ _ _ _ K _ _ Ew) as (_ & Hr & _).
      rewrite E0 in Hr. change (2 ^ (6 * 0)) with 1 in Hr. assert (x = 0) as -> by lia. by rewrite bool_decide_eq_true_2.
    + cbn [Z.eqb]. rewrite items_in_none; [done|]. intros x Hx [w Ew]. assert (x = 0) as -> by lia. congruence.
  - destruct (tabs !! (r_height s, 0)) as [p|] eqn:Ep.
    2:{ cbn [Z.eqb]. rewrite items_in_none; [done|]. intros x Hx HM. exfalso.
        destruct (item_path _ _ _ _ _ x (r_height s) K HM ltac:(lia)) as [q Eq]. rewrite pre_small in Eq by lia. congruence. }
    destruct (tab_nonzero _ _ _ _ _ _ _ K Ep) as [_ Hp]. destruct (indirect_inv _ Hp) as (-> & -> & Hnz).
    rewrite (proj2 (Z.eqb_neq _ 0) Hnz). cbn [negb]. destruct (node_run _ _ _ _ _ _ _ _ K Ep) as (n & -> & Hn). ocbn.
    rewrite (no_height _ _ _ _ _ _ Hn), maxindex_ok by lia. ocbn.
    apply gang_loop_ok with tabs R; try done; lia.
Qed.

(** C40. Without a limit the gang lookup calls the function for exactly the items from the first index
    on - with a tag, for those that have it - in the order of their indexes. *)
Theorem gang_lookup_spec {A} `{!PageAlloc A, !PageAllocOk A} (s : rtree A) tabs M T R tag first : radix_ok s tabs M T R ->
  match tag with Some t => tag_no t | None => True end -> 0 <= first ->
  exists found, radix_tree_general_gang_lookup_elements first maxitems_invald tag s = Done found /\ StronglySorted Z.lt found.*2 /\
    forall v x, (v, x) ∈ found <-> first <= x /\ M !! x = Some v /\ match tag with Some t => (t, x) ∈ T | None => True end.
Proof.
  intros K Ht Hf. eexists. split; [apply (gang_ok _ _ _ _ _ _ _ K)|]; [by intros t ->|done|]. split; [apply items_in_sorted|].
  intros v x. rewrite items_in_elem. cbn [fst snd]. split; [intros (? & ? & ?); split; [lia|done]|].
  intros (? & Hx & ?). split; [|done]. split; [done|]. by destruct (rk_item _ _ _ _ _ K _ _ Hx) as (_ & [_ ?] & _).
Qed.

(** A tree with one item. *)
Lemma gang_lookup_spec_witness : exists (s : rtree spare), radix_tree_general_gang_lookup_elements 0 maxitems_invald None s = Done [(0x1000, 0)].
Proof.
  destruct demo_one as (s & tabs & R & K). exists s.
  destruct (gang_lookup_spec s tabs _ ∅ R None 0 K I ltac:(lia)) as (found & -> & Hs & Hin).
  assert (forall y, y ∈ found <-> y = (0x1000, 0)) as Hy.
  { intros [v x]. rewrite Hin, lookup_singleton_Some. split; [intros (_ & [<- <-] & _); done|intros [= -> ->]; done]. }
  f_equal. destruct found as [|y found]; [by pose proof (proj2 (Hy (0x1000, 0)) eq_refl) as ?%not_elem_of_nil|].
  assert (y = (0x1000, 0)) as -> by (apply Hy; left). f_equal. destruct found as [|z found]; [done|].
  assert (z = (0x1000, 0)) as -> by (apply Hy; right; left). cbn in Hs. apply StronglySorted_inv in Hs as [_ Hs].
  apply Forall_cons_1 in Hs as [Hs _]. lia.
Defined.
