(* ===== verification/Hash.v ===== *)
(** * Hash: the chained hash tables of [src/lib/hash.c]

    One table type serves the process, thread, IPC, futex and directory-cache
    tables.  A table is an array of list heads; the nodes are kmalloc'ed and
    hold a key, a value and their links.  The theorems show that a table is a
    finite map from keys to values for the integer and pointer keys, and that
    for file names it only distinguishes their 64-bit hashes. *)

From stdpp Require Import base gmap sets list fin_maps.
From Stdlib Require Import ZArith Lia.
From S2P Require Import Prelude KList Buddy Kalloc PageAlloc.
#[local] Open Scope Z_scope.

(** ** Data *)

Inductive hash_type := PID_MAP | TID_MAP | IPC_IDX_MAP | FUTEX_MAP | INODE_MAP.

#[export] Instance hash_type_eq_dec : EqDecision hash_type.
Proof. solve_decision. Defined.

(** The union of [struct hash_node] and the argument [key] of the routines, with
    what it points to: an [int], a pointer compared as such, or the bytes of a
    C string before its NUL. *)
Inductive hkey :=
  | KId (key_id : Z)
  | KPtr (key_p : Z)
  | KName (key_name : list Z).

Record hash_node := HNode { hn_key : hkey; hn_value : Z }.

(** [NAME_LONG_MAX / 4]: the room for a name. *)
Definition KEY_NAME_MAX : Z := 255 / 4.
(** The union of 63 bytes, the value and the links, with padding. *)
Definition sizeof_hash_node : Z := 64 + 8 + 16.
Definition sizeof_hash_entry : Z := 16.

(** [ht_lock]: this cpu holds the table's lock. *)
Record hash_table := HTab { ht_type : hash_type; ht_size : Z; ht_head : Z; ht_lock : bool }.

Section hash.
Context {W A : Type} `{!ListOps (Z * Z) Z W, !PageAlloc A}.

(** The head of entry [i] of the array at address [b] is [(b, i)]. *)
Record hstate := HSt {
  hs_tabs : gmap Z hash_table;
  hs_nodes : gmap Z hash_node;
  hs_lists : W;
  hs_al : A
}.

Definition tab_at (s : hstate) (t : Z) : outcome hash_table := deref (hs_tabs s !! t).
Definition set_tab (t : Z) (tb : hash_table) (s : hstate) : hstate :=
  HSt (<[t := tb]> (hs_tabs s)) (hs_nodes s) (hs_lists s) (hs_al s).
Definition set_hnode (n : Z) (v : hash_node) (s : hstate) : hstate :=
  HSt (hs_tabs s) (<[n := v]> (hs_nodes s)) (hs_lists s) (hs_al s).
Definition hs_with_lists (f : W -> outcome W) (s : hstate) : outcome hstate :=
  w ← f (hs_lists s); Done (HSt (hs_tabs s) (hs_nodes s) w (hs_al s)).
Definition hs_with_al (a : A) (s : hstate) : hstate := HSt (hs_tabs s) (hs_nodes s) (hs_lists s) a.

Definition with_lock (b : bool) (tb : hash_table) : hash_table :=
  HTab (ht_type tb) (ht_size tb) (ht_head tb) b.

(** [acquire(&table->lock)] and [release(&table->lock)] as the cpu that runs them
    sees them: taking a lock twice and releasing a lock that is not held stop
    the machine. *)
Definition acquire_table (t : Z) (s : hstate) : outcome hstate :=
  tb ← tab_at s t; ASSERT (negb (ht_lock tb));; Done (set_tab t (with_lock true tb) s).
Definition release_table (t : Z) (s : hstate) : outcome hstate :=
  tb ← tab_at s t; ASSERT (ht_lock tb);; Done (set_tab t (with_lock false tb) s).

(** *** Keys *)

Definition hash_str (name : list Z) : Z :=
  foldl (fun h c => u64 (h * 31 + c)) 0 name.

(** What the key is hashed and compared by: the [int], the pointer, or the hash
    of the name. *)
Definition key_code (type : hash_type) (key : hkey) : outcome Z :=
  match type, key with
  | (PID_MAP | TID_MAP | IPC_IDX_MAP), KId k => Done k
  | FUTEX_MAP, KPtr p => Done p
  | INODE_MAP, KName s => Done (hash_str s)
  | _, _ => Undef
  end.

(** [hash_val = ... % table->size] on [uint64]. *)
Definition bucket (size c : Z) : Z := u64 c mod size.

Definition hash_get_entry (t : Z) (key : hkey) (holding : bool) (s : hstate)
    : outcome ((Z * Z) * hstate) :=
  tb ← tab_at s t;
  c ← key_code (ht_type tb) key;
  if ht_size tb =? 0 then Undef
  else
    s ← (if negb holding then acquire_table t s else Done s);
    Done ((ht_head tb, bucket (ht_size tb) c), s).

Definition hash_bool (node : hash_node) (key : hkey) (type : hash_type) : outcome bool :=
  c ← key_code type (hn_key node);
  c' ← key_code type key;
  Done (c =? c').

(** A name is copied with [safestrcpy(key_name, key, strlen(key))]; an empty one
    is not written at all, a long one runs over the node. *)
Definition hash_assign (key : hkey) (type : hash_type) : outcome hkey :=
  _ ← key_code type key;
  match key with
  | KName l =>
      if (0 <? Z.of_nat (length l)) && (Z.of_nat (length l) <? KEY_NAME_MAX) then Done key else Undef
  | _ => Done key
  end.

(** *** Operations *)

(** The walk over one chain. *)
Fixpoint find_node (l : list Z) (key : hkey) (type : hash_type) (s : hstate) : outcome (option Z) :=
  match l with
  | [] => Done None
  | n :: l =>
      nd ← deref (hs_nodes s !! n);
      b ← hash_bool nd key type;
      if (b : bool) then Done (Some n) else find_node l key type s
  end.

Definition hash_lookup (t : Z) (key : hkey) (release holding : bool) (s : hstate)
    : outcome (option Z * (Z * Z) * hstate) :=
  '(entry, s) ← hash_get_entry t key holding s;
  tb ← tab_at s t;
  l ← lh_each entry (hs_lists s);
  r ← find_node l key (ht_type tb) s;
  s ← (if release then release_table t s else Done s);
  Done (r, entry, s).

(** The tables whose values are kmalloc'ed and owned by the table. *)
Definition owns_values (type : hash_type) : bool :=
  match type with INODE_MAP | FUTEX_MAP => true | _ => false end.

Definition hs_kfree (p : Z) (s : hstate) : outcome hstate :=
  a ← pa_kfree p (hs_al s); Done (hs_with_al a s).

Definition hash_insert (t : Z) (key : hkey) (value : Z) (holding : bool) (s : hstate) : outcome hstate :=
  '(r, entry, s) ← hash_lookup t key false holding s;
  tb ← tab_at s t;
  s ← match r with
      | None =>
          '(p, a) ← pa_kmalloc sizeof_hash_node (hs_al s);
          let s := hs_with_al a s in
          n ← deref p;
          k ← hash_assign key (ht_type tb);
          let s := set_hnode n (HNode k value) s in
          s ← hs_with_lists (lh_init_node n) s;
          hs_with_lists (lh_add_tail n entry) s
      | Some n =>
          nd ← deref (hs_nodes s !! n);
          s ← (if owns_values (ht_type tb) then hs_kfree (hn_value nd) s else Done s);
          Done (set_hnode n (HNode (hn_key nd) value) s)
      end;
  release_table t s.

Definition free_node (n : Z) (s : hstate) : outcome hstate :=
  s ← hs_kfree n s;
  Done (HSt (hs_tabs s) (delete n (hs_nodes s)) (hs_lists s) (hs_al s)).

Definition hash_delete (t : Z) (key : hkey) (holding release : bool) (s : hstate) : outcome hstate :=
  '(r, _, s) ← hash_lookup t key false holding s;
  tb ← tab_at s t;
  s ← match r with
      | Some n =>
          s ← hs_with_lists (lh_del_reinit n) s;
          nd ← deref (hs_nodes s !! n);
          s ← (if owns_values (ht_type tb) then hs_kfree (hn_value nd) s else Done s);
          free_node n s
      | None => Done s
      end;
  if release then release_table t s else Done s.

Fixpoint destroy_chain (l : list Z) (owns : bool) (s : hstate) : outcome hstate :=
  match l with
  | [] => Done s
  | n :: l =>
      nd ← deref (hs_nodes s !! n);
      s ← (if owns then hs_kfree (hn_value nd) s else Done s);
      s ← free_node n s;
      destroy_chain l owns s
  end.

Fixpoint destroy_loop (m : nat) (i : Z) (tb : hash_table) (s : hstate) : outcome hstate :=
  match m with
  | O => Done s
  | S m =>
      l ← lh_each (ht_head tb, i) (hs_lists s);
      s ← destroy_chain l (owns_values (ht_type tb)) s;
      destroy_loop m (i + 1) tb s
  end.

Definition hash_destroy (t : Z) (free : bool) (s : hstate) : outcome hstate :=
  s ← acquire_table t s;
  tb ← tab_at s t;
  s ← destroy_loop (Z.to_nat (ht_size tb)) 0 tb s;
  s ← release_table t s;
  if free then
    s ← hs_kfree t s; Done (HSt (delete t (hs_tabs s)) (hs_nodes s) (hs_lists s) (hs_al s))
  else Done s.

Fixpoint init_entries (m : nat) (b i : Z) (s : hstate) : outcome hstate :=
  match m with
  | O => Done s
  | S m => s ← hs_with_lists (lh_init (b, i)) s; init_entries m b (i + 1) s
  end.

Definition hash_table_entry_init (t : Z) (s : hstate) : outcome hstate :=
  tb ← tab_at s t;
  '(r, a) ← pa_kmalloc (ht_size tb * sizeof_hash_entry) (hs_al s);
  let s := hs_with_al a s in
  b ← deref r;
  let s := set_tab t (HTab (ht_type tb) (ht_size tb) b (ht_lock tb)) s in
  init_entries (Z.to_nat (ht_size tb)) b 0 s.

(** The three global tables; the lines it prints are left out. *)
Definition hash_tables_init (pid_map tid_map futex_map : Z) (s : hstate) : outcome hstate :=
  s ← hash_table_entry_init pid_map s;
  s ← hash_table_entry_init tid_map s;
  hash_table_entry_init futex_map s.
End hash.
Arguments hstate : clear implicits.

(** ** The tables as one finite map

    [E] maps a table and a key's code to the node, the key as stored and the
    value; [L] is what the list heads hold. *)

Record hentry := HEntry { he_node : Z; he_key : hkey; he_value : Z }.

Section theory.
Context {W A : Type} `{LO : !ListOps (Z * Z) Z W, LH : !ListHeap (Z * Z) Z W}.
Context `{IN : !IdleNodes (Z * Z) Z W} `{!PageAlloc A, !PageAllocOk A}.
Context (HS : gset (Z * Z)) (XS : gset Z).
(** The links of a node lie in its page. *)
Context (HXS : forall q, 0 <= q < NPAGES -> page_to_pa q ∈ XS).
Implicit Types (s : hstate W A) (E : gmap (Z * Z) hentry) (L : gmap (Z * Z) (list Z)) (R : gmap Z (Z * Z)).

(** The blocks an entry of table [tb] holds. *)
Definition he_blocks (tb : hash_table) (e : hentry) : list Z :=
  he_node e :: (if owns_values (ht_type tb) then [he_value e] else []).

Record hash_ok s L E R : Prop := {
  hk_lists : lh_rep HS XS (hs_lists s) L;
  hk_alloc : pa_rep (hs_al s) R;
  hk_size t tb : hs_tabs s !! t = Some tb -> 0 < ht_size tb;
  hk_apart t1 t2 tb1 tb2 : hs_tabs s !! t1 = Some tb1 -> hs_tabs s !! t2 = Some tb2 ->
    ht_head tb1 = ht_head tb2 -> t1 = t2;
  hk_chain t tb i : hs_tabs s !! t = Some tb -> 0 <= i < ht_size tb ->
    exists l, L !! (ht_head tb, i) = Some l /\
      forall n, n ∈ l <-> exists c e, E !! (t, c) = Some e /\ he_node e = n /\ bucket (ht_size tb) c = i;
  hk_linked h l n : L !! h = Some l -> n ∈ l -> exists x e, E !! x = Some e /\ he_node e = n;
  hk_entry t c e : E !! (t, c) = Some e -> exists tb, hs_tabs s !! t = Some tb /\
    hs_nodes s !! he_node e = Some (HNode (he_key e) (he_value e)) /\
    key_code (ht_type tb) (he_key e) = Done c /\
    NoDup (he_blocks tb e) /\ forall p, p ∈ he_blocks tb e -> owned (hs_al s) R p;
  hk_sep t1 t2 c1 c2 e1 e2 tb1 tb2 p : hs_tabs s !! t1 = Some tb1 -> hs_tabs s !! t2 = Some tb2 ->
    E !! (t1, c1) = Some e1 -> E !! (t2, c2) = Some e2 ->
    p ∈ he_blocks tb1 e1 -> p ∈ he_blocks tb2 e2 -> (t1, c1) = (t2, c2)
}.

Lemma bucket_range tb c : 0 < ht_size tb -> 0 <= bucket (ht_size tb) c < ht_size tb.
Proof. intros. by apply Z.mod_pos_bound. Qed.

(** Locks are not part of the map. *)
Lemma hash_ok_lock s L E R t tb b : hash_ok s L E R -> hs_tabs s !! t = Some tb ->
  hash_ok (set_tab t (with_lock b tb) s) L E R.
Proof.
  intros [] Et.
  assert (forall u tu, hs_tabs (set_tab t (with_lock b tb) s) !! u = Some tu -> exists tu',
    hs_tabs s !! u = Some tu' /\ ht_size tu = ht_size tu' /\ ht_head tu = ht_head tu' /\ ht_type tu = ht_type tu')
    as Hback.
  { intros u tu. cbn [hs_tabs set_tab]. destruct (decide (t = u)) as [->|].
    - rewrite lookup_insert_eq. intros [= <-]. by exists tb.
    - rewrite lookup_insert_ne by done. by exists tu. }
  assert (forall u tu, hs_tabs s !! u = Some tu -> exists tu',
    hs_tabs (set_tab t (with_lock b tb) s) !! u = Some tu' /\ ht_type tu' = ht_type tu) as Hfwd.
  { intros u tu Eu. cbn [hs_tabs set_tab]. destruct (decide (t = u)) as [->|].
    - rewrite lookup_insert_eq. eexists; split; [done|]. by replace tu with tb by congruence.
    - rewrite lookup_insert_ne by done. by exists tu. }
  constructor; cbn [hs_lists hs_al hs_nodes set_tab]; try done.
  - intros u tu (tu' & Eu & -> & _)%Hback. eauto.
  - intros u1 u2 tu1 tu2 (tu1' & E1 & _ & -> & _)%Hback (tu2' & E2 & _ & -> & _)%Hback. eauto.
  - intros u tu i (tu' & Eu & -> & -> & _)%Hback. eauto.
  - intros u c e Ee. destruct (hk_entry0 u c e Ee) as (tu & (tu' & Eu' & Ety)%Hfwd & H).
    exists tu'. unfold he_blocks. rewrite Ety. done.
  - intros u1 u2 c1 c2 e1 e2 tu1 tu2 p (tu1' & E1 & _ & _ & T1)%Hback (tu2' & E2 & _ & _ & T2)%Hback.
    unfold he_blocks. rewrite T1, T2. eauto.
Qed.

(** The walk finds the node of the key's code. *)
Lemma find_node_ok l key type s c : key_code type key = Done c ->
  (forall n, n ∈ l -> exists nd c', hs_nodes s !! n = Some nd /\ key_code type (hn_key nd) = Done c') ->
  exists r, find_node l key type s = Done r /\
    match r with
    | Some n => n ∈ l /\ exists nd, hs_nodes s !! n = Some nd /\ key_code type (hn_key nd) = Done c
    | None => forall n nd, n ∈ l -> hs_nodes s !! n = Some nd -> key_code type (hn_key nd) <> Done c
    end.
Proof.
  intros Ec. induction l as [|n l IH]; intros Hl; cbn [find_node].
  { exists None. split; [done|]. intros n nd Hn. by apply not_elem_of_nil in Hn. }
  destruct (Hl n (list_elem_of_here _ _)) as (nd & c' & En & Ec'). rewrite En. ocbn.
  unfold hash_bool. rewrite Ec', Ec. ocbn. destruct (Z.eqb_spec c' c) as [->|Hne].
  - exists (Some n). split; [done|]. split; [by left|]. by exists nd.
  - destruct IH as (r & Er & Hr); [intros m Hm; apply Hl; by right|]. exists r. split; [done|].
    destruct r as [m|].
    + destruct Hr as [Hm H]. split; [by right|done].
    + intros m md [->|Hm]%elem_of_cons; [|by apply Hr]. rewrite En. intros [= <-]. congruence.
Qed.

Definition locked_tab (b : bool) (t : Z) (tb : hash_table) s : hstate W A := set_tab t (with_lock b tb) s.

Lemma tab_at_run t tb s : hs_tabs s !! t = Some tb -> tab_at s t = Done tb.
Proof. intros E. unfold tab_at. by rewrite E. Qed.

Lemma locked_tab_lookup b t tb s : hs_tabs (locked_tab b t tb s) !! t = Some (with_lock b tb).
Proof. apply lookup_insert_eq. Qed.

Lemma locked_tab_twice b b' t tb s :
  locked_tab b t (with_lock b' tb) (locked_tab b' t tb s) = locked_tab b t tb s.
Proof.
  unfold locked_tab, set_tab. cbn [hs_tabs hs_nodes hs_lists hs_al]. by rewrite insert_insert_eq.
Qed.

Lemma locked_tab_same t tb s : hs_tabs s !! t = Some tb -> locked_tab (ht_lock tb) t tb s = s.
Proof.
  intros Et. destruct s, tb. unfold locked_tab, set_tab, with_lock. cbn in *. by rewrite insert_id.
Qed.

Lemma release_ok t tb s : hs_tabs s !! t = Some tb -> ht_lock tb = true ->
  release_table t s = Done (locked_tab false t tb s).
Proof. intros Et El. unfold release_table. rewrite (tab_at_run _ _ _ Et). ocbn. rewrite El. done. Qed.

(** What a call finds: the entry of its key, with the lock taken. *)
Lemma hash_lookup_ok s L E R t tb key c rel holding :
  hash_ok s L E R -> hs_tabs s !! t = Some tb -> ht_lock tb = holding -> key_code (ht_type tb) key = Done c ->
  hash_lookup t key rel holding s =
    Done (he_node <$> E !! (t, c), (ht_head tb, bucket (ht_size tb) c), locked_tab (negb rel) t tb s).
Proof.
  intros K Et El Ec. unfold hash_lookup, hash_get_entry. rewrite (tab_at_run _ _ _ Et). ocbn.
  rewrite Ec. ocbn. pose proof (hk_size _ _ _ _ K _ _ Et) as Hs.
  destruct (Z.eqb_spec (ht_size tb) 0) as [?|_]; [lia|].
  assert ((if negb holding then acquire_table t s else Done s) = Done (locked_tab true t tb s)) as ->.
  { destruct holding; cbn [negb].
    - by rewrite <- El, locked_tab_same.
    - unfold acquire_table. rewrite (tab_at_run _ _ _ Et). ocbn. by rewrite El. }
  ocbn. rewrite (tab_at_run _ _ _ (locked_tab_lookup true t tb s)). ocbn.
  destruct (hk_chain _ _ _ _ K t tb (bucket (ht_size tb) c) Et (bucket_range _ _ Hs)) as (l & Hl & Hmem).
  change (hs_lists (locked_tab true t tb s)) with (hs_lists s).
  rewrite (lh_each_rep HS XS _ L _ l (hk_lists _ _ _ _ K) Hl). ocbn.
  assert (forall n c' e, E !! (t, c') = Some e -> he_node e = n -> exists nd, hs_nodes s !! n = Some nd /\
    key_code (ht_type tb) (hn_key nd) = Done c') as Hnode.
  { intros n c' e Ee <-. destruct (hk_entry _ _ _ _ K _ _ _ Ee) as (tb' & Et' & En & Ek & _).
    assert (tb' = tb) as -> by congruence. eauto. }
  destruct (find_node_ok l key (ht_type tb) (locked_tab true t tb s) c Ec) as (r & Er & Hr).
  { intros n (c' & e & Ee & Hn & _)%Hmem. destruct (Hnode _ _ _ Ee Hn) as (nd & ? & ?). eauto. }
  change (ht_type (with_lock true tb)) with (ht_type tb). rewrite Er. ocbn.
  assert (r = he_node <$> E !! (t, c)) as ->.
  { destruct r as [n|].
    - destruct Hr as (Hn & nd & End & Ek). apply Hmem in Hn as (c' & e & Ee & Hn & _).
      destruct (Hnode _ _ _ Ee Hn) as (nd' & End' & Ek').
      assert (c' = c) as ->; [|by rewrite Ee, <- Hn].
      change (hs_nodes (locked_tab true t tb s)) with (hs_nodes s) in End. congruence.
    - destruct (E !! (t, c)) as [e|] eqn:Ee; [|done]. exfalso.
      destruct (Hnode _ _ _ Ee eq_refl) as (nd & End & Ek). apply (Hr (he_node e) nd); [|exact End|exact Ek].
      apply Hmem. eauto. }
  destruct rel; cbn [negb]; [|done].
  rewrite (release_ok t (with_lock true tb)) by (by rewrite ?locked_tab_lookup). ocbn.
  by rewrite locked_tab_twice.
Qed.

(** A step that touches one entry only keeps the tables well-formed. *)
Lemma hash_ok_step s L E R s' L' E' R' t tb c :
  hash_ok s L E R -> hs_tabs s' = hs_tabs s -> hs_tabs s !! t = Some tb ->
  lh_rep HS XS (hs_lists s') L' -> pa_rep (hs_al s') R' ->
  (forall u tu i, hs_tabs s !! u = Some tu -> 0 <= i < ht_size tu ->
    exists l, L' !! (ht_head tu, i) = Some l /\
      forall n, n ∈ l <-> exists c e, E' !! (u, c) = Some e /\ he_node e = n /\ bucket (ht_size tu) c = i) ->
  (forall h l n, L' !! h = Some l -> n ∈ l -> exists x e, E' !! x = Some e /\ he_node e = n) ->
  (forall x, x <> (t, c) -> E' !! x = E !! x) ->
  (forall x e tx p, x <> (t, c) -> E !! x = Some e -> hs_tabs s !! x.1 = Some tx -> p ∈ he_blocks tx e ->
    owned (hs_al s) R p -> owned (hs_al s') R' p /\ forall e', E' !! (t, c) = Some e' -> p ∉ he_blocks tb e') ->
  (forall x e, x <> (t, c) -> E !! x = Some e -> hs_nodes s' !! he_node e = hs_nodes s !! he_node e) ->
  (forall e', E' !! (t, c) = Some e' -> hs_nodes s' !! he_node e' = Some (HNode (he_key e') (he_value e')) /\
    key_code (ht_type tb) (he_key e') = Done c /\ NoDup (he_blocks tb e') /\
    forall p, p ∈ he_blocks tb e' -> owned (hs_al s') R' p) ->
  hash_ok s' L' E' R'.
Proof.
  intros K Htabs Et HL HR Hchain Hlink Ho Hown Hnode Hnew. pose proof K as [].
  constructor; try rewrite Htabs; try done.
  - intros u c0 e Ee. destruct (decide ((u, c0) = (t, c))) as [[= -> ->]|Hne].
    { exists tb. split; [done|]. by apply Hnew. }
    rewrite Ho in Ee by done. destruct (hk_entry0 u c0 e Ee) as (tu & Eu & En & Ek & Hnd & Hb).
    exists tu. rewrite (Hnode _ _ Hne Ee). split_and!; try done.
    intros p Hp. by destruct (Hown (u, c0) e tu p Hne Ee Eu Hp (Hb p Hp)).
  - intros t1 t2 c1 c2 e1 e2 tb1 tb2 p T1 T2 E1 E2 P1 P2.
    assert (forall u d e tu, hs_tabs s !! u = Some tu -> (u, d) <> (t, c) -> E' !! (u, d) = Some e ->
      p ∈ he_blocks tu e -> forall e', E' !! (t, c) = Some e' -> p ∉ he_blocks tb e') as Hsep.
    { intros u d e tu Tu Hne Ee Hp. rewrite Ho in Ee by done.
      destruct (hk_entry0 u d e Ee) as (tu' & Eu & _ & _ & _ & Hb). assert (tu' = tu) as -> by congruence.
      by destruct (Hown (u, d) e tu p Hne Ee Tu Hp (Hb p Hp)). }
    destruct (decide ((t1, c1) = (t, c))) as [X1|N1], (decide ((t2, c2) = (t, c))) as [X2|N2].
    + congruence.
    + injection X1 as -> ->. exfalso. assert (tb1 = tb) as -> by congruence. by eapply Hsep.
    + injection X2 as -> ->. exfalso. assert (tb2 = tb) as -> by congruence. by eapply (Hsep t1).
    + rewrite Ho in E1, E2 by done. eauto.
Qed.

(** Giving a key that is present a new value. *)
Definition free_value s E R (tb : hash_table) (v : Z) : Prop :=
  owns_values (ht_type tb) = true -> owned (hs_al s) R v /\
    forall u d tu e, hs_tabs s !! u = Some tu -> E !! (u, d) = Some e -> v ∉ he_blocks tu e.

Lemma same_nodes E t c e e' (P : Z -> Prop) u n : E !! (t, c) = Some e -> he_node e' = he_node e ->
  (exists d e0, <[(t, c) := e']> E !! (u, d) = Some e0 /\ he_node e0 = n /\ P d) <->
  (exists d e0, E !! (u, d) = Some e0 /\ he_node e0 = n /\ P d).
Proof.
  intros Ee En. split; intros (d & e0 & E0 & Hn & HP).
  - destruct (decide ((t, c) = (u, d))) as [[= <- <-]|Hne].
    + rewrite lookup_insert_eq in E0. injection E0 as <-. exists c, e. by rewrite <- En.
    + rewrite lookup_insert_ne in E0 by done. eauto.
  - destruct (decide ((t, c) = (u, d))) as [[= <- <-]|Hne].
    + exists c, e'. rewrite lookup_insert_eq. split; [done|]. split; [congruence|done].
    + exists d, e0. by rewrite lookup_insert_ne.
Qed.

Lemma hash_update_ok s L E R t tb c e v : hash_ok s L E R -> hs_tabs s !! t = Some tb ->
  E !! (t, c) = Some e -> free_value s E R tb v ->
  exists s' R', (s1 ← (if owns_values (ht_type tb) then hs_kfree (he_value e) s else Done s);
     Done (set_hnode (he_node e) (HNode (he_key e) v) s1)) = Done s' /\ hs_tabs s' = hs_tabs s /\
    hash_ok s' L (<[(t, c) := HEntry (he_node e) (he_key e) v]> E) R'.
Proof.
  intros K Et Ee Hv. destruct (hk_entry _ _ _ _ K _ _ _ Ee) as (tb' & Et' & En & Ek & Hnd & Hb).
  assert (tb' = tb) as -> by congruence.
  assert (exists s1 R1, (if owns_values (ht_type tb) then hs_kfree (he_value e) s else Done s) = Done s1 /\
    hs_tabs s1 = hs_tabs s /\ hs_nodes s1 = hs_nodes s /\ hs_lists s1 = hs_lists s /\ pa_rep (hs_al s1) R1 /\
    forall p, ~ (owns_values (ht_type tb) = true /\ p = he_value e) -> owned (hs_al s) R p -> owned (hs_al s1) R1 p)
    as (s1 & R1 & -> & T1 & N1 & Li1 & A1 & O1).
  { unfold he_blocks in Hb. destruct (owns_values (ht_type tb)).
    - destruct (kfree_owned (hs_al s) R (he_value e) (hk_alloc _ _ _ _ K)) as (a' & R' & Ea & Ha & Hk).
      { apply Hb. right. by left. }
      unfold hs_kfree. rewrite Ea. exists (hs_with_al a' s), R'. split_and!; try done.
      intros p Hp. apply Hk. intros ->. by apply Hp.
    - exists s, R. split_and!; try done. by apply K. }
  ocbn. eexists _, R1. split; [reflexivity|]. split; [done|].
  assert (forall p, p ∈ he_blocks tb (HEntry (he_node e) (he_key e) v) ->
    p = he_node e \/ owns_values (ht_type tb) = true /\ p = v) as Hin.
  { unfold he_blocks. intros p. destruct (owns_values (ht_type tb)); cbn; set_solver. }
  assert (he_node e ∈ he_blocks tb e) as Hne by (by left).
  apply (hash_ok_step s L E R _ L _ R1 t tb c K); cbn [hs_tabs hs_nodes hs_lists hs_al set_hnode]; try done.
  - rewrite Li1. by apply K.
  - intros u tu i Eu Hi. destruct (hk_chain _ _ _ _ K u tu i Eu Hi) as (l & El & Hl).
    exists l. split; [done|]. intros n. rewrite Hl. symmetry.
    exact (same_nodes E t c e (HEntry (he_node e) (he_key e) v) _ u n Ee eq_refl).
  - intros h l n El Hn. destruct (hk_linked _ _ _ _ K h l n El Hn) as ([u d] & e0 & E0 & H0).
    destruct (decide ((t, c) = (u, d))) as [Hx|Hx].
    + exists (t, c). eexists. rewrite lookup_insert_eq. split; [done|]. cbn. congruence.
    + exists (u, d), e0. by rewrite lookup_insert_ne.
  - intros x Hx. by rewrite lookup_insert_ne.
  - intros [u d] e0 tx p Hx E0 Tx Hp Hop. cbn in Tx.
    assert (p ∉ he_blocks tb e) as Hnot.
    { intros Hp'. apply Hx. by eapply (hk_sep _ _ _ _ K). }
    split.
    + apply O1; [|done]. intros [Hw ->]. apply Hnot. unfold he_blocks. rewrite Hw. right. by left.
    + intros e' Ee'. rewrite lookup_insert_eq in Ee'. injection Ee' as <-.
      intros [->|[Hw ->]]%Hin; [done|]. by apply (proj2 (Hv Hw) u d tx e0).
  - intros [u d] e0 Hx E0. rewrite lookup_insert_ne, N1; [done|]. intros Heq.
    destruct (hk_entry _ _ _ _ K _ _ _ E0) as (tu & Eu & _).
    apply Hx. eapply (hk_sep _ _ _ _ K u t d c e0 e tu tb (he_node e)); try done. rewrite Heq. by left.
  - intros e' Ee'. rewrite lookup_insert_eq in Ee'. injection Ee' as <-. cbn [he_node he_key he_value].
    rewrite lookup_insert_eq. split_and!; [done|done| |].
    + unfold he_blocks. cbn [he_node he_value]. destruct (owns_values (ht_type tb)) eqn:Hw.
      * apply NoDup_cons_2; [|apply NoDup_singleton]. rewrite list_elem_of_singleton. intros Heq.
        apply (proj2 (Hv Hw) t c tb e Et Ee). by rewrite <- Heq.
      * apply NoDup_singleton.
    + intros p [->|[Hw ->]]%Hin.
      * apply O1; [|by apply Hb]. intros [Hw Heq]. revert Hnd. unfold he_blocks. rewrite Hw, Heq.
        intros Hnd%NoDup_cons_1_1. apply Hnd. by left.
      * apply O1; [|by apply Hv]. intros [_ Heq].
        apply (proj2 (Hv Hw) t c tb e Et Ee). unfold he_blocks. rewrite Hw, Heq. right. by left.
Qed.

Lemma owned_blocks s L E R u d tu e p : hash_ok s L E R -> hs_tabs s !! u = Some tu -> E !! (u, d) = Some e ->
  p ∈ he_blocks tu e -> owned (hs_al s) R p.
Proof.
  intros K Eu Ee Hp. destruct (hk_entry _ _ _ _ K _ _ _ Ee) as (tu' & Eu' & _ & _ & _ & Hb).
  apply Hb. by replace tu' with tu by congruence.
Qed.

Lemma node_owned s L E R x e : hash_ok s L E R -> E !! x = Some e -> owned (hs_al s) R (he_node e).
Proof.
  intros K Ee. destruct x as [u d]. destruct (hk_entry _ _ _ _ K _ _ _ Ee) as (tu & Eu & _ & _ & _ & Hb).
  apply Hb. by left.
Qed.

(** The chain of a new node. *)
Lemma chain_add E t tb c e l : ht_size tb <> 0 -> E !! (t, c) = None ->
  (forall n, n ∈ l <-> exists d e0, E !! (t, d) = Some e0 /\ he_node e0 = n /\
     bucket (ht_size tb) d = bucket (ht_size tb) c) ->
  forall n, n ∈ l ++ [he_node e] <-> exists d e0, <[(t, c) := e]> E !! (t, d) = Some e0 /\ he_node e0 = n /\
     bucket (ht_size tb) d = bucket (ht_size tb) c.
Proof.
  intros Hs En Hl n. rewrite elem_of_app, list_elem_of_singleton, Hl. split.
  - intros [(d & e0 & E0 & H)| ->].
    + exists d, e0. rewrite lookup_insert_ne; [done|]. intros [= <-]. congruence.
    + exists c, e. by rewrite lookup_insert_eq.
  - intros (d & e0 & E0 & Hn & Hd). destruct (decide (c = d)) as [<-|Hne].
    + rewrite lookup_insert_eq in E0. injection E0 as <-. by right.
    + left. exists d, e0. rewrite lookup_insert_ne in E0 by congruence. done.
Qed.

Lemma chain_other E t c e u tu i : (t, i) <> (u, bucket (ht_size tu) c) -> E !! (t, c) = None ->
  forall n, (exists d e0, <[(t, c) := e]> E !! (u, d) = Some e0 /\ he_node e0 = n /\ bucket (ht_size tu) d = i) <->
    (exists d e0, E !! (u, d) = Some e0 /\ he_node e0 = n /\ bucket (ht_size tu) d = i).
Proof.
  intros Hne En n. split; intros (d & e0 & E0 & Hn & Hd); exists d, e0.
  - rewrite lookup_insert_ne in E0; [done|]. intros [= -> ->]. by rewrite Hd in Hne.
  - rewrite lookup_insert_ne; [done|]. intros [= -> ->]. congruence.
Qed.

(** A new key: the node is allocated and linked at the end of its chain. *)
Lemma hash_add_ok s L E R t tb c key v q a' R' : hash_ok s L E R -> hs_tabs s !! t = Some tb ->
  E !! (t, c) = None -> key_code (ht_type tb) key = Done c -> free_value s E R tb v ->
  fresh_page (hs_al s) R q a' R' ->
  let p := page_to_pa q in
  let h := (ht_head tb, bucket (ht_size tb) c) in
  exists s' L', (s1 ← hs_with_lists (lh_init_node p) (set_hnode p (HNode key v) (hs_with_al a' s));
     hs_with_lists (lh_add_tail p h) s1) = Done s' /\ hs_tabs s' = hs_tabs s /\
    hash_ok s' L' (<[(t, c) := HEntry p key v]> E) R'.
Proof.
  intros K Et En Ek Hv F p h. pose proof (hk_size _ _ _ _ K _ _ Et) as Hs.
  assert (forall x, owned (hs_al s) R x -> owned a' R' x /\ x <> p) as Hof
    by (intros x; by apply owned_fresh).
  assert (p ∈ XS) as Hx by (apply HXS, (fp_range _ _ _ _ _ F)).
  assert (unlinked L p) as Hu.
  { intros g l El Hp. destruct (hk_linked _ _ _ _ K g l p El Hp) as (x & e & Ee & Hn).
    destruct (Hof (he_node e)) as [_ Hne]; [by eapply node_owned|]. congruence. }
  destruct (lh_init_node_rep HS XS (hs_lists s) L p (hk_lists _ _ _ _ K) Hx Hu) as (w1 & E1 & R1 & _).
  destruct (hk_chain _ _ _ _ K t tb _ Et (bucket_range _ c Hs)) as (l & El & Hl).
  destruct (lh_add_tail_rep HS XS w1 L h l p R1 El Hx Hu) as (w2 & E2 & R2).
  exists (HSt (hs_tabs s) (<[p := HNode key v]> (hs_nodes s)) w2 a'), (<[h := l ++ [p]]> L).
  split; [|split; [done|]].
  { unfold hs_with_lists. cbn [hs_lists set_hnode hs_with_al]. rewrite E1. ocbn. cbn [hs_lists]. by rewrite E2. }
  assert (forall x, x ∈ he_blocks tb (HEntry p key v) -> x = p \/ owns_values (ht_type tb) = true /\ x = v) as Hin.
  { unfold he_blocks. intros x. destruct (owns_values (ht_type tb)); cbn; set_solver. }
  apply (hash_ok_step s L E R _ _ _ R' t tb c K); cbn [hs_tabs hs_nodes hs_lists hs_al]; try done.
  - apply F.
  - intros u tu i Eu Hi. destruct (hk_chain _ _ _ _ K u tu i Eu Hi) as (l0 & El0 & Hl0).
    destruct (decide (h = (ht_head tu, i))) as [Hh|Hh].
    + injection Hh as Hhd Hi'. assert (t = u) as <- by (by eapply (hk_apart _ _ _ _ K)).
      assert (tu = tb) as -> by congruence. exists (l ++ [p]). subst i.
      rewrite lookup_insert_eq. split; [done|].
      exact (chain_add E t tb c (HEntry p key v) l ltac:(lia) En Hl).
    + exists l0. rewrite lookup_insert_ne by done. split; [done|]. intros n. rewrite Hl0. symmetry.
      apply chain_other; [|done]. intros [= -> ->]. apply Hh. unfold h. assert (tu = tb) as -> by congruence. done.
  - intros g l0 n Eg Hn. destruct (decide (h = g)) as [<-|Hh].
    + rewrite lookup_insert_eq in Eg. injection Eg as <-.
      apply (chain_add E t tb c (HEntry p key v) l ltac:(lia) En Hl) in Hn as (d & e0 & H0 & Hn & _). eauto.
    + rewrite lookup_insert_ne in Eg by done. destruct (hk_linked _ _ _ _ K g l0 n Eg Hn) as (x & e0 & E0 & H0).
      exists x, e0. rewrite lookup_insert_ne; [done|]. intros <-. congruence.
  - intros x Hx0. by rewrite lookup_insert_ne.
  - intros [u d] e0 tx y Hx0 E0 Tx Hy Hoy. cbn in Tx. destruct (Hof y Hoy) as [Hoy' Hne]. split; [done|].
    intros e' Ee'. rewrite lookup_insert_eq in Ee'. injection Ee' as <-.
    intros [->|[Hw ->]]%Hin; [done|]. by apply (proj2 (Hv Hw) u d tx e0).
  - intros x e0 Hx0 E0. rewrite lookup_insert_ne; [done|]. intros Heq.
    destruct (Hof (he_node e0)) as [_ Hne]; [by eapply node_owned|]. by apply Hne.
  - intros e' Ee'. rewrite lookup_insert_eq in Ee'. injection Ee' as <-. cbn [he_node he_key he_value].
    rewrite lookup_insert_eq. split_and!; [done|done| |].
    + unfold he_blocks. cbn [he_node he_value]. destruct (owns_values (ht_type tb)) eqn:Hw.
      * apply NoDup_cons_2; [|apply NoDup_singleton]. rewrite list_elem_of_singleton. intros Heq.
        destruct (Hof v) as [_ Hne]; [by apply Hv|]. by apply Hne.
      * apply NoDup_singleton.
    + intros x [->|[Hw ->]]%Hin; [by eapply fresh_owned|]. by apply Hof, Hv.
Qed.

Lemma node_inj s L E R x y e1 e2 : hash_ok s L E R -> E !! x = Some e1 -> E !! y = Some e2 ->
  he_node e1 = he_node e2 -> x = y.
Proof.
  intros K E1 E2 Hn. destruct x as [t c], y as [u d].
  destruct (hk_entry _ _ _ _ K _ _ _ E1) as (tb & Et & _), (hk_entry _ _ _ _ K _ _ _ E2) as (tu & Eu & _).
  eapply (hk_sep _ _ _ _ K); [exact Et|exact Eu|exact E1|exact E2| |]; [by left|rewrite Hn; by left].
Qed.

(** The chain a node has left. *)
Lemma chain_del s L E R u t c e (P : Z -> Prop) l1 l2 : hash_ok s L E R -> E !! (t, c) = Some e ->
  NoDup (l1 ++ he_node e :: l2) ->
  (forall n, n ∈ l1 ++ he_node e :: l2 <-> exists d e0, E !! (u, d) = Some e0 /\ he_node e0 = n /\ P d) ->
  forall n, n ∈ l1 ++ l2 <-> exists d e0, delete (t, c) E !! (u, d) = Some e0 /\ he_node e0 = n /\ P d.
Proof.
  intros K Ee [Hnot _]%NoDup_mid Hl n. split.
  - intros Hn. assert (n ∈ l1 ++ he_node e :: l2) as (d & e0 & E0 & Hd)%Hl by (apply elem_of_mid; by right).
    exists d, e0. rewrite lookup_delete_ne; [done|]. intros [= -> ->]. assert (e0 = e) as -> by congruence.
    destruct Hd as [<- _]. done.
  - intros (d & e0 & E0 & Hd). apply lookup_delete_Some in E0 as [Hne E0].
    assert (n ∈ l1 ++ he_node e :: l2) as [->|Hn]%elem_of_mid by (apply Hl; eauto); [|done].
    exfalso. apply Hne. destruct Hd as [Hd _]. eapply node_inj; [exact K|exact Ee|exact E0|done].
Qed.

Lemma chain_del_other E t c u tu i e : E !! (t, c) = Some e ->
  t <> u \/ bucket (ht_size tu) c <> i ->
  forall n, (exists d e0, delete (t, c) E !! (u, d) = Some e0 /\ he_node e0 = n /\ bucket (ht_size tu) d = i) <->
    (exists d e0, E !! (u, d) = Some e0 /\ he_node e0 = n /\ bucket (ht_size tu) d = i).
Proof.
  intros Ee Hne n. split; intros (d & e0 & E0 & Hn & Hd); exists d, e0.
  - apply lookup_delete_Some in E0 as [_ E0]. done.
  - rewrite lookup_delete_ne; [done|]. intros [= -> ->]. destruct Hne; [done|congruence].
Qed.

(** Releasing the blocks of an entry. *)
Lemma release_blocks s w L E R t tb c e : hash_ok s L E R -> hs_tabs s !! t = Some tb -> E !! (t, c) = Some e ->
  let s0 := HSt (hs_tabs s) (hs_nodes s) w (hs_al s) in
  exists s' R', (s1 ← (if owns_values (ht_type tb) then hs_kfree (he_value e) s0 else Done s0);
      free_node (he_node e) s1) = Done s' /\
    hs_tabs s' = hs_tabs s /\ hs_lists s' = w /\ hs_nodes s' = delete (he_node e) (hs_nodes s) /\
    pa_rep (hs_al s') R' /\ forall p, p ∉ he_blocks tb e -> owned (hs_al s) R p -> owned (hs_al s') R' p.
Proof.
  intros K Et Ee s0. destruct (hk_entry _ _ _ _ K _ _ _ Ee) as (tb' & Et' & _ & _ & Hnd & Hb).
  assert (tb' = tb) as -> by congruence. pose proof (hk_alloc _ _ _ _ K) as Ha. revert Hnd Hb.
  unfold he_blocks, free_node, hs_kfree, s0. cbn [hs_al]. destruct (owns_values (ht_type tb)); intros Hnd Hb.
  - apply NoDup_cons_1_1 in Hnd. rewrite list_elem_of_singleton in Hnd.
    destruct (kfree_owned _ R (he_value e) Ha) as (a1 & R1 & Ea & Ha1 & Hk1); [apply Hb; right; by left|].
    rewrite Ea. ocbn. cbn [hs_al hs_with_al hs_tabs hs_nodes hs_lists].
    destruct (kfree_owned a1 R1 (he_node e) Ha1) as (a2 & R2 & Ea2 & Ha2 & Hk2).
    { apply Hk1; [done|]. apply Hb. by left. }
    rewrite Ea2. ocbn. eexists _, R2. split; [reflexivity|]. split_and!; try done.
    intros p Hp Hop. rewrite elem_of_cons, list_elem_of_singleton in Hp. apply Hk2; [tauto|]. apply Hk1; tauto.
  - ocbn. cbn [hs_al]. destruct (kfree_owned _ R (he_node e) Ha) as (a2 & R2 & Ea2 & Ha2 & Hk2); [apply Hb; by left|].
    rewrite Ea2. ocbn. eexists _, R2. split; [reflexivity|]. split_and!; try done.
    intros p Hp Hop. rewrite list_elem_of_singleton in Hp. by apply Hk2.
Qed.

Lemma hash_remove_ok s L E R t tb c e : hash_ok s L E R -> hs_tabs s !! t = Some tb -> E !! (t, c) = Some e ->
  exists s' L' R', (s1 ← hs_with_lists (lh_del_reinit (he_node e)) s;
      nd ← deref (hs_nodes s1 !! he_node e);
      s2 ← (if owns_values (ht_type tb) then hs_kfree (hn_value nd) s1 else Done s1);
      free_node (he_node e) s2) = Done s' /\ hs_tabs s' = hs_tabs s /\
    hash_ok s' L' (delete (t, c) E) R'.
Proof.
  intros K Et Ee. pose proof (hk_size _ _ _ _ K _ _ Et) as Hs.
  destruct (hk_entry _ _ _ _ K _ _ _ Ee) as (tb' & Et' & En & _).
  assert (tb' = tb) as -> by congruence. set (h := (ht_head tb, bucket (ht_size tb) c)).
  destruct (hk_chain _ _ _ _ K t tb _ Et (bucket_range _ c Hs)) as (l & El & Hl).
  assert (he_node e ∈ l) as (l1 & l2 & ->)%list_elem_of_split by (apply Hl; eauto).
  destruct (lh_del_reinit_rep HS XS (hs_lists s) L h l1 l2 (he_node e) (hk_lists _ _ _ _ K) El) as (w & Ew & Rw).
  pose proof (lh_rep_NoDup HS XS _ L h _ (hk_lists _ _ _ _ K) El) as Hnd.
  unfold hs_with_lists. rewrite Ew. ocbn. cbn [hs_nodes]. rewrite En. ocbn. cbn [hn_value].
  destruct (release_blocks _ w _ _ _ _ _ _ _ K Et Ee) as (s1 & R1 & E1 & T1 & Li1 & N1 & A1 & O1).
  exists s1, (<[h := l1 ++ l2]> L), R1. split; [done|]. split; [done|].
  apply (hash_ok_step s L E R _ _ _ R1 t tb c K); try done.
  - by rewrite Li1.
  - intros u tu i Eu Hi. destruct (hk_chain _ _ _ _ K u tu i Eu Hi) as (l0 & El0 & Hl0).
    destruct (decide (h = (ht_head tu, i))) as [Hh|Hh].
    + injection Hh as Hhd Hi'. assert (t = u) as <- by (by eapply (hk_apart _ _ _ _ K)).
      assert (tu = tb) as -> by congruence. exists (l1 ++ l2). subst i. rewrite lookup_insert_eq. split; [done|].
      exact (chain_del s L E R t t c e _ l1 l2 K Ee Hnd Hl).
    + exists l0. rewrite lookup_insert_ne by done. split; [done|]. intros n. rewrite Hl0. symmetry.
      apply (chain_del_other E t c u tu i e); [done|].
      destruct (decide (t = u)) as [<-|]; [right|by left]. assert (tu = tb) as -> by congruence.
      intros Hi'. apply Hh. unfold h. by rewrite Hi'.
  - intros g l0 n Eg Hn. destruct (decide (h = g)) as [<-|Hh].
    + rewrite lookup_insert_eq in Eg. injection Eg as <-.
      apply (chain_del s L E R t t c e _ l1 l2 K Ee Hnd Hl) in Hn as (d & e0 & H0 & Hn & _). eauto.
    + rewrite lookup_insert_ne in Eg by done. destruct (hk_linked _ _ _ _ K g l0 n Eg Hn) as (x & e0 & E0 & H0).
      exists x, e0. rewrite lookup_delete_ne; [done|]. intros <-. assert (e0 = e) as -> by congruence.
      apply Hh. eapply (lh_rep_disjoint HS XS _ L h g _ l0 n (hk_lists _ _ _ _ K) El Eg); [|done].
      rewrite <- H0. apply elem_of_mid. by left.
  - intros x Hx. by rewrite lookup_delete_ne.
  - intros [u d] e0 tx p Hx E0 Tx Hp Hop. cbn in Tx. split; [|intros e'; by rewrite lookup_delete_eq].
    apply O1; [|done]. intros Hp'. apply Hx. by eapply (hk_sep _ _ _ _ K).
  - intros x e0 Hx E0. rewrite N1, lookup_delete_ne; [done|]. intros Heq. apply Hx.
    by eapply node_inj.
  - intros e'. by rewrite lookup_delete_eq.
Qed.

Lemma key_codes type key c : key_code type key = Done c ->
  (match key with KName l => 0 < Z.of_nat (length l) < KEY_NAME_MAX | _ => True end) ->
  hash_assign key type = Done key.
Proof.
  intros Ec Hk. unfold hash_assign. rewrite Ec. ocbn. destruct key as [k|p|l]; try done.
  destruct (Z.ltb_spec 0 (Z.of_nat (length l))); [|lia].
  destruct (Z.ltb_spec (Z.of_nat (length l)) KEY_NAME_MAX); [done|lia].
Qed.

Definition key_fits (key : hkey) : Prop :=
  match key with KName l => 0 < Z.of_nat (length l) < KEY_NAME_MAX | _ => True end.

Lemma release_after s L E R t tb : hash_ok s L E R -> hs_tabs s !! t = Some (with_lock true tb) ->
  release_table t s = Done (locked_tab false t tb s) /\ hash_ok (locked_tab false t tb s) L E R.
Proof.
  intros K Et. split.
  - rewrite (release_ok t (with_lock true tb)) by done. done.
  - exact (hash_ok_lock s L E R t (with_lock true tb) false K Et).
Qed.

Lemma locked_ok s L E R t tb b : hash_ok s L E R -> hs_tabs s !! t = Some tb ->
  hash_ok (locked_tab b t tb s) L E R.
Proof. apply hash_ok_lock. Qed.

(** The tables after a call: the lock of [t] is free. *)
Definition unlocked (t : Z) (tb : hash_table) s s' : Prop :=
  hs_tabs s' = <[t := with_lock false tb]> (hs_tabs s).

Lemma unlocked_after s s1 t tb : hs_tabs s1 = hs_tabs (locked_tab true t tb s) ->
  hs_tabs s1 !! t = Some (with_lock true tb) /\ unlocked t tb s (locked_tab false t tb s1).
Proof.
  intros T1. rewrite T1, locked_tab_lookup. split; [done|].
  unfold unlocked. cbn [hs_tabs locked_tab set_tab]. unfold locked_tab. cbn [hs_tabs set_tab].
  rewrite T1. apply insert_insert_eq.
Qed.

Lemma hs_with_lists_al f s s' : hs_with_lists f s = Done s' -> hs_al s' = hs_al s.
Proof. unfold hs_with_lists. intros H. by invert_outcome. Qed.
Lemma release_table_al t s s' : release_table t s = Done s' -> hs_al s' = hs_al s.
Proof. unfold release_table. intros H. invert_outcome. by destruct (ht_lock _); invert_outcome. Qed.

(** The page a new entry takes. *)
Lemma hash_insert_al s L E R t tb key c v holding s' :
  hash_ok s L E R -> hs_tabs s !! t = Some tb -> ht_lock tb = holding -> key_code (ht_type tb) key = Done c ->
  E !! (t, c) = None -> hash_insert t key v holding s = Done s' ->
  exists n, pa_kmalloc sizeof_hash_node (hs_al s) = Done (Some n, hs_al s').
Proof.
  intros K Et El Ec Ee. unfold hash_insert. rewrite (hash_lookup_ok s L E R t tb key c) by done. ocbn.
  rewrite Ee. cbn [fmap option_fmap option_map negb]. rewrite (tab_at_run _ _ _ (locked_tab_lookup _ _ _ _)). ocbn.
  intros H. apply bind_Done in H as (s1 & H & Hr). apply bind_Done in H as ([p a] & Ea & H). cbn in Ea, H.
  invert_outcome. subst.
  repeat match goal with Hl : hs_with_lists _ _ = Done _ |- _ => apply hs_with_lists_al in Hl end.
  apply release_table_al in Hr. rewrite Hr, H, H2. by eexists.
Qed.

Lemma hash_insert_ok s L E R t tb key c v holding :
  hash_ok s L E R -> hs_tabs s !! t = Some tb -> ht_lock tb = holding ->
  key_code (ht_type tb) key = Done c -> key_fits key -> free_value s E R tb v ->
  hash_insert t key v holding s = Undef /\ pa_kmalloc sizeof_hash_node (hs_al s) = Done (None, hs_al s) \/
  exists s' L' R' e, hash_insert t key v holding s = Done s' /\ unlocked t tb s s' /\
    hash_ok s' L' (<[(t, c) := e]> E) R' /\ he_value e = v /\ (E !! (t, c) = None -> he_key e = key).
Proof.
  intros K Et El Ec Hf Hv. unfold hash_insert. rewrite (hash_lookup_ok s L E R t tb key c) by done. ocbn.
  cbn [negb]. set (s1 := locked_tab true t tb s).
  pose proof (locked_ok _ _ _ _ _ _ true K Et) as K1. fold s1 in K1.
  assert (hs_tabs s1 !! t = Some (with_lock true tb)) as Et1 by apply locked_tab_lookup.
  rewrite (tab_at_run _ _ _ Et1). ocbn. change (ht_type (with_lock true tb)) with (ht_type tb).
  assert (free_value s1 E R (with_lock true tb) v) as Hv1.
  { intros Hw. destruct (Hv Hw) as [Ho Hn]. split; [exact Ho|]. intros u d tu e Eu Ee.
    destruct (hk_entry _ _ _ _ K _ _ _ Ee) as (tu' & Eu' & _).
    assert (ht_type tu = ht_type tu') as Hty.
    { unfold s1, locked_tab, set_tab in Eu. cbn [hs_tabs] in Eu. destruct (decide (t = u)) as [<-|].
      - rewrite lookup_insert_eq in Eu. injection Eu as <-. cbn. congruence.
      - rewrite lookup_insert_ne in Eu by done. congruence. }
    unfold he_blocks. rewrite Hty. by apply (Hn u d). }
  destruct (E !! (t, c)) as [e|] eqn:Ee; cbn [fmap option_fmap option_map].
  - right. destruct (hk_entry _ _ _ _ K1 _ _ _ Ee) as (tb' & Et' & En & _). rewrite En. ocbn. cbn [hn_key hn_value].
    destruct (hash_update_ok s1 L E R t _ c e v K1 Et1 Ee Hv1) as (s2 & R2 & E2 & T2 & K2).
    cbn [ht_type with_lock] in E2. rewrite E2. ocbn.
    destruct (unlocked_after s s2 t tb T2) as [Et2 Hun].
    destruct (release_after _ _ _ _ _ _ K2 Et2) as [-> K3]. do 4 eexists. split; [done|]. done.
  - destruct (kmalloc_fresh (hs_al s1) R sizeof_hash_node (hk_alloc _ _ _ _ K1)) as [Ek|(q & a' & R' & F & Ek)].
    { unfold sizeof_hash_node, PGSIZE. lia. }
    { left. rewrite Ek. done. }
    right. rewrite Ek. ocbn. rewrite (key_codes _ _ _ Ec Hf). ocbn.
    destruct (hash_add_ok s1 L E R t _ c key v q a' R' K1 Et1 Ee Ec Hv1 F) as (s2 & L2 & E2 & T2 & K2).
    cbv zeta in E2. cbn [ht_head ht_size with_lock] in E2. rewrite E2. ocbn.
    destruct (unlocked_after s s2 t tb T2) as [Et2 Hun].
    destruct (release_after _ _ _ _ _ _ K2 Et2) as [-> K3]. do 4 eexists. split; [done|]. done.
Qed.

Lemma hash_delete_ok s L E R t tb key c holding rel :
  hash_ok s L E R -> hs_tabs s !! t = Some tb -> ht_lock tb = holding -> key_code (ht_type tb) key = Done c ->
  exists s' L' R', hash_delete t key holding rel s = Done s' /\ 
    hs_tabs s' = <[t := with_lock (negb rel) tb]> (hs_tabs s) /\ hash_ok s' L' (delete (t, c) E) R'.
Proof.
  intros K Et El Ec. unfold hash_delete. rewrite (hash_lookup_ok s L E R t tb key c) by done. ocbn.
  cbn [negb]. set (s1 := locked_tab true t tb s).
  pose proof (locked_ok _ _ _ _ _ _ true K Et) as K1. fold s1 in K1.
  assert (hs_tabs s1 !! t = Some (with_lock true tb)) as Et1 by apply locked_tab_lookup.
  rewrite (tab_at_run _ _ _ Et1). ocbn. change (ht_type (with_lock true tb)) with (ht_type tb).
  assert (exists s2 L2 R2, match he_node <$> E !! (t, c) with
      | Some n => s ← hs_with_lists (lh_del_reinit n) s1; nd ← deref (hs_nodes s !! n);
          s ← (if owns_values (ht_type tb) then hs_kfree (hn_value nd) s else Done s); free_node n s
      | None => Done s1 end = Done s2 /\ hs_tabs s2 = hs_tabs s1 /\ hash_ok s2 L2 (delete (t, c) E) R2)
    as (s2 & L2 & R2 & -> & T2 & K2).
  { destruct (E !! (t, c)) as [e|] eqn:Ee; cbn [fmap option_fmap option_map].
    - destruct (hash_remove_ok s1 L E R t _ c e K1 Et1 Ee) as (s2 & L2 & R2 & E2 & T2 & K2). by exists s2, L2, R2.
    - exists s1, L, R. rewrite delete_id by done. done. }
  ocbn. destruct (unlocked_after s s2 t tb T2) as [Et2 Hun]. destruct rel; cbn [negb].
  - destruct (release_after _ _ _ _ _ _ K2 Et2) as [-> K3]. by exists (locked_tab false t tb s2), L2, R2.
  - by exists s2, L2, R2.
Qed.
(** *** Initialisation *)

Lemma init_entries_ok m b i s L : lh_rep HS XS (hs_lists s) L ->
  (forall j, i <= j < i + Z.of_nat m -> (b, j) ∈ HS) ->
  exists w L', init_entries m b i s = Done (HSt (hs_tabs s) (hs_nodes s) w (hs_al s)) /\ lh_rep HS XS w L' /\
    (forall j, i <= j < i + Z.of_nat m -> L' !! (b, j) = Some []) /\
    (forall h, (forall j, i <= j < i + Z.of_nat m -> h <> (b, j)) -> L' !! h = L !! h).
Proof.
  revert i s L. induction m as [|m IH]; intros i s L HR Hb; cbn [init_entries].
  { exists (hs_lists s), L. split_and!; [by destruct s|done|lia|done]. }
  destruct (lh_init_rep HS XS (hs_lists s) L (b, i) HR) as (w1 & E1 & R1); [apply Hb; lia|].
  unfold hs_with_lists. rewrite E1. ocbn.
  destruct (IH (i + 1) (HSt (hs_tabs s) (hs_nodes s) w1 (hs_al s)) (<[(b, i) := []]> L) R1)
    as (w & L' & -> & HR' & Hin & Hout); [intros j Hj; apply Hb; lia|].
  exists w, L'. split_and!; [done|done| |].
  - intros j Hj. destruct (decide (j = i)) as [->|]; [|apply Hin; lia].
    rewrite Hout by (intros k Hk [=]; lia). apply lookup_insert_eq.
  - intros h Hh. rewrite Hout by (intros k Hk; apply Hh; lia).
    apply lookup_insert_ne. intros <-. apply (Hh i); [lia|done].
Qed.

(** A table whose array is set up is empty; the others keep their contents. *)
Lemma hash_table_entry_init_ok s L E R t tb :
  hs_tabs s !! t = Some tb -> 0 < ht_size tb -> ht_size tb * sizeof_hash_entry <= PGSIZE * 2 ^ BUDDY_MAX_ORDER ->
  hash_ok (HSt (delete t (hs_tabs s)) (hs_nodes s) (hs_lists s) (hs_al s)) L E R ->
  (forall u tu, u <> t -> hs_tabs s !! u = Some tu -> owned (hs_al s) R (ht_head tu)) ->
  (forall q i, 0 <= q < NPAGES -> 0 <= i < ht_size tb -> (page_to_pa q, i) ∈ HS) ->
  hash_table_entry_init t s = Undef /\
    pa_kmalloc (ht_size tb * sizeof_hash_entry) (hs_al s) = Done (None, hs_al s) \/
  exists s' L' R' b, hash_table_entry_init t s = Done s' /\ hash_ok s' L' E R' /\
    hs_tabs s' = <[t := HTab (ht_type tb) (ht_size tb) b (ht_lock tb)]> (hs_tabs s) /\
    (forall u tu, hs_tabs s' !! u = Some tu -> owned (hs_al s') R' (ht_head tu)).
Proof.
  intros Et Hs Hsz K Hown HHS. unfold hash_table_entry_init. rewrite (tab_at_run _ _ _ Et). ocbn.
  destruct (kmalloc_owned (hs_al s) R (ht_size tb * sizeof_hash_entry) (hk_alloc _ _ _ _ K))
    as [Ek|(q & a' & R' & -> & Hq & Ha' & Hqo & Hkeep)]; [unfold sizeof_hash_entry in *; lia| |].
  { left. by rewrite Ek. }
  right. ocbn. set (b := page_to_pa q) in *. set (tb' := HTab (ht_type tb) (ht_size tb) b (ht_lock tb)).
  destruct (init_entries_ok (Z.to_nat (ht_size tb)) b 0 (set_tab t tb' (hs_with_al a' s)) L (hk_lists _ _ _ _ K))
    as (w & L' & -> & HR & Hin & Hout); [intros j Hj; apply HHS; lia|].
  rewrite Z2Nat.id in Hin, Hout by lia.
  assert (forall u tu, u <> t -> hs_tabs s !! u = Some tu -> ht_head tu <> b) as Hb.
  { intros u tu Hu Eu. by apply Hkeep, (Hown u). }
  assert (forall u, u <> t -> hs_tabs (HSt (delete t (hs_tabs s)) (hs_nodes s) (hs_lists s) (hs_al s)) !! u =
    hs_tabs s !! u) as Hdel by (intros u Hu; cbn [hs_tabs]; by rewrite lookup_delete_ne by congruence).
  assert (forall u c e, E !! (u, c) = Some e -> u <> t) as HE.
  { intros u c e Ee ->. destruct (hk_entry _ _ _ _ K _ _ _ Ee) as (tu & Eu & _).
    cbn [hs_tabs] in Eu. by rewrite lookup_delete_eq in Eu. }
  assert (forall u tu, <[t := tb']> (hs_tabs s) !! u = Some tu ->
    u = t /\ tu = tb' \/ u <> t /\ hs_tabs s !! u = Some tu) as Hlook.
  { intros u tu. rewrite lookup_insert_Some. intros [[-> ->]|[Hu Eu]]; [by left|right]. split; congruence. }
  eexists _, L', R', b. split; [reflexivity|]. split; [|split; [done|]].
  - constructor; cbn [hs_tabs hs_nodes hs_lists hs_al set_tab hs_with_al]; try done.
    + intros u tu [[-> ->]|[Hu Eu]]%Hlook; [done|]. eapply (hk_size _ _ _ _ K). by rewrite Hdel.
    + intros t1 t2 tb1 tb2 [[-> ->]|[H1 E1]]%Hlook [[-> ->]|[H2 E2]]%Hlook Hh; [done| | |].
      * exfalso. by apply (Hb t2 tb2).
      * exfalso. by apply (Hb t1 tb1).
      * eapply (hk_apart _ _ _ _ K); [by rewrite Hdel|by rewrite Hdel|done].
    + intros u tu i [[-> ->]|[Hu Eu]]%Hlook Hi.
      * exists []. split; [by apply Hin|]. intros n. split; [intros []%not_elem_of_nil|].
        intros (c & e & Ee & _). by apply HE in Ee.
      * destruct (hk_chain _ _ _ _ K u tu i) as (l & El & Hl); [by rewrite Hdel|done|]. exists l. split; [|done].
        rewrite Hout; [done|]. intros j _ [= Hj _]. by apply (Hb u tu).
    + intros h l n Eh Hn. destruct (decide (h.1 = b /\ 0 <= h.2 < ht_size tb)) as [[Hh1 Hh2]|Hh].
      * destruct h as [h1 h2]. cbn in Hh1, Hh2. subst h1. rewrite Hin in Eh by done. injection Eh as <-.
        by apply not_elem_of_nil in Hn.
      * eapply (hk_linked _ _ _ _ K h l); [|done]. rewrite <- Hout; [done|]. intros j Hj ->. by apply Hh.
    + intros u c e Ee. pose proof (HE _ _ _ Ee) as Hu.
      destruct (hk_entry _ _ _ _ K _ _ _ Ee) as (tu & Eu & En & Ek & Hnd & Ho). rewrite Hdel in Eu by done.
      exists tu. rewrite lookup_insert_ne by congruence. split_and!; try done.
      intros p Hp. apply Hkeep. by apply Ho.
    + intros t1 t2 c1 c2 e1 e2 tb1 tb2 p [[-> _]|[N1 T1]]%Hlook [[-> _]|[N2 T2]]%Hlook E1 E2;
        try (exfalso; by eapply HE); [by apply HE in E1|].
      eapply (hk_sep _ _ _ _ K); [by rewrite Hdel|by rewrite Hdel|done..].
  - intros u tu. cbn [hs_tabs hs_al set_tab hs_with_al]. intros [[-> ->]|[Hu Eu]]%Hlook; [done|].
    by apply Hkeep, (Hown u).
Qed.

(** No table at all. *)
Lemma no_tables s R : lh_rep HS XS (hs_lists s) ∅ -> pa_rep (hs_al s) R -> hs_tabs s = ∅ -> hash_ok s ∅ ∅ R.
Proof. intros HL Ha Ht. constructor; rewrite ?Ht; done. Qed.
End theory.

(** ** Sessions *)

Section session.
Context {W A : Type} `{LO : !ListOps (Z * Z) Z W, LH : !ListHeap (Z * Z) Z W}.
Context `{IN : !IdleNodes (Z * Z) Z W} `{!PageAlloc A, !PageAllocOk A}.

(** What the users of the integer tables do: enter an object under its id, look
    an id up ([find_get_pid], [find_get_tid], [ipc_hash_lookup]), remove it. *)
Inductive hop :=
  | HInsert (t k v : Z)
  | HLookup (t k : Z)
  | HDelete (t k : Z).

Definition hop_key (o : hop) : Z * Z :=
  match o with HInsert t k _ | HLookup t k | HDelete t k => (t, k) end.

Definition run_hop (o : hop) (s : hstate W A) : outcome (list (option Z) * hstate W A) :=
  match o with
  | HInsert t k v => s ← hash_insert t (KId k) v false s; Done ([], s)
  | HLookup t k =>
      '(r, _, s) ← hash_lookup t (KId k) true false s;
      match r with
      | Some n => nd ← deref (hs_nodes s !! n); Done ([Some (hn_value nd)], s)
      | None => Done ([None], s)
      end
  | HDelete t k => s ← hash_delete t (KId k) false true s; Done ([], s)
  end.

Fixpoint run_hops (os : list hop) (s : hstate W A) : outcome (list (option Z) * hstate W A) :=
  match os with
  | [] => Done ([], s)
  | o :: os => '(r, s) ← run_hop o s; '(rs, s) ← run_hops os s; Done (r ++ rs, s)
  end.

(** The same on a finite map. *)
Fixpoint run_map (os : list hop) (M : gmap (Z * Z) Z) : list (option Z) :=
  match os with
  | [] => []
  | HInsert t k v :: os => run_map os (<[(t, k) := v]> M)
  | HLookup t k :: os => M !! (t, k) :: run_map os M
  | HDelete t k :: os => run_map os (delete (t, k) M)
  end.

Definition id_table (tb : hash_table) : Prop :=
  match ht_type tb with PID_MAP | TID_MAP | IPC_IDX_MAP => True | _ => False end.

(** Tables of integers whose lock is free. *)
Definition id_tables (T : gmap Z hash_table) (ts : list Z) : Prop :=
  forall t, t ∈ ts -> exists tb, T !! t = Some tb /\ id_table tb /\ ht_lock tb = false.

Lemma id_tables_unlock T ts t tb : id_tables T ts -> T !! t = Some tb ->
  id_tables (<[t := with_lock false tb]> T) ts.
Proof.
  intros H Et u Hu. destruct (decide (t = u)) as [<-|].
  - destruct (H t Hu) as (tb' & Et' & Hi & _). eexists. rewrite lookup_insert_eq. split; [done|].
    replace tb' with tb in Hi by congruence. done.
  - rewrite lookup_insert_ne by done. by apply H.
Qed.

Lemma id_key tb k : id_table tb -> key_code (ht_type tb) (KId k) = Done k /\ owns_values (ht_type tb) = false.
Proof. unfold id_table. by destruct (ht_type tb). Qed.

(** C12.  Any sequence of insertions, lookups and removals on the integer tables
    (process, thread and IPC ids), whatever tables it mixes, gives the answers
    of a finite map; only an insertion whose kmalloc is refused (its NULL is not
    tested) breaks it. *)
Theorem hash_session_refines (HS : gset (Z * Z)) (XS : gset Z) os (s : hstate W A) L E R :
  (forall q, 0 <= q < NPAGES -> page_to_pa q ∈ XS) -> hash_ok HS XS s L E R ->
  id_tables (hs_tabs s) ((fun o => (hop_key o).1) <$> os) ->
  (exists os1 o os2 r s1, os = os1 ++ o :: os2 /\ run_hops os1 s = Done (r, s1) /\
     pa_kmalloc sizeof_hash_node (hs_al s1) = Done (None, hs_al s1) /\ run_hops os s = Undef) \/
  exists s', run_hops os s = Done (run_map os (he_value <$> E), s').
Proof.
  intros HXS. revert s L E R. induction os as [|o os IH]; intros s L E R K HT; cbn [run_hops run_map].
  { right. by exists s. }
  cbn [fmap list_fmap] in HT. destruct (HT (hop_key o).1 (list_elem_of_here _ _)) as (tb & Et & Hi & Hl).
  assert (id_tables (hs_tabs s) ((fun o => (hop_key o).1) <$> os)) as HT' by (intros u Hu; apply HT; by right).
  assert (forall r s1 L1 E1 R1, run_hop o s = Done (r, s1) -> hash_ok HS XS s1 L1 E1 R1 ->
    hs_tabs s1 = <[(hop_key o).1 := with_lock false tb]> (hs_tabs s) ->
    let run := ('(r, s) ← run_hop o s; '(rs, s) ← run_hops os s; Done (r ++ rs, s)) in
    (exists os1 o' os2 r s1, o :: os = os1 ++ o' :: os2 /\ run_hops os1 s = Done (r, s1) /\
       pa_kmalloc sizeof_hash_node (hs_al s1) = Done (None, hs_al s1) /\ run = Undef) \/
    exists s', run = Done (r ++ run_map os (he_value <$> E1), s')) as Hgo.
  { intros r s1 L1 E1 R1 Er K1 Hu. cbv zeta. rewrite Er. ocbn.
    destruct (IH s1 L1 E1 R1 K1) as [(os1 & o' & os2 & r' & s2 & -> & E2 & Ek & Eu)|[s' ->]];
      [rewrite Hu; by apply id_tables_unlock| |].
    - left. exists (o :: os1), o', os2, (r ++ r'), s2. cbn [run_hops]. rewrite Er. ocbn.
      rewrite Eu, E2. done.
    - right. by exists s'. }
  destruct o as [t k v|t k|t k]; cbn [hop_key fst] in Et, Hgo; cbn [run_hop] in Hgo |- *;
    destruct (id_key tb k Hi) as [Ec Hw].
  - destruct (hash_insert_ok HS XS HXS s L E R t tb (KId k) k v false K Et Hl Ec I) as [[Ei Hr]|H].
    { intros Hw'. congruence. }
    { left. exists [], (HInsert t k v), os, [], s. rewrite Ei. done. }
    destruct H as (s1 & L1 & R1 & e & Ei & Hu & K1 & Hv & _). rewrite Ei in Hgo |- *.
    pose proof (Hgo [] s1 L1 _ R1 eq_refl K1 Hu) as H. rewrite fmap_insert, Hv in H. exact H.
  - rewrite (hash_lookup_ok HS XS s L E R t tb (KId k) k) in Hgo |- * by done. ocbn. ocbn_in Hgo. cbn [negb] in Hgo |- *.
    pose proof (locked_ok HS XS s L E R t tb false K Et) as K1.
    refine (Hgo [(he_value <$> E) !! (t, k)] _ L E R _ K1 eq_refl).
    rewrite lookup_fmap. destruct (E !! (t, k)) as [e|] eqn:Ee; cbn [fmap option_fmap option_map]; [|done].
    destruct (hk_entry _ _ _ _ _ _ K _ _ _ Ee) as (_ & _ & En & _).
    change (hs_nodes (locked_tab false t tb s)) with (hs_nodes s). by rewrite En.
  - destruct (hash_delete_ok HS XS s L E R t tb (KId k) k false true K Et Hl Ec) as (s1 & L1 & R1 & Ed & Hu & K1).
    rewrite Ed in Hgo |- *. pose proof (Hgo [] s1 L1 _ R1 eq_refl K1 Hu) as H.
    rewrite fmap_delete in H. exact H.
Qed.

(** A directory's table tells names apart only by their hashes: looking up
    a name returns the node of another one with the same hash. *)
Theorem hash_lookup_other_name (HS : gset (Z * Z)) (XS : gset Z) (s : hstate W A) L E R t tb e a b rel :
  hash_ok HS XS s L E R -> hs_tabs s !! t = Some tb -> ht_type tb = INODE_MAP -> ht_lock tb = false ->
  E !! (t, hash_str a) = Some e -> he_key e = KName a -> a <> b -> hash_str a = hash_str b ->
  exists s', hash_lookup t (KName b) rel false s =
      Done (Some (he_node e), (ht_head tb, bucket (ht_size tb) (hash_str b)), s') /\
    hs_nodes s' !! he_node e = Some (HNode (KName a) (he_value e)).
Proof.
  intros K Et Ety El Ee Ek Hne Hh. exists (locked_tab (negb rel) t tb s). split.
  - rewrite (hash_lookup_ok HS XS s L E R t tb (KName b) (hash_str b)) by (rewrite ?Ety; done).
    rewrite <- Hh, Ee. done.
  - change (hs_nodes (locked_tab (negb rel) t tb s)) with (hs_nodes s).
    destruct (hk_entry _ _ _ _ _ _ K _ _ _ Ee) as (_ & _ & En & _). by rewrite <- Ek.
Qed.
End session.

(** ** A concrete table of one chain *)

Definition demo_heads : gset (Z * Z) := {[(0x50, 0)]}.
Definition demo_links : Type := gmap (lptr (Z * Z) Z) (list_head (lptr (Z * Z) Z)).

Lemma demo_hash (ty : hash_type) : exists (w : demo_links) L,
  hash_ok demo_heads demo_pages (HSt {[0x100 := HTab ty 1 0x50 false]} ∅ w demo_used) L ∅ demo_used.
Proof.
  destruct (lh_init_rep demo_heads demo_pages (blank_lists demo_heads demo_pages) ∅ (0x50, 0))
    as (w & _ & HR); [exact (blank_lists_rep demo_heads demo_pages)|by apply elem_of_singleton|].
  exists w, (<[(0x50, 0) := []]> ∅). constructor; cbn [hs_tabs hs_nodes hs_lists hs_al].
  - exact HR.
  - exact demo_used_rep.
  - intros t tb [<- <-]%lookup_singleton_Some. done.
  - intros t1 t2 tb1 tb2 [<- _]%lookup_singleton_Some [<- _]%lookup_singleton_Some. done.
  - intros t tb i [<- <-]%lookup_singleton_Some Hi. cbn [ht_size ht_head] in *. replace i with 0 by lia.
    exists []. split; [apply lookup_insert_eq|]. intros n. split; [intros []%not_elem_of_nil|].
    intros (c & e & Ee & _). by rewrite lookup_empty in Ee.
  - intros h l n El Hn. apply lookup_insert_Some in El as [[_ <-]|[_ El]]; [by apply not_elem_of_nil in Hn|].
    by rewrite lookup_empty in El.
  - intros t c e Ee. by rewrite lookup_empty in Ee.
  - intros t1 t2 c1 c2 e1 e2 tb1 tb2 p _ _ Ee. by rewrite lookup_empty in Ee.
Qed.

Definition demo_hops : list hop :=
  [HInsert 0x100 7 70; HInsert 0x100 9 90; HLookup 0x100 7; HDelete 0x100 7; HLookup 0x100 7; HLookup 0x100 9].

Lemma hash_session_refines_witness : exists (s : hstate demo_links spare),
  (exists os1 o os2 r s1, demo_hops = os1 ++ o :: os2 /\ run_hops os1 s = Done (r, s1) /\
     pa_kmalloc sizeof_hash_node (hs_al s1) = Done (None, hs_al s1) /\ run_hops demo_hops s = Undef) \/
  exists s', run_hops demo_hops s = Done ([Some 70; None; Some 90], s').
Proof.
  destruct (demo_hash TID_MAP) as (w & L & K). eexists.
  refine (hash_session_refines demo_heads demo_pages demo_hops _ L ∅ demo_used demo_pages_elem K _).
  intros t Ht. exists (HTab TID_MAP 1 0x50 false). split; [|split; [exact I|reflexivity]].
  assert (t = 0x100) as -> by (cbn in Ht; set_solver). apply lookup_singleton_eq.
Defined.

(** The names "Aa" and "BB". *)
Lemma hash_lookup_other_name_witness : exists (s s' : hstate demo_links spare) n en nd,
  hash_lookup 0x100 (KName [66; 66]) true false s = Done (Some n, en, s') /\
  hs_nodes s' !! n = Some nd /\ hn_key nd = KName [65; 97].
Proof.
  destruct (demo_hash INODE_MAP) as (w & L & K).
  destruct (hash_insert_ok demo_heads demo_pages demo_pages_elem _ L ∅ demo_used 0x100 (HTab INODE_MAP 1 0x50 false)
    (KName [65; 97]) 2112 (page_to_pa 3) false K) as [[_ H]|H].
  - apply lookup_singleton_eq.
  - reflexivity.
  - reflexivity.
  - split; reflexivity.
  - intros _. split.
    + exists 3, 0. split; [reflexivity|]. split; [change NPAGES with 251904; lia|].
      split; [apply lookup_singleton_eq|apply not_elem_of_empty].
    + intros u d tu e _ Ee. by rewrite lookup_empty in Ee.
  - exfalso. discriminate H.
  - destruct H as (s & L' & R' & e & _ & Hu & K' & _ & Hk).
    destruct (hash_lookup_other_name demo_heads demo_pages s L' _ R' 0x100 (HTab INODE_MAP 1 0x50 false) e
      [65; 97] [66; 66] true K') as (s' & E & En).
    + rewrite Hu. apply lookup_insert_eq.
    + reflexivity.
    + reflexivity.
    + apply lookup_insert_eq.
    + apply Hk. apply lookup_empty.
    + discriminate.
    + reflexivity.
    + exists s, s'. do 3 eexists. split; [exact E|]. split; [exact En|reflexivity].
Defined.
