(* ===== verification/Spinlock.v ===== *)
(** * Spinlock: mutual exclusion ([src/atomic/spinlock.c])

    The routines of the file as the sequences of memory accesses they are: the
    atomic swap of [_acquire], the writes of the owner's cpu, the clearing of
    [locked], and the nesting of [push_off] and [pop_off].  Any number of cpus
    run them at the same time, so the theorem is about the interleavings of
    those accesses: a step relation over the machine and what every cpu is
    doing. *)

From stdpp Require Import base gmap sets list fin_maps relations functions.
From Stdlib Require Import ZArith Lia.
From S2P Require Import Prelude.
#[local] Open Scope Z_scope.

(** ** The machine *)

(** [struct thread_cpu], and the interrupt-enable bit of [sstatus]. *)
Record thread_cpu := Cpu { noff : Z; intena : bool; intr_get : bool }.

(** [struct spinlock]; a cpu is its number, NULL is [None]. *)
Record spinlock := Lock { locked : bool; lk_cpu : option Z }.

Record machine := Mach { cpus : gmap Z thread_cpu; locks : gmap Z spinlock }.

Definition cpu_at (m : machine) (c : Z) : outcome thread_cpu := deref (cpus m !! c).
Definition lock_at (m : machine) (l : Z) : outcome spinlock := deref (locks m !! l).
Definition set_cpu (c : Z) (v : thread_cpu) (m : machine) : machine := Mach (<[c := v]> (cpus m)) (locks m).
Definition set_lock (l : Z) (v : spinlock) (m : machine) : machine := Mach (cpus m) (<[l := v]> (locks m)).

Definition initlock : spinlock := Lock false None.

(** *** Interrupts *)

Definition push_off (c : Z) (m : machine) : outcome machine :=
  p ← cpu_at m c;
  let old := intr_get p in
  let ena := if noff p =? 0 then old else intena p in
  Done (set_cpu c (Cpu (noff p + 1) ena false) m).

Definition pop_off (c : Z) (m : machine) : outcome machine :=
  p ← cpu_at m c;
  if intr_get p then Panic
  else if noff p <? 1 then Panic
  else
    let n := noff p - 1 in
    Done (set_cpu c (Cpu n (intena p) ((n =? 0) && intena p)) m).

(** *** Locks *)

Definition holding (c l : Z) (m : machine) : outcome bool :=
  k ← lock_at m l; Done (locked k && bool_decide (lk_cpu k = Some c)).

(** [_acquire] up to the spin loop. *)
Definition acquire_enter (c l : Z) (m : machine) : outcome machine :=
  m ← push_off c m;
  h ← holding c l m;
  if (h : bool) then Panic else Done m.

(** [__sync_lock_test_and_set(&lk->locked, 1)]: the old value. *)
Definition test_and_set (l : Z) (m : machine) : outcome (bool * machine) :=
  k ← lock_at m l; Done (locked k, set_lock l (Lock true (lk_cpu k)) m).

(** [lk->cpu = ...] *)
Definition set_owner (o : option Z) (l : Z) (m : machine) : outcome machine :=
  k ← lock_at m l; Done (set_lock l (Lock (locked k) o) m).

(** [__sync_lock_release(&lk->locked)] *)
Definition sync_release (l : Z) (m : machine) : outcome machine :=
  k ← lock_at m l; Done (set_lock l (Lock false (lk_cpu k)) m).

(** The routines run by one cpu without interference; [fuel] bounds the spins. *)
Fixpoint spin (fuel : nat) (l : Z) (m : machine) : outcome machine :=
  match fuel with
  | O => NoFuel
  | S fuel => '(b, m) ← test_and_set l m; if (b : bool) then spin fuel l m else Done m
  end.

Definition _acquire (fuel : nat) (c l : Z) (m : machine) : outcome machine :=
  m ← acquire_enter c l m;
  m ← spin fuel l m;
  set_owner (Some c) l m.

Definition _release (c l : Z) (m : machine) : outcome machine :=
  h ← holding c l m;
  if negb h then Panic
  else
    m ← set_owner None l m;
    m ← sync_release l m;
    pop_off c m.

(** ** All cpus at once *)

(** Where a cpu is: outside the routines, in the spin loop of [_acquire], after
    the winning swap, and at the three points of [_release]. *)
Inductive activity :=
  | Outside
  | Spinning (l : Z)
  | Won (l : Z)
  | Leaving (l : Z)
  | Cleared (l : Z)
  | Unlocked (l : Z).

#[export] Instance activity_eq_dec : EqDecision activity.
Proof. solve_decision. Defined.

(** [held c]: the locks [c] has asked for and not given back; [depth c]: the
    explicit [push_off]s it has not undone. *)
Record config := Cfg {
  mach : machine;
  act : Z -> activity;
  held : Z -> list Z;
  depth : Z -> nat
}.

Inductive lstep : config -> config -> Prop :=
  | l_enter c l m m' a h d : a c = Outside -> acquire_enter c l m = Done m' ->
      lstep (Cfg m a h d) (Cfg m' (<[c := Spinning l]> a) (<[c := l :: h c]> h) d)
  | l_spin c l m m' a h d : a c = Spinning l -> test_and_set l m = Done (true, m') ->
      lstep (Cfg m a h d) (Cfg m' a h d)
  | l_win c l m m' a h d : a c = Spinning l -> test_and_set l m = Done (false, m') ->
      lstep (Cfg m a h d) (Cfg m' (<[c := Won l]> a) h d)
  | l_owner c l m m' a h d : a c = Won l -> set_owner (Some c) l m = Done m' ->
      lstep (Cfg m a h d) (Cfg m' (<[c := Outside]> a) h d)
  | l_check c l m a h d : a c = Outside -> holding c l m = Done true ->
      lstep (Cfg m a h d) (Cfg m (<[c := Leaving l]> a) h d)
  | l_clear c l m m' a h d : a c = Leaving l -> set_owner None l m = Done m' ->
      lstep (Cfg m a h d) (Cfg m' (<[c := Cleared l]> a) h d)
  | l_unlock c l m m' a h d : a c = Cleared l -> sync_release l m = Done m' ->
      lstep (Cfg m a h d) (Cfg m' (<[c := Unlocked l]> a) h d)
  | l_leave c l m m' a h d h1 h2 : a c = Unlocked l -> h c = h1 ++ l :: h2 -> pop_off c m = Done m' ->
      lstep (Cfg m a h d) (Cfg m' (<[c := Outside]> a) (<[c := h1 ++ h2]> h) d)
  | l_push c m m' a h d : a c = Outside -> push_off c m = Done m' ->
      lstep (Cfg m a h d) (Cfg m' a h (<[c := S (d c)]> d))
  | l_pop c n m m' a h d : a c = Outside -> d c = S n -> pop_off c m = Done m' ->
      lstep (Cfg m a h d) (Cfg m' a h (<[c := n]> d))
  | l_intr c b p m a h d : a c = Outside -> cpus m !! c = Some p -> noff p = 0 ->
      lstep (Cfg m a h d) (Cfg (set_cpu c (Cpu 0 (intena p) b) m) a h d).

(** [c] is between the swap that took [l] and the write that gives it back. *)
Definition inside (g : config) (c l : Z) : Prop :=
  l ∈ held g c /\ act g c <> Spinning l /\ act g c <> Unlocked l.

(** Every lock is free and no cpu is in a routine. *)
Definition all_free (g : config) : Prop :=
  (forall l k, locks (mach g) !! l = Some k -> k = initlock) /\
  (forall c, act g c = Outside /\ held g c = [] /\ depth g c = O) /\
  (forall c p, cpus (mach g) !! c = Some p -> noff p = 0).

(** ** The invariant *)

Definition touches_lock (x : activity) (l : Z) : Prop :=
  x = Spinning l \/ x = Won l \/ x = Leaving l \/ x = Cleared l \/ x = Unlocked l.

(** The lock's [cpu] field names [c]. *)
Definition named (g : config) (c l : Z) : Prop := inside g c l /\ act g c <> Won l /\ act g c <> Cleared l.

Record linv (g : config) : Prop := {
  li_lock l k : locks (mach g) !! l = Some k -> locked k = true <-> exists c, inside g c l;
  li_one c1 c2 l : inside g c1 l -> inside g c2 l -> c1 = c2;
  li_named l k c : locks (mach g) !! l = Some k -> lk_cpu k = Some c <-> named g c l;
  li_exists c l : l ∈ held g c -> is_Some (locks (mach g) !! l);
  li_nodup c : NoDup (held g c);
  li_act c l : touches_lock (act g c) l -> l ∈ held g c;
  li_intr c p : cpus (mach g) !! c = Some p ->
    noff p = Z.of_nat (depth g c + length (held g c)) /\ (0 < noff p -> intr_get p = false)
}.

(** One cpu did something with one lock. *)
Record local_step (g g' : config) (c l : Z) : Prop := {
  ls_other c' : c' <> c -> act g' c' = act g c' /\ held g' c' = held g c' /\ depth g' c' = depth g c' /\
    cpus (mach g') !! c' = cpus (mach g) !! c';
  ls_locks l' : l' <> l -> locks (mach g') !! l' = locks (mach g) !! l';
  ls_dom : is_Some (locks (mach g) !! l) -> is_Some (locks (mach g') !! l);
  ls_elsewhere l' : l' <> l -> inside g' c l' <-> inside g c l';
  ls_act l' : l' <> l -> ~ touches_lock (act g' c) l' /\ ~ touches_lock (act g c) l';
  ls_held : NoDup (held g' c) /\ (forall l', l' ∈ held g' c -> is_Some (locks (mach g') !! l')) /\
    (touches_lock (act g' c) l -> l ∈ held g' c);
  ls_cpu p : cpus (mach g') !! c = Some p ->
    noff p = Z.of_nat (depth g' c + length (held g' c)) /\ (0 < noff p -> intr_get p = false);
  ls_lock k : locks (mach g') !! l = Some k ->
    (locked k = true <-> inside g' c l \/ exists c', c' <> c /\ inside g c' l) /\
    (lk_cpu k = Some c <-> named g' c l) /\
    (forall c', c' <> c -> lk_cpu k = Some c' <-> named g c' l) /\
    (inside g' c l -> forall c', c' <> c -> ~ inside g c' l)
}.

Lemma inside_other g g' c l c' l' : local_step g g' c l -> c' <> c -> inside g' c' l' <-> inside g c' l'.
Proof. intros [] Hc. destruct (ls_other0 c' Hc) as (E1 & E2 & _). unfold inside. by rewrite E1, E2. Qed.

Lemma named_other g g' c l c' l' : local_step g g' c l -> c' <> c -> named g' c' l' <-> named g c' l'.
Proof.
  intros K Hc. unfold named. rewrite (inside_other _ _ _ _ _ _ K Hc).
  destruct (ls_other _ _ _ _ K c' Hc) as (-> & _). done.
Qed.

Lemma named_elsewhere g g' c l l' : local_step g g' c l -> l' <> l -> named g' c l' <-> named g c l'.
Proof.
  intros K Hl. unfold named. rewrite (ls_elsewhere _ _ _ _ K l' Hl).
  destruct (ls_act _ _ _ _ K l' Hl) as [H1 H2]. unfold touches_lock in *. intuition congruence.
Qed.

Lemma linv_local g g' c l : linv g -> local_step g g' c l -> linv g'.
Proof.
  intros K S. pose proof K as []. constructor.
  - intros l' k Ek. destruct (decide (l' = l)) as [->|Hl].
    + destruct (ls_lock _ _ _ _ S k Ek) as [-> _]. split.
      * intros [H|(c' & Hc & H)]; [by exists c|]. exists c'. by apply (inside_other _ _ _ _ _ _ S Hc).
      * intros [c' H]. destruct (decide (c' = c)) as [->|Hc]; [by left|right].
        exists c'. split; [done|]. by apply (inside_other _ _ _ _ _ _ S Hc).
    + rewrite (ls_locks _ _ _ _ S l' Hl) in Ek. rewrite (li_lock0 l' k Ek).
      apply exist_proper. intros c'. destruct (decide (c' = c)) as [->|Hc].
      * by rewrite (ls_elsewhere _ _ _ _ S l' Hl).
      * by rewrite (inside_other _ _ _ _ _ _ S Hc).
  - assert (forall c2 l', c2 <> c -> inside g' c l' -> inside g' c2 l' -> False) as Hx.
    { intros c2 l' Hc H1 H2. apply (inside_other _ _ _ _ _ _ S Hc) in H2. destruct (decide (l' = l)) as [->|Hl].
      - destruct (li_exists0 c2 l (proj1 H2)) as [k0 _].
        destruct (ls_held _ _ _ _ S) as (_ & Hex & _). destruct (Hex l (proj1 H1)) as [k Ek].
        by apply (ls_lock _ _ _ _ S k Ek) in H2.
      - apply (ls_elsewhere _ _ _ _ S l' Hl) in H1. apply Hc. eauto. }
    intros c1 c2 l' H1 H2. destruct (decide (c1 = c)) as [->|N1], (decide (c2 = c)) as [->|N2]; try done.
    + exfalso. eauto.
    + exfalso. eauto.
    + apply (inside_other _ _ _ _ _ _ S N1) in H1. apply (inside_other _ _ _ _ _ _ S N2) in H2. eauto.
  - intros l' k c' Ek. destruct (decide (l' = l)) as [->|Hl].
    + destruct (ls_lock _ _ _ _ S k Ek) as (_ & H1 & H2 & _). destruct (decide (c' = c)) as [->|Hc]; [done|].
      by rewrite (H2 c' Hc), (named_other _ _ _ _ _ _ S Hc).
    + rewrite (ls_locks _ _ _ _ S l' Hl) in Ek. rewrite (li_named0 l' k c' Ek).
      destruct (decide (c' = c)) as [->|Hc].
      * by rewrite (named_elsewhere _ _ _ _ _ S Hl).
      * by rewrite (named_other _ _ _ _ _ _ S Hc).
  - intros c' l' Hin. destruct (decide (c' = c)) as [->|Hc]; [by apply (ls_held _ _ _ _ S)|].
    destruct (ls_other _ _ _ _ S c' Hc) as (_ & Eh & _). rewrite Eh in Hin.
    destruct (decide (l' = l)) as [->|Hl].
    + apply (ls_dom _ _ _ _ S). eauto.
    + rewrite (ls_locks _ _ _ _ S l' Hl). eauto.
  - intros c'. destruct (decide (c' = c)) as [->|Hc]; [by apply (ls_held _ _ _ _ S)|].
    by destruct (ls_other _ _ _ _ S c' Hc) as (_ & -> & _).
  - intros c' l'. destruct (decide (c' = c)) as [->|Hc].
    + intros Ht. destruct (decide (l' = l)) as [->|Hl]; [by apply (ls_held _ _ _ _ S)|].
      by destruct (ls_act _ _ _ _ S l' Hl).
    + destruct (ls_other _ _ _ _ S c' Hc) as (-> & -> & _). auto.
  - intros c' p. destruct (decide (c' = c)) as [->|Hc]; [by apply (ls_cpu _ _ _ _ S)|].
    destruct (ls_other _ _ _ _ S c' Hc) as (_ & -> & -> & ->). auto.
Qed.

(** Only the interrupt state of one cpu changed. *)
Lemma linv_quiet g g' c : linv g -> act g' = act g -> held g' = held g -> locks (mach g') = locks (mach g) ->
  (forall c', c' <> c -> depth g' c' = depth g c' /\ cpus (mach g') !! c' = cpus (mach g) !! c') ->
  (forall p, cpus (mach g') !! c = Some p ->
    noff p = Z.of_nat (depth g' c + length (held g c)) /\ (0 < noff p -> intr_get p = false)) ->
  linv g'.
Proof.
  intros [] Ea Eh El Ho Hc.
  assert (forall c l, inside g' c l <-> inside g c l) as Hin by (intros; unfold inside; by rewrite Ea, Eh).
  constructor; rewrite ?Ea, ?Eh, ?El; try done.
  - intros l k Ek. rewrite (li_lock0 l k Ek). apply exist_proper. intros c'. by rewrite Hin.
  - intros c1 c2 l. rewrite !Hin. eauto.
  - intros l k c' Ek. rewrite (li_named0 l k c' Ek). unfold named. by rewrite Hin, Ea.
  - intros c' p. destruct (decide (c' = c)) as [->|Hne]; [apply Hc|].
    destruct (Ho c' Hne) as [-> ->]. auto.
Qed.

(** *** What each access does *)

Lemma push_off_inv c m m' : push_off c m = Done m' -> exists p e,
  cpus m !! c = Some p /\ m' = set_cpu c (Cpu (noff p + 1) e false) m.
Proof.
  unfold push_off, cpu_at. destruct (cpus m !! c) as [p|]; ocbn; [|done]. intros E%(inj Done). eauto.
Qed.

Lemma pop_off_inv c m m' : pop_off c m = Done m' -> exists p b,
  cpus m !! c = Some p /\ 0 < noff p /\ m' = set_cpu c (Cpu (noff p - 1) (intena p) b) m /\
  (0 < noff p - 1 -> b = false).
Proof.
  unfold pop_off, cpu_at. destruct (cpus m !! c) as [p|]; ocbn; [|done].
  destruct (intr_get p); [done|]. destruct (Z.ltb_spec (noff p) 1); [done|]. intros E%(inj Done).
  exists p, ((noff p - 1 =? 0) && intena p). split_and!; [done|lia|done|].
  intros Hp. destruct (Z.eqb_spec (noff p - 1) 0); [lia|done].
Qed.

Lemma holding_inv c l m b : holding c l m = Done b -> exists k,
  locks m !! l = Some k /\ (b = true <-> locked k = true /\ lk_cpu k = Some c).
Proof.
  unfold holding, lock_at. destruct (locks m !! l) as [k|]; ocbn; [|done]. intros <-%(inj Done).
  exists k. split; [done|]. by rewrite andb_true_iff, bool_decide_eq_true.
Qed.

Lemma acquire_enter_inv c l m m' : acquire_enter c l m = Done m' -> exists p e k,
  cpus m !! c = Some p /\ locks m !! l = Some k /\ ~ (locked k = true /\ lk_cpu k = Some c) /\
  m' = set_cpu c (Cpu (noff p + 1) e false) m.
Proof.
  unfold acquire_enter. intros (m1 & (p & e & Ep & ->)%push_off_inv & H)%bind_Done.
  apply bind_Done in H as (b & (k & Ek & Hk)%holding_inv & H). destruct b; [done|].
  apply (inj Done) in H as <-. exists p, e, k. split_and!; try done. rewrite <- Hk. done.
Qed.

Lemma test_and_set_inv l m b m' : test_and_set l m = Done (b, m') -> exists k,
  locks m !! l = Some k /\ b = locked k /\ m' = set_lock l (Lock true (lk_cpu k)) m.
Proof.
  unfold test_and_set, lock_at. destruct (locks m !! l) as [k|]; ocbn; [|done].
  intros [= <- <-]. by exists k.
Qed.

Lemma set_owner_inv o l m m' : set_owner o l m = Done m' -> exists k,
  locks m !! l = Some k /\ m' = set_lock l (Lock (locked k) o) m.
Proof.
  unfold set_owner, lock_at. destruct (locks m !! l) as [k|]; ocbn; [|done]. intros <-%(inj Done). by exists k.
Qed.

Lemma sync_release_inv l m m' : sync_release l m = Done m' -> exists k,
  locks m !! l = Some k /\ m' = set_lock l (Lock false (lk_cpu k)) m.
Proof.
  unfold sync_release, lock_at. destruct (locks m !! l) as [k|]; ocbn; [|done]. intros <-%(inj Done). by exists k.
Qed.

(** *** Every step keeps the invariant *)

Ltac at_cpu :=
  cbn [act held depth mach cpus locks set_cpu set_lock] in *;
  repeat first [rewrite fn_lookup_insert in * | rewrite fn_lookup_insert_ne in * by done
               | rewrite lookup_insert_eq in * | rewrite lookup_insert_ne in * by done].

(** The parts of [local_step] about other cpus and other locks. *)
Ltac elsewhere := intros; at_cpu; unfold inside, touches_lock in *; at_cpu; try set_solver by congruence.

Lemma held_outside g c l : linv g -> act g c = Outside -> l ∈ held g c -> named g c l.
Proof. intros K Ea Hl. unfold named, inside. rewrite Ea. by split_and!. Qed.

Lemma enter_ok c l m m' a h d : a c = Outside -> acquire_enter c l m = Done m' -> linv (Cfg m a h d) ->
  linv (Cfg m' (<[c := Spinning l]> a) (<[c := l :: h c]> h) d).
Proof.
  intros Ea (p & e & k & Ep & Ek & Hk & ->)%acquire_enter_inv K.
  assert (l ∉ h c) as Hl.
  { intros Hl. apply Hk. pose proof (held_outside _ c l K Ea Hl) as Hn.
    split; [apply (li_lock _ K l k Ek); exists c; apply Hn|by apply (li_named _ K l k c Ek)]. }
  assert (~ inside (Cfg m a h d) c l) as Hni by (by intros [? _]).
  apply (linv_local _ _ c l K). constructor.
  - elsewhere.
  - elsewhere.
  - elsewhere.
  - elsewhere.
  - elsewhere.
  - at_cpu. split_and!.
    + apply NoDup_cons_2; [done|]. apply (li_nodup _ K c).
    + intros l' [->|Hl']%elem_of_cons; [by eexists|]. by apply (li_exists _ K c).
    + intros _. by left.
  - intros p' Ep'. at_cpu. injection Ep' as <-. cbn [noff intr_get length].
    destruct (li_intr _ K c p Ep) as [Hn _]. cbn [held depth] in Hn. split; [lia|done].
  - intros k' Ek'. at_cpu. assert (k' = k) as -> by congruence. split_and!.
    + rewrite (li_lock _ K l k Ek). split.
      * intros [c' Hc']. right. exists c'. split; [|done]. by intros ->.
      * intros [(_ & Hs & _)|(c' & _ & Hc')]; [|by exists c']. at_cpu. done.
    + rewrite (li_named _ K l k c Ek). split; [by intros [? _]|]. intros [(_ & Hs & _) _]. at_cpu. done.
    + intros c' _. apply (li_named _ K l k c' Ek).
    + intros (_ & Hs & _). at_cpu. done.
Qed.

(** A step that neither asks for nor gives back a lock. *)
Lemma act_ok c l x m m' a h d : linv (Cfg m a h d) -> cpus m' = cpus m -> l ∈ h c ->
  (forall l', l' <> l -> locks m' !! l' = locks m !! l' /\ ~ touches_lock x l' /\ ~ touches_lock (a c) l') ->
  (is_Some (locks m !! l) -> is_Some (locks m' !! l)) ->
  (forall k, locks m' !! l = Some k ->
    let g := Cfg m a h d in let g' := Cfg m' (<[c := x]> a) h d in
    (locked k = true <-> inside g' c l \/ exists c', c' <> c /\ inside g c' l) /\
    (lk_cpu k = Some c <-> named g' c l) /\
    (forall c', c' <> c -> lk_cpu k = Some c' <-> named g c' l) /\
    (inside g' c l -> forall c', c' <> c -> ~ inside g c' l)) ->
  linv (Cfg m' (<[c := x]> a) h d).
Proof.
  intros K Ec Hl Ho Hd Hk. apply (linv_local _ _ c l K). constructor; try done.
  - intros c' Hc. cbn [act held depth mach]. rewrite Ec. by rewrite fn_lookup_insert_ne.
  - intros l' Hl'. by apply Ho.
  - intros l' Hl'. destruct (Ho l' Hl') as (_ & H1 & H2). unfold inside, touches_lock in *. at_cpu. tauto.
  - intros l' Hl'. destruct (Ho l' Hl') as (_ & H1 & H2). at_cpu. done.
  - at_cpu. split_and!; [apply (li_nodup _ K c)| |done].
    intros l' Hl'. destruct (decide (l' = l)) as [->|Hne]; [apply Hd; by apply (li_exists _ K c)|].
    destruct (Ho l' Hne) as [-> _]. by apply (li_exists _ K c).
  - intros p. cbn [mach]. rewrite Ec. apply (li_intr _ K c p).
Qed.

Lemma inside_iff m a h d c l : inside (Cfg m a h d) c l <-> l ∈ h c /\ a c <> Spinning l /\ a c <> Unlocked l.
Proof. done. Qed.

Lemma no_touch x l l' : l' <> l -> x = Outside \/ touches_lock x l -> ~ touches_lock x l'.
Proof. unfold touches_lock. intros Hne H. intuition congruence. Qed.

Lemma win_ok c l m m' a h d : a c = Spinning l -> test_and_set l m = Done (false, m') -> linv (Cfg m a h d) ->
  linv (Cfg m' (<[c := Won l]> a) h d).
Proof.
  intros Ea (k & Ek & Hf & ->)%test_and_set_inv K.
  assert (l ∈ h c) as Hl by (apply (li_act _ K c); cbn [act]; rewrite Ea; by left).
  assert (forall c', ~ inside (Cfg m a h d) c' l) as Hno.
  { intros c' Hc'. assert (locked k = true) by (apply (li_lock _ K l k Ek); by exists c'). congruence. }
  apply (act_ok c l (Won l) m _ a h d K); try done.
  - intros l' Hl'. at_cpu. split_and!; [done|..]; apply (no_touch _ l); try done; right; unfold touches_lock; tauto.
  - intros _. at_cpu. by eexists.
  - intros k' Ek'. at_cpu. injection Ek' as <-. cbv zeta. cbn [locked lk_cpu]. unfold named. rewrite !inside_iff.
    at_cpu. split_and!.
    + split; [intros _; left; by split_and!|done].
    + rewrite (li_named _ K l k c Ek). unfold named. split; [by intros [H%Hno _]|by intros (_ & H & _)].
    + intros c' _. apply (li_named _ K l k c' Ek).
    + intros _ c' _. apply Hno.
Qed.

Lemma owner_ok c l m m' a h d : a c = Won l -> set_owner (Some c) l m = Done m' -> linv (Cfg m a h d) ->
  linv (Cfg m' (<[c := Outside]> a) h d).
Proof.
  intros Ea (k & Ek & ->)%set_owner_inv K.
  assert (l ∈ h c) as Hl by (apply (li_act _ K c); cbn [act]; rewrite Ea; unfold touches_lock; tauto).
  assert (inside (Cfg m a h d) c l) as Hin by (rewrite inside_iff, Ea; by split_and!).
  assert (forall c', c' <> c -> ~ inside (Cfg m a h d) c' l) as Hno.
  { intros c' Hc Hc'. apply Hc. by apply (li_one _ K c' c l). }
  apply (act_ok c l Outside m _ a h d K); try done.
  - intros l' Hl'. at_cpu. split_and!; [done|..]; apply (no_touch _ l); try done; [by left|].
    right; rewrite Ea; unfold touches_lock; tauto.
  - intros _. at_cpu. by eexists.
  - intros k' Ek'. at_cpu. injection Ek' as <-. cbv zeta. cbn [locked lk_cpu]. unfold named. rewrite !inside_iff.
    at_cpu. split_and!.
    + rewrite (li_lock _ K l k Ek). split; [intros _; left; by split_and!|intros _; by exists c].
    + split; [intros _; by split_and!|done].
    + intros c' Hc. split; [congruence|]. intros [H _]. by apply Hno in H.
    + intros _. apply Hno.
Qed.

Lemma check_ok c l m a h d : a c = Outside -> holding c l m = Done true -> linv (Cfg m a h d) ->
  linv (Cfg m (<[c := Leaving l]> a) h d).
Proof.
  intros Ea (k & Ek & Hk)%holding_inv K. destruct (proj1 Hk eq_refl) as [Hlk Hc].
  apply (li_named _ K l k c Ek) in Hc as (Hin & _ & _). pose proof (proj1 Hin) as Hl.
  assert (forall c', c' <> c -> ~ inside (Cfg m a h d) c' l) as Hno.
  { intros c' Hc Hc'. apply Hc. by apply (li_one _ K c' c l). }
  apply (act_ok c l (Leaving l) m _ a h d K); try done.
  - intros l' Hl'. split_and!; [done|..]; apply (no_touch _ l); try done; [|by left].
    right. unfold touches_lock. tauto.
  - intros k' Ek'. assert (k' = k) as -> by congruence. cbv zeta. unfold named. rewrite !inside_iff. at_cpu. split_and!.
    + split; [intros _; left; by split_and!|done].
    + rewrite (li_named _ K l k c Ek). unfold named. rewrite inside_iff. cbn [act]. rewrite Ea. split; intros _; by split_and!.
    + intros c' _. apply (li_named _ K l k c' Ek).
    + intros _. apply Hno.
Qed.

Lemma clear_ok c l m m' a h d : a c = Leaving l -> set_owner None l m = Done m' -> linv (Cfg m a h d) ->
  linv (Cfg m' (<[c := Cleared l]> a) h d).
Proof.
  intros Ea (k & Ek & ->)%set_owner_inv K.
  assert (l ∈ h c) as Hl by (apply (li_act _ K c); cbn [act]; rewrite Ea; unfold touches_lock; tauto).
  assert (inside (Cfg m a h d) c l) as Hin by (rewrite inside_iff, Ea; by split_and!).
  assert (forall c', c' <> c -> ~ inside (Cfg m a h d) c' l) as Hno.
  { intros c' Hc Hc'. apply Hc. by apply (li_one _ K c' c l). }
  apply (act_ok c l (Cleared l) m _ a h d K); try done.
  - intros l' Hl'. at_cpu. split_and!; [done|..]; apply (no_touch _ l); try done; right;
      rewrite ?Ea; unfold touches_lock; tauto.
  - intros _. at_cpu. by eexists.
  - intros k' Ek'. at_cpu. injection Ek' as <-. cbv zeta. cbn [locked lk_cpu]. unfold named. rewrite !inside_iff.
    at_cpu. split_and!.
    + rewrite (li_lock _ K l k Ek). split; [intros _; left; by split_and!|intros _; by exists c].
    + split; [done|by intros (_ & _ & H)].
    + intros c' Hc. split; [congruence|]. intros [H _]. by apply Hno in H.
    + intros _. apply Hno.
Qed.

Lemma unlock_ok c l m m' a h d : a c = Cleared l -> sync_release l m = Done m' -> linv (Cfg m a h d) ->
  linv (Cfg m' (<[c := Unlocked l]> a) h d).
Proof.
  intros Ea (k & Ek & ->)%sync_release_inv K.
  assert (l ∈ h c) as Hl by (apply (li_act _ K c); cbn [act]; rewrite Ea; unfold touches_lock; tauto).
  assert (inside (Cfg m a h d) c l) as Hin by (rewrite inside_iff, Ea; by split_and!).
  assert (forall c', c' <> c -> ~ inside (Cfg m a h d) c' l) as Hno.
  { intros c' Hc Hc'. apply Hc. by apply (li_one _ K c' c l). }
  apply (act_ok c l (Unlocked l) m _ a h d K); try done.
  - intros l' Hl'. at_cpu. split_and!; [done|..]; apply (no_touch _ l); try done; right;
      rewrite ?Ea; unfold touches_lock; tauto.
  - intros _. at_cpu. by eexists.
  - intros k' Ek'. at_cpu. injection Ek' as <-. cbv zeta. cbn [locked lk_cpu]. unfold named. rewrite !inside_iff.
    at_cpu. split_and!.
    + split; [done|]. intros [(_ & _ & H)|(c' & Hc & H)]; [done|]. by apply Hno in H.
    + rewrite (li_named _ K l k c Ek). unfold named. cbn [act]. rewrite Ea. split; [by intros (_ & _ & H)|].
      by intros ((_ & _ & H) & _).
    + intros c' Hc. apply (li_named _ K l k c' Ek).
    + by intros (_ & _ & H).
Qed.

Lemma leave_ok c l m m' a h d h1 h2 : a c = Unlocked l -> h c = h1 ++ l :: h2 -> pop_off c m = Done m' ->
  linv (Cfg m a h d) -> linv (Cfg m' (<[c := Outside]> a) (<[c := h1 ++ h2]> h) d).
Proof.
  intros Ea Eh (p & b & Ep & Hp & -> & Hb)%pop_off_inv K.
  pose proof (li_nodup _ K c) as Hnd. cbn [held] in Hnd. rewrite Eh in Hnd. apply NoDup_mid in Hnd as [Hl Hnd].
  assert (forall l', l' ∈ h c <-> l' = l \/ l' ∈ h1 ++ h2) as Hin by (intros l'; rewrite Eh; apply elem_of_mid).
  assert (~ inside (Cfg m a h d) c l) as Hni by (rewrite inside_iff, Ea; by intros (_ & _ & H)).
  apply (linv_local _ _ c l K). constructor.
  - elsewhere.
  - elsewhere.
  - elsewhere.
  - intros l' Hl'. rewrite !inside_iff. at_cpu. rewrite Hin, Ea. intuition congruence.
  - intros l' Hl'. at_cpu. split; apply (no_touch _ l); try done; [by left|].
    right. rewrite Ea. unfold touches_lock. tauto.
  - at_cpu. split_and!; [done| |].
    + intros l' Hl'. apply (li_exists _ K c). apply Hin. by right.
    + unfold touches_lock. intuition congruence.
  - intros p' Ep'. at_cpu. injection Ep' as <-. cbn [noff intr_get].
    destruct (li_intr _ K c p Ep) as [Hn _]. cbn [held depth] in Hn. rewrite Eh in Hn.
    rewrite !length_app in *. cbn [length] in Hn. split; [lia|done].
  - intros k Ek. at_cpu. unfold named. rewrite !inside_iff. at_cpu. split_and!.
    + rewrite (li_lock _ K l k Ek). split.
      * intros [c' Hc']. right. exists c'. split; [|done]. by intros ->.
      * intros [(H & _)|(c' & _ & Hc')]; [done|by exists c'].
    + rewrite (li_named _ K l k c Ek). split; [by intros [? _]|]. by intros ((H & _) & _).
    + intros c' _. apply (li_named _ K l k c' Ek).
    + by intros (H & _).
Qed.

Lemma lstep_ok g g' : lstep g g' -> linv g -> linv g'.
Proof.
  intros [c l m m' a h d Ea Em|c l m m' a h d Ea Em|c l m m' a h d Ea Em|c l m m' a h d Ea Em|
    c l m a h d Ea Em|c l m m' a h d Ea Em|c l m m' a h d Ea Em|c l m m' a h d h1 h2 Ea Eh Em|
    c m m' a h d Ea Em|c n m m' a h d Ea Ed Em|c b p m a h d Ea Ep Hn].
  - exact (enter_ok c l m m' a h d Ea Em).
  - destruct (test_and_set_inv _ _ _ _ Em) as (k & Ek & Hk & ->). intros K.
    replace (set_lock l (Lock true (lk_cpu k)) m) with m; [done|].
    destruct m as [cs ls], k as [b o]. cbn in *. subst b. unfold set_lock. cbn. by rewrite insert_id.
  - exact (win_ok c l m m' a h d Ea Em).
  - exact (owner_ok c l m m' a h d Ea Em).
  - exact (check_ok c l m a h d Ea Em).
  - exact (clear_ok c l m m' a h d Ea Em).
  - exact (unlock_ok c l m m' a h d Ea Em).
  - exact (leave_ok c l m m' a h d h1 h2 Ea Eh Em).
  - destruct (push_off_inv _ _ _ Em) as (p & e & Ep & ->). intros K.
    apply (linv_quiet _ _ c K); try done; cbn [depth mach cpus set_cpu held].
    + intros c' Hc. by rewrite fn_lookup_insert_ne, lookup_insert_ne.
    + intros p'. rewrite lookup_insert_eq, fn_lookup_insert. intros [= <-]. cbn [noff intr_get].
      destruct (li_intr _ K c p Ep) as [Hn _]. cbn [held depth] in Hn. split; [lia|done].
  - destruct (pop_off_inv _ _ _ Em) as (p & b & Ep & Hp & -> & Hb). intros K.
    apply (linv_quiet _ _ c K); try done; cbn [depth mach cpus set_cpu held].
    + intros c' Hc. by rewrite fn_lookup_insert_ne, lookup_insert_ne.
    + intros p'. rewrite lookup_insert_eq, fn_lookup_insert. intros [= <-]. cbn [noff intr_get].
      destruct (li_intr _ K c p Ep) as [Hn' _]. cbn [held depth] in Hn'. split; [lia|done].
  - intros K. apply (linv_quiet _ _ c K); try done; cbn [depth mach cpus set_cpu held].
    + intros c' Hc. by rewrite lookup_insert_ne.
    + intros p'. rewrite lookup_insert_eq. intros [= <-]. cbn [noff intr_get].
      destruct (li_intr _ K c p Ep) as [Hn' _]. cbn [held depth] in Hn'. split; [lia|done].
Qed.

Lemma all_free_inv g : all_free g -> linv g.
Proof.
  intros (Hl & Hc & Hn).
  assert (forall c l, ~ inside g c l) as Hno.
  { intros c l [H _]. destruct (Hc c) as (_ & E & _). rewrite E in H. by apply not_elem_of_nil in H. }
  constructor.
  - intros l k Ek. rewrite (Hl l k Ek). split; [done|]. intros [c H%Hno]. done.
  - intros c1 c2 l H%Hno. done.
  - intros l k c Ek. rewrite (Hl l k Ek). split; [done|]. intros [H%Hno _]. done.
  - intros c l. destruct (Hc c) as (_ & -> & _). by intros H%not_elem_of_nil.
  - intros c. destruct (Hc c) as (_ & -> & _). constructor.
  - intros c l. destruct (Hc c) as (-> & _ & _). unfold touches_lock. intuition congruence.
  - intros c p Ep. destruct (Hc c) as (_ & -> & ->). rewrite (Hn c p Ep). cbn. done.
Qed.

Lemma reachable_inv g g' : all_free g -> rtc lstep g g' -> linv g'.
Proof. intros H%all_free_inv S. induction S; eauto using lstep_ok. Qed.

(** *** Without interference *)

Lemma acquire_free c l m p : cpus m !! c = Some p -> locks m !! l = Some initlock ->
  exists e, _acquire 1 c l m = Done (set_lock l (Lock true (Some c)) (set_cpu c (Cpu (noff p + 1) e false) m)).
Proof.
  intros Ep El. unfold _acquire, acquire_enter, push_off, cpu_at. rewrite Ep. ocbn.
  unfold holding, lock_at. cbn [locks set_cpu]. rewrite El. ocbn. cbn [initlock locked andb]. ocbn. cbn [spin].
  unfold test_and_set, lock_at. cbn [locks set_cpu]. rewrite El. ocbn. cbn [initlock locked lk_cpu]. ocbn.
  unfold set_owner, lock_at. cbn [locks set_lock]. rewrite lookup_insert_eq. ocbn. cbn [locked].
  eexists. unfold set_lock. cbn [cpus locks]. by rewrite insert_insert_eq.
Qed.

(** ** The properties *)

(** C13.  Whatever the cpus do and however their accesses interleave, at most one
    of them is between the acquisition and the release of a lock, [holding] tells
    a cpu exactly whether it is that one, and interrupts are off on it meanwhile. *)
Theorem spinlock_mutual_exclusion g g' : all_free g -> rtc lstep g g' ->
  (forall c1 c2 l, inside g' c1 l -> inside g' c2 l -> c1 = c2) /\
  (forall c l b, holding c l (mach g') = Done b -> act g' c = Outside -> b = true <-> inside g' c l) /\
  (forall c l p, inside g' c l -> cpus (mach g') !! c = Some p -> 1 <= noff p /\ intr_get p = false).
Proof.
  intros H S. pose proof (reachable_inv g g' H S) as K. split_and!.
  - exact (li_one _ K).
  - intros c l b (k & Ek & ->)%holding_inv Ea. rewrite (li_lock _ K l k Ek), (li_named _ K l k c Ek). split.
    + by intros (_ & Hn & _).
    + intros Hin. split; [by exists c|]. split; [done|]. by rewrite Ea.
  - intros c l p [Hl _] Ep. destruct (li_intr _ K c p Ep) as [Hn Hi].
    assert (length (held g' c) <> 0)%nat by (destruct (held g' c); [by apply not_elem_of_nil in Hl|done]).
    split; [lia|]. apply Hi. lia.
Qed.

(** ** Two cpus and one lock *)

Definition demo_machine : machine :=
  Mach {[0 := Cpu 0 true true; 1 := Cpu 0 true true]} {[5 := initlock]}.
Definition demo_config : config := Cfg demo_machine (fun _ => Outside) (fun _ => []) (fun _ => O).

Lemma demo_all_free : all_free demo_config.
Proof.
  split_and!.
  - intros l k Ek. change (({[5 := initlock]} : gmap Z spinlock) !! l = Some k) in Ek.
    apply lookup_singleton_Some in Ek as [_ <-]. done.
  - done.
  - intros c p. change (cpus (mach demo_config)) with (cpus demo_machine). unfold demo_machine. cbn [cpus].
    rewrite lookup_insert_Some, lookup_singleton_Some. intros [[_ <-]|[_ [_ <-]]]; done.
Qed.

(** Cpu 0 has the lock, cpu 1 spins on it. *)
Lemma spinlock_mutual_exclusion_witness : exists g', rtc lstep demo_config g' /\
  inside g' 0 5 /\ act g' 1 = Spinning 5 /\ ~ inside g' 1 5 /\ holding 0 5 (mach g') = Done true.
Proof.
  eassert (rtc lstep demo_config _) as R.
  { eapply rtc_l; [apply (l_enter 0 5); reflexivity|].
    eapply rtc_l; [apply (l_enter 1 5); reflexivity|].
    eapply rtc_l; [apply (l_win 0 5); reflexivity|].
    eapply rtc_l; [apply (l_spin 1 5); reflexivity|].
    eapply rtc_l; [apply (l_owner 0 5); reflexivity|]. apply rtc_refl. }
  destruct (spinlock_mutual_exclusion _ _ demo_all_free R) as (H1 & H2 & _).
  eexists. split; [exact R|].
  match type of R with rtc _ _ ?g => assert (inside g 0 5) as Hin by (split; [by left|by split]) end.
  split; [exact Hin|]. split; [reflexivity|]. split; [|reflexivity].
  intros Hin'. specialize (H1 0 1 5 Hin Hin'). discriminate H1.
Defined.
