(* ===== verification/Sched.v ===== *)
(** * Sched: queues, thread states and condition variables

    [src/lib/queue.c], [src/proc/sched.c] and [src/atomic/cond.c].  Every thread
    is in the queue of its state, through the [state_list] of its [struct tcb],
    and in the queue it waits on, through [wait_list]; the lists are the
    intrusive lists of [KList], used through its interface.

    A routine that holds a queue's or a thread's lock is one step.  The
    invariant [sched_ok] says that states and queues agree, and there is a
    lemma that each routine returns and keeps it. *)

From stdpp Require Import base gmap sets list fin_maps relations functions.
From Stdlib Require Import ZArith Lia.
From S2P Require Import Prelude KList.
#[local] Open Scope Z_scope.

(** ** Data *)

Inductive queue_type := TCB_STATE_QUEUE | PCB_STATE_QUEUE | TCB_WAIT_QUEUE | INODE_FREE_QUEUE.

Inductive thread_state := TCB_UNUSED | TCB_USED | TCB_RUNNABLE | TCB_RUNNING | TCB_SLEEPING.

Inductive procstate := PCB_UNUSED | PCB_USED | PCB_ZOMBIE.

#[export] Instance queue_type_eq_dec : EqDecision queue_type.
Proof. solve_decision. Defined.
#[export] Instance thread_state_eq_dec : EqDecision thread_state.
Proof. solve_decision. Defined.
#[export] Instance procstate_eq_dec : EqDecision procstate.
Proof. solve_decision. Defined.

(** A [Queue_t]: the global ones, and the one inside the condition variable (or
    futex) at an address. *)
Inductive qid :=
  | unused_p_q | used_p_q | zombie_p_q
  | unused_t_q | used_t_q | runnable_t_q | sleeping_t_q
  | waiting_queue (a : Z).

#[export] Instance qid_eq_dec : EqDecision qid.
Proof. solve_decision. Defined.

#[export] Instance qid_countable : Countable qid.
Proof.
  refine (inj_countable'
    (fun q => match q with
      | unused_p_q => inl 0 | used_p_q => inl 1 | zombie_p_q => inl 2 | unused_t_q => inl 3
      | used_t_q => inl 4 | runnable_t_q => inl 5 | sleeping_t_q => inl 6 | waiting_queue a => inr a end)
    (fun x : Z + Z => match x with
      | inl 0 => unused_p_q | inl 1 => used_p_q | inl 2 => zombie_p_q | inl 3 => unused_t_q
      | inl 4 => used_t_q | inl 5 => runnable_t_q | inl _ => sleeping_t_q | inr a => waiting_queue a end) _).
  by intros [].
Defined.

(** The list node of an object: a member of its struct. *)
Inductive qnode :=
  | state_list (t : Z)
  | proc_list (p : Z)
  | wait_list (t : Z).

#[export] Instance qnode_eq_dec : EqDecision qnode.
Proof. solve_decision. Defined.

#[export] Instance qnode_countable : Countable qnode.
Proof.
  refine (inj_countable'
    (fun n => match n with state_list t => inl t | proc_list p => inr (inl p) | wait_list t => inr (inr t) end)
    (fun x : Z + (Z + Z) => match x with
      | inl t => state_list t | inr (inl p) => proc_list p | inr (inr t) => wait_list t end) _).
  by intros [].
Defined.

(** The [void *] a queue holds. *)
Inductive qobj := Tcb (t : Z) | Pcb (p : Z).

(** [struct tcb], the fields of scheduling. *)
Record tcb := MkTcb { t_state : thread_state; wait_chan_entry : option qid }.

Section sched.
Context {W : Type} `{!ListOps qid qnode W}.

Record ksched := KSched {
  queues : gmap qid queue_type;
  threads : gmap Z tcb;
  procs : gmap Z procstate;
  qlists : W
}.

Definition sc_lists (f : W -> outcome W) (s : ksched) : outcome ksched :=
  w ← f (qlists s); Done (KSched (queues s) (threads s) (procs s) w).
Definition thread_at (s : ksched) (t : Z) : outcome tcb := deref (threads s !! t).
Definition set_thread (t : Z) (v : tcb) (s : ksched) : ksched :=
  KSched (queues s) (<[t := v]> (threads s)) (procs s) (qlists s).
Definition set_proc (p : Z) (v : procstate) (s : ksched) : ksched :=
  KSched (queues s) (threads s) (<[p := v]> (procs s)) (qlists s).

(** *** Queues *)

Definition Queue_init (q : qid) (type : queue_type) (s : ksched) : outcome ksched :=
  s ← sc_lists (lh_init q) s;
  Done (KSched (<[q := type]> (queues s)) (threads s) (procs s) (qlists s)).

Definition Queue_isempty (q : qid) (s : ksched) : outcome bool := lh_empty q (qlists s).

Definition queue_entry (o : qobj) (type : queue_type) : outcome qnode :=
  match type, o with
  | TCB_STATE_QUEUE, Tcb t => Done (state_list t)
  | PCB_STATE_QUEUE, Pcb p => Done (proc_list p)
  | TCB_WAIT_QUEUE, Tcb t => Done (wait_list t)
  | INODE_FREE_QUEUE, _ => Panic
  | _, _ => Undef
  end.

(** [list_first_entry]: the object whose member the first node is. *)
Definition queue_first_node (q : qid) (s : ksched) : outcome qobj :=
  type ← deref (queues s !! q);
  match type with
  | INODE_FREE_QUEUE => Panic
  | _ =>
      n ← lh_first q (qlists s);
      match type, n with
      | TCB_STATE_QUEUE, state_list t | TCB_WAIT_QUEUE, wait_list t => Done (Tcb t)
      | PCB_STATE_QUEUE, proc_list p => Done (Pcb p)
      | _, _ => Undef
      end
  end.

Definition Queue_push_back (q : qid) (o : qobj) (s : ksched) : outcome ksched :=
  type ← deref (queues s !! q);
  n ← queue_entry o type;
  sc_lists (lh_add_tail n q) s.

Definition Queue_remove (o : qobj) (type : queue_type) (s : ksched) : outcome ksched :=
  n ← queue_entry o type;
  sc_lists (lh_del_reinit n) s.

Definition Queue_pop (q : qid) (remove : bool) (s : ksched) : outcome (option qobj * ksched) :=
  e ← Queue_isempty q s;
  if (e : bool) then Done (None, s)
  else
    o ← queue_first_node q s;
    type ← deref (queues s !! q);
    s ← (if remove then Queue_remove o type s else Done s);
    Done (Some o, s).

(** The versions that take the queue's lock around the same work. *)
Definition Queue_isempty_atomic (q : qid) (s : ksched) : outcome bool := Queue_isempty q s.
Definition Queue_push_back_atomic (q : qid) (o : qobj) (s : ksched) : outcome ksched := Queue_push_back q o s.
Definition Queue_remove_atomic (q : qid) (o : qobj) (s : ksched) : outcome ksched :=
  type ← deref (queues s !! q);
  n ← queue_entry o type;
  sc_lists (lh_del_reinit n) s.
Definition Queue_provide_atomic (q : qid) (remove : bool) (s : ksched) : outcome (option qobj * ksched) :=
  Queue_pop q remove s.

(** *** States *)

(** The tables [STATES] and [T_STATES]; there is no queue for running threads. *)
Definition STATES (st : procstate) : qid :=
  match st with PCB_UNUSED => unused_p_q | PCB_USED => used_p_q | PCB_ZOMBIE => zombie_p_q end.
Definition T_STATES (st : thread_state) : option qid :=
  match st with
  | TCB_UNUSED => Some unused_t_q
  | TCB_USED => Some used_t_q
  | TCB_RUNNABLE => Some runnable_t_q
  | TCB_SLEEPING => Some sleeping_t_q
  | TCB_RUNNING => None
  end.

Definition PCB_Q_ALL_INIT (s : ksched) : outcome ksched :=
  s ← Queue_init unused_p_q PCB_STATE_QUEUE s;
  s ← Queue_init used_p_q PCB_STATE_QUEUE s;
  Queue_init zombie_p_q PCB_STATE_QUEUE s.

Definition TCB_Q_ALL_INIT (s : ksched) : outcome ksched :=
  s ← Queue_init unused_t_q TCB_STATE_QUEUE s;
  s ← Queue_init used_t_q TCB_STATE_QUEUE s;
  s ← Queue_init runnable_t_q TCB_STATE_QUEUE s;
  Queue_init sleeping_t_q TCB_STATE_QUEUE s.

Definition PCB_Q_changeState (p : Z) (state_new : procstate) (s : ksched) : outcome ksched :=
  st ← deref (procs s !! p);
  s ← Queue_remove_atomic (STATES st) (Pcb p) s;
  s ← Queue_push_back_atomic (STATES state_new) (Pcb p) s;
  Done (set_proc p state_new s).

Definition TCB_Q_changeState (t : Z) (state_new : thread_state) (s : ksched) : outcome ksched :=
  v ← thread_at s t;
  s ← (if decide (t_state v = TCB_RUNNING) then Queue_remove (Tcb t) TCB_STATE_QUEUE s
       else q_old ← deref (T_STATES (t_state v)); Queue_remove_atomic q_old (Tcb t) s);
  q_new ← deref (T_STATES state_new);
  s ← Queue_push_back_atomic q_new (Tcb t) s;
  v ← thread_at s t;
  Done (set_thread t (MkTcb state_new (wait_chan_entry v)) s).

Definition set_wait (t : Z) (o : option qid) (s : ksched) : outcome ksched :=
  v ← thread_at s t; Done (set_thread t (MkTcb (t_state v) o) s).

Definition is_state (t : Z) (st : thread_state) (s : ksched) : outcome bool :=
  v ← thread_at s t; Done (bool_decide (t_state v = st)).

Definition thread_wakeup (t : Z) (s : ksched) : outcome ksched :=
  v ← thread_at s t;
  ASSERT (bool_decide (wait_chan_entry v <> None));;
  q ← deref (wait_chan_entry v);
  s ← Queue_remove_atomic q (Tcb t) s;
  b ← is_state t TCB_SLEEPING s;
  ASSERT b;;
  s ← set_wait t None s;
  TCB_Q_changeState t TCB_RUNNABLE s.

(** The timers' callback: the same under the thread's lock. *)
Definition thread_wakeup_atomic (t : Z) (s : ksched) : outcome ksched := thread_wakeup t s.

(** What [thread_sched] checks before it switches: the cpu's lock depth, the
    thread's state and the interrupt bit. *)
Definition thread_sched_check (noff : Z) (intr : bool) (t : Z) (s : ksched) : outcome unit :=
  if negb (noff =? 1) then Panic
  else
    b ← is_state t TCB_RUNNING s;
    if (b : bool) then Panic else if intr then Panic else Done tt.

(** [thread_yield] and [cond_wait] up to the switch: the thread's lock is the
    only one held and interrupts are off. *)
Definition thread_yield (t : Z) (s : ksched) : outcome ksched :=
  s ← TCB_Q_changeState t TCB_RUNNABLE s;
  thread_sched_check 1 false t s;;
  Done s.

(** A round of [thread_scheduler]: the thread switched to, if there is one. *)
Definition scheduler_round (s : ksched) : outcome (option Z * ksched) :=
  '(o, s) ← Queue_provide_atomic runnable_t_q true s;
  match o with
  | None => Done (None, s)
  | Some (Tcb t) =>
      v ← thread_at s t;
      Done (Some t, set_thread t (MkTcb TCB_RUNNING (wait_chan_entry v)) s)
  | Some (Pcb _) => Undef
  end.

(** *** Condition variables *)

Definition cond_init (a : Z) (s : ksched) : outcome ksched := Queue_init (waiting_queue a) TCB_WAIT_QUEUE s.

Definition cond_wait (a : Z) (t : Z) (s : ksched) : outcome ksched :=
  s ← TCB_Q_changeState t TCB_SLEEPING s;
  s ← Queue_push_back (waiting_queue a) (Tcb t) s;
  s ← set_wait t (Some (waiting_queue a)) s;
  thread_sched_check 1 false t s;;
  Done s.

(** Waking the thread taken from the queue. *)
Definition cond_wake_one (o : option qobj) (s : ksched) : outcome ksched :=
  match o with
  | Some (Tcb t) =>
      b ← is_state t TCB_SLEEPING s;
      if negb b then Panic
      else
        v ← thread_at s t;
        ASSERT (bool_decide (wait_chan_entry v <> None));;
        s ← set_wait t None s;
        TCB_Q_changeState t TCB_RUNNABLE s
  | _ => Undef
  end.

Definition cond_signal (a : Z) (s : ksched) : outcome ksched :=
  e ← Queue_isempty_atomic (waiting_queue a) s;
  if (e : bool) then Done s
  else
    '(o, s) ← Queue_provide_atomic (waiting_queue a) true s;
    cond_wake_one o s.

Fixpoint cond_broadcast (fuel : nat) (a : Z) (s : ksched) : outcome ksched :=
  match fuel with
  | O => NoFuel
  | S fuel =>
      e ← Queue_isempty_atomic (waiting_queue a) s;
      if (e : bool) then Done s
      else
        '(o, s) ← Queue_provide_atomic (waiting_queue a) true s;
        s ← cond_wake_one o s;
        cond_broadcast fuel a s
  end.

(** *** Threads come and go *)

(** [tcb_init]: the loop over the table, [n] threads left from [i]. *)
Fixpoint tcb_init_loop (n : nat) (i : Z) (s : ksched) : outcome ksched :=
  match n with
  | O => Done s
  | S n =>
      let s := set_thread i (MkTcb TCB_UNUSED None) s in
      s ← Queue_push_back unused_t_q (Tcb i) s;
      tcb_init_loop n (i + 1) s
  end.

Definition tcb_init (n : nat) (s : ksched) : outcome ksched :=
  s ← TCB_Q_ALL_INIT s; tcb_init_loop n 0 s.

(** How [alloc_thread] claims an unused thread. *)
Definition claim_thread (s : ksched) : outcome (option Z * ksched) :=
  '(o, s) ← Queue_provide_atomic unused_t_q true s;
  match o with
  | None => Done (None, s)
  | Some (Tcb t) => s ← TCB_Q_changeState t TCB_USED s; Done (Some t, s)
  | Some (Pcb _) => Undef
  end.
End sched.
Arguments ksched : clear implicits.

(** ** Where the nodes are

    [placed s L home I]: the lists of the queues are [L], a node is in the list
    of queue [home n] and in no other, and the nodes of [I] are in no list and
    point at themselves, so that deleting them again does nothing. *)

Definition qtype (q : qid) : queue_type :=
  match q with
  | unused_p_q | used_p_q | zombie_p_q => PCB_STATE_QUEUE
  | unused_t_q | used_t_q | runnable_t_q | sleeping_t_q => TCB_STATE_QUEUE
  | waiting_queue _ => TCB_WAIT_QUEUE
  end.

Section placement.
Context {W : Type} `{LO : !ListOps qid qnode W, LH : !ListHeap qid qnode W, IN : !IdleNodes qid qnode W}.
Context (HS : gset qid) (XS : gset qnode).
Implicit Types (s : ksched W) (L : gmap qid (list qnode)) (home : qnode -> option qid) (I : qnode -> Prop).

Record placed s L home I : Prop := {
  pl_rep : lh_rep HS XS (qlists s) L;
  pl_queue q type : queues s !! q = Some type -> type = qtype q /\ is_Some (L !! q);
  pl_member q l n : L !! q = Some l -> n ∈ l <-> home n = Some q;
  pl_home n q : home n = Some q -> is_Some (L !! q) /\ queues s !! q = Some (qtype q);
  pl_idle n : I n -> home n = None /\ lh_idle (qlists s) n;
  pl_node n : is_Some (home n) \/ I n -> n ∈ XS
}.

Lemma placed_ext s L home home' I I' : placed s L home I -> (forall n, home' n = home n) ->
  (forall n, I' n -> I n) -> placed s L home' I'.
Proof.
  intros [] Hh HI. constructor; try done.
  - intros q l n El. rewrite Hh. by apply pl_member0.
  - intros n q. rewrite Hh. apply pl_home0.
  - intros n Hn. rewrite Hh. by apply pl_idle0, HI.
  - intros n. rewrite Hh. intros [?|?]; auto.
Qed.

Lemma placed_state s s' L home I : placed s L home I -> queues s' = queues s -> qlists s' = qlists s ->
  placed s' L home I.
Proof. intros [] Eq El. constructor; rewrite ?Eq, ?El; done. Qed.

Lemma placed_unlinked s L home I n : placed s L home I -> home n = None -> unlinked L n.
Proof. intros K Hn q l El Hin. apply (pl_member _ _ _ _ K _ _ _ El) in Hin. congruence. Qed.

Definition with_lists w s : ksched W := KSched (queues s) (threads s) (procs s) w.

Lemma queue_entry_type o q n : queue_entry o (qtype q) = Done n ->
  match q, n with
  | waiting_queue _, wait_list _ => True
  | (unused_t_q | used_t_q | runnable_t_q | sleeping_t_q), state_list _ => True
  | (unused_p_q | used_p_q | zombie_p_q), proc_list _ => True
  | _, _ => False
  end.
Proof. by destruct q, o; cbn; intros E; try discriminate E; injection E as <-. Qed.

Lemma place_push s L home I q o n l : placed s L home I -> home n = None -> n ∈ XS ->
  queues s !! q = Some (qtype q) -> queue_entry o (qtype q) = Done n -> L !! q = Some l ->
  exists w, Queue_push_back q o s = Done (with_lists w s) /\
    placed (with_lists w s) (<[q := l ++ [n]]> L) (<[n := Some q]> home) (fun m => m <> n /\ I m).
Proof.
  intros K Hn Hx Eq En El. pose proof (placed_unlinked _ _ _ _ _ K Hn) as Hu.
  destruct (lh_add_tail_rep HS XS (qlists s) L q l n (pl_rep _ _ _ _ K) El Hx Hu) as (w & Ew & Rw).
  exists w. split.
  { unfold Queue_push_back. rewrite Eq. ocbn. rewrite En. ocbn. unfold sc_lists. by rewrite Ew. }
  pose proof K as []. constructor; cbn [qlists queues with_lists]; try done.
  - intros q' type Eq'. destruct (pl_queue0 q' type Eq') as [-> H]. split; [done|].
    destruct (decide (q = q')) as [<-|]; [rewrite lookup_insert_eq; eauto|by rewrite lookup_insert_ne].
  - intros q' l' m. destruct (decide (q = q')) as [<-|Hne].
    + rewrite lookup_insert_eq. intros [= <-]. rewrite elem_of_app, list_elem_of_singleton, (pl_member0 q l m El).
      destruct (decide (m = n)) as [->|Hm].
      * rewrite fn_lookup_insert. tauto.
      * rewrite fn_lookup_insert_ne by done. tauto.
    + rewrite lookup_insert_ne by done. intros El'. rewrite (pl_member0 q' l' m El').
      destruct (decide (m = n)) as [->|Hm].
      * rewrite fn_lookup_insert. split; congruence.
      * by rewrite fn_lookup_insert_ne.
  - intros m q'. destruct (decide (m = n)) as [->|Hm].
    + rewrite fn_lookup_insert. intros [= <-]. rewrite lookup_insert_eq. eauto.
    + rewrite fn_lookup_insert_ne by done. intros H. destruct (pl_home0 m q' H) as [H1 H2]. split; [|done].
      destruct (decide (q = q')) as [<-|]; [rewrite lookup_insert_eq; eauto|by rewrite lookup_insert_ne].
  - intros m [Hm HI]. rewrite fn_lookup_insert_ne by done. destruct (pl_idle0 m HI) as [H1 H2]. split; [done|].
    eapply (lh_add_tail_idle HS XS (qlists s) w L q l n m); eauto. by eapply placed_unlinked.
  - intros m. destruct (decide (m = n)) as [->|Hm]; [done|]. rewrite fn_lookup_insert_ne by done.
    intros [?|[_ ?]]; auto.
Qed.

(** Initialising a queue that no node is in. *)
Lemma place_init s L home I q : placed s L home I -> q ∈ HS -> (forall n, home n <> Some q) ->
  exists w, lh_init q (qlists s) = Done w /\
    placed (KSched (<[q := qtype q]> (queues s)) (threads s) (procs s) w) (<[q := []]> L) home I.
Proof.
  intros K Hq Hn. destruct (lh_init_rep HS XS (qlists s) L q (pl_rep _ _ _ _ K) Hq) as (w & Ew & Rw).
  exists w. split; [done|]. pose proof K as []. constructor; cbn [qlists queues]; try done.
  - intros q' type. destruct (decide (q = q')) as [<-|Hne].
    + rewrite !lookup_insert_eq. intros [= <-]. eauto.
    + rewrite !lookup_insert_ne by done. apply pl_queue0.
  - intros q' l n. destruct (decide (q = q')) as [<-|Hne].
    + rewrite lookup_insert_eq. intros [= <-]. split; [by intros ?%not_elem_of_nil|by intros ?%Hn].
    + rewrite lookup_insert_ne by done. apply pl_member0.
  - intros n q' Hh. rewrite !lookup_insert_ne by (intros ->; by apply (Hn n)). exact (pl_home0 n q' Hh).
  - intros n HI. destruct (pl_idle0 n HI) as [H1 H2]. split; [done|].
    by eapply (lh_init_idle HS XS (qlists s) w L q n).
Qed.

(** Deleting a linked node. *)
Lemma place_del s L home I q n l1 l2 : placed s L home I -> L !! q = Some (l1 ++ n :: l2) ->
  exists w, lh_del_reinit n (qlists s) = Done w /\
    placed (with_lists w s) (<[q := l1 ++ l2]> L) (<[n := None]> home) (fun m => m = n \/ I m).
Proof.
  intros K El. destruct (lh_del_reinit_rep HS XS (qlists s) L q l1 l2 n (pl_rep _ _ _ _ K) El) as (w & Ew & Rw).
  exists w. split; [done|].
  destruct (lh_del_reinit_idle HS XS (qlists s) w L q l1 l2 n (pl_rep _ _ _ _ K) El Ew) as [In Io].
  pose proof (lh_rep_NoDup HS XS _ L q _ (pl_rep _ _ _ _ K) El) as Hnd. apply NoDup_mid in Hnd as [Hnot _].
  assert (home n = Some q) as Hn by (apply (pl_member _ _ _ _ K _ _ _ El), elem_of_mid; by left).
  pose proof K as []. constructor; cbn [qlists queues with_lists]; try done.
  - intros q' type Eq'. destruct (pl_queue0 q' type Eq') as [-> H]. split; [done|].
    destruct (decide (q = q')) as [<-|]; [rewrite lookup_insert_eq; eauto|by rewrite lookup_insert_ne].
  - intros q' l' m. destruct (decide (q = q')) as [<-|Hne].
    + rewrite lookup_insert_eq. intros [= <-]. destruct (decide (m = n)) as [->|Hm].
      * rewrite fn_lookup_insert. split; [done|congruence].
      * rewrite fn_lookup_insert_ne by done. rewrite <- (pl_member0 q _ m El), elem_of_mid. tauto.
    + rewrite lookup_insert_ne by done. intros El'. rewrite (pl_member0 q' l' m El').
      destruct (decide (m = n)) as [->|Hm].
      * rewrite fn_lookup_insert. split; congruence.
      * by rewrite fn_lookup_insert_ne.
  - intros m q'. destruct (decide (m = n)) as [->|Hm]; [by rewrite fn_lookup_insert|].
    rewrite fn_lookup_insert_ne by done. intros H. destruct (pl_home0 m q' H) as [H1 H2]. split; [|done].
    destruct (decide (q = q')) as [<-|]; [rewrite lookup_insert_eq; eauto|by rewrite lookup_insert_ne].
  - intros m [->|HI]; [by rewrite fn_lookup_insert|]. destruct (pl_idle0 m HI) as [H1 H2].
    rewrite fn_lookup_insert_ne by congruence. split; [done|]. apply Io; [|done]. by eapply placed_unlinked.
  - intros m. destruct (decide (m = n)) as [->|Hm]; [intros _; apply pl_node0; left; eauto|].
    rewrite fn_lookup_insert_ne by done. intros [?|[?|?]]; auto; done.
Qed.

Lemma place_del_idle s L home I n : placed s L home I -> I n ->
  exists w, lh_del_reinit n (qlists s) = Done w /\ placed (with_lists w s) L home I.
Proof.
  intros K HI. destruct (pl_idle _ _ _ _ K n HI) as [Hn Hi].
  destruct (lh_del_reinit_noop HS XS (qlists s) L n (pl_rep _ _ _ _ K)) as (w & Ew & Rw & In & Io);
    [apply (pl_node _ _ _ _ K); by right|by eapply placed_unlinked|done|].
  exists w. split; [done|]. pose proof K as []. constructor; cbn [qlists queues with_lists]; try done.
  intros m HI'. destruct (pl_idle0 m HI') as [H1 H2]. split; [done|].
  destruct (decide (m = n)) as [->|]; auto.
Qed.

(** Taking the first node of a queue. *)
Lemma place_pop s L home I q l : placed s L home I -> queues s !! q = Some (qtype q) -> L !! q = Some l ->
  (forall n, n ∈ l -> exists o, queue_entry o (qtype q) = Done n) ->
  match l with
  | [] => Queue_pop q true s = Done (None, s)
  | n :: l' => exists o w, queue_entry o (qtype q) = Done n /\ Queue_pop q true s = Done (Some o, with_lists w s) /\
      placed (with_lists w s) (<[q := l']> L) (<[n := None]> home) (fun m => m = n \/ I m)
  end.
Proof.
  intros K Eq El Ho. unfold Queue_pop, Queue_isempty.
  rewrite (lh_empty_rep HS XS _ L q l (pl_rep _ _ _ _ K) El). ocbn. destruct l as [|n l]; [done|].
  rewrite bool_decide_eq_false_2 by done.
  destruct (Ho n) as [o En]; [by left|]. destruct (place_del s L home I q n [] l K El) as (w & Ew & Kw).
  exists o, w. split; [done|]. split; [|exact Kw].
  assert (queue_first_node q s = Done o) as ->.
  { unfold queue_first_node. rewrite Eq. ocbn. rewrite (lh_first_rep HS XS _ L q n l (pl_rep _ _ _ _ K) El).
    pose proof (queue_entry_type o q n En) as Ht. ocbn. destruct q, o, n; cbn in *; try done; congruence. }
  ocbn. rewrite Eq. ocbn. unfold Queue_remove. rewrite En. ocbn. unfold sc_lists. by rewrite Ew.
Qed.

(** Deleting a node that is linked or idle: it leaves the list it was in. *)
Definition without L n : gmap qid (list qnode) := filter (fun m => m <> n) <$> L.

Lemma without_lookup L n q l : L !! q = Some l -> without L n !! q = Some (filter (fun m => m <> n) l).
Proof. intros E. unfold without. by rewrite lookup_fmap, E. Qed.

Lemma filter_not_in (l : list qnode) n : n ∉ l -> filter (fun m => m <> n) l = l.
Proof. intros Hn. apply filter_all. by intros m Hm ->. Qed.

Lemma del_any s L home I n : placed s L home I -> is_Some (home n) \/ I n ->
  exists w, lh_del_reinit n (qlists s) = Done w /\
    placed (with_lists w s) (without L n) (<[n := None]> home) (fun m => m = n \/ I m).
Proof.
  intros K [[q Hq]|HI].
  - destruct (pl_home _ _ _ _ K n q Hq) as [[l El] _].
    assert (n ∈ l) as (l1 & l2 & ->)%list_elem_of_split by (by apply (pl_member _ _ _ _ K q l n El)).
    destruct (place_del s L home I q n l1 l2 K El) as (w & Ew & Kw). exists w. split; [done|].
    replace (without L n) with (<[q := l1 ++ l2]> L); [done|]. apply map_eq. intros q'.
    unfold without. rewrite lookup_fmap. destruct (decide (q = q')) as [<-|Hne].
    + rewrite lookup_insert_eq, El. cbn. f_equal. symmetry. apply filter_remove.
      pose proof (lh_rep_NoDup HS XS _ L q _ (pl_rep _ _ _ _ K) El) as Hnd. by apply NoDup_mid in Hnd as [? _].
    + rewrite lookup_insert_ne by done. destruct (L !! q') as [l'|] eqn:El'; [|done]. cbn. f_equal. symmetry.
      apply filter_not_in. intros Hn. apply (pl_member _ _ _ _ K q' l' n El') in Hn. congruence.
  - destruct (place_del_idle s L home I n K HI) as (w & Ew & Kw). exists w. split; [done|].
    destruct (pl_idle _ _ _ _ K n HI) as [Hn _].
    replace (without L n) with L.
    + eapply placed_ext; [exact Kw| |].
      * intros m. destruct (decide (m = n)) as [->|]; [by rewrite fn_lookup_insert|by rewrite fn_lookup_insert_ne].
      * by intros m [->|].
    + apply map_eq. intros q. unfold without. rewrite lookup_fmap. destruct (L !! q) as [l|] eqn:El; [|done]. cbn.
      f_equal. symmetry. apply filter_not_in. intros Hin. apply (pl_member _ _ _ _ K q l n El) in Hin. congruence.
Qed.

(** [moved L n q]: node [n] has gone to the end of queue [q]. *)
Definition moved L n q : gmap qid (list qnode) :=
  <[q := default [] (without L n !! q) ++ [n]]> (without L n).

Lemma moved_lookup L n q q' l : L !! q' = Some l ->
  moved L n q !! q' = Some (filter (fun m => m <> n) l ++ if decide (q' = q) then [n] else []).
Proof.
  intros El. unfold moved. case_decide as Hd.
  - subst. rewrite lookup_insert_eq, (without_lookup _ _ _ _ El). done.
  - rewrite lookup_insert_ne by done. rewrite (without_lookup _ _ _ _ El). by rewrite app_nil_r.
Qed.

Lemma changeState_placed s L home I t v st q : placed s L home I -> threads s !! t = Some v ->
  home (state_list t) = T_STATES (t_state v) \/ I (state_list t) ->
  (t_state v = TCB_RUNNING -> I (state_list t)) ->
  (forall q', T_STATES (t_state v) = Some q' -> queues s !! q' = Some TCB_STATE_QUEUE) ->
  T_STATES st = Some q -> queues s !! q = Some TCB_STATE_QUEUE ->
  exists w, TCB_Q_changeState t st s = Done (set_thread t (MkTcb st (wait_chan_entry v)) (with_lists w s)) /\
    placed (set_thread t (MkTcb st (wait_chan_entry v)) (with_lists w s)) (moved L (state_list t) q)
      (<[state_list t := Some q]> home) (fun m => m <> state_list t /\ I m).
Proof.
  intros K Et Hh Hr Hq Est Eq. set (n := state_list t).
  assert (qtype q = TCB_STATE_QUEUE) as Ety by (destruct st; cbn in Est; simplify_eq; done).
  assert (is_Some (home n) \/ I n) as Hn.
  { destruct Hh as [Hh|]; [|by right]. destruct (T_STATES (t_state v)) as [q'|] eqn:E; [left; eauto|].
    right. apply Hr. by destruct (t_state v). }
  destruct (del_any s L home I n K Hn) as (w & Ew & Kw).
  destruct (pl_queue _ _ _ _ Kw q _ Eq) as [_ [l El]].
  destruct (place_push _ _ _ _ q (Tcb t) n l Kw) as (w' & Ep & Kp).
  - apply fn_lookup_insert.
  - by apply (pl_node _ _ _ _ K).
  - by rewrite Ety.
  - by rewrite Ety.
  - exact El.
  - exists w'. split.
    + unfold TCB_Q_changeState, thread_at. rewrite Et. ocbn.
      assert ((if decide (t_state v = TCB_RUNNING) then Queue_remove (Tcb t) TCB_STATE_QUEUE s
        else q_old ← deref (T_STATES (t_state v)); Queue_remove_atomic q_old (Tcb t) s) = Done (with_lists w s)) as ->.
      { assert (sc_lists (lh_del_reinit n) s = Done (with_lists w s)) as Hs by (unfold sc_lists; by rewrite Ew).
        case_decide as Hd; [exact Hs|]. destruct (T_STATES (t_state v)) as [q'|] eqn:E; [|by destruct (t_state v)].
        ocbn. unfold Queue_remove_atomic. rewrite (Hq q' eq_refl). exact Hs. }
      ocbn. rewrite Est. ocbn. unfold Queue_push_back_atomic. rewrite Ep. ocbn. cbn [threads with_lists].
      rewrite Et. ocbn. done.
    + apply (placed_state (with_lists w' (with_lists w s))); [|reflexivity|reflexivity].
      assert (moved L n q = <[q := l ++ [n]]> (without L n)) as -> by (unfold moved; by rewrite El).
      eapply placed_ext; [exact Kp| |].
      * intros m. destruct (decide (m = n)) as [->|]; [by rewrite !fn_lookup_insert|by rewrite !fn_lookup_insert_ne].
      * intros m [Hm HI]. split; [done|by right].
Qed.
End placement.

(** ** The invariant: states and queues agree *)

(** A signaller wakes a thread in two critical sections: the first takes it out
    of the waiting queue, the second changes its state.  [D] are the threads
    taken out and still asleep. *)
Definition node_home (D : gset Z) (T : gmap Z tcb) (P : gmap Z procstate) (n : qnode) : option qid :=
  match n with
  | state_list t => v ← T !! t; T_STATES (t_state v)
  | wait_list t => if decide (t ∈ D) then None else v ← T !! t; wait_chan_entry v
  | proc_list p => STATES <$> P !! p
  end.

Definition running (T : gmap Z tcb) (n : qnode) : Prop :=
  exists t v, n = state_list t /\ T !! t = Some v /\ t_state v = TCB_RUNNING.

(** The nodes out of every queue that a later [list_del_reinit] may meet. *)
Definition loose (D : gset Z) (T : gmap Z tcb) (n : qnode) : Prop :=
  running T n \/ exists t, n = wait_list t /\ t ∈ D.

Section reassembly.
Context {W : Type} `{LO : !ListOps qid qnode W, LH : !ListHeap qid qnode W, IN : !IdleNodes qid qnode W}.
Context (HS : gset qid) (XS : gset qnode).
Implicit Types (s : ksched W) (L : gmap qid (list qnode)) (D : gset Z).

(** [L] lists, queue by queue, the nodes in it. *)
Record sched_ok D s L : Prop := {
  sk_placed : placed HS XS s L (node_home D (threads s) (procs s)) (loose D (threads s));
  sk_thread t v : threads s !! t = Some v -> state_list t ∈ XS /\ wait_list t ∈ XS /\
    (is_Some (wait_chan_entry v) <-> t_state v = TCB_SLEEPING) /\
    (forall q, wait_chan_entry v = Some q -> qtype q = TCB_WAIT_QUEUE);
  sk_taken t : t ∈ D -> exists v, threads s !! t = Some v /\ t_state v = TCB_SLEEPING;
  sk_queues q : qtype q = TCB_STATE_QUEUE -> queues s !! q = Some TCB_STATE_QUEUE
}.

Lemma node_home_insert D T P t v n : node_home (D ∖ {[t]}) (<[t := v]> T) P n =
  (<[state_list t := T_STATES (t_state v)]> (<[wait_list t := wait_chan_entry v]> (node_home D T P))) n.
Proof.
  destruct (decide (n = state_list t)) as [->|H1].
  { rewrite fn_lookup_insert. cbn. by rewrite lookup_insert_eq. }
  rewrite fn_lookup_insert_ne by done. destruct (decide (n = wait_list t)) as [->|H2].
  { rewrite fn_lookup_insert. cbn. by rewrite lookup_insert_eq, decide_False by set_solver. }
  rewrite fn_lookup_insert_ne by done. destruct n as [u|p|u]; cbn; try done; rewrite lookup_insert_ne by congruence; [done|].
  assert (t <> u) by congruence. by rewrite (decide_ext (u ∈ D ∖ {[t]}) (u ∈ D)) by set_solver.
Qed.

(** Reassembling the invariant after a step on thread [t]. *)
Lemma sched_ok_step D s s' L L' t v v' h I : sched_ok D s L -> threads s !! t = Some v ->
  placed HS XS s' L' h I -> threads s' = <[t := v']> (threads s) -> procs s' = procs s -> queues s' = queues s ->
  (forall n, n <> state_list t -> n <> wait_list t -> h n = node_home D (threads s) (procs s) n) ->
  h (state_list t) = T_STATES (t_state v') -> h (wait_list t) = wait_chan_entry v' ->
  (forall n, n <> state_list t -> n <> wait_list t -> loose D (threads s) n -> I n) ->
  (t_state v' = TCB_RUNNING -> I (state_list t)) ->
  (is_Some (wait_chan_entry v') <-> t_state v' = TCB_SLEEPING) ->
  (forall q, wait_chan_entry v' = Some q -> qtype q = TCB_WAIT_QUEUE) -> sched_ok (D ∖ {[t]}) s' L'.
Proof.
  intros K Et Kp ET EP EQ Hother Hst Hwt Hrun Hrun' Hw Hq.
  destruct (sk_thread _ _ _ K t v Et) as (Hx1 & Hx2 & _). constructor.
  - rewrite ET, EP. eapply placed_ext; [exact Kp| |].
    + intros n. rewrite node_home_insert. destruct (decide (n = state_list t)) as [->|H1].
      { by rewrite fn_lookup_insert. }
      rewrite fn_lookup_insert_ne by done. destruct (decide (n = wait_list t)) as [->|H2].
      { by rewrite fn_lookup_insert. }
      rewrite fn_lookup_insert_ne by done. by rewrite Hother.
    + intros n [(u & w & -> & Eu & Hr)|(u & -> & Hu)].
      * destruct (decide (t = u)) as [<-|Hne].
        { rewrite lookup_insert_eq in Eu. injection Eu as <-. auto. }
        rewrite lookup_insert_ne in Eu by done. apply Hrun; [congruence|done|]. left. by exists u, w.
      * apply elem_of_difference in Hu as [Hu Hne%not_elem_of_singleton]. apply Hrun; [done|congruence|]. right. eauto.
  - intros u w. rewrite ET. destruct (decide (t = u)) as [<-|Hne].
    + rewrite lookup_insert_eq. intros [= <-]. done.
    + rewrite lookup_insert_ne by done. apply (sk_thread _ _ _ K).
  - intros u [Hu Hne%not_elem_of_singleton]%elem_of_difference. rewrite ET, lookup_insert_ne by done.
    by apply (sk_taken _ _ _ K).
  - intros q. rewrite EQ. apply (sk_queues _ _ _ K).
Qed.

(** What a step did to a thread and to the lists. *)
Definition stepped D s s' L' t v' : Prop :=
  sched_ok D s' L' /\ threads s' = <[t := v']> (threads s) /\ queues s' = queues s /\ procs s' = procs s.

Lemma not_taken D s L t v : sched_ok D s L -> threads s !! t = Some v -> t_state v <> TCB_SLEEPING -> t ∉ D.
Proof. intros K Et Hs Hd. destruct (sk_taken _ _ _ K t Hd) as (w & Ew & Hw). congruence. Qed.

Lemma untaken D (t : Z) : t ∉ D -> D ∖ {[t]} = D.
Proof. intros Ht. apply set_eq. set_solver. Qed.

Lemma fn_ne {A B} `{EqDecision A} (f : A -> B) a b x : x <> a -> <[a := b]> f x = f x.
Proof. intros. by apply fn_lookup_insert_ne. Qed.
End reassembly.

Section invariant.
Context {W : Type} `{LO : !ListOps qid qnode W, LH : !ListHeap qid qnode W, IN : !IdleNodes qid qnode W}.
Context (HS : gset qid) (XS : gset qnode) {D : gset Z}.
Implicit Types (s : ksched W) (L : gmap qid (list qnode)).
Local Abbreviation home s := (node_home D (threads s) (procs s)).
Local Abbreviation sched_ok := (sched_ok HS XS D).

Lemma state_queue st q : T_STATES st = Some q -> qtype q = TCB_STATE_QUEUE.
Proof. destruct st; cbn; intros [= <-]; done. Qed.

Lemma state_queue_set s L st q : sched_ok s L -> T_STATES st = Some q -> queues s !! q = Some TCB_STATE_QUEUE.
Proof. intros K E. eapply (sk_queues _ _ _ _ _ K), state_queue, E. Qed.

Lemma not_sleeping s L t v : sched_ok s L -> threads s !! t = Some v -> t_state v <> TCB_SLEEPING ->
  wait_chan_entry v = None.
Proof.
  intros K Et Hs. destruct (sk_thread _ _ _ _ _ K t v Et) as (_ & _ & H & _).
  destruct (wait_chan_entry v); [|done]. exfalso. apply Hs, H. eauto.
Qed.

Lemma home_state s t v : threads s !! t = Some v -> home s (state_list t) = T_STATES (t_state v).
Proof. intros E. cbn. by rewrite E. Qed.
Lemma home_wait s t v : threads s !! t = Some v -> t ∉ D -> home s (wait_list t) = wait_chan_entry v.
Proof. intros E Ht. cbn. by rewrite E, decide_False. Qed.
Lemma home_awake s t v : threads s !! t = Some v -> wait_chan_entry v = None -> home s (wait_list t) = None.
Proof. intros E Ew. cbn. case_decide; [done|]. by rewrite E. Qed.

Lemma running_idle s t v : threads s !! t = Some v -> t_state v = TCB_RUNNING -> loose D (threads s) (state_list t).
Proof. intros. left. exists t, v. done. Qed.

(** A change between states that are not TCB_SLEEPING. *)
Lemma changeState_ok s L t v st q : sched_ok s L -> threads s !! t = Some v ->
  t_state v <> TCB_SLEEPING -> st <> TCB_SLEEPING -> T_STATES st = Some q ->
  exists s', TCB_Q_changeState t st s = Done s' /\ stepped HS XS D s s' (moved L (state_list t) q) t (MkTcb st None).
Proof.
  intros K Et Hs Hs' Eq. pose proof (not_sleeping _ _ _ _ K Et Hs) as Hw.
  destruct (changeState_placed HS XS s L (home s) _ t v st q (sk_placed _ _ _ _ _ K) Et) as (w & Ec & Kc); [..|done| |].
  - left. by apply home_state.
  - by apply running_idle.
  - intros q'. by apply state_queue_set with (L := L).
  - by eapply state_queue_set.
  - rewrite Hw in Ec, Kc. eexists. split; [exact Ec|]. split_and!; try done.
    rewrite <- (untaken D t) by (by eapply not_taken). eapply (sched_ok_step _ _ _ _ _ L _ t v (MkTcb st None) _ _ K Et Kc); try done; cbn [t_state wait_chan_entry].
    + intros n H1 H2. by rewrite fn_ne.
    + by rewrite fn_lookup_insert.
    + rewrite fn_ne by done. by apply (home_awake _ _ _ Et).
    + intros ->. discriminate Eq.
    + split; [by intros []|done].
Qed.

(** Making a sleeper runnable once it has left the queue it waited on. *)
Lemma unsleep s s1 L L1 I1 t q v : sched_ok s L -> threads s !! t = Some v -> t_state v = TCB_SLEEPING ->
  threads s1 = threads s -> queues s1 = queues s -> procs s1 = procs s -> wait_chan_entry v = Some q ->
  placed HS XS s1 L1 (<[wait_list t := None]> (home s)) I1 -> (forall n, n <> wait_list t -> loose D (threads s) n -> I1 n) ->
  exists s', (s2 ← set_wait t None s1; TCB_Q_changeState t TCB_RUNNABLE s2) = Done s' /\
    stepped HS XS (D ∖ {[t]}) s s' (moved L1 (state_list t) runnable_t_q) t (MkTcb TCB_RUNNABLE None).
Proof.
  intros K Et Hs ET EQ EP Ew K1 HI. set (v1 := MkTcb TCB_SLEEPING None).
  assert (set_wait t None s1 = Done (set_thread t v1 s1)) as ->.
  { unfold set_wait, thread_at. rewrite ET, Et. ocbn. by rewrite Hs. }
  ocbn. assert (placed HS XS (set_thread t v1 s1) L1 (<[wait_list t := None]> (home s)) I1) as K2
    by (by apply (placed_state _ _ s1)).
  destruct (changeState_placed HS XS (set_thread t v1 s1) L1 _ _ t v1 TCB_RUNNABLE runnable_t_q K2)
    as (w & Ec & Kc).
  - cbn. apply lookup_insert_eq.
  - left. rewrite fn_ne by done. rewrite (home_state _ _ _ Et), Hs. done.
  - discriminate.
  - intros q' [= <-]. cbn. rewrite EQ. by apply (sk_queues _ _ _ _ _ K).
  - done.
  - cbn. rewrite EQ. by apply (sk_queues _ _ _ _ _ K).
  - eexists. split; [exact Ec|].
    assert (threads (set_thread t (MkTcb TCB_RUNNABLE (wait_chan_entry v1)) (with_lists w (set_thread t v1 s1))) =
      <[t := MkTcb TCB_RUNNABLE None]> (threads s)) as ET'.
    { cbn. by rewrite insert_insert_eq, ET. }
    split_and!; [|done|done|done].
    eapply (sched_ok_step _ _ _ _ _ L _ t v (MkTcb TCB_RUNNABLE None) _ _ K Et Kc); try done; cbn [t_state wait_chan_entry].
    + intros n H1 H2. by rewrite !fn_ne.
    + by rewrite fn_lookup_insert.
    + by rewrite fn_ne, fn_lookup_insert by done.
    + intros n H1 H2 Hr. split; [done|]. by apply HI.
    + split; [by intros []|done].
Qed.

(** *** The operations *)

Lemma asleep_wait s L t v : sched_ok s L -> threads s !! t = Some v -> t_state v = TCB_SLEEPING -> t ∉ D ->
  exists q, wait_chan_entry v = Some q /\ qtype q = TCB_WAIT_QUEUE /\ home s (wait_list t) = Some q /\
    queues s !! q = Some TCB_WAIT_QUEUE.
Proof.
  intros K Et Hs Ht. destruct (sk_thread _ _ _ _ _ K t v Et) as (_ & _ & H & Hq).
  destruct (proj2 H Hs) as [q Eq]. exists q. assert (home s (wait_list t) = Some q) as Hh.
  { by rewrite (home_wait _ _ _ Et Ht). }
  split_and!; [done|by apply Hq|done|].
  destruct (pl_home _ _ _ _ _ _ (sk_placed _ _ _ _ _ K) _ _ Hh) as [_ E]. by rewrite Hq in E.
Qed.

Lemma thread_wakeup_ok s L t v : sched_ok s L -> threads s !! t = Some v -> t_state v = TCB_SLEEPING -> t ∉ D ->
  exists s', thread_wakeup t s = Done s' /\
    stepped HS XS D s s' (moved (without L (wait_list t)) (state_list t) runnable_t_q) t (MkTcb TCB_RUNNABLE None).
Proof.
  intros K Et Hs Ht. destruct (asleep_wait _ _ _ _ K Et Hs Ht) as (q & Ew & Hq & Hh & Eq).
  unfold thread_wakeup, thread_at. rewrite Et. ocbn. rewrite Ew. ocbn.
  destruct (del_any HS XS s L (home s) _ (wait_list t) (sk_placed _ _ _ _ _ K)) as (w & Ed & Kd); [left; eauto|].
  unfold Queue_remove_atomic. rewrite Eq. ocbn. cbn [queue_entry]. ocbn. unfold sc_lists. rewrite Ed. ocbn.
  unfold is_state, thread_at. cbn [threads]. rewrite Et. ocbn. rewrite (bool_decide_eq_true_2 _ Hs). ocbn.
  rewrite <- (untaken D t) by done.
  eapply (unsleep s (with_lists w s) L _ _ t q v K Et Hs eq_refl eq_refl eq_refl Ew Kd).
  intros n _ Hn. by right.
Qed.

(** The nodes of a waiting queue are those of the threads that wait on it. *)
Lemma waiting_member s L a l n : sched_ok s L -> L !! waiting_queue a = Some l -> n ∈ l ->
  exists t v, n = wait_list t /\ threads s !! t = Some v /\ wait_chan_entry v = Some (waiting_queue a) /\
    t_state v = TCB_SLEEPING.
Proof.
  intros K El Hn. apply (pl_member _ _ _ _ _ _ (sk_placed _ _ _ _ _ K) _ _ _ El) in Hn. destruct n as [t|p|t]; cbn in Hn.
  - destruct (threads s !! t) as [v|]; [|done]. cbn in Hn. by destruct (t_state v).
  - destruct (procs s !! p) as [st|]; [|done]. cbn in Hn. by destruct st.
  - case_decide; [done|]. destruct (threads s !! t) as [v|] eqn:Et; [|done]. cbn in Hn. exists t, v. split_and!; try done.
    destruct (sk_thread _ _ _ _ _ K t v Et) as (_ & _ & H' & _). apply H'. eauto.
Qed.

Lemma waiting_untaken s L q l t : sched_ok s L -> L !! q = Some l -> wait_list t ∈ l -> t ∉ D.
Proof.
  intros K El Hn. apply (pl_member _ _ _ _ _ _ (sk_placed _ _ _ _ _ K) _ _ _ El) in Hn. cbn in Hn. by case_decide.
Qed.

Lemma state_member s L st q l n : sched_ok s L -> T_STATES st = Some q -> L !! q = Some l -> n ∈ l ->
  exists t v, n = state_list t /\ threads s !! t = Some v /\ t_state v = st.
Proof.
  intros K Eq El Hn. apply (pl_member _ _ _ _ _ _ (sk_placed _ _ _ _ _ K) _ _ _ El) in Hn. destruct n as [t|p|t]; cbn in Hn.
  - destruct (threads s !! t) as [v|] eqn:Et; [|done]. cbn in Hn. exists t, v. split_and!; try done.
    destruct (t_state v), st; cbn in *; congruence.
  - destruct (procs s !! p) as [ps|]; [|done]. cbn in Hn. destruct ps, st; cbn in *; congruence.
  - case_decide; [done|]. destruct (threads s !! t) as [v|] eqn:Et; [|done]. cbn in Hn.
    destruct (sk_thread _ _ _ _ _ K t v Et) as (_ & _ & _ & Hq). apply Hq in Hn. by rewrite (state_queue _ _ Eq) in Hn.
Qed.

Definition signalled L t : gmap qid (list qnode) :=
  moved (without L (wait_list t)) (state_list t) runnable_t_q.

Lemma pop_without s L home0 I q n l : placed HS XS s L home0 I -> L !! q = Some (n :: l) -> <[q := l]> L = without L n.
Proof.
  intros K El. apply map_eq. intros q'. destruct (decide (q = q')) as [<-|Hne].
  - rewrite lookup_insert_eq, (without_lookup _ _ _ _ El). f_equal.
    pose proof (lh_rep_NoDup HS XS _ L q _ (pl_rep _ _ _ _ _ _ K) El) as Hnd.
    symmetry. apply (filter_remove n []). by apply (NoDup_mid n []) in Hnd as [? _].
  - rewrite lookup_insert_ne by done. destruct (L !! q') as [l'|] eqn:El'.
    + rewrite (without_lookup _ _ _ _ El'). f_equal. symmetry. apply filter_not_in. intros Hn.
      apply (pl_member _ _ _ _ _ _ K _ _ _ El') in Hn. apply Hne.
      assert (home0 n = Some q) by (apply (pl_member _ _ _ _ _ _ K _ _ _ El); by left). congruence.
    + unfold without. by rewrite lookup_fmap, El'.
Qed.

(** The signaller's second section: waking a thread taken out. *)
Lemma wake_taken s L t v : sched_ok s L -> t ∈ D -> threads s !! t = Some v ->
  exists s', cond_wake_one (Some (Tcb t)) s = Done s' /\
    stepped HS XS (D ∖ {[t]}) s s' (moved L (state_list t) runnable_t_q) t (MkTcb TCB_RUNNABLE None).
Proof.
  intros K Ht Et. destruct (sk_taken _ _ _ _ _ K t Ht) as (v' & Et' & Hs). rewrite Et in Et'. injection Et' as <-.
  destruct (sk_thread _ _ _ _ _ K t v Et) as (_ & _ & Hq & _). destruct (proj2 Hq Hs) as [q Ew].
  unfold cond_wake_one, is_state, thread_at. rewrite Et. ocbn. rewrite (bool_decide_eq_true_2 _ Hs). cbn [negb].
  rewrite Ew. ocbn. eapply (unsleep s s L L _ t q v K Et Hs eq_refl eq_refl eq_refl Ew).
  - eapply placed_ext; [exact (sk_placed _ _ _ _ _ K)| |by intros n H; exact H].
    intros n. destruct (decide (n = wait_list t)) as [->|Hn]; [|by rewrite fn_ne].
    rewrite fn_lookup_insert. cbn. by rewrite decide_True.
  - done.
Qed.

(** Its first section: taking the first waiter out. *)
Lemma take_first s L a t l : sched_ok s L -> queues s !! waiting_queue a = Some TCB_WAIT_QUEUE ->
  L !! waiting_queue a = Some (wait_list t :: l) ->
  exists w, Queue_provide_atomic (waiting_queue a) true s = Done (Some (Tcb t), with_lists w s) /\
    Sched.sched_ok HS XS ({[t]} ∪ D) (with_lists w s) (without L (wait_list t)).
Proof.
  intros K Eq El. destruct (waiting_member s L a _ (wait_list t) K El (list_elem_of_here _ _)) as (t' & v & Hn & Et & Ew & Hs).
  injection Hn as <-. pose proof (place_pop HS XS s L (home s) _ (waiting_queue a) _ (sk_placed _ _ _ _ _ K) Eq El) as Hp.
  destruct Hp as (o & w & En & Ep & Kp).
  { intros n Hn. destruct (waiting_member s L a _ n K El Hn) as (u & _ & -> & _). by exists (Tcb u). }
  unfold Queue_provide_atomic. rewrite Ep. destruct o as [u|u]; [|discriminate En]. cbn in En. injection En as ->.
  exists w. split; [done|]. rewrite (pop_without s L _ _ _ _ _ (sk_placed _ _ _ _ _ K) El) in Kp.
  constructor; [|apply (sk_thread _ _ _ _ _ K)| |apply (sk_queues _ _ _ _ _ K)].
  - eapply placed_ext; [exact Kp| |].
    + intros n. cbn [threads procs with_lists]. destruct (decide (n = wait_list t)) as [->|Hn].
      { rewrite fn_lookup_insert. cbn. rewrite decide_True by set_solver. done. }
      rewrite fn_ne by done. destruct n as [u|p|u]; try done. cbn. assert (u <> t) by congruence.
      by rewrite (decide_ext (u ∈ {[t]} ∪ D) (u ∈ D)) by set_solver.
    + intros n [Hn|(u & -> & [->%elem_of_singleton|Hu]%elem_of_union)]; [right; by left|by left|right; right; eauto].
  - intros u [->%elem_of_singleton|Hu]%elem_of_union; [by exists v|]. by apply (sk_taken _ _ _ _ _ K).
Qed.

End invariant.

Section signals.
Context {W : Type} `{LO : !ListOps qid qnode W, LH : !ListHeap qid qnode W, IN : !IdleNodes qid qnode W}.
Context (HS : gset qid) (XS : gset qnode) {D : gset Z}.
Implicit Types (s : ksched W) (L : gmap qid (list qnode)).
Local Abbreviation home s := (node_home D (threads s) (procs s)).
Local Abbreviation sched_ok := (sched_ok HS XS D).

(** Both sections, nothing in between. *)
Lemma wake_first s L a t l : sched_ok s L -> queues s !! waiting_queue a = Some TCB_WAIT_QUEUE ->
  L !! waiting_queue a = Some (wait_list t :: l) ->
  exists s', ('(o, s1) ← Queue_provide_atomic (waiting_queue a) true s; cond_wake_one o s1) = Done s' /\
    stepped HS XS D s s' (signalled L t) t (MkTcb TCB_RUNNABLE None).
Proof.
  intros K Eq El. destruct (waiting_member HS XS s L a _ (wait_list t) K El (list_elem_of_here _ _)) as (? & v & [= <-] & Et & _).
  pose proof (waiting_untaken HS XS s L _ _ t K El (list_elem_of_here _ _)) as Ht.
  destruct (take_first HS XS s L a t l K Eq El) as (w & -> & K1). ocbn.
  destruct (wake_taken HS XS _ _ t v K1 ltac:(set_solver) Et) as (s' & -> & H). exists s'. split; [done|].
  replace (({[t]} ∪ D) ∖ {[t]}) with D in H by (apply set_eq; set_solver). exact H.
Qed.

Lemma cond_signal_ok s L a l : sched_ok s L -> queues s !! waiting_queue a = Some TCB_WAIT_QUEUE ->
  L !! waiting_queue a = Some l ->
  match l with
  | [] => cond_signal a s = Done s
  | n :: _ => exists t s', n = wait_list t /\ cond_signal a s = Done s' /\
      stepped HS XS D s s' (signalled L t) t (MkTcb TCB_RUNNABLE None)
  end.
Proof.
  intros K Eq El. unfold cond_signal, Queue_isempty_atomic, Queue_isempty.
  rewrite (lh_empty_rep HS XS _ L _ l (pl_rep _ _ _ _ _ _ (sk_placed _ _ _ _ _ K)) El). ocbn.
  destruct l as [|n l]; [done|]. rewrite bool_decide_eq_false_2 by done.
  destruct (waiting_member HS XS s L a _ n K El (list_elem_of_here _ _)) as (t & v & -> & _).
  destruct (wake_first s L a t l K Eq El) as (s' & E & H). by exists t, s'.
Qed.

Lemma cond_wait_ok s L a t v l : sched_ok s L -> queues s !! waiting_queue a = Some TCB_WAIT_QUEUE ->
  L !! waiting_queue a = Some l -> threads s !! t = Some v -> t_state v = TCB_RUNNING ->
  exists s', cond_wait a t s = Done s' /\
    stepped HS XS D s s' (<[waiting_queue a := l ++ [wait_list t]]> (moved L (state_list t) sleeping_t_q)) t
      (MkTcb TCB_SLEEPING (Some (waiting_queue a))).
Proof.
  intros K Eq El Et Hr. pose proof (not_sleeping HS XS _ _ _ _ K Et ltac:(by rewrite Hr)) as Hw.
  destruct (changeState_placed HS XS s L (home s) _ t v TCB_SLEEPING sleeping_t_q (sk_placed _ _ _ _ _ K) Et)
    as (w & Ec & Kc); [..|done| |].
  - right. by eapply running_idle.
  - by apply running_idle.
  - intros q'. by apply (state_queue_set HS XS _ L _ _ K).
  - by apply (sk_queues _ _ _ _ _ K).
  - unfold cond_wait. rewrite Ec. ocbn. rewrite Hw in Ec, Kc |- *.
    assert (moved L (state_list t) sleeping_t_q !! waiting_queue a = Some l) as El'.
    { rewrite (moved_lookup _ _ _ _ _ El). cbn. rewrite app_nil_r. f_equal. apply filter_not_in. intros Hin.
      destruct (waiting_member HS XS s L a _ _ K El Hin) as (u & _ & E & _). discriminate E. }
    destruct (sk_thread _ _ _ _ _ K t v Et) as (_ & Hx & _).
    destruct (place_push HS XS _ _ _ _ (waiting_queue a) (Tcb t) (wait_list t) l Kc) as (w' & Ep & Kp); try done.
    { rewrite fn_ne by done. by apply (home_awake _ _ _ Et). }
    rewrite Ep. ocbn. unfold set_wait, thread_at. cbn [threads with_lists set_thread]. rewrite lookup_insert_eq. ocbn.
    unfold thread_sched_check, is_state, thread_at. cbn [threads with_lists set_thread]. rewrite lookup_insert_eq. ocbn.
    cbn [t_state]. rewrite bool_decide_eq_false_2 by done. eexists. split; [reflexivity|].
    split_and!; [|cbn; by rewrite insert_insert_eq|done|done].
    rewrite <- (untaken D t) by (eapply not_taken; [exact K|exact Et|congruence]).
    eapply (sched_ok_step _ _ _ s _ L _ t v (MkTcb TCB_SLEEPING (Some (waiting_queue a))) _ _ K Et);
      [eapply placed_state; [exact Kp|reflexivity..]|..]; try done; cbn [t_state wait_chan_entry].
    + cbn. by rewrite insert_insert_eq.
    + intros n H1 H2. by rewrite !fn_ne.
    + by rewrite fn_ne, fn_lookup_insert by done.
    + by rewrite fn_lookup_insert.
    + intros q H. injection H as <-. done.
Qed.

Lemma state_list_of s L st q : sched_ok s L -> T_STATES st = Some q -> exists l, L !! q = Some l.
Proof.
  intros K E. destruct (pl_queue _ _ _ _ _ _ (sk_placed _ _ _ _ _ K) q _ (state_queue_set HS XS _ _ _ _ K E)) as [_ [l El]]. eauto.
Qed.

(** Taking the first thread of the queue of a state. *)
Lemma pop_state s L st q l : sched_ok s L -> T_STATES st = Some q -> L !! q = Some l ->
  match l with
  | [] => Queue_provide_atomic q true s = Done (None, s)
  | n :: _ => exists t v w, n = state_list t /\ threads s !! t = Some v /\ t_state v = st /\
      Queue_provide_atomic q true s = Done (Some (Tcb t), with_lists w s) /\
      placed HS XS (with_lists w s) (without L n) (<[n := None]> (home s)) (fun m => m = n \/ loose D (threads s) m)
  end.
Proof.
  intros K E El. pose proof (state_queue _ _ E) as Hq. pose proof (state_queue_set HS XS _ _ _ _ K E) as Eq.
  pose proof (place_pop HS XS s L (home s) _ q l (sk_placed _ _ _ _ _ K)) as Hp. rewrite Hq in Hp.
  specialize (Hp Eq El). unfold Queue_provide_atomic.
  assert (forall n, n ∈ l -> exists t v, n = state_list t /\ threads s !! t = Some v /\ t_state v = st) as Hm.
  { intros n. by eapply state_member. }
  destruct l as [|n l]; [apply Hp; by intros n Hn%not_elem_of_nil|].
  destruct Hp as (o & w & En & Ep & Kp); [intros m (t & v & -> & _)%Hm; by exists (Tcb t)|].
  destruct (Hm n) as (t & v & -> & Et & Hs); [left|]. destruct o as [u|u]; [|discriminate En].
  cbn in En. injection En as ->. exists t, v, w. split_and!; try done.
  by erewrite <- (pop_without _ _ _ _ _ _ _ _ _ (sk_placed _ _ _ _ _ K) El).
Qed.

Lemma scheduler_round_ok s L l : sched_ok s L -> L !! runnable_t_q = Some l ->
  match l with
  | [] => scheduler_round s = Done (None, s)
  | n :: _ => exists t v s', n = state_list t /\ threads s !! t = Some v /\ t_state v = TCB_RUNNABLE /\
      scheduler_round s = Done (Some t, s') /\ stepped HS XS D s s' (without L n) t (MkTcb TCB_RUNNING None)
  end.
Proof.
  intros K El. pose proof (pop_state s L TCB_RUNNABLE _ l K eq_refl El) as Hp. unfold scheduler_round.
  destruct l as [|n l]; [by rewrite Hp|]. destruct Hp as (t & v & w & -> & Et & Hs & -> & Kp). ocbn.
  unfold thread_at. cbn [threads with_lists]. rewrite Et. ocbn.
  pose proof (not_sleeping HS XS _ _ _ _ K Et ltac:(by rewrite Hs)) as Hw. rewrite Hw.
  exists t, v. eexists. split_and!; try done. split_and!; try done.
  rewrite <- (untaken D t) by (eapply not_taken; [exact K|exact Et|congruence]).
    eapply (sched_ok_step _ _ _ s _ L _ t v (MkTcb TCB_RUNNING None) _ _ K Et);
    [eapply placed_state; [exact Kp|reflexivity..]|..]; try done; cbn [t_state wait_chan_entry].
  - intros n H1 _. by rewrite fn_ne.
  - by rewrite fn_lookup_insert.
  - rewrite fn_ne by done. by apply (home_awake _ _ _ Et).
  - intros n _ _ Hn. by right.
  - by left.
  - split; [by intros []|done].
Qed.

Lemma thread_yield_ok s L t v : sched_ok s L -> threads s !! t = Some v -> t_state v = TCB_RUNNING ->
  exists s', thread_yield t s = Done s' /\
    stepped HS XS D s s' (moved L (state_list t) runnable_t_q) t (MkTcb TCB_RUNNABLE None).
Proof.
  intros K Et Hs. destruct (changeState_ok HS XS s L t v TCB_RUNNABLE runnable_t_q K Et) as (s' & Ec & Hst);
    [by rewrite Hs|done|done|]. exists s'. split; [|done]. unfold thread_yield. rewrite Ec. ocbn.
  destruct Hst as (_ & ET & _). unfold thread_sched_check, is_state, thread_at. cbn [negb Z.eqb Pos.eqb].
  rewrite ET, lookup_insert_eq. ocbn. cbn [t_state]. by rewrite bool_decide_eq_false_2.
Qed.

Lemma without_twice L n : without (without L n) n = without L n.
Proof.
  unfold without. apply map_eq. intros q. rewrite !lookup_fmap. destruct (L !! q); [|done]. cbn. f_equal.
  apply filter_all. intros m. rewrite list_elem_of_filter. tauto.
Qed.

Lemma claim_thread_ok s L l : sched_ok s L -> L !! unused_t_q = Some l ->
  match l with
  | [] => claim_thread s = Done (None, s)
  | n :: _ => exists t v s', n = state_list t /\ threads s !! t = Some v /\ t_state v = TCB_UNUSED /\
      claim_thread s = Done (Some t, s') /\ stepped HS XS D s s' (moved L n used_t_q) t (MkTcb TCB_USED None)
  end.
Proof.
  intros K El. pose proof (pop_state s L TCB_UNUSED _ l K eq_refl El) as Hp. unfold claim_thread.
  destruct l as [|n l]; [by rewrite Hp|]. destruct Hp as (t & v & w & -> & Et & Hs & -> & Kp). ocbn.
  pose proof (not_sleeping HS XS _ _ _ _ K Et ltac:(by rewrite Hs)) as Hw.
  destruct (changeState_placed HS XS _ _ _ _ t v TCB_USED used_t_q Kp Et) as (w' & Ec & Kc); [..|done| |].
  - right. by left.
  - intros _. by left.
  - intros q Hq. exact (state_queue_set HS XS s L _ _ K Hq).
  - exact (sk_queues _ _ _ _ _ K used_t_q eq_refl).
  - rewrite Ec. ocbn. rewrite Hw in *. exists t, v. eexists. split_and!; try done. split_and!; try done.
    assert (moved (without L (state_list t)) (state_list t) used_t_q = moved L (state_list t) used_t_q) as HL.
    { unfold moved. by rewrite without_twice. }
    rewrite HL in Kc.
    rewrite <- (untaken D t) by (eapply not_taken; [exact K|exact Et|congruence]).
    eapply (sched_ok_step _ _ _ s _ L _ t v (MkTcb TCB_USED None) _ _ K Et Kc); try done; cbn [t_state wait_chan_entry].
    + intros n H1 _. by rewrite !fn_ne.
    + by rewrite fn_lookup_insert.
    + rewrite !fn_ne by done. by apply (home_awake _ _ _ Et).
    + intros n H1 _ Hn. split; [done|by right].
    + split; [by intros []|done].
Qed.

(** Waking every waiter of a queue: [fuel] rounds of the loop are enough when
    there are fewer waiters. *)
Inductive woken : ksched W -> gmap qid (list qnode) -> list qnode -> ksched W -> gmap qid (list qnode) -> Prop :=
  | woken_none s L : woken s L [] s L
  | woken_one s L t l s1 s2 L2 :
      t_state <$> threads s !! t = Some TCB_SLEEPING -> stepped HS XS D s s1 (signalled L t) t (MkTcb TCB_RUNNABLE None) ->
      woken s1 (signalled L t) l s2 L2 -> woken s L (wait_list t :: l) s2 L2.

Lemma signalled_rest s L q t l : sched_ok s L -> L !! q = Some (wait_list t :: l) -> q <> runnable_t_q ->
  (forall n, n ∈ l -> exists u, n = wait_list u) -> signalled L t !! q = Some l.
Proof.
  intros K El Hq Hl. unfold signalled.
  rewrite (moved_lookup _ _ _ q (filter (fun m => m <> wait_list t) (wait_list t :: l))) by by apply without_lookup.
  rewrite decide_False by done. rewrite app_nil_r. f_equal.
  pose proof (lh_rep_NoDup HS XS _ L q _ (pl_rep _ _ _ _ _ _ (sk_placed _ _ _ _ _ K)) El) as Hnd.
  apply (NoDup_mid _ []) in Hnd as [Hnot _]. rewrite (filter_remove (wait_list t) [] l) by done.
  apply filter_all. intros n Hn ->. by destruct (Hl _ Hn).
Qed.

Lemma cond_broadcast_ok l : forall fuel s L a, sched_ok s L -> queues s !! waiting_queue a = Some TCB_WAIT_QUEUE ->
  L !! waiting_queue a = Some l -> (length l < fuel)%nat ->
  exists s' L', cond_broadcast fuel a s = Done s' /\ sched_ok s' L' /\ woken s L l s' L'.
Proof.
  induction l as [|n l IH]; intros fuel s L a K Eq El Hf; (destruct fuel as [|fuel]; [cbn in Hf; lia|]);
    cbn [cond_broadcast]; unfold Queue_isempty_atomic, Queue_isempty;
    rewrite (lh_empty_rep HS XS _ L _ _ (pl_rep _ _ _ _ _ _ (sk_placed _ _ _ _ _ K)) El); ocbn.
  { exists s, L. split_and!; [done|done|constructor]. }
  rewrite bool_decide_eq_false_2 by done.
  destruct (waiting_member HS XS s L a _ n K El (list_elem_of_here _ _)) as (t & v & -> & Et & _ & Hs).
  destruct (wake_first s L a t l K Eq El) as (s1 & E1 & H1). pose proof H1 as (K1 & _ & Q1 & _).
  destruct (IH fuel s1 (signalled L t) a K1) as (s2 & L2 & E2 & K2 & W2); [by rewrite Q1| |cbn in Hf; lia|].
  { eapply signalled_rest; [done..|]. intros n Hn.
    destruct (waiting_member HS XS s L a _ n K El (list_elem_of_further _ _ _ Hn)) as (u & _ & -> & _). eauto. }
  exists s2, L2. split_and!; [|done|].
  - destruct (Queue_provide_atomic (waiting_queue a) true s) as [[o s0]| | |]; try discriminate E1. cbn in E1 |- *.
    rewrite E1. exact E2.
  - econstructor; [by rewrite Et; cbn; rewrite Hs|done|done].
Qed.

(** A sleeper waits once, so a queue has no more waiters than there are threads. *)
Lemma waiting_length s L a l : sched_ok s L -> L !! waiting_queue a = Some l -> (length l <= size (threads s))%nat.
Proof.
  intros K El.
  pose proof (lh_rep_NoDup HS XS _ L _ _ (pl_rep _ _ _ _ _ _ (sk_placed _ _ _ _ _ K)) El) as Hnd.
  assert (exists ts, l = wait_list <$> ts /\ forall t, t ∈ ts -> t ∈ dom (threads s)) as (ts & -> & Hts).
  { pose proof (fun n => waiting_member HS XS s L a l n K El) as Hm. clear El Hnd. induction l as [|n l IH].
    - exists []. split; [done|]. by intros t Ht%not_elem_of_nil.
    - destruct IH as (ts & -> & Hts); [intros m Hn; apply Hm; by right|].
      destruct (Hm n (list_elem_of_here _ _)) as (t & v & -> & Et & _). exists (t :: ts). split; [done|].
      intros u [->|Hu]%elem_of_cons; [by apply elem_of_dom; eauto|auto]. }
  rewrite length_fmap. apply NoDup_fmap_1 in Hnd. rewrite <- size_dom.
  rewrite <- (size_list_to_set (C := gset Z) ts) by done. apply subseteq_size.
  intros t. rewrite elem_of_list_to_set. apply Hts.
Qed.

(** *** Initialisation *)

Lemma Queue_init_ok s L q : sched_ok s L -> q ∈ HS ->
  (forall n, home s n <> Some q) ->
  exists s', Queue_init q (qtype q) s = Done s' /\ sched_ok s' (<[q := []]> L) /\
    threads s' = threads s /\ procs s' = procs s /\ queues s' = <[q := qtype q]> (queues s).
Proof.
  intros K Hq Hn. destruct (place_init HS XS s L _ _ q (sk_placed _ _ _ _ _ K) Hq Hn) as (w & Ew & Kw).
  eexists. split; [unfold Queue_init, sc_lists; rewrite Ew; ocbn; reflexivity|]. split_and!; try done.
  constructor; [exact Kw|apply (sk_thread _ _ _ _ _ K)|apply (sk_taken _ _ _ _ _ K)|]. intros q' Hq'. cbn [queues].
  destruct (decide (q = q')) as [<-|]; [by rewrite lookup_insert_eq, Hq'|].
  rewrite lookup_insert_ne by done. by apply (sk_queues _ _ _ _ _ K).
Qed.

(** The memory at boot: no queue, no thread. *)
Definition blank s : Prop := lh_rep HS XS (qlists s) ∅ /\ queues s = ∅ /\ threads s = ∅ /\ procs s = ∅.

Lemma TCB_Q_ALL_INIT_ok s : blank s ->
  unused_t_q ∈ HS -> used_t_q ∈ HS -> runnable_t_q ∈ HS -> sleeping_t_q ∈ HS ->
  exists s' L, TCB_Q_ALL_INIT s = Done s' /\ Sched.sched_ok HS XS ∅ s' L /\ threads s' = ∅ /\ L !! unused_t_q = Some [].
Proof.
  intros (R & EQ & ET & EP) H1 H2 H3 H4.
  assert (placed HS XS s ∅ (fun _ => None) (loose ∅ ∅)) as K.
  { constructor; try done.
    - intros q type. by rewrite EQ.
    - by intros n [(t & v & _ & E & _)|(t & _ & Ht%not_elem_of_empty)].
    - by intros n [[? E]|[(t & v & _ & E & _)|(t & _ & Ht%not_elem_of_empty)]]. }
  assert (forall q, forall n : qnode, (fun _ => None : option qid) n <> Some q) as Hn by done.
  destruct (place_init HS XS _ _ _ _ unused_t_q K H1 (Hn _)) as (w1 & E1 & K1).
  destruct (place_init HS XS _ _ _ _ used_t_q K1 H2 (Hn _)) as (w2 & E2 & K2).
  destruct (place_init HS XS _ _ _ _ runnable_t_q K2 H3 (Hn _)) as (w3 & E3 & K3).
  destruct (place_init HS XS _ _ _ _ sleeping_t_q K3 H4 (Hn _)) as (w4 & E4 & K4).
  do 2 eexists. split.
  { unfold TCB_Q_ALL_INIT, Queue_init, sc_lists. rewrite E1. ocbn. cbn [qlists queues threads procs] in *.
    rewrite E2. ocbn. cbn [qlists queues threads procs] in *. rewrite E3. ocbn.
    cbn [qlists queues threads procs] in *. rewrite E4. ocbn. reflexivity. }
  split_and!.
  - constructor; cbn [queues threads procs qlists].
    + eapply placed_ext; [exact K4| |]; cbn [queues threads procs qlists].
      * intros n. rewrite ET, EP. destruct n; cbn; by try case_decide.
      * by rewrite ET.
    + by rewrite ET.
    + by intros t Ht%not_elem_of_empty.
    + intros q Hq. destruct q; try discriminate Hq; repeat first [by rewrite lookup_insert_eq | rewrite lookup_insert_ne by done].
  - done.
  - done.
Qed.

Lemma add_thread_ok s L l t : sched_ok s L -> threads s !! t = None -> L !! unused_t_q = Some l ->
  state_list t ∈ XS -> wait_list t ∈ XS ->
  exists s', Queue_push_back unused_t_q (Tcb t) (set_thread t (MkTcb TCB_UNUSED None) s) = Done s' /\
    sched_ok s' (<[unused_t_q := l ++ [state_list t]]> L) /\
    threads s' = <[t := MkTcb TCB_UNUSED None]> (threads s).
Proof.
  intros K Et El H1 H2. set (v := MkTcb TCB_UNUSED None).
  assert (t ∉ D) as Htd by (intros Hd; destruct (sk_taken _ _ _ _ _ K t Hd) as (? & E & _); congruence).
  assert (placed HS XS (set_thread t v s) L (home s) (loose D (threads s))) as K0.
  { apply (placed_state HS XS s); [apply K|done..]. }
  destruct (place_push HS XS _ _ _ _ unused_t_q (Tcb t) (state_list t) l K0) as (w & Ew & Kw); try done.
  { cbn. by rewrite Et. }
  { apply (sk_queues _ _ _ _ _ K unused_t_q eq_refl). }
  eexists. split; [exact Ew|]. split; [|done]. constructor.
  - eapply placed_ext; [exact Kw| |]; cbn [threads procs with_lists set_thread].
    + intros n. rewrite <- (untaken D t Htd) at 1. rewrite node_home_insert. destruct (decide (n = state_list t)) as [->|Hs].
      { by rewrite !fn_lookup_insert. }
      rewrite !(fn_ne _ (state_list t)) by done. destruct (decide (n = wait_list t)) as [->|Hw].
      { rewrite fn_lookup_insert. cbn. rewrite Et. by case_decide. }
      by rewrite fn_ne.
    + intros n [(u & x & -> & Eu & Hr)|(u & -> & Hu)]; [|split; [done|right; eauto]].
      destruct (decide (t = u)) as [<-|Hne].
      { rewrite lookup_insert_eq in Eu. injection Eu as <-. discriminate Hr. }
      rewrite lookup_insert_ne in Eu by done. split; [congruence|]. left. by exists u, x.
  - intros u x. cbn [threads with_lists set_thread]. destruct (decide (t = u)) as [<-|Hne].
    + rewrite lookup_insert_eq. intros [= <-]. split_and!; try done. split; [by intros []|done].
    + rewrite lookup_insert_ne by done. apply (sk_thread _ _ _ _ _ K).
  - intros u Hu. cbn [threads with_lists set_thread]. rewrite lookup_insert_ne by (by intros <-). by apply (sk_taken _ _ _ _ _ K).
  - apply (sk_queues _ _ _ _ _ K).
Qed.

Lemma tcb_init_loop_ok n : forall i s L l, sched_ok s L -> L !! unused_t_q = Some l ->
  (forall t, i <= t < i + Z.of_nat n -> threads s !! t = None /\ state_list t ∈ XS /\ wait_list t ∈ XS) ->
  exists s' L', tcb_init_loop n i s = Done s' /\ sched_ok s' L' /\
    L' !! unused_t_q = Some (l ++ (state_list <$> seqZ i (Z.of_nat n))) /\
    forall t, threads s' !! t = if decide (i <= t < i + Z.of_nat n) then Some (MkTcb TCB_UNUSED None) else threads s !! t.
Proof.
  induction n as [|n IH]; intros i s L l K El Ht; cbn [tcb_init_loop].
  { exists s, L. split_and!; [done..|by rewrite app_nil_r|]. intros t. rewrite decide_False by lia. done. }
  destruct (Ht i ltac:(lia)) as (Et & H1 & H2).
  destruct (add_thread_ok s L l i K Et El H1 H2) as (s1 & E1 & K1 & ET1). rewrite E1. ocbn.
  destruct (IH (i + 1) s1 _ (l ++ [state_list i]) K1) as (s2 & L2 & E2 & K2 & EL2 & ET2).
  - apply lookup_insert_eq.
  - intros t Hr. rewrite ET1, lookup_insert_ne by lia. apply Ht. lia.
  - exists s2, L2. split_and!; [done..| |].
    + rewrite EL2, <- app_assoc. rewrite (seqZ_cons i) by lia. rewrite fmap_cons. repeat f_equal; lia.
    + intros t. rewrite ET2, ET1. destruct (decide (i = t)) as [->|Hne].
      * rewrite lookup_insert_eq, decide_False, decide_True by lia. done.
      * rewrite lookup_insert_ne by done. repeat case_decide; try lia; done.
Qed.
End signals.
