(* ===== verification/Cpus.v ===== *)
(** * Cpus: the scheduler's routines on any number of cpus

    The step relation over [Sched]: a cpu without a thread runs rounds of
    [thread_scheduler]; a running thread yields, waits, signals in three sections, starts
    threads, exits; timers' callbacks come at any time for any thread.  From it: the agreement of states, queues and
    cpus in every reachable state and the calls that do not return, the absence of starvation, and the race
    between a timer and a signaller. *)

From stdpp Require Import base gmap sets list fin_maps relations functions.
From Stdlib Require Import ZArith Lia.
From S2P Require Import Prelude KList Sched.
#[local] Open Scope Z_scope.

(** [c->thread] of every cpu that is not in [thread_scheduler]. *)
Record conf (W : Type) := Conf { sch : ksched W; cpu_thread : gmap Z Z }.
Arguments Conf {W}.
Arguments sch {W}.
Arguments cpu_thread {W}.

(** The routines that are one critical section.  [Round]: the cpu is in the
    scheduler.  [Yield], [Wait] and [Exit] are calls of the thread on the cpu,
    [do_exit] for the last; the others can also be made by an interrupt
    handler: [Wakeup] is a timer's or a signal's. *)
Inductive call :=
  | Round
  | Yield
  | Wait (a : Z)
  | Exit
  | Wakeup (t : Z)
  | Claim
  | Start (t : Z)
  | CondInit (a : Z).

(** [cond_signal] locks the waiting queue to test it ([Test]) and again to take
    a thread out ([Take]), then locks the thread to wake it ([WakeOne]); a turn
    of the loop of [cond_broadcast] is the same three sections. *)
Inductive event :=
  | Call (e : call)
  | Test (a : Z)
  | Take
  | WakeOne.

(** A cpu inside [cond_signal]: it has seen a waiter of [a], or it holds in [t]
    what [Queue_provide_atomic] returned ([None] for NULL). *)
Inductive signaller := Seen (a : Z) | Taken (o : option qobj).

Record sys (W : Type) := Sys { cpus : conf W; signals : gmap Z signaller }.
Arguments Sys {W}.
Arguments cpus {W}.
Arguments signals {W}.

#[export] Instance call_eq_dec : EqDecision call.
Proof. solve_decision. Defined.
#[export] Instance event_eq_dec : EqDecision event.
Proof. solve_decision. Defined.
#[export] Instance qobj_eq_dec : EqDecision qobj.
Proof. solve_decision. Defined.
#[export] Instance signaller_eq_dec : EqDecision signaller.
Proof. solve_decision. Defined.

Section steps.
Context {W : Type} `{LO : !ListOps qid qnode W}.
Implicit Types (x : conf W) (y : sys W).

Definition leaves (c : Z) (f : Z -> ksched W -> outcome (ksched W)) x : outcome (conf W) :=
  t ← deref (cpu_thread x !! c);
  s ← f t (sch x);
  Done (Conf s (delete c (cpu_thread x))).

Definition stays (f : ksched W -> outcome (ksched W)) x : outcome (conf W) :=
  s ← f (sch x); Done (Conf s (cpu_thread x)).

(** [free_thread] and the last [thread_sched]. *)
Definition thread_exit (t : Z) (s : ksched W) : outcome (ksched W) :=
  s ← TCB_Q_changeState t TCB_UNUSED s;
  thread_sched_check 1 false t s;;
  Done s.

Definition call_step (c : Z) (e : call) x : outcome (conf W) :=
  match e with
  | Round =>
      '(o, s) ← scheduler_round (sch x);
      Done (Conf s (match o with Some t => <[c := t]> (cpu_thread x) | None => cpu_thread x end))
  | Yield => leaves c thread_yield x
  | Wait a => leaves c (cond_wait a) x
  | Exit => leaves c thread_exit x
  | Wakeup t => stays (thread_wakeup_atomic t) x
  | Claim => '(_, s) ← claim_thread (sch x); Done (Conf s (cpu_thread x))
  | Start t => stays (TCB_Q_changeState t TCB_RUNNABLE) x
  | CondInit a => stays (cond_init a) x
  end.

Definition act (c : Z) (e : event) y : outcome (sys W) :=
  let x := cpus y in
  match e with
  | Call e => x ← call_step c e x; Done (Sys x (signals y))
  | Test a =>
      b ← Queue_isempty_atomic (waiting_queue a) (sch x);
      Done (if b : bool then y else Sys x (<[c := Seen a]> (signals y)))
  | Take =>
      g ← deref (signals y !! c);
      match g with
      | Seen a =>
          '(o, s) ← Queue_provide_atomic (waiting_queue a) true (sch x);
          Done (Sys (Conf s (cpu_thread x)) (<[c := Taken o]> (signals y)))
      | Taken _ => Undef
      end
  | WakeOne =>
      g ← deref (signals y !! c);
      match g with
      | Taken o => x ← stays (cond_wake_one o) x; Done (Sys x (delete c (signals y)))
      | Seen _ => Undef
      end
  end.

Definition ready_queue (a : Z) x : Prop := queues (sch x) !! waiting_queue a = Some TCB_WAIT_QUEUE.

Definition thread_is (st : thread_state) (t : Z) x : Prop := t_state <$> threads (sch x) !! t = Some st.

(** When the code makes the call.  Nothing restricts the thread that a timer's
    callback wakes, and any number of cpus may be in [cond_signal]. *)
Definition callable (HS : gset qid) (c : Z) (e : call) x : Prop :=
  match e with
  | Round => cpu_thread x !! c = None
  | Yield | Exit => is_Some (cpu_thread x !! c)
  | Wait a => is_Some (cpu_thread x !! c) /\ ready_queue a x
  | Wakeup t => is_Some (threads (sch x) !! t)
  | Claim => True
  | Start t => thread_is TCB_USED t x
  | CondInit a => waiting_queue a ∈ HS /\
      map_Forall (fun _ v => wait_chan_entry v <> Some (waiting_queue a)) (threads (sch x))
  end.

Definition enabled (HS : gset qid) (c : Z) (e : event) y : Prop :=
  match e, signals y !! c with
  | Call e, None => callable HS c e (cpus y)
  | Test a, None => ready_queue a (cpus y)
  | Take, Some (Seen _) | WakeOne, Some (Taken _) => True
  | _, _ => False
  end.

(** The threads that signallers hold: out of their queues and not yet woken. *)
Definition taken y : gset Z :=
  list_to_set (omap (fun g => match g.2 with Taken (Some (Tcb t)) => Some t | _ => None end) (map_to_list (signals y))).

(** A timer fires on a thread that a signaller holds. *)
Definition strikes (e : event) y : Prop :=
  match e with Call (Wakeup t) => t ∈ taken y | _ => False end.

#[export] Instance callable_dec HS c e x : Decision (callable HS c e x).
Proof. destruct e; cbn; unfold ready_queue, thread_is; apply _. Defined.
#[export] Instance enabled_dec HS c e y : Decision (enabled HS c e y).
Proof. unfold enabled, ready_queue. destruct e, (signals y !! c) as [[]|]; apply _. Defined.
#[export] Instance strikes_dec e y : Decision (strikes e y).
Proof. destruct e as [[]| | |]; cbn; apply _. Defined.

(** A run of the system in which no timer strikes a thread held by a signaller. *)
Inductive run (HS : gset qid) : list (Z * event) -> sys W -> sys W -> Prop :=
  | run_nil y : run HS [] y y
  | run_cons c e evs y y1 y2 : enabled HS c e y -> ~ strikes e y -> act c e y = Done y1 -> run HS evs y1 y2 ->
      run HS ((c, e) :: evs) y y2.

(** Running the events, as a function. *)
Fixpoint play (HS : gset qid) (evs : list (Z * event)) y : outcome (sys W) :=
  match evs with
  | [] => Done y
  | (c, e) :: evs => if decide (enabled HS c e y /\ ~ strikes e y) then y ← act c e y; play HS evs y else Undef
  end.

Lemma play_run HS evs : forall y y', play HS evs y = Done y' -> run HS evs y y'.
Proof.
  induction evs as [|[c e] evs IH]; intros y y'; cbn [play]; [intros [= ->]; constructor|].
  case_decide as He; [|done]. destruct He, (act c e y) as [y1| | |] eqn:Ea; try done. cbn. intros E.
  econstructor; eauto.
Qed.

Lemma elem_of_taken y t : t ∈ taken y <-> exists c, signals y !! c = Some (Taken (Some (Tcb t))).
Proof.
  unfold taken. rewrite elem_of_list_to_set, list_elem_of_omap. split.
  - intros ([c g] & Hg%elem_of_map_to_list & E). cbn in E. exists c. rewrite Hg. by destruct g as [|[[]|]]; simplify_eq.
  - intros [c Hc]. exists (c, Taken (Some (Tcb t))). split; [by apply elem_of_map_to_list|done].
Qed.
End steps.

(** *** Where threads wait

    What the calls do to [wait_chan_entry], without any invariant. *)

Section waits.
Context {W : Type} `{LO : !ListOps qid qnode W}.
Implicit Types (s : ksched W) (x : conf W).

Definition waits s t : option qid := v ← threads s !! t; wait_chan_entry v.

Definition is_cond s a : Prop := queues s !! waiting_queue a = Some TCB_WAIT_QUEUE.

(** No thread starts to wait, and no condition variable goes away. *)
Definition calm s s' : Prop :=
  (forall t, waits s' t = waits s t \/ waits s' t = None) /\ forall a, is_cond s a -> is_cond s' a.

(** Only the lists changed. *)
Definition same_but_lists s s' : Prop := threads s' = threads s /\ queues s' = queues s.

Lemma calm_refl s : calm s s.
Proof. split; [by left|done]. Qed.
Lemma calm_trans s1 s2 s3 : calm s1 s2 -> calm s2 s3 -> calm s1 s3.
Proof.
  intros [H1 C1] [H2 C2]. split; [|by auto]. intros t. destruct (H2 t) as [->|]; [apply H1|by right].
Qed.
Lemma calm_lists s s' : same_but_lists s s' -> calm s s'.
Proof. intros [ET EQ]. unfold calm, waits, is_cond. rewrite ET, EQ. auto. Qed.
Lemma calm_waits s s' : (forall u, waits s' u = waits s u) /\ queues s' = queues s -> calm s s'.
Proof. intros [H EQ]. unfold calm, is_cond. rewrite EQ. auto. Qed.

Lemma waits_set_thread t v s u : waits (set_thread t v s) u = if decide (u = t) then wait_chan_entry v else waits s u.
Proof.
  unfold waits. cbn [threads set_thread]. case_decide as Hd; [subst; by rewrite lookup_insert_eq|by rewrite lookup_insert_ne].
Qed.

Lemma sc_lists_quiet f s s' : sc_lists f s = Done s' -> same_but_lists s s'.
Proof. unfold sc_lists. intros H. by invert_outcome. Qed.
Lemma Queue_push_back_quiet q o s s' : Queue_push_back q o s = Done s' -> same_but_lists s s'.
Proof. unfold Queue_push_back. intros H. invert_outcome. by eapply sc_lists_quiet. Qed.
Lemma Queue_remove_quiet o ty s s' : Queue_remove o ty s = Done s' -> same_but_lists s s'.
Proof. unfold Queue_remove. intros H. invert_outcome. by eapply sc_lists_quiet. Qed.
Lemma Queue_remove_atomic_quiet q o s s' : Queue_remove_atomic q o s = Done s' -> same_but_lists s s'.
Proof. unfold Queue_remove_atomic. intros H. invert_outcome. by eapply sc_lists_quiet. Qed.
Lemma Queue_provide_quiet q r s o s' : Queue_provide_atomic q r s = Done (o, s') -> same_but_lists s s'.
Proof.
  unfold Queue_provide_atomic, Queue_pop. intros H. apply bind_Done in H as ([] & _ & H); [by injection H as <- <-|].
  apply bind_Done in H as (? & _ & H). apply bind_Done in H as (? & _ & H). apply bind_Done in H as (s1 & E & H).
  apply (inj Done) in H. injection H as <- <-. destruct r; [by eapply Queue_remove_quiet|by injection E as <-].
Qed.
Lemma cond_init_calm a s s' : cond_init a s = Done s' -> calm s s'.
Proof.
  unfold cond_init, Queue_init. intros H. apply bind_Done in H as (s1 & E & H). apply (inj Done) in H. subst.
  apply sc_lists_quiet in E as [ET EQ]. unfold calm, waits, is_cond. cbn [threads queues]. rewrite ET, EQ.
  split; [by left|]. intros b Hb. destruct (decide (a = b)) as [->|]; [apply lookup_insert_eq|].
  by rewrite lookup_insert_ne by congruence.
Qed.

Lemma changeState_waits t st s s' : TCB_Q_changeState t st s = Done s' ->
  (forall u, waits s' u = waits s u) /\ queues s' = queues s.
Proof.
  unfold TCB_Q_changeState, Queue_push_back_atomic. intros H. apply bind_Done in H as (v & Ev & H).
  apply bind_Done in H as (s1 & E1 & H). apply bind_Done in H as (q & _ & H). apply bind_Done in H as (s2 & E2 & H).
  apply bind_Done in H as (w & Ew & H). apply (inj Done) in H. subst.
  assert (same_but_lists s s1) as [T1 Q1].
  { revert E1. case_decide; [apply Queue_remove_quiet|]. intros (? & _ & E)%bind_Done.
    by eapply Queue_remove_atomic_quiet. }
  clear E1. apply Queue_push_back_quiet in E2 as [E2 Q2]. rewrite T1 in E2. rewrite Q1 in Q2. split; [|done]. intros u.
  unfold thread_at in Ew. rewrite E2 in Ew.
  apply deref_Done in Ew. rewrite waits_set_thread. cbn [wait_chan_entry]. unfold waits. rewrite E2.
  case_decide; [subst; by rewrite Ew|done].
Qed.

Lemma set_wait_waits t o s s' : set_wait t o s = Done s' ->
  (forall u, waits s' u = if decide (u = t) then o else waits s u) /\ queues s' = queues s.
Proof.
  unfold set_wait. intros H. apply bind_Done in H as (v & Ev & H). apply (inj Done) in H. subst.
  split; [|done]. intros u. apply waits_set_thread.
Qed.

Lemma unwait_calm t st s s' : (s1 ← set_wait t None s; TCB_Q_changeState t st s1) = Done s' -> calm s s'.
Proof.
  intros H. apply bind_Done in H as (s1 & E1 & H). apply set_wait_waits in E1 as [E1 Q1].
  eapply calm_trans; [|by eapply calm_waits, changeState_waits]. split; [|by intros a; unfold is_cond; rewrite Q1].
  intros u. rewrite E1. case_decide; [by right|by left].
Qed.

Lemma thread_wakeup_calm t s s' : thread_wakeup t s = Done s' -> calm s s'.
Proof.
  unfold thread_wakeup. intros H. apply bind_Done in H as (v & _ & H). apply bind_Done in H as (? & _ & H).
  apply bind_Done in H as (q & _ & H). apply bind_Done in H as (s1 & E1 & H). apply bind_Done in H as (b & _ & H).
  apply bind_Done in H as (? & _ & H). eapply calm_trans; [|by eapply unwait_calm].
  by eapply calm_lists, Queue_remove_atomic_quiet.
Qed.

Lemma cond_wake_one_calm o s s' : cond_wake_one o s = Done s' -> calm s s'.
Proof.
  unfold cond_wake_one. destruct o as [[t|p]|]; try done. intros H. apply bind_Done in H as (b & _ & H).
  destruct (negb b); [done|]. apply bind_Done in H as (v & _ & H). apply bind_Done in H as (? & _ & H).
  by eapply unwait_calm.
Qed.

Lemma provide_wake_calm q s s' : ('(o, s1) ← Queue_provide_atomic q true s; cond_wake_one o s1) = Done s' -> calm s s'.
Proof.
  intros H. apply bind_Done in H as ([o s1] & E & H). eapply calm_trans; [|by eapply cond_wake_one_calm].
  eapply calm_lists, Queue_provide_quiet, E.
Qed.

Lemma cond_signal_calm a s s' : cond_signal a s = Done s' -> calm s s'.
Proof.
  unfold cond_signal. intros H. apply bind_Done in H as ([] & _ & H); [|by eapply provide_wake_calm].
  apply (inj Done) in H. subst. apply calm_refl.
Qed.

Lemma cond_wait_waits a t s s' : cond_wait a t s = Done s' ->
  (forall u, waits s' u = if decide (u = t) then Some (waiting_queue a) else waits s u) /\ queues s' = queues s.
Proof.
  unfold cond_wait. intros H. apply bind_Done in H as (s1 & E1 & H). apply bind_Done in H as (s2 & E2 & H).
  apply bind_Done in H as (s3 & E3 & H). apply bind_Done in H as (? & _ & H). apply (inj Done) in H. subst.
  apply changeState_waits in E1 as [E1 Q1]. apply Queue_push_back_quiet in E2 as [E2 Q2].
  apply set_wait_waits in E3 as [E3 Q3]. split; [|congruence]. intros u. rewrite E3. case_decide; [done|].
  rewrite <- E1. unfold waits. by rewrite E2.
Qed.

(** Every call but a wait is calm. *)
Lemma call_calm c e x x' : call_step c e x = Done x' -> (forall a, e <> Wait a) -> calm (sch x) (sch x').
Proof.
  intros H He. destruct e as [| |a| |t| |t|a]; cbn [call_step] in H; unfold leaves, stays in H; try by destruct (He a).
  - apply bind_Done in H as ([o s] & E & H). apply (inj Done) in H. subst. cbn [sch].
    unfold scheduler_round in E. apply bind_Done in E as ([o' s1] & E1 & E).
    eapply calm_trans; [eapply calm_lists, Queue_provide_quiet, E1|].
    destruct o' as [[t|p]|]; [|done|].
    + apply bind_Done in E as (v & Ev & E). apply (inj Done) in E. injection E as <- <-. apply calm_waits. split; [|done]. intros u.
      rewrite waits_set_thread. cbn [wait_chan_entry]. case_decide; [|done]. subst.
      apply deref_Done in Ev. unfold waits. by rewrite Ev.
    + apply (inj Done) in E. injection E as <- <-. apply calm_refl.
  - apply bind_Done in H as (t & _ & H). apply bind_Done in H as (s & E & H). apply (inj Done) in H. subst.
    apply bind_Done in E as (s1 & E1 & E). apply bind_Done in E as (? & _ & E). apply (inj Done) in E. subst.
    by eapply calm_waits, changeState_waits.
  - apply bind_Done in H as (t & _ & H). apply bind_Done in H as (s & E & H). apply (inj Done) in H. subst.
    apply bind_Done in E as (s1 & E1 & E). apply bind_Done in E as (? & _ & E). apply (inj Done) in E. subst.
    by eapply calm_waits, changeState_waits.
  - invert_outcome. by eapply thread_wakeup_calm.
  - apply bind_Done in H as ([o s] & E & H). apply (inj Done) in H. subst. cbn [sch].
    unfold claim_thread in E. apply bind_Done in E as ([o' s1] & E1 & E).
    eapply calm_trans; [eapply calm_lists, Queue_provide_quiet, E1|].
    destruct o' as [[t|p]|]; [|done|].
    + apply bind_Done in E as (s2 & E2 & E). apply (inj Done) in E. injection E as <- <-.
      by eapply calm_waits, changeState_waits.
    + apply (inj Done) in E. injection E as <- <-. apply calm_refl.
  - invert_outcome. by eapply calm_waits, changeState_waits.
  - invert_outcome. by eapply cond_init_calm.
Qed.
End waits.

Section scheduling.
Context {W : Type} `{LO : !ListOps qid qnode W, LH : !ListHeap qid qnode W, IN : !IdleNodes qid qnode W}.
Context (HS : gset qid) (XS : gset qnode).
Implicit Types (s : ksched W) (x : conf W) (y : sys W) (L : gmap qid (list qnode)) (D : gset Z).

(** Besides the queues: a thread is RUNNING when some cpu runs it, and no two
    cpus run the same thread. *)
Record conf_ok D x L : Prop := {
  ck_sched : sched_ok HS XS D (sch x) L;
  ck_cpu t : (exists c, cpu_thread x !! c = Some t) <-> thread_is TCB_RUNNING t x;
  ck_one c c' t : cpu_thread x !! c = Some t -> cpu_thread x !! c' = Some t -> c = c'
}.

(** Thread [t] has at most [k] threads before it in the runnable queue. *)
Definition ahead L t (k : nat) : Prop :=
  exists l1 l2, L !! runnable_t_q = Some (l1 ++ state_list t :: l2) /\ (length l1 <= k)%nat.

Lemma ahead_without L t k n : ahead L t k -> n <> state_list t -> ahead (without L n) t k.
Proof.
  intros (l1 & l2 & E & Hl) Hn. eexists _, _. split.
  - rewrite (without_lookup _ _ _ _ E), list.filter_app, filter_cons, decide_True by done. reflexivity.
  - etrans; [apply list.length_filter|done].
Qed.

Lemma ahead_moved L t k n q : ahead L t k -> n <> state_list t -> ahead (moved L n q) t k.
Proof.
  intros (l1 & l2 & E & Hl) Hn. eexists _, _. split.
  - rewrite (moved_lookup _ _ _ _ _ E), list.filter_app, filter_cons, decide_True by done.
    rewrite <- app_assoc, <- app_comm_cons. reflexivity.
  - etrans; [apply list.length_filter|done].
Qed.

Lemma ahead_insert L t k q l : ahead L t k -> q <> runnable_t_q -> ahead (<[q := l]> L) t k.
Proof. intros (l1 & l2 & E & Hl) Hq. exists l1, l2. by rewrite lookup_insert_ne. Qed.

Lemma ahead_state D s L t k : sched_ok HS XS D s L -> ahead L t k -> t_state <$> threads s !! t = Some TCB_RUNNABLE.
Proof.
  intros K (l1 & l2 & E & _).
  destruct (state_member HS XS s L TCB_RUNNABLE _ _ (state_list t) K eq_refl E) as (u & v & [= <-] & -> & <-);
    [by apply elem_of_mid; left|done].
Qed.

Lemma thread_is_stepped D s s' L' u v' cur cur' t st : stepped HS XS D s s' L' u v' ->
  thread_is st t (Conf s' cur) <-> if decide (t = u) then t_state v' = st else thread_is st t (Conf s cur').
Proof.
  intros (_ & ET & _). unfold thread_is. cbn [sch]. rewrite ET. case_decide as Hd.
  - subst. rewrite lookup_insert_eq. cbn. split; congruence.
  - by rewrite lookup_insert_ne.
Qed.

(** No cpu starts or stops running a thread. *)
Lemma stays_ok D D' s L cur s' L' u v' : conf_ok D (Conf s cur) L -> stepped HS XS D' s s' L' u v' ->
  ~ thread_is TCB_RUNNING u (Conf s cur) -> t_state v' <> TCB_RUNNING -> conf_ok D' (Conf s' cur) L'.
Proof.
  intros [K Hc H1] H Hu Hv. constructor; [apply H| |done]. intros t. cbn [cpu_thread] in *.
  rewrite (thread_is_stepped _ _ _ _ _ _ cur cur t _ H), Hc. case_decide; [by subst|done].
Qed.

(** Cpu [c] stops running [u]. *)
Lemma leaves_ok D D' s L cur c s' L' u v' : conf_ok D (Conf s cur) L -> stepped HS XS D' s s' L' u v' ->
  cur !! c = Some u -> t_state v' <> TCB_RUNNING -> conf_ok D' (Conf s' (delete c cur)) L'.
Proof.
  intros [K Hc H1] H Hu Hv. constructor; [apply H| |]; cbn [cpu_thread] in *.
  - intros t. rewrite (thread_is_stepped _ _ _ _ _ _ _ cur t _ H). case_decide as Hd; [|rewrite <- Hc].
    + subst. split; [|done]. intros [c' E]. apply lookup_delete_Some in E as [Hne E]. by destruct Hne; eapply H1.
    + split; intros [c' E]; exists c'; [by apply lookup_delete_Some in E as [_ E]|].
      apply lookup_delete_Some. split; [|done]. intros <-. congruence.
  - intros c1 c2 t [_ E1]%lookup_delete_Some [_ E2]%lookup_delete_Some. by eapply H1.
Qed.

(** Cpu [c] starts running [u]. *)
Lemma starts_ok D D' s L cur c s' L' u v' : conf_ok D (Conf s cur) L -> stepped HS XS D' s s' L' u v' ->
  cur !! c = None -> ~ thread_is TCB_RUNNING u (Conf s cur) -> t_state v' = TCB_RUNNING ->
  conf_ok D' (Conf s' (<[c := u]> cur)) L'.
Proof.
  intros [K Hc H1] H Hnone Hu Hv.
  assert (forall c', cur !! c' <> Some u) as Hno by (intros c' E; apply Hu, Hc; eauto).
  constructor; [apply H| |]; cbn [cpu_thread] in *.
  - intros t. rewrite (thread_is_stepped _ _ _ _ _ _ _ cur t _ H). case_decide as Hd; [|rewrite <- Hc].
    + subst. split; [done|]. intros _. exists c. apply lookup_insert_eq.
    + split; intros [c' E]; exists c'.
      * apply lookup_insert_Some in E as [[_ ?]|[_ E]]; [congruence|done].
      * rewrite lookup_insert_ne; [done|]. intros <-. congruence.
  - intros c1 c2 t E1 E2. apply lookup_insert_Some in E1 as [[<- <-]|[Hc1 E1]];
      apply lookup_insert_Some in E2 as [[<- E2]|[Hc2 E2]]; subst; try done.
    + by destruct (Hno c2).
    + by destruct (Hno c1).
    + by eapply H1.
Qed.

Lemma thread_is_at st t x : thread_is st t x -> exists v, threads (sch x) !! t = Some v /\ t_state v = st.
Proof. unfold thread_is. destruct (threads (sch x) !! t) as [v|]; [|done]. intros [= <-]. eauto. Qed.
Lemma thread_at_is st t v x : threads (sch x) !! t = Some v -> t_state v = st -> thread_is st t x.
Proof. unfold thread_is. by intros -> <-. Qed.

Lemma current_running D x L c t : conf_ok D x L -> cpu_thread x !! c = Some t ->
  exists v, threads (sch x) !! t = Some v /\ t_state v = TCB_RUNNING.
Proof. intros K E. apply thread_is_at, (ck_cpu _ _ _ K). eauto. Qed.

(** What an event other than a round leaves of the runnable queue. *)
Definition keeps L L' (Ts : gmap Z tcb) : Prop :=
  forall t k, t_state <$> Ts !! t = Some TCB_RUNNABLE -> ahead L t k -> ahead L' t k.

Lemma thread_exit_ok D s L t v : sched_ok HS XS D s L -> threads s !! t = Some v -> t_state v = TCB_RUNNING ->
  exists s', thread_exit t s = Done s' /\
    stepped HS XS D s s' (moved L (state_list t) unused_t_q) t (MkTcb TCB_UNUSED None).
Proof.
  intros K Et Hs. destruct (changeState_ok HS XS s L t v TCB_UNUSED unused_t_q K Et) as (s' & Ec & Hst);
    [by rewrite Hs|done|done|]. exists s'. split; [|done]. unfold thread_exit. rewrite Ec. ocbn.
  destruct Hst as (_ & ET & _). unfold thread_sched_check, is_state, thread_at. cbn [negb Z.eqb Pos.eqb].
  rewrite ET, lookup_insert_eq. ocbn. cbn [t_state]. by rewrite bool_decide_eq_false_2.
Qed.

Lemma leaves_act D x L c t f L' v' s' : conf_ok D x L -> cpu_thread x !! c = Some t ->
  f t (sch x) = Done s' -> stepped HS XS D (sch x) s' L' t v' -> t_state v' <> TCB_RUNNING ->
  (forall u k, u <> t -> ahead L u k -> ahead L' u k) ->
  exists x', leaves c f x = Done x' /\ conf_ok D x' L' /\ keeps L L' (threads (sch x)).
Proof.
  intros K Ec Ef H Hv Ha. destruct (current_running _ _ _ _ _ K Ec) as (v & Et & Hs).
  eexists. split; [unfold leaves; rewrite Ec; ocbn; rewrite Ef; ocbn; reflexivity|]. split.
  - destruct x. by eapply leaves_ok.
  - intros u k Hu Hk. apply Ha; [|done]. intros ->. rewrite Et in Hu. cbn in Hu. congruence.
Qed.

Lemma stays_act D x L f L' u v v' s' : conf_ok D x L -> f (sch x) = Done s' -> stepped HS XS D (sch x) s' L' u v' ->
  threads (sch x) !! u = Some v -> t_state v <> TCB_RUNNING -> t_state v <> TCB_RUNNABLE -> t_state v' <> TCB_RUNNING ->
  (forall t k, t <> u -> ahead L t k -> ahead L' t k) ->
  exists x', stays f x = Done x' /\ conf_ok D x' L' /\ keeps L L' (threads (sch x)).
Proof.
  intros K Ef H Eu Hv Hr Hv' Ha. eexists. split; [unfold stays; rewrite Ef; ocbn; reflexivity|]. split.
  - destruct x. eapply stays_ok; [done..| |done]. intros (w & Ew & Hw)%thread_is_at. cbn in *. congruence.
  - intros t k Ht Hk. apply Ha; [|done]. intros ->. rewrite Eu in Ht. cbn in Ht. congruence.
Qed.

Lemma ready_list D x L a : conf_ok D x L -> ready_queue a x -> exists l, L !! waiting_queue a = Some l.
Proof.
  intros K E. destruct (pl_queue _ _ _ _ _ _ (sk_placed _ _ _ _ _ (ck_sched _ _ _ K)) _ _ E) as [_ [l El]]. eauto.
Qed.

Lemma ahead_signalled L t u k : t <> u -> ahead L t k -> ahead (signalled L u) t k.
Proof. intros Hne Ha. apply ahead_moved; [|congruence]. by apply ahead_without. Qed.

Ltac keep_ahead :=
  intros ????; repeat first [apply ahead_signalled | apply ahead_moved | apply ahead_insert]; first [assumption | congruence].

Lemma calls_ok D x L c e : conf_ok D x L -> callable HS c e x ->
  match e with Yield | Wait _ | Exit => True | _ => False end ->
  exists L' x', call_step c e x = Done x' /\ conf_ok D x' L' /\ keeps L L' (threads (sch x)).
Proof.
  intros K He Hcall. assert (exists t, cpu_thread x !! c = Some t) as [t Ec].
  { destruct e as [| |a| | | | |]; try done; try exact He. exact (proj1 He). }
  destruct (current_running _ _ _ _ _ K Ec) as (v & Et & Hs).
  destruct e as [| |a| | | | |]; try done; cbn [call_step].
  - destruct (thread_yield_ok HS XS _ L t v (ck_sched _ _ _ K) Et Hs) as (s' & Ef & H).
    eexists; eapply leaves_act; try done. keep_ahead.
  - destruct He as [_ Hq]. destruct (ready_list _ x L a K Hq) as [l El].
    destruct (cond_wait_ok HS XS _ L a t v l (ck_sched _ _ _ K) Hq El Et Hs) as (s' & Ef & H).
    eexists; eapply leaves_act; try done. keep_ahead.
  - destruct (thread_exit_ok _ _ L t v (ck_sched _ _ _ K) Et Hs) as (s' & Ef & H).
    eexists; eapply leaves_act; try done. keep_ahead.
Qed.

Lemma stays_none D x L f : conf_ok D x L -> f (sch x) = Done (sch x) ->
  exists x', stays f x = Done x' /\ conf_ok D x' L /\ keeps L L (threads (sch x)).
Proof.
  intros K Ef. exists x. split; [unfold stays; rewrite Ef; by destruct x|]. split; [done|by intros ???].
Qed.

(** [cond_signal] with nothing in between. *)
Lemma signal_ok D x L a : conf_ok D x L -> ready_queue a x ->
  exists L' x', stays (cond_signal a) x = Done x' /\ conf_ok D x' L'.
Proof.
  intros K He. pose proof (ck_sched _ _ _ K) as Ks. destruct (ready_list _ x L a K He) as [l El].
  pose proof (cond_signal_ok HS XS _ L a l Ks He El) as H.
  destruct l as [|n l]; [destruct (stays_none _ _ _ _ K H) as (x' & E & K' & _); eauto|].
  destruct H as (t & s' & -> & Ef & H).
  destruct (waiting_member HS XS _ L a _ (wait_list t) Ks El (list_elem_of_here _ _)) as (u & v & [= <-] & Et & _ & Hs).
  edestruct (stays_act D x L (cond_signal a)) as (x' & E & K' & _); try done; try (by rewrite Hs); [keep_ahead|eauto].
Qed.

Lemma wakeup_ok D x L c t : conf_ok D x L -> thread_is TCB_SLEEPING t x -> t ∉ D ->
  exists L' x', call_step c (Wakeup t) x = Done x' /\ conf_ok D x' L' /\ keeps L L' (threads (sch x)).
Proof.
  intros K He Ht. destruct (thread_is_at _ _ _ He) as (v & Et & Hs).
  destruct (thread_wakeup_ok HS XS _ L t v (ck_sched _ _ _ K) Et Hs Ht) as (s' & Ef & H).
  eexists; eapply (stays_act _ _ _ (thread_wakeup_atomic t)); try done; try (by rewrite Hs). keep_ahead.
Qed.

Lemma births_ok D x L c e : conf_ok D x L -> callable HS c e x ->
  match e with Claim | Start _ | CondInit _ => True | _ => False end ->
  exists L' x', call_step c e x = Done x' /\ conf_ok D x' L' /\ keeps L L' (threads (sch x)).
Proof.
  intros K He Hcall. pose proof (ck_sched _ _ _ K) as Ks. destruct e as [| | | | | |t|a]; try done; cbn [call_step].
  - destruct (state_list_of HS XS _ L TCB_UNUSED _ Ks eq_refl) as [l El].
    pose proof (claim_thread_ok HS XS _ L l Ks El) as H. destruct l as [|n l].
    { rewrite H. exists L, x. split; [by destruct x|]. split; [done|by intros ???]. }
    destruct H as (t & v & s' & -> & Et & Hs & Ef & H). rewrite Ef. ocbn. do 2 eexists. split; [reflexivity|].
    split.
    + destruct x. eapply stays_ok; [done..| |done]. intros (w & Ew & Hw)%thread_is_at. cbn in *. congruence.
    + intros u k Hu Hk. apply ahead_moved; [done|]. intros [= ->]. rewrite Et in Hu. cbn in Hu. congruence.
  - destruct (thread_is_at _ _ _ He) as (v & Et & Hs).
    destruct (changeState_ok HS XS _ L t v TCB_RUNNABLE runnable_t_q Ks Et) as (s' & Ef & H); try done; [by rewrite Hs|].
    eexists; eapply stays_act; try done; try (by rewrite Hs). keep_ahead.
  - destruct He as [Hin Hno].
    destruct (Queue_init_ok HS XS _ L (waiting_queue a) Ks Hin) as (s' & Ef & Ks' & ET & _).
    { intros [t|p|t]; cbn.
      - destruct (threads (sch x) !! t) as [v|]; [|done]. cbn. by destruct (t_state v).
      - destruct (procs (sch x) !! p) as [st|]; [|done]. cbn. by destruct st.
      - case_decide; [done|]. destruct (threads (sch x) !! t) as [v|] eqn:Et; [|done]. cbn. exact (Hno t v Et). }
    eexists. eexists. split; [unfold stays, cond_init; cbn in Ef; rewrite Ef; ocbn; reflexivity|].
    split; [|intros t k _ Hk; by apply (ahead_insert L t k (waiting_queue a) [])]. destruct K as [_ Hc H1].
    constructor; [done| |done]. intros t. unfold thread_is. cbn [sch cpu_thread]. rewrite ET. apply Hc.
Qed.

Lemma round_ok D x L c : conf_ok D x L -> callable HS c Round x ->
  exists L' x', call_step c Round x = Done x' /\ conf_ok D x' L' /\
    forall t k, ahead L t k -> thread_is TCB_RUNNING t x' \/ (0 < k)%nat /\ ahead L' t (pred k).
Proof.
  intros K He. pose proof (ck_sched _ _ _ K) as Ks.
  destruct (state_list_of HS XS _ L TCB_RUNNABLE _ Ks eq_refl) as [l El].
  pose proof (scheduler_round_ok HS XS _ L l Ks El) as H. cbn [call_step]. destruct l as [|n l].
  { rewrite H. exists L, x. split; [by destruct x|]. split; [done|]. intros t k (l1 & l2 & E & _).
    rewrite El in E. by destruct l1. }
  destruct H as (u & v & s' & -> & Eu & Hs & Ef & H). rewrite Ef. ocbn. do 2 eexists. split; [reflexivity|]. split.
  - destruct x. eapply starts_ok; [done..| |done]. intros (w & Ew & Hw)%thread_is_at. cbn in *. congruence.
  - intros t k (l1 & l2 & E & Hl). rewrite El in E. destruct l1 as [|n l1]; injection E as E1 E2.
    + left. subst. destruct H as (_ & ET & _). unfold thread_is. cbn [sch]. rewrite ET, lookup_insert_eq. done.
    + right. cbn in Hl. split; [lia|]. subst n l.
      pose proof (lh_rep_NoDup HS XS _ L _ _ (pl_rep _ _ _ _ _ _ (sk_placed _ _ _ _ _ Ks)) El) as Hnd.
      apply (NoDup_mid _ []) in Hnd as [Hnot _]. exists l1, l2. split; [|lia].
      rewrite (without_lookup _ _ _ _ El). f_equal. by apply (filter_remove _ []).
Qed.

(** How an event moves the threads of the runnable queue. *)
Definition forward (e : event) L L' x' : Prop := forall t k, ahead L t k ->
  if decide (e = Call Round) then thread_is TCB_RUNNING t x' \/ (0 < k)%nat /\ ahead L' t (pred k) else ahead L' t k.

Lemma call_ok D x L c e : conf_ok D x L -> callable HS c e x ->
  (forall t, e = Wakeup t -> thread_is TCB_SLEEPING t x /\ t ∉ D) ->
  exists L' x', call_step c e x = Done x' /\ conf_ok D x' L' /\ forward (Call e) L L' x'.
Proof.
  intros K He Hw. destruct (decide (e = Round)) as [->|Hne]; [by apply round_ok|].
  assert (exists L' x', call_step c e x = Done x' /\ conf_ok D x' L' /\ keeps L L' (threads (sch x))) as (L' & x' & E & K' & Hk).
  { destruct e as [| | | |t| | |]; [done|by apply calls_ok|by apply calls_ok|by apply calls_ok| |by apply births_ok..].
    destruct (Hw t eq_refl). by apply wakeup_ok. }
  exists L', x'. split_and!; [done..|]. intros t k Ha. rewrite decide_False by congruence. apply Hk; [|done].
  eapply ahead_state; [apply K|done].
Qed.

(** A callback on a thread that is not asleep. *)
Lemma wakeup_awake D x L c t : conf_ok D x L -> is_Some (threads (sch x) !! t) -> ~ thread_is TCB_SLEEPING t x ->
  call_step c (Wakeup t) x = Panic.
Proof.
  intros K [v Et] Hs. assert (t_state v <> TCB_SLEEPING) as Hv by (intros E; by destruct Hs; eapply thread_at_is).
  pose proof (not_sleeping HS XS _ L t v (ck_sched _ _ _ K) Et Hv) as Hw.
  cbn [call_step]. unfold stays, thread_wakeup_atomic, thread_wakeup, thread_at. rewrite Et. ocbn. by rewrite Hw.
Qed.

(** A callback on a thread taken out of its queue: the removal changes nothing. *)
Lemma wakeup_taken D s L t v : sched_ok HS XS D s L -> t ∈ D -> threads s !! t = Some v ->
  (forall q, wait_chan_entry v = Some q -> queues s !! q = Some TCB_WAIT_QUEUE) ->
  exists s', thread_wakeup_atomic t s = Done s' /\ threads s' !! t = Some (MkTcb TCB_RUNNABLE None).
Proof.
  intros K Ht Et Hq. destruct (sk_taken _ _ _ _ _ K t Ht) as (v' & Et' & Hs). rewrite Et in Et'. injection Et' as <-.
  destruct (sk_thread _ _ _ _ _ K t v Et) as (_ & _ & Hw & _). destruct (proj2 Hw Hs) as [q Ew].
  destruct (place_del_idle HS XS _ _ _ _ (wait_list t) (sk_placed _ _ _ _ _ K)) as (w & Ed & Kd); [right; eauto|].
  destruct (unsleep HS XS s (with_lists w s) L L (loose D (threads s)) t q v K Et Hs eq_refl eq_refl eq_refl Ew)
    as (s' & E & _ & ET & _).
  - eapply placed_ext; [exact Kd| |by intros n H; exact H].
    intros n. destruct (decide (n = wait_list t)) as [->|Hn]; [|by rewrite fn_ne].
    rewrite fn_lookup_insert. cbn. by rewrite decide_True.
  - done.
  - exists s'. split; [|by rewrite ET, lookup_insert_eq].
    unfold thread_wakeup_atomic, thread_wakeup, thread_at. rewrite Et. ocbn. rewrite Ew. ocbn.
    unfold Queue_remove_atomic. rewrite (Hq q Ew). ocbn. cbn [queue_entry]. ocbn. unfold sc_lists. rewrite Ed. ocbn.
    unfold is_state, thread_at. cbn [threads with_lists]. rewrite Et. ocbn. rewrite (bool_decide_eq_true_2 _ Hs). ocbn. exact E.
Qed.

(** *** The sections of a signal *)

(** Two signallers do not hold the same thread; a condition variable that was
    seen, or on which a thread held sleeps, is initialised. *)
Record sys_ok y L : Prop := {
  sy_cpus : conf_ok (taken y) (cpus y) L;
  sy_once c c' t : signals y !! c = Some (Taken (Some (Tcb t))) -> signals y !! c' = Some (Taken (Some (Tcb t))) -> c = c';
  sy_thread c p : signals y !! c <> Some (Taken (Some (Pcb p)));
  sy_seen c a : signals y !! c = Some (Seen a) -> ready_queue a (cpus y);
  sy_chan t a : t ∈ taken y -> waits (sch (cpus y)) t = Some (waiting_queue a) -> ready_queue a (cpus y)
}.

Lemma call_waits D x L c e x' : conf_ok D x L -> call_step c e x = Done x' ->
  (forall t, t ∈ D -> waits (sch x') t = waits (sch x) t \/ waits (sch x') t = None) /\
  forall a, ready_queue a x -> ready_queue a x'.
Proof.
  intros K E. assert ((exists b, e = Wait b) \/ forall b, e <> Wait b) as [[b ->]|Hne] by (destruct e; eauto; by right).
  - cbn [call_step] in E. apply bind_Done in E as (u & Eu & E). apply deref_Done in Eu.
    apply bind_Done in E as (s' & Es & E). apply (inj Done) in E. subst x'. apply cond_wait_waits in Es as [Ew EQ].
    unfold ready_queue. cbn [sch]. rewrite EQ. split; [|done]. intros t Ht. rewrite Ew. case_decide; [subst|by left].
    destruct (current_running _ _ _ _ _ K Eu) as (v & Et & Hs).
    by destruct (not_taken HS XS _ _ L u v (ck_sched _ _ _ K) Et ltac:(by rewrite Hs)).
  - destruct (call_calm _ _ _ _ E Hne) as [Hw Hc]. split; [intros t _; apply Hw|intros a; apply Hc].
Qed.

Lemma act_call_ok y L c e : sys_ok y L -> callable HS c e (cpus y) ->
  (forall t, e = Wakeup t -> thread_is TCB_SLEEPING t (cpus y) /\ t ∉ taken y) ->
  exists L' y', act c (Call e) y = Done y' /\ sys_ok y' L' /\ forward (Call e) L L' (cpus y').
Proof.
  intros [Kc Ho Hp Hs Hch] He Hw. destruct (call_ok _ _ L c e Kc He Hw) as (L' & x' & E & K' & Hf).
  destruct (call_waits _ _ _ _ _ _ Kc E) as [Hws Hq].
  exists L', (Sys x' (signals y)). split; [cbn [act]; by rewrite E|]. split; [|exact Hf].
  constructor; cbn [cpus signals]; try done; [eauto|].
  intros t a Ht Ew. apply Hq. eapply Hch; [exact Ht|]. change (taken _) with (taken y) in Ht.
  destruct (Hws t Ht) as [<-|]; [done|congruence].
Qed.

Lemma test_ok y L c a : sys_ok y L -> signals y !! c = None -> ready_queue a (cpus y) ->
  exists y', act c (Test a) y = Done y' /\ sys_ok y' L /\
    (y' = y /\ (forall t, waits (sch (cpus y)) t = Some (waiting_queue a) -> t ∈ taken y) \/
     y' = Sys (cpus y) (<[c := Seen a]> (signals y))).
Proof.
  intros K Ec Hr. pose proof K as [Kc Ho Hp Hs Hch]. destruct (ready_list _ _ _ a Kc Hr) as [l El].
  pose proof (ck_sched _ _ _ Kc) as Ks. pose proof (sk_placed _ _ _ _ _ Ks) as Kp. cbn [act].
  unfold Queue_isempty_atomic, Queue_isempty. rewrite (lh_empty_rep HS XS _ L _ l (pl_rep _ _ _ _ _ _ Kp) El). ocbn.
  eexists. split; [reflexivity|]. case_bool_decide as Hl.
  - split; [done|left]. split; [done|]. intros t Ht. destruct (decide (t ∈ taken y)) as [|Hn]; [done|exfalso].
    subst l. apply (not_elem_of_nil (wait_list t)), (pl_member _ _ _ _ _ _ Kp _ _ _ El). cbn. by rewrite decide_False.
  - split; [|by right].
    assert (forall c' o, <[c := Seen a]> (signals y) !! c' = Some (Taken o) <-> signals y !! c' = Some (Taken o)) as Hl'.
    { intros c' o. destruct (decide (c = c')) as [<-|]; [rewrite lookup_insert_eq, Ec; done|by rewrite lookup_insert_ne]. }
    assert (taken (Sys (cpus y) (<[c := Seen a]> (signals y))) = taken y) as Ht.
    { apply set_eq. intros t. rewrite !elem_of_taken. cbn [signals]. by setoid_rewrite Hl'. }
    constructor; rewrite ?Ht; cbn [cpus signals]; try done.
    + intros c1 c2 t. rewrite !Hl'. apply Ho.
    + intros c1 p. rewrite Hl'. apply Hp.
    + intros c1 b [[_ [= <-]]|[_ E]]%lookup_insert_Some; [done|eauto].
Qed.

Lemma take_ok y L c a : sys_ok y L -> signals y !! c = Some (Seen a) ->
  exists L' s' o, act c Take y = Done (Sys (Conf s' (cpu_thread (cpus y))) (<[c := Taken o]> (signals y))) /\
    sys_ok (Sys (Conf s' (cpu_thread (cpus y))) (<[c := Taken o]> (signals y))) L' /\
    (forall t k, ahead L t k -> ahead L' t k) /\
    same_but_lists (sch (cpus y)) s' /\
    (o = None \/ exists t, o = Some (Tcb t) /\ waits (sch (cpus y)) t = Some (waiting_queue a) /\ t ∉ taken y).
Proof.
  intros K Ec. pose proof K as [Kc Ho Hp Hs Hch]. pose proof (Hs _ _ Ec) as Hr.
  destruct (ready_list _ _ _ a Kc Hr) as [l El]. pose proof (ck_sched _ _ _ Kc) as Ks.
  assert (forall o c' o', <[c := Taken o]> (signals y) !! c' = Some (Taken o') <->
    c' = c /\ o' = o \/ signals y !! c' = Some (Taken o')) as Hl.
  { intros o c' o'. destruct (decide (c = c')) as [<-|]; [rewrite lookup_insert_eq, Ec; naive_solver|].
    rewrite lookup_insert_ne by done. naive_solver. }
  cbn [act]. rewrite Ec. ocbn. destruct l as [|n l].
  - assert (Queue_provide_atomic (waiting_queue a) true (sch (cpus y)) = Done (None, sch (cpus y))) as ->.
    { unfold Queue_provide_atomic, Queue_pop, Queue_isempty.
      by rewrite (lh_empty_rep HS XS _ L _ _ (pl_rep _ _ _ _ _ _ (sk_placed _ _ _ _ _ Ks)) El). }
    ocbn. exists L, (sch (cpus y)), None. split; [done|]. split; [|split; [done|split; [done|by left]]].
    assert (taken (Sys (Conf (sch (cpus y)) (cpu_thread (cpus y))) (<[c := Taken None]> (signals y))) = taken y) as Ht.
    { apply set_eq. intros t. rewrite !elem_of_taken. cbn [signals]. setoid_rewrite Hl. naive_solver. }
    constructor; rewrite ?Ht; cbn [cpus signals sch]; try done.
    + by destruct (cpus y).
    + intros c1 c2 t. rewrite !Hl. intros [[_ [=]]|H1] [[_ [=]]|H2]. by eapply Ho.
    + intros c1 p. rewrite Hl. intros [[_ [=]]|H1]. by eapply Hp.
    + intros c1 b [[_ [=]]|[_ E]]%lookup_insert_Some. by eapply Hs.
  - destruct (waiting_member HS XS _ L a _ n Ks El (list_elem_of_here _ _)) as (t & v & -> & Et & Ew & Hsl).
    pose proof (waiting_untaken HS XS _ L _ _ t Ks El (list_elem_of_here _ _)) as Hnt.
    destruct (take_first HS XS _ L a t l Ks Hr El) as (w & -> & K1). ocbn.
    eexists _, _, _. split; [reflexivity|].
    assert (taken (Sys (Conf (with_lists w (sch (cpus y))) (cpu_thread (cpus y))) (<[c := Taken (Some (Tcb t))]> (signals y)))
      = {[t]} ∪ taken y) as Ht.
    { apply set_eq. intros u. rewrite elem_of_union, elem_of_singleton, !elem_of_taken. cbn [signals]. setoid_rewrite Hl. naive_solver. }
    assert (forall c', signals y !! c' <> Some (Taken (Some (Tcb t)))) as Hno by (intros c' E; apply Hnt, elem_of_taken; eauto).
    split; [|split; [|split; [done|]]].
    + constructor; rewrite ?Ht; cbn [cpus signals sch].
      * destruct Kc as [_ Hc H1]. constructor; [exact K1|exact Hc|exact H1].
      * intros c1 c2 u. rewrite !Hl. intros [[-> H1]|H1] [[-> H2]|H2]; simplify_eq; [done|by destruct (Hno c2)|by destruct (Hno c1)|by eapply Ho].
      * intros c1 p. rewrite Hl. intros [[_ [=]]|H1]. by eapply Hp.
      * intros c1 b [[_ [=]]|[_ E]]%lookup_insert_Some. by eapply Hs.
      * intros u b [->%elem_of_singleton|Hu]%elem_of_union; [|by apply Hch].
        unfold waits. cbn [threads with_lists]. rewrite Et. cbn. rewrite Ew. by intros [= <-].
    + intros u k Ha. by apply ahead_without.
    + right. exists t. split_and!; [done| |done]. unfold waits. by rewrite Et.
Qed.

Lemma wake_one_ok y L c t : sys_ok y L -> signals y !! c = Some (Taken (Some (Tcb t))) ->
  exists L' s', act c WakeOne y = Done (Sys (Conf s' (cpu_thread (cpus y))) (delete c (signals y))) /\
    sys_ok (Sys (Conf s' (cpu_thread (cpus y))) (delete c (signals y))) L' /\
    (forall u k, ahead L u k -> ahead L' u k) /\
    threads s' = <[t := MkTcb TCB_RUNNABLE None]> (threads (sch (cpus y))) /\ queues s' = queues (sch (cpus y)).
Proof.
  intros K Ec. pose proof K as [Kc Ho Hp Hs Hch]. pose proof (ck_sched _ _ _ Kc) as Ks.
  assert (t ∈ taken y) as Ht by (apply elem_of_taken; eauto).
  destruct (sk_taken _ _ _ _ _ Ks t Ht) as (v & Et & Hsl).
  destruct (wake_taken HS XS _ L t v Ks Ht Et) as (s' & E & Hst). pose proof Hst as (K1 & ET & EQ & _).
  exists (moved L (state_list t) runnable_t_q), s'. split; [cbn [act]; rewrite Ec; ocbn; unfold stays; by rewrite E|].
  assert (taken (Sys (Conf s' (cpu_thread (cpus y))) (delete c (signals y))) = taken y ∖ {[t]}) as Htk.
  { apply set_eq. intros u. rewrite elem_of_difference, elem_of_singleton, !elem_of_taken. cbn [signals]. split.
    - intros [c1 [Hne E1]%lookup_delete_Some]. split; [eauto|]. intros ->. by destruct Hne; eapply Ho.
    - intros [[c1 E1] Hne]. exists c1. rewrite lookup_delete_ne; [done|]. intros ->. congruence. }
  split; [|split_and!; [|done..]].
  - constructor; rewrite ?Htk; cbn [cpus signals sch].
    + destruct (cpus y) as [s cur]. eapply stays_ok; [exact Kc|exact Hst| |done].
      unfold thread_is. cbn in *. rewrite Et. cbn. congruence.
    + intros c1 c2 u [_ E1]%lookup_delete_Some [_ E2]%lookup_delete_Some. by eapply Ho.
    + intros c1 p [_ E1]%lookup_delete_Some. by eapply Hp.
    + intros c1 a [_ E1]%lookup_delete_Some. unfold ready_queue. cbn [sch]. rewrite EQ. by eapply Hs.
    + intros u a [Hu Hne%not_elem_of_singleton]%elem_of_difference. unfold waits, ready_queue. cbn [sch].
      rewrite ET, EQ, lookup_insert_ne by done. by apply Hch.
  - intros u k Ha. apply ahead_moved; [done|]. intros [= <-].
    pose proof (ahead_state _ _ _ _ _ Ks Ha) as Hr. rewrite Et in Hr. cbn in Hr. congruence.
Qed.

(** The calls that do not return: a timer's callback on a thread that is not
    asleep (its ASSERT on [wait_chan_entry] fails), and a signaller whose
    waiters were all taken or woken since it saw one (it holds NULL). *)
Definition stuck (c : Z) (e : event) y : Prop :=
  (exists t, e = Call (Wakeup t) /\ ~ thread_is TCB_SLEEPING t (cpus y) /\ act c e y = Panic) \/
  (e = WakeOne /\ signals y !! c = Some (Taken None) /\ act c e y = Undef).

Lemma event_ok y L c e : sys_ok y L -> enabled HS c e y -> ~ strikes e y ->
  (exists L' y', act c e y = Done y' /\ sys_ok y' L' /\ forward e L L' (cpus y')) \/ stuck c e y.
Proof.
  intros K He Hn. unfold enabled in He. destruct e as [e|a| |].
  - destruct (signals y !! c) as [[]|] eqn:Ec; try done.
    assert ((exists t, e = Wakeup t /\ ~ thread_is TCB_SLEEPING t (cpus y)) \/
      forall t, e = Wakeup t -> thread_is TCB_SLEEPING t (cpus y)) as [(t & -> & Ht)|Ht].
    { destruct e as [| | | |t| | |]; try by right. destruct (decide (t_state <$> threads (sch (cpus y)) !! t = Some TCB_SLEEPING));
        [right; by intros ? [= <-]|left; eauto]. }
    + right. left. exists t. split_and!; [done..|]. cbn [act]. by erewrite wakeup_awake by (try exact He; try exact Ht; apply K).
    + left. apply act_call_ok; [done..|]. intros t ->. split; [by apply Ht|exact Hn].
  - destruct (signals y !! c) as [[]|] eqn:Ec; try done. left. destruct (test_ok y L c a K Ec He) as (y' & E & K' & _).
    exists L, y'. split_and!; [done..|]. by intros t k Ha.
  - destruct (signals y !! c) as [[a|]|] eqn:Ec; try done. left.
    destruct (take_ok y L c a K Ec) as (L' & s' & o & E & K' & Hf & _). by eexists _, _.
  - destruct (signals y !! c) as [[a|[[t|p]|]]|] eqn:Ec; try done.
    + left. destruct (wake_one_ok y L c t K Ec) as (L' & s' & E & K' & Hf & _). by eexists _, _.
    + by destruct (sy_thread _ _ K c p).
    + right. right. split_and!; [done..|]. cbn [act]. by rewrite Ec.
Qed.

(** A timer that strikes returns; it is the signaller that panics. *)
Lemma strike_returns y L c t : sys_ok y L -> t ∈ taken y -> exists y', act c (Call (Wakeup t)) y = Done y'.
Proof.
  intros [Kc _ _ _ Hch] Ht. pose proof (ck_sched _ _ _ Kc) as Ks. destruct (sk_taken _ _ _ _ _ Ks t Ht) as (v & Et & _).
  destruct (wakeup_taken _ _ L t v Ks Ht Et) as (s' & E & _).
  - intros q Ew. destruct (sk_thread _ _ _ _ _ Ks t v Et) as (_ & _ & _ & Hq). specialize (Hq q Ew).
    destruct q as [| | | | | | |a]; try discriminate Hq. apply (Hch t a Ht). unfold waits. by rewrite Et.
  - cbn [act call_step]. unfold stays. rewrite E. eauto.
Qed.

Lemma run_ok evs : forall y L y', sys_ok y L -> run HS evs y y' -> exists L', sys_ok y' L'.
Proof.
  induction evs as [|[c e] evs IH]; intros y L y' K R; inversion R as [|??? ? y1 ? He Hn Ea R']; subst; [eauto|].
  destruct (event_ok y L c e K He Hn) as [(L1 & y2 & E2 & K2 & _)|[(? & _ & _ & E)|(_ & _ & E)]]; [|congruence..].
  rewrite Ea in E2. injection E2 as <-. eauto.
Qed.

Lemma sys_ok_quiet x L : conf_ok ∅ x L -> sys_ok (Sys x ∅) L.
Proof. intros K. by constructor; cbn. Qed.

Lemma boot_ok n s : blank HS XS s -> (forall q, qtype q = TCB_STATE_QUEUE -> q ∈ HS) ->
  (forall t, 0 <= t < Z.of_nat n -> state_list t ∈ XS /\ wait_list t ∈ XS) ->
  exists s0 L, tcb_init n s = Done s0 /\ conf_ok ∅ (Conf s0 ∅) L /\ (forall t, waits s0 t = None) /\
    L !! unused_t_q = Some (state_list <$> seqZ 0 (Z.of_nat n)) /\ L !! runnable_t_q = Some [].
Proof.
  intros Hs Hq Ht. destruct (TCB_Q_ALL_INIT_ok HS XS s Hs) as (s1 & L1 & E1 & K1 & ET1 & EL1); [by apply Hq..|].
  destruct (tcb_init_loop_ok HS XS n 0 s1 L1 [] K1 EL1) as (s2 & L2 & E2 & K2 & EL2 & ET2).
  { intros t Hr. rewrite ET1. split; [done|by apply Ht]. }
  assert (forall t v, threads s2 !! t = Some v -> v = MkTcb TCB_UNUSED None) as Hv.
  { intros t v. rewrite ET2, ET1. case_decide; [by intros [= <-]|done]. }
  exists s2, L2. split_and!; [by unfold tcb_init; rewrite E1| | |exact EL2|].
  - constructor; [done| |done]. intros t. unfold thread_is. cbn [sch cpu_thread]. split; [by intros [c E]|].
    destruct (threads s2 !! t) as [v|] eqn:Ev; [|done]. by rewrite (Hv t v Ev).
  - intros t. unfold waits. destruct (threads s2 !! t) as [v|] eqn:Ev; [|done]. by rewrite (Hv t v Ev).
  - destruct (state_list_of HS XS _ L2 TCB_RUNNABLE _ K2 eq_refl) as [l El]. rewrite El. destruct l as [|m l]; [done|].
    destruct (state_member HS XS _ L2 TCB_RUNNABLE _ _ m K2 eq_refl El (list_elem_of_here _ _)) as (t & v & _ & Ev & Hst).
    rewrite (Hv t v Ev) in Hst. discriminate Hst.
Qed.

(** The list of a queue, as the code would walk it. *)
Lemma walked D s L q l : sched_ok HS XS D s L -> is_Some (queues s !! q) -> lh_each q (qlists s) = Done l -> L !! q = Some l.
Proof.
  intros K [ty Eq] E. pose proof (sk_placed _ _ _ _ _ K) as Kp. destruct (pl_queue _ _ _ _ _ _ Kp q ty Eq) as [_ [l' El]].
  rewrite (lh_each_rep HS XS _ L q l' (pl_rep _ _ _ _ _ _ Kp) El) in E. congruence.
Qed.

(** ** Properties *)

(** C14.  The scheduler's data stay consistent.  From the boot of the thread
    table, any number of cpus may run rounds of [thread_scheduler], and threads and
    handlers may yield, wait on condition variables, claim, start and end
    threads, wake threads from timers, and signal, each of the three critical sections of
    [cond_signal] being a step of its own, in any order in which no timer fires on a
    thread that a signaller holds between its last two sections (C16 is what
    happens then).  In every state reached a thread is in the queue of its
    state and in no other; in the queue of [wait_chan_entry] when it
    sleeps and no signaller holds it, and in no waiting queue otherwise; and
    RUNNING exactly when one cpu runs it.  The next call returns, a
    timer's on a held thread included, with two exceptions: a timer's callback on a thread that
    is not asleep panics, and a signaller whose waiters are all gone since
    it saw one goes on with NULL. *)
Theorem sched_agreement n s : blank HS XS s ->
  (forall q, qtype q = TCB_STATE_QUEUE -> q ∈ HS) ->
  (forall t, 0 <= t < Z.of_nat n -> state_list t ∈ XS /\ wait_list t ∈ XS) ->
  exists s0, tcb_init n s = Done s0 /\
    forall evs y, run HS evs (Sys (Conf s0 ∅) ∅) y ->
      (exists L, sys_ok y L) /\
      forall c e, enabled HS c e y -> (exists y', act c e y = Done y') \/ stuck c e y.
Proof.
  intros Hs Hq Ht. destruct (boot_ok n s Hs Hq Ht) as (s0 & L0 & E & K0 & _). exists s0. split; [done|].
  intros evs y R. destruct (run_ok evs _ L0 y (sys_ok_quiet _ _ K0) R) as [L K].
  split; [eauto|]. intros c e He. destruct (decide (strikes e y)) as [Hst|Hst].
  - left. destruct e as [[]| | |]; try done. by eapply strike_returns.
  - destruct (event_ok y L c e K He Hst) as [(? & y' & E' & _)|H]; [eauto|by right].
Qed.

(** C15.  No runnable thread starves: a thread with [k] threads before it in the
    runnable queue has run once the cpus have made [k + 1] rounds of
    [thread_scheduler], whatever the other threads and the handlers do in
    between, in any order of the critical sections that C14 allows. *)
Theorem runnable_thread_runs evs : forall y L t k y', sys_ok y L -> ahead L t k -> run HS evs y y' ->
  (k < length (filter (fun ce : Z * event => ce.2 = Call Round) evs))%nat ->
  exists evs1 evs2 y1, evs = evs1 ++ evs2 /\ run HS evs1 y y1 /\ thread_is TCB_RUNNING t (cpus y1).
Proof.
  induction evs as [|[c e] evs IH]; intros y L t k y' K Ha R Hk; [cbn in Hk; lia|].
  inversion R as [|??? ? y1 ? He Hst Ea R']; subst.
  destruct (event_ok y L c e K He Hst) as [(L1 & y2 & E2 & K2 & Hn)|[(? & _ & _ & E)|(_ & _ & E)]]; [|congruence..].
  rewrite Ea in E2. injection E2 as <-.
  specialize (Hn t k Ha). rewrite filter_cons in Hk. cbn [snd] in Hk.
  assert (thread_is TCB_RUNNING t (cpus y1) \/
    exists evs1 evs2 y2, evs = evs1 ++ evs2 /\ run HS evs1 y1 y2 /\ thread_is TCB_RUNNING t (cpus y2)) as [H|H].
  - destruct (decide (e = Call Round)) as [He'|He'].
    + destruct Hn as [H|[Hp H]]; [by left|right]. eapply (IH y1 L1 t (pred k)); try done. cbn in Hk. lia.
    + right. by eapply (IH y1 L1 t k).
  - exists [(c, e)], evs, y1. split_and!; [done| |done]. econstructor; [done..|constructor].
  - destruct H as (evs1 & evs2 & y3 & -> & R3 & H). exists ((c, e) :: evs1), evs2, y3.
    split_and!; [done| |done]. by econstructor.
Qed.

(** *** A timer against a signaller *)

(** Popping a waiter and, before its state is looked at, waking it. *)
Lemma wakeup_between D s L a t l : sched_ok HS XS D s L -> queues s !! waiting_queue a = Some TCB_WAIT_QUEUE ->
  L !! waiting_queue a = Some (wait_list t :: l) ->
  exists s1 s2, Queue_provide_atomic (waiting_queue a) true s = Done (Some (Tcb t), s1) /\
    thread_wakeup_atomic t s1 = Done s2 /\ threads s2 !! t = Some (MkTcb TCB_RUNNABLE None).
Proof.
  intros K Eq El. destruct (take_first HS XS s L a t l K Eq El) as (w & E & K1).
  destruct (waiting_member HS XS s L a _ (wait_list t) K El (list_elem_of_here _ _)) as (? & v & [= <-] & Et & Ew & Hs).
  destruct (wakeup_taken _ _ _ t v K1 ltac:(set_solver) Et) as (s2 & E2 & Et2); [by rewrite Ew; intros q [= <-]|].
  by eexists _, s2.
Qed.

Lemma wake_one_runnable s t : threads s !! t = Some (MkTcb TCB_RUNNABLE None) -> cond_wake_one (Some (Tcb t)) s = Panic.
Proof. intros Et. unfold cond_wake_one, is_state, thread_at. by rewrite Et. Qed.

Lemma wakeup_runnable s t : threads s !! t = Some (MkTcb TCB_RUNNABLE None) -> thread_wakeup_atomic t s = Panic.
Proof. intros Et. unfold thread_wakeup_atomic, thread_wakeup, thread_at. by rewrite Et. Qed.

Lemma pop_empty D s L a : sched_ok HS XS D s L -> L !! waiting_queue a = Some [] ->
  Queue_provide_atomic (waiting_queue a) true s = Done (None, s).
Proof.
  intros K El. unfold Queue_provide_atomic, Queue_pop, Queue_isempty.
  by rewrite (lh_empty_rep HS XS _ L _ _ (pl_rep _ _ _ _ _ _ (sk_placed _ _ _ _ _ K)) El).
Qed.

(** C16.  A timeout that fires while its thread is being signalled panics.  For
    the first waiter [t] of a condition variable: the timer's
    [thread_wakeup_atomic] before the signal is harmless, but after
    [cond_signal] it fails its ASSERT ([wait_chan_entry] is NULL and the
    timer is armed until the thread runs again); between the signaller's removal of
    [t] and its test of the state it makes the signaller panic; and between
    the signaller's test for emptiness and the removal, when [t] is the only
    waiter, it makes the signaller follow a NULL pointer. *)
Theorem signal_timeout_race D s L a t l : sched_ok HS XS D s L ->
  queues s !! waiting_queue a = Some TCB_WAIT_QUEUE -> L !! waiting_queue a = Some (wait_list t :: l) ->
  (exists s', thread_wakeup_atomic t s = Done s' /\ exists L', sched_ok HS XS D s' L' /\ L' !! waiting_queue a = Some l) /\
  (s ← cond_signal a s; thread_wakeup_atomic t s) = Panic /\
  ('(o, s) ← Queue_provide_atomic (waiting_queue a) true s; s ← thread_wakeup_atomic t s; cond_wake_one o s) = Panic /\
  (l = [] -> (s ← thread_wakeup_atomic t s;
    '(o, s) ← Queue_provide_atomic (waiting_queue a) true s; cond_wake_one o s) = Undef).
Proof.
  intros K Eq El.
  destruct (waiting_member HS XS s L a _ (wait_list t) K El (list_elem_of_here _ _)) as (? & v & [= <-] & Et & Ew & Hs).
  destruct (thread_wakeup_ok HS XS s L t v K Et Hs (waiting_untaken HS XS s L _ _ t K El (list_elem_of_here _ _))) as (s1 & E1 & H1). pose proof H1 as (K1 & ET1 & Q1 & _).
  assert (signalled L t !! waiting_queue a = Some l) as El1.
  { eapply signalled_rest; [done..|]. intros n Hn.
    destruct (waiting_member HS XS s L a _ n K El (list_elem_of_further _ _ _ Hn)) as (u & _ & -> & _). eauto. }
  split_and!.
  - exists s1. split; [exact E1|]. by exists (signalled L t).
  - pose proof (cond_signal_ok HS XS s L a _ K Eq El) as (? & s2 & [= <-] & E2 & _ & ET2 & _).
    rewrite E2. ocbn. apply wakeup_runnable. by rewrite ET2, lookup_insert_eq.
  - destruct (wakeup_between D s L a t l K Eq El) as (s2 & s3 & E2 & E3 & ET3). rewrite E2. ocbn. rewrite E3. ocbn.
    by apply wake_one_runnable.
  - intros ->. change (thread_wakeup_atomic t s) with (thread_wakeup t s). rewrite E1. ocbn.
    by rewrite (pop_empty _ _ _ _ K1 El1).
Qed.
End scheduling.

(** ** A system of three threads and one condition variable *)

Definition demo_queues : gset qid := {[unused_t_q; used_t_q; runnable_t_q; sleeping_t_q; waiting_queue 7; waiting_queue 8]}.
Definition demo_qnodes : gset qnode :=
  list_to_set (t ← seqZ 0 3; [state_list t; wait_list t]).
Abbreviation demo_mem := (gmap (lptr qid qnode) (list_head (lptr qid qnode))).
Definition demo_boot : ksched demo_mem := KSched ∅ ∅ ∅ (blank_lists demo_queues demo_qnodes).

Lemma demo_boot_blank : blank demo_queues demo_qnodes demo_boot.
Proof. split; [exact (blank_lists_rep demo_queues demo_qnodes)|done]. Qed.

Lemma demo_queues_elem q : qtype q = TCB_STATE_QUEUE -> q ∈ demo_queues.
Proof. unfold demo_queues. destruct q; try discriminate; set_solver. Qed.

Lemma demo_qnodes_elem t : 0 <= t < Z.of_nat 3 -> state_list t ∈ demo_qnodes /\ wait_list t ∈ demo_qnodes.
Proof.
  intros Ht. assert (t = 0 \/ t = 1 \/ t = 2) as [->|[->| ->]] by lia; by split; vm_compute.
Qed.

(** Threads 0 and 1 start, run on two cpus and wait; thread 2 is started, and
    cpu 0 has taken thread 0 out of the queue of a condition variable. *)
Definition demo_calls : list (Z * event) :=
  (fun ce => (ce.1, Call ce.2)) <$> [(0, CondInit 7); (0, Claim); (0, Start 0); (0, Round); (0, Claim); (0, Start 1); (1, Round);
   (0, Wait 7); (1, Wait 7); (0, Claim); (0, Start 2)].
Definition demo_events : list (Z * event) := demo_calls ++ [(0, Test 7); (0, Take)].

Definition demo_start : sys demo_mem :=
  Sys (match tcb_init 3 demo_boot with Done s => Conf s ∅ | _ => Conf demo_boot ∅ end) ∅.
Definition demo_conf : sys demo_mem := result demo_start (play demo_queues demo_calls demo_start).
Definition demo_taken : sys demo_mem := result demo_start (play demo_queues demo_events demo_start).

Lemma demo_run : run demo_queues demo_events demo_start demo_taken.
Proof. apply play_run, result_Done. vm_compute. reflexivity. Qed.

(** Cpu 0 wakes the thread it holds; the timer that strikes it returns, and the
    one on thread 2, which is runnable, panics. *)
Lemma sched_agreement_witness :
  run demo_queues demo_events demo_start demo_taken /\ signals demo_taken !! 0 = Some (Taken (Some (Tcb 0))) /\
  (exists L, sys_ok demo_queues demo_qnodes demo_taken L) /\
  (exists y', act 0 WakeOne demo_taken = Done y') /\ (exists y', act 1 (Call (Wakeup 0)) demo_taken = Done y') /\
  act 1 (Call (Wakeup 2)) demo_taken = Panic.
Proof.
  assert (signals demo_taken !! 0 = Some (Taken (Some (Tcb 0)))) as Hg by (vm_compute; reflexivity).
  assert (thread_is TCB_SLEEPING 0 (cpus demo_taken)) as Hw by (vm_compute; reflexivity).
  split; [exact demo_run|]. split; [exact Hg|].
  destruct (sched_agreement demo_queues demo_qnodes 3 demo_boot demo_boot_blank demo_queues_elem demo_qnodes_elem)
    as (s0 & E & H).
  assert (demo_start = Sys (Conf s0 ∅) ∅) as E0 by (unfold demo_start; rewrite E; reflexivity).
  destruct (H demo_events demo_taken) as [HL Ha]; [rewrite <- E0; exact demo_run|].
  split; [exact HL|]. split; [|split; [|vm_compute; reflexivity]].
  - destruct (Ha 0 WakeOne) as [Hd|[(t & [=] & _)|(_ & E0' & _)]]; [vm_compute; exact I|exact Hd|].
    rewrite Hg in E0'. discriminate E0'.
  - destruct (Ha 1 (Call (Wakeup 0))) as [Hd|[(t & [= <-] & Hs & _)|([=] & _)]]; [vm_compute; eexists; reflexivity|exact Hd|].
    exact (match Hs Hw with end).
Defined.

Lemma demo_reached evs y : play demo_queues evs demo_start = Done y -> exists L, sys_ok demo_queues demo_qnodes y L.
Proof.
  intros R%play_run.
  destruct (boot_ok demo_queues demo_qnodes 3 demo_boot demo_boot_blank demo_queues_elem demo_qnodes_elem)
    as (s0 & L0 & E & K0 & _).
  assert (demo_start = Sys (Conf s0 ∅) ∅) as E0 by (unfold demo_start; rewrite E; reflexivity).
  rewrite E0 in R. eapply run_ok; [by apply sys_ok_quiet|exact R].
Qed.

(** A state in which no cpu signals. *)
Lemma demo_quiet evs y : play demo_queues evs demo_start = Done y -> signals y = ∅ ->
  exists L, conf_ok demo_queues demo_qnodes ∅ (cpus y) L.
Proof.
  intros E Es. destruct (demo_reached evs y E) as [L K]. exists L. pose proof (sy_cpus _ _ _ _ K) as Kc.
  unfold taken in Kc. rewrite Es in Kc. exact Kc.
Qed.

Lemma demo_conf_ok : exists L, sys_ok demo_queues demo_qnodes demo_conf L /\
  L !! runnable_t_q = Some [state_list 2] /\ L !! waiting_queue 7 = Some [wait_list 0; wait_list 1].
Proof.
  destruct (demo_reached demo_calls demo_conf) as [L K]; [apply result_Done; vm_compute; reflexivity|]. exists L. split; [exact K|].
  split; eapply walked; try exact (ck_sched _ _ _ _ _ (sy_cpus _ _ _ _ K)); try (eexists; vm_compute; reflexivity); vm_compute; reflexivity.
Qed.

(** Cpu 0 signals, thread 2 is first in the queue and cpu 1 runs it while cpu 0
    is between its sections; then cpu 0 runs thread 0. *)
Definition demo_more : list (Z * event) := [(0, Test 7); (0, Take); (1, Call Round); (0, WakeOne); (0, Call Round)].
Definition demo_end : sys demo_mem := result demo_conf (play demo_queues demo_more demo_conf).

Lemma runnable_thread_runs_witness : exists evs1 evs2 y1, demo_more = evs1 ++ evs2 /\
  run demo_queues evs1 demo_conf y1 /\ thread_is TCB_RUNNING 2 (cpus y1).
Proof.
  destruct demo_conf_ok as (L & K & El & _).
  apply (runnable_thread_runs demo_queues demo_qnodes demo_more demo_conf L 2 0 demo_end K).
  - exists [], []. split; [exact El|apply le_n].
  - apply play_run, result_Done. vm_compute. reflexivity.
  - vm_compute. lia.
Defined.

Lemma signal_timeout_race_witness :
  let s := sch (cpus demo_conf) in
  (s ← cond_signal 7 s; thread_wakeup_atomic 0 s) = Panic /\
  ('(o, s) ← Queue_provide_atomic (waiting_queue 7) true s; s ← thread_wakeup_atomic 0 s; cond_wake_one o s) = Panic.
Proof.
  destruct demo_conf_ok as (L & K & _ & El).
  destruct (signal_timeout_race demo_queues demo_qnodes _ (sch (cpus demo_conf)) L 7 0 [wait_list 1] (ck_sched _ _ _ _ _ (sy_cpus _ _ _ _ K)))
    as (_ & H1 & H2 & _); [vm_compute; reflexivity|exact El|]. exact (conj H1 H2).
Defined.
