(* ===== verification/Sema.v ===== *)
(** * Sema: semaphores ([src/atomic/semaphore.c])

    A semaphore is a counter, a count of wake-ups and a condition variable.  Its
    routines are modelled over the scheduler of [Sched] and [Cpus]: [sema_wait] is two
    pieces, up to the first [cond_wait] and from the return of a [cond_wait]
    on, each under [sem_lock]; [sema_signal] holds the lock over the sections of
    [cond_signal], between which the other cpus go on.  Any number of
    threads run them among all the other events of the scheduler. *)

From stdpp Require Import base gmap sets list fin_maps fin_sets functions.
From Stdlib Require Import ZArith Lia.
From S2P Require Import Prelude KList Sched Cpus.
#[local] Open Scope Z_scope.

(** [struct semaphore]; its condition variable is the one at the semaphore's address. *)
Record semaphore := Sem { value : Z; wakeup : Z }.

(** One semaphore among the threads: [ins] are the threads that have counted
    themselves in ([value--]) and are still inside [sema_wait]; [passed] and
    [posted] count the calls of [sema_wait] that returned and of [sema_signal].
    [holder] is the cpu that has [sem_lock] while it is in [cond_signal]. *)
Record sconf (W : Type) := SConf {
  sc : sys W;
  sem : semaphore;
  holder : option Z;
  ins : gset Z;
  passed : Z;
  posted : Z
}.
Arguments SConf {W}.
Arguments sc {W}.
Arguments sem {W}.
Arguments holder {W}.
Arguments ins {W}.
Arguments passed {W}.
Arguments posted {W}.

(** [SSignal]: up to the test of the waiting queue; the rest of [sema_signal] is
    [Take] and [WakeOne].  [SKilled]: a waiter that was killed calls [do_exit] from [cond_wait]. *)
Inductive sevent :=
  | SWait
  | SResume
  | SSignal
  | SKilled
  | SOther (e : event).

Section sema.
Context {W : Type} `{LO : !ListOps qid qnode W}.
Context (a : Z).
Implicit Types (x : conf W) (k : semaphore) (y : sconf W).

Definition sema_init (v : Z) (s : ksched W) : outcome (semaphore * ksched W) :=
  s ← cond_init a s; Done (Sem v 0, s).

(** [sema_wait] up to the first [cond_wait]: whether the thread passed. *)
Definition sema_wait (c : Z) k x : outcome (bool * semaphore * conf W) :=
  let k := Sem (s32 (value k - 1)) (wakeup k) in
  if value k <? 0 then x ← leaves c (cond_wait a) x; Done (false, k, x)
  else Done (true, k, x).

(** From the return of [cond_wait]: the loop's test and what follows. *)
Definition sema_wait_resume (c : Z) k x : outcome (bool * semaphore * conf W) :=
  if wakeup k =? 0 then x ← leaves c (cond_wait a) x; Done (false, k, x)
  else Done (true, Sem (value k) (s32 (wakeup k - 1)), x).

(** [sema_signal] up to the test: the counters, and whether it signals. *)
Definition sema_post k : semaphore * bool :=
  let k := Sem (s32 (value k + 1)) (wakeup k) in
  if value k <=? 0 then (Sem (value k) (s32 (wakeup k + 1)), true) else (k, false).

(** With nothing between its sections. *)
Definition sema_signal k x : outcome (semaphore * conf W) :=
  let (k, b) := sema_post k in
  x ← (if b : bool then stays (cond_signal a) x else Done x); Done (k, x).

(** Where the thread of cpu [c] is. *)
Definition inside (c : Z) y : Prop := match cpu_thread (cpus (sc y)) !! c with Some t => t ∈ ins y | None => False end.
Definition outside (c : Z) y : Prop := match cpu_thread (cpus (sc y)) !! c with Some t => t ∉ ins y | None => False end.

(** The other events leave the semaphore's condition variable and the threads
    inside [sema_wait] alone; these may be preempted and woken. *)
Definition foreign (c : Z) (e : event) y : Prop :=
  match e with
  | Test b | Call (CondInit b) => b <> a
  | Call (Wait b) => b <> a /\ outside c y
  | Call Exit => outside c y
  | _ => True
  end.

(** The cpu is not in a [cond_signal], and [sem_lock] is free. *)
Definition unlocked (c : Z) y : Prop := signals (sc y) !! c = None /\ holder y = None.

Definition senabled (HS : gset qid) (c : Z) (e : sevent) y : Prop :=
  match e with
  | SWait => outside c y /\ unlocked c y
  | SResume => inside c y /\ unlocked c y
  | SSignal => unlocked c y
  | SKilled => inside c y /\ signals (sc y) !! c = None
  | SOther e => enabled HS c e (sc y) /\ foreign c e y
  end.

Definition sact (c : Z) (e : sevent) y : outcome (sconf W) :=
  let x := cpus (sc y) in
  let g := signals (sc y) in
  match e with
  | SWait =>
      t ← deref (cpu_thread x !! c);
      '(ok, k, x) ← sema_wait c (sem y) x;
      Done (if ok : bool then SConf (Sys x g) k (holder y) (ins y) (passed y + 1) (posted y)
            else SConf (Sys x g) k (holder y) ({[t]} ∪ ins y) (passed y) (posted y))
  | SResume =>
      t ← deref (cpu_thread x !! c);
      '(ok, k, x) ← sema_wait_resume c (sem y) x;
      Done (if ok : bool then SConf (Sys x g) k (holder y) (ins y ∖ {[t]}) (passed y + 1) (posted y)
            else SConf (Sys x g) k (holder y) (ins y) (passed y) (posted y))
  | SSignal =>
      let (k, b) := sema_post (sem y) in
      z ← (if b : bool then act c (Test a) (sc y) else Done (sc y));
      Done (SConf z k (match signals z !! c with Some _ => Some c | None => None end) (ins y) (passed y) (posted y + 1))
  | SKilled =>
      t ← deref (cpu_thread x !! c);
      z ← act c (Call Exit) (sc y);
      Done (SConf z (sem y) (holder y) (ins y ∖ {[t]}) (passed y) (posted y))
  | SOther e =>
      z ← act c e (sc y);
      Done (SConf z (sem y) (if decide (e = WakeOne /\ holder y = Some c) then None else holder y) (ins y) (passed y) (posted y))
  end.

(** A timer fires on a thread that a signaller holds ([Cpus.strikes]). *)
Definition sstrikes (e : sevent) y : Prop := match e with SOther e => strikes e (sc y) | _ => False end.

#[export] Instance senabled_dec HS c e y : Decision (senabled HS c e y).
Proof.
  assert (Decision (outside c y)) by (unfold outside; destruct (cpu_thread (cpus (sc y)) !! c); apply _).
  assert (Decision (inside c y)) by (unfold inside; destruct (cpu_thread (cpus (sc y)) !! c); apply _).
  assert (Decision (unlocked c y)) by (unfold unlocked; apply _).
  destruct e as [| | | |e]; cbn [senabled]; try apply _.
  assert (Decision (foreign c e y)) by (destruct e as [[]| | |]; cbn; apply _). apply _.
Defined.
#[export] Instance sstrikes_dec e y : Decision (sstrikes e y).
Proof. destruct e; cbn; apply _. Defined.

Inductive srun (HS : gset qid) : list (Z * sevent) -> sconf W -> sconf W -> Prop :=
  | srun_nil y : srun HS [] y y
  | srun_cons c e evs y y1 y2 : senabled HS c e y -> ~ sstrikes e y -> sact c e y = Done y1 -> srun HS evs y1 y2 ->
      srun HS ((c, e) :: evs) y y2.

(** Running the events, as a function. *)
Fixpoint splay (HS : gset qid) (evs : list (Z * sevent)) y : outcome (sconf W) :=
  match evs with
  | [] => Done y
  | (c, e) :: evs => if decide (senabled HS c e y /\ ~ sstrikes e y) then y ← sact c e y; splay HS evs y else Undef
  end.

Lemma splay_run HS evs : forall y y', splay HS evs y = Done y' -> srun HS evs y y'.
Proof.
  induction evs as [|[c e] evs IH]; intros y y'; cbn [splay]; [intros [= ->]; constructor|].
  case_decide as He; [|done]. destruct He, (sact c e y) as [y1| | |] eqn:Ea; try done. cbn. intros E.
  econstructor; eauto.
Qed.

Lemma inside_at c y : inside c y -> exists t, cpu_thread (cpus (sc y)) !! c = Some t /\ t ∈ ins y.
Proof. unfold inside. destruct (cpu_thread (cpus (sc y)) !! c); [eauto|done]. Qed.
Lemma outside_at c y : outside c y -> exists t, cpu_thread (cpus (sc y)) !! c = Some t /\ t ∉ ins y.
Proof. unfold outside. destruct (cpu_thread (cpus (sc y)) !! c); [eauto|done]. Qed.
End sema.

(** ** Counting *)

Section units.
Context {W : Type} `{LO : !ListOps qid qnode W, LH : !ListHeap qid qnode W, IN : !IdleNodes qid qnode W}.
Context (HS : gset qid) (XS : gset qnode) (a : Z).
Implicit Types (s : ksched W) (x : conf W) (y : sconf W).

(** Thread [t] is in the semaphore's queue. *)
Definition asleep s t : Prop := waits s t = Some (waiting_queue a).

#[export] Instance asleep_dec s t : Decision (asleep s t).
Proof. unfold asleep. apply _. Defined.

(** Where the signallers of the semaphore are: [o] has seen a waiter, or holds
    one (or NULL), and the other cpus signal something else. *)
Definition at_signal (o : option Z) (z : sys W) : Prop :=
  (forall c, o = Some c -> signals z !! c = Some (Seen a) \/ signals z !! c = Some (Taken None) \/
    exists t, signals z !! c = Some (Taken (Some (Tcb t))) /\ asleep (sch (cpus z)) t) /\
  forall c, o <> Some c -> signals z !! c <> Some (Seen a) /\
    forall t, signals z !! c = Some (Taken (Some (Tcb t))) -> ~ asleep (sch (cpus z)) t.

(** The threads inside [sema_wait] that are out of the queue, on their way to
    the loop's test. *)
Definition woken y : gset Z := filter (fun t => ~ asleep (sch (cpus (sc y))) t) (ins y).

Record sema_ok (v0 N : Z) y : Prop := {
  so_sys : exists L, sys_ok HS XS (sc y) L;
  so_cond : ready_queue a (cpus (sc y));
  so_ins t : asleep (sch (cpus (sc y))) t -> t ∈ ins y;
  so_count : Z.of_nat (size (ins y)) = Z.max 0 (- value (sem y)) + wakeup (sem y);
  so_woken : 0 <= wakeup (sem y) <= Z.of_nat (size (woken y)) + (if holder y then 1 else 0);
  so_units : passed y + Z.of_nat (size (ins y)) + value (sem y) = v0 + posted y;
  so_bound : 0 <= passed y /\ 0 <= posted y /\ posted y + passed y + Z.of_nat (size (ins y)) <= N;
  so_signals : at_signal (holder y) (sc y)
}.

Lemma woken_elem y t : t ∈ woken y <-> t ∈ ins y /\ ~ asleep (sch (cpus (sc y))) t.
Proof. unfold woken. rewrite elem_of_filter. tauto. Qed.

Lemma size_add (X : gset Z) t : t ∉ X -> Z.of_nat (size ({[t]} ∪ X)) = Z.of_nat (size X) + 1.
Proof. intros Ht. rewrite size_union by set_solver. rewrite size_singleton. lia. Qed.
Lemma size_sub (X : gset Z) t : t ∈ X -> Z.of_nat (size (X ∖ {[t]})) = Z.of_nat (size X) - 1.
Proof.
  intros Ht. rewrite size_difference by set_solver. rewrite size_singleton.
  assert (size X <> O); [|lia]. intros E. apply size_empty_inv in E. set_solver.
Qed.

Lemma size_le (X Y : gset Z) : X ⊆ Y -> Z.of_nat (size X) <= Z.of_nat (size Y).
Proof. intros H. apply subseteq_size in H. lia. Qed.

(** *** What the condition variable does *)

Lemma taken_asleep z L t : sys_ok HS XS z L -> t ∈ taken z -> is_Some (waits (sch (cpus z)) t) /\
  forall c, cpu_thread (cpus z) !! c <> Some t.
Proof.
  intros K Ht. pose proof (sy_cpus _ _ _ _ K) as Kc. pose proof (ck_sched _ _ _ _ _ Kc) as Ks.
  destruct (sk_taken _ _ _ _ _ Ks t Ht) as (v & Et & Hs).
  destruct (sk_thread _ _ _ _ _ Ks t v Et) as (_ & _ & Hw & _). split.
  - unfold waits. rewrite Et. by apply Hw.
  - intros c Ec. destruct (current_running HS XS _ _ _ _ _ Kc Ec) as (v' & Et' & Hr). congruence.
Qed.

Lemma cond_wait_step z L c t : sys_ok HS XS z L -> ready_queue a (cpus z) -> cpu_thread (cpus z) !! c = Some t ->
  exists x', leaves c (cond_wait a) (cpus z) = Done x' /\ (exists L', sys_ok HS XS (Sys x' (signals z)) L') /\
    ready_queue a x' /\ forall u, asleep (sch x') u <-> u = t \/ asleep (sch (cpus z)) u.
Proof.
  intros K Hr Ec. destruct (act_call_ok HS XS z L c (Wait a) K) as (L' & z' & E & K' & _); [split; eauto|done|].
  cbn [act call_step] in E. apply bind_Done in E as (x' & E & Ez). apply (inj Done) in Ez. subst z'.
  exists x'. split; [done|]. split; [eauto|].
  pose proof E as (t' & Et & E')%bind_Done. rewrite Ec in Et. apply (inj Done) in Et. subst t'.
  apply bind_Done in E' as (s' & Es & E'). apply (inj Done) in E'. subst x'. cbn [sch].
  apply cond_wait_waits in Es as [Ew EQ]. unfold ready_queue in *. cbn [sch]. split; [by rewrite EQ|].
  intros u. unfold asleep. rewrite Ew. case_decide; [subst; split; auto|]. split; [auto|by intros [?|?]].
Qed.

(** Nobody is in [sema_signal], and no cpu that signals something else holds a thread that comes to wait here. *)
Lemma at_signal_wait z L c t x' : sys_ok HS XS z L -> cpu_thread (cpus z) !! c = Some t -> at_signal None z ->
  (forall u, asleep (sch x') u <-> u = t \/ asleep (sch (cpus z)) u) -> at_signal None (Sys x' (signals z)).
Proof.
  intros K Ec [_ H] Ha. split; [done|]. intros c' Hc. destruct (H c' Hc) as [H1 H2]. split; [done|]. cbn [cpus signals].
  intros u Hg [->|Hu]%Ha; [|by eapply H2].
  destruct (taken_asleep z L t K) as [_ Hn]; [apply elem_of_taken; eauto|]. by eapply Hn.
Qed.

(** A change of the scheduler that puts nobody in the queue. *)
Lemma foreign_step y N v0 z : sema_ok v0 N y -> (exists L, sys_ok HS XS z L) -> ready_queue a (cpus z) ->
  (forall t, asleep (sch (cpus z)) t -> asleep (sch (cpus (sc y))) t) -> at_signal (holder y) z ->
  sema_ok v0 (N + 1) (SConf z (sem y) (holder y) (ins y) (passed y) (posted y)).
Proof.
  intros [] HK Hr Ha Hs.
  assert (woken y ⊆ woken (SConf z (sem y) (holder y) (ins y) (passed y) (posted y))) as Hw%size_le.
  { intros t. rewrite !woken_elem. cbn [sc ins]. intros [? Hn]. split; [done|]. by intros ?%Ha. }
  constructor; cbn [sc sem holder ins passed posted] in *; try done; try lia. intros t Ht. by apply so_ins0, Ha.
Qed.

(** *** One step *)

Lemma wait_ok v0 N y c t : sema_ok v0 N y -> 0 <= v0 -> v0 + N + 1 < 2 ^ 31 -> holder y = None ->
  cpu_thread (cpus (sc y)) !! c = Some t -> t ∉ ins y ->
  exists y', sact a c SWait y = Done y' /\ sema_ok v0 (N + 1) y'.
Proof.
  intros K Hv Hb Hh Ec Ht. pose proof K as [[L HL] Hr Hi Hn Hw Hu Hbd Hat]. rewrite Hh in *.
  cbn [sact]. rewrite Ec. ocbn. unfold sema_wait.
  rewrite s32_small by lia. cbn [value wakeup]. case_match eqn:Ev.
  - apply Z.ltb_lt in Ev. destruct (cond_wait_step (sc y) L c t HL Hr Ec) as (x' & E & HL' & Hr' & Ha).
    rewrite E. ocbn. eexists. split; [reflexivity|]. pose proof (size_add (ins y) t Ht) as Hs.
    pose proof (at_signal_wait _ _ _ _ _ HL Ec Hat Ha) as Hat'.
    assert (woken (SConf (Sys x' (signals (sc y))) (Sem (value (sem y) - 1) (wakeup (sem y))) (holder y) ({[t]} ∪ ins y) (passed y) (posted y)) = woken y) as Hwk.
    { apply set_eq. intros u. rewrite !woken_elem. cbn [sc ins cpus]. rewrite elem_of_union, elem_of_singleton, Ha.
      split; [tauto|]. intros [H1 H2]. split; [by right|]. intros [->|?]; [by apply Ht|done]. }
    constructor; rewrite ?Hwk, ?Hh; cbn [sc sem holder cpus ins passed posted value wakeup]; rewrite ?Hh; try done; try lia.
    intros u [->|H]%Ha; [set_solver|apply elem_of_union_r; by apply Hi].
  - apply Z.ltb_ge in Ev. eexists. split; [reflexivity|].
    replace (Sys (cpus (sc y)) (signals (sc y))) with (sc y) by (by destruct (sc y)).
    constructor; cbn [sc sem holder ins passed posted value wakeup]; rewrite ?Hh; try done; try lia; eauto.
Qed.

Lemma resume_ok v0 N y c t : sema_ok v0 N y -> 0 <= v0 -> v0 + N + 1 < 2 ^ 31 -> holder y = None ->
  cpu_thread (cpus (sc y)) !! c = Some t -> t ∈ ins y ->
  exists y', sact a c SResume y = Done y' /\ sema_ok v0 (N + 1) y'.
Proof.
  intros K Hv Hb Hh Ec Ht. pose proof K as [[L HL] Hr Hi Hn Hw Hu Hbd Hat]. rewrite Hh in *. cbn [sact]. rewrite Ec. ocbn.
  assert (~ asleep (sch (cpus (sc y))) t) as Hna.
  { pose proof (sy_cpus _ _ _ _ HL) as Kc. destruct (current_running HS XS _ _ _ _ _ Kc Ec) as (v & Et & Hs).
    unfold asleep, waits. rewrite Et. cbn. by rewrite (not_sleeping HS XS _ L t v (ck_sched _ _ _ _ _ Kc) Et ltac:(by rewrite Hs)). }
  assert (t ∈ woken y) as Htw by by apply woken_elem.
  unfold sema_wait_resume. case_match eqn:Ev.
  - apply Z.eqb_eq in Ev. destruct (cond_wait_step (sc y) L c t HL Hr Ec) as (x' & E & HL' & Hr' & Ha).
    rewrite E. ocbn. eexists. split; [reflexivity|]. pose proof (at_signal_wait _ _ _ _ _ HL Ec Hat Ha) as Hat'.
    constructor; cbn [sc sem holder cpus ins passed posted value wakeup]; rewrite ?Hh; try done; try lia.
    intros u [->|H]%Ha; [done|by apply Hi].
  - apply Z.eqb_neq in Ev. rewrite s32_small by lia. ocbn. eexists. split; [reflexivity|].
    replace (Sys (cpus (sc y)) (signals (sc y))) with (sc y) by (by destruct (sc y)).
    pose proof (size_sub (ins y) t Ht) as Hs. pose proof (size_sub (woken y) t Htw) as Hsw.
    assert (woken (SConf (sc y) (Sem (value (sem y)) (wakeup (sem y) - 1)) (holder y) (ins y ∖ {[t]}) (passed y + 1) (posted y))
      = woken y ∖ {[t]}) as Hwk.
    { apply set_eq. intros u. rewrite elem_of_difference, !woken_elem. cbn [sc ins]. rewrite elem_of_difference. tauto. }
    constructor; rewrite ?Hwk; cbn [sc sem holder ins passed posted value wakeup]; rewrite ?Hh; try done; try lia; [eauto|].
    intros u H. apply elem_of_difference. split; [by apply Hi|]. intros ->%elem_of_singleton. done.
Qed.

(** Up to the test: when nobody is in the queue, all the threads inside are
    awake; otherwise the lock is kept. *)
Lemma post_ok v0 N y c : sema_ok v0 N y -> 0 <= v0 -> v0 + N + 1 < 2 ^ 31 -> unlocked c y ->
  exists y', sact a c SSignal y = Done y' /\ sema_ok v0 (N + 1) y'.
Proof.
  intros K Hv Hb [Hc Hh]. pose proof K as [[L HL] Hr Hi Hn Hw Hu Hbd Hat]. rewrite Hh in *. cbn [sact]. unfold sema_post.
  rewrite s32_small by lia. cbn [value wakeup]. destruct (value (sem y) + 1 <=? 0) eqn:Ev.
  - apply Z.leb_le in Ev. destruct (test_ok HS XS (sc y) L c a HL Hc Hr) as (z & E & HL' & Hz).
    rewrite E. ocbn. rewrite s32_small by lia. eexists. split; [reflexivity|]. destruct Hz as [[-> Hz]| ->].
    + rewrite Hc. assert (forall t, ~ asleep (sch (cpus (sc y))) t) as Hno.
      { intros t Ht. pose proof (Hz t Ht) as [c' Ec']%elem_of_taken. by eapply (proj2 Hat). }
      assert (woken (SConf (sc y) (Sem (value (sem y) + 1) (wakeup (sem y) + 1)) None (ins y) (passed y) (posted y + 1)) = ins y) as Hwk.
      { apply set_eq. intros u. rewrite woken_elem. cbn [sc ins]. split; [by intros []|]. intros Hin. split; [done|apply Hno]. }
      constructor; rewrite ?Hwk; cbn [sc sem holder ins passed posted value wakeup]; try done; try lia; eauto.
    + cbn [signals]. rewrite lookup_insert_eq.
      assert (woken (SConf (Sys (cpus (sc y)) (<[c := Seen a]> (signals (sc y)))) (Sem (value (sem y) + 1) (wakeup (sem y) + 1))
        (Some c) (ins y) (passed y) (posted y + 1)) = woken y) as Hwk.
      { apply set_eq. intros u. by rewrite !woken_elem. }
      constructor; rewrite ?Hwk; cbn [sc sem holder cpus ins passed posted value wakeup]; try done; try lia; [eauto|].
      split; cbn [cpus signals]; [intros ? [= <-]; left; apply lookup_insert_eq|].
      intros c' Hne. rewrite lookup_insert_ne by congruence. by apply (proj2 Hat).
  - apply Z.leb_gt in Ev. ocbn. rewrite Hc. eexists. split; [reflexivity|].
    constructor; cbn [sc sem holder ins passed posted value wakeup]; try done; try lia; eauto.
Qed.

(** The calls that are not the semaphore's. *)
Lemma foreign_calm x c e x' : call_step c e x = Done x' -> (forall b, e = Wait b -> b <> a) ->
  forall t, asleep (sch x') t -> asleep (sch x) t.
Proof.
  intros E Hb. assert ((exists b, e = Wait b) \/ forall b, e <> Wait b) as [[b ->]|Hne] by (destruct e; eauto; by right).
  - specialize (Hb b eq_refl). cbn [call_step] in E. apply bind_Done in E as (t & Et & E). apply bind_Done in E as (s' & Es & E).
    apply (inj Done) in E. subst x'. apply cond_wait_waits in Es as [Ew EQ]. cbn [sch].
    intros u. unfold asleep. rewrite Ew. case_decide; [congruence|done].
  - destruct (call_calm _ _ _ _ E Hne) as [Hc _]. intros t. unfold asleep. destruct (Hc t) as [->| ->]; done.
Qed.

Lemma at_signal_call o z L L' c e z' : sys_ok HS XS z L -> at_signal o z -> act c (Call e) z = Done z' -> sys_ok HS XS z' L' ->
  (forall b, e = Wait b -> b <> a) ->
  at_signal o z' /\ (forall t, asleep (sch (cpus z')) t -> asleep (sch (cpus z)) t) /\
  (ready_queue a (cpus z) -> ready_queue a (cpus z')).
Proof.
  intros K [H1 H2] E K' Hb. cbn [act] in E. apply bind_Done in E as (x' & E & Ez). apply (inj Done) in Ez. subst z'.
  destruct (call_waits HS XS _ _ _ _ _ _ (sy_cpus _ _ _ _ K) E) as [Hw Hq].
  pose proof (foreign_calm _ _ _ _ E Hb) as Hf. split_and!; [|done|apply Hq]. split; cbn [cpus signals].
  - intros c' Ho. destruct (H1 c' Ho) as [|[|(t & Et & Ht)]]; [by left|right; by left|right; right]. exists t. split; [done|].
    assert (t ∈ taken z) as Htk by (apply elem_of_taken; eauto).
    destruct (taken_asleep _ _ t K' Htk) as [[q Eq] _]. cbn [cpus] in Eq. destruct (Hw t Htk) as [Hs|Hs]; [|congruence].
    unfold asleep. by rewrite Hs.
  - intros c' Ho. destruct (H2 c' Ho) as [H3 H4]. split; [done|]. intros t Et Ht%Hf. by eapply H4.
Qed.

Lemma other_call_ok v0 N y c e : sema_ok v0 N y -> senabled a HS c (SOther (Call e)) y -> ~ sstrikes (SOther (Call e)) y ->
  (exists y', sact a c (SOther (Call e)) y = Done y' /\ sema_ok v0 (N + 1) y') \/ stuck c (Call e) (sc y).
Proof.
  intros K [He Hf] Hs. pose proof K as [[L HL] Hr _ _ _ _ _ Hat].
  destruct (event_ok HS XS (sc y) L c (Call e) HL He Hs) as [(L' & z & E & K' & _)|H]; [left|by right].
  destruct (at_signal_call _ _ _ _ _ _ _ HL Hat E K') as (Ha & Hsl & Hq); [intros b ->; exact (proj1 Hf)|].
  cbn [sact]. rewrite E. ocbn. rewrite decide_False by (by intros [[=] _]). eexists. split; [reflexivity|].
  eapply foreign_step; eauto.
Qed.

Lemma other_test_ok v0 N y c b : sema_ok v0 N y -> senabled a HS c (SOther (Test b)) y ->
  exists y', sact a c (SOther (Test b)) y = Done y' /\ sema_ok v0 (N + 1) y'.
Proof.
  intros K [He Hf]. pose proof K as [[L HL] Hr _ _ _ _ _ Hat]. unfold enabled in He. cbn [foreign] in Hf.
  destruct (signals (sc y) !! c) as [[]|] eqn:Ec; try done.
  destruct (test_ok HS XS (sc y) L c b HL Ec He) as (z & E & K' & Hz).
  cbn [sact]. rewrite E. ocbn. rewrite decide_False by (by intros [[=] _]). eexists. split; [reflexivity|].
  assert (cpus z = cpus (sc y)) as Ez by (destruct Hz as [[-> _]| ->]; done).
  apply foreign_step; rewrite ?Ez; eauto. destruct Hz as [[-> _]| ->]; [done|]. destruct Hat as [H1 H2].
  split; cbn [cpus signals]; intros c' Ho.
  - assert (c <> c') by (intros <-; destruct (H1 c Ho) as [H|[H|(t & H & _)]]; congruence).
    rewrite lookup_insert_ne by done. by apply H1.
  - destruct (decide (c = c')) as [<-|Hne]; [|rewrite lookup_insert_ne by done; by apply H2].
    rewrite lookup_insert_eq. split; [congruence|]. by intros ? [=].
Qed.

Lemma other_take_ok v0 N y c : sema_ok v0 N y -> senabled a HS c (SOther Take) y ->
  exists y', sact a c (SOther Take) y = Done y' /\ sema_ok v0 (N + 1) y'.
Proof.
  intros K [He _]. pose proof K as [[L HL] Hr _ _ _ _ _ Hat]. unfold enabled in He.
  destruct (signals (sc y) !! c) as [[b|]|] eqn:Ec; try done.
  destruct (take_ok HS XS (sc y) L c b HL Ec) as (L' & s' & o & E & K' & _ & [ET EQ] & Ho).
  cbn [sact]. rewrite E. ocbn. rewrite decide_False by (by intros [[=] _]). eexists. split; [reflexivity|].
  assert (forall t, asleep s' t <-> asleep (sch (cpus (sc y))) t) as Hsl by (intros t; unfold asleep, waits; by rewrite ET).
  apply foreign_step; cbn [cpus sch]; try done; [eauto|unfold ready_queue; cbn [sch]; by rewrite EQ|by intros t; rewrite Hsl|].
  destruct Hat as [H1 H2]. split; cbn [cpus signals sch]; intros c' Hc; setoid_rewrite Hsl;
    (destruct (decide (c = c')) as [<-|Hne]; [rewrite lookup_insert_eq|rewrite lookup_insert_ne by done; by auto]).
  - destruct (H1 c Hc) as [H|[H|(t & H & _)]]; [|congruence..]. assert (b = a) as -> by congruence.
    destruct Ho as [->|(t & -> & Hw & _)]; [right; by left|right; right]. exists t. split; [done|exact Hw].
  - destruct (H2 c Hc) as [Hb _]. split; [done|]. intros t [= ->]. destruct Ho as [|(t' & [= <-] & Hw & _)]; [done|].
    unfold asleep. rewrite Hw. congruence.
Qed.

Lemma other_wake_ok v0 N y c : sema_ok v0 N y -> senabled a HS c (SOther WakeOne) y ->
  (exists y', sact a c (SOther WakeOne) y = Done y' /\ sema_ok v0 (N + 1) y') \/ stuck c WakeOne (sc y).
Proof.
  intros K [He _]. pose proof K as [[L HL] Hr Hi Hn Hw Hu Hbd [H1 H2]]. unfold enabled in He.
  destruct (signals (sc y) !! c) as [[|[[t|p]|]]|] eqn:Ec; try done.
  2: { by destruct (sy_thread _ _ _ _ HL c p). }
  2: { right. right. split_and!; [done..|]. cbn [act]. by rewrite Ec. }
  left. destruct (wake_one_ok HS XS (sc y) L c t HL Ec) as (L' & s' & E & K' & _ & ET & EQ).
  cbn [sact]. rewrite E. ocbn. eexists. split; [reflexivity|].
  assert (forall u, asleep s' u <-> u <> t /\ asleep (sch (cpus (sc y))) u) as Hsl.
  { intros u. unfold asleep, waits. rewrite ET. destruct (decide (t = u)) as [<-|Hne].
    - rewrite lookup_insert_eq. cbn. split; [done|by intros []].
    - rewrite lookup_insert_ne by done. split; [intros; split; congruence|by intros []]. }
  assert (ready_queue a (Conf s' (cpu_thread (cpus (sc y))))) as Hr' by (unfold ready_queue; cbn [sch]; by rewrite EQ).
  assert (forall o, (forall c', o = Some c' -> holder y = Some c' /\ c' <> c) ->
    (forall c', o <> Some c' -> c' <> c -> holder y <> Some c') ->
    at_signal o (Sys (Conf s' (cpu_thread (cpus (sc y)))) (delete c (signals (sc y))))) as Hat.
  { intros o Ho1 Ho2. split; cbn [cpus signals sch]; intros c' Hc.
    - destruct (Ho1 c' Hc) as [Ho Hne]. rewrite lookup_delete_ne by done.
      destruct (H1 c' Ho) as [|[|(u & Eu & Hu')]]; [by left|right; by left|right; right]. exists u. split; [done|].
      apply Hsl. split; [|done]. intros ->. apply Hne. by eapply (sy_once _ _ _ _ HL).
    - destruct (decide (c = c')) as [<-|Hne]; [rewrite lookup_delete_eq; done|].
      rewrite lookup_delete_ne by done. destruct (H2 c') as [H3 H4]; [by apply Ho2|]. split; [done|]. intros u Eu [_ ?]%Hsl. by eapply H4. }
  case_decide as Hd.
  - destruct Hd as [_ Hd]. destruct (H1 c Hd) as [H|[H|(t' & H & Ht')]]; [congruence..|].
    assert (t' = t) as -> by congruence. rewrite Hd in Hw.
    set (y' := SConf (Sys (Conf s' (cpu_thread (cpus (sc y)))) (delete c (signals (sc y)))) (sem y) None (ins y) (passed y) (posted y)).
    assert (woken y' = {[t]} ∪ woken y) as Hwk.
    { apply set_eq. intros u. rewrite elem_of_union, elem_of_singleton, !woken_elem. cbn [sc ins y' cpus sch]. rewrite Hsl.
      split; [|intros [->|[? ?]]; [split; [by apply Hi|by intros []]|split; [done|by intros []]]].
      intros [Hin Hns]. destruct (decide (u = t)); [by left|right]. split; [done|]. intros ?. by apply Hns. }
    assert (t ∉ woken y) as Hnw by (rewrite woken_elem; by intros []).
    pose proof (size_add _ _ Hnw) as Hsz.
    constructor; fold y'; rewrite ?Hwk; cbn [sc sem holder cpus sch ins passed posted y']; try done; try lia; [eauto| |].
    + intros u [_ Hu']%Hsl. by apply Hi.
    + apply Hat; [done|]. intros c' _ Hne. rewrite Hd. congruence.
  - assert (holder y <> Some c) as Hd' by (intros ?; by apply Hd). destruct (H2 c Hd') as [_ Hnt]. specialize (Hnt t Ec).
    apply foreign_step; cbn [cpus sch]; try done; [eauto|by intros u [_ ?]%Hsl|].
    apply Hat; [intros c' Hc; split; [done|congruence]|done].
Qed.

Definition sstuck (c : Z) (e : sevent) y : Prop := match e with SOther e => stuck c e (sc y) | _ => False end.

Lemma sact_ok v0 N y c e : sema_ok v0 N y -> 0 <= v0 -> v0 + N + 1 < 2 ^ 31 -> senabled a HS c e y -> ~ sstrikes e y ->
  e <> SKilled -> (exists y', sact a c e y = Done y' /\ sema_ok v0 (N + 1) y') \/ sstuck c e y.
Proof.
  intros K Hv Hb He Hs Hk. destruct e as [| | | |[e|b| |]].
  - left. destruct He as [Ho [_ Hh]]. destruct (outside_at _ _ Ho) as (t & Ec & Ht). by eapply wait_ok.
  - left. destruct He as [Hin [_ Hh]]. destruct (inside_at _ _ Hin) as (t & Ec & Ht). by eapply resume_ok.
  - left. by apply post_ok.
  - done.
  - by apply other_call_ok.
  - left. by apply other_test_ok.
  - left. by apply other_take_ok.
  - by apply other_wake_ok.
Qed.

Definition unharmed (evs : list (Z * sevent)) : Prop := Forall (fun ce => ce.2 <> SKilled) evs.

Lemma stuck_not_done c e z z' : stuck c e z -> act c e z <> Done z'.
Proof. intros [(t & _ & _ & E)|(_ & _ & E)]; congruence. Qed.

Lemma srun_ok v0 evs : forall N y y', sema_ok v0 N y -> 0 <= v0 -> v0 + N + Z.of_nat (length evs) < 2 ^ 31 ->
  unharmed evs -> srun a HS evs y y' -> sema_ok v0 (N + Z.of_nat (length evs)) y'.
Proof.
  induction evs as [|[c e] evs IH]; intros N y y' K Hv Hb Hu R; inversion R as [|??? ? y1 ? He Hs Ea R']; subst.
  - by rewrite Z.add_0_r.
  - apply list.Forall_cons in Hu as [Hk Hu]. cbn [length] in *.
    destruct (sact_ok v0 N y c e K Hv ltac:(lia) He Hs Hk) as [(y2 & E2 & K2)|Hst].
    + rewrite Ea in E2. apply (inj Done) in E2. subst.
      replace (N + Z.of_nat (S (length evs))) with (N + 1 + Z.of_nat (length evs)) by lia. apply (IH _ y2); try done. lia.
    + destruct e as [| | | |e]; try done. exfalso. cbn [sact] in Ea. apply bind_Done in Ea as (z & Ez & _).
      by eapply stuck_not_done.
Qed.

(** Making a semaphore at a free address. *)
Lemma sema_init_ok v0 z L : sys_ok HS XS z L -> callable HS 0 (CondInit a) (cpus z) ->
  (forall c, signals z !! c <> Some (Seen a)) -> 0 <= v0 ->
  exists s, sema_init a v0 (sch (cpus z)) = Done (Sem v0 0, s) /\
    sema_ok v0 0 (SConf (Sys (Conf s (cpu_thread (cpus z))) (signals z)) (Sem v0 0) None ∅ 0 0).
Proof.
  intros K He Hse Hv. destruct (act_call_ok HS XS z L 0 (CondInit a) K He) as (L' & z' & E & K' & _); [done|].
  cbn [act call_step] in E. apply bind_Done in E as (x' & E & Ez). apply (inj Done) in Ez. subst z'.
  pose proof E as (s' & Es & Ex)%bind_Done. apply (inj Done) in Ex. subst x'.
  exists s'. unfold sema_init. rewrite Es. split; [done|]. destruct He as [_ Hno].
  assert (forall t, ~ asleep s' t) as Hs.
  { intros t Ht. apply cond_init_calm in Es as [Hc _]. unfold asleep in Ht. destruct (Hc t) as [Hw|Hw]; [|congruence].
    rewrite Hw in Ht. unfold waits in Ht. destruct (threads (sch (cpus z)) !! t) as [v|] eqn:Et; [|done].
    exact (Hno t v Et Ht). }
  constructor; cbn [sc sem holder ins passed posted value wakeup cpus sch]; rewrite ?size_empty; try lia.
  - eauto.
  - unfold ready_queue. cbn [sch]. unfold cond_init, Queue_init in Es. apply bind_Done in Es as (s1 & _ & Es).
    apply (inj Done) in Es. subst s'. apply lookup_insert_eq.
  - intros t Ht. by destruct (Hs t).
  - split; [done|]. intros c _. split; [apply Hse|]. intros t _. apply Hs.
Qed.

(** ** Properties *)

(** C17.  A semaphore initialised with [v0] units hands out each unit once and
    loses none.  The runs are those of C14 with the semaphore among the other
    events of the scheduler: calls of [sema_wait] and [sema_signal] on any cpu, with the
    other cpus going on between the sections of [cond_signal]; preemptions;
    other condition variables; timers that wake the waiters, except a
    thread that a signaller holds (C16).  Below 2^31 events, and as
    long as no waiter is killed ([sema_killed_waiter] loses a unit), no more calls of [sema_wait] return
    than [v0] plus the calls of [sema_signal]; when no [sema_signal] is under way and every thread still
    inside [sema_wait] is in the queue, exactly as many have returned as there
    were units or callers; and the next call returns, except the two that
    C14 excepts: a timer's callback on a thread that is not asleep, and a
    signaller whose waiters were woken by timers since it saw one. *)
Theorem sema_units v0 z L : sys_ok HS XS z L -> callable HS 0 (CondInit a) (cpus z) ->
  (forall c, signals z !! c <> Some (Seen a)) -> 0 <= v0 ->
  exists s, sema_init a v0 (sch (cpus z)) = Done (Sem v0 0, s) /\
    forall evs y, srun a HS evs (SConf (Sys (Conf s (cpu_thread (cpus z))) (signals z)) (Sem v0 0) None ∅ 0 0) y -> unharmed evs ->
      v0 + Z.of_nat (length evs) + 1 < 2 ^ 31 ->
      passed y <= v0 + posted y /\
      (holder y = None -> (forall t, t ∈ ins y -> asleep (sch (cpus (sc y))) t) ->
        passed y = Z.min (v0 + posted y) (passed y + Z.of_nat (size (ins y)))) /\
      forall c e, senabled a HS c e y -> e <> SKilled -> (exists y', sact a c e y = Done y') \/ sstuck c e y.
Proof.
  intros K He Hse Hv. destruct (sema_init_ok v0 z L K He Hse Hv) as (s & E & K0). exists s. split; [done|].
  intros evs y R Hu Hb. pose proof (srun_ok v0 evs 0 _ y K0 Hv ltac:(lia) Hu R) as Ky.
  pose proof Ky as [_ _ _ Hn Hw Hun Hbd Hat].
  assert (wakeup (sem y) <= Z.of_nat (size (ins y)) + (if holder y then 1 else 0)) as Hle.
  { etrans; [apply Hw|]. apply Z.add_le_mono_r, size_le. by intros t [? _]%woken_elem. }
  split_and!.
  - destruct (holder y); lia.
  - intros Hh Hs. assert (woken y = ∅) as Hwk.
    { apply set_eq. intros t. rewrite woken_elem. split; [intros [H1 H2]; destruct H2; by apply Hs|by intros ?%not_elem_of_empty]. }
    rewrite Hwk, size_empty, Hh in Hw. lia.
  - intros c e He' Hk. destruct (decide (sstrikes e y)) as [Hs|Hs].
    + left. destruct e as [| | | |[[]| | |]]; try done. destruct (so_sys _ _ _ Ky) as [L' HL].
      destruct (strike_returns HS XS (sc y) L' c t HL Hs) as (z' & Ez). cbn [sact]. rewrite Ez. ocbn. eauto.
    + destruct (sact_ok v0 _ y c e Ky Hv ltac:(lia) He' Hs Hk) as [(y' & Ey & _)|H]; [eauto|by right].
Qed.
End units.


(** ** A semaphore among three threads *)

(** Threads 0 and 1 run on cpus 0 and 1, thread 2 is runnable. *)
Definition demo_threads : list (Z * event) :=
  (fun ce => (ce.1, Call ce.2)) <$>
    [(0, Claim); (0, Start 0); (0, Round); (1, Claim); (1, Start 1); (1, Round); (2, Claim); (2, Start 2)].
Definition demo_begin : sys demo_mem := result demo_start (play demo_queues demo_threads demo_start).

Lemma demo_begin_ok : exists L, sys_ok demo_queues demo_qnodes demo_begin L.
Proof. apply (demo_reached demo_threads), result_Done. vm_compute. reflexivity. Qed.

Definition demo_sema (v : Z) : sconf demo_mem :=
  match sema_init 7 v (sch (cpus demo_begin)) with
  | Done (k, s) => SConf (Sys (Conf s (cpu_thread (cpus demo_begin))) (signals demo_begin)) k None ∅ 0 0
  | _ => SConf demo_begin (Sem 0 0) None ∅ 0 0
  end.

(** Thread 0 takes the unit, thread 1 waits; thread 0 gives the unit back, cpu 1
    going on between its sections; thread 1 passes. *)
Definition demo_sevents : list (Z * sevent) :=
  [(0, SWait); (1, SWait); (0, SSignal); (1, SOther (Call Round)); (0, SOther Take); (1, SOther (Call Yield)); (0, SOther WakeOne);
   (0, SOther (Call Yield)); (1, SOther (Call Round)); (0, SOther (Call Round)); (0, SResume)].
Definition demo_passed : sconf demo_mem := result (demo_sema 1) (splay 7 demo_queues demo_sevents (demo_sema 1)).

Lemma sema_units_witness : srun 7 demo_queues demo_sevents (demo_sema 1) demo_passed /\
  passed demo_passed = 2 /\ posted demo_passed = 1 /\ passed demo_passed <= 1 + posted demo_passed.
Proof.
  assert (srun 7 demo_queues demo_sevents (demo_sema 1) demo_passed) as R by (apply splay_run, result_Done; vm_compute; reflexivity).
  split; [exact R|]. split; [vm_compute; reflexivity|]. split; [vm_compute; reflexivity|].
  destruct demo_begin_ok as [L K].
  destruct (sema_units demo_queues demo_qnodes 7 1 demo_begin L K) as (s & E & H); [| |lia|].
  { apply (bool_decide_unpack _). vm_compute. exact I. }
  { intros c. assert (signals demo_begin = ∅) as -> by (vm_compute; reflexivity). rewrite lookup_empty. discriminate. }
  refine (proj1 (H demo_sevents demo_passed _ _ _)).
  - unfold demo_sema in R. rewrite E in R. exact R.
  - repeat constructor; discriminate.
  - vm_compute. reflexivity.
Defined.

(** A waiter that is killed takes a unit with it: [value] is not put back, so
    the next signal is spent on nobody and the thread that waits next sleeps
    although a unit was posted after every call that returned. *)
Definition demo_kill : list (Z * sevent) :=
  [(0, SWait); (0, SOther (Call (Wakeup 0))); (0, SOther (Call Round)); (0, SOther (Call Yield)); (0, SOther (Call Round));
   (0, SKilled); (1, SSignal); (1, SWait)].

Lemma sema_killed_waiter : exists y, srun 7 demo_queues demo_kill (demo_sema 0) y /\
  posted y = 1 /\ passed y = 0 /\ ins y = {[1]} /\ asleep 7 (sch (cpus (sc y))) 1.
Proof.
  exists (result (demo_sema 0) (splay 7 demo_queues demo_kill (demo_sema 0))).
  split; [apply splay_run, result_Done; vm_compute; reflexivity|]. split_and!; vm_compute; reflexivity.
Qed.
