(* ===== verification/Pipe.v ===== *)
(** * Pipe: pipes ([src/ipc/pipe.c])

    A pipe is a ring of 512 bytes with two running counters, two open flags and
    two semaphores.  A call of [pipe_write] or [pipe_read] is a sequence of sections
    under the pipe's lock, with a [sema_wait] between one section and the next;
    the sections are functions, and the step relation interleaves those of any
    number of calls, closes, and anything else that happens to the semaphores.
    The semaphores are used through the interface [Semaphores], which
    [Sema] and [Sched] implement. *)

From stdpp Require Import base gmap sets list fin_maps.
From Stdlib Require Import ZArith Lia.
From S2P Require Import Prelude KList Sched Cpus Sema.
#[local] Open Scope Z_scope.

Definition PIPESIZE : Z := 512.

(** [struct pipe] without its lock and semaphores. *)
Record pipe := Pipe {
  data : list Z;
  nread : Z;
  nwrite : Z;
  readopen : bool;
  writeopen : bool
}.

(** [PIPE_FULL] and [PIPE_EMPTY]; the counters are 32 bits wide. *)
Definition PIPE_FULL (pi : pipe) : bool := nwrite pi =? u32 (nread pi + PIPESIZE).
Definition PIPE_EMPTY (pi : pipe) : bool := nread pi =? nwrite pi.

(** What a pipe needs of its semaphores: a signal returns and keeps them usable. *)
Inductive which_sem := read_sem | write_sem.

Class Semaphores (W : Type) := {
  sem_signal : which_sem -> W -> outcome W;
  sem_inv : W -> Prop;
  sem_signal_ok q w : sem_inv w -> exists w', sem_signal q w = Done w' /\ sem_inv w'
}.

(** How a section ends: the call returns, or goes to [sema_wait]. *)
Inductive wresult := WReturn (r : Z) | WWait (i : Z).
Inductive rresult := RReturn (r : Z) (bytes : list Z) | RWait.

Section pipe.
Context {W : Type} `{!Semaphores W}.
Implicit Types (pi : pipe) (w : W).

(** The set-up in [pipe_alloc]; the page holds any bytes. *)
Definition pipe_init (bytes : list Z) : pipe := Pipe bytes 0 0 true true.

(** [pi->data[pi->nwrite++ % PIPESIZE] = ch] *)
Definition push (ch : Z) pi : outcome pipe :=
  let j := Z.to_nat (nwrite pi mod PIPESIZE) in
  deref (data pi !! j);;
  Done (Pipe (<[j := ch]> (data pi)) (nread pi) (u32 (nwrite pi + 1)) (readopen pi) (writeopen pi)).

(** The loop of [pipe_write] from the lock's acquisition on, [n] bytes left.
    [src i] is the user's byte [i] when it can be read, [killed i] what
    [proc_killed] answers then. *)
Fixpoint pipe_write_loop (n : nat) (killed : Z -> bool) (src : Z -> option Z) (i : Z) pi w
    : outcome (wresult * pipe * W) :=
  match n with
  | O => w ← sem_signal read_sem w; Done (WReturn i, pi, w)
  | S n' =>
      if negb (readopen pi) || killed i then Done (WReturn (-1), pi, w)
      else if PIPE_FULL pi then w ← sem_signal read_sem w; Done (WWait i, pi, w)
      else match src i with
      | None => w ← sem_signal read_sem w; Done (WReturn i, pi, w)
      | Some ch => pi ← push ch pi; pipe_write_loop n' killed src (i + 1) pi w
      end
  end.

Definition pipe_write (killed : Z -> bool) (src : Z -> option Z) (n i : Z) pi w : outcome (wresult * pipe * W) :=
  pipe_write_loop (Z.to_nat (n - i)) killed src i pi w.

(** The copying loop of [pipe_read], [n] bytes left; [dst i] tells whether the
    user's byte [i] can be written. *)
Fixpoint pipe_read_loop (n : nat) (dst : Z -> bool) (i : Z) pi : outcome (Z * list Z * pipe) :=
  match n with
  | O => Done (i, [], pi)
  | S n' =>
      if PIPE_EMPTY pi then Done (i, [], pi)
      else
        ch ← deref (data pi !! Z.to_nat (nread pi mod PIPESIZE));
        if dst i then
          '(r, bytes, pi) ← pipe_read_loop n' dst (i + 1)
            (Pipe (data pi) (u32 (nread pi + 1)) (nwrite pi) (readopen pi) (writeopen pi));
          Done (r, ch :: bytes, pi)
        else Done (i, [], pi)
  end.

(** [pipe_read] from the lock's acquisition on. *)
Definition pipe_read (killed : bool) (dst : Z -> bool) (n : Z) pi w : outcome (rresult * pipe * W) :=
  if PIPE_EMPTY pi && writeopen pi then
    if killed then Done (RReturn (-1) [], pi, w) else Done (RWait, pi, w)
  else
    '(r, bytes, pi) ← pipe_read_loop (Z.to_nat n) dst 0 pi;
    w ← sem_signal write_sem w;
    Done (RReturn r bytes, pi, w).

(** [pipe_close]: whether the pipe is freed. *)
Definition pipe_close (writable : bool) pi w : outcome (bool * pipe * W) :=
  '(pi, w) ← (if writable then
      w ← sem_signal read_sem w;
      Done (Pipe (data pi) (nread pi) (nwrite pi) (readopen pi) false, w)
    else
      w ← sem_signal write_sem w;
      Done (Pipe (data pi) (nread pi) (nwrite pi) false (writeopen pi), w));
  Done (negb (readopen pi) && negb (writeopen pi), pi, w).

Definition pipe_empty pi : bool := nread pi =? nwrite pi.
Definition pipe_full pi : bool := u32 (nread pi + PIPESIZE) =? nwrite pi.

(** ** The interleavings

    [calls] are the calls in progress, by thread: the arguments and how far a
    write has come.  [sent] are the bytes writers put in, [received] those
    readers took out, in order. *)
Inductive call :=
  | CWrite (src : Z -> option Z) (n i : Z)
  | CRead (dst : Z -> bool) (n : Z).

Record pconf := PConf {
  pp : pipe;
  world : W;
  calls : gmap Z call;
  sent : list Z;
  received : list Z
}.

(** The bytes [src] gives from [i] up to [j]. *)
Definition given (src : Z -> option Z) (i j : Z) : list Z := omap src (seqZ i (j - i)).

Definition wrote (src : Z -> option Z) (i : Z) (pi pi' : pipe) : list Z :=
  given src i (i + u32 (nwrite pi' - nwrite pi)).

Inductive pstep : pconf -> pconf -> Prop :=
  | p_call t k g : calls g !! t = None ->
      match k with CWrite _ _ i => i = 0 | _ => True end ->
      pstep g (PConf (pp g) (world g) (<[t := k]> (calls g)) (sent g) (received g))
  | p_write t killed src n i g r pi w : calls g !! t = Some (CWrite src n i) ->
      pipe_write killed src n i (pp g) (world g) = Done (r, pi, w) ->
      pstep g (PConf pi w (match r with WReturn _ => delete t (calls g) | WWait j => <[t := CWrite src n j]> (calls g) end)
        (sent g ++ wrote src i (pp g) pi) (received g))
  | p_read t killed dst n g r pi w : calls g !! t = Some (CRead dst n) ->
      pipe_read killed dst n (pp g) (world g) = Done (r, pi, w) ->
      pstep g (PConf pi w (match r with RReturn _ _ => delete t (calls g) | RWait => calls g end)
        (sent g) (received g ++ match r with RReturn _ bytes => bytes | RWait => [] end))
  | p_close writable g pi w : pipe_close writable (pp g) (world g) = Done (false, pi, w) ->
      pstep g (PConf pi w (calls g) (sent g) (received g))
  | p_world g w : sem_inv w -> pstep g (PConf (pp g) w (calls g) (sent g) (received g)).
End pipe.
Arguments pconf : clear implicits.

(** ** The ring *)

(** The ring of [pi] holds the bytes [l], oldest first. *)
Record pipe_ok (pi : pipe) (l : list Z) : Prop := {
  pk_data : length (data pi) = Z.to_nat PIPESIZE;
  pk_nread : 0 <= nread pi < 2 ^ 32;
  pk_nwrite : 0 <= nwrite pi < 2 ^ 32;
  pk_length : Z.of_nat (length l) <= PIPESIZE;
  pk_count : nwrite pi = u32 (nread pi + Z.of_nat (length l));
  pk_byte (k : nat) ch : l !! k = Some ch -> data pi !! Z.to_nat ((nread pi + Z.of_nat k) mod PIPESIZE) = Some ch
}.

Lemma u32_alt x : exists q, u32 x = x - q * 2 ^ 32 /\ 0 <= u32 x < 2 ^ 32.
Proof.
  exists (x / 2 ^ 32). split; [|apply u32_range]. unfold u32. pose proof (Z.div_mod x (2 ^ 32) ltac:(lia)). lia.
Qed.

(** The ring's size divides 2^32, so the wrap of a counter is not seen in the index. *)
Lemma index_u32 x : u32 x mod PIPESIZE = x mod PIPESIZE.
Proof.
  destruct (u32_alt x) as (q & -> & _). unfold PIPESIZE. replace (x - q * 2 ^ 32) with (x + (- q * 2 ^ 23) * 512) by lia.
  by rewrite Z.mod_add by lia.
Qed.

Lemma index_range x : 0 <= x mod PIPESIZE < PIPESIZE.
Proof. by apply Z.mod_pos_bound. Qed.

Lemma index_inj x (j k : nat) : (x + Z.of_nat j) mod PIPESIZE = (x + Z.of_nat k) mod PIPESIZE ->
  Z.of_nat j < PIPESIZE -> Z.of_nat k < PIPESIZE -> j = k.
Proof.
  unfold PIPESIZE. intros E Hj Hk. pose proof (Z.div_mod (x + Z.of_nat j) 512 ltac:(lia)).
  pose proof (Z.div_mod (x + Z.of_nat k) 512 ltac:(lia)). lia.
Qed.

Lemma full_iff pi l : pipe_ok pi l -> PIPE_FULL pi = bool_decide (Z.of_nat (length l) = PIPESIZE).
Proof.
  intros []. unfold PIPE_FULL, PIPESIZE in *. rewrite pk_count0.
  destruct (u32_alt (nread pi + Z.of_nat (length l))) as (q1 & E1 & H1).
  destruct (u32_alt (nread pi + 512)) as (q2 & E2 & H2). case_bool_decide as Hd.
  - rewrite Hd. by apply Z.eqb_eq.
  - apply Z.eqb_neq. lia.
Qed.

Lemma empty_iff pi l : pipe_ok pi l -> PIPE_EMPTY pi = bool_decide (l = []).
Proof.
  intros []. unfold PIPE_EMPTY, PIPESIZE in *.
  destruct (u32_alt (nread pi + Z.of_nat (length l))) as (q1 & E1 & H1). case_bool_decide as Hd.
  - subst l. cbn in *. apply Z.eqb_eq. rewrite pk_count0, Z.add_0_r, u32_small; [done|lia].
  - apply Z.eqb_neq. destruct l; [done|]. cbn [length] in *. lia.
Qed.

Lemma data_at pi l x : pipe_ok pi l -> is_Some (data pi !! Z.to_nat (x mod PIPESIZE)).
Proof.
  intros K. apply lookup_lt_is_Some. rewrite (pk_data _ _ K). pose proof (index_range x). unfold PIPESIZE in *. lia.
Qed.

Definition same_flags (pi pi' : pipe) : Prop := readopen pi' = readopen pi /\ writeopen pi' = writeopen pi.

Lemma push_ok pi l ch : pipe_ok pi l -> Z.of_nat (length l) < PIPESIZE ->
  exists pi', push ch pi = Done pi' /\ pipe_ok pi' (l ++ [ch]) /\ same_flags pi pi' /\ nread pi' = nread pi.
Proof.
  intros K Hl. unfold push. destruct (data_at pi l (nwrite pi) K) as [b Eb]. rewrite Eb. ocbn.
  eexists. split; [reflexivity|]. split; [|done]. pose proof K as []. constructor; cbn [data nread nwrite].
  - by rewrite length_insert.
  - done.
  - apply u32_range.
  - rewrite length_app. cbn. lia.
  - rewrite length_app, pk_count0. cbn [length]. unfold u32. rewrite Zplus_mod_idemp_l. f_equal. lia.
  - assert (nwrite pi mod PIPESIZE = (nread pi + Z.of_nat (length l)) mod PIPESIZE) as Ei by (by rewrite pk_count0, index_u32).
    rewrite Ei. intros k c Ek. apply lookup_app_Some in Ek as [Ek|[Hk Ek]].
    + rewrite list_lookup_insert_ne; [by apply pk_byte0|]. pose proof (index_range (nread pi + Z.of_nat (length l))).
      pose proof (index_range (nread pi + Z.of_nat k)). apply lookup_lt_Some in Ek. intros E%Z2Nat.inj; [|lia..].
      apply index_inj in E; [lia|lia..].
    + destruct (k - length l)%nat eqn:Ekl; [|done]. injection Ek as ->. replace k with (length l) by lia.
      apply list_lookup_insert_eq. rewrite pk_data0. pose proof (index_range (nread pi + Z.of_nat (length l))).
      unfold PIPESIZE in *. lia.
Qed.

(** Taking the oldest byte. *)
Lemma pop_ok pi ch l : pipe_ok pi (ch :: l) ->
  data pi !! Z.to_nat (nread pi mod PIPESIZE) = Some ch /\
  pipe_ok (Pipe (data pi) (u32 (nread pi + 1)) (nwrite pi) (readopen pi) (writeopen pi)) l.
Proof.
  intros []. split.
  - rewrite <- (Z.add_0_r (nread pi)). by apply (pk_byte0 O).
  - constructor; cbn [data nread nwrite length] in *; try done; try lia.
    + apply u32_range.
    + rewrite pk_count0. unfold u32. rewrite Zplus_mod_idemp_l. f_equal. lia.
    + intros k c Ek. rewrite <- Zplus_mod_idemp_l, index_u32, Zplus_mod_idemp_l.
      replace (nread pi + 1 + Z.of_nat k) with (nread pi + Z.of_nat (S k)) by lia. by apply pk_byte0.
Qed.

(** ** The sections *)

Lemma given_nil src i : given src i i = [].
Proof. unfold given. by rewrite Z.sub_diag. Qed.

Lemma given_cons src i j ch : i < j -> src i = Some ch -> given src i j = ch :: given src (i + 1) j.
Proof.
  intros Hij E. unfold given. rewrite seqZ_cons by lia. cbn. rewrite E. cbn. repeat f_equal; lia.
Qed.

Section sections.
Context {W : Type} `{SM : !Semaphores W}.
Implicit Types (pi : pipe) (w : W).

(** What a section of a write does: [bs] are the bytes it adds. *)
Definition write_result (n : nat) killed src (i : Z) pi l (r : wresult) (bs : list Z) : Prop :=
  bs = given src i (i + Z.of_nat (length bs)) /\ (length bs <= n)%nat /\
  match r with
  | WReturn r => r = -1 /\ (readopen pi = false \/ killed (i + Z.of_nat (length bs)) = true) \/
      r = i + Z.of_nat (length bs) /\ (length bs = n \/ src r = None)
  | WWait j => j = i + Z.of_nat (length bs) /\ (length bs < n)%nat /\ Z.of_nat (length (l ++ bs)) = PIPESIZE
  end.

Lemma write_loop_ok n killed src : forall i pi l w, pipe_ok pi l -> sem_inv w ->
  exists r pi' w' bs, pipe_write_loop n killed src i pi w = Done (r, pi', w') /\ sem_inv w' /\
    pipe_ok pi' (l ++ bs) /\ same_flags pi pi' /\ nread pi' = nread pi /\ write_result n killed src i pi l r bs.
Proof.
  induction n as [|n IH]; intros i pi l w K Hw; cbn [pipe_write_loop];
    destruct (sem_signal_ok read_sem w Hw) as (w1 & E1 & Hw1).
  - rewrite E1. ocbn. do 3 eexists. exists []. rewrite app_nil_r. split_and!; try done.
    split_and!; cbn; try (by rewrite Z.add_0_r, given_nil); try lia.
  - destruct (negb (readopen pi) || killed i) eqn:Es.
    { exists (WReturn (-1)), pi, w, []. rewrite app_nil_r. split_and!; try done. split_and!; cbn; try lia.
      - by rewrite Z.add_0_r, given_nil.
      - left. split; [done|]. rewrite Z.add_0_r. destruct (readopen pi); [right|left]; done. }
    rewrite (full_iff _ _ K). case_bool_decide as Hf.
    { rewrite E1. ocbn. exists (WWait i), pi, w1, []. rewrite app_nil_r. split_and!; try done.
      split_and!; cbn; try lia; [by rewrite Z.add_0_r, given_nil|by rewrite app_nil_r]. }
    destruct (src i) as [ch|] eqn:Ech.
    2: { rewrite E1. ocbn. exists (WReturn i), pi, w1, []. rewrite app_nil_r. split_and!; try done.
      split_and!; cbn; try lia; [by rewrite Z.add_0_r, given_nil|]. right. split; [lia|by right]. }
    destruct (push_ok pi l ch K) as (pi1 & Ep & K1 & [Hr1 Hw1'] & Hn1); [pose proof (pk_length _ _ K); lia|].
    rewrite Ep. ocbn. destruct (IH (i + 1) pi1 _ w K1 Hw) as (r & pi2 & w2 & bs & E2 & Hw2 & K2 & [Hr2 Hw2'] & Hn2 & Hbs & Hle & Hres).
    exists r, pi2, w2, (ch :: bs). rewrite <- app_assoc in K2.
    assert (i + Z.of_nat (length (ch :: bs)) = i + 1 + Z.of_nat (length bs)) as El by (cbn [length]; lia).
    split_and!; try done; try congruence. { split; congruence. } split_and!.
    + rewrite El, (given_cons src i _ ch) by (done || lia). by f_equal.
    + cbn. lia.
    + rewrite El. rewrite <- app_assoc in Hres. destruct r as [r|j].
      * rewrite <- Hr1. destruct Hres as [?|[? [?|?]]]; [by left|right|right]; split; try done; [left; cbn; lia|by right].
      * cbn [length]. destruct Hres as (? & ? & ?). split_and!; [done|lia|done].
Qed.

Lemma read_loop_ok n dst : forall i pi l, pipe_ok pi l ->
  exists r bs pi' l', pipe_read_loop n dst i pi = Done (r, bs, pi') /\ l = bs ++ l' /\ pipe_ok pi' l' /\
    same_flags pi pi' /\ r = i + Z.of_nat (length bs) /\ (length bs <= n)%nat /\
    (length bs = n \/ l' = [] \/ dst r = false).
Proof.
  induction n as [|n IH]; intros i pi l K; cbn [pipe_read_loop].
  { exists i, [], pi, l. split_and!; try done; cbn; lia. }
  rewrite (empty_iff _ _ K). destruct l as [|ch l].
  { rewrite bool_decide_eq_true_2 by done. exists i, [], pi, []. split_and!; try done; cbn; try lia; auto. }
  rewrite bool_decide_eq_false_2 by done. destruct (pop_ok _ _ _ K) as [Ech K1]. rewrite Ech. ocbn.
  destruct (dst i) eqn:Ed.
  2: { exists i, [], pi, (ch :: l). split_and!; try done; cbn; try lia. auto. }
  destruct (IH (i + 1) _ l K1) as (r & bs & pi2 & l2 & E2 & -> & K2 & [H1 H2] & -> & Hle & Hend).
  rewrite E2. ocbn. exists (i + 1 + Z.of_nat (length bs)), (ch :: bs), pi2, l2. split_and!; try done; cbn [length]; try lia.
  destruct Hend as [?|[?|?]]; [left; lia|auto|auto].
Qed.

Lemma pipe_write_ok killed src n i pi l w : pipe_ok pi l -> sem_inv w ->
  exists r pi' w' bs, pipe_write killed src n i pi w = Done (r, pi', w') /\ sem_inv w' /\
    pipe_ok pi' (l ++ bs) /\ same_flags pi pi' /\ wrote src i pi pi' = bs /\
    write_result (Z.to_nat (n - i)) killed src i pi l r bs.
Proof.
  intros K Hw. destruct (write_loop_ok (Z.to_nat (n - i)) killed src i pi l w K Hw)
    as (r & pi' & w' & bs & E & Hw' & K' & Hf & Hn & Hr).
  exists r, pi', w', bs. split_and!; try done. pose proof Hr as (Hbs & _). unfold wrote. etrans; [|symmetry; exact Hbs]. do 2 f_equal.
  rewrite (pk_count _ _ K), (pk_count _ _ K'), Hn, length_app. pose proof (pk_length _ _ K') as Hl.
  rewrite length_app in Hl. unfold u32, PIPESIZE in *. rewrite <- Zminus_mod, Z.mod_small; lia.
Qed.

(** What a section of a read does with the contents [l]: [bs] are the bytes
    delivered, [l'] those that stay. *)
Definition read_result (killed : bool) (dst : Z -> bool) (n : Z) pi l (r : rresult) (l' : list Z) : Prop :=
  match r with
  | RWait => l = [] /\ writeopen pi = true /\ killed = false /\ l' = []
  | RReturn r bs =>
      l = bs ++ l' /\
      (r = -1 /\ bs = [] /\ l = [] /\ writeopen pi = true /\ killed = true \/
       (l = [] -> writeopen pi = false) /\ r = Z.of_nat (length bs) /\ (length bs <= Z.to_nat n)%nat /\
         (length bs = Z.to_nat n \/ l' = [] \/ dst r = false))
  end.

Lemma pipe_read_ok killed dst n pi l w : pipe_ok pi l -> sem_inv w ->
  exists r pi' w' l', pipe_read killed dst n pi w = Done (r, pi', w') /\ sem_inv w' /\
    pipe_ok pi' l' /\ same_flags pi pi' /\ read_result killed dst n pi l r l'.
Proof.
  intros K Hw. unfold pipe_read. rewrite (empty_iff _ _ K). case_match eqn:Ee.
  - apply andb_true_iff in Ee as [El%bool_decide_eq_true Ewo]. subst l. destruct killed.
    + exists (RReturn (-1) []), pi, w, []. split_and!; try done. split; [done|]. left. done.
    + exists RWait, pi, w, []. done.
  - destruct (read_loop_ok (Z.to_nat n) dst 0 pi l K) as (r & bs & pi' & l' & E & -> & K' & Hf & -> & Hle & Hend).
    rewrite E. ocbn. destruct (sem_signal_ok write_sem w Hw) as (w' & E' & Hw'). rewrite E'. ocbn.
    exists (RReturn (0 + Z.of_nat (length bs)) bs), pi', w', l'. split_and!; try done. split; [done|]. right.
    split_and!; try done. intros Hl. rewrite Hl, bool_decide_eq_true_2 in Ee by done. done.
Qed.

Lemma pipe_close_ok writable pi l w : pipe_ok pi l -> sem_inv w ->
  exists b pi' w', pipe_close writable pi w = Done (b, pi', w') /\ sem_inv w' /\ pipe_ok pi' l /\
    readopen pi' = (writable && readopen pi) /\ writeopen pi' = (negb writable && writeopen pi) /\
    b = negb (readopen pi' || writeopen pi').
Proof.
  intros [] Hw. unfold pipe_close. destruct writable.
  - destruct (sem_signal_ok read_sem w Hw) as (w' & E & Hw'). rewrite E. ocbn. do 3 eexists.
    split; [reflexivity|]. split_and!; try done. by rewrite negb_orb.
  - destruct (sem_signal_ok write_sem w Hw) as (w' & E & Hw'). rewrite E. ocbn. do 3 eexists.
    split; [reflexivity|]. split_and!; try done.
Qed.

Definition fifo_inv (g : pconf W) : Prop :=
  exists l, pipe_ok (pp g) l /\ sent g = received g ++ l /\ sem_inv (world g).

Lemma pstep_ok g g' : fifo_inv g -> pstep g g' -> fifo_inv g'.
Proof.
  intros (l & K & El & Hw) St. destruct St as [t k g _ _|t killed src n i g r pi w _ E|t killed dst n g r pi w _ E|writable g pi w E|g w Hw'].
  - by exists l.
  - destruct (pipe_write_ok killed src n i _ l _ K Hw) as (r' & pi' & w' & bs & E' & Hw' & K' & _ & Hbs & _).
    rewrite E in E'. apply (inj Done) in E'. injection E' as <- <- <-. exists (l ++ bs). cbn [pp sent received world].
    split_and!; try done. by rewrite Hbs, El, app_assoc.
  - destruct (pipe_read_ok killed dst n _ l _ K Hw) as (r' & pi' & w' & l' & E' & Hw' & K' & _ & Hr).
    rewrite E in E'. apply (inj Done) in E'. injection E' as <- <- <-. exists l'. cbn [pp sent received world].
    split_and!; try done. rewrite El, <- app_assoc. f_equal. destruct r as [r bs|]; [by destruct Hr|].
    by destruct Hr as (-> & _ & _ & ->).
  - destruct (pipe_close_ok writable _ l _ K Hw) as (b & pi' & w' & E' & Hw' & K' & _).
    rewrite E in E'. apply (inj Done) in E'. injection E' as <- <- <-. exists l. done.
  - by exists l.
Qed.

Lemma pipe_init_ok bytes : length bytes = Z.to_nat PIPESIZE -> pipe_ok (pipe_init bytes) [].
Proof. intros Hl. constructor; cbn; try done. Qed.

(** ** Properties *)

(** C18.  A pipe is a bounded queue of bytes.  However the sections of any number
    of writers and readers, closes and events of the semaphores are
    interleaved, the bytes delivered to readers followed by those in the ring
    are the bytes taken from writers, in order, and the ring holds at most
    512, across the wrap of the 32-bit counters.  Each next section returns:
    a writer's has added its next bytes until the call is complete, the ring full, the reader gone or
    its thread killed, or the user's memory unreadable; a reader's waits only on an empty pipe with
    an open write end and otherwise delivers the oldest bytes. *)
Theorem pipe_fifo bytes w0 g : length bytes = Z.to_nat PIPESIZE -> sem_inv w0 ->
  rtc pstep (PConf (pipe_init bytes) w0 ∅ [] []) g ->
  exists l, pipe_ok (pp g) l /\ sent g = received g ++ l /\
    (forall killed src n i, exists r pi w bs,
      pipe_write killed src n i (pp g) (world g) = Done (r, pi, w) /\ pipe_ok pi (l ++ bs) /\
      write_result (Z.to_nat (n - i)) killed src i (pp g) l r bs) /\
    (forall killed dst n, exists r pi w l',
      pipe_read killed dst n (pp g) (world g) = Done (r, pi, w) /\ pipe_ok pi l' /\
      read_result killed dst n (pp g) l r l').
Proof.
  intros Hl Hw R. assert (fifo_inv g) as (l & K & El & Hwg).
  { eapply (rtc_ind_r fifo_inv); [|intros y z _ St IH; by eapply pstep_ok|exact R].
    exists []. split; [by apply pipe_init_ok|done]. }
  exists l. split_and!; [done..| |].
  - intros killed src n i. destruct (pipe_write_ok killed src n i _ l _ K Hwg) as (r & pi & w & bs & E & _ & K' & _ & _ & Hr).
    by exists r, pi, w, bs.
  - intros killed dst n. destruct (pipe_read_ok killed dst n _ l _ K Hwg) as (r & pi & w & l' & E & _ & K' & _ & Hr).
    by exists r, pi, w, l'.
Qed.
End sections.

(** ** The kernel's semaphores *)

(** The two semaphores of a pipe, at the addresses [ar] and [aw], and the scheduler. *)
Record pipe_sems (W : Type) := PSems { pconf_of : conf W; rsem : semaphore; wsem : semaphore }.
Arguments PSems {W}.
Arguments pconf_of {W}.
Arguments rsem {W}.
Arguments wsem {W}.

Section kernel.
Context {W : Type} `{LO : !ListOps qid qnode W, LH : !ListHeap qid qnode W, IN : !IdleNodes qid qnode W}.
Context (HS : gset qid) (XS : gset qnode) (ar aw : Z).

Definition kernel_signal (q : which_sem) (w : pipe_sems W) : outcome (pipe_sems W) :=
  match q with
  | read_sem => '(k, x) ← sema_signal ar (rsem w) (pconf_of w); Done (PSems x k (wsem w))
  | write_sem => '(k, x) ← sema_signal aw (wsem w) (pconf_of w); Done (PSems x (rsem w) k)
  end.

Definition kernel_inv (w : pipe_sems W) : Prop :=
  (exists L, conf_ok HS XS ∅ (pconf_of w) L) /\ ready_queue ar (pconf_of w) /\ ready_queue aw (pconf_of w).

Lemma sema_signal_calm a k x L : conf_ok HS XS ∅ x L -> ready_queue a x ->
  exists k' x', sema_signal a k x = Done (k', x') /\ (exists L', conf_ok HS XS ∅ x' L') /\ calm (sch x) (sch x').
Proof.
  intros K Hr. unfold sema_signal. destruct (sema_post k) as [k' []].
  - destruct (signal_ok HS XS ∅ x L a K Hr) as (L' & x' & E & HL). rewrite E. ocbn. do 2 eexists.
    split; [reflexivity|]. split; [eauto|]. apply bind_Done in E as (s & Es & E). apply (inj Done) in E. subst x'.
    by eapply cond_signal_calm.
  - do 2 eexists. split; [reflexivity|]. split; [eauto|apply calm_refl].
Qed.

Lemma kernel_signal_ok q w : kernel_inv w -> exists w', kernel_signal q w = Done w' /\ kernel_inv w'.
Proof.
  intros ([L K] & Hr & Hw). destruct q; unfold kernel_signal.
  - destruct (sema_signal_calm ar (rsem w) _ L K Hr) as (k & x & E & HL & [_ Hc]). rewrite E. ocbn.
    eexists. split; [reflexivity|]. split; [done|]. split; by apply Hc.
  - destruct (sema_signal_calm aw (wsem w) _ L K Hw) as (k & x & E & HL & [_ Hc]). rewrite E. ocbn.
    eexists. split; [reflexivity|]. split; [done|]. split; by apply Hc.
Qed.

Definition kernel_semaphores : Semaphores (pipe_sems W) := {|
  sem_signal := kernel_signal;
  sem_inv := kernel_inv;
  sem_signal_ok := kernel_signal_ok
|}.
End kernel.

(** A pipe whose semaphores are at 7 and 8; thread 0 writes, thread 1 reads. *)
#[local] Instance demo_semaphores : Semaphores (pipe_sems demo_mem) := kernel_semaphores demo_queues demo_qnodes 7 8.

Definition demo_inits : list (Z * event) := [(0, Call (CondInit 7)); (0, Call (CondInit 8))].
Definition demo_sems : pipe_sems demo_mem :=
  PSems (cpus (result demo_start (play demo_queues demo_inits demo_start))) (Sem 0 0) (Sem 0 0).

Lemma demo_sems_inv : sem_inv demo_sems.
Proof.
  split; [|split; vm_compute; reflexivity].
  apply (demo_quiet demo_inits); [apply result_Done|]; vm_compute; reflexivity.
Qed.

Definition demo_src (i : Z) : option Z := Some (97 + i).
Definition demo_pipe : pconf (pipe_sems demo_mem) := PConf (pipe_init (replicate 512 0)) demo_sems ∅ [] [].

Definition wrote_3 : wresult * pipe * pipe_sems demo_mem :=
  result (WWait 0, pp demo_pipe, demo_sems) (pipe_write (fun _ => false) demo_src 3 0 (pp demo_pipe) demo_sems).
Definition read_2 : rresult * pipe * pipe_sems demo_mem :=
  result (RWait, pp demo_pipe, demo_sems) (pipe_read false (fun _ => true) 2 wrote_3.1.2 wrote_3.2).

Lemma result_3 {A B C} (d : A * B * C) m : returned m = true ->
  m = Done ((result d m).1.1, (result d m).1.2, (result d m).2).
Proof. by destruct m as [[[a b] c]| | |]. Qed.

Lemma wrote_3_eq : pipe_write (fun _ => false) demo_src 3 0 (pp demo_pipe) demo_sems = Done (wrote_3.1.1, wrote_3.1.2, wrote_3.2).
Proof. apply result_3. vm_compute. reflexivity. Qed.
Lemma read_2_eq : pipe_read false (fun _ => true) 2 wrote_3.1.2 wrote_3.2 = Done (read_2.1.1, read_2.1.2, read_2.2).
Proof. apply result_3. vm_compute. reflexivity. Qed.

Lemma pipe_fifo_witness : exists g, rtc pstep demo_pipe g /\ sent g = [97; 98; 99] /\ received g = [97; 98] /\
  exists l, pipe_ok (pp g) l /\ sent g = received g ++ l.
Proof.
  eassert (rtc pstep demo_pipe _) as R.
  { eapply rtc_l; [apply (p_call 0 (CWrite demo_src 3 0)); reflexivity|].
    eapply rtc_l; [apply (p_call 1 (CRead (fun _ => true) 2)); reflexivity|].
    eapply rtc_l; [apply (p_write 0 (fun _ => false) demo_src 3 0 _ wrote_3.1.1 wrote_3.1.2 wrote_3.2);
      [reflexivity|exact wrote_3_eq]|].
    eapply rtc_l; [apply (p_read 1 false (fun _ => true) 2 _ read_2.1.1 read_2.1.2 read_2.2);
      [reflexivity|exact read_2_eq]|]. apply rtc_refl. }
  destruct (pipe_fifo (replicate 512 0) demo_sems _ eq_refl demo_sems_inv R) as (l & K & E & _).
  eexists. split; [exact R|]. split; [vm_compute; reflexivity|]. split; [vm_compute; reflexivity|]. by exists l.
Defined.
