(* ===== verification/Futex.v ===== *)
(** * Futex: the futexes of [src/atomic/futex.c]

    A futex is a queue of threads, found by the user's address through the hash
    table [futex_map] and allocated while threads wait on it.  The routines are
    modelled over the hash tables of [Hash], the page allocator behind them and
    the scheduler of [Cpus]; the theorem sees all of it as a map from
    addresses to the lists of threads waiting there. *)

From stdpp Require Import base gmap sets list fin_maps functions.
From Stdlib Require Import ZArith Lia.
From S2P Require Import Prelude KList Buddy Kalloc PageAlloc Hash Sched Cpus.
#[local] Open Scope Z_scope.

(** A lock of 24 bytes and a queue of 80. *)
Definition sizeof_futex : Z := 24 + 80.

Definition FUTEX_PRIVATE_FLAG : Z := 128.
Definition FUTEX_CLOCK_REALTIME : Z := 256.
Definition FUTEX_CMD_MASK : Z := Z.lnot (Z.lor FUTEX_PRIVATE_FLAG FUTEX_CLOCK_REALTIME).
Definition FUTEX_WAIT : Z := 0.
Definition FUTEX_WAKE : Z := 1.
Definition FUTEX_REQUEUE : Z := 3.

(** How [futex_wait] leaves its critical section. *)
Inductive fwait := FReturns (r : Z) | FSleeps.

Section futex.
Context {W HW A : Type} `{!ListOps qid qnode W, !ListOps (Z * Z) Z HW, !PageAlloc A}.
(** The address of [futex_map]. *)
Context (fm : Z).

(** The hash tables with the allocator, and the scheduler with the cpus. *)
Record fstate := FSt { f_hash : hstate HW A; f_cpus : conf W }.

Definition f_with_hash (h : hstate HW A) (s : fstate) : fstate := FSt h (f_cpus s).
Definition f_with_cpus (x : conf W) (s : fstate) : fstate := FSt (f_hash s) x.
Definition f_sched (f : ksched W -> outcome (ksched W)) (s : fstate) : outcome fstate :=
  x ← stays f (f_cpus s); Done (f_with_cpus x s).

(** The futex at address [fp]; its queue goes by that address. *)
Definition futex_init (fp : Z) (s : fstate) : outcome fstate :=
  f_sched (Queue_init (waiting_queue fp) TCB_WAIT_QUEUE) s.

Definition get_futex (uaddr : Z) (assert : bool) (s : fstate) : outcome (option Z * fstate) :=
  '(node, _, h) ← hash_lookup fm (KPtr uaddr) true false (f_hash s);
  let s := f_with_hash h s in
  match node with
  | Some n => nd ← deref (hs_nodes h !! n); Done (Some (hn_value nd), s)
  | None =>
      if assert then Done (None, s)
      else
        '(p, a) ← pa_kmalloc sizeof_futex (hs_al h);
        match p with
        | None => Panic
        | Some fp =>
            s ← futex_init fp (f_with_hash (hs_with_al a h) s);
            h ← hash_insert fm (KPtr uaddr) fp false (f_hash s);
            Done (Some fp, f_with_hash h s)
        end
  end.

(** The queue is gone with the memory that held it. *)
Definition drop_queue (fp : Z) (s : fstate) : fstate :=
  let k := sch (f_cpus s) in
  f_with_cpus (Conf (KSched (delete (waiting_queue fp) (queues k)) (threads k) (procs k) (qlists k))
    (cpu_thread (f_cpus s))) s.

(** [hash_delete] releases the futex, the value of its entry. *)
Definition futex_free (uaddr : Z) (s : fstate) : outcome fstate :=
  '(node, _, _) ← hash_lookup fm (KPtr uaddr) true false (f_hash s);
  h ← hash_delete fm (KPtr uaddr) false true (f_hash s);
  let freed := match node with
    | Some n => match hs_nodes (f_hash s) !! n with Some nd => drop_queue (hn_value nd) | None => id end
    | None => id
    end in
  Done (f_with_hash h (freed s)).

(** [futex_wait] by the thread of cpu [c] up to the switch; [u_val] is what
    [copyin] reads at [uaddr], nothing when it fails. *)
Definition futex_wait (c uaddr : Z) (u_val : option Z) (val : Z) (s : fstate) : outcome (fwait * fstate) :=
  match u_val with
  | None => Done (FReturns (-1), s)
  | Some v =>
      if v =? val then
        '(fp, s) ← get_futex uaddr false s;
        fp ← deref fp;
        x ← leaves c (cond_wait fp) (f_cpus s);
        Done (FSleeps, f_with_cpus x s)
      else Done (FReturns 0, s)
  end.

(** Waking the thread taken from a futex's queue. *)
Definition futex_wake_one (o : option qobj) (s : ksched W) : outcome (ksched W) :=
  match o with None => Panic | _ => cond_wake_one o s end.

Fixpoint wake_loop (fuel : nat) (fp nr_wake ret : Z) (s : ksched W) : outcome (Z * ksched W) :=
  match fuel with
  | O => NoFuel
  | S fuel =>
      e ← Queue_isempty (waiting_queue fp) s;
      if negb e && (ret <? nr_wake) then
        '(o, s) ← Queue_provide_atomic (waiting_queue fp) true s;
        s ← futex_wake_one o s;
        wake_loop fuel fp nr_wake (ret + 1) s
      else Done (ret, s)
  end.

(** One more turn than there are threads. *)
Definition wake_fuel (s : fstate) : nat := S (size (threads (sch (f_cpus s)))).

Definition futex_wakeup (uaddr nr_wake : Z) (s : fstate) : outcome (Z * fstate) :=
  '(fp, s) ← get_futex uaddr true s;
  match fp with
  | None => Done (0, s)
  | Some fp =>
      '(ret, k) ← wake_loop (wake_fuel s) fp nr_wake 0 (sch (f_cpus s));
      let s := f_with_cpus (Conf k (cpu_thread (f_cpus s))) s in
      e ← Queue_isempty_atomic (waiting_queue fp) k;
      s ← (if (e : bool) then futex_free uaddr s else Done s);
      Done (ret, s)
  end.

Fixpoint requeue_loop (fuel : nat) (fp_old fp_new nr_requeue ret : Z) (s : ksched W) : outcome (Z * ksched W) :=
  match fuel with
  | O => NoFuel
  | S fuel =>
      e ← Queue_isempty_atomic (waiting_queue fp_old) s;
      if negb e && (ret <? nr_requeue) then
        '(o, s) ← Queue_provide_atomic (waiting_queue fp_old) true s;
        match o with
        | Some (Tcb t) =>
            b ← is_state t TCB_SLEEPING s;
            if negb b then Panic
            else
              s ← Queue_push_back_atomic (waiting_queue fp_new) (Tcb t) s;
              requeue_loop fuel fp_old fp_new nr_requeue (ret + 1) s
        | _ => Panic
        end
      else Done (ret, s)
  end.

Definition futex_requeue (uaddr1 nr_wake uaddr2 nr_requeue : Z) (s : fstate) : outcome (Z * fstate) :=
  '(_, s) ← futex_wakeup uaddr1 nr_wake s;
  '(fp_old, s) ← get_futex uaddr1 true s;
  match fp_old with
  | None => Done (0, s)
  | Some fp_old =>
      '(fp_new, s) ← get_futex uaddr2 false s;
      fp_new ← deref fp_new;
      '(ret, k) ← requeue_loop (wake_fuel s) fp_old fp_new nr_requeue 0 (sch (f_cpus s));
      let s := f_with_cpus (Conf k (cpu_thread (f_cpus s))) s in
      e ← Queue_isempty_atomic (waiting_queue fp_old) k;
      s ← (if (e : bool) then futex_free uaddr1 s else Done s);
      Done (ret, s)
  end.

Definition do_futex (c uaddr op : Z) (u_val : option Z) (val uaddr2 val2 : Z) (s : fstate) : outcome (fwait * fstate) :=
  let cmd := Z.land op FUTEX_CMD_MASK in
  if cmd =? FUTEX_WAIT then futex_wait c uaddr u_val val s
  else if cmd =? FUTEX_WAKE then '(r, s) ← futex_wakeup uaddr (s32 val) s; Done (FReturns r, s)
  else if cmd =? FUTEX_REQUEUE then '(r, s) ← futex_requeue uaddr (s32 val) uaddr2 (s32 val2) s; Done (FReturns r, s)
  else Panic.
End futex.
Arguments fstate : clear implicits.

(** ** Waking from one queue *)

Section wake.
Context {W : Type} `{LO : !ListOps qid qnode W, LH : !ListHeap qid qnode W, IN : !IdleNodes qid qnode W}.
Context (HS : gset qid) (XS : gset qnode).
Implicit Types (s : ksched W) (L : gmap qid (list qnode)).

(** The threads of a list wait on other queues than the thread woken. *)
Lemma signalled_other s L a b t l l' : sched_ok HS XS ∅ s L -> L !! waiting_queue a = Some (wait_list t :: l) ->
  a <> b -> L !! waiting_queue b = Some l' -> signalled L t !! waiting_queue b = Some l'.
Proof.
  intros K El Hab El'. unfold signalled.
  rewrite (moved_lookup _ _ _ (waiting_queue b) l').
  - rewrite decide_False by done. rewrite app_nil_r. f_equal. apply filter_not_in. intros Hn.
    destruct (waiting_member HS XS s L b l' _ K El' Hn) as (u & v & E & _). discriminate E.
  - rewrite (without_lookup _ _ _ _ El'). f_equal. apply filter_not_in. intros Hn.
    destruct (waiting_member HS XS s L b l' _ K El' Hn) as (u & v & [= <-] & Et & Ew & _).
    destruct (waiting_member HS XS s L a _ (wait_list t) K El (list_elem_of_here _ _)) as (u & v' & [= <-] & Et' & Ew' & _).
    congruence.
Qed.

Lemma wake_first_loop s L a o s1 s' : sched_ok HS XS ∅ s L ->
  Queue_provide_atomic (waiting_queue a) true s = Done (o, s1) -> cond_wake_one o s1 = Done s' ->
  futex_wake_one o s1 = Done s'.
Proof. intros K E1 E2. unfold futex_wake_one. by destruct o. Qed.

(** What waking the first [m] threads of the list [l] of queue [a] did. *)
Record woke (a : Z) (l : list Z) (m : nat) s L s' L' : Prop := {
  wk_queue : L' !! waiting_queue a = Some (wait_list <$> drop m l);
  wk_other b l' : a <> b -> L !! waiting_queue b = Some l' -> L' !! waiting_queue b = Some l';
  wk_woken t : t ∈ take m l -> threads s' !! t = Some (MkTcb TCB_RUNNABLE None);
  wk_threads t : t ∉ take m l -> threads s' !! t = threads s !! t;
  wk_queues : queues s' = queues s
}.

Lemma wake_loop_ok a nr cur l : forall fuel ret s L, conf_ok HS XS ∅ (Conf s cur) L ->
  queues s !! waiting_queue a = Some TCB_WAIT_QUEUE -> L !! waiting_queue a = Some (wait_list <$> l) ->
  (length l < fuel)%nat ->
  let m := Nat.min (Z.to_nat (nr - ret)) (length l) in
  exists s' L', wake_loop fuel a nr ret s = Done (ret + Z.of_nat m, s') /\ conf_ok HS XS ∅ (Conf s' cur) L' /\
    woke a l m s L s' L'.
Proof.
  induction l as [|t l IH]; intros fuel ret s L K Eq El Hf m; (destruct fuel as [|fuel]; [cbn in Hf; lia|]);
    pose proof (ck_sched _ _ _ _ _ K) as Ks; cbn [sch] in Ks; cbn [wake_loop]; unfold Queue_isempty;
    rewrite (lh_empty_rep HS XS _ L _ _ (pl_rep _ _ _ _ _ _ (sk_placed _ _ _ _ _ Ks)) El); ocbn.
  { subst m. rewrite Nat.min_0_r. exists s, L. rewrite Z.add_0_r. split_and!; [done..|]. constructor; try done.
    intros u Hu. by apply not_elem_of_nil in Hu. }
  rewrite bool_decide_eq_false_2 by done. cbn [negb andb]. destruct (Z.ltb_spec ret nr) as [Hlt|Hge].
  2: { assert (m = O) as -> by (subst m; lia). exists s, L. rewrite Z.add_0_r. split_and!; [done..|]. constructor; try done.
    intros u Hu. by apply not_elem_of_nil in Hu. }
  destruct (wake_first HS XS s L a t _ Ks Eq El) as (s1 & E1 & H1).
  apply bind_Done in E1 as ([o s0] & E0 & E1). rewrite E0. ocbn.
  rewrite (wake_first_loop s L a o s0 s1 Ks E0 E1). ocbn.
  destruct (waiting_member HS XS s L a _ (wait_list t) Ks El (list_elem_of_here _ _)) as (t' & v & [= <-] & Et & _ & Hs).
  pose proof (stays_ok HS XS _ _ s L cur s1 _ t _ K H1) as K1.
  destruct (IH fuel (ret + 1) s1 (signalled L t)) as (s2 & L2 & E2 & K2 & H2).
  - apply K1; [|done]. intros (w & Ew & Hw)%thread_is_at. cbn in *. congruence.
  - destruct H1 as (_ & _ & Q1 & _). by rewrite Q1.
  - eapply signalled_rest; [done..|]. intros n Hn. apply list_elem_of_fmap in Hn as (u & -> & _). eauto.
  - cbn in Hf. lia.
  - set (m' := Nat.min (Z.to_nat (nr - (ret + 1))) (length l)) in *.
    assert (m = S m') as -> by (subst m m'; cbn [length]; lia).
    exists s2, L2. split_and!; [rewrite E2; do 2 f_equal; lia|done|].
    destruct H1 as (_ & ET & Q1 & _), H2 as [Hq Ho Hwk Hth Hqs].
    pose proof (lh_rep_NoDup HS XS _ L _ _ (pl_rep _ _ _ _ _ _ (sk_placed _ _ _ _ _ Ks)) El) as Hnd.
    apply NoDup_fmap_1, (NoDup_mid t []) in Hnd as [Hnot _].
    assert (t ∉ take m' l) as Hnt by (intros Hin; apply Hnot; cbn; rewrite <- (take_drop m' l); apply elem_of_app; by left).
    constructor; try done.
    + intros b l' Hab El'. apply Ho; [done|]. by eapply signalled_other.
    + intros u [->|Hu]%elem_of_cons; [|by apply Hwk]. by rewrite Hth, ET, lookup_insert_eq.
    + intros u Hu. cbn [take] in Hu. apply not_elem_of_cons in Hu as [Hne Hu].
      rewrite Hth, ET by done. by rewrite lookup_insert_ne.
    + by rewrite Hqs.
Qed.
End wake.

(** ** Futexes as a map to lists of threads *)

Section futexes.
Context {W HW A : Type} `{LO : !ListOps qid qnode W, LH : !ListHeap qid qnode W, IN : !IdleNodes qid qnode W}.
Context `{HLO : !ListOps (Z * Z) Z HW, HLH : !ListHeap (Z * Z) Z HW, HIN : !IdleNodes (Z * Z) Z HW}.
Context `{PA : !PageAlloc A, PAOK : !PageAllocOk A}.
Context (HS : gset qid) (XS : gset qnode) (HHS : gset (Z * Z)) (HXS : gset Z).
Context (Hpages : forall q, 0 <= q < NPAGES -> page_to_pa q ∈ HXS).
Context (Hqueues : forall q, 0 <= q < NPAGES -> waiting_queue (page_to_pa q) ∈ HS).
Context (fm : Z).
Implicit Types (st : fstate W HW A) (F : gmap Z (list Z)) (E : gmap (Z * Z) hentry) (R : gmap Z (Z * Z)).

(** The condition variables of other objects are not at the start of a page. *)
Definition elsewhere (a : Z) : Prop := forall q, 0 <= q < NPAGES -> a <> page_to_pa q.

Record futex_ok st F L HL E R tb : Prop := {
  fo_hash : hash_ok HHS HXS (f_hash st) HL E R;
  fo_tab : hs_tabs (f_hash st) !! fm = Some tb /\ ht_type tb = FUTEX_MAP /\ ht_lock tb = false;
  fo_conf : conf_ok HS XS ∅ (f_cpus st) L;
  fo_queue u : match F !! u with
    | Some l => exists e, E !! (fm, u) = Some e /\ ready_queue (he_value e) (f_cpus st) /\
        L !! waiting_queue (he_value e) = Some (wait_list <$> l)
    | None => E !! (fm, u) = None end;
  fo_waiters t a : waits (sch (f_cpus st)) t = Some (waiting_queue a) ->
    (exists u e, E !! (fm, u) = Some e /\ he_value e = a) \/ elsewhere a
}.

Definition futex_rep st F : Prop := exists L HL E R tb, futex_ok st F L HL E R tb.

Lemma hash_ok_alloc h HL E R a' R' : hash_ok HHS HXS h HL E R -> pa_rep a' R' ->
  (forall p, owned (hs_al h) R p -> owned a' R' p) -> hash_ok HHS HXS (hs_with_al a' h) HL E R'.
Proof.
  intros K Ha Ho. constructor; cbn [hs_lists hs_al hs_tabs hs_nodes hs_with_al]; [apply K|done|apply K..| |apply K].
  intros t c e Ee. destruct (hk_entry _ _ _ _ _ _ K t c e Ee) as (tb & ? & ? & ? & ? & Hb). exists tb. split_and!; auto.
Qed.

(** The futexes of two addresses are two objects. *)
Lemma futex_inj st F L HL E R tb u1 u2 e1 e2 : futex_ok st F L HL E R tb ->
  E !! (fm, u1) = Some e1 -> E !! (fm, u2) = Some e2 -> he_value e1 = he_value e2 -> u1 = u2.
Proof.
  intros [K (Et & Ety & _) _ _ _] E1 E2 Hv.
  assert ((fm, u1) = (fm, u2)) as [=]; [|done].
  eapply (hk_sep _ _ _ _ _ _ K fm fm u1 u2 e1 e2 tb tb (he_value e1)); try done; unfold he_blocks;
    rewrite Ety; cbn; [|rewrite Hv]; right; left.
Qed.

Lemma futex_owned st F L HL E R tb u e : futex_ok st F L HL E R tb -> E !! (fm, u) = Some e ->
  owned (hs_al (f_hash st)) R (he_value e).
Proof.
  intros [K (Et & Ety & _) _ _ _] Ee. destruct (hk_entry _ _ _ _ _ _ K _ _ _ Ee) as (tb' & Et' & _ & _ & _ & Hb).
  apply Hb. unfold he_blocks. assert (tb' = tb) as -> by congruence. rewrite Ety. right. left.
Qed.

Lemma get_futex_found st F L HL E R tb u b e : futex_ok st F L HL E R tb -> E !! (fm, u) = Some e ->
  get_futex fm u b st = Done (Some (he_value e), st).
Proof.
  intros [K (Et & Ety & El) _ _ _] Ee. unfold get_futex.
  rewrite (hash_lookup_ok HHS HXS _ HL E R fm tb (KPtr u) u true false K Et El) by by rewrite Ety.
  ocbn. rewrite Ee. cbn [fmap option_fmap option_map].
  destruct (hk_entry _ _ _ _ _ _ K _ _ _ Ee) as (_ & _ & En & _).
  change (hs_nodes (locked_tab (negb true) fm tb (f_hash st))) with (hs_nodes (f_hash st)). rewrite En. ocbn.
  cbn [negb]. rewrite <- El, locked_tab_same by done. by destruct st.
Qed.

Lemma get_futex_absent st F L HL E R tb u : futex_ok st F L HL E R tb -> E !! (fm, u) = None ->
  get_futex fm u true st = Done (None, st).
Proof.
  intros [K (Et & Ety & El) _ _ _] Ee. unfold get_futex.
  rewrite (hash_lookup_ok HHS HXS _ HL E R fm tb (KPtr u) u true false K Et El) by by rewrite Ety.
  ocbn. rewrite Ee. cbn [fmap option_fmap option_map negb]. rewrite <- El, locked_tab_same by done. by destruct st.
Qed.

(** There is no page for a new futex, or none for its entry in the table. *)
Definition no_room (a : A) : Prop :=
  pa_kmalloc sizeof_futex a = Done (None, a) \/
  exists p a1, pa_kmalloc sizeof_futex a = Done (Some p, a1) /\ pa_kmalloc sizeof_hash_node a1 = Done (None, a1).

(** The page of a new futex and the one of its entry. *)
Definition took_pages (a a' : A) : Prop :=
  exists p n a1, pa_kmalloc sizeof_futex a = Done (Some p, a1) /\ pa_kmalloc sizeof_hash_node a1 = Done (Some n, a').

Lemma with_lock_same tb : ht_lock tb = false -> with_lock false tb = tb.
Proof. destruct tb. cbn. by intros ->. Qed.

(** A futex for an address that has none: an empty queue. *)
Lemma get_futex_new st F L HL E R tb u : futex_ok st F L HL E R tb -> E !! (fm, u) = None ->
  no_room (hs_al (f_hash st)) /\ (get_futex fm u false st = Panic \/ get_futex fm u false st = Undef) \/
  exists fp st' L' HL' E' R' e, get_futex fm u false st = Done (Some fp, st') /\
    futex_ok st' (<[u := []]> F) L' HL' E' R' tb /\ E' !! (fm, u) = Some e /\ he_value e = fp /\
    cpu_thread (f_cpus st') = cpu_thread (f_cpus st) /\
    threads (sch (f_cpus st')) = threads (sch (f_cpus st)) /\
    (forall u', u <> u' -> E' !! (fm, u') = E !! (fm, u')) /\ took_pages (hs_al (f_hash st)) (hs_al (f_hash st')).
Proof.
  intros Ko Ee. pose proof Ko as [K (Et & Ety & El) Kc Kq Kw]. unfold get_futex.
  rewrite (hash_lookup_ok HHS HXS _ HL E R fm tb (KPtr u) u true false K Et El) by by rewrite Ety.
  ocbn. rewrite Ee. cbn [fmap option_fmap option_map negb].
  pose proof (locked_tab_same fm tb (f_hash st) Et) as Hsame. rewrite El in Hsame. rewrite Hsame.
  destruct (kmalloc_owned (hs_al (f_hash st)) R sizeof_futex (hk_alloc _ _ _ _ _ _ K)) as [Ea|Ha]; [done| |].
  { left. rewrite Ea. ocbn. split; [by left|by left]. }
  destruct Ha as (q & a1 & R1 & Ea & Hq & Ha1 & Hown & Hkeep). rewrite Ea. ocbn.
  set (h1 := hs_with_al a1 (f_hash st)).
  assert (hash_ok HHS HXS h1 HL E R1) as K1 by (apply hash_ok_alloc with R; [done|done|]; intros p Hp; by apply Hkeep).
  assert (forall n, node_home ∅ (threads (sch (f_cpus st))) (procs (sch (f_cpus st))) n <> Some (waiting_queue (page_to_pa q))) as Hno.
  { intros [t|p|t] Hn; cbn in Hn.
    - destruct (threads (sch (f_cpus st)) !! t) as [v|]; [|done]. cbn in Hn. by destruct (t_state v).
    - destruct (procs (sch (f_cpus st)) !! p) as [ps|]; [|done]. cbn in Hn. by destruct ps.
    - destruct (Kw t (page_to_pa q) Hn) as [(u' & e & E' & Hv)|Hel]; [|by apply (Hel q)].
      pose proof (futex_owned _ _ _ _ _ _ _ _ _ Ko E') as Ho. rewrite Hv in Ho. by destruct (Hkeep _ Ho). }
  destruct (Queue_init_ok HS XS _ L (waiting_queue (page_to_pa q)) (ck_sched _ _ _ _ _ Kc) (Hqueues q Hq) Hno)
    as (k & Ek & Kk & ET & _ & EQ).
  unfold futex_init, f_sched, stays. cbn [f_cpus f_with_hash f_with_cpus]. cbn [qtype] in Ek. rewrite Ek. ocbn.
  cbn [f_hash f_with_cpus f_with_hash].
  destruct (hash_insert_ok HHS HXS Hpages h1 HL E R1 fm tb (KPtr u) u (page_to_pa q) false K1) as [[Eh Em]|Hh]; try done.
  { by rewrite Ety. }
  { intros _. split; [exact Hown|]. intros u' d tu e Eu Ee' Hin.
    destruct (hk_entry _ _ _ _ _ _ K _ _ _ Ee') as (tu' & Eu' & _ & _ & _ & Hb).
    change (hs_tabs h1) with (hs_tabs (f_hash st)) in Eu. assert (tu' = tu) as -> by congruence.
    by destruct (Hkeep _ (Hb _ Hin)). }
  { left. rewrite Eh. ocbn. split; [|by right]. right. by exists (page_to_pa q), a1. }
  right. destruct Hh as (h2 & HL2 & R2 & e & Eh & Hu & K2 & Hv & _).
  destruct (hash_insert_al HHS HXS h1 HL E R1 fm tb (KPtr u) u (page_to_pa q) false h2 K1) as [n En]; try done.
  { by rewrite Ety. }
  rewrite Eh. ocbn.
  exists (page_to_pa q). do 5 eexists. exists e. split; [reflexivity|].
  split; [|split_and!; [apply lookup_insert_eq|done|done|exact ET| |];
    [intros u' Hu'; rewrite lookup_insert_ne by congruence; done|by do 3 eexists]].
  constructor; cbn [f_hash f_cpus f_with_hash f_with_cpus].
  - exact K2.
  - rewrite Hu. change (hs_tabs h1) with (hs_tabs (f_hash st)). rewrite with_lock_same, lookup_insert_eq by done. done.
  - destruct Kc as [_ Hc H1]. constructor; [exact Kk| |done]. intros t. unfold thread_is. cbn [sch cpu_thread].
    rewrite ET. apply Hc.
  - intros u'. destruct (decide (u = u')) as [<-|Hne].
    + rewrite !lookup_insert_eq. exists e. split; [done|]. rewrite Hv. unfold ready_queue. cbn [sch]. rewrite EQ.
      split; [apply lookup_insert_eq|]. by rewrite lookup_insert_eq.
    + rewrite lookup_insert_ne by done. specialize (Kq u'). destruct (F !! u') as [l|].
      * destruct Kq as (e' & E' & Hr & Hl). exists e'. rewrite lookup_insert_ne by congruence. split; [done|].
        assert (he_value e' <> page_to_pa q) as Hvne.
        { pose proof (futex_owned _ _ _ _ _ _ _ _ _ Ko E') as Ho. by destruct (Hkeep _ Ho). }
        unfold ready_queue in *. cbn [sch]. rewrite EQ, !lookup_insert_ne by congruence. done.
      * by rewrite lookup_insert_ne by congruence.
  - intros t a Hw. unfold waits in Hw. cbn [sch] in Hw. rewrite ET in Hw.
    destruct (Kw t a Hw) as [(u' & e' & E' & Hv')|Hel]; [left|by right]. exists u', e'.
    rewrite lookup_insert_ne; [done|]. intros [= <-]. congruence.
Qed.

(** *** Waiting *)

Lemma moved_waiting s L t q b l : sched_ok HS XS ∅ s L -> qtype q <> TCB_WAIT_QUEUE ->
  L !! waiting_queue b = Some l -> moved L (state_list t) q !! waiting_queue b = Some l.
Proof.
  intros K Hq El. rewrite (moved_lookup _ _ _ _ _ El). rewrite decide_False by (by intros <-).
  rewrite app_nil_r. f_equal. apply filter_not_in. intros Hn.
  destruct (waiting_member HS XS s L b l _ K El Hn) as (u & _ & E & _). discriminate E.
Qed.

Lemma sleep_ok st F L HL E R tb u e l c t : futex_ok st F L HL E R tb -> E !! (fm, u) = Some e ->
  F !! u = Some l -> cpu_thread (f_cpus st) !! c = Some t ->
  exists x, leaves c (cond_wait (he_value e)) (f_cpus st) = Done x /\
    futex_rep (f_with_cpus x st) (<[u := l ++ [t]]> F) /\ thread_is TCB_SLEEPING t x.
Proof.
  intros Ko Ee Ef Ec. pose proof Ko as [K Htab Kc Kq Kw]. pose proof (Kq u) as Hu. rewrite Ef in Hu.
  destruct Hu as (e' & Ee' & Hr & El). assert (e' = e) as -> by congruence.
  destruct (current_running HS XS _ _ _ _ _ Kc Ec) as (v & Et & Hs).
  destruct (cond_wait_ok HS XS _ L (he_value e) t v _ (ck_sched _ _ _ _ _ Kc) Hr El Et Hs) as (s' & Es & H).
  pose proof (cond_wait_waits _ _ _ _ Es) as [Hwaits _].
  exists (Conf s' (delete c (cpu_thread (f_cpus st)))). split.
  { unfold leaves. rewrite Ec. ocbn. rewrite Es. done. }
  pose proof H as (_ & ET & EQ & _). split; [|unfold thread_is; cbn [sch]; by rewrite ET, lookup_insert_eq].
  eexists _, HL, E, R, tb. constructor; cbn [f_hash f_cpus f_with_cpus]; try done.
  - eapply leaves_ok; [|exact H|exact Ec|done]. by destruct (f_cpus st).
  - intros u'. destruct (decide (u = u')) as [<-|Hne].
    + rewrite lookup_insert_eq. exists e. split; [done|]. unfold ready_queue in *. cbn [sch]. rewrite EQ. split; [done|].
      by rewrite lookup_insert_eq, fmap_app.
    + rewrite lookup_insert_ne by done. specialize (Kq u'). destruct (F !! u') as [l'|]; [|done].
      destruct Kq as (e' & Ee2 & Hr' & El'). exists e'. unfold ready_queue in *. cbn [sch]. rewrite EQ.
      split_and!; try done. assert (he_value e <> he_value e') as Hv by (intros Hv; apply Hne; by eapply futex_inj).
      rewrite lookup_insert_ne by congruence. by apply (moved_waiting _ _ _ _ _ _ (ck_sched _ _ _ _ _ Kc)).
  - intros t' a. rewrite Hwaits. case_decide; [intros [= <-]; left; eauto|apply Kw].
Qed.

Lemma get_futex_any st F L HL E R tb u : futex_ok st F L HL E R tb ->
  no_room (hs_al (f_hash st)) /\ F !! u = None /\ (get_futex fm u false st = Panic \/ get_futex fm u false st = Undef) \/
  exists st' L' HL' E' R' e, get_futex fm u false st = Done (Some (he_value e), st') /\
    futex_ok st' (<[u := default [] (F !! u)]> F) L' HL' E' R' tb /\ E' !! (fm, u) = Some e /\
    cpu_thread (f_cpus st') = cpu_thread (f_cpus st) /\ threads (sch (f_cpus st')) = threads (sch (f_cpus st)) /\
    (forall u', u <> u' -> E' !! (fm, u') = E !! (fm, u')) /\
    match F !! u with
    | Some _ => hs_al (f_hash st') = hs_al (f_hash st)
    | None => took_pages (hs_al (f_hash st)) (hs_al (f_hash st'))
    end.
Proof.
  intros Ko. pose proof (fo_queue _ _ _ _ _ _ _ Ko u) as Hu. destruct (F !! u) as [l|] eqn:Ef; cbn [default].
  - right. destruct Hu as (e & Ee & _). exists st, L, HL, E, R, e.
    rewrite (get_futex_found _ _ _ _ _ _ _ _ _ _ Ko Ee), insert_id by done. done.
  - destruct (get_futex_new _ _ _ _ _ _ _ u Ko Hu) as [[Hno Ep]|Hnew]; [by left|right].
    destruct Hnew as (fp & st1 & L1 & HL1 & E1 & R1 & e & -> & Ko1 & Ee1 & <- & Ecur & ET & Hk & Hp).
    by exists st1, L1, HL1, E1, R1, e.
Qed.

Lemma futex_wait_ok st F c t u v : futex_rep st F -> cpu_thread (f_cpus st) !! c = Some t ->
  no_room (hs_al (f_hash st)) /\ F !! u = None /\
    (futex_wait fm c u (Some v) v st = Panic \/ futex_wait fm c u (Some v) v st = Undef) \/
  exists st', futex_wait fm c u (Some v) v st = Done (FSleeps, st') /\
    futex_rep st' (<[u := default [] (F !! u) ++ [t]]> F) /\ thread_is TCB_SLEEPING t (f_cpus st') /\
    match F !! u with
    | Some _ => hs_al (f_hash st') = hs_al (f_hash st)
    | None => took_pages (hs_al (f_hash st)) (hs_al (f_hash st'))
    end.
Proof.
  intros (L & HL & E & R & tb & Ko) Ec. unfold futex_wait. rewrite Z.eqb_refl.
  destruct (get_futex_any _ _ _ _ _ _ _ u Ko) as [(Hno & Ef & [Ep|Ep])|Hf].
  - left. rewrite Ep. split_and!; [done..|by left].
  - left. rewrite Ep. split_and!; [done..|by right].
  - right. destruct Hf as (st1 & L1 & HL1 & E1 & R1 & e & -> & Ko1 & Ee1 & Ecur & _ & _ & Hp). ocbn.
    destruct (sleep_ok _ _ _ _ _ _ _ u e _ c t Ko1 Ee1 (lookup_insert_eq _ _ _)) as (x & Ex & Hrep & Hsl); [by rewrite Ecur|].
    rewrite Ex. ocbn. rewrite insert_insert_eq in Hrep. eauto.
Qed.

(** *** Waking *)

Lemma drop_queue_ok fp st L : conf_ok HS XS ∅ (f_cpus st) L ->
  (forall t, waits (sch (f_cpus st)) t <> Some (waiting_queue fp)) ->
  conf_ok HS XS ∅ (f_cpus (drop_queue fp st)) L.
Proof.
  intros [K Hc H1] Hno. constructor; [|exact Hc|exact H1]. destruct K as [Kp Kt Kd Kq].
  constructor; [|exact Kt|exact Kd|]; cbn [f_cpus f_with_cpus drop_queue sch queues threads procs qlists].
  - constructor; cbn [queues qlists]; try apply Kp.
    + intros q ty Eq. apply lookup_delete_Some in Eq as [_ Eq]. by apply (pl_queue _ _ _ _ _ _ Kp).
    + intros n q Hn. rewrite lookup_delete_ne; [by apply (pl_home _ _ _ _ _ _ Kp n)|]. intros <-. destruct n as [t|p|t]; cbn in Hn.
      * destruct (threads (sch (f_cpus st)) !! t) as [v|]; [|done]. cbn in Hn. by destruct (t_state v).
      * destruct (procs (sch (f_cpus st)) !! p) as [ps|]; [|done]. cbn in Hn. by destruct ps.
      * by apply (Hno t).
  - intros q Hq. rewrite lookup_delete_ne by (intros <-; done). by apply Kq.
Qed.

(** Giving an empty futex back. *)
Lemma futex_free_ok st F L HL E R tb u e : futex_ok st F L HL E R tb -> E !! (fm, u) = Some e -> F !! u = Some [] ->
  exists st', futex_free fm u st = Done st' /\ futex_rep st' (delete u F) /\
    threads (sch (f_cpus st')) = threads (sch (f_cpus st)) /\ cpu_thread (f_cpus st') = cpu_thread (f_cpus st).
Proof.
  intros Ko Ee Ef. pose proof Ko as [K (Et & Ety & El) Kc Kq Kw]. unfold futex_free.
  rewrite (hash_lookup_ok HHS HXS _ HL E R fm tb (KPtr u) u true false K Et El) by by rewrite Ety.
  ocbn. rewrite Ee. cbn [fmap option_fmap option_map].
  destruct (hk_entry _ _ _ _ _ _ K _ _ _ Ee) as (_ & _ & En & _). rewrite En. cbn [hn_value].
  destruct (hash_delete_ok HHS HXS _ HL E R fm tb (KPtr u) u false true K Et El) as (h' & HL' & R' & -> & Htabs & K');
    [by rewrite Ety|]. ocbn. cbn [negb] in Htabs.
  assert (forall t, waits (sch (f_cpus st)) t <> Some (waiting_queue (he_value e))) as Hno.
  { intros t Hw. pose proof (Kq u) as Hu. rewrite Ef in Hu. destruct Hu as (e' & Ee' & _ & Hl).
    assert (e' = e) as -> by congruence.
    assert (wait_list t ∈ ([] : list qnode)) as Hin; [|by apply not_elem_of_nil in Hin].
    by apply (pl_member _ _ _ _ _ _ (sk_placed _ _ _ _ _ (ck_sched _ _ _ _ _ Kc)) _ _ _ Hl). }
  eexists. split; [reflexivity|]. split; [|done]. exists L, HL', (delete (fm, u) E), R', tb.
  constructor; cbn [f_hash f_cpus f_with_hash].
  - exact K'.
  - rewrite Htabs, with_lock_same, lookup_insert_eq by done. done.
  - by apply drop_queue_ok.
  - intros u'. destruct (decide (u = u')) as [<-|Hne]; [by rewrite !lookup_delete_eq|].
    rewrite lookup_delete_ne by done. specialize (Kq u'). destruct (F !! u') as [l|].
    + destruct Kq as (e' & Ee' & Hr & Hl). exists e'. rewrite lookup_delete_ne by congruence. split_and!; try done.
      unfold ready_queue in *. cbn [f_cpus drop_queue f_with_cpus sch queues]. rewrite lookup_delete_ne; [done|].
      intros [= Hv]. apply Hne. by eapply futex_inj.
    + rewrite lookup_delete_ne by congruence. done.
  - intros t a Hw. destruct (Kw t a Hw) as [(u' & e' & Ee' & Hv)|]; [left|by right]. exists u', e'.
    rewrite lookup_delete_ne; [done|]. intros [= <-]. assert (e' = e) as -> by congruence. subst a. by destruct (Hno t).
Qed.

(** The list of [u] after the first [m] of its threads were woken. *)
Definition woken_list (m : nat) (u : Z) F : gmap Z (list Z) :=
  match F !! u with
  | Some l => match drop m l with [] => delete u F | l' => <[u := l']> F end
  | None => F
  end.

(** The state between the loop and the release of the futex. *)
Lemma woken_futexes st F L HL E R tb u e l m s' L' : futex_ok st F L HL E R tb -> E !! (fm, u) = Some e ->
  F !! u = Some l -> woke (he_value e) l m (sch (f_cpus st)) L s' L' ->
  conf_ok HS XS ∅ (Conf s' (cpu_thread (f_cpus st))) L' ->
  futex_ok (f_with_cpus (Conf s' (cpu_thread (f_cpus st))) st) (<[u := drop m l]> F) L' HL E R tb.
Proof.
  intros Ko Ee Ef [Hq Ho Hwk Hth Hqs] K'. pose proof Ko as [K Htab Kc Kq Kw].
  constructor; cbn [f_hash f_cpus f_with_cpus]; try done.
  - intros u'. destruct (decide (u = u')) as [<-|Hne].
    + rewrite lookup_insert_eq. exists e. split; [done|]. pose proof (Kq u) as Hu. rewrite Ef in Hu.
      destruct Hu as (e' & Ee' & Hr & _). assert (e' = e) as -> by congruence.
      unfold ready_queue in *. cbn [sch]. by rewrite Hqs.
    + rewrite lookup_insert_ne by done. specialize (Kq u'). destruct (F !! u') as [l'|]; [|done].
      destruct Kq as (e' & Ee2 & Hr' & El'). exists e'. unfold ready_queue in *. cbn [sch]. rewrite Hqs.
      split_and!; try done. apply Ho; [|done]. intros Hv. apply Hne. by eapply futex_inj.
  - intros t a. unfold waits. cbn [sch]. destruct (decide (t ∈ take m l)) as [Hin|Hn].
    + by rewrite Hwk.
    + rewrite Hth by done. apply Kw.
Qed.

Lemma futex_wakeup_ok st F u nr : futex_rep st F ->
  let l := default [] (F !! u) in let m := Nat.min (Z.to_nat nr) (length l) in
  exists st', futex_wakeup fm u nr st = Done (Z.of_nat m, st') /\ futex_rep st' (woken_list m u F) /\
    (forall t, t ∈ take m l -> threads (sch (f_cpus st')) !! t = Some (MkTcb TCB_RUNNABLE None)) /\
    (forall t, t ∉ take m l -> threads (sch (f_cpus st')) !! t = threads (sch (f_cpus st)) !! t) /\
    (drop m l <> [] -> f_hash st' = f_hash st).
Proof.
  intros (L & HL & E & R & tb & Ko) l m. pose proof Ko as [K Htab Kc Kq _]. unfold futex_wakeup, woken_list.
  pose proof (Kq u) as Hu. destruct (F !! u) as [l0|] eqn:Ef.
  2: { rewrite (get_futex_absent _ _ _ _ _ _ _ _ Ko Hu). ocbn. subst l m. cbn [default length].
    rewrite Nat.min_0_r. exists st. split; [done|]. split; [by do 5 eexists|]. split; [|done]. intros t Ht. by apply not_elem_of_nil in Ht. }
  destruct Hu as (e & Ee & Hr & El). cbn [default id] in l. subst l. set (l := l0) in *.
  rewrite (get_futex_found _ _ _ _ _ _ _ _ _ _ Ko Ee). ocbn.
  destruct (wake_loop_ok HS XS (he_value e) nr (cpu_thread (f_cpus st)) l (wake_fuel st) 0 (sch (f_cpus st)) L)
    as (s' & L' & Ew & Kc' & Hw); [by destruct (f_cpus st)|exact Hr|exact El| |].
  { pose proof (waiting_length HS XS _ L _ _ (ck_sched _ _ _ _ _ Kc) El) as Hlen. rewrite length_fmap in Hlen.
    unfold wake_fuel. lia. }
  replace (Nat.min (Z.to_nat (nr - 0)) (length l)) with m in * by (subst m; by rewrite Z.sub_0_r). rewrite Ew. ocbn.
  pose proof (woken_futexes _ _ _ _ _ _ _ _ _ _ _ _ _ Ko Ee Ef Hw Kc') as Ko'.
  unfold Queue_isempty_atomic, Queue_isempty.
  pose proof (pl_rep _ _ _ _ _ _ (sk_placed _ _ _ _ _ (ck_sched _ _ _ _ _ Kc'))) as Hrep'. cbn [sch] in Hrep'.
  rewrite (lh_empty_rep HS XS _ L' _ _ Hrep' (wk_queue _ _ _ _ _ _ _ Hw)).
  ocbn. destruct (drop m l) as [|t l'] eqn:Ed.
  - rewrite bool_decide_eq_true_2 by done.
    destruct (futex_free_ok _ _ _ _ _ _ _ u e Ko' Ee (lookup_insert_eq _ _ _)) as (st' & -> & Hrep & ET & _). ocbn.
    exists st'. rewrite delete_insert_eq in Hrep. split; [done|]. split; [exact Hrep|]. rewrite ET.
    split_and!; [apply Hw|apply Hw|by intros []].
  - rewrite bool_decide_eq_false_2 by done. ocbn. eexists. split; [done|]. split; [by do 5 eexists|].
    split_and!; [apply Hw|apply Hw|done].
Qed.

(** *** Requeueing *)

(** Moving the only thread of queue [a] to queue [b], [wait_chan_entry] left as it is. *)
Lemma requeue_one s L t a b l nr fuel : sched_ok HS XS ∅ s L -> is_cond s a -> is_cond s b -> a <> b ->
  L !! waiting_queue a = Some [wait_list t] -> L !! waiting_queue b = Some l -> 0 < nr -> (1 < fuel)%nat ->
  exists s' L', requeue_loop fuel a b nr 0 s = Done (1, s') /\ lh_rep HS XS (qlists s') L' /\
    L' !! waiting_queue a = Some [] /\ threads s' = threads s /\ queues s' = queues s.
Proof.
  intros K Ha Hb Hab El1 El2 Hnr Hf. destruct fuel as [|[|fuel]]; [lia..|].
  destruct (waiting_member HS XS s L a _ (wait_list t) K El1 (list_elem_of_here _ _)) as (t' & v & [= <-] & Et & _ & Hs).
  pose proof (sk_placed _ _ _ _ _ K) as Kp.
  cbn [requeue_loop]. unfold Queue_isempty_atomic, Queue_isempty.
  rewrite (lh_empty_rep HS XS _ L _ _ (pl_rep _ _ _ _ _ _ Kp) El1). ocbn.
  rewrite bool_decide_eq_false_2 by done. cbn [negb andb]. rewrite (proj2 (Z.ltb_lt 0 nr)) by done.
  pose proof (place_pop HS XS s L _ _ _ _ Kp Ha El1) as (o & w & En & Ep & Kw).
  { intros n ->%list_elem_of_singleton. by exists (Tcb t). }
  destruct o as [u|u]; [|discriminate En]. injection En as ->. unfold Queue_provide_atomic. rewrite Ep. ocbn.
  unfold is_state, thread_at. cbn [threads with_lists]. rewrite Et. ocbn. rewrite (bool_decide_eq_true_2 _ Hs). cbn [negb].
  destruct (place_push HS XS _ _ _ _ (waiting_queue b) (Tcb t) (wait_list t) l Kw) as (w2 & E2 & K2);
    [apply fn_lookup_insert|by apply (sk_thread _ _ _ _ _ K t v)|exact Hb|done| |].
  { rewrite lookup_insert_ne by congruence. done. }
  unfold Queue_push_back_atomic. rewrite E2. ocbn. cbn [requeue_loop]. unfold Queue_isempty_atomic, Queue_isempty.
  eexists _, _. split; [|split; [exact (pl_rep _ _ _ _ _ _ K2)|]].
  - rewrite (lh_empty_rep HS XS _ _ (waiting_queue a) [] (pl_rep _ _ _ _ _ _ K2)).
    + ocbn. rewrite bool_decide_eq_true_2 by done. done.
    + rewrite lookup_insert_ne by congruence. apply lookup_insert_eq.
  - split_and!; [|done..]. rewrite lookup_insert_ne by congruence. apply lookup_insert_eq.
Qed.

(** [futex_free] as the queues see it: the queue of the address is gone. *)
Lemma futex_free_forgets st st0 F L HL E R tb u e : futex_ok st0 F L HL E R tb -> f_hash st = f_hash st0 ->
  E !! (fm, u) = Some e ->
  exists st', futex_free fm u st = Done st' /\ threads (sch (f_cpus st')) = threads (sch (f_cpus st)) /\
    queues (sch (f_cpus st')) !! waiting_queue (he_value e) = None.
Proof.
  intros [K (Et & Ety & El) _ _ _] Eh Ee. unfold futex_free. rewrite Eh.
  rewrite (hash_lookup_ok HHS HXS _ HL E R fm tb (KPtr u) u true false K Et El) by by rewrite Ety.
  ocbn. rewrite Ee. cbn [fmap option_fmap option_map].
  destruct (hk_entry _ _ _ _ _ _ K _ _ _ Ee) as (_ & _ & En & _). rewrite En. cbn [hn_value].
  destruct (hash_delete_ok HHS HXS _ HL E R fm tb (KPtr u) u false true K Et El) as (h' & HL' & R' & -> & _ & _);
    [by rewrite Ety|]. ocbn. eexists. split; [reflexivity|]. split; [done|].
  cbn [f_cpus f_with_hash drop_queue f_with_cpus sch queues]. apply lookup_delete_eq.
Qed.

Lemma requeue_ok st F u1 u2 t : futex_rep st F -> u1 <> u2 -> F !! u1 = Some [t] ->
  no_room (hs_al (f_hash st)) /\ F !! u2 = None \/
  exists st', futex_requeue fm u1 (s32 0) u2 (s32 1) st = Done (1, st') /\
    thread_wakeup_atomic t (sch (f_cpus st')) = Undef.
Proof.
  intros Hrep Hne Ef. unfold futex_requeue.
  destruct (futex_wakeup_ok st F u1 (s32 0) Hrep) as (st1 & -> & Hrep1 & _ & _ & Hh). ocbn.
  unfold woken_list in *. rewrite Ef in *. change (Z.to_nat (s32 0)) with O in *. cbn [Nat.min drop] in *.
  rewrite insert_id in Hrep1 by done. destruct Hrep1 as (L & HL & E & R & tb & Ko).
  pose proof (fo_queue _ _ _ _ _ _ _ Ko u1) as Hu. rewrite Ef in Hu. destruct Hu as (e1 & Ee1 & _).
  rewrite (get_futex_found _ _ _ _ _ _ _ _ _ _ Ko Ee1). ocbn.
  destruct (get_futex_any _ _ _ _ _ _ _ u2 Ko) as [(Hno & Ef2 & _)|Hf]; [left; by rewrite <- Hh|right].
  destruct Hf as (st2 & L2 & HL2 & E2 & R2 & e2 & -> & Ko2 & Ee2 & _ & _ & Hk & _). ocbn.
  pose proof (fo_queue _ _ _ _ _ _ _ Ko2 u1) as Hu1. pose proof (fo_queue _ _ _ _ _ _ _ Ko2 u2) as Hu2.
  rewrite lookup_insert_ne, Ef in Hu1 by done. rewrite lookup_insert_eq in Hu2.
  destruct Hu1 as (e1' & Ee1' & Hr1 & El1), Hu2 as (e2' & Ee2' & Hr2 & El2). pose proof Ee1' as Ee1''.
  rewrite Hk in Ee1'' by done. simplify_eq. pose proof (fo_conf _ _ _ _ _ _ _ Ko2) as Kc.
  assert (he_value e1 <> he_value e2) as Hv by (intros Hv; apply Hne; by eapply futex_inj).
  destruct (requeue_one _ _ t (he_value e1) (he_value e2) _ (s32 1) (wake_fuel st2)
    (ck_sched _ _ _ _ _ Kc) Hr1 Hr2 Hv El1 El2) as (k & L' & -> & HR & El & ET & EQ); [done| |].
  { pose proof (waiting_length HS XS _ L2 _ _ (ck_sched _ _ _ _ _ Kc) El1) as Hlen. cbn in Hlen. unfold wake_fuel. lia. }
  ocbn. unfold Queue_isempty_atomic, Queue_isempty. rewrite (lh_empty_rep HS XS _ L' _ [] HR El). ocbn.
  rewrite bool_decide_eq_true_2 by done.
  destruct (futex_free_forgets (f_with_cpus (Conf k (cpu_thread (f_cpus st2))) st2) _ _ _ _ _ _ _ _ _ Ko2 eq_refl Ee1')
    as (st' & -> & ET' & EQ'). ocbn. eexists. split; [reflexivity|].
  destruct (waiting_member HS XS _ L2 _ _ (wait_list t) (ck_sched _ _ _ _ _ Kc) El1 (list_elem_of_here _ _))
    as (t' & v & [= <-] & Et & Ew & _).
  unfold thread_wakeup_atomic, thread_wakeup, thread_at. rewrite ET'. cbn [f_cpus f_with_cpus sch]. rewrite ET, Et. ocbn.
  rewrite Ew. ocbn. unfold Queue_remove_atomic. by rewrite EQ'.
Qed.

(** A table without entries, and no thread in a queue. *)
Lemma no_futexes st L HL R tb : hash_ok HHS HXS (f_hash st) HL ∅ R ->
  hs_tabs (f_hash st) !! fm = Some tb -> ht_type tb = FUTEX_MAP -> ht_lock tb = false ->
  conf_ok HS XS ∅ (f_cpus st) L -> (forall t, waits (sch (f_cpus st)) t = None) -> futex_rep st ∅.
Proof.
  intros K Et Ety El Kc Hw. exists L, HL, ∅, R, tb. constructor; [done..| |].
  - intros u. by rewrite !lookup_empty.
  - intros t a. by rewrite Hw.
Qed.

(** C19.  [do_futex] keeps for every address a queue of the threads waiting on
    it, first come first served, and nothing else of the queues, the table and
    the pages shows.  A FUTEX_WAIT on a word with the expected value puts the
    calling thread to sleep at the end of the queue of its address, with a new
    queue, on two pages, when there was none (or panics when there is no memory
    for it); on any other value it returns 0 at once, and on an address that cannot be read -1.
    A FUTEX_WAKE returns the number of threads it woke, the first [val] of the
    queue or all of them; those are RUNNABLE and wait no longer, no other
    thread changes, and an address without waiters keeps no futex.  The flags of
    the operation do not matter. *)
Theorem futex_fifo st F op c u v uaddr2 val2 : futex_rep st F ->
  let l := default [] (F !! u) in let m := Nat.min (Z.to_nat (s32 v)) (length l) in
  (Z.land op FUTEX_CMD_MASK = FUTEX_WAIT ->
    (forall t, cpu_thread (f_cpus st) !! c = Some t ->
      no_room (hs_al (f_hash st)) /\ F !! u = None /\
        (do_futex fm c u op (Some v) v uaddr2 val2 st = Panic \/ do_futex fm c u op (Some v) v uaddr2 val2 st = Undef) \/
      exists st', do_futex fm c u op (Some v) v uaddr2 val2 st = Done (FSleeps, st') /\
        futex_rep st' (<[u := l ++ [t]]> F) /\ thread_is TCB_SLEEPING t (f_cpus st') /\
        match F !! u with
        | Some _ => hs_al (f_hash st') = hs_al (f_hash st)
        | None => took_pages (hs_al (f_hash st)) (hs_al (f_hash st'))
        end) /\
    (forall v', v' <> v -> do_futex fm c u op (Some v') v uaddr2 val2 st = Done (FReturns 0, st)) /\
    do_futex fm c u op None v uaddr2 val2 st = Done (FReturns (-1), st)) /\
  (forall u_val, Z.land op FUTEX_CMD_MASK = FUTEX_WAKE ->
    exists st', do_futex fm c u op u_val v uaddr2 val2 st = Done (FReturns (Z.of_nat m), st') /\
      futex_rep st' (woken_list m u F) /\
      (forall t, t ∈ take m l -> threads (sch (f_cpus st')) !! t = Some (MkTcb TCB_RUNNABLE None)) /\
      (forall t, t ∉ take m l -> threads (sch (f_cpus st')) !! t = threads (sch (f_cpus st)) !! t)).
Proof.
  intros Hrep l m. unfold do_futex. split.
  - intros ->. cbn [Z.eqb FUTEX_WAIT]. split_and!; [|intros v' Hv|done].
    + intros t. by apply futex_wait_ok.
    + unfold futex_wait. by rewrite (proj2 (Z.eqb_neq v' v)).
  - intros u_val ->. cbn [Z.eqb FUTEX_WAIT FUTEX_WAKE Pos.eqb].
    destruct (futex_wakeup_ok st F u (s32 v) Hrep) as (st' & -> & Hrep' & Hw & Hth & _). ocbn. eauto.
Qed.

(** C20.  A requeued thread cannot be woken by a signal or a timeout: FUTEX_REQUEUE
    moves a thread to the queue of the other address but leaves its
    [wait_chan_entry] at the queue it came from, and frees that queue when it is
    the last one there; [thread_wakeup], which a signal and the timer of the
    wait call, then takes the lock of a queue in freed memory. *)
Theorem requeued_thread_wakeup st F op c u1 u2 t u_val : futex_rep st F -> u1 <> u2 -> F !! u1 = Some [t] ->
  Z.land op FUTEX_CMD_MASK = FUTEX_REQUEUE ->
  no_room (hs_al (f_hash st)) /\ F !! u2 = None \/
  exists st', do_futex fm c u1 op u_val 0 u2 1 st = Done (FReturns 1, st') /\
    thread_wakeup_atomic t (sch (f_cpus st')) = Undef.
Proof.
  intros Hrep Hne Ef Eop. unfold do_futex. rewrite Eop. cbn [Z.eqb FUTEX_WAIT FUTEX_WAKE FUTEX_REQUEUE Pos.eqb].
  destruct (requeue_ok st F u1 u2 t Hrep Hne Ef) as [H|(st' & -> & H)]; [by left|right].
  ocbn. eauto.
Qed.
End futexes.

(** ** A table of one bucket and one running thread *)

Definition page_queues : gset qid :=
  demo_queues ∪ set_map (fun q => waiting_queue (page_to_pa q)) (list_to_set (seqZ 0 NPAGES) : gset Z).

Lemma page_queues_elem q : 0 <= q < NPAGES -> waiting_queue (page_to_pa q) ∈ page_queues.
Proof.
  intros Hq. apply elem_of_union. right. apply elem_of_map. exists q. split; [done|].
  apply elem_of_list_to_set, elem_of_seqZ. lia.
Qed.

(** The first unused thread is claimed, started and, being the only runnable
    one, run by cpu [c]. *)
Lemma run_next (s : ksched demo_mem) cur L c t l : conf_ok page_queues demo_qnodes ∅ (Conf s cur) L ->
  L !! runnable_t_q = Some [] -> L !! unused_t_q = Some (state_list t :: l) -> cur !! c = None ->
  exists s' L', conf_ok page_queues demo_qnodes ∅ (Conf s' (<[c := t]> cur)) L' /\ L' !! runnable_t_q = Some [] /\
    L' !! unused_t_q = Some l /\ threads s' = <[t := MkTcb TCB_RUNNING None]> (threads s).
Proof.
  intros K Er Eu Ec. pose proof (ck_sched _ _ _ _ _ K) as Ks. cbn [sch] in Ks.
  pose proof (lh_rep_NoDup _ _ _ L _ _ (pl_rep _ _ _ _ _ _ (sk_placed _ _ _ _ _ Ks)) Eu) as Hnd.
  apply (NoDup_mid _ []) in Hnd as [Hnot _]. cbn in Hnot.
  assert (forall v (s' : ksched demo_mem), threads s' !! t = Some v -> t_state v <> TCB_RUNNING -> ~ thread_is TCB_RUNNING t (Conf s' cur)) as Hno.
  { intros v s' Ev Hv (w & Ew & Hw)%thread_is_at. cbn in Ew. congruence. }
  destruct (claim_thread_ok _ _ s L _ Ks Eu) as (u & v & s1 & [= <-] & Et & Hs & _ & H1).
  pose proof (stays_ok _ _ _ _ s L cur s1 _ t _ K H1) as K1. destruct H1 as (Ks1 & T1 & _).
  assert (threads s1 !! t = Some (MkTcb TCB_USED None)) as E1 by (rewrite T1; apply lookup_insert_eq).
  destruct (changeState_ok _ _ s1 _ t (MkTcb TCB_USED None) TCB_RUNNABLE runnable_t_q Ks1 E1) as (s2 & _ & H2); [done..|].
  pose proof (stays_ok _ _ _ _ s1 _ cur s2 _ t _ (K1 ltac:(eapply Hno; [exact Et|congruence]) ltac:(done)) H2) as K2.
  destruct H2 as (Ks2 & T2 & _).
  assert (threads s2 !! t = Some (MkTcb TCB_RUNNABLE None)) as E2 by (rewrite T2; apply lookup_insert_eq).
  match type of Ks2 with sched_ok _ _ _ _ ?M => assert (M !! runnable_t_q = Some [state_list t]) as Er2 end.
  { erewrite moved_lookup by (erewrite moved_lookup by exact Er; done). done. }
  pose proof (scheduler_round_ok _ _ s2 _ _ Ks2 Er2) as (u & w & s3 & [= <-] & _ & _ & _ & H3).
  exists s3. eexists. split; [|split; [|split]].
  - eapply starts_ok; [apply K2|exact H3|done| |done]; [|done|].
    + by apply (Hno _ _ E1).
    + by apply (Hno _ _ E2).
  - rewrite (without_lookup _ _ _ _ Er2), filter_cons_False; [done|by intros []].
  - erewrite without_lookup; [|erewrite moved_lookup by (erewrite moved_lookup by exact Eu; done); done].
    rewrite !decide_False, !app_nil_r by done. rewrite filter_cons_False by (by intros []).
    by rewrite !(filter_not_in l).
  - destruct H3 as (_ & -> & _). by rewrite T2, T1, !insert_insert_eq.
Qed.

(** Two threads, each run by a cpu. *)
Lemma two_running : exists (x : conf demo_mem) L, conf_ok page_queues demo_qnodes ∅ x L /\
  cpu_thread x = <[1 := 1]> {[0 := 0]} /\ forall t, waits (sch x) t = None.
Proof.
  set (s := KSched ∅ ∅ ∅ (blank_lists page_queues demo_qnodes)).
  assert (forall q, qtype q = TCB_STATE_QUEUE -> q ∈ page_queues) as Hq.
  { intros q Hq. apply elem_of_union. left. by apply demo_queues_elem. }
  destruct (boot_ok page_queues demo_qnodes 2 s) as (s0 & L0 & _ & K0 & W0 & E0 & R0);
    [split; [exact (blank_lists_rep page_queues demo_qnodes)|done]|exact Hq|intros t Ht; apply demo_qnodes_elem; lia|].
  destruct (run_next s0 ∅ L0 0 0 _ K0 R0 E0) as (s1 & L1 & K1 & R1 & E1 & T1); [done|].
  destruct (run_next s1 _ L1 1 1 _ K1 R1 E1) as (s2 & L2 & K2 & _ & _ & T2); [done|].
  eexists. exists L2. split; [exact K2|]. split; [done|]. intros t. unfold waits in *. cbn [sch] in *. rewrite T2, T1.
  destruct (decide (1 = t)) as [<-|]; [by rewrite lookup_insert_eq|rewrite lookup_insert_ne by done].
  destruct (decide (0 = t)) as [<-|]; [by rewrite lookup_insert_eq|rewrite lookup_insert_ne by done]. apply W0.
Qed.


(** No futexes, two running threads, and four pages to give. *)
Lemma demo_futexes : exists st : fstate demo_mem demo_links spare,
  futex_rep page_queues demo_qnodes demo_heads demo_pages 0x100 st ∅ /\
  cpu_thread (f_cpus st) !! 0 = Some 0 /\ hs_al (f_hash st) = demo_used.
Proof.
  destruct (demo_hash FUTEX_MAP) as (w & HL & K). destruct two_running as (x & L & Kc & Ec & Hw).
  exists (FSt (HSt {[0x100 := HTab FUTEX_MAP 1 0x50 false]} ∅ w demo_used) x). split_and!; [|by cbn; rewrite Ec|done].
  by apply (no_futexes _ _ _ _ _ (FSt (HSt _ _ _ _) x) L HL demo_used (HTab FUTEX_MAP 1 0x50 false)).
Qed.

(** Two futexes fit. *)
Definition spare_four : spare := <[5 := (0, 1)]> (<[4 := (0, 1)]> demo_used).

Lemma spare_took : took_pages demo_used spare_four /\ forall a, took_pages demo_used a -> a = spare_four.
Proof.
  assert (pa_kmalloc sizeof_futex demo_used = Done (Some (page_to_pa 4), <[4 := (0, 1)]> demo_used)) as E1
    by (vm_compute; reflexivity).
  assert (pa_kmalloc sizeof_hash_node (<[4 := (0, 1)]> demo_used : spare) = Done (Some (page_to_pa 5), spare_four)) as E2
    by (vm_compute; reflexivity).
  split; [by do 3 eexists|]. intros a (p & n & a1 & H1 & H2). congruence.
Qed.

Lemma spare_room (a : spare) : a = demo_used \/ took_pages demo_used a -> ~ no_room a.
Proof.
  intros Ha Hno. assert (exists a', took_pages a a') as (a' & p & n & a1 & E1 & E2).
  { destruct Ha as [->|Ha]; [eexists; apply spare_took|]. apply spare_took in Ha as ->.
    exists (<[7 := (0, 1)]> (<[6 := (0, 1)]> spare_four)).
    exists (page_to_pa 6), (page_to_pa 7), (<[6 := (0, 1)]> spare_four). split; vm_compute; reflexivity. }
  destruct Hno as [Hno|(p' & a2 & E1' & E2')]; congruence.
Qed.

(** The thread waits at 0x4000 with FUTEX_PRIVATE_FLAG and is woken. *)
Lemma futex_fifo_witness : exists st st1 st2 : fstate demo_mem demo_links spare,
  do_futex 0x100 0 0x4000 128 (Some 7) 7 0 0 st = Done (FSleeps, st1) /\
  do_futex 0x100 0 0x4000 129 None 5 0 0 st1 = Done (FReturns 1, st2) /\
  futex_rep page_queues demo_qnodes demo_heads demo_pages 0x100 st2 ∅.
Proof.
  destruct demo_futexes as (st & Hrep & Ec & Ea).
  destruct (futex_fifo page_queues demo_qnodes demo_heads demo_pages demo_pages_elem page_queues_elem 0x100
    st ∅ 128 0 0x4000 7 0 0 Hrep) as [H1 _].
  destruct (H1 eq_refl) as [H1' _]. destruct (H1' 0 Ec) as [(Hno & _)|(st1 & E1 & Hrep1 & _)].
  - destruct (spare_room _ (or_introl Ea) Hno).
  - destruct (futex_fifo page_queues demo_qnodes demo_heads demo_pages demo_pages_elem page_queues_elem 0x100
      st1 _ 129 0 0x4000 5 0 0 Hrep1) as [_ H2].
    destruct (H2 None eq_refl) as (st2 & E2 & Hrep2 & _). exists st, st1, st2. split; [exact E1|]. split; [exact E2|].
    match type of Hrep2 with futex_rep _ _ _ _ _ _ ?F => assert (F = ∅) as EF by (vm_compute; reflexivity) end.
    rewrite EF in Hrep2. exact Hrep2.
Defined.

(** The thread waits at 0x4000, is requeued to 0x8000, and a signal finds it. *)
Lemma requeued_thread_wakeup_witness : exists st st1 st2 : fstate demo_mem demo_links spare,
  do_futex 0x100 0 0x4000 0 (Some 7) 7 0 0 st = Done (FSleeps, st1) /\
  do_futex 0x100 1 0x4000 3 None 0 0x8000 1 st1 = Done (FReturns 1, st2) /\
  thread_wakeup_atomic 0 (sch (f_cpus st2)) = Undef.
Proof.
  destruct demo_futexes as (st & Hrep & Ec & Ea).
  destruct (futex_fifo page_queues demo_qnodes demo_heads demo_pages demo_pages_elem page_queues_elem 0x100
    st ∅ 0 0 0x4000 7 0 0 Hrep) as [H1 _].
  destruct (H1 eq_refl) as [H1' _]. destruct (H1' 0 Ec) as [(Hno & _)|(st1 & E1 & Hrep1 & _ & Hp)].
  - destruct (spare_room _ (or_introl Ea) Hno).
  - destruct (requeued_thread_wakeup page_queues demo_qnodes demo_heads demo_pages demo_pages_elem page_queues_elem 0x100
      st1 _ 3 1 0x4000 0x8000 0 None Hrep1) as [[Hno _]|(st2 & E2 & Hu)]; [done|apply lookup_insert_eq|done| |].
    + cbn in Hp. rewrite Ea in Hp. destruct (spare_room _ (or_intror Hp) Hno).
    + exists st, st1, st2. split; [exact E1|]. split; [exact E2|exact Hu].
Defined.
