(* ===== verification/Signal.v ===== *)
(** * Signal: sending, masking, delivering and returning from signals

    [src/ipc/signal.c], the callers in [src/proc/tcb_life.c] and the two system
    calls of [src/kernel/sysproc.c] that change masks and return from handlers.
    The pending signals of a thread are a list of pages from the page allocator;
    user memory is seen through [copyin] and [copyout], in words.  [waitpid],
    which SIGCHLD calls, is any function of the state [X] of the processes: it may
    return, panic or not return, and what it frees with a child is no part of
    the threads modelled here. *)

From stdpp Require Import base gmap sets list fin_maps.
From Stdlib Require Import ZArith Lia.
From S2P Require Import Prelude KList Buddy Kalloc PageAlloc Sched Cpus.
#[local] Open Scope Z_scope.

(** ** Data *)

Definition SIGKILL : Z := 9.
Definition SIGTERM : Z := 15.
Definition SIGSTOP : Z := 17.
Definition SIGCHLD : Z := 20.
Definition _NSIG : Z := 64.
Definition valid_signal (sig : Z) : bool := (sig <=? _NSIG) && (1 <=? sig).

Definition SIG_DFL : Z := 0.
Definition SIG_IGN : Z := 1.
Definition SI_USER : Z := 0.
Definition SI_KERNEL : Z := 0x80.
Definition SIG_BLOCK : Z := 0.
Definition SIG_UNBLOCK : Z := 1.
Definition SIG_SETMASK : Z := 2.
Definition EINTR : Z := 4.

Record siginfo := SigInfo { si_signo : Z; si_code : Z }.
Record sigaction := SigAction { sa_handler : Z; sa_flags : Z; sa_mask : Z }.

(** The words of a trapframe the code names. *)
Definition TF_WORDS : nat := 70.
Definition tf_epc : nat := 3.
Definition tf_ra : nat := 5.
Definition tf_sp : nat := 6.
Definition tf_a0 : nat := 14.
Definition tf_a1 : nat := 15.
Definition tf_a2 : nat := 16.

(** The part of [struct tcb] signals use; [sig] is the address of the [sighand]. *)
Record sigtcb := SigTcb {
  sig_pending_cnt : Z;
  sig : Z;
  blocked : Z;
  pending_signal : Z;
  sig_ing : Z;
  killed : bool;
  trapframe : list Z
}.

(** [sizeof(ucontext_t)], the user's, and the place of [__gregs[0]] in it;
    [struct ucontext] follows it in [rt_sigframe]. *)
Definition UC_RISCV_WORDS : nat := 120.
Definition GREGS0 : nat := 22.
Definition UC_OFFSET : Z := 960.
Definition sizeof_rt_sigframe : Z := 1536.
(** [TRAMPOLINE - PGSIZE]. *)
Definition SIGRETURN : Z := 2 ^ 38 - 2 * PGSIZE.

(** Copying whole words between the kernel and the current address space;
    [copyout] tells whether it returned 0. *)
Class UserMem (U : Type) := {
  um_copyout : Z -> list Z -> U -> bool * U;
  um_copyin : Z -> nat -> U -> option (list Z)
}.

Definition word64 (m : Z) : Prop := 0 <= m < 2 ^ 64.

(** What the copies promise: below [MAXVA], words come back as they were written, and
    other addresses keep theirs. *)
Class UserMemOk (U : Type) `{!UserMem U} := {
  um_word a n u ws : um_copyin a n u = Some ws -> length ws = n /\ Forall word64 ws;
  um_below a ws u u' : um_copyout a ws u = (true, u') -> 0 <= a /\ a + 8 * Z.of_nat (length ws) <= 2 ^ 38;
  um_same a ws u u' : um_copyout a ws u = (true, u') -> Forall word64 ws -> um_copyin a (length ws) u' = Some ws;
  um_other a ws u u' b n : um_copyout a ws u = (true, u') ->
    b + 8 * Z.of_nat n <= a \/ a + 8 * Z.of_nat (length ws) <= b -> um_copyin b n u' = um_copyin b n u
}.

(** Single signals as bits; [sig - 1] on [uint64], so a shift outside the width
    for anything but 1..64. *)
Definition sig_gen_mask (sig : Z) : outcome Z := if valid_signal sig then Done (Z.shiftl 1 (sig - 1)) else Undef.
Definition sig_is_member (set sig : Z) : outcome bool :=
  if valid_signal sig then Done (Z.land 1 (Z.shiftr set (sig - 1)) =? 1) else Undef.
Definition sig_add_set (set sig : Z) : outcome Z := m ← sig_gen_mask sig; Done (Z.lor set m).
(** [set.sig &= (~mask)] for a [mask] in parentheses. *)
Definition sig_del_set_mask (set mask : Z) : Z := Z.land set (u64 (Z.lnot mask)).
Definition sig_test_mask (set mask : Z) : bool := negb (Z.land set mask =? 0).
(** The same macro with [a | b] for its argument: the complement only takes [a]. *)
Definition sig_del_set_mask_or (set a b : Z) : Z := Z.land set (Z.lor (u64 (Z.lnot a)) b).
Definition sig_or (x y : Z) : Z := Z.lor x y.
Definition sig_and (x y : Z) : Z := Z.land x y.

Section signal.
Context {W A U X : Type} `{LO : !ListOps Z Z W, PA : !PageAlloc A, UM : !UserMem U}.
(** [waitpid(-1, 0, 0)] on the state of the processes (the tree, its semaphores):
    any function of it, which may also not return, since [waitpid] sleeps until
    a child exits and panics on a wake-up without a zombie.  Nothing in its
    text touches a queue of signals, a mask, an action or a frame; what other
    threads send to this one while it sleeps is not part of the step. *)
Context (waitpid : X -> outcome X).

(** The threads by index; the queued signals by the page they are in, listed in
    [s_pend] by thread; the handler tables; user memory; the processes. *)
Record sigst := SigSt {
  s_tcb : gmap Z sigtcb;
  s_info : gmap Z siginfo;
  s_hands : gmap Z (list sigaction);
  s_pend : W;
  s_al : A;
  s_user : U;
  s_procs : X
}.

Definition tcb_sig (s : sigst) (t : Z) : outcome sigtcb := deref (s_tcb s !! t).
Definition set_tcb (t : Z) (v : sigtcb) (s : sigst) : sigst :=
  SigSt (<[t := v]> (s_tcb s)) (s_info s) (s_hands s) (s_pend s) (s_al s) (s_user s) (s_procs s).
Definition set_info (n : Z) (i : siginfo) (s : sigst) : sigst :=
  SigSt (s_tcb s) (<[n := i]> (s_info s)) (s_hands s) (s_pend s) (s_al s) (s_user s) (s_procs s).
Definition s_with_pend (f : W -> outcome W) (s : sigst) : outcome sigst :=
  w ← f (s_pend s); Done (SigSt (s_tcb s) (s_info s) (s_hands s) w (s_al s) (s_user s) (s_procs s)).
Definition s_with_al (a : A) (s : sigst) : sigst :=
  SigSt (s_tcb s) (s_info s) (s_hands s) (s_pend s) a (s_user s) (s_procs s).
Definition s_with_user (u : U) (s : sigst) : sigst :=
  SigSt (s_tcb s) (s_info s) (s_hands s) (s_pend s) (s_al s) u (s_procs s).
Definition s_with_procs (x : X) (s : sigst) : sigst :=
  SigSt (s_tcb s) (s_info s) (s_hands s) (s_pend s) (s_al s) (s_user s) x.

Definition set_cnt (c : Z) (v : sigtcb) : sigtcb :=
  SigTcb c (sig v) (blocked v) (pending_signal v) (sig_ing v) (killed v) (trapframe v).
Definition set_blocked (b : Z) (v : sigtcb) : sigtcb :=
  SigTcb (sig_pending_cnt v) (sig v) b (pending_signal v) (sig_ing v) (killed v) (trapframe v).
Definition set_pending (p : Z) (v : sigtcb) : sigtcb :=
  SigTcb (sig_pending_cnt v) (sig v) (blocked v) p (sig_ing v) (killed v) (trapframe v).
Definition set_ing (g : Z) (v : sigtcb) : sigtcb :=
  SigTcb (sig_pending_cnt v) (sig v) (blocked v) (pending_signal v) g (killed v) (trapframe v).
Definition set_killed (v : sigtcb) : sigtcb :=
  SigTcb (sig_pending_cnt v) (sig v) (blocked v) (pending_signal v) (sig_ing v) true (trapframe v).
Definition set_tf (f : list Z) (v : sigtcb) : sigtcb :=
  SigTcb (sig_pending_cnt v) (sig v) (blocked v) (pending_signal v) (sig_ing v) (killed v) f.
Definition upd_tcb (t : Z) (f : sigtcb -> sigtcb) (s : sigst) : outcome sigst :=
  v ← tcb_sig s t; Done (set_tcb t (f v) s).
(** *** Sending *)

Definition sigpending_init (t : Z) (s : sigst) : outcome sigst :=
  s ← upd_tcb t (set_pending 0) s;
  s_with_pend (lh_init t) s.

(** [list_del_reinit] and [kfree] of a queued signal. *)
Definition drop_sig (n : Z) (s : sigst) : outcome sigst :=
  s ← s_with_pend (lh_del_reinit n) s;
  a ← pa_kfree n (s_al s);
  Done (SigSt (s_tcb s) (delete n (s_info s)) (s_hands s) (s_pend s) a (s_user s) (s_procs s)).

(** [list_for_each_entry_safe] over the nodes of a list that only removes the
    node it is at. *)
Fixpoint each_sig (f : Z -> sigst -> outcome sigst) (l : list Z) (s : sigst) : outcome sigst :=
  match l with [] => Done s | n :: l => s ← f n s; each_sig f l s end.

Definition pop_one (mask : Z) (n : Z) (s : sigst) : outcome sigst :=
  i ← deref (s_info s !! n);
  if valid_signal (si_signo i) then
    m ← sig_gen_mask (si_signo i);
    if Z.land mask m =? 0 then Done s else drop_sig n s
  else Done s.

Definition signal_queue_pop (mask : Z) (t : Z) (s : sigst) : outcome (Z * sigst) :=
  v ← tcb_sig s t;
  if negb (sig_test_mask (pending_signal v) mask) then Done (0, s)
  else
    let s := set_tcb t (set_pending (sig_del_set_mask (pending_signal v) mask) v) s in
    l ← lh_each t (s_pend s);
    s ← each_sig (pop_one mask) l s;
    Done (1, s).

Definition signal_queue_flush (t : Z) (s : sigst) : outcome (Z * sigst) :=
  s ← upd_tcb t (set_pending 0) s;
  l ← lh_each t (s_pend s);
  s ← each_sig drop_sig l s;
  Done (1, s).

Definition signal_info_init (sig opt : Z) : outcome siginfo :=
  if opt =? 0 then Done (SigInfo (s32 sig) SI_USER)
  else if opt =? 1 then Done (SigInfo (s32 sig) SI_KERNEL)
  else Panic.

(** [sig = info->si_signo] goes from [int] to [uint64]. *)
Definition signal_send (info : siginfo) (t : Z) (s : sigst) : outcome (Z * sigst) :=
  v ← tcb_sig s t;
  let sg := u64 (si_signo info) in
  b ← sig_is_member (pending_signal v) sg;
  if (b : bool) then Done (0, s)
  else
    let v := if (sg =? SIGKILL) || (sg =? SIGSTOP) || (sg =? SIGTERM) then set_killed v else v in
    let s := set_tcb t v s in
    '(q, a) ← pa_kmalloc PGSIZE (s_al s);
    let s := s_with_al a s in
    match q with
    | None => Done (0, s)
    | Some q =>
        let s := set_info q info s in
        let s := set_tcb t (set_cnt (s32 (sig_pending_cnt v + 1)) v) s in
        s ← s_with_pend (lh_init_node q) s;
        s ← s_with_pend (lh_add_tail q t) s;
        v ← tcb_sig s t;
        p ← sig_add_set (pending_signal v) sg;
        Done (1, set_tcb t (set_pending p v) s)
    end.

(** *** Masks and actions *)

(** The return value, [*oldset] and the state. *)
Definition do_sigprocmask (how set : Z) (t : Z) (s : sigst) : outcome (Z * Z * sigst) :=
  v ← tcb_sig s t;
  let old := blocked v in
  if how =? SIG_BLOCK then Done (0, old, set_tcb t (set_blocked (sig_or (blocked v) set) v) s)
  else if how =? SIG_UNBLOCK then Done (0, old, set_tcb t (set_blocked (sig_and (blocked v) set) v) s)
  else if how =? SIG_SETMASK then Done (0, old, set_tcb t (set_blocked set v) s)
  else Done (-1, old, s).

(** [sigmask_limit] is a global; [stale] is what the uninitialised [set] holds. *)
Definition sys_rt_sigprocmask (sigmask_limit how set_addr oldset_addr sigsetsize stale : Z) (t : Z) (s : sigst)
    : outcome (Z * sigst) :=
  if sigmask_limit =? 1 then Done (0, s)
  else if negb (sigsetsize =? 8) then Done (-1, s)
  else
    let set := if set_addr =? 0 then Some [stale] else um_copyin set_addr 1 (s_user s) in
    match set with
    | Some [set] =>
        a ← sig_gen_mask SIGKILL;
        b ← sig_gen_mask SIGSTOP;
        '(ret, old, s) ← do_sigprocmask how (sig_del_set_mask_or set a b) t s;
        if (ret =? 0) && negb (oldset_addr =? 0) then
          let '(ok, u) := um_copyout oldset_addr [old] (s_user s) in
          Done (if ok then ret else -1, s_with_user u s)
        else Done (ret, s)
    | _ => Done (-1, s)
    end.

(** The return value, [*oact] and the state. *)
Definition do_sigaction (sg : Z) (act : option sigaction) (t : Z) (s : sigst)
    : outcome (Z * option sigaction * sigst) :=
  v ← tcb_sig s t;
  if negb (valid_signal sg) then Done (-1, None, s)
  else
    h ← deref (s_hands s !! sig v);
    k ← deref (h !! Z.to_nat (sg - 1));
    match act with
    | None => Done (0, Some k, s)
    | Some act =>
        a ← sig_gen_mask SIGKILL;
        b ← sig_gen_mask SIGSTOP;
        let act := SigAction (sa_handler act) (sa_flags act) (sig_del_set_mask_or (sa_mask act) a b) in
        Done (0, Some k, SigSt (s_tcb s) (s_info s) (<[sig v := <[Z.to_nat (sg - 1) := act]> h]> (s_hands s))
          (s_pend s) (s_al s) (s_user s) (s_procs s))
    end.

(** *** Frames *)

Definition get_sigframe (tf : list Z) (framesize : Z) : outcome Z :=
  sp ← deref (tf !! tf_sp);
  Done (Z.land (u64 (sp - framesize)) (u64 (Z.lnot 0xf))).

Definition signal_frame_setup (set : Z) (tf : list Z) (rtf signo : Z) (u : U) : Z * U :=
  let '(ok, u) := um_copyout (u64 (rtf + UC_OFFSET)) (tf ++ [set; signo]) u in
  if negb ok then (-1, u)
  else
    let '(ok, u) := um_copyout rtf (replicate UC_RISCV_WORDS 0) u in
    (if ok then 0 else -1, u).

(** The result of [signal_frame_setup] is not looked at. *)
Definition setup_rt_frame (act : sigaction) (signo set : Z) (tf : list Z) (u : U) : outcome (list Z * U) :=
  frame ← get_sigframe tf sizeof_rt_sigframe;
  let '(_, u) := signal_frame_setup set tf frame signo u in
  let tf := <[tf_ra := SIGRETURN]> tf in
  let tf := <[tf_epc := sa_handler act]> tf in
  let tf := <[tf_sp := frame]> tf in
  let tf := <[tf_a0 := signo]> tf in
  let tf := <[tf_a1 := 0]> tf in
  Done (<[tf_a2 := frame]> tf, u).

Definition do_handle (t sig_no : Z) (act : sigaction) (s : sigst) : outcome sigst :=
  v ← tcb_sig s t;
  '(tf, u) ← setup_rt_frame act sig_no (blocked v) (trapframe v) (s_user s);
  Done (s_with_user u (set_tcb t (set_tf tf v) s)).

Definition signal_DFL (t signo : Z) (s : sigst) : outcome sigst :=
  if signo =? SIGKILL then upd_tcb t set_killed s
  else if signo =? SIGCHLD then x ← waitpid (s_procs s); Done (s_with_procs x s)
  else Done s.

(** The loop of [signal_handle]. *)
Fixpoint handle_loop (t : Z) (l : list Z) (s : sigst) : outcome sigst :=
  match l with
  | [] => Done s
  | n :: l =>
      i ← deref (s_info s !! n);
      let sig_no := si_signo i in
      if negb (valid_signal sig_no) then Panic
      else
        v ← tcb_sig s t;
        b ← sig_is_member (blocked v) sig_no;
        if (b : bool) then handle_loop t l s
        else
          h ← deref (s_hands s !! sig v);
          act ← deref (h !! Z.to_nat (sig_no - 1));
          if sa_handler act =? SIG_DFL then
            s ← signal_DFL t sig_no s;
            s ← upd_tcb t (fun v => set_cnt (s32 (sig_pending_cnt v - 1)) v) s;
            s ← drop_sig n s;
            handle_loop t l s
          else if sa_handler act =? SIG_IGN then handle_loop t l s
          else
            s ← do_handle t sig_no act s;
            s ← upd_tcb t (fun v => set_ing sig_no (set_cnt (s32 (sig_pending_cnt v - 1)) v)) s;
            drop_sig n s
  end.

Definition signal_handle (t : Z) (s : sigst) : outcome (Z * sigst) :=
  v ← tcb_sig s t;
  if sig_pending_cnt v =? 0 then Done (0, s)
  else
    l ← lh_each t (s_pend s);
    s ← handle_loop t l s;
    Done (1, s).

Definition signal_frame_restore (t rtf : Z) (s : sigst) : outcome (Z * sigst) :=
  match um_copyin (u64 (rtf + UC_OFFSET)) (TF_WORDS + 2) (s_user s) with
  | None => Done (-1, s)
  | Some uc =>
      m ← deref (uc !! TF_WORDS);
      g ← deref (uc !! S TF_WORDS);
      s ← upd_tcb t (fun v => set_ing g (set_tf (take TF_WORDS uc) (set_blocked m v))) s;
      match um_copyin rtf UC_RISCV_WORDS (s_user s) with
      | None => Done (-1, s)
      | Some rv =>
          pc ← deref (rv !! GREGS0);
          s ← (if pc =? 0 then Done s else upd_tcb t (fun v => set_tf (<[tf_epc := pc]> (trapframe v)) v) s);
          Done (0, s)
      end
  end.

(** The system call, with the store of its result into [a0] that [syscall] makes. *)
Definition sys_rt_sigreturn (t : Z) (s : sigst) : outcome sigst :=
  v ← tcb_sig s t;
  sp ← deref (trapframe v !! tf_sp);
  '(_, s) ← signal_frame_restore t sp s;
  v ← tcb_sig s t;
  m ← sig_gen_mask (sig_ing v);
  let s := set_tcb t (set_pending (sig_del_set_mask (pending_signal v) m) v) s in
  upd_tcb t (fun v => set_tf (<[tf_a0 := u64 (- EINTR)]> (trapframe v)) v) s.
End signal.
Arguments sigst : clear implicits.

(** *** Sending to sleeping threads *)

Section send.
Context {W A U X SW : Type} `{LO : !ListOps Z Z W, PA : !PageAlloc A, UM : !UserMem U, SO : !ListOps qid qnode SW}.

Definition thread_send_signal (t : Z) (info : siginfo) (s : sigst W A U X) (k : ksched SW)
    : outcome (sigst W A U X * ksched SW) :=
  '(_, s) ← signal_send info t s;
  b ← is_state t TCB_SLEEPING k;
  k ← (if (b : bool) then thread_wakeup t k else Done k);
  s ← (if (si_signo info =? SIGKILL) || (si_signo info =? SIGSTOP) then upd_tcb t set_killed s else Done s);
  Done (s, k).

Definition do_tkill (t signo : Z) (s : sigst W A U X) (k : ksched SW) : outcome (sigst W A U X * ksched SW) :=
  info ← signal_info_init signo 0;
  thread_send_signal t info s k.

(** The threads of the group in turn; the last step is [proc_setkilled]. *)
Fixpoint send_threads (ts : list Z) (info : siginfo) (s : sigst W A U X) (k : ksched SW)
    : outcome (sigst W A U X * ksched SW) :=
  match ts with
  | [] => Done (s, k)
  | t :: ts => '(s, k) ← thread_send_signal t info s k; send_threads ts info s k
  end.

Definition proc_sendsignal_all_thread (ts : list Z) (signo opt : Z) (s : sigst W A U X) (k : ksched SW)
    : outcome (bool * sigst W A U X * ksched SW) :=
  info ← (if decide (ts = []) then Done (SigInfo 0 0) else signal_info_init signo opt);
  '(s, k) ← send_threads ts info s k;
  Done ((signo =? SIGKILL) || (signo =? SIGSTOP), s, k).
End send.

(** ** Well-formed states *)

Section laws.
Context {W A U X : Type} `{LO : !ListOps Z Z W, LH : !ListHeap Z Z W, IN : !IdleNodes Z Z W}.
Context `{PA : !PageAlloc A, PAOK : !PageAllocOk A, UM : !UserMem U, UMOK : !UserMemOk U}.
Context (waitpid : X -> outcome X).
Context (HS XS : gset Z) (Hpages : forall q, 0 <= q < NPAGES -> page_to_pa q ∈ XS).
Notation sigst := (sigst W A U X).
Implicit Types (s : sigst) (L : gmap Z (list Z)) (R : gmap Z (Z * Z)) (v : sigtcb).

Record tcb_ok (H : gmap Z (list sigaction)) v : Prop := {
  to_blocked : word64 (blocked v);
  to_pending : word64 (pending_signal v);
  to_frame : length (trapframe v) = TF_WORDS;
  to_words : Forall word64 (trapframe v);
  to_hands : exists h, H !! sig v = Some h /\ length h = Z.to_nat _NSIG /\ Forall (fun a => word64 (sa_handler a)) h
}.

(** The queue of each thread is a list of pages of its own, each with a valid
    signal in it. *)
Record sig_ok s L R : Prop := {
  so_lists : lh_rep HS XS (s_pend s) L;
  so_alloc : pa_rep (s_al s) R;
  so_thread t v : s_tcb s !! t = Some v -> is_Some (L !! t) /\ tcb_ok (s_hands s) v;
  so_queued t l n : L !! t = Some l -> n ∈ l ->
    exists i, s_info s !! n = Some i /\ valid_signal (si_signo i) = true /\ owned (s_al s) R n
}.

Definition counted s L : Prop := forall t v l, s_tcb s !! t = Some v -> L !! t = Some l ->
  sig_pending_cnt v = Z.of_nat (length l).

Definition sig_wf s : Prop := exists L R, sig_ok s L R /\ counted s L.

(** The signals queued for a list of pages. *)
Definition signos s (l : list Z) : list Z := omap (fun n => si_signo <$> s_info s !! n) l.

Lemma valid_signal_range g : valid_signal g = true <-> 1 <= g <= 64.
Proof. unfold valid_signal, _NSIG. rewrite andb_true_iff, !Z.leb_le. lia. Qed.

Lemma sig_is_member_ok set g : 1 <= g <= 64 -> sig_is_member set g = Done (Z.testbit set (g - 1)).
Proof.
  intros Hg. unfold sig_is_member. rewrite (proj2 (valid_signal_range g)) by done. f_equal.
  pose proof (Z.land_ones (Z.shiftr set (g - 1)) 1 ltac:(lia)) as H1. change (Z.ones 1) with 1 in H1.
  rewrite Z.land_comm, H1, Z.shiftr_div_pow2, Z.testbit_eqb by lia. done.
Qed.

Lemma sig_gen_mask_ok g : 1 <= g <= 64 -> sig_gen_mask g = Done (2 ^ (g - 1)).
Proof.
  intros Hg. unfold sig_gen_mask. rewrite (proj2 (valid_signal_range g)) by done.
  rewrite Z.shiftl_mul_pow2, Z.mul_1_l by lia. done.
Qed.

Lemma word64_bits m : word64 m <-> 0 <= m /\ forall i, 64 <= i -> Z.testbit m i = false.
Proof.
  unfold word64. split.
  - intros [H0 H1]. split; [done|]. intros i Hi. destruct (Z.eq_dec m 0) as [->|]; [apply Z.bits_0|].
    apply Z.bits_above_log2; [lia|]. assert (Z.log2 m < 64) by (apply Z.log2_lt_pow2; lia). lia.
  - intros [H0 Hb]. split; [done|]. destruct (Z.lt_ge_cases m (2 ^ 64)) as [|Hge]; [done|].
    assert (64 <= Z.log2 m) by (apply Z.log2_le_pow2; lia).
    pose proof (Hb (Z.log2 m) ltac:(done)) as H1. rewrite Z.bit_log2 in H1 by lia. done.
Qed.

Lemma word64_lor a b : word64 a -> word64 b -> word64 (Z.lor a b).
Proof.
  rewrite !word64_bits. intros [? Ha] [? Hb]. split; [by apply Z.lor_nonneg|]. intros i Hi.
  by rewrite Z.lor_spec, Ha, Hb.
Qed.

Lemma word64_land a b : word64 a -> word64 (Z.land a b).
Proof.
  rewrite !word64_bits. intros [? Ha]. split; [apply Z.land_nonneg; by left|]. intros i Hi.
  by rewrite Z.land_spec, Ha.
Qed.

Lemma word64_gen g : 1 <= g <= 64 -> word64 (2 ^ (g - 1)).
Proof. intros Hg. split; [lia|]. apply Z.pow_lt_mono_r; lia. Qed.

(** *** Steps that keep the queues *)

Lemma sig_ok_tcb s L R t v v' : sig_ok s L R -> s_tcb s !! t = Some v ->
  word64 (blocked v') -> word64 (pending_signal v') -> length (trapframe v') = TF_WORDS ->
  Forall word64 (trapframe v') -> sig v' = sig v ->
  sig_ok (set_tcb t v' s) L R.
Proof.
  intros [K1 K2 K3 K4] Et Hb Hp Hf Hw Hs. constructor; try done. intros u w. cbn [s_tcb set_tcb s_hands].
  destruct (decide (t = u)) as [<-|Hne]; [|rewrite lookup_insert_ne by done; apply K3].
  rewrite lookup_insert_eq. intros [= <-]. destruct (K3 t v Et) as [Hl []]. split; [done|]. constructor; try done.
  by rewrite Hs.
Qed.

Lemma sig_ok_user s L R u : sig_ok s L R -> sig_ok (s_with_user u s) L R.
Proof. by intros []. Qed.
Lemma sig_ok_procs s L R x : sig_ok s L R -> sig_ok (s_with_procs x s) L R.
Proof. by intros []. Qed.

Lemma counted_tcb s L t v v' : counted s L -> s_tcb s !! t = Some v -> sig_pending_cnt v' = sig_pending_cnt v ->
  counted (set_tcb t v' s) L.
Proof.
  intros H Et Hc u w l. cbn [s_tcb set_tcb]. destruct (decide (t = u)) as [<-|Hne].
  - rewrite lookup_insert_eq. intros [= <-]. rewrite Hc. by apply H.
  - rewrite lookup_insert_ne by done. by apply H.
Qed.

(** A queue is no longer than there are pages. *)
Lemma owned_length (a : A) R (l : list Z) : NoDup l -> (forall n, n ∈ l -> owned a R n) -> Z.of_nat (length l) <= NPAGES.
Proof.
  intros Hnd Ho. assert (l ⊆+ (page_to_pa <$> seqZ 0 NPAGES)) as Hsub%submseteq_length.
  { apply NoDup_submseteq; [done|]. intros n Hn. destruct (Ho n Hn) as (q & o & -> & Hq & _).
    apply list_elem_of_fmap. exists q. split; [done|]. apply elem_of_seqZ. lia. }
  rewrite length_fmap, length_seqZ in Hsub. change NPAGES with 251904 in *. lia.
Qed.

Lemma queue_short s L R t l : sig_ok s L R -> L !! t = Some l -> Z.of_nat (length l) < 2 ^ 30.
Proof.
  intros K El. assert (Z.of_nat (length l) <= NPAGES) as Hl.
  { apply (owned_length (s_al s) R); [by eapply (lh_rep_NoDup HS XS), El; apply K|].
    intros n Hn. by destruct (so_queued _ _ _ K t l n El Hn) as (i & _ & _ & Ho). }
  change NPAGES with 251904 in Hl. lia.
Qed.

Lemma signos_ext s s' l : (forall n, n ∈ l -> s_info s' !! n = s_info s !! n) -> signos s' l = signos s l.
Proof.
  unfold signos. induction l as [|n l IH]; intros Hn; [done|]. cbn. rewrite Hn by by left.
  rewrite IH; [done|]. intros m Hm. apply Hn. by right.
Qed.

(** Nothing but the queues, the queued signals and the allocator changed. *)
Definition same_rest s s' : Prop :=
  s_hands s' = s_hands s /\ s_user s' = s_user s /\ s_procs s' = s_procs s.

Lemma drop_sig_ok s L R t l1 n l2 : sig_ok s L R -> L !! t = Some (l1 ++ n :: l2) ->
  exists s' R', drop_sig n s = Done s' /\ sig_ok s' (<[t := l1 ++ l2]> L) R' /\ s_tcb s' = s_tcb s /\
    same_rest s s' /\ forall m, m <> n -> s_info s' !! m = s_info s !! m.
Proof.
  intros K El. pose proof (lh_rep_NoDup HS XS _ L t _ (so_lists _ _ _ K) El) as Hnd.
  destruct (lh_del_reinit_rep HS XS (s_pend s) L t l1 l2 n (so_lists _ _ _ K) El) as (w & Ew & Rw).
  destruct (so_queued _ _ _ K t _ n El) as (i & Ei & Hi & Ho); [apply elem_of_mid; by left|].
  destruct (kfree_owned (s_al s) R n (so_alloc _ _ _ K) Ho) as (a & R' & Ea & Ra & Hkeep).
  eexists _, R'. split; [|split; [|split; [|split]]].
  - unfold drop_sig, s_with_pend. rewrite Ew. ocbn. cbn [s_al]. rewrite Ea. ocbn. reflexivity.
  - constructor; cbn [s_pend s_al s_tcb s_hands s_info]; [done..| |].
    + intros u v Eu. destruct (so_thread _ _ _ K u v Eu) as [Hl Hv]. split; [|done].
      destruct (decide (t = u)) as [<-|Hne]; [rewrite lookup_insert_eq; eauto|by rewrite lookup_insert_ne].
    + intros u l m Eu Hm.
      assert (m <> n /\ exists l', L !! u = Some l' /\ m ∈ l') as [Hne (l' & El' & Hm')].
      { apply NoDup_mid in Hnd as [Hn _]. destruct (decide (t = u)) as [<-|Hne].
        - rewrite lookup_insert_eq in Eu. injection Eu as <-. split; [by intros ->|].
          eexists. split; [exact El|]. apply elem_of_mid. by right.
        - rewrite lookup_insert_ne in Eu by done. split; [|by eauto]. intros ->. apply Hne.
          eapply (lh_rep_disjoint HS XS _ L t u _ l n (so_lists _ _ _ K)); eauto. apply elem_of_mid. by left. }
      destruct (so_queued _ _ _ K u l' m El' Hm') as (j & Ej & Hj & Hoj). exists j.
      rewrite lookup_delete_ne by done. split_and!; [done..|]. by apply Hkeep.
  - done.
  - by repeat split.
  - intros m Hm. cbn [s_info]. by rewrite lookup_delete_ne.
Qed.

Lemma each_ok s L R t l : sig_ok s L R -> L !! t = Some l -> lh_each t (s_pend s) = Done l.
Proof. intros K El. eapply (lh_each_rep HS XS); [apply K|done]. Qed.

(** *** Sending *)

(** Putting a page with a signal at the end of a queue. *)
Lemma enqueue_ok s L R t l info q a R' : sig_ok s L R -> L !! t = Some l -> valid_signal (si_signo info) = true ->
  0 <= q < NPAGES -> pa_rep a R' -> owned a R' (page_to_pa q) ->
  (forall p, owned (s_al s) R p -> owned a R' p /\ p <> page_to_pa q) ->
  let n := page_to_pa q in
  exists w1 w2, lh_init_node n (s_pend s) = Done w1 /\ lh_add_tail n t w1 = Done w2 /\
    sig_ok (SigSt (s_tcb s) (<[n := info]> (s_info s)) (s_hands s) w2 a (s_user s) (s_procs s)) (<[t := l ++ [n]]> L) R'.
Proof.
  intros K El Hv Hq Ha Hn Hkeep n. assert (n ∈ XS) as Hx by by apply Hpages.
  assert (forall u l' m, L !! u = Some l' -> m ∈ l' -> m <> n) as Hfresh.
  { intros u l' m Eu Hm. destruct (so_queued _ _ _ K u l' m Eu Hm) as (_ & _ & _ & Ho). by apply Hkeep. }
  assert (unlinked L n) as Hu by (intros u l' Eu Hm; by apply (Hfresh u l' n Eu Hm)).
  destruct (lh_init_node_rep HS XS (s_pend s) L n (so_lists _ _ _ K) Hx Hu) as (w1 & E1 & R1 & _).
  destruct (lh_add_tail_rep HS XS w1 L t l n R1 El Hx Hu) as (w2 & E2 & R2).
  exists w1, w2. split_and!; [done..|]. constructor; cbn [s_pend s_al s_tcb s_hands s_info]; [done..| |].
  - intros u v Eu. destruct (so_thread _ _ _ K u v Eu) as [Hl Htc]. split; [|done].
    destruct (decide (t = u)) as [<-|Hne]; [rewrite lookup_insert_eq; eauto|by rewrite lookup_insert_ne].
  - intros u l' m Eu Hm.
    assert (m = n \/ exists l0, L !! u = Some l0 /\ m ∈ l0) as [->|(l0 & E0 & H0)].
    { apply lookup_insert_Some in Eu as [[<- <-]|[_ Eu]]; [|eauto].
      apply elem_of_app in Hm as [Hm|Hm%list_elem_of_singleton]; [right; eauto|by left]. }
    + exists info. rewrite lookup_insert_eq. done.
    + destruct (so_queued _ _ _ K u l0 m E0 H0) as (i & Ei & Hi & Ho). exists i.
      rewrite lookup_insert_ne by (intros E; by apply (Hfresh u l0 m E0 H0)). split_and!; [done..|]. by apply Hkeep.
Qed.

(** Signals that mark the thread as killed when they are sent. *)
Definition kills (g : Z) : bool := (g =? SIGKILL) || (g =? SIGSTOP) || (g =? SIGTERM).

(** The thread once the signal is queued; [v] as it was. *)
Definition with_signal (g : Z) v : sigtcb :=
  SigTcb (sig_pending_cnt v + 1) (sig v) (blocked v) (Z.lor (pending_signal v) (2 ^ (g - 1))) (sig_ing v)
    (killed v || kills g) (trapframe v).

Lemma signal_send_ok s L R t v l info : let g := si_signo info in
  sig_ok s L R -> counted s L -> s_tcb s !! t = Some v -> L !! t = Some l -> 1 <= g <= 64 ->
  if Z.testbit (pending_signal v) (g - 1) then signal_send info t s = Done (0, s)
  else signal_send info t s = Done (0, set_tcb t (if kills g then set_killed v else v) s) /\
      pa_kmalloc PGSIZE (s_al s) = Done (None, s_al s) \/
    exists n s' R', signal_send info t s = Done (1, s') /\ sig_ok s' (<[t := l ++ [n]]> L) R' /\
      counted s' (<[t := l ++ [n]]> L) /\ s_tcb s' = <[t := with_signal g v]> (s_tcb s) /\ (forall u l0, L !! u = Some l0 -> n ∉ l0) /\
      s_info s' = <[n := info]> (s_info s) /\ same_rest s s'.
Proof.
  intros g K Hc Et El Hg. unfold signal_send, tcb_sig. rewrite Et. ocbn.
  change (si_signo info) with g. rewrite (u64_small g) by lia. rewrite (sig_is_member_ok _ g Hg). ocbn.
  destruct (Z.testbit (pending_signal v) (g - 1)) eqn:Eb; [done|].
  set (v1 := if _ || _ then set_killed v else v). assert (v1 = if kills g then set_killed v else v) as Ev1 by done.
  cbn [s_al set_tcb].
  assert (sig_pending_cnt v1 = sig_pending_cnt v /\ pending_signal v1 = pending_signal v /\ sig v1 = sig v /\
    blocked v1 = blocked v /\ sig_ing v1 = sig_ing v /\ trapframe v1 = trapframe v /\ killed v1 = (killed v || kills g)) as Hv1.
  { rewrite Ev1. destruct (kills g); cbn; by rewrite ?orb_true_r, ?orb_false_r. }
  destruct Hv1 as (Hcnt & Hpend & Hsig & Hblk & Hing & Htf & Hkill).
  destruct (kmalloc_owned (s_al s) R PGSIZE (so_alloc _ _ _ K)) as [Ea|Ha]; [done| |].
  { left. rewrite Ea. ocbn. rewrite Ev1. done. }
  right. destruct Ha as (q & a & R' & -> & Hq & Ha & Ho & Hkeep). ocbn.
  destruct (enqueue_ok s L R t l info q a R' K El) as (w1 & w2 & E1 & E2 & K'); try done.
  { by apply valid_signal_range. }
  unfold s_with_pend. cbn [s_pend set_tcb set_info s_with_al]. rewrite E1. ocbn. cbn [s_pend]. rewrite E2. ocbn.
  cbn [s_tcb set_tcb]. rewrite lookup_insert_eq. ocbn. unfold sig_add_set. rewrite (sig_gen_mask_ok g Hg). ocbn.
  destruct (so_thread _ _ _ K t v Et) as [_ Hok]. pose proof (queue_short _ _ _ _ _ K El) as Hlen.
  pose proof (Hc t v l Et El) as Hcl.
  exists (page_to_pa q), (set_tcb t (with_signal g v) (SigSt (s_tcb s) (<[page_to_pa q := info]> (s_info s))
    (s_hands s) w2 a (s_user s) (s_procs s))), R'. split.
  { unfold set_tcb, set_info, s_with_al. cbn [s_tcb s_info s_hands s_pend s_al s_user s_procs].
    do 2 f_equal. rewrite !insert_insert_eq. do 2 f_equal. unfold set_pending, set_cnt, with_signal.
    cbn [pending_signal sig_pending_cnt sig blocked sig_ing killed trapframe].
    rewrite Hcnt, Hpend, Hsig, Hblk, Hing, Htf, Hkill. f_equal. rewrite Hcl. apply s32_small. lia. }
  split_and!; [|intros u w l' Eu El'| |intros u l0 E0 Hn|done|done].
  - eapply sig_ok_tcb; [exact K'|exact Et|..]; [apply Hok| |apply Hok..|done].
    apply word64_lor; [apply Hok|by apply word64_gen].
  - cbn [s_tcb set_tcb] in Eu. destruct (decide (t = u)) as [<-|Hne].
    + rewrite lookup_insert_eq in Eu. rewrite lookup_insert_eq in El'. injection Eu as <-. injection El' as <-. cbn [sig_pending_cnt with_signal].
      rewrite length_app, Hcl. cbn. lia.
    + rewrite lookup_insert_ne in Eu by done. rewrite lookup_insert_ne in El' by done. by apply (Hc u).
  - done.
  - destruct (so_queued _ _ _ K u l0 _ E0 Hn) as (_ & _ & _ & Hon). by destruct (Hkeep _ Hon).
Qed.

(** *** Handling *)

Inductive verdict := Hold | Default | Deliver (act : sigaction).

(** What is to happen to a pending signal under the blocked set [b] and the
    actions [h]. *)
Definition verdict_of (b : Z) (h : list sigaction) (g : Z) : verdict :=
  if Z.testbit b (g - 1) then Hold
  else match h !! Z.to_nat (g - 1) with
    | None => Hold
    | Some act =>
        if sa_handler act =? SIG_DFL then Default
        else if sa_handler act =? SIG_IGN then Hold else Deliver act
    end.

(** One pass over a queue: what stays, the signals that get their default
    action, and the one whose handler is entered, which ends the pass. *)
Fixpoint plan (b : Z) (h : list sigaction) (sg : Z -> Z) (l : list Z) : list Z * list Z * option (Z * sigaction) :=
  match l with
  | [] => ([], [], None)
  | n :: l =>
      match verdict_of b h (sg n) with
      | Hold => let '(k, d, o) := plan b h sg l in (n :: k, d, o)
      | Default => let '(k, d, o) := plan b h sg l in (k, sg n :: d, o)
      | Deliver act => (l, [], Some (sg n, act))
      end
  end.

Lemma plan_fmap b h sg l : plan b h id (sg <$> l) =
  let '(k, d, o) := plan b h sg l in (sg <$> k, d, o).
Proof.
  induction l as [|n l IH]; [done|]. cbn [plan fmap list_fmap]. change (id (sg n)) with (sg n).
  destruct (verdict_of b h (sg n)); [| |done]; change (list_fmap _ _ sg l) with (sg <$> l); rewrite IH;
    by destruct (plan b h sg l) as [[k d] o].
Qed.

Lemma plan_kept b h sg l : forall k d o, plan b h sg l = (k, d, o) -> k ⊆ l /\
  (length k + length d + (if o then 1 else 0) = length l)%nat.
Proof.
  induction l as [|n l IH]; intros k d o; cbn [plan]; [by intros [= <- <- <-]|].
  destruct (plan b h sg l) as [[k' d'] o'] eqn:E. destruct (IH _ _ _ eq_refl) as [Hsub Hlen].
  destruct (verdict_of b h (sg n)); intros [= <- <- <-]; cbn [length]; (split; [set_solver|lia]).
Qed.

Lemma u64_word a : word64 (u64 a).
Proof. apply Z.mod_pos_bound. lia. Qed.

Definition frame_of (tf : list Z) : Z :=
  Z.land (u64 (tf !!! tf_sp - sizeof_rt_sigframe)) (u64 (Z.lnot 0xf)).

(** The registers on entry to the handler. *)
Definition handler_tf (act : sigaction) (g : Z) (tf : list Z) : list Z :=
  <[tf_a2 := frame_of tf]> (<[tf_a1 := 0]> (<[tf_a0 := g]> (<[tf_sp := frame_of tf]>
    (<[tf_epc := sa_handler act]> (<[tf_ra := SIGRETURN]> tf))))).

(** The thread after its pass over the queue, and user memory. *)
Definition handled (d : list Z) (o : option (Z * sigaction)) v : sigtcb :=
  let c := sig_pending_cnt v - Z.of_nat (length d) in
  let kl := killed v || existsb (fun g => g =? SIGKILL) d in
  match o with
  | None => SigTcb c (sig v) (blocked v) (pending_signal v) (sig_ing v) kl (trapframe v)
  | Some (g, act) =>
      SigTcb (c - 1) (sig v) (blocked v) (pending_signal v) g kl (handler_tf act g (trapframe v))
  end.
Definition handled_user (o : option (Z * sigaction)) v (u : U) : U :=
  match o with
  | None => u
  | Some (g, _) => (signal_frame_setup (blocked v) (trapframe v) (frame_of (trapframe v)) g u).2
  end.
(** The calls of [waitpid] for the signals that got their default action. *)
Fixpoint reaped (d : list Z) (x : X) : outcome X :=
  match d with
  | [] => Done x
  | g :: d => if g =? SIGCHLD then x ← waitpid x; reaped d x else reaped d x
  end.

(** [m'] does not return, as [m] does not. *)
Definition fails_as {B C} (m : outcome B) (m' : outcome C) : Prop :=
  match m, m' with Panic, Panic | Undef, Undef | NoFuel, NoFuel => True | _, _ => False end.

Lemma do_handle_ok t g act s v : s_tcb s !! t = Some v -> length (trapframe v) = TF_WORDS ->
  do_handle t g act s = Done (s_with_user (handled_user (Some (g, act)) v (s_user s))
    (set_tcb t (set_tf (handler_tf act g (trapframe v)) v) s)).
Proof.
  intros Et Hl. unfold do_handle, tcb_sig. rewrite Et. ocbn. unfold setup_rt_frame, get_sigframe.
  destruct (lookup_lt_is_Some_2 (trapframe v) tf_sp) as [sp Esp]; [rewrite Hl; unfold tf_sp, TF_WORDS; lia|].
  unfold handled_user, handler_tf, frame_of. rewrite (list_lookup_total_correct _ _ _ Esp), Esp. ocbn.
  by destruct (signal_frame_setup _ _ _ _ _) as [r u].
Qed.

Lemma handler_tf_words act g tf : word64 (sa_handler act) -> word64 g -> Forall word64 tf ->
  Forall word64 (handler_tf act g tf).
Proof.
  intros Ha Hg Htf. unfold handler_tf. assert (word64 (frame_of tf)) by apply word64_land, u64_word.
  repeat (apply Forall_insert; [|done||by split]). done.
Qed.

Lemma handler_tf_length act g tf : length (handler_tf act g tf) = length tf.
Proof. unfold handler_tf. by rewrite !length_insert. Qed.

(** What a pass over [l], the rest of the queue after [pre], left: [k] of it; or
    it does not return because a [waitpid] did not. *)
Definition passed t pre (l : list Z) v s L (p : list Z * list Z * option (Z * sigaction)) (m : outcome sigst) : Prop :=
  let '(k, d, o) := p in
  match reaped d (s_procs s) with
  | Done x => exists s' R', m = Done s' /\ sig_ok s' (<[t := pre ++ k]> L) R' /\
      s_tcb s' = <[t := handled d o v]> (s_tcb s) /\ s_hands s' = s_hands s /\
      s_user s' = handled_user o v (s_user s) /\ s_procs s' = x /\
      forall m, m ∉ l \/ m ∈ k -> s_info s' !! m = s_info s !! m
  | f => fails_as f m
  end.

Lemma default_ok s L R t v pre n l g : sig_ok s L R -> s_tcb s !! t = Some v -> L !! t = Some (pre ++ n :: l) ->
  0 < sig_pending_cnt v < 2 ^ 31 ->
  let m := s1 ← signal_DFL waitpid t g s;
      s2 ← upd_tcb t (fun v => set_cnt (s32 (sig_pending_cnt v - 1)) v) s1; drop_sig n s2 in
  match reaped [g] (s_procs s) with
  | Done x => exists s' R', m = Done s' /\
      sig_ok s' (<[t := pre ++ l]> L) R' /\ s_tcb s' = <[t := handled [g] None v]> (s_tcb s) /\
      s_hands s' = s_hands s /\ s_user s' = s_user s /\ s_procs s' = x /\
      forall m, m <> n -> s_info s' !! m = s_info s !! m
  | f => fails_as f (signal_DFL waitpid t g s)
  end.
Proof.
  intros K Et El Hc m. destruct (so_thread _ _ _ K t v Et) as [_ Hok].
  destruct (reaped [g] (s_procs s)) as [x| | |] eqn:Ex.
  2-4: cbn [reaped] in Ex; destruct (Z.eqb_spec g SIGCHLD) as [->|]; [|discriminate Ex];
    unfold signal_DFL; change (SIGCHLD =? SIGKILL) with false; change (SIGCHLD =? SIGCHLD) with true; cbv iota;
    destruct (waitpid (s_procs s)); try discriminate Ex; exact I.
  set (s1 := s_with_procs x (set_tcb t (handled [g] None v) s)).
  assert (sig_ok s1 L R) as K1.
  { apply sig_ok_procs. by eapply sig_ok_tcb; [exact K|exact Et|apply Hok..|]. }
  destruct (drop_sig_ok s1 L R t pre n l K1 El) as (s' & R' & E & K' & ET & (EH & EU & EP) & EI).
  exists s', R'. split; [|split_and!; try done; by rewrite ?ET, ?EH, ?EU, ?EP].
  rewrite <- E. unfold m, s1, signal_DFL, upd_tcb, tcb_sig, handled.
  cbn [length existsb]. rewrite orb_false_r. cbn [reaped] in Ex. unfold SIGKILL, SIGCHLD in *.
  destruct (Z.eqb_spec g 9) as [->|H9]; [|destruct (Z.eqb_spec g 20) as [->|H20]].
  - injection Ex as <-. rewrite Et. ocbn. cbn [s_tcb set_tcb]. rewrite lookup_insert_eq. ocbn. f_equal.
    unfold set_tcb, s_with_procs. cbn [s_tcb s_info s_hands s_pend s_al s_user s_procs]. rewrite insert_insert_eq.
    unfold set_cnt, set_killed. cbn. rewrite orb_true_r, s32_small by lia. done.
  - destruct (waitpid (s_procs s)) as [x'| | |]; try discriminate Ex. injection Ex as ->. ocbn.
    cbn [s_tcb s_with_procs]. rewrite Et. ocbn. f_equal.
    unfold set_tcb, s_with_procs, set_cnt. cbn. rewrite orb_false_r, s32_small by lia. done.
  - injection Ex as <-. ocbn. rewrite Et. ocbn. f_equal.
    unfold set_tcb, s_with_procs, set_cnt. cbn. rewrite orb_false_r, s32_small by lia. by destruct s.
Qed.

Lemma handled_cons g d o v : handled d o (handled [g] None v) = handled (g :: d) o v.
Proof.
  unfold handled. cbn [sig_pending_cnt sig blocked pending_signal sig_ing killed trapframe existsb length].
  rewrite orb_false_r, <- orb_assoc. destruct o as [[g' act]|]; f_equal; lia.
Qed.

Lemma reaped_cons g d x : reaped (g :: d) x = (x' ← reaped [g] x; reaped d x').
Proof. cbn [reaped]. destruct (g =? SIGCHLD); [|done]. by destruct (waitpid x). Qed.

Lemma passed_hold t pre n l v s L k d o m : n ∉ l ->
  passed t (pre ++ [n]) l v s L (k, d, o) m -> passed t pre (n :: l) v s L (n :: k, d, o) m.
Proof.
  unfold passed. intros Hn. destruct (reaped d (s_procs s)) as [x| | |]; try done.
  intros (s' & R' & E1 & E2 & E3 & E4 & E5 & E6 & E7). rewrite <- app_assoc in E2. exists s', R'.
  split_and!; try done. intros y [Hy|[->|Hy]%elem_of_cons]; apply E7; [left; set_solver|by left|by right].
Qed.

Lemma passed_default t pre n l v s s1 L g k d o m : n ∉ l -> k ⊆ l ->
  s_tcb s1 = <[t := handled [g] None v]> (s_tcb s) -> s_hands s1 = s_hands s -> s_user s1 = s_user s ->
  reaped [g] (s_procs s) = Done (s_procs s1) -> (forall m, m <> n -> s_info s1 !! m = s_info s !! m) ->
  passed t pre l (handled [g] None v) s1 (<[t := pre ++ l]> L) (k, d, o) m ->
  passed t pre (n :: l) v s L (k, g :: d, o) m.
Proof.
  intros Hn Hk T1 H1 U1 P1 I1. unfold passed. rewrite reaped_cons, P1. ocbn.
  destruct (reaped d (s_procs s1)) as [x| | |]; try done. intros (s' & R' & E1 & E2 & E3 & E4 & E5 & E6 & E7).
  rewrite insert_insert_eq in E2. rewrite T1, insert_insert_eq in E3. exists s', R'. split_and!; try done.
  - rewrite E3. f_equal. apply handled_cons.
  - by rewrite E4.
  - rewrite E5, U1. by destruct o as [[g' act']|].
  - intros y Hy. assert (y <> n /\ (y ∉ l \/ y ∈ k)) as [Hne Hy'] by set_solver. rewrite E7, I1; done.
Qed.

Lemma deliver_ok s L R t v pre n l g act : sig_ok s L R -> s_tcb s !! t = Some v -> L !! t = Some (pre ++ n :: l) ->
  0 < sig_pending_cnt v < 2 ^ 31 -> n ∉ l -> word64 (sa_handler act) -> word64 g ->
  passed t pre (n :: l) v s L (l, [], Some (g, act))
    (s1 ← do_handle t g act s;
     s2 ← upd_tcb t (fun v => set_ing g (set_cnt (s32 (sig_pending_cnt v - 1)) v)) s1; drop_sig n s2).
Proof.
  intros K Et El Hc Hn Ha Hg. destruct (so_thread _ _ _ K t v Et) as [_ Hok].
  set (s1 := s_with_user (handled_user (Some (g, act)) v (s_user s)) (set_tcb t (handled [] (Some (g, act)) v) s)).
  assert (sig_ok s1 L R) as K1.
  { apply sig_ok_user. eapply sig_ok_tcb; [exact K|exact Et|apply Hok|apply Hok| | |done].
    - cbn [trapframe handled]. rewrite handler_tf_length. apply Hok.
    - cbn [trapframe handled]. apply handler_tf_words; [done..|apply Hok]. }
  destruct (drop_sig_ok s1 L R t pre n l K1 El) as (s' & R' & E & K' & ET & (EH & EU & EP) & EI).
  exists s', R'. split; [|split_and!; try done; intros m Hm; apply EI; set_solver].
  rewrite <- E, (do_handle_ok _ _ _ _ v Et (to_frame _ _ Hok)). ocbn. unfold s1, upd_tcb, tcb_sig.
  cbn [s_tcb s_with_user set_tcb]. rewrite lookup_insert_eq. ocbn. f_equal.
  unfold set_tcb, s_with_user, set_ing, set_cnt, set_tf, handled.
  cbn [s_tcb s_info s_hands s_pend s_al s_user s_procs sig_pending_cnt sig blocked pending_signal killed trapframe
    length existsb].
  rewrite insert_insert_eq, orb_false_r, Z.sub_0_r, s32_small by lia. done.
Qed.

Lemma handle_loop_ok t h sg l : forall pre s L R v, sig_ok s L R -> s_tcb s !! t = Some v -> L !! t = Some (pre ++ l) ->
  s_hands s !! sig v = Some h -> Z.of_nat (length l) <= sig_pending_cnt v < 2 ^ 31 ->
  (forall n, n ∈ l -> exists i, s_info s !! n = Some i /\ si_signo i = sg n) ->
  passed t pre l v s L (plan (blocked v) h sg l) (handle_loop waitpid t l s).
Proof.
  induction l as [|n l IH]; intros pre s L R v K Et El Eh Hc Hi; cbn [plan handle_loop length] in *.
  { unfold passed. cbn [reaped]. rewrite app_nil_r in *. exists s, R. rewrite (insert_id L t pre El). split_and!; try done.
    unfold handled. cbn. rewrite Z.sub_0_r, orb_false_r. rewrite insert_id; [done|]. by destruct v. }
  destruct (Hi n (list_elem_of_here _ _)) as (i & Ei & Hsg). rewrite Ei. ocbn.
  destruct (so_queued _ _ _ K t _ n El) as (i' & Ei' & Hval & _); [apply elem_of_mid; by left|].
  assert (i' = i) as -> by congruence. rewrite Hval. cbn [negb]. unfold tcb_sig. rewrite Et. ocbn.
  apply valid_signal_range in Hval as Hg. rewrite (sig_is_member_ok _ _ Hg). ocbn. rewrite Hsg in *.
  destruct (so_thread _ _ _ K t v Et) as [_ Hok]. destruct (to_hands _ _ Hok) as (h' & Eh' & Hlen & Hact).
  assert (h' = h) as -> by congruence.
  assert (n ∉ l) as Hnot.
  { pose proof (lh_rep_NoDup HS XS _ L t _ (so_lists _ _ _ K) El) as [Hn _]%NoDup_mid. set_solver. }
  assert (passed t pre (n :: l) v s L (let '(k, d, o) := plan (blocked v) h sg l in (n :: k, d, o))
    (handle_loop waitpid t l s)) as Hhold.
  { specialize (IH (pre ++ [n]) s L R v K Et). rewrite <- app_assoc in IH.
    specialize (IH El Eh ltac:(lia) ltac:(intros m Hm; apply Hi; by right)).
    destruct (plan _ h sg l) as [[k d] o]. by apply passed_hold. }
  unfold verdict_of. destruct (Z.testbit (blocked v) (sg n - 1)); [done|]. rewrite Eh. ocbn.
  destruct (lookup_lt_is_Some_2 h (Z.to_nat (sg n - 1))) as [act Eact]; [rewrite Hlen; unfold _NSIG; lia|].
  rewrite Eact. ocbn. destruct (sa_handler act =? SIG_DFL); [|destruct (sa_handler act =? SIG_IGN); [done|]].
  - pose proof (default_ok s L R t v pre n l (sg n) K Et El ltac:(lia)) as Hd. cbv zeta in Hd.
    destruct (reaped [sg n] (s_procs s)) as [x| | |] eqn:Ex.
    2-4: destruct (plan _ h sg l) as [[k d] o]; unfold passed; rewrite reaped_cons, Ex; ocbn;
      destruct (signal_DFL waitpid t (sg n) s); done.
    destruct Hd as (s1 & R1 & E & K1 & T1 & H1 & U1 & P1 & I1). rewrite <- P1 in Ex.
    apply bind_Done in E as (s2 & E2 & E). apply bind_Done in E as (s3 & E3 & E). rewrite E2. ocbn. rewrite E3. ocbn.
    rewrite E. ocbn. specialize (IH pre s1 (<[t := pre ++ l]> L) R1 (handled [sg n] None v) K1).
    rewrite T1, H1 in IH. cbn [handled sig blocked sig_pending_cnt length] in IH.
    specialize (IH (lookup_insert_eq _ _ _) (lookup_insert_eq _ _ _) Eh ltac:(lia)
      ltac:(intros m Hm; rewrite I1 by (by intros ->); apply Hi; by right)).
    destruct (plan _ h sg l) as [[k d] o] eqn:Ep. destruct (plan_kept _ _ _ _ _ _ _ Ep) as [Hsub _].
    by eapply passed_default.
  - apply (deliver_ok _ _ R); try done; [lia|exact (Forall_lookup_1 _ _ _ _ Hact Eact)|unfold word64; lia].
Qed.

(** *** Queues as lists of signals *)

Definition sig_rep s (Q : gmap Z (list Z)) : Prop :=
  exists L R, sig_ok s L R /\ counted s L /\ Q = signos s <$> L.

Lemma signos_fmap sg s l : (forall n, n ∈ l -> exists i, s_info s !! n = Some i /\ si_signo i = sg n) ->
  signos s l = sg <$> l.
Proof.
  unfold signos. induction l as [|n l IH]; intros H; [done|]. cbn.
  destruct (H n (list_elem_of_here _ _)) as (i & -> & Hi). cbn. rewrite Hi, IH; [done|]. intros m Hm. apply H. by right.
Qed.

(** A change to one queue; the signals in the others stay where they are. *)
Lemma queues_changed s s' L t l l' : lh_rep HS XS (s_pend s) L -> L !! t = Some l ->
  (forall n u l0, t <> u -> L !! u = Some l0 -> n ∈ l0 -> s_info s' !! n = s_info s !! n) ->
  signos s' <$> <[t := l']> L = <[t := signos s' l']> (signos s <$> L).
Proof.
  intros HR El Hn. rewrite fmap_insert. apply map_eq. intros u. destruct (decide (t = u)) as [<-|Hne].
  - by rewrite !lookup_insert_eq.
  - rewrite !lookup_insert_ne, !lookup_fmap by done. destruct (L !! u) as [l0|] eqn:E0; [|done]. cbn. f_equal.
    apply signos_ext. intros n Hin. by apply (Hn n u l0).
Qed.

Lemma signal_send_rep s Q t v l info : let g := si_signo info in
  sig_rep s Q -> s_tcb s !! t = Some v -> Q !! t = Some l -> 1 <= g <= 64 ->
  if Z.testbit (pending_signal v) (g - 1) then signal_send info t s = Done (0, s)
  else signal_send info t s = Done (0, set_tcb t (if kills g then set_killed v else v) s) /\
      pa_kmalloc PGSIZE (s_al s) = Done (None, s_al s) \/
    exists s', signal_send info t s = Done (1, s') /\ sig_rep s' (<[t := l ++ [g]]> Q) /\
      s_tcb s' = <[t := with_signal g v]> (s_tcb s) /\ same_rest s s'.
Proof.
  intros g (L & R & K & Hc & ->) Et Eq Hg. rewrite lookup_fmap in Eq. destruct (L !! t) as [nl|] eqn:El; [|done].
  injection Eq as <-. pose proof (signal_send_ok s L R t v nl info K Hc Et El Hg) as H. fold g in H.
  destruct (Z.testbit (pending_signal v) (g - 1)); [done|].
  destruct H as [H|(n & s' & R' & E & K' & Hc' & ET & Hn & EI & Hr)]; [by left|right]. exists s'. split_and!; try done.
  eexists _, R'. split; [exact K'|]. split; [done|].
  rewrite (queues_changed s s' L t nl (nl ++ [n]) (so_lists _ _ _ K) El).
  - f_equal. unfold signos at 2. rewrite omap_app. f_equal.
    + apply signos_ext. intros m Hm. rewrite EI, lookup_insert_ne; [done|]. intros ->. by apply (Hn t nl).
    + cbn. by rewrite EI, lookup_insert_eq.
  - intros m u l0 Hne E0 Hm. rewrite EI, lookup_insert_ne; [done|]. intros ->. by apply (Hn u l0).
Qed.

Lemma signal_handle_rep s Q t v l h : sig_rep s Q -> s_tcb s !! t = Some v -> Q !! t = Some l ->
  s_hands s !! sig v = Some h ->
  let '(k, d, o) := plan (blocked v) h id l in
  match reaped d (s_procs s) with
  | Done x => exists s', signal_handle waitpid t s = Done (if decide (l = []) then 0 else 1, s') /\ sig_rep s' (<[t := k]> Q) /\
      s_tcb s' = <[t := handled d o v]> (s_tcb s) /\ s_hands s' = s_hands s /\
      s_user s' = handled_user o v (s_user s) /\ s_procs s' = x
  | f => fails_as f (signal_handle waitpid t s)
  end.
Proof.
  intros (L & R & K & Hc & ->) Et Eq Eh. rewrite lookup_fmap in Eq. destruct (L !! t) as [nl|] eqn:El; [|done].
  injection Eq as <-. set (sg := fun n => default 0 (si_signo <$> s_info s !! n)).
  assert (forall n, n ∈ nl -> exists i, s_info s !! n = Some i /\ si_signo i = sg n) as Hsg.
  { intros n Hn. destruct (so_queued _ _ _ K t nl n El Hn) as (i & Ei & _). exists i. split; [done|].
    unfold sg. by rewrite Ei. }
  rewrite (signos_fmap sg s nl Hsg), plan_fmap. pose proof (Hc t v nl Et El) as Hcl.
  pose proof (queue_short _ _ _ _ _ K El) as Hlen. pose proof (handle_loop_ok t h sg nl [] s L R v K Et El Eh) as H.
  specialize (H ltac:(lia) Hsg). destruct (plan (blocked v) h sg nl) as [[k d] o] eqn:Ep.
  destruct (plan_kept _ _ _ _ _ _ _ Ep) as [Hsub Hk].
  unfold passed in H. destruct (reaped d (s_procs s)) as [x| | |] eqn:Ex.
  2-4: unfold signal_handle, tcb_sig; rewrite Et; ocbn; rewrite Hcl, (each_ok s L R t nl K El);
    (destruct nl as [|n nl]; [cbn in Ep; injection Ep as <- <- <-; discriminate Ex|]);
    rewrite (proj2 (Z.eqb_neq _ 0)) by (cbn; lia); ocbn; by destruct (handle_loop waitpid t (n :: nl) s).
  destruct H as (s' & R' & E & K' & ET & EH & EU & EP & EI). cbn [app] in K'.
  exists s'. split_and!; try done.
  - unfold signal_handle, tcb_sig. rewrite Et. ocbn. rewrite Hcl, (each_ok s L R t nl K El). destruct nl as [|n nl]; cbn [length].
    + rewrite decide_True by done. cbn in *. by injection E as ->.
    + rewrite decide_False by (destruct nl; discriminate). rewrite (proj2 (Z.eqb_neq _ 0)) by lia. ocbn. by rewrite E.
  - eexists _, R'. split; [exact K'|]. split.
    + intros u w l0 Eu E0. rewrite ET in Eu. destruct (decide (t = u)) as [<-|Hne].
      * rewrite lookup_insert_eq in Eu. rewrite lookup_insert_eq in E0. injection Eu as <-. injection E0 as <-.
        unfold handled. destruct o as [[g act]|]; cbn [sig_pending_cnt]; lia.
      * rewrite lookup_insert_ne in Eu by done. rewrite lookup_insert_ne in E0 by done. by apply (Hc u).
    + rewrite (queues_changed s s' L t nl k (so_lists _ _ _ K) El).
      * f_equal. rewrite (signos_fmap sg s' k); [done|]. intros n Hn. rewrite EI by by right. by apply Hsg, Hsub.
      * intros n u l0 Hne E0 Hn. apply EI. left. intros Hn'. apply Hne.
        eapply (lh_rep_disjoint HS XS _ L t u nl l0 n (so_lists _ _ _ K)); done.
Qed.

(** *** The calls that leave the queues alone *)

Lemma rep_tcb s Q t v v' : sig_rep s Q -> s_tcb s !! t = Some v -> sig_pending_cnt v' = sig_pending_cnt v ->
  word64 (blocked v') -> word64 (pending_signal v') -> length (trapframe v') = TF_WORDS ->
  Forall word64 (trapframe v') -> sig v' = sig v -> sig_rep (set_tcb t v' s) Q.
Proof.
  intros (L & R & K & Hc & ->) Et Ec Hb Hp Hf Hw Hs. exists L, R. split; [by eapply sig_ok_tcb|].
  split; [by eapply counted_tcb|done].
Qed.

Lemma rep_thread s Q t v : sig_rep s Q -> s_tcb s !! t = Some v -> tcb_ok (s_hands s) v /\ is_Some (Q !! t).
Proof.
  intros (L & R & K & _ & ->) Et. destruct (so_thread _ _ _ K t v Et) as [[l El] Hok]. split; [done|].
  rewrite lookup_fmap, El. eauto.
Qed.

Lemma rep_user s Q u : sig_rep s Q -> sig_rep (s_with_user u s) Q.
Proof. intros (L & R & K & Hc & ->). exists L, R. split; [by apply sig_ok_user|done]. Qed.

Lemma word64_del_or a g g' : word64 a -> word64 (sig_del_set_mask_or a g g').
Proof. apply word64_land. Qed.

(** The set a call of [do_sigprocmask] leaves. *)
Definition masked (how set b : Z) : option Z :=
  if how =? SIG_BLOCK then Some (Z.lor b set)
  else if how =? SIG_UNBLOCK then Some (Z.land b set)
  else if how =? SIG_SETMASK then Some set else None.

Lemma do_sigprocmask_ok s Q t v how set : sig_rep s Q -> s_tcb s !! t = Some v -> word64 set ->
  match masked how set (blocked v) with
  | Some b => do_sigprocmask how set t s = Done (0, blocked v, set_tcb t (set_blocked b v) s) /\
      sig_rep (set_tcb t (set_blocked b v) s) Q
  | None => do_sigprocmask how set t s = Done (-1, blocked v, s)
  end.
Proof.
  intros K Et Hset. destruct (rep_thread _ _ _ _ K Et) as [Hok _]. unfold masked, do_sigprocmask, tcb_sig. rewrite Et. ocbn.
  assert (forall b, word64 b -> sig_rep (set_tcb t (set_blocked b v) s) Q) as Hb.
  { intros b Hb. eapply rep_tcb; [done..|apply Hok|apply Hok|apply Hok|done]. }
  pose proof (to_blocked _ _ Hok) as Hbv.
  destruct (how =? SIG_BLOCK), (how =? SIG_UNBLOCK), (how =? SIG_SETMASK); try done; (split; [done|apply Hb]).
  all: first [by apply word64_lor|by apply word64_land|done].
Qed.

(** Every thread is still there, with the pending bits it had. *)
Definition keeps_pending s s' : Prop := forall u v, s_tcb s !! u = Some v -> exists v', s_tcb s' !! u = Some v' /\
  forall i, Z.testbit (pending_signal v) i = true -> Z.testbit (pending_signal v') i = true.

Lemma keeps_refl s : keeps_pending s s.
Proof. intros u v E. by exists v. Qed.
#[local] Hint Resolve keeps_refl : core.

Lemma keeps_set t v v' s s' : s_tcb s !! t = Some v -> s_tcb s' = <[t := v']> (s_tcb s) ->
  (forall i, Z.testbit (pending_signal v) i = true -> Z.testbit (pending_signal v') i = true) -> keeps_pending s s'.
Proof.
  intros Et E Hp u w Eu. rewrite E. destruct (decide (t = u)) as [<-|Hne].
  - rewrite lookup_insert_eq. exists v'. split; [done|]. by assert (w = v) as -> by congruence.
  - rewrite lookup_insert_ne by done. by exists w.
Qed.

Lemma sys_rt_sigprocmask_ok s Q t v lim how set_addr oldset_addr size stale : sig_rep s Q -> s_tcb s !! t = Some v ->
  word64 stale ->
  exists r s', sys_rt_sigprocmask lim how set_addr oldset_addr size stale t s = Done (r, s') /\ sig_rep s' Q /\
    keeps_pending s s'.
Proof.
  intros K Et Hst. unfold sys_rt_sigprocmask. destruct (lim =? 1); [eauto|]. destruct (negb _); [eauto|].
  destruct (if set_addr =? 0 then _ else _) as [ws|] eqn:Ews; [|eauto]. destruct ws as [|w [|w' ws]]; [eauto| |eauto].
  assert (word64 w) as Hw.
  { destruct (set_addr =? 0); [by injection Ews as <-|]. apply um_word in Ews as [_ Hw]. by inversion Hw. }
  rewrite !sig_gen_mask_ok by (unfold SIGKILL, SIGSTOP; lia). ocbn.
  pose proof (do_sigprocmask_ok s Q t v how (sig_del_set_mask_or w (2 ^ (SIGKILL - 1)) (2 ^ (SIGSTOP - 1))) K Et) as H.
  specialize (H ltac:(by apply word64_del_or)). destruct (masked _ _ _) as [b|].
  - destruct H as [-> K']. ocbn.
    assert (forall s', s_tcb s' = s_tcb (set_tcb t (set_blocked b v) s) -> keeps_pending s s') as Hk.
    { intros s' Es. by eapply (keeps_set t v (set_blocked b v)). }
    destruct (_ && _); [|eauto 6]. destruct (um_copyout _ _ _) as [ok u].
    do 2 eexists. split; [done|]. split; [by apply rep_user|by apply Hk].
  - rewrite H. ocbn. cbn [Z.eqb andb]. eauto.
Qed.

Lemma do_sigaction_ok s Q t v g act : sig_rep s Q -> s_tcb s !! t = Some v ->
  (forall a, act = Some a -> word64 (sa_handler a)) ->
  exists r old s', do_sigaction g act t s = Done (r, old, s') /\ sig_rep s' Q /\ s_tcb s' = s_tcb s.
Proof.
  intros K Et Ha. unfold do_sigaction, tcb_sig. rewrite Et. ocbn. destruct (valid_signal g) eqn:Hg; cbn [negb]; [|eauto 7].
  apply valid_signal_range in Hg. destruct (rep_thread _ _ _ _ K Et) as [Hok _].
  destruct (to_hands _ _ Hok) as (h & Eh & Hlen & Hh). rewrite Eh. ocbn.
  destruct (lookup_lt_is_Some_2 h (Z.to_nat (g - 1))) as [k Ek]; [rewrite Hlen; unfold _NSIG; lia|]. rewrite Ek. ocbn.
  destruct act as [act|]; [|eauto 7]. rewrite !sig_gen_mask_ok by (unfold SIGKILL, SIGSTOP; lia). ocbn.
  do 3 eexists. split; [done|]. split; [|done].
  destruct K as (L & R & [K1 K2 K3 K4] & Hc & ->). exists L, R. split; [|done].
  constructor; try done. intros u w Eu. cbn [s_tcb s_hands] in *. destruct (K3 u w Eu) as [Hl []]. split; [done|].
  constructor; try done. destruct (decide (sig v = sig w)) as [He|He].
  - rewrite <- He, lookup_insert_eq. eexists. split; [done|]. rewrite length_insert. split; [done|].
    apply Forall_insert; [done|]. cbn. by apply Ha.
  - by rewrite lookup_insert_ne.
Qed.

(** What [signal_frame_restore] makes of the thread. *)
Definition restored s v : sigtcb :=
  let sp := trapframe v !!! tf_sp in
  match um_copyin (u64 (sp + UC_OFFSET)) (TF_WORDS + 2) (s_user s) with
  | None => v
  | Some uc =>
      let tf := take TF_WORDS uc in
      let tf := match um_copyin sp UC_RISCV_WORDS (s_user s) with
        | None => tf
        | Some rv => if rv !!! GREGS0 =? 0 then tf else <[tf_epc := rv !!! GREGS0]> tf
        end in
      SigTcb (sig_pending_cnt v) (sig v) (uc !!! TF_WORDS) (pending_signal v) (uc !!! S TF_WORDS) (killed v) tf
  end.

(** The thread when the call returns. *)
Definition returned_tcb v : sigtcb :=
  SigTcb (sig_pending_cnt v) (sig v) (blocked v) (sig_del_set_mask (pending_signal v) (2 ^ (sig_ing v - 1))) (sig_ing v)
    (killed v) (<[tf_a0 := u64 (- EINTR)]> (trapframe v)).

Lemma word_at (l : list Z) i : Forall word64 l -> (i < length l)%nat -> l !! i = Some (l !!! i) /\ word64 (l !!! i).
Proof.
  intros Hl Hi. pose proof (list_lookup_lookup_total_lt l i Hi) as E. split; [done|]. exact (Forall_lookup_1 _ _ _ _ Hl E).
Qed.

Lemma restored_ok H s v : tcb_ok H v -> tcb_ok H (restored s v).
Proof.
  intros Hok. unfold restored. destruct (um_copyin _ _ _) as [uc|] eqn:Euc; [|done].
  apply um_word in Euc as [Hl Hw]. destruct (word_at uc TF_WORDS Hw ltac:(rewrite Hl; unfold TF_WORDS; lia)) as [_ H1].
  constructor; cbn [blocked pending_signal trapframe sig]; try done; try apply Hok.
  - destruct (um_copyin _ _ _) as [rv|]; [destruct (_ =? 0)|]; rewrite ?length_insert, length_take; unfold TF_WORDS in *; lia.
  - assert (Forall word64 (take TF_WORDS uc)) as Ht by by apply Forall_take.
    destruct (um_copyin _ _ _) as [rv|] eqn:Erv; [|done]. destruct (_ =? 0); [done|]. apply Forall_insert; [done|].
    apply um_word in Erv as [Hlr Hwr]. apply word_at; [done|]. rewrite Hlr. unfold GREGS0, UC_RISCV_WORDS. lia.
Qed.

Lemma frame_restore_ok s t v : s_tcb s !! t = Some v -> exists r,
  signal_frame_restore t (trapframe v !!! tf_sp) s = Done (r, set_tcb t (restored s v) s).
Proof.
  intros Et. unfold signal_frame_restore, restored, upd_tcb, tcb_sig. set (sp := trapframe v !!! tf_sp).
  destruct (um_copyin _ _ _) as [uc|] eqn:Euc.
  2: { exists (-1). do 2 f_equal. unfold set_tcb. rewrite insert_id by done. by destruct s. }
  apply um_word in Euc as [Hl Hw].
  destruct (word_at uc TF_WORDS Hw ltac:(rewrite Hl; unfold TF_WORDS; lia)) as [E1 _].
  destruct (word_at uc (S TF_WORDS) Hw ltac:(rewrite Hl; unfold TF_WORDS; lia)) as [E2 _].
  rewrite E1, E2. ocbn. rewrite Et. ocbn. cbn [s_user set_tcb].
  destruct (um_copyin sp _ _) as [rv|] eqn:Erv; [|by exists (-1)]. apply um_word in Erv as [Hlr Hwr].
  destruct (word_at rv GREGS0 Hwr ltac:(rewrite Hlr; unfold GREGS0, UC_RISCV_WORDS; lia)) as [E3 _]. rewrite E3. ocbn.
  exists 0. destruct (_ =? 0); ocbn; [done|]. cbn [s_tcb set_tcb]. rewrite lookup_insert_eq. ocbn. do 2 f_equal.
  unfold set_tcb. cbn [s_tcb s_info s_hands s_pend s_al s_user s_procs]. by rewrite insert_insert_eq.
Qed.

Lemma sys_rt_sigreturn_ok s Q t v : sig_rep s Q -> s_tcb s !! t = Some v ->
  let v' := restored s v in
  if valid_signal (sig_ing v') then
    sys_rt_sigreturn t s = Done (set_tcb t (returned_tcb v') s) /\ sig_rep (set_tcb t (returned_tcb v') s) Q
  else sys_rt_sigreturn t s = Undef.
Proof.
  intros K Et v'. destruct (rep_thread _ _ _ _ K Et) as [Hok _]. unfold sys_rt_sigreturn, tcb_sig. rewrite Et. ocbn.
  destruct (word_at (trapframe v) tf_sp) as [E1 _]; [apply Hok|rewrite (to_frame _ _ Hok); unfold tf_sp, TF_WORDS; lia|].
  rewrite E1. ocbn. destruct (frame_restore_ok s t v Et) as [r ->]. ocbn. cbn [s_tcb set_tcb].
  rewrite lookup_insert_eq. ocbn. fold v'. destruct (valid_signal (sig_ing v')) eqn:Hg.
  2: { unfold sig_gen_mask. by rewrite Hg. }
  apply valid_signal_range in Hg. rewrite sig_gen_mask_ok by done. ocbn.
  unfold upd_tcb, tcb_sig. cbn [s_tcb set_tcb]. rewrite lookup_insert_eq. ocbn. split.
  - f_equal. unfold set_tcb. cbn [s_tcb s_info s_hands s_pend s_al s_user s_procs]. rewrite !insert_insert_eq. done.
  - pose proof (restored_ok _ s v Hok) as Hok'. fold v' in Hok'.
    assert (sig_pending_cnt v' = sig_pending_cnt v /\ sig v' = sig v) as [Hcnt Hsig].
    { unfold v', restored. by destruct (um_copyin _ _ _). }
    eapply rep_tcb; [done..| |apply Hok'| | | |done]; cbn [blocked pending_signal trapframe returned_tcb].
    + done.
    + apply word64_land, Hok'.
    + rewrite length_insert. apply Hok'.
    + apply Forall_insert; [apply Hok'|apply u64_word].
Qed.

(** *** Sessions *)

Inductive sigop :=
  | OSend (info : siginfo) (t : Z)
  | OHandle (t : Z)
  | OMask (sigmask_limit how set_addr oldset_addr size stale t : Z)
  | OAction (g : Z) (act : option sigaction) (t : Z)
  | OReturn (t : Z).

Definition run_sigop (o : sigop) s : outcome sigst :=
  match o with
  | OSend info t => '(_, s) ← signal_send info t s; Done s
  | OHandle t => '(_, s) ← signal_handle waitpid t s; Done s
  | OMask lim how set_addr oldset_addr size stale t =>
      '(_, s) ← sys_rt_sigprocmask lim how set_addr oldset_addr size stale t s; Done s
  | OAction g act t => '(_, s) ← do_sigaction g act t s; Done s
  | OReturn t => sys_rt_sigreturn t s
  end.

Fixpoint run_sigops (os : list sigop) s : outcome sigst :=
  match os with [] => Done s | o :: os => s ← run_sigop o s; run_sigops os s end.

Definition op_thread (o : sigop) : Z :=
  match o with OSend _ t | OHandle t | OMask _ _ _ _ _ _ t | OAction _ _ t | OReturn t => t end.

(** What a call asks of its caller: a thread that is there, a signal in 1..64,
    words where words are stored, and to return from a frame that names a signal. *)
Definition allowed (o : sigop) s : Prop := exists v, s_tcb s !! op_thread o = Some v /\
  match o with
  | OSend info _ => valid_signal (si_signo info) = true
  | OHandle _ => True
  | OMask _ _ _ _ _ stale _ => word64 stale
  | OAction _ act _ => forall a, act = Some a -> word64 (sa_handler a)
  | OReturn _ => valid_signal (sig_ing (restored s v)) = true
  end.

Lemma lor_keeps a b i : Z.testbit a i = true -> Z.testbit (Z.lor a b) i = true.
Proof. intros E. by rewrite Z.lor_spec, E. Qed.

(** A delivery that does not return: one of the calls of [waitpid] for the
    SIGCHLDs in the queue that have their default action did not. *)
Definition unreaped (o : sigop) s (Q : gmap Z (list Z)) : Prop := exists t v l h k d o', o = OHandle t /\
  s_tcb s !! t = Some v /\ Q !! t = Some l /\ s_hands s !! sig v = Some h /\ plan (blocked v) h id l = (k, d, o') /\
  fails_as (reaped d (s_procs s)) (run_sigop o s).

Lemma fails_not_done {B C} (m : outcome B) (m' : outcome C) x : fails_as m m' -> m' <> Done x.
Proof. by destruct m, m'. Qed.

Lemma unreaped_not_done o s Q s' : unreaped o s Q -> run_sigop o s <> Done s'.
Proof. intros (t & v & l & h & k & d & o' & _ & _ & _ & _ & _ & Hf). by eapply fails_not_done. Qed.

Lemma run_sigop_ok o s Q : sig_rep s Q -> allowed o s ->
  (exists s' Q', run_sigop o s = Done s' /\ sig_rep s' Q' /\ ((forall t, o <> OReturn t) -> keeps_pending s s')) \/
  unreaped o s Q.
Proof.
  intros K (v & Et & Ha). destruct (rep_thread _ _ _ _ K Et) as [Hok [l El]].
  destruct o as [info t|t|lim how sa oa size st t|g act t|t]; cbn [run_sigop op_thread] in *; [left| |left..].
  - apply valid_signal_range in Ha. pose proof (signal_send_rep s Q t v l info K Et El Ha) as H.
    destruct (Z.testbit _ _); [rewrite H; ocbn; eauto 6|]. destruct H as [[-> _]|(s' & -> & K' & E' & _)]; ocbn.
    + exists (set_tcb t (if kills (si_signo info) then set_killed v else v) s), Q. split; [done|]. split.
      * eapply rep_tcb; [done..| | | | | |]; destruct (kills _); try done; apply Hok.
      * intros _. eapply keeps_set; [done..|]. by destruct (kills _).
    + do 2 eexists. split; [done|]. split; [done|]. intros _. eapply keeps_set; [done..|]. intros i. apply lor_keeps.
  - destruct (to_hands _ _ Hok) as (h & Eh & _). pose proof (signal_handle_rep s Q t v l h K Et El Eh) as H.
    destruct (plan _ _ _ _) as [[k d] o] eqn:Ep. destruct (reaped d (s_procs s)) as [x| | |] eqn:Ex.
    2-4: right; exists t, v, l, h, k, d, o; split_and!; try done; rewrite Ex; cbn [run_sigop];
      by destruct (signal_handle waitpid t s).
    left. destruct H as (s' & -> & K' & E' & _). ocbn. do 2 eexists.
    split; [done|]. split; [done|]. intros _. eapply keeps_set; [done..|]. by destruct o as [[g act]|].
  - destruct (sys_rt_sigprocmask_ok s Q t v lim how sa oa size st K Et Ha) as (r & s' & -> & K' & Hk). ocbn. eauto.
  - destruct (do_sigaction_ok s Q t v g act K Et Ha) as (r & old & s' & -> & K' & E'). ocbn. do 2 eexists.
    split; [done|]. split; [done|]. intros _ u w Eu. rewrite E'. by exists w.
  - pose proof (sys_rt_sigreturn_ok s Q t v K Et) as H. cbv zeta in H. rewrite Ha in H. destruct H as [-> K'].
    do 2 eexists. split; [done|]. split; [done|]. intros Hne. by destruct (Hne t).
Qed.

Lemma run_sigops_keep os : forall s s' Q, sig_rep s Q -> (forall t, OReturn t ∉ os) ->
  (forall os1 o os2 s1, os = os1 ++ o :: os2 -> run_sigops os1 s = Done s1 -> allowed o s1) ->
  run_sigops os s = Done s' -> (exists Q', sig_rep s' Q') /\ keeps_pending s s'.
Proof.
  induction os as [|o os IH]; intros s s' Q K Hno Ha; cbn [run_sigops].
  { intros [= <-]. eauto. }
  destruct (run_sigop_ok o s Q K) as [(s1 & Q1 & E1 & K1 & Hk)|Hu]; [by apply (Ha [] o os)| |].
  2: { intros (s1 & E1 & _)%bind_Done. by destruct (unreaped_not_done _ _ _ s1 Hu). }
  rewrite E1. ocbn. intros E. destruct (IH s1 s' Q1 K1) as [HQ Hk']; [| |done|].
  - intros t Ht. apply (Hno t). by right.
  - intros os1 o' os2 s2 -> E2. apply (Ha (o :: os1) o' os2); [done|]. cbn. by rewrite E1.
  - split; [done|]. intros u v Eu. destruct (Hk ltac:(intros t ->; apply (Hno t); by left) u v Eu) as (v1 & E1' & Hv1).
    destruct (Hk' u v1 E1') as (v2 & E2 & Hv2). exists v2. eauto.
Qed.
(** What a call other than a return asks for that does not depend on the state. *)
Definition fits (o : sigop) : Prop :=
  match o with
  | OSend info _ => valid_signal (si_signo info) = true
  | OHandle _ => True
  | OMask _ _ _ _ _ stale _ => word64 stale
  | OAction _ act _ => forall a, act = Some a -> word64 (sa_handler a)
  | OReturn _ => False
  end.

Lemma fits_allowed os : forall s Q, sig_rep s Q -> Forall (fun o => fits o /\ is_Some (s_tcb s !! op_thread o)) os ->
  forall os1 o os2 s1, os = os1 ++ o :: os2 -> run_sigops os1 s = Done s1 -> allowed o s1.
Proof.
  induction os as [|o os IH]; intros s Q K Hf os1 o1 os2 s1; [by destruct os1|].
  apply Forall_cons_1 in Hf as [[Hf [v Ev]] Hfs]. assert (allowed o s) as Ha by (exists v; by destruct o).
  destruct os1 as [|o' os1]; cbn [run_sigops app]; [by intros [= <- <-] [= <-]|]. intros [= <- ->].
  destruct (run_sigop_ok o s Q K Ha) as [(s2 & Q2 & -> & K2 & Hk)|Hu].
  2: { intros (s2 & E2 & _)%bind_Done. by destruct (unreaped_not_done _ _ _ s2 Hu). }
  ocbn. apply (IH s2 Q2 K2) with (os2 := os2); [|done].
  eapply Forall_impl; [exact Hfs|]. cbn. intros o2 [Hf2 [v2 Ev2]]. split; [done|].
  destruct (Hk ltac:(intros t ->; done) _ _ Ev2) as (v3 & Ev3 & _). eauto.
Qed.

Lemma del_or_kill w : word64 w -> sig_del_set_mask_or w (2 ^ (SIGKILL - 1)) (2 ^ (SIGSTOP - 1)) = Z.clearbit w (SIGKILL - 1).
Proof.
  intros [H0 Hb]%word64_bits. unfold sig_del_set_mask_or, Z.clearbit. apply Z.bits_inj'. intros i Hi.
  rewrite Z.land_spec, Z.lor_spec, Z.ldiff_spec. change (Z.shiftl 1 (SIGKILL - 1)) with (2 ^ (SIGKILL - 1)).
  rewrite !Z.pow2_bits_eqb by (unfold SIGKILL, SIGSTOP; lia). unfold u64, SIGKILL, SIGSTOP.
  destruct (Z.lt_ge_cases i 64); [|by rewrite Hb]. rewrite Z.mod_pow2_bits_low, Z.lnot_spec, Z.pow2_bits_eqb by lia.
  destruct (Z.testbit w i), (Z.eqb_spec (9 - 1) i), (Z.eqb_spec (17 - 1) i); try done; lia.
Qed.

(** The frame of a handler can be read back as it was written. *)
Lemma frame_written set tf frame g u u' : length tf = TF_WORDS -> Forall word64 tf -> word64 set -> word64 g ->
  0 <= frame -> signal_frame_setup set tf frame g u = (0, u') -> frame + UC_OFFSET < 2 ^ 64 /\
  um_copyin (frame + UC_OFFSET) (TF_WORDS + 2) u' = Some (tf ++ [set; g]) /\
  um_copyin frame UC_RISCV_WORDS u' = Some (replicate UC_RISCV_WORDS 0).
Proof.
  intros Hl Hw Hs Hg Hf. unfold signal_frame_setup.
  destruct (um_copyout (u64 _) _ u) as [ok1 u1] eqn:E1. destruct ok1; [|done]. cbn [negb].
  destruct (um_copyout frame _ u1) as [ok2 u2] eqn:E2. destruct ok2; [|done]. intros [= <-].
  assert (length (tf ++ [set; g]) = (TF_WORDS + 2)%nat) as Hl1 by (rewrite length_app, Hl; done).
  assert (Forall word64 (replicate UC_RISCV_WORDS 0)) as Hz by (apply Forall_replicate; by split).
  destruct (um_below _ _ _ _ E2) as [_ Hb]. rewrite length_replicate in Hb.
  unfold UC_RISCV_WORDS, UC_OFFSET, TF_WORDS in *. rewrite u64_small in E1 by lia. split; [lia|]. split.
  - rewrite (um_other _ _ _ _ _ _ E2) by (rewrite length_replicate; lia). rewrite <- Hl1.
    apply (um_same _ _ _ _ E1). apply Forall_app. split; [done|].
    apply Forall_cons_2; [done|]. apply Forall_cons_2; [done|]. apply Forall_nil_2.
  - pose proof (um_same _ _ _ _ E2 Hz) as H. by rewrite length_replicate in H.
Qed.

(** ** The properties *)

(** C22. A sequence of sends, deliveries, mask and action changes and returns
    from handlers is run, each call with what [allowed] asks of its caller: a thread that
    is there, a signal in 1..64, words of 64 bits, and on return a frame that
    names a signal.  Every call completes, or the run ends in a delivery that
    meets a SIGCHLD with its default action whose [waitpid] does not return;
    and up to there the threads stay as they must be: masks, registers and
    handlers of 64 bits, as many queued signals as the count says, each in
    a page of its own with a signal number in 1..64.  [waitpid] is any function
    of the processes' state. *)
Theorem signal_session_ok os : forall s Q, sig_rep s Q ->
  (forall os1 o os2 s1, os = os1 ++ o :: os2 -> run_sigops os1 s = Done s1 -> allowed o s1) ->
  (exists s' Q', run_sigops os s = Done s' /\ sig_rep s' Q') \/
  exists os1 o os2 s1 Q1, os = os1 ++ o :: os2 /\ run_sigops os1 s = Done s1 /\ sig_rep s1 Q1 /\ unreaped o s1 Q1.
Proof.
  induction os as [|o os IH]; intros s Q K Ha; cbn [run_sigops]; [left; eauto|].
  destruct (run_sigop_ok o s Q K) as [(s1 & Q1 & E1 & K1 & _)|Hu]; [by apply (Ha [] o os)| |].
  2: { right. by exists [], o, os, s, Q. }
  rewrite E1. ocbn. destruct (IH s1 Q1 K1) as [H|(os1 & o1 & os2 & s2 & Q2 & -> & E2 & H)]; [|by left|right].
  - intros os1 o' os2 s2 -> E2. apply (Ha (o :: os1) o' os2); [done|]. cbn. by rewrite E1.
  - exists (o :: os1), o1, os2, s2, Q2. split; [done|]. split; [cbn; by rewrite E1|done].
Qed.

(** [signal_handle] makes one pass over the queue in the order the signals were
    sent: blocked and ignored ones stay, those with the default action are taken
    off (SIGKILL kills, SIGCHLD reaps, and the pass returns when the calls of [waitpid] do), and the first with a handler is taken off,
    its frame set up and the registers pointed at the handler; what is behind it
    waits for the next pass. *)
Theorem signal_handle_spec s Q t v l h : sig_rep s Q -> s_tcb s !! t = Some v -> Q !! t = Some l ->
  s_hands s !! sig v = Some h ->
  let '(k, d, o) := plan (blocked v) h id l in
  match reaped d (s_procs s) with
  | Done x => exists s', signal_handle waitpid t s = Done (if decide (l = []) then 0 else 1, s') /\ sig_rep s' (<[t := k]> Q) /\
      s_tcb s' = <[t := handled d o v]> (s_tcb s) /\ s_hands s' = s_hands s /\
      s_user s' = handled_user o v (s_user s) /\ s_procs s' = x
  | f => fails_as f (signal_handle waitpid t s)
  end.
Proof. apply signal_handle_rep. Qed.

(** C21. A handler that is entered with its frame set up and that returns with the
    stack pointer and the frame as they were gives the thread back: the mask and
    every register are those before the signal, except [a0], which holds the
    [-EINTR] the system call returns; and the signal stops being pending.  (The
    calls of [waitpid] for SIGCHLDs queued before it are those that returned.) *)
Theorem handler_round_trip s Q t v l h k d g act x : sig_rep s Q -> s_tcb s !! t = Some v -> Q !! t = Some l ->
  s_hands s !! sig v = Some h -> plan (blocked v) h id l = (k, d, Some (g, act)) -> 1 <= g <= 64 ->
  reaped d (s_procs s) = Done x ->
  let frame := frame_of (trapframe v) in
  (signal_frame_setup (blocked v) (trapframe v) frame g (s_user s)).1 = 0 ->
  exists s1, signal_handle waitpid t s = Done (1, s1) /\ sig_rep s1 (<[t := k]> Q) /\
    s_tcb s1 !! t = Some (handled d (Some (g, act)) v) /\
    forall s2 Q2 v2, sig_rep s2 Q2 -> s_tcb s2 !! t = Some v2 -> trapframe v2 !! tf_sp = Some frame ->
      (forall a n, frame <= a -> a + 8 * Z.of_nat n <= frame + sizeof_rt_sigframe ->
        um_copyin a n (s_user s2) = um_copyin a n (s_user s1)) ->
      exists s3 v3, sys_rt_sigreturn t s2 = Done s3 /\ sig_rep s3 Q2 /\ s_tcb s3 !! t = Some v3 /\
        trapframe v3 = <[tf_a0 := u64 (- EINTR)]> (trapframe v) /\ blocked v3 = blocked v /\
        pending_signal v3 = sig_del_set_mask (pending_signal v2) (2 ^ (g - 1)).
Proof.
  intros K Et El Eh Ep Hg Ex frame Hf. destruct (rep_thread _ _ _ _ K Et) as [Hok _].
  pose proof (signal_handle_rep s Q t v l h K Et El Eh) as H. rewrite Ep, Ex in H.
  destruct H as (s1 & E1 & K1 & ET & _ & EU & _). rewrite decide_False in E1 by (by intros ->).
  exists s1. split; [done|]. split; [done|]. rewrite ET, lookup_insert_eq. split; [done|].
  intros s2 Q2 v2 K2 E2 Esp Hmem.
  destruct (signal_frame_setup (blocked v) (trapframe v) frame g (s_user s)) as [r u'] eqn:Es. cbn in Hf. subst r.
  assert (s_user s1 = u') as Eu by (rewrite EU; cbn; fold frame; by rewrite Es).
  assert (word64 frame) as Hfr by apply word64_land, u64_word.
  assert (word64 g) as Hg64 by (unfold word64; lia).
  destruct (frame_written _ _ _ _ _ _ (to_frame _ _ Hok) (to_words _ _ Hok) (to_blocked _ _ Hok)
    Hg64 (proj1 Hfr) Es) as (Hlt & Huc & Hrv).
  assert (restored s2 v2 = SigTcb (sig_pending_cnt v2) (sig v2) (blocked v) (pending_signal v2) g (killed v2)
    (trapframe v)) as Er.
  { clearbody frame. unfold restored, word64 in *. rewrite (list_lookup_total_correct _ _ _ Esp).
    unfold UC_OFFSET in *. rewrite u64_small by lia.
    rewrite !Hmem by (unfold UC_OFFSET, TF_WORDS, UC_RISCV_WORDS, sizeof_rt_sigframe; lia). rewrite Eu, Huc, Hrv.
    pose proof (to_frame _ _ Hok) as Hl. rewrite take_app_length' by done. f_equal.
    - rewrite lookup_total_app_r by (rewrite Hl; done). by rewrite Hl.
    - rewrite lookup_total_app_r by (rewrite Hl; unfold TF_WORDS; lia). by rewrite Hl. }
  pose proof (sys_rt_sigreturn_ok s2 Q2 t v2 K2 E2) as H. cbv zeta in H. rewrite Er in H. cbn [sig_ing] in H.
  rewrite (proj2 (valid_signal_range g) Hg) in H. destruct H as [-> K3]. do 2 eexists. split; [done|].
  split; [exact K3|]. split; [apply lookup_insert_eq|done].
Qed.

(** A signal that was sent counts as pending until a return from a handler
    names it: as long as the thread only sends, handles and changes masks and
    actions, sending it again is refused and changes nothing - also after it was
    consumed by its default action, which never clears the bit. *)
Theorem sent_until_return os s Q t v info r s1 s2 : sig_rep s Q -> s_tcb s !! t = Some v ->
  valid_signal (si_signo info) = true -> signal_send info t s = Done (r, s1) -> r = 1 ->
  (forall u, OReturn u ∉ os) ->
  (forall os1 o os2 s', os = os1 ++ o :: os2 -> run_sigops os1 s1 = Done s' -> allowed o s') ->
  run_sigops os s1 = Done s2 -> signal_send info t s2 = Done (0, s2).
Proof.
  intros K Et Hv%valid_signal_range E -> Hno Ha Er. destruct (rep_thread _ _ _ _ K Et) as [Hok [l El]].
  pose proof (signal_send_rep s Q t v l info K Et El Hv) as H.
  destruct (Z.testbit _ _); [congruence|]. destruct H as [[H _]|(s' & E' & K' & ET & _)]; [congruence|].
  assert (s' = s1) as -> by congruence. destruct (run_sigops_keep os s1 s2 _ K' Hno Ha Er) as [[Q2 K2] Hk].
  destruct (Hk t (with_signal (si_signo info) v)) as (v2 & E2 & Hp); [by rewrite ET, lookup_insert_eq|].
  destruct (rep_thread _ _ _ _ K2 E2) as [_ [l2 El2]].
  pose proof (signal_send_rep s2 Q2 t v2 l2 info K2 E2 El2 Hv) as H. rewrite Hp in H; [done|].
  cbn [pending_signal with_signal]. rewrite Z.lor_spec, Z.pow2_bits_true by lia. apply orb_true_r.
Qed.

(** [sys_rt_sigprocmask] with a readable set: the call takes SIGKILL out of
    the set, and SIGKILL only (SIGSTOP stays in), then adds it, intersects with
    it ([SIG_UNBLOCK] keeps the signals of the set blocked and unblocks the
    others) or takes it over, and stores the old mask where it is asked for. *)
Theorem sigprocmask_spec s Q t v lim how set_addr oldset_addr stale w : sig_rep s Q -> s_tcb s !! t = Some v ->
  lim <> 1 -> set_addr <> 0 -> um_copyin set_addr 1 (s_user s) = Some [w] ->
  match masked how (Z.clearbit w (SIGKILL - 1)) (blocked v) with
  | None => sys_rt_sigprocmask lim how set_addr oldset_addr 8 stale t s = Done (-1, s)
  | Some b =>
      let '(ok, u) := if oldset_addr =? 0 then (true, s_user s) else um_copyout oldset_addr [blocked v] (s_user s) in
      sys_rt_sigprocmask lim how set_addr oldset_addr 8 stale t s =
        Done (if ok then 0 else -1, s_with_user u (set_tcb t (set_blocked b v) s))
  end.
Proof.
  intros K Et Hlim Hz Ew. unfold sys_rt_sigprocmask. rewrite (proj2 (Z.eqb_neq lim 1) Hlim). cbn [negb Z.eqb Pos.eqb]. rewrite (proj2 (Z.eqb_neq set_addr 0) Hz), Ew.
  rewrite !sig_gen_mask_ok by (unfold SIGKILL, SIGSTOP; lia). ocbn.
  assert (word64 w) as Hw. { apply um_word in Ew as [_ Hw]. by inversion Hw. }
  rewrite del_or_kill by done.
  pose proof (do_sigprocmask_ok s Q t v how (Z.clearbit w (SIGKILL - 1)) K Et) as H.
  specialize (H ltac:(rewrite <- del_or_kill by done; by apply word64_del_or)).
  destruct (masked _ _ _) as [b|]; [destruct H as [-> _]|by rewrite H]. ocbn. rewrite Z.eqb_refl.
  destruct (oldset_addr =? 0); cbn [negb andb]; [|by destruct (um_copyout _ _ _) as [[|] u]]. by destruct s.
Qed.
End laws.

(** ** Signals to a thread group *)

Section group.
Context {W A U X SW : Type} `{LO : !ListOps Z Z W, LH : !ListHeap Z Z W, IN : !IdleNodes Z Z W}.
Context `{PA : !PageAlloc A, PAOK : !PageAllocOk A, UM : !UserMem U, UMOK : !UserMemOk U}.
Context `{SO : !ListOps qid qnode SW, SH : !ListHeap qid qnode SW, SI : !IdleNodes qid qnode SW}.
Context (HS XS : gset Z) (Hpages : forall q, 0 <= q < NPAGES -> page_to_pa q ∈ XS).
Context (HQ : gset qid) (XQ : gset qnode).
Implicit Types (s : sigst W A U X) (k : ksched SW).

(** A thread after a signal that wakes sleepers. *)
Definition woken (v : tcb) : tcb := if decide (t_state v = TCB_SLEEPING) then MkTcb TCB_RUNNABLE None else v.

(** [killed] of each thread stays set, and is set by the signals that stop one. *)
Definition kept_killed (ts : list Z) (g : Z) s s' : Prop := forall t v, s_tcb s !! t = Some v ->
  exists v', s_tcb s' !! t = Some v' /\
    (killed v = true \/ t ∈ ts /\ (g = SIGKILL \/ g = SIGSTOP) -> killed v' = true).

Lemma kept_killed_set g s s' t v v' : s_tcb s !! t = Some v -> s_tcb s' = <[t := v']> (s_tcb s) ->
  killed v' = (killed v || (g =? SIGKILL) || (g =? SIGSTOP) || killed v') -> kept_killed [t] g s s'.
Proof.
  intros Et E Hv u w Eu. rewrite E. destruct (decide (t = u)) as [<-|Hne].
  - rewrite lookup_insert_eq. exists v'. split; [done|]. assert (w = v) as -> by congruence.
    intros [Hk|[_ [->| ->]]]; rewrite Hv; [by rewrite Hk|by destruct (killed v)..].
  - rewrite lookup_insert_ne by done. exists w. split; [done|]. intros [H|[H _]]; [done|]. set_solver.
Qed.

Lemma send_one_ok s Q k L t info : let g := si_signo info in
  sig_rep HS XS s Q -> sched_ok HQ XQ ∅ k L -> is_Some (s_tcb s !! t) -> is_Some (threads k !! t) -> 1 <= g <= 64 ->
  exists s' k' Q' L', thread_send_signal t info s k = Done (s', k') /\ sig_rep HS XS s' Q' /\ sched_ok HQ XQ ∅ k' L' /\
    kept_killed [t] g s s' /\ threads k' = alter woken t (threads k).
Proof.
  intros g K Ks [v Et] [w Ew] Hg. destruct (rep_thread HS XS s Q t v K Et) as [Hok [l El]].
  assert (exists s1 Q1 v1 r, signal_send info t s = Done (r, s1) /\ sig_rep HS XS s1 Q1 /\
    s_tcb s1 = <[t := v1]> (s_tcb s) /\ killed v1 = killed v || killed v1) as (s1 & Q1 & v1 & r & E1 & K1 & ET & Hv1).
  { pose proof (signal_send_rep HS XS Hpages s Q t v l info K Et El Hg) as H. fold g in H. destruct (Z.testbit _ _).
    { exists s, Q, v, 0. rewrite insert_id by done. split_and!; try done. by destruct (killed v). }
    destruct H as [[H _]|(s1 & H & K1 & ET & _)].
    - exists (set_tcb t (if kills g then set_killed v else v) s), Q. do 2 eexists. split; [exact H|].
      split; [|split; [done|destruct (kills g); cbn; by destruct (killed v)]].
      eapply rep_tcb; [exact K|exact Et|..]; destruct (kills g); try done; apply Hok.
    - exists s1. do 3 eexists. split; [exact H|]. split; [exact K1|]. split; [exact ET|]. cbn. by destruct (killed v), (kills g). }
  assert (exists k' L', (b ← is_state t TCB_SLEEPING k; if (b : bool) then thread_wakeup t k else Done k) = Done k' /\
    sched_ok HQ XQ ∅ k' L' /\ threads k' = alter woken t (threads k)) as (k' & L' & E2 & Ks' & ET2).
  { unfold is_state, thread_at. rewrite Ew. ocbn. case_bool_decide as Hs.
    - destruct (thread_wakeup_ok HQ XQ k L t w Ks Ew Hs (not_elem_of_empty t)) as (k' & E & Ks' & ET' & _). exists k'. eexists.
      split; [exact E|]. split; [exact Ks'|]. rewrite ET'. apply map_eq. intros u.
      destruct (decide (t = u)) as [<-|Hne]; [|by rewrite lookup_insert_ne, lookup_alter_ne].
      rewrite lookup_insert_eq, lookup_alter_eq, Ew. cbn. unfold woken. by rewrite decide_True.
    - exists k, L. split_and!; [done..|]. symmetry. apply map_eq. intros u.
      destruct (decide (t = u)) as [<-|Hne]; [|by rewrite lookup_alter_ne].
      rewrite lookup_alter_eq, Ew. cbn. unfold woken. by rewrite decide_False. }
  unfold thread_send_signal. rewrite E1. ocbn. apply bind_Done in E2 as (b & -> & E2). ocbn. rewrite E2. ocbn. fold g.
  assert (s_tcb s1 !! t = Some v1) as Et1 by (rewrite ET; apply lookup_insert_eq).
  destruct ((g =? SIGKILL) || (g =? SIGSTOP)) eqn:Eg.
  - unfold upd_tcb, tcb_sig. rewrite Et1. ocbn. exists (set_tcb t (set_killed v1) s1), k', Q1, L'.
    destruct (rep_thread HS XS s1 Q1 t v1 K1 Et1) as [Hok1 _].
    split_and!; try done; [eapply rep_tcb; try done; apply Hok1|].
    apply (kept_killed_set _ _ _ t v (set_killed v1)); [done|cbn; by rewrite ET, insert_insert_eq|].
    cbn. by rewrite orb_true_r.
  - exists s1, k', Q1, L'. split_and!; try done. apply (kept_killed_set _ _ _ t v v1); [done..|].
    by rewrite <- (orb_assoc (killed v)), Eg, orb_false_r.
Qed.

Lemma woken_woken v : woken (woken v) = woken v.
Proof. unfold woken. destruct (decide (t_state v = TCB_SLEEPING)) as [H|H]; [done|]. by rewrite decide_False. Qed.

Lemma send_threads_ok ts info : let g := si_signo info in 1 <= g <= 64 -> forall s Q k L,
  sig_rep HS XS s Q -> sched_ok HQ XQ ∅ k L ->
  Forall (fun t => is_Some (s_tcb s !! t) /\ is_Some (threads k !! t)) ts ->
  exists s' k' Q' L', send_threads ts info s k = Done (s', k') /\ sig_rep HS XS s' Q' /\ sched_ok HQ XQ ∅ k' L' /\
    kept_killed ts g s s' /\ (forall t v, threads k !! t = Some v ->
      threads k' !! t = Some (if decide (t ∈ ts) then woken v else v)).
Proof.
  intros g Hg. induction ts as [|t ts IH]; intros s Q k L K Ks Hts; cbn [send_threads].
  { exists s, k, Q, L. split_and!; [done..| |done]. intros t v E. exists v. split; [done|]. intros [H|[H _]]; [done|set_solver]. }
  apply Forall_cons_1 in Hts as [[Ht1 Ht2] Hts].
  destruct (send_one_ok s Q k L t info K Ks Ht1 Ht2 Hg) as (s1 & k1 & Q1 & L1 & -> & K1 & Ks1 & Hk1 & HT1). ocbn.
  destruct (IH s1 Q1 k1 L1 K1 Ks1) as (s2 & k2 & Q2 & L2 & -> & K2 & Ks2 & Hk2 & HT2).
  { eapply Forall_impl; [exact Hts|]. cbn. intros u [[v Ev] [w Ew]]. split.
    - destruct (Hk1 u v Ev) as (v' & -> & _). eauto.
    - rewrite HT1. destruct (decide (t = u)) as [<-|]; [rewrite lookup_alter_eq, Ew|rewrite lookup_alter_ne, Ew by done]; eauto. }
  exists s2, k2, Q2, L2. split_and!; try done.
  - intros u v Ev. destruct (Hk1 u v Ev) as (v1 & E1 & H1). destruct (Hk2 u v1 E1) as (v2 & E2 & H2).
    exists v2. split; [done|]. intros [Hk|[[->|Hin]%elem_of_cons Hor]]; apply H2; [left; apply H1; by left| |by right].
    left. apply H1. right. split; [by left|done].
  - intros u v Ev. destruct (decide (t = u)) as [<-|Hne].
    + rewrite (HT2 t (woken v)) by (by rewrite HT1, lookup_alter_eq, Ev). rewrite (decide_True (P := t ∈ t :: ts)) by by left.
      destruct (decide _); by rewrite ?woken_woken.
    + rewrite (HT2 u v) by (by rewrite HT1, lookup_alter_ne). f_equal. destruct (decide (u ∈ ts)).
      * by rewrite decide_True by by right.
      * rewrite decide_False; [done|]. set_solver.
Qed.

(** C23. A signal to a thread group reaches every thread of it: none of them is
    asleep afterwards, the threads outside stay as they were, both the signal
    queues and the scheduler's queues stay consistent, and SIGKILL and SIGSTOP
    leave every thread of the group marked as killed, and the process too. *)
Theorem group_signal_wakes ts signo opt s Q k L : sig_rep HS XS s Q -> sched_ok HQ XQ ∅ k L -> ts <> [] ->
  1 <= signo <= 64 -> opt = 0 \/ opt = 1 ->
  Forall (fun t => is_Some (s_tcb s !! t) /\ is_Some (threads k !! t)) ts ->
  exists s' k' Q' L', proc_sendsignal_all_thread ts signo opt s k =
      Done ((signo =? SIGKILL) || (signo =? SIGSTOP), s', k') /\ sig_rep HS XS s' Q' /\ sched_ok HQ XQ ∅ k' L' /\
    kept_killed ts signo s s' /\ (forall t v, threads k !! t = Some v ->
      threads k' !! t = Some (if decide (t ∈ ts) then woken v else v)).
Proof.
  intros K Ks Hne Hg Hopt Hts. unfold proc_sendsignal_all_thread. rewrite decide_False by done.
  assert (exists info, signal_info_init signo opt = Done info /\ si_signo info = signo) as (info & -> & <-).
  { unfold signal_info_init. destruct Hopt as [->| ->]; cbn [Z.eqb]; eexists; (split; [done|]); apply s32_small; lia. }
  ocbn. destruct (send_threads_ok ts info Hg s Q k L K Ks Hts) as (s' & k' & Q' & L' & -> & H). ocbn.
  exists s', k', Q', L'. by split.
Qed.
End group.

(** ** A thread with one handler, over a flat memory of words *)

Definition flat : Type := gmap Z Z.
Definition flat_ok (a : Z) (n : nat) : bool := (0 <=? a) && (a + 8 * Z.of_nat n <=? 2 ^ 38) && (a mod 8 =? 0).
Fixpoint flat_write (a : Z) (ws : list Z) (u : gmap Z Z) : gmap Z Z :=
  match ws with [] => u | w :: ws => <[a := w]> (flat_write (a + 8) ws u) end.
Fixpoint flat_read (a : Z) (n : nat) (u : gmap Z Z) : list Z :=
  match n with O => [] | S n => u64 (default 0 (u !! a)) :: flat_read (a + 8) n u end.

#[export] Instance flat_mem : UserMem flat := {|
  um_copyout a ws u := if flat_ok a (length ws) then (true, flat_write a ws u) else (false, u);
  um_copyin a n u := if flat_ok a n then Some (flat_read a n u) else None
|}.

Lemma flat_read_insert n : forall a b w u, b < a \/ a + 8 * Z.of_nat n <= b -> flat_read a n (<[b := w]> u) = flat_read a n u.
Proof.
  induction n as [|n IH]; intros a b w u H; [done|]. cbn [flat_read]. rewrite lookup_insert_ne, IH by lia. done.
Qed.

Lemma flat_read_same ws : forall a u, Forall word64 ws -> flat_read a (length ws) (flat_write a ws u) = ws.
Proof.
  induction ws as [|w ws IH]; intros a u H; [done|]. apply Forall_cons_1 in H as [H1 H2]. cbn [length flat_read flat_write].
  rewrite lookup_insert_eq. cbn. rewrite u64_small by done. f_equal. rewrite flat_read_insert by lia. by apply IH.
Qed.

Lemma flat_read_other ws b n : forall a u, b + 8 * Z.of_nat n <= a \/ a + 8 * Z.of_nat (length ws) <= b ->
  flat_read b n (flat_write a ws u) = flat_read b n u.
Proof.
  induction ws as [|w ws IH]; intros a u H; [done|]. cbn [length flat_write] in *.
  rewrite flat_read_insert by lia. apply IH. lia.
Qed.

Lemma flat_read_words n : forall a u, length (flat_read a n u) = n /\ Forall word64 (flat_read a n u).
Proof.
  induction n as [|n IH]; intros a u; [done|]. destruct (IH (a + 8) u) as [Hl Hw]. cbn [flat_read length].
  split; [by f_equal|]. apply Forall_cons_2; [apply u64_word|done].
Qed.

#[export] Program Instance flat_mem_ok : UserMemOk flat.
Next Obligation.
  intros a n u ws. cbn. destruct (flat_ok a n); [|done]. intros [= <-]. apply flat_read_words.
Qed.
Next Obligation.
  intros a ws u u'. cbn. unfold flat_ok. destruct (_ && _) eqn:E; [|done]. intros _.
  apply andb_true_iff in E as [[E1 E2]%andb_true_iff _]. lia.
Qed.
Next Obligation.
  intros a ws u u'. cbn. destruct (flat_ok a (length ws)); [|done]. intros [= <-] Hw. f_equal. by apply flat_read_same.
Qed.
Next Obligation.
  intros a ws u u' b n. cbn. destruct (flat_ok a (length ws)); [|done]. intros [= <-] H.
  destruct (flat_ok b n); [|done]. f_equal. by apply flat_read_other.
Qed.

Definition demo_thread : sigtcb := SigTcb 0 0x200 (2 ^ 3) 0 0 false (<[tf_sp := 0x10000]> (replicate TF_WORDS 0)).
(** Signal 10 has a handler at [0x5000], signal 12 is ignored, the others have their default action. *)
Definition demo_actions : list sigaction :=
  <[9%nat := SigAction 0x5000 0 0]> (<[11%nat := SigAction SIG_IGN 0 0]> (replicate (Z.to_nat _NSIG) (SigAction SIG_DFL 0 0))).
Definition demo_queue : Type := gmap (lptr Z Z) (list_head (lptr Z Z)).
Definition demo_signals (w : demo_queue) : sigst demo_queue spare flat Z :=
  SigSt {[0 := demo_thread]} ∅ {[0x200 := demo_actions]} w demo_used ∅ 0.
Definition demo_wait (x : Z) : outcome Z := Done (x + 1).

Notation demo_reps := (sig_rep {[0]} demo_pages) (only parsing).

Lemma demo_signals_rep : exists w, demo_reps (demo_signals w) {[0 := []]}.
Proof.
  destruct (lh_init_rep {[0]} demo_pages (blank_lists {[0]} demo_pages : demo_queue) ∅ 0) as (w & _ & HR);
    [exact (blank_lists_rep {[0]} demo_pages)|set_solver|].
  exists w, (<[0 := []]> ∅), demo_used. split_and!.
  - constructor; cbn [s_pend s_al s_tcb demo_signals s_hands].
    + exact HR.
    + exact demo_used_rep.
    + intros t v [<- <-]%lookup_singleton_Some. split; [by rewrite lookup_insert_eq|]. unfold demo_thread.
      constructor; cbn [blocked pending_signal trapframe sig]; [by split..|by rewrite length_insert, length_replicate| |].
      * apply Forall_insert; [|by split]. apply Forall_replicate. by split.
      * exists demo_actions. split; [apply lookup_singleton_eq|]. split; [done|].
        repeat (apply Forall_insert; [|by split]). apply Forall_replicate. by split.
    + intros t l n E Hn. destruct (decide (0 = t)) as [<-|Hne].
      * rewrite lookup_insert_eq in E. injection E as <-. set_solver.
      * by rewrite lookup_insert_ne in E.
  - intros t v l. cbn [s_tcb demo_signals]. intros [<- <-]%lookup_singleton_Some E. rewrite lookup_insert_eq in E. by injection E as <-.
  - by rewrite fmap_insert, fmap_empty.
Qed.

(** The thread with signal 12, then signal 10, sent to it. *)
Lemma demo_sent g : 1 <= g <= 64 -> forall (s : sigst demo_queue spare flat Z) v l, demo_reps s {[0 := l]} -> s_tcb s !! 0 = Some v ->
  Z.testbit (pending_signal v) (g - 1) = false -> (exists q a, pa_kmalloc PGSIZE (s_al s) = Done (Some q, a)) ->
  exists s', signal_send (SigInfo g 0) 0 s = Done (1, s') /\ demo_reps s' {[0 := l ++ [g]]} /\
    s_tcb s' = <[0 := with_signal g v]> (s_tcb s) /\ same_rest s s'.
Proof.
  intros Hg s v l K Et Hb (q & a & Ea).
  pose proof (signal_send_rep {[0]} demo_pages demo_pages_elem s _ 0 v l (SigInfo g 0) K Et (lookup_singleton_eq _ _) Hg) as H.
  cbn [si_signo] in H. rewrite Hb in H. destruct H as [[_ H]|(s' & E & K' & ET & Hr)]; [congruence|].
  exists s'. by rewrite insert_singleton in K'.
Qed.

Lemma demo_room w : exists q a, pa_kmalloc PGSIZE (s_al (demo_signals w)) = Done (Some q, a).
Proof. exists (page_to_pa 4), (<[4 := (0, 1)]> demo_used). vm_compute. reflexivity. Qed.

Lemma demo_sent_one w g : 1 <= g <= 64 -> demo_reps (demo_signals w) {[0 := []]} ->
  exists s', signal_send (SigInfo g 0) 0 (demo_signals w) = Done (1, s') /\ demo_reps s' {[0 := [g]]} /\
    s_tcb s' !! 0 = Some (with_signal g demo_thread) /\ s_hands s' !! 0x200 = Some demo_actions /\ s_user s' = ∅.
Proof.
  intros Hg K. destruct (demo_sent g Hg (demo_signals w) demo_thread [] K) as (s' & E & K' & ET & EH & EU & _).
  { apply lookup_singleton_eq. }
  { apply Z.bits_0. }
  { apply demo_room. }
  exists s'. split_and!; [done|done| | |done].
  - rewrite ET. apply lookup_insert_eq.
  - rewrite EH. apply lookup_singleton_eq.
Qed.

(** Signal 10 has a handler and 9 kills; a session in which every [waitpid]
    returns, and one in which the [waitpid] of a SIGCHLD panics. *)
Definition demo_session : list sigop :=
  [OSend (SigInfo 10 0) 0; OHandle 0; OMask 0 SIG_SETMASK 0 0 8 7 0; OSend (SigInfo 9 0) 0; OHandle 0].
Definition demo_child : list sigop := [OSend (SigInfo 20 0) 0; OHandle 0].
Definition demo_panic (x : Z) : outcome Z := Panic.

Lemma demo_reaped d : forall x, exists x', reaped demo_wait d x = Done x'.
Proof. induction d as [|g d IH]; intros x; cbn [reaped]; [eauto|]. destruct (g =? SIGCHLD); apply IH. Qed.

Lemma demo_stuck w s : demo_reps (demo_signals w) {[0 := []]} -> run_sigops demo_panic demo_child (demo_signals w) <> Done s.
Proof.
  intros K. destruct (demo_sent_one w 20 ltac:(lia) K) as (s1 & E1 & K1 & ET & EH & _).
  unfold demo_child. cbn [run_sigops run_sigop]. rewrite E1. ocbn.
  pose proof (signal_handle_rep demo_panic {[0]} demo_pages demo_pages_elem s1 _ 0 _ [20] demo_actions K1 ET
    (lookup_singleton_eq _ _) EH) as H.
  change (plan (blocked (with_signal 20 demo_thread)) demo_actions id [20]) with ([] : list Z, [20], None : option (Z * sigaction)) in H.
  cbv iota beta in H. change (reaped demo_panic [20] (s_procs s1)) with (Panic : outcome Z) in H. cbv iota in H.
  by destruct (signal_handle demo_panic 0 s1).
Qed.

Lemma signal_session_ok_witness : exists (w : demo_queue),
  (exists s' Q', run_sigops demo_wait demo_session (demo_signals w) = Done s' /\ demo_reps s' Q') /\
  exists os1 o os2 s1 Q1, demo_child = os1 ++ o :: os2 /\ run_sigops demo_panic os1 (demo_signals w) = Done s1 /\
    demo_reps s1 Q1 /\ unreaped demo_panic o s1 Q1.
Proof.
  destruct demo_signals_rep as (w & K). exists w. split.
  - destruct (signal_session_ok demo_wait {[0]} demo_pages demo_pages_elem demo_session _ _ K) as [H|H]; [|exact H|].
    + refine (fits_allowed demo_wait {[0]} demo_pages demo_pages_elem _ _ _ K _).
      repeat (apply Forall_cons_2; [split; [try done; unfold fits, word64; lia|by exists demo_thread]|]). apply Forall_nil_2.
    + destruct H as (os1 & o & os2 & s1 & Q1 & _ & _ & _ & (t & v & l & h & k & d & o' & _ & _ & _ & _ & _ & Hr)).
      destruct (demo_reaped d (s_procs s1)) as [x' Ex]. rewrite Ex in Hr. destruct Hr.
  - destruct (signal_session_ok demo_panic {[0]} demo_pages demo_pages_elem demo_child _ _ K) as [(s' & Q' & H & _)|H]; [| |exact H].
    + refine (fits_allowed demo_panic {[0]} demo_pages demo_pages_elem _ _ _ K _).
      repeat (apply Forall_cons_2; [split; [try done; unfold fits, word64; lia|by exists demo_thread]|]). apply Forall_nil_2.
    + destruct (demo_stuck w s' K H).
Defined.

Lemma signal_handle_spec_witness : exists (w : demo_queue) s1 s2,
  signal_send (SigInfo 20 0) 0 (demo_signals w) = Done (1, s1) /\ signal_handle demo_wait 0 s1 = Done (1, s2) /\
  demo_reps s2 {[0 := []]} /\ s_procs s2 = s_procs s1 + 1.
Proof.
  destruct demo_signals_rep as (w & K). exists w.
  destruct (demo_sent_one w 20 ltac:(lia) K) as (s1 & E1 & K1 & ET & EH & EU). exists s1.
  pose proof (signal_handle_spec demo_wait {[0]} demo_pages demo_pages_elem s1 _ 0
    _ [20] demo_actions K1 ET (lookup_singleton_eq _ _) EH) as H.
  destruct H as (s2 & E2 & K2 & _ & _ & _ & EP). exists s2. split_and!; [done|done| |done].
  by rewrite insert_singleton in K2.
Defined.

Lemma handler_round_trip_witness : exists (w : demo_queue) s0 s1 s3 v3,
  signal_send (SigInfo 10 0) 0 (demo_signals w) = Done (1, s0) /\ signal_handle demo_wait 0 s0 = Done (1, s1) /\
  sys_rt_sigreturn 0 s1 = Done s3 /\ s_tcb s3 !! 0 = Some v3 /\ blocked v3 = 8 /\ pending_signal v3 = 0 /\
  trapframe v3 = <[tf_a0 := 2 ^ 64 - 4]> (trapframe demo_thread).
Proof.
  destruct demo_signals_rep as (w & K). exists w.
  destruct (demo_sent_one w 10 ltac:(lia) K) as (s0 & E0 & K0 & ET & EH & EU). exists s0.
  destruct (handler_round_trip demo_wait {[0]} demo_pages demo_pages_elem s0 _ 0
    _ [10] demo_actions [] [] 10 (SigAction 0x5000 0 0) (s_procs s0) K0 ET (lookup_singleton_eq _ _) EH) as (s1 & E1 & K1 & E1' & H).
  { reflexivity. }
  { lia. }
  { reflexivity. }
  { rewrite EU. vm_compute. reflexivity. }
  destruct (H s1 _ _ K1 E1') as (s3 & v3 & E3 & _ & E3' & Etf & Eb & Ep); [by vm_compute|done|].
  exists s1, s3, v3. by split_and!.
Defined.

(** SIGCHLD, consumed by its default action, and refused from then on. *)
Lemma sent_until_return_witness : exists (w : demo_queue) s1 s2,
  signal_send (SigInfo 20 0) 0 (demo_signals w) = Done (1, s1) /\ run_sigops demo_wait [OHandle 0] s1 = Done s2 /\
  demo_reps s2 {[0 := []]} /\ signal_send (SigInfo 20 0) 0 s2 = Done (0, s2).
Proof.
  destruct demo_signals_rep as (w & K). exists w.
  destruct (demo_sent_one w 20 ltac:(lia) K) as (s1 & E1 & K1 & ET & EH & EU). exists s1.
  pose proof (signal_handle_rep demo_wait {[0]} demo_pages demo_pages_elem s1 _ 0
    _ [20] demo_actions K1 ET (lookup_singleton_eq _ _) EH) as H.
  destruct H as (s2 & E2 & K2 & _). rewrite decide_False in E2 by done. rewrite insert_singleton in K2. exists s2.
  assert (run_sigops demo_wait [OHandle 0] s1 = Done s2) as Er by (cbn [run_sigops run_sigop]; rewrite E2; done).
  split_and!; [done|done|done|].
  refine (sent_until_return demo_wait {[0]} demo_pages demo_pages_elem
    [OHandle 0] _ _ 0 demo_thread (SigInfo 20 0) 1 s1 s2 K (lookup_singleton_eq _ _) eq_refl E1 eq_refl _ _ Er).
  - intros u Hu. set_solver.
  - refine (fits_allowed demo_wait {[0]} demo_pages demo_pages_elem _ _ _ K1 _).
    apply Forall_cons_2; [split; [done|by eexists]|apply Forall_nil_2].
Defined.

(** A program that blocks SIGKILL and SIGSTOP only manages the latter. *)
Lemma sigprocmask_spec_witness : exists (w : demo_queue) s1 u,
  s1 = s_with_user (<[0x2000 := 2 ^ 8 + 2 ^ 16]> ∅) (demo_signals w) /\
  sys_rt_sigprocmask 0 SIG_SETMASK 0x2000 0x3000 8 0 0 s1 =
    Done (0, s_with_user u (set_tcb 0 (set_blocked (2 ^ 16) demo_thread) s1)).
Proof.
  destruct demo_signals_rep as (w & K). exists w, (s_with_user (<[0x2000 := 2 ^ 8 + 2 ^ 16]> ∅) (demo_signals w)).
  pose proof (sigprocmask_spec {[0]} demo_pages (s_with_user (<[0x2000 := 2 ^ 8 + 2 ^ 16]> ∅) (demo_signals w)) _ 0 demo_thread
    0 SIG_SETMASK 0x2000 0x3000 0 (2 ^ 8 + 2 ^ 16) (rep_user _ _ _ _ _ K) (lookup_singleton_eq _ _) ltac:(done) ltac:(done)
    ltac:(vm_compute; reflexivity)) as H.
  eexists. split; [done|]. exact H.
Defined.

(** Thread 0 sleeps in the queue of a condition and is killed. *)
Lemma group_signal_wakes_witness : exists (w : demo_queue) s' k' v,
  proc_sendsignal_all_thread [0] SIGKILL 0 (demo_signals w) (sch (cpus demo_conf)) = Done (true, s', k') /\
  threads k' !! 0 = Some (MkTcb TCB_RUNNABLE None) /\ s_tcb s' !! 0 = Some v /\ killed v = true.
Proof.
  destruct demo_signals_rep as (w & K). exists w. destruct demo_conf_ok as (L & Ky & _).
  pose proof (ck_sched _ _ _ _ _ (sy_cpus _ _ _ _ Ky) : sched_ok demo_queues demo_qnodes ∅ (sch (cpus demo_conf)) L) as Ks.
  destruct (group_signal_wakes {[0]} demo_pages demo_pages_elem demo_queues demo_qnodes [0] SIGKILL 0 (demo_signals w) _
    (sch (cpus demo_conf)) L K Ks) as (s' & k' & _ & _ & E & _ & _ & Hk & HT).
  - done.
  - unfold SIGKILL. lia.
  - by left.
  - apply Forall_cons_2; [split|apply Forall_nil_2]; [by exists demo_thread|vm_compute; eauto].
  - destruct (Hk 0 demo_thread (lookup_singleton_eq _ _)) as (v & Ev & Hv). exists s', k', v. split_and!; [exact E| |exact Ev|].
    + rewrite (HT 0 (MkTcb TCB_SLEEPING (Some (waiting_queue 7)))) by (vm_compute; reflexivity).
      rewrite decide_True by by left. done.
    + apply Hv. right. split; [by left|by left].
Defined.
