(* ===== verification/Dirent.v ===== *)
(** * Dirent: names in FAT32 directories

    The directory entries of [src/fs/fat32/fat32_inode.c] and
    [src/include/fs/fat/fat32_disk.h], with the stack of
    [src/fs/fat32/fat32_stack.c]: long names cut into entries and read back,
    looking a name up, finding room for a new file and deleting one.  A
    directory is the list of its 32-byte slots, as [fat32_inode_read] copies
    them; its reads and writes are taken to be complete (Fileio says when they
    are not).  What new clusters hold ([old]) and the short entry made up for a
    name are parameters: nothing zeroes the one, and the other is put together
    from buffers read uninitialised. *)

From stdpp Require Import base gmap sets list fin_maps.
From Stdlib Require Import ZArith Lia.
From S2P Require Import Prelude.
#[local] Open Scope Z_scope.

(** ** Data *)

Definition FAT_SFN_LENGTH : Z := 11.
Definition FAT_LFN_LENGTH : Z := 13.
Definition NAME_LONG_MAX : Z := 255.
Definition PATH_LONG_MAX : Z := 260.
Definition LAST_LONG_ENTRY : Z := 0x40.
(** [ATTR_READ_ONLY | ATTR_HIDDEN | ATTR_SYSTEM | ATTR_VOLUME_ID]. *)
Definition ATTR_LONG_NAME : Z := Z.lor (Z.lor (Z.lor 0x01 0x02) 0x04) 0x08.
Definition CAPACITY : Z := 30.

Definition NAME0_FREE_ONLY (x : Z) : bool := x =? 0xE5.
Definition NAME0_FREE_ALL (x : Z) : bool := x =? 0x00.
Definition NAME0_FREE_BOOL (x : Z) : bool := NAME0_FREE_ONLY x || NAME0_FREE_ALL x.
Definition LONG_NAME_BOOL (x : Z) : bool := Z.lxor x ATTR_LONG_NAME =? 0.
Definition LAST_LONG_ENTRY_BOOL (x : Z) : bool := negb (Z.land x LAST_LONG_ENTRY =? 0).
Definition LONG_NAME_CHAR_MASK (x : Z) : Z := Z.land x 0xFF.
Definition LONG_NAME_CHAR_VALID (x : Z) : bool := negb (x =? 0x0000) && negb (x =? 0xFFFF).
Definition LONG_NAME_CHAR_SET (x : Z) : Z := Z.land (u16 x) 0x00FF.
Definition CEIL_DIVIDE (x y : Z) : Z := (x + y - 1) / y.

Record dirent_s := SDir {
  DIR_Name : list Z;
  DIR_Attr : Z;
  DIR_Dev : Z;
  DIR_CrtTimeTenth : Z;
  DIR_CrtTime : Z;
  DIR_CrtDate : Z;
  DIR_LstAccDate : Z;
  DIR_FstClusHI : Z;
  DIR_WrtTime : Z;
  DIR_WrtDate : Z;
  DIR_FstClusLO : Z;
  DIR_FileSize : Z
}.

Record dirent_l := LDir {
  LDIR_Ord : Z;
  LDIR_Name1 : list Z;
  LDIR_Attr : Z;
  LDIR_Type : Z;
  LDIR_Chksum : Z;
  LDIR_Name2 : list Z;
  LDIR_Nlinks : Z;
  LDIR_Name3 : list Z
}.

(** The two views of a slot: packed, little-endian. *)
Definition le16 (w : Z) : list Z := [Z.land w 0xFF; Z.shiftr w 8].
Definition get16 (b : list Z) (i : nat) : Z := Z.lor (b !!! i) (Z.shiftl (b !!! S i) 8).
Definition get16s (b : list Z) (i n : nat) : list Z := (fun k => get16 b (i + 2 * k)) <$> seq 0 n.

Definition bytes_of_long (d : dirent_l) : list Z :=
  [LDIR_Ord d] ++ (LDIR_Name1 d ≫= le16) ++ [LDIR_Attr d; LDIR_Type d; LDIR_Chksum d] ++ (LDIR_Name2 d ≫= le16) ++
  le16 (LDIR_Nlinks d) ++ (LDIR_Name3 d ≫= le16).
Definition long_of_bytes (b : list Z) : dirent_l :=
  LDir (b !!! 0%nat) (get16s b 1 5) (b !!! 11%nat) (b !!! 12%nat) (b !!! 13%nat) (get16s b 14 6) (get16 b 26) (get16s b 28 2).

Definition bytes_of_short (d : dirent_s) : list Z :=
  DIR_Name d ++ [DIR_Attr d; DIR_Dev d; DIR_CrtTimeTenth d] ++ le16 (DIR_CrtTime d) ++ le16 (DIR_CrtDate d) ++
  le16 (DIR_LstAccDate d) ++ le16 (DIR_FstClusHI d) ++ le16 (DIR_WrtTime d) ++ le16 (DIR_WrtDate d) ++
  le16 (DIR_FstClusLO d) ++ le16 (Z.land (DIR_FileSize d) 0xFFFF) ++ le16 (Z.shiftr (DIR_FileSize d) 16).
Definition short_of_bytes (b : list Z) : dirent_s :=
  SDir (take 11 b) (b !!! 11%nat) (b !!! 12%nat) (b !!! 13%nat) (get16 b 14) (get16 b 16) (get16 b 18) (get16 b 20)
    (get16 b 22) (get16 b 24) (get16 b 26) (Z.lor (get16 b 28) (Z.shiftl (get16 b 30) 16)).

(** [DIR_FIRST_CLUS] and the halves it puts together. *)
Definition DIR_FIRST_CLUS (high low : Z) : Z := Z.lor (Z.shiftl high 16) low.
Definition DIR_FIRST_HIGH (x : Z) : Z := Z.shiftr x 16.
Definition DIR_FIRST_LOW (x : Z) : Z := Z.land x 0x0000FFFF.

(** The checksum of a short name, 8 bits wide. *)
Definition chk_step (sum c : Z) : Z := u8 ((if Z.odd sum then 0x80 else 0) + Z.shiftr sum 1 + c).
Definition ChkSum (name : list Z) : Z := foldl chk_step 0 name.

(** ** The stack of long entries *)

Record Stack := MkStack { top : Z; data : gmap Z dirent_l }.

Definition stack_init : Stack := MkStack (-1) ∅.
Definition stack_is_empty (st : Stack) : bool := top st =? -1.
Definition stack_is_full (st : Stack) : bool := top st =? CAPACITY - 1.
Definition stack_push (item : dirent_l) (st : Stack) : outcome Stack :=
  if stack_is_full st then Panic else Done (MkStack (top st + 1) (<[top st + 1 := item]> (data st))).
Definition stack_pop (st : Stack) : outcome (dirent_l * Stack) :=
  if stack_is_empty st then Panic
  else d ← deref (data st !! top st); Done (d, MkStack (top st - 1) (data st)).

(** ** Writing the entries of a name *)

(** [long_name[i]], with the NUL that ends it. *)
Definition char_at (name : list Z) (i : Z) : outcome Z :=
  if i <? 0 then Undef else deref ((name ++ [0]) !! Z.to_nat i).

(** [for (i = ...; i < ... && !end_flag; i++)] over one of the three arrays;
    [n] rounds to go. *)
Fixpoint name_loop (name : list Z) (n i : nat) (arr : list Z) (char_idx : Z) (end_flag : bool)
    : outcome (list Z * Z * bool) :=
  match n with
  | O => Done (arr, char_idx, end_flag)
  | S n =>
      if end_flag then Done (arr, char_idx, end_flag)
      else
        c ← char_at name char_idx;
        name_loop name n (S i) (<[i := LONG_NAME_CHAR_SET c]> arr) (char_idx + 1) (negb (LONG_NAME_CHAR_VALID c))
  end.

(** One entry; [memset] made every byte [0xFF] before. *)
Definition long_entry (name : list Z) (i ord_max checksum char_idx : Z) : outcome (dirent_l * Z) :=
  let ord := if i =? ord_max then Z.lor i LAST_LONG_ENTRY else i in
  '(n1, c, e) ← name_loop name 5 0 (replicate 5 0xFFFF) char_idx false;
  '(n2, c, e) ← name_loop name 6 0 (replicate 6 0xFFFF) c e;
  '(n3, c, e) ← name_loop name 2 0 (replicate 2 0xFFFF) c e;
  Done (LDir ord n1 ATTR_LONG_NAME 0 checksum n2 0 n3, c).

(** The entries in the order of the name; [n] of them to go. *)
Fixpoint long_entries (n : nat) (name : list Z) (i ord_max checksum char_idx : Z) (st : Stack) : outcome Stack :=
  match n with
  | O => Done st
  | S n =>
      if char_idx =? Z.of_nat (length name) then Done st
      else
        '(d, c) ← long_entry name i ord_max checksum char_idx;
        st ← stack_push d st;
        long_entries n name (i + 1) ord_max checksum c st
  end.

Fixpoint pop_entries (fuel : nat) (st : Stack) : outcome (list dirent_l) :=
  if stack_is_empty st then Done []
  else match fuel with
    | O => NoFuel
    | S fuel => '(d, st) ← stack_pop st; ds ← pop_entries fuel st; Done (d :: ds)
    end.

(** The end of [fat32_fcb_init], once it has the short entry [s]: the slots of a file, its
    long entries from the last to the first and [s]. *)
Definition fcb_slots (name : list Z) (s : dirent_s) : outcome (list (list Z)) :=
  let checksum := ChkSum (DIR_Name s) in
  let ord_max := CEIL_DIVIDE (Z.of_nat (length name)) FAT_LFN_LENGTH in
  st ← long_entries (Z.to_nat ord_max) name 1 ord_max checksum 0 stack_init;
  ds ← pop_entries (Z.to_nat (top st + 1)) st;
  Done ((bytes_of_long <$> ds) ++ [bytes_of_short s]).

(** ** Reading names *)

(** [memset(x, 0, sizeof x)] and what is before the first NUL. *)
Fixpoint cstring (l : list Z) : list Z :=
  match l with [] => [] | c :: l => if c =? 0 then [] else c :: cstring l end.

(** One of the three loops of [fat32_filter_longname]; whether it returned. *)
Fixpoint filter_loop (cs acc : list Z) : list Z * bool :=
  match cs with
  | [] => (acc, false)
  | c :: cs =>
      let acc := acc ++ [LONG_NAME_CHAR_MASK c] in
      if LONG_NAME_CHAR_VALID c then filter_loop cs acc else (acc, true)
  end.

Definition fat32_filter_longname (d : dirent_l) : list Z :=
  let '(acc, r) := filter_loop (LDIR_Name1 d) [] in
  if (r : bool) then acc
  else
    let '(acc, r) := filter_loop (LDIR_Name2 d) acc in
    if (r : bool) then acc else (filter_loop (LDIR_Name3 d) acc).1.

(** [name_buf[name_idx++] = ...] into an array of [NAME_LONG_MAX] bytes. *)
Definition buf_append (buf cs : list Z) : outcome (list Z) :=
  if Z.of_nat (length buf + length cs) <=? NAME_LONG_MAX then Done (buf ++ cs) else Undef.

(** The loop of [fat32_longname_popstack]; no result when it returned 0. *)
Fixpoint popstack_loop (fuel : nat) (st : Stack) (cnt : Z) (sname buf : list Z) : outcome (Stack * option (list Z * Z)) :=
  match fuel with
  | O => NoFuel
  | S fuel =>
      '(d, st) ← stack_pop st;
      if negb (stack_is_empty st) && negb (cnt =? LDIR_Ord d) then Done (st, None)
      else
        ASSERT (LDIR_Chksum d =? ChkSum sname);;
        buf ← buf_append buf (fat32_filter_longname d);
        if stack_is_empty st then Done (st, Some (buf, LDIR_Ord d))
        else popstack_loop fuel st (u8 (cnt + 1)) sname buf
  end.

(** The name, unless the result is 0. *)
Definition fat32_longname_popstack (st : Stack) (sname : list Z) : outcome (Stack * option (list Z)) :=
  if stack_is_empty st then Done (st, None)
  else
    '(st, r) ← popstack_loop (Z.to_nat (top st + 1)) st 1 sname [];
    match r with
    | None => Done (st, None)
    | Some (buf, ord) =>
        buf ← buf_append buf [0];
        Done (st, if LAST_LONG_ENTRY_BOOL ord then Some (cstring buf) else None)
    end.

Definition fat32_short_name_parser (name : list Z) : list Z :=
  let base := filter (fun c => c <> 0x20) (take 8 name) in
  let ext := if name !!! 8%nat =? 0x20 then [] else 0x2E :: filter (fun c => c <> 0x20) (drop 8 name) in
  cstring (base ++ ext).

(** ** Walking over a directory *)

Notation slot := (list Z) (only parsing).

(** [strncmp(s, t, PATH_LONG_MAX) == 0]. *)
Definition fat32_namecmp (a b : list Z) : bool :=
  bool_decide (take (Z.to_nat PATH_LONG_MAX) a = take (Z.to_nat PATH_LONG_MAX) b).

(** The part of [struct trav_control] a look-up changes; [cached] are the names
    handed to [fat32_inode_hash_insert], [retval] the offset of the inode found. *)
Record trav := Trav { fcb_stack : Stack; stop : bool; retval : option Z; cached : list (list Z * Z) }.

Definition fat32_inode_dirlookup_handler (name_search name_buf : list Z) (off : Z) (t : trav) : trav :=
  if fat32_namecmp name_search name_buf then Trav (fcb_stack t) true (Some off) (cached t) else t.

Definition fat32_inode_travel_fcb_handler (name_search : list Z) (off : Z) (b : slot) (t : trav) : outcome trav :=
  let fcb_s := short_of_bytes b in
  let fcb_l := long_of_bytes b in
  let name0 := DIR_Name fcb_s !!! 0%nat in
  if NAME0_FREE_ALL name0 then Done (Trav (fcb_stack t) true (retval t) (cached t))
  else if NAME0_FREE_ONLY name0 then ASSERT (stack_is_empty (fcb_stack t));; Done t
  else if LONG_NAME_BOOL (LDIR_Attr fcb_l) then
    st ← stack_push fcb_l (fcb_stack t); Done (Trav st (stop t) (retval t) (cached t))
  else
    '(st, r) ← fat32_longname_popstack (fcb_stack t) (DIR_Name fcb_s);
    let name_buf := match r with Some n => n | None => fat32_short_name_parser (DIR_Name fcb_s) end in
    let c := if hd 0 name_buf =? 0x2E then cached t else cached t ++ [(name_buf, off)] in
    Done (fat32_inode_dirlookup_handler name_search name_buf off (Trav st (stop t) (retval t) c)).

(** The loop of [fat32_inode_general_trav] from the slot [off]. *)
Fixpoint general_trav {T} (fn : Z -> slot -> T -> outcome T) (stop : T -> bool) (off : Z) (l : list slot) (t : T) : outcome T :=
  match l with
  | [] => Done t
  | b :: l => t ← fn off b t; if stop t then Done t else general_trav fn stop (off + 1) l t
  end.

(** The offset of the file found, the new [off_hint] of the directory and the
    names put into its cache; [name_search] has room for 50 bytes, and no buffer
    is found for a hint past the end, where the size computed is negative. *)
Definition fat32_inode_dirlookup_with_hint (name : list Z) (off_hint : Z) (dir : list slot)
    : outcome (option Z * Z * list (list Z * Z)) :=
  if 50 <=? Z.of_nat (length name) then Undef
  else if Z.of_nat (length dir) <? off_hint then Panic
  else
    t ← general_trav (fat32_inode_travel_fcb_handler name) stop off_hint (drop (Z.to_nat off_hint) dir)
          (Trav stack_init false None []);
    if stop t then Done (retval t, match retval t with Some off => off + 1 | None => off_hint end, cached t)
    else Done (None, 0, cached t).

(** [fcb_free_cnt], [*retval] and [stop] of the search for room. *)
Record room := Room { fcb_free_cnt : Z; offset_ret : Z; enough : bool }.

Definition fat32_dir_fcb_insert_offset_handler (fcb_cnt_req offset_ret_base off : Z) (b : slot) (t : room) : outcome room :=
  if negb (NAME0_FREE_BOOL (DIR_Name (short_of_bytes b) !!! 0%nat)) then Done (Room 0 offset_ret_base (enough t))
  else
    let r := if fcb_free_cnt t =? 0 then off else offset_ret t in
    let n := fcb_free_cnt t + 1 in
    Done (Room n r (if n =? fcb_cnt_req then true else enough t)).

Definition fat32_dir_fcb_insert_offset (fcb_cnt_req : Z) (dir : list slot) : outcome Z :=
  t ← general_trav (fat32_dir_fcb_insert_offset_handler (u8 fcb_cnt_req) (Z.of_nat (length dir))) enough 0 dir (Room 0 0 false);
  Done (offset_ret t).

Definition fat32_isdirempty_handler (off : Z) (b : slot) (judge : bool) : outcome bool :=
  let name := DIR_Name (short_of_bytes b) in
  if negb (NAME0_FREE_BOOL (name !!! 0%nat)) then
    Done (if negb (fat32_namecmp (cstring b) [0x2E]) && negb (fat32_namecmp (cstring b) [0x2E; 0x2E]) then false else judge)
  else Done judge.
Definition fat32_isdirempty (dir : list slot) : outcome bool := general_trav fat32_isdirempty_handler negb 0 dir true.

(** ** Writing to a directory *)

(** [fat32_inode_write] of whole slots: the size of a directory grows to a
    multiple of its cluster, [spc] slots.  Nothing clears a new cluster
    ([fat32_zero_cluster] is commented out) and the page is read from the
    disk, so slot [i] past the data is [old i], what was there before. *)
Definition write_slots (spc : Z) (old : Z -> slot) (dir : list slot) (off : Z) (bs : list slot) : list slot :=
  let len := Z.of_nat (length dir) in
  let last := off + Z.of_nat (length bs) in
  let size := if len <? last then CEIL_DIVIDE last spc * spc else len in
  take (Z.to_nat off) dir ++ bs ++ drop (Z.to_nat last) dir ++ (old <$> seqZ (Z.max last len) (size - Z.max last len)).

(** The entry of [.] and [..]: [clus] is [cluster_start] of the parent; the
    attributes are those every entry of the type has. *)
Definition dot_entry (name : list Z) (s : dirent_s) (clus : Z) : dirent_s :=
  SDir (name ++ replicate (11 - length name) 0) (DIR_Attr s) (DIR_Dev s) 0 0 0 0 (DIR_FIRST_HIGH clus) 0 0 (DIR_FIRST_LOW clus) 0.

Definition is_dot (name : list Z) : bool := fat32_namecmp name [0x2E] || fat32_namecmp name [0x2E; 0x2E].

(** [fat32_fcb_init]; [s] is the short entry it makes up for a name that is not
    [.] or [..] (attributes, first cluster and a name from buffers that it
    reads uninitialised). *)
Definition fat32_fcb_init (clus : Z) (name : list Z) (s : dirent_s) : outcome (list slot) :=
  if is_dot name then Done [bytes_of_short (dot_entry name s clus)] else fcb_slots name s.

(** [fat32_inode_alloc]: the entries of a new file; the offset of its short one. *)
Definition fat32_inode_alloc (spc : Z) (old : Z -> slot) (clus : Z) (name : list Z) (s : dirent_s) (dir : list slot)
    : outcome (Z * list slot) :=
  bs ← fat32_fcb_init clus name s;
  off ← fat32_dir_fcb_insert_offset (Z.of_nat (length bs)) dir;
  Done (off + Z.of_nat (length bs) - 1, write_slots spc old dir off bs).

(** [fname] and [parent_off] are the inode's. *)
Definition fat32_fcb_delete (spc : Z) (old : Z -> slot) (fname : list Z) (parent_off : Z) (dir : list slot) : outcome (list slot) :=
  let long_dir_len := CEIL_DIVIDE (Z.of_nat (length fname)) FAT_LFN_LENGTH in
  ASSERT (0 <? parent_off);;
  ASSERT (0 <=? parent_off - long_dir_len);;
  Done (write_slots spc old dir (parent_off - long_dir_len)
    (replicate (Z.to_nat (long_dir_len + 1)) (0xE5 :: replicate 31 0))).

(** ** The bytes of a slot *)

Lemma get_le16 w : 0 <= w < 2 ^ 16 -> Z.lor (Z.land w 0xFF) (Z.shiftl (Z.shiftr w 8) 8) = w.
Proof. intros Hw. apply (split_word w 8); lia. Qed.

Definition word16 (w : Z) : Prop := 0 <= w < 2 ^ 16.

Record long_ok (d : dirent_l) : Prop := {
  lo_name1 : length (LDIR_Name1 d) = 5%nat /\ Forall word16 (LDIR_Name1 d);
  lo_name2 : length (LDIR_Name2 d) = 6%nat /\ Forall word16 (LDIR_Name2 d);
  lo_name3 : length (LDIR_Name3 d) = 2%nat /\ Forall word16 (LDIR_Name3 d);
  lo_links : word16 (LDIR_Nlinks d)
}.

Lemma long_round_trip d : long_ok d -> long_of_bytes (bytes_of_long d) = d.
Proof.
  intros [[L1 W1] [L2 W2] [L3 W3] W4]. destruct d as [o n1 a ty ck n2 nl n3]. cbn in *.
  do 5 (destruct n1 as [|? n1]; [discriminate L1|]). destruct n1; [|discriminate L1].
  do 6 (destruct n2 as [|? n2]; [discriminate L2|]). destruct n2; [|discriminate L2].
  do 2 (destruct n3 as [|? n3]; [discriminate L3|]). destruct n3; [|discriminate L3].
  rewrite !Forall_cons in *. destruct_and?. unfold long_of_bytes, get16s, get16. cbn. by rewrite !get_le16.
Qed.

Lemma bytes_of_long_length d : long_ok d -> length (bytes_of_long d) = 32%nat.
Proof.
  intros [[L1 _] [L2 _] [L3 _] _]. destruct d as [o n1 a ty ck n2 nl n3]. cbn in *.
  do 5 (destruct n1 as [|? n1]; [discriminate L1|]). destruct n1; [|discriminate L1].
  do 6 (destruct n2 as [|? n2]; [discriminate L2|]). destruct n2; [|discriminate L2].
  do 2 (destruct n3 as [|? n3]; [discriminate L3|]). by destruct n3.
Qed.

(** A short entry of a file: eleven bytes of name, the first of which does not
    mark a free slot, and an attribute that is not a long entry's. *)
Record short_ok (s : dirent_s) : Prop := {
  sh_name : length (DIR_Name s) = 11%nat;
  sh_used : NAME0_FREE_BOOL (DIR_Name s !!! 0%nat) = false;
  sh_attr : LONG_NAME_BOOL (DIR_Attr s) = false
}.

Lemma short_name s : length (DIR_Name s) = 11%nat -> DIR_Name (short_of_bytes (bytes_of_short s)) = DIR_Name s.
Proof. intros H. unfold short_of_bytes, bytes_of_short. cbn [DIR_Name]. by rewrite take_app_length'. Qed.

Lemma short_attr s : length (DIR_Name s) = 11%nat -> LDIR_Attr (long_of_bytes (bytes_of_short s)) = DIR_Attr s.
Proof.
  intros H. unfold long_of_bytes, bytes_of_short. cbn [LDIR_Attr]. rewrite lookup_total_app_r by (rewrite H; done).
  by rewrite H.
Qed.

(** The whole short entry comes back when its fields have their widths. *)
Lemma short_round_trip s : length (DIR_Name s) = 11%nat ->
  Forall word16 [DIR_CrtTime s; DIR_CrtDate s; DIR_LstAccDate s; DIR_FstClusHI s; DIR_WrtTime s; DIR_WrtDate s; DIR_FstClusLO s] ->
  0 <= DIR_FileSize s < 2 ^ 32 -> short_of_bytes (bytes_of_short s) = s.
Proof.
  intros L W Hs. destruct s as [n a dv te ct cd la hi wt wd lo sz]. cbn in L, W, Hs.
  do 11 (destruct n as [|? n]; [discriminate L|]). destruct n; [|discriminate L]. rewrite !Forall_cons in W. destruct_and!.
  assert (word16 (Z.land sz 0xFFFF) /\ word16 (Z.shiftr sz 16)) as [Hsl Hsh].
  { change 0xFFFF with (Z.ones 16). rewrite Z.land_ones, Z.shiftr_div_pow2 by lia. split; [by apply Z.mod_pos_bound|].
    split; [apply Z.div_pos; lia|apply Z.div_lt_upper_bound; lia]. }
  unfold short_of_bytes, get16. cbn. rewrite !get_le16 by done. f_equal. apply (split_word sz 16); lia.
Qed.

(** ** The stack *)

(** The entries from the bottom to the top. *)
Definition stack_is (st : Stack) (ds : list dirent_l) : Prop :=
  top st = Z.of_nat (length ds) - 1 /\ forall i d, ds !! i = Some d -> data st !! Z.of_nat i = Some d.

Lemma stack_init_is : stack_is stack_init [].
Proof. by split. Qed.

Lemma stack_empty_is st ds : stack_is st ds -> stack_is_empty st = bool_decide (ds = []).
Proof. intros [Ht _]. unfold stack_is_empty. rewrite Ht. destruct ds as [|d ds]; [done|].
  rewrite bool_decide_eq_false_2 by done. apply Z.eqb_neq. cbn [length]. lia.
Qed.

Lemma stack_push_ok st ds d : stack_is st ds -> (length ds < 30)%nat ->
  exists st', stack_push d st = Done st' /\ stack_is st' (ds ++ [d]).
Proof.
  intros [Ht Hd] Hl. unfold stack_push, stack_is_full, CAPACITY. rewrite (proj2 (Z.eqb_neq (top st) _)) by lia.
  eexists. split; [done|]. split; cbn [top data]; [rewrite length_app; cbn; lia|]. intros i e.
  destruct (decide (i = length ds)) as [->|Hne].
  - rewrite lookup_app_r, Nat.sub_diag by lia. cbn. intros [= ->]. rewrite Ht. replace (_ - 1 + 1) with (Z.of_nat (length ds)) by lia.
    apply lookup_insert_eq.
  - intros E. apply lookup_lt_Some in E as Hi. rewrite length_app in Hi. cbn in Hi. rewrite lookup_app_l in E by lia.
    rewrite lookup_insert_ne by lia. by apply Hd.
Qed.

Lemma stack_pop_ok st ds d : stack_is st (ds ++ [d]) -> exists st', stack_pop st = Done (d, st') /\ stack_is st' ds.
Proof.
  intros [Ht Hd]. rewrite length_app in Ht. cbn in Ht. unfold stack_pop, stack_is_empty.
  rewrite (proj2 (Z.eqb_neq (top st) _)) by lia. replace (top st) with (Z.of_nat (length ds)) by lia.
  rewrite (Hd (length ds) d) by (rewrite lookup_app_r, Nat.sub_diag by lia; done). ocbn. eexists. split; [done|].
  split; cbn [top data]; [lia|]. intros i e E. apply Hd. rewrite lookup_app_l; [done|]. by apply lookup_lt_Some in E.
Qed.

Lemma pop_entries_ok ds : forall st fuel, stack_is st ds -> (length ds <= fuel)%nat -> pop_entries fuel st = Done (rev ds).
Proof.
  induction ds as [|d ds IH] using rev_ind; intros st fuel Hst Hf.
  - destruct fuel; cbn [pop_entries]; by rewrite (stack_empty_is _ _ Hst).
  - rewrite length_app in Hf. cbn in Hf. destruct fuel as [|fuel]; [lia|]. cbn [pop_entries].
    rewrite (stack_empty_is _ _ Hst), bool_decide_eq_false_2 by (by destruct ds).
    destruct (stack_pop_ok _ _ _ Hst) as (st' & -> & Hst'). ocbn. rewrite (IH st' fuel Hst') by lia. ocbn.
    by rewrite rev_app_distr.
Qed.

(** ** The characters of a name *)

Definition char_ok (c : Z) : Prop := 0 < c < 256.

Lemma char_words c : char_ok c -> LONG_NAME_CHAR_SET c = c /\ LONG_NAME_CHAR_MASK c = c /\ LONG_NAME_CHAR_VALID c = true.
Proof.
  intros Hc. unfold char_ok in Hc. unfold LONG_NAME_CHAR_SET, LONG_NAME_CHAR_MASK, LONG_NAME_CHAR_VALID, u16.
  change 0xFF with (Z.ones 8). rewrite !Z.land_ones, (Z.mod_small c (2 ^ 16)), Z.mod_small by lia.
  split; [done|]. split; [done|]. by rewrite (proj2 (Z.eqb_neq c 0)), (proj2 (Z.eqb_neq c 0xFFFF)) by lia.
Qed.

Lemma char_at_drop name c x r : 0 <= c -> drop (Z.to_nat c) name = x :: r -> char_at name c = Done x.
Proof.
  intros Hc E. unfold char_at. destruct (Z.ltb_spec c 0); [lia|].
  assert (name !! Z.to_nat c = Some x) as Ex by (rewrite <- (Nat.add_0_r (Z.to_nat c)), <- lookup_drop, E; done).
  by rewrite lookup_app_l, Ex by (by apply lookup_lt_Some in Ex).
Qed.

Lemma char_at_end name : char_at name (Z.of_nat (length name)) = Done 0.
Proof.
  unfold char_at. destruct (Z.ltb_spec (Z.of_nat (length name)) 0); [lia|].
  by rewrite Nat2Z.id, lookup_app_r, Nat.sub_diag.
Qed.

Lemma insert_middle {A} (pre : list A) x y l : <[length pre := y]> (pre ++ x :: l) = pre ++ y :: l.
Proof. by rewrite <- (Nat.add_0_r (length pre)), insert_app_r. Qed.

(** One of the loops: [r] is what is left of the name. *)
Lemma name_loop_ok name n : forall pre r c, Forall char_ok r -> 0 <= c -> r = drop (Z.to_nat c) name ->
  c + Z.of_nat (length r) = Z.of_nat (length name) ->
  name_loop name n (length pre) (pre ++ replicate n 0xFFFF) c false =
    if (n <=? length r)%nat then Done (pre ++ take n r, c + Z.of_nat n, false)
    else Done (pre ++ r ++ 0 :: replicate (n - length r - 1) 0xFFFF, Z.of_nat (length name) + 1, true).
Proof.
  induction n as [|n IH]; intros pre r c Hr Hc Er Hl; cbn [name_loop replicate].
  { rewrite Z.add_0_r. cbn. by rewrite take_0. }
  destruct r as [|x r].
  - cbn in Hl. replace c with (Z.of_nat (length name)) by lia. rewrite char_at_end. ocbn. rewrite insert_middle. cbn.
    rewrite Nat.sub_0_r. destruct n; [done|]. done.
  - rewrite (char_at_drop name c x r) by done. ocbn. apply Forall_cons_1 in Hr as [Hx Hr].
    destruct (char_words x Hx) as (-> & _ & ->). cbn [negb]. rewrite insert_middle.
    replace (pre ++ x :: replicate n 0xFFFF) with ((pre ++ [x]) ++ replicate n 0xFFFF) by (by rewrite <- app_assoc).
    replace (S (length pre)) with (length (pre ++ [x])) by (rewrite length_app; cbn; lia). cbn [length] in Hl.
    rewrite (IH (pre ++ [x]) r (c + 1)); [|done|lia| |lia].
    + cbn [length Nat.leb Nat.sub take]. destruct (n <=? length r)%nat.
      * rewrite <- app_assoc. do 3 f_equal. lia.
      * by rewrite <- app_assoc.
    + replace (Z.to_nat (c + 1)) with (S (Z.to_nat c)) by lia.
      change (S (Z.to_nat c)) with (1 + Z.to_nat c)%nat. rewrite Nat.add_comm, <- drop_drop, <- Er. done.
Qed.

(** The thirteen characters of the entry for [r]: a NUL ends a shorter name. *)
Definition entry_words (r : list Z) : list Z := take 13 (r ++ 0 :: replicate 12 0xFFFF).
Definition entry_for (name : list Z) (ord_max checksum i : Z) : dirent_l :=
  let w := entry_words (drop (Z.to_nat (13 * (i - 1))) name) in
  LDir (if i =? ord_max then Z.lor i LAST_LONG_ENTRY else i) (take 5 w) ATTR_LONG_NAME 0 checksum (take 6 (drop 5 w)) 0 (drop 11 w).

Lemma entry_words_length r : length (entry_words r) = 13%nat.
Proof. unfold entry_words. rewrite length_take, length_app. cbn [length]. rewrite length_replicate. lia. Qed.

Lemma entry_words_ok r : Forall char_ok r -> Forall word16 (entry_words r).
Proof.
  intros Hr. apply Forall_take, Forall_app. split.
  - eapply Forall_impl; [exact Hr|]. unfold char_ok, word16. intros; lia.
  - apply Forall_cons_2; [by unfold word16|]. apply Forall_replicate. by unfold word16.
Qed.

(** The words in pieces, when the name ends in the one or the other. *)
Lemma entry_words_long r : (13 <= length r)%nat -> entry_words r = take 13 r.
Proof. intros Hl. unfold entry_words. by rewrite take_app_le. Qed.
Lemma entry_words_short r : (length r < 13)%nat -> entry_words r = r ++ 0 :: replicate (12 - length r) 0xFFFF.
Proof.
  intros Hl. unfold entry_words. rewrite take_app_ge by lia. f_equal.
  destruct (13 - length r)%nat as [|k] eqn:E; [lia|]. cbn [take]. f_equal. rewrite take_replicate. f_equal. lia.
Qed.

Lemma long_entry_ok name i ord_max checksum c r : Forall char_ok name -> 1 <= i -> c = 13 * (i - 1) ->
  r = drop (Z.to_nat c) name -> r <> [] ->
  exists c', long_entry name i ord_max checksum c = Done (entry_for name ord_max checksum i, c') /\
    (13 <= Z.of_nat (length r) -> c' = c + 13).
Proof.
  intros Hn Hi -> Er Hne. unfold long_entry, entry_for. rewrite <- Er. set (c := 13 * (i - 1)) in *.
  assert (Forall char_ok r) as Hr by (rewrite Er; by apply Forall_drop).
  assert (c + Z.of_nat (length r) = Z.of_nat (length name)) as Hl.
  { assert (0 < length r)%nat by (destruct r; [done|cbn; lia]). rewrite Er, length_drop in *. lia. }
  assert (forall k, drop k r = drop (Z.to_nat (c + Z.of_nat k)) name) as Ek.
  { intros k. rewrite Er, drop_drop. f_equal. lia. }
  pose proof (name_loop_ok name 5 [] r c Hr ltac:(lia) Er Hl) as E1. cbn [length app] in E1. rewrite E1. clear E1.
  destruct (Nat.leb_spec 5 (length r)) as [H5|H5]; ocbn.
  2: { eexists. split; [|lia]. rewrite entry_words_short by lia. do 5 (destruct r as [|? r]; [done|]). cbn in H5. lia. }
  pose proof (name_loop_ok name 6 [] (drop 5 r) (c + 5) (Forall_drop _ _ _ Hr) ltac:(lia) (Ek 5%nat)
    ltac:(rewrite length_drop; lia)) as E2. cbn [length app] in E2. change (Z.of_nat 5) with 5. rewrite E2. clear E2.
  destruct (Nat.leb_spec 6 (length (drop 5 r))) as [H6|H6]; rewrite length_drop in H6; ocbn.
  2: { eexists. split; [|lia]. rewrite entry_words_short by lia. do 5 (destruct r as [|? r]; [cbn in H5; lia|]). cbn in H6.
       do 6 (destruct r as [|? r]; [done|]). cbn in H6. lia. }
  pose proof (name_loop_ok name 2 [] (drop 11 r) (c + 11) (Forall_drop _ _ _ Hr) ltac:(lia) (Ek 11%nat)
    ltac:(rewrite length_drop; lia)) as E3. cbn [length app] in E3. change (Z.of_nat 6) with 6.
  replace (c + 5 + 6) with (c + 11) by lia. rewrite E3. clear E3.
  destruct (Nat.leb_spec 2 (length (drop 11 r))) as [H2|H2]; rewrite length_drop in H2; ocbn.
  - exists (c + 11 + Z.of_nat 2). split; [|lia]. rewrite entry_words_long by lia.
    assert (13 <= length r)%nat as H13 by lia. clear -H13. do 13 (destruct r as [|? r]; [cbn in H13; lia|]). done.
  - eexists. split; [|lia]. rewrite entry_words_short by lia. do 11 (destruct r as [|? r]; [cbn in *; lia|]). cbn in H2.
    do 2 (destruct r as [|? r]; [done|]). cbn in H2. lia.
Qed.

Lemma entry_for_ok name ord_max checksum i : Forall char_ok name -> long_ok (entry_for name ord_max checksum i).
Proof.
  intros Hn. unfold entry_for. set (w := entry_words _).
  assert (length w = 13%nat) as Hl by apply entry_words_length.
  assert (Forall word16 w) as Hw by (apply entry_words_ok; by apply Forall_drop).
  constructor; cbn [LDIR_Name1 LDIR_Name2 LDIR_Name3 LDIR_Nlinks]; rewrite ?length_take, ?length_drop, ?Hl;
    [split; [done|auto using Forall_take, Forall_drop]..|by unfold word16].
Qed.

Lemma filter_loop_ok cs : forall acc, Forall char_ok cs -> filter_loop cs acc = (acc ++ cs, false).
Proof.
  induction cs as [|c cs IH]; intros acc Hcs; cbn [filter_loop]; [by rewrite app_nil_r|].
  apply Forall_cons_1 in Hcs as [Hc Hcs]. destruct (char_words c Hc) as (_ & -> & ->). rewrite IH by done.
  by rewrite <- app_assoc.
Qed.

(** The characters an entry gives back. *)
Definition entry_chars (r : list Z) : list Z := if (13 <=? length r)%nat then take 13 r else r ++ [0].

Lemma filter_longname_ok name ord_max checksum i : Forall char_ok name ->
  fat32_filter_longname (entry_for name ord_max checksum i) = entry_chars (drop (Z.to_nat (13 * (i - 1))) name).
Proof.
  intros Hn. unfold entry_for. set (r := drop _ name). assert (Forall char_ok r) as Hr by by apply Forall_drop.
  unfold entry_chars, fat32_filter_longname. cbn [LDIR_Name1 LDIR_Name2 LDIR_Name3].
  destruct (Nat.leb_spec 13 (length r)) as [Hl|Hl].
  - rewrite entry_words_long by done. rewrite !filter_loop_ok by auto using Forall_take, Forall_drop. cbn [fst app].
    clear -Hl. do 13 (destruct r as [|? r]; [cbn in Hl; lia|]). done.
  - rewrite entry_words_short by done.
    do 13 (destruct r as [|? r];
      [cbn; repeat match goal with H : Forall char_ok (_ :: _) |- _ => apply Forall_cons_1 in H as [? H] end;
       repeat match goal with H : char_ok _ |- _ => apply char_words in H as (_ & -> & ->) end; done|]).
    cbn in Hl. lia.
Qed.

(** ** The entries of a file *)

Record name_ok (name : list Z) : Prop := {
  nm_chars : Forall char_ok name;
  nm_some : name <> [];
  nm_short : (length name <= 253)%nat
}.

Definition n_long (name : list Z) : Z := CEIL_DIVIDE (Z.of_nat (length name)) FAT_LFN_LENGTH.

Lemma n_long_spec name : name <> [] -> 1 <= n_long name /\
  13 * (n_long name - 1) < Z.of_nat (length name) <= 13 * n_long name.
Proof.
  intros Hn. assert (0 < Z.of_nat (length name)) by (destruct name; [done|cbn; lia]).
  unfold n_long, CEIL_DIVIDE, FAT_LFN_LENGTH.
  pose proof (Z.div_mod (Z.of_nat (length name) + 13 - 1) 13 ltac:(lia)).
  pose proof (Z.mod_pos_bound (Z.of_nat (length name) + 13 - 1) 13 ltac:(lia)). lia.
Qed.

(** The long entries of a name, the first one first. *)
Definition entries (name : list Z) (checksum : Z) (i : Z) (n : nat) : list dirent_l :=
  (fun k => entry_for name (n_long name) checksum (i + Z.of_nat k)) <$> seq 0 n.

Lemma entries_cons name checksum i n : entries name checksum i (S n) =
  entry_for name (n_long name) checksum i :: entries name checksum (i + 1) n.
Proof.
  unfold entries. cbn [seq]. rewrite fmap_cons, Z.add_0_r. f_equal. rewrite <- (fmap_S_seq 0 n), <- list_fmap_compose.
  apply list_fmap_ext. intros k x _. cbn. f_equal. lia.
Qed.

Lemma long_entries_ok name checksum : Forall char_ok name -> name <> [] -> forall n i c st ds, stack_is st ds ->
  1 <= i -> Z.of_nat n = n_long name - i + 1 -> (0 < n)%nat -> c = 13 * (i - 1) -> (length ds + n <= 30)%nat ->
  exists st', long_entries n name i (n_long name) checksum c st = Done st' /\ stack_is st' (ds ++ entries name checksum i n).
Proof.
  intros Hc Hne. destruct (n_long_spec name Hne) as (_ & Hlo & Hhi).
  induction n as [|n IH]; intros i c st ds Hst Hi Hn Hpos Ec Hds; [lia|]. cbn [long_entries].
  rewrite (proj2 (Z.eqb_neq c _)) by lia.
  destruct (long_entry_ok name i (n_long name) checksum c (drop (Z.to_nat c) name)) as (c' & -> & Ec'); try done.
  { intros E. apply (f_equal length) in E. rewrite length_drop in E. cbn in E. lia. }
  ocbn. destruct (stack_push_ok st ds (entry_for name (n_long name) checksum i) Hst) as (st1 & -> & Hst1); [lia|]. ocbn.
  rewrite entries_cons. destruct n as [|n].
  - exists st1. done.
  - rewrite length_drop in Ec'. destruct (IH (i + 1) c' st1 (ds ++ [entry_for name (n_long name) checksum i]) Hst1)
      as (st2 & E2 & Hst2); [lia..| |rewrite length_app; cbn; lia|].
    { rewrite Ec'; lia. }
    exists st2. split; [done|]. by rewrite <- app_assoc in Hst2.
Qed.

(** The slots of a file: the last long entry first, the short one at the end. *)
Definition file_slots (name : list Z) (s : dirent_s) : list slot :=
  (bytes_of_long <$> rev (entries name (ChkSum (DIR_Name s)) 1 (Z.to_nat (n_long name)))) ++ [bytes_of_short s].

Lemma fcb_slots_ok name s : Forall char_ok name -> name <> [] -> n_long name <= 30 ->
  fcb_slots name s = Done (file_slots name s).
Proof.
  intros Hc Hne H30. destruct (n_long_spec name Hne) as (H1 & _). unfold fcb_slots.
  change (CEIL_DIVIDE (Z.of_nat (length name)) FAT_LFN_LENGTH) with (n_long name).
  destruct (long_entries_ok name (ChkSum (DIR_Name s)) Hc Hne (Z.to_nat (n_long name)) 1 0 stack_init [])
    as (st & -> & Hst); [exact stack_init_is|lia..|cbn; lia|]. ocbn. cbn [app] in Hst.
  rewrite (pop_entries_ok _ _ _ Hst); [done|]. destruct Hst as [Ht _]. lia.
Qed.

Lemma entries_length name checksum i n : length (entries name checksum i n) = n.
Proof. unfold entries. by rewrite length_fmap, length_seq. Qed.

Lemma file_slots_length name s : Z.of_nat (length (file_slots name s)) = Z.max 0 (n_long name) + 1.
Proof. unfold file_slots. rewrite length_app, length_fmap, length_rev, entries_length. cbn. lia. Qed.

(** ** Reading a file's entries *)

Lemma ord_last i : 1 <= i <= 30 -> Z.lor i LAST_LONG_ENTRY = i + 64.
Proof. intros Hi. apply (lor_shiftl_add i 1 6); lia. Qed.

Lemma ord_last_bit i : 1 <= i <= 30 -> LAST_LONG_ENTRY_BOOL (Z.lor i LAST_LONG_ENTRY) = true.
Proof.
  intros Hi. unfold LAST_LONG_ENTRY_BOOL. rewrite negb_true_iff, Z.eqb_neq. intros E.
  apply (f_equal (fun z => Z.testbit z 6)) in E. rewrite Z.land_spec, Z.lor_spec, Z.bits_0 in E.
  change (Z.testbit LAST_LONG_ENTRY 6) with true in E. by rewrite orb_true_r in E.
Qed.

(** What the walk looks at to recognise a long entry. *)
Definition pushable (d : dirent_l) : Prop :=
  long_ok d /\ LDIR_Ord d <> 0 /\ LDIR_Ord d <> 0xE5 /\ LDIR_Attr d = ATTR_LONG_NAME.

Lemma entries_pushable name checksum n : Forall char_ok name -> n_long name <= 30 -> Z.of_nat n <= n_long name ->
  Forall pushable (entries name checksum 1 n).
Proof.
  intros Hc H30 Hn. apply Forall_forall. intros d (k & -> & Hk%elem_of_seq)%list_elem_of_fmap.
  split; [by apply entry_for_ok|]. cbn [LDIR_Ord LDIR_Attr entry_for].
  destruct (_ =? _); [rewrite ord_last by lia|]; lia.
Qed.

Section walk.
Context (name_search : list Z).

Lemma handler_long off d t : pushable d -> fat32_inode_travel_fcb_handler name_search off (bytes_of_long d) t =
  (st ← stack_push d (fcb_stack t); Done (Trav st (stop t) (retval t) (cached t))).
Proof.
  intros (Hok & H0 & H5 & Ha). unfold fat32_inode_travel_fcb_handler. rewrite (long_round_trip d Hok), Ha.
  change (DIR_Name (short_of_bytes (bytes_of_long d)) !!! 0%nat) with (LDIR_Ord d).
  unfold NAME0_FREE_ALL, NAME0_FREE_ONLY.
  by rewrite (proj2 (Z.eqb_neq (LDIR_Ord d) 0)), (proj2 (Z.eqb_neq (LDIR_Ord d) 0xE5)).
Qed.

Lemma walk_pushes ds : forall off l t stk, Forall pushable ds -> stack_is (fcb_stack t) stk -> stop t = false ->
  (length stk + length ds <= 30)%nat ->
  exists st', stack_is st' (stk ++ ds) /\
    general_trav (fat32_inode_travel_fcb_handler name_search) stop off ((bytes_of_long <$> ds) ++ l) t =
    general_trav (fat32_inode_travel_fcb_handler name_search) stop (off + Z.of_nat (length ds)) l
      (Trav st' false (retval t) (cached t)).
Proof.
  induction ds as [|d ds IH]; intros off l t stk Hd Hst Hstop Hl.
  { exists (fcb_stack t). rewrite app_nil_r, Z.add_0_r. split; [done|]. destruct t. cbn in *. by subst. }
  apply Forall_cons_1 in Hd as [Hok Hd]. cbn [length] in Hl.
  destruct (stack_push_ok (fcb_stack t) stk d Hst) as (st & E & Hst1); [lia|].
  destruct (IH (off + 1) l (Trav st false (retval t) (cached t)) (stk ++ [d])) as (st' & Hst' & IH');
    [done|done|done|rewrite length_app; cbn; lia|].
  exists st'. rewrite <- app_assoc in Hst'. split; [done|]. rewrite fmap_cons. cbn [app general_trav].
  rewrite handler_long by done. rewrite E. ocbn. cbn [stop]. rewrite Hstop, IH'. f_equal. cbn [length]. lia.
Qed.

Definition pad_nul (name : list Z) : list Z := if Z.of_nat (length name) mod 13 =? 0 then [] else [0].

Lemma entry_chars_last r name : Z.of_nat (length r) = Z.of_nat (length name) - 13 * (n_long name - 1) -> name <> [] ->
  entry_chars r = r ++ pad_nul name.
Proof.
  intros Hl Hne. destruct (n_long_spec name Hne) as (H1 & Hlo & Hhi). unfold entry_chars, pad_nul.
  replace (Z.of_nat (length name)) with (Z.of_nat (length r) + (n_long name - 1) * 13) by lia. rewrite Z.mod_add by lia.
  destruct (Nat.leb_spec 13 (length r)).
  - replace (length r) with 13%nat by lia. change (Z.of_nat 13 mod 13 =? 0) with true. rewrite app_nil_r. apply take_ge. lia.
  - rewrite Z.mod_small by lia. by rewrite (proj2 (Z.eqb_neq _ 0)) by lia.
Qed.

Lemma popstack_loop_ok name sname : Forall char_ok name -> name <> [] -> n_long name <= 20 -> forall n i st fuel,
  stack_is st (rev (entries name (ChkSum sname) i (S n))) -> 1 <= i -> Z.of_nat (S n) = n_long name - i + 1 -> (n < fuel)%nat ->
  exists st', popstack_loop fuel st i sname (take (Z.to_nat (13 * (i - 1))) name) =
    (if (length name + length (pad_nul name) <=? 255)%nat
     then Done (st', Some (name ++ pad_nul name, Z.lor (n_long name) LAST_LONG_ENTRY)) else Undef) /\ stack_is st' [].
Proof.
  intros Hc Hne H20. destruct (n_long_spec name Hne) as (_ & Hlo & Hhi).
  induction n as [|n IH]; intros i st fuel Hst Hi Hn Hf; (destruct fuel as [|fuel]; [lia|]); cbn [popstack_loop].
  all: rewrite entries_cons in Hst; cbn [rev] in Hst.
  all: destruct (stack_pop_ok _ _ _ Hst) as (st' & -> & Hst'); ocbn; rewrite (stack_empty_is _ _ Hst').
  all: rewrite filter_longname_ok by done; cbn [LDIR_Ord LDIR_Chksum entry_for]; rewrite Z.eqb_refl; cbn [ASSERT].
  - assert (i = n_long name) as -> by lia. cbn [entries seq fmap list_fmap rev]. rewrite bool_decide_eq_true_2 by done.
    cbn [negb andb]. ocbn. rewrite (entry_chars_last _ name) by (rewrite ?length_drop; lia || done).
    unfold buf_append, NAME_LONG_MAX. rewrite length_take, length_app, length_drop. destruct (Z.leb_spec (Z.of_nat (Z.to_nat (13 * (n_long name - 1)) `min` length name +
      (length name - Z.to_nat (13 * (n_long name - 1)) + length (pad_nul name)))) 255), (Nat.leb_spec (length name + length (pad_nul name)) 255);
      [|lia|lia|by exists st'].
    ocbn. rewrite app_assoc, take_drop, Z.eqb_refl. eauto.
  - assert (stack_is_empty st' = false) as Hse.
    { rewrite (stack_empty_is _ _ Hst'). apply bool_decide_eq_false_2. intros E%(f_equal length).
      rewrite length_rev, entries_length in E. discriminate. }
    rewrite <- (stack_empty_is _ _ Hst'), Hse. cbn [negb andb]. rewrite (proj2 (Z.eqb_neq i (n_long name))), Z.eqb_refl by lia. cbn [negb].
    ocbn. unfold entry_chars. rewrite length_drop. destruct (Nat.leb_spec 13 (length name - Z.to_nat (13 * (i - 1)))); [|lia].
    unfold buf_append, NAME_LONG_MAX. rewrite !length_take, length_drop.
    match goal with |- context[?x <=? 255] => destruct (Z.leb_spec x 255) as [_|Hx]; [|lia] end. ocbn.
    rewrite u8_small by lia. replace (take (Z.to_nat (13 * (i - 1))) name ++ take 13 (drop (Z.to_nat (13 * (i - 1))) name))
      with (take (Z.to_nat (13 * (i + 1 - 1))) name).
    + apply (IH (i + 1)); [done|lia..].
    + replace (Z.to_nat (13 * (i + 1 - 1))) with (Z.to_nat (13 * (i - 1)) + 13)%nat by lia. symmetry. apply take_take_drop.
Qed.

Lemma cstring_app name l : Forall char_ok name -> cstring (name ++ 0 :: l) = name.
Proof.
  induction name as [|c name IH]; intros Hc; [done|]. apply Forall_cons_1 in Hc as [Hc Hcs]. cbn [cstring app].
  rewrite (proj2 (Z.eqb_neq c 0)) by (unfold char_ok in Hc; lia). by rewrite IH.
Qed.

Lemma popstack_ok name sname st : Forall char_ok name -> name <> [] -> n_long name <= 20 ->
  stack_is st (rev (entries name (ChkSum sname) 1 (Z.to_nat (n_long name)))) ->
  exists st', fat32_longname_popstack st sname =
    (if (length name + length (pad_nul name) + 1 <=? 255)%nat then Done (st', Some name) else Undef) /\ stack_is st' [].
Proof.
  intros Hc Hne H20 Hst. destruct (n_long_spec name Hne) as (H1 & _). unfold fat32_longname_popstack.
  rewrite (stack_empty_is _ _ Hst), bool_decide_eq_false_2.
  2: { intros E%(f_equal length). rewrite length_rev, entries_length in E. cbn in E. lia. }
  assert (top st = n_long name - 1) as Ht.
  { destruct Hst as [-> _]. rewrite length_rev, entries_length. lia. }
  destruct (Z.to_nat (n_long name)) as [|n] eqn:En; [lia|].
  destruct (popstack_loop_ok name sname Hc Hne H20 n 1 st (Z.to_nat (top st + 1)) Hst) as (st' & E & Hst'); [lia..|].
  change (take (Z.to_nat (13 * (1 - 1))) name) with (@nil Z) in E. rewrite E. exists st'. split; [|done].
  destruct (Nat.leb_spec (length name + length (pad_nul name)) 255); ocbn.
  2: { destruct (Nat.leb_spec (length name + length (pad_nul name) + 1) 255); [lia|done]. }
  unfold buf_append. rewrite length_app. unfold NAME_LONG_MAX. cbn [length].
  match goal with |- context[?x <=? 255] => destruct (Z.leb_spec x 255) as [Hx|Hx] end; ocbn.
  2: { destruct (Nat.leb_spec (length name + length (pad_nul name) + 1) 255); [lia|done]. }
  destruct (Nat.leb_spec (length name + length (pad_nul name) + 1) 255); [|lia].
  rewrite ord_last_bit by lia. do 3 f_equal. unfold pad_nul. rewrite <- app_assoc. destruct (_ =? 0); by apply cstring_app.
Qed.

(** ** Well-formed directories *)

(** What a stretch of slots holds: a free slot, a file with its long name, or a
    short entry alone ([.], [..], files of other systems). *)
Inductive item := IFree (b : slot) | IFile (name : list Z) (s : dirent_s) | IShort (s : dirent_s).

Definition item_slots (it : item) : list slot :=
  match it with IFree b => [b] | IFile name s => file_slots name s | IShort s => [bytes_of_short s] end.
Definition item_ok (it : item) : Prop :=
  match it with
  | IFree b => b !!! 0%nat = 0xE5
  | IFile name s => name_ok name /\ short_ok s
  | IShort s => short_ok s
  end.
Definition item_name (it : item) : option (list Z) :=
  match it with
  | IFree _ => None
  | IFile name _ => Some name
  | IShort s => Some (fat32_short_name_parser (DIR_Name s))
  end.

Lemma handler_free off b t : b !!! 0%nat = 0xE5 -> stack_is (fcb_stack t) [] ->
  fat32_inode_travel_fcb_handler name_search off b t = Done t.
Proof.
  intros Hb Hst. unfold fat32_inode_travel_fcb_handler.
  assert (DIR_Name (short_of_bytes b) !!! 0%nat = b !!! 0%nat) as -> by by destruct b. rewrite Hb.
  cbn [NAME0_FREE_ALL NAME0_FREE_ONLY Z.eqb Pos.eqb]. by rewrite (stack_empty_is _ _ Hst).
Qed.

(** The name of the file goes into the cache, but for names that start with a dot. *)
Definition note (name : list Z) (off : Z) (c : list (list Z * Z)) : list (list Z * Z) :=
  if hd 0 name =? 0x2E then c else c ++ [(name, off)].

Lemma handler_short_bind off s t : short_ok s ->
  fat32_inode_travel_fcb_handler name_search off (bytes_of_short s) t =
    ('(st, r) ← fat32_longname_popstack (fcb_stack t) (DIR_Name s);
     let name := match r with Some n => n | None => fat32_short_name_parser (DIR_Name s) end in
     Done (fat32_inode_dirlookup_handler name_search name off (Trav st (stop t) (retval t) (note name off (cached t))))).
Proof.
  intros [Hl Hu Ha]. unfold fat32_inode_travel_fcb_handler. rewrite (short_name s Hl), (short_attr s Hl).
  apply orb_false_iff in Hu as [-> ->]. by rewrite Ha.
Qed.

Lemma handler_short off s t st r : short_ok s -> fat32_longname_popstack (fcb_stack t) (DIR_Name s) = Done (st, r) ->
  let name := match r with Some n => n | None => fat32_short_name_parser (DIR_Name s) end in
  fat32_inode_travel_fcb_handler name_search off (bytes_of_short s) t =
    Done (fat32_inode_dirlookup_handler name_search name off (Trav st (stop t) (retval t) (note name off (cached t)))).
Proof. intros Hs E name. by rewrite handler_short_bind, E. Qed.

Lemma namecmp_eq a b : (length a <= 260)%nat -> (length b <= 260)%nat -> fat32_namecmp a b = bool_decide (a = b).
Proof.
  intros Ha Hb. unfold fat32_namecmp. rewrite !take_ge by (change (Z.to_nat PATH_LONG_MAX) with 260%nat; lia). done.
Qed.

Lemma cstring_length l : (length (cstring l) <= length l)%nat.
Proof. induction l as [|c l IH]; [done|]. cbn. destruct (c =? 0); cbn; lia. Qed.

Lemma parser_length name : length name = 11%nat -> (length (fat32_short_name_parser name) <= 12)%nat.
Proof.
  intros Hl. unfold fat32_short_name_parser. etrans; [apply cstring_length|]. rewrite length_app.
  pose proof (length_filter (fun c : Z => c <> 0x20) (take 8 name)) as H1.
  pose proof (length_filter (fun c : Z => c <> 0x20) (drop 8 name)) as H2.
  rewrite length_take in H1. rewrite length_drop in H2. destruct (_ =? _); cbn [length]; lia.
Qed.

Lemma item_name_short it name : item_ok it -> item_name it = Some name -> (length name <= 253)%nat.
Proof.
  destruct it as [b|n s|s]; cbn; [done| |].
  - intros [[_ _ H] _] [= <-]. done.
  - intros [Hl _ _] [= <-]. pose proof (parser_length _ Hl). lia.
Qed.

Lemma n_long_max name : name_ok name -> n_long name <= 20.
Proof. intros [_ Hne Hl]. destruct (n_long_spec name Hne) as (_ & H & _). lia. Qed.

(** The walk up to the short entry of a file. *)
Lemma walk_long name s off l t : Forall char_ok name -> name <> [] -> n_long name <= 20 -> stack_is (fcb_stack t) [] ->
  stop t = false -> exists st, stack_is st (rev (entries name (ChkSum (DIR_Name s)) 1 (Z.to_nat (n_long name)))) /\
    general_trav (fat32_inode_travel_fcb_handler name_search) stop off (file_slots name s ++ l) t =
    general_trav (fat32_inode_travel_fcb_handler name_search) stop (off + n_long name) (bytes_of_short s :: l)
      (Trav st false (retval t) (cached t)).
Proof.
  intros Hc Hne H20 Hst Hstop. destruct (n_long_spec name Hne) as (H1 & _).
  destruct (walk_pushes (rev (entries name (ChkSum (DIR_Name s)) 1 (Z.to_nat (n_long name)))) off (bytes_of_short s :: l) t [])
    as (st & Hst1 & E1); [|done|done| |].
  - apply Forall_rev, entries_pushable; [done|lia..].
  - rewrite length_rev, entries_length. cbn. lia.
  - exists st. split; [done|]. unfold file_slots. rewrite <- app_assoc. cbn [app]. rewrite E1, length_rev, entries_length. f_equal. lia.
Qed.

(** The walk over one item, from an empty stack to an empty stack. *)
Lemma walk_item it off l t : item_ok it -> stack_is (fcb_stack t) [] -> stop t = false ->
  exists st', stack_is st' [] /\
    let off' := off + Z.of_nat (length (item_slots it)) in
    general_trav (fat32_inode_travel_fcb_handler name_search) stop off (item_slots it ++ l) t =
    match item_name it with
    | None => general_trav (fat32_inode_travel_fcb_handler name_search) stop off' l (Trav st' false (retval t) (cached t))
    | Some name =>
        let c := note name (off' - 1) (cached t) in
        if fat32_namecmp name_search name then Done (Trav st' true (Some (off' - 1)) c)
        else general_trav (fat32_inode_travel_fcb_handler name_search) stop off' l (Trav st' false (retval t) c)
    end.
Proof.
  intros Hok Hst Hstop. destruct it as [b|name s|s]; cbn [item_slots item_name item_ok] in *.
  - exists (fcb_stack t). split; [done|]. cbn [app general_trav length]. rewrite handler_free by done. ocbn. rewrite Hstop.
    destruct t. cbn in *. by subst.
  - destruct Hok as [Hn Hs]. pose proof (n_long_max name Hn) as H20. destruct Hn as [Hc Hne Hl].
    destruct (n_long_spec name Hne) as (H1 & _).
    destruct (walk_long name s off l t Hc Hne H20 Hst Hstop) as (st1 & Hst1 & E1).
    destruct (popstack_ok name (DIR_Name s) st1 Hc Hne ltac:(lia) Hst1) as (st' & E2 & Hst').
    destruct (Nat.leb_spec (length name + length (pad_nul name) + 1) 255) as [_|Hlong].
    2: { revert Hlong. unfold pad_nul. destruct (_ =? 0); cbn [length]; lia. }
    exists st'. split; [done|]. cbv zeta. rewrite E1, file_slots_length. cbn [general_trav].
    rewrite (handler_short _ s (Trav st1 false (retval t) (cached t)) st' (Some name) Hs E2). ocbn. unfold fat32_inode_dirlookup_handler.
    cbn [fcb_stack cached stop retval]. replace (off + (0 `max` n_long name + 1) - 1) with (off + n_long name) by lia.
    replace (off + (0 `max` n_long name + 1)) with (off + n_long name + 1) by lia.
    by destruct (fat32_namecmp name_search name).
  - exists (fcb_stack t). split; [done|]. cbv zeta. cbn [app general_trav length].
    rewrite (handler_short _ s t (fcb_stack t) None Hok).
    2: { unfold fat32_longname_popstack. by rewrite (stack_empty_is _ _ Hst). }
    ocbn. unfold fat32_inode_dirlookup_handler. change (Z.of_nat 1) with 1. replace (off + 1 - 1) with off by lia.
    destruct (fat32_namecmp name_search _); cbn [stop]; [done|]. by rewrite Hstop.
Qed.

(** The files of a directory that starts at [off]: name and offset of the short entry. *)
Fixpoint files (off : Z) (its : list item) : list (list Z * Z) :=
  match its with
  | [] => []
  | it :: its =>
      let off' := off + Z.of_nat (length (item_slots it)) in
      match item_name it with
      | None => files off' its
      | Some name => (name, off' - 1) :: files off' its
      end
  end.

Definition slots_of (its : list item) : list slot := its ≫= item_slots.
Lemma slots_of_cons it its : slots_of (it :: its) = item_slots it ++ slots_of its.
Proof. done. Qed.
Lemma slots_of_app its1 its2 : slots_of (its1 ++ its2) = slots_of its1 ++ slots_of its2.
Proof. apply bind_app. Qed.

Definition zero_slot (b : slot) : Prop := b !!! 0%nat = 0.

(** The first file of a name. *)
Fixpoint first_file (name : list Z) (fs : list (list Z * Z)) : option Z :=
  match fs with [] => None | (n, off) :: fs => if decide (n = name) then Some off else first_file name fs end.

Lemma handler_zero off b t : zero_slot b ->
  fat32_inode_travel_fcb_handler name_search off b t = Done (Trav (fcb_stack t) true (retval t) (cached t)).
Proof.
  intros Hb. unfold fat32_inode_travel_fcb_handler.
  assert (DIR_Name (short_of_bytes b) !!! 0%nat = b !!! 0%nat) as -> by by destruct b. by rewrite Hb.
Qed.

Lemma note_sub name off c : note name off c ⊆ c ++ [(name, off)].
Proof. unfold note. destruct (_ =? _); set_solver. Qed.

Lemma walk_items its : (length name_search <= 253)%nat -> forall off zs t, Forall item_ok its -> Forall zero_slot zs ->
  stack_is (fcb_stack t) [] -> stop t = false -> retval t = None ->
  exists st' c, general_trav (fat32_inode_travel_fcb_handler name_search) stop off (slots_of its ++ zs) t =
      Done (Trav st' (bool_decide (is_Some (first_file name_search (files off its)) \/ zs <> []))
              (first_file name_search (files off its)) c) /\
    c ⊆ cached t ++ files off its.
Proof.
  intros Hlen. induction its as [|it its IH]; intros off zs t Hits Hzs Hst Hstop Hret; rewrite ?slots_of_cons; cbn [files].
  - change (slots_of [] ++ zs) with zs. destruct zs as [|z zs]; cbn [general_trav first_file].
    + exists (fcb_stack t), (cached t). split; [|set_solver]. rewrite bool_decide_eq_false_2 by (intros [[? ?]|?]; done).
      destruct t. cbn in *. by subst.
    + apply Forall_cons_1 in Hzs as [Hz _]. rewrite handler_zero by done. ocbn. cbn [stop].
      rewrite bool_decide_eq_true_2 by (by right). rewrite Hret. eexists _, _. split; [done|]. set_solver.
  - apply Forall_cons_1 in Hits as [Hit Hits]. rewrite <- app_assoc.
    destruct (walk_item it off (slots_of its ++ zs) t Hit Hst Hstop) as (st1 & Hst1 & E). cbv zeta in E.
    rewrite E.
    set (off' := off + Z.of_nat (length (item_slots it))) in *. destruct (item_name it) as [name|] eqn:En.
    + rewrite namecmp_eq by (pose proof (item_name_short it name Hit En); lia). cbn [first_file].
      case_bool_decide as Hn.
      * rewrite decide_True by done. rewrite bool_decide_eq_true_2 by (left; eauto). eexists _, _. split; [done|].
        etrans; [apply note_sub|]. set_solver.
      * rewrite decide_False by congruence.
        destruct (IH off' zs (Trav st1 false (retval t) (note name (off' - 1) (cached t))) Hits Hzs Hst1) as (st' & c & -> & Hc); [done..|].
        exists st', c. split; [done|]. cbn [cached] in Hc. pose proof (note_sub name (off' - 1) (cached t)). set_solver.
    + destruct (IH off' zs (Trav st1 false (retval t) (cached t)) Hits Hzs Hst1) as (st' & c & -> & Hc); [done..|]. eauto.
Qed.
End walk.

(** ** Room for a new file *)

Definition free_slot (b : slot) : Prop := NAME0_FREE_BOOL (b !!! 0%nat) = true.

Lemma first_byte b : DIR_Name (short_of_bytes b) !!! 0%nat = b !!! 0%nat.
Proof. by destruct b. Qed.

(** A run of free slots from [r], maximal to the left; past the end there is room as well. *)
Definition room_at (dir : list slot) (r n : Z) : Prop :=
  0 <= r <= Z.of_nat (length dir) /\
  (forall i b, r <= Z.of_nat i < r + n -> dir !! i = Some b -> free_slot b) /\
  (r = 0 \/ exists b, dir !! Z.to_nat (r - 1) = Some b /\ ~ free_slot b).

(** No [n] free slots in a row. *)
Definition no_run (dir : list slot) (n : Z) : Prop := forall r, 0 <= r -> r + n <= Z.of_nat (length dir) ->
  exists i b, r <= Z.of_nat i < r + n /\ dir !! i = Some b /\ ~ free_slot b.

Definition ends_used (p : list slot) : Prop := p = [] \/ exists p' b, p = p' ++ [b] /\ ~ free_slot b.

Lemma room_after p F l n : Forall free_slot F -> ends_used p -> n = Z.of_nat (length F) \/ l = [] ->
  room_at (p ++ F ++ l) (Z.of_nat (length p)) n.
Proof.
  intros HF Hp Hn. split; [rewrite length_app; lia|]. split.
  - intros i b Hi E. rewrite lookup_app_r in E by lia. destruct Hn as [->| ->].
    + rewrite lookup_app_l in E by lia. by eapply Forall_lookup_1.
    + rewrite app_nil_r in E. by eapply Forall_lookup_1.
  - destruct Hp as [->|(p' & b & -> & Hb)]; [by left|right]. exists b. split; [|done]. rewrite length_app. cbn.
    replace (Z.to_nat (Z.of_nat (length p' + 1) - 1)) with (length p') by lia.
    by rewrite <- app_assoc, lookup_app_r, Nat.sub_diag.
Qed.

Lemma no_run_app p F n : Forall free_slot F -> ends_used p -> Z.of_nat (length F) < n -> no_run p n -> no_run (p ++ F) n.
Proof.
  intros HF Hp Hn Hr r Hr0 Hrn. rewrite length_app in Hrn. destruct (Z.le_gt_cases (r + n) (Z.of_nat (length p))) as [Hle|Hgt].
  - destruct (Hr r Hr0 Hle) as (i & b & Hi & E & Hb). exists i, b. split; [done|]. by rewrite lookup_app_l by lia.
  - destruct Hp as [->|(p' & b & -> & Hb)]; [cbn in *; lia|]. rewrite length_app in *. cbn [length] in *. exists (length p'), b.
    split; [lia|]. by rewrite <- app_assoc, lookup_app_r, Nat.sub_diag.
Qed.

Lemma insert_handler req base off b t : fat32_dir_fcb_insert_offset_handler req base off b t =
  if negb (NAME0_FREE_BOOL (b !!! 0%nat)) then Done (Room 0 base (enough t))
  else Done (Room (fcb_free_cnt t + 1) (if fcb_free_cnt t =? 0 then off else offset_ret t)
               (if fcb_free_cnt t + 1 =? req then true else enough t)).
Proof. unfold fat32_dir_fcb_insert_offset_handler. by rewrite first_byte. Qed.

Lemma room_loop_ok req base l : 1 <= req -> forall p F t, base = Z.of_nat (length (p ++ F ++ l)) -> enough t = false ->
  Forall free_slot F -> ends_used p -> no_run p req -> fcb_free_cnt t = Z.of_nat (length F) -> Z.of_nat (length F) < req ->
  (if decide (F = []) then offset_ret t = base \/ p = [] /\ offset_ret t = 0 else offset_ret t = Z.of_nat (length p)) ->
  exists t', general_trav (fat32_dir_fcb_insert_offset_handler req base) enough (Z.of_nat (length (p ++ F))) l t = Done t' /\
    room_at (p ++ F ++ l) (offset_ret t') req /\
    (offset_ret t' + req <= Z.of_nat (length (p ++ F ++ l)) \/ no_run (p ++ F ++ l) req).
Proof.
  intros Hreq. induction l as [|b l IH]; intros p F t Eb Hen HF Hp Hrun Ecnt Hk Hret; cbn [general_trav].
  - exists t. split; [done|]. split; [|right; rewrite app_nil_r; by apply no_run_app]. destruct (decide (F = [])) as [->|HneF].
    + assert (offset_ret t = Z.of_nat (length p)) as ->.
      { rewrite !app_nil_r in Eb. destruct Hret as [->|[-> ->]]; [done|]. done. }
      apply room_after; [done|done|by right].
    + rewrite Hret. apply room_after; [done|done|by right].
  - rewrite insert_handler. destruct (NAME0_FREE_BOOL (b !!! 0%nat)) eqn:Hb; cbn [negb]; ocbn; cbn [enough].
    + assert (free_slot b) as Hfree by done.
      set (r := if fcb_free_cnt t =? 0 then _ else _). assert (r = Z.of_nat (length p)) as ->.
      { unfold r. rewrite Ecnt. destruct F as [|f F]; cbn [length] in *; [rewrite app_nil_r; done|].
        rewrite (proj2 (Z.eqb_neq _ 0)) by lia. by rewrite decide_False in Hret. }
      destruct (Z.eqb_spec (fcb_free_cnt t + 1) req) as [He|He].
      * eexists. split; [done|]. cbn [offset_ret]. change (b :: l) with ([b] ++ l). rewrite (app_assoc F [b] l).
        split; [apply room_after; [by apply Forall_app_2; [|apply Forall_cons_2]|done|left; rewrite length_app; cbn; lia]|].
        left. rewrite !length_app. cbn. lia.
      * rewrite Hen. destruct (IH p (F ++ [b]) (Room (fcb_free_cnt t + 1) (Z.of_nat (length p)) false)) as (t' & E & H);
          [by rewrite <- app_assoc|done|by apply Forall_app_2; [|apply Forall_cons_2]|done|done|
           cbn [fcb_free_cnt]; rewrite length_app; cbn; lia|rewrite length_app; cbn; lia|by rewrite decide_False by (by destruct F)|].
        exists t'. rewrite <- app_assoc in H. split; [|done]. rewrite <- E. f_equal. rewrite !length_app. cbn. lia.
    + rewrite Hen. destruct (IH (p ++ F ++ [b]) [] (Room 0 base false)) as (t' & E & H);
        [by rewrite <- !app_assoc|done|done| | |done|cbn; lia|by left|].
      * right. exists (p ++ F), b. rewrite <- app_assoc. split; [done|]. unfold free_slot. by rewrite Hb.
      * rewrite app_assoc. intros r Hr0 Hrn. rewrite length_app in Hrn. cbn in Hrn.
        destruct (Z.le_gt_cases (r + req) (Z.of_nat (length (p ++ F)))) as [Hle|Hgt].
        -- destruct (no_run_app p F req HF Hp Hk Hrun r Hr0 Hle) as (i & b' & Hi & E & Hb'). exists i, b'. split; [done|].
           by rewrite lookup_app_l by (by apply lookup_lt_Some in E).
        -- exists (length (p ++ F)), b. split; [lia|]. rewrite lookup_app_r, Nat.sub_diag by lia. split; [done|].
           unfold free_slot. by rewrite Hb.
      * exists t'. rewrite <- !app_assoc in H. split; [|done]. rewrite <- E. f_equal. rewrite !length_app. cbn. lia.
Qed.

Lemma insert_offset_ok req dir : 1 <= req < 256 ->
  exists r, fat32_dir_fcb_insert_offset req dir = Done r /\ room_at dir r req /\
    (r + req <= Z.of_nat (length dir) \/ no_run dir req).
Proof.
  intros Hreq. unfold fat32_dir_fcb_insert_offset. rewrite u8_small by lia.
  destruct (room_loop_ok req (Z.of_nat (length dir)) dir ltac:(lia) [] [] (Room 0 0 false)) as (t' & E & H);
    [done|done|done|by left| |done|cbn; lia|by right|].
  - intros r Hr0 Hrn. cbn in Hrn. lia.
  - cbn [length app] in E, H. change (Z.of_nat 0) with 0 in E. rewrite E. ocbn. eauto.
Qed.

(** ** Directories as lists of items *)

Definition dir_is (dir : list slot) (its : list item) : Prop :=
  exists zs, dir = slots_of its ++ zs /\ Forall item_ok its /\ Forall zero_slot zs.

Lemma files_app off its1 its2 : files off (its1 ++ its2) =
  files off its1 ++ files (off + Z.of_nat (length (slots_of its1))) its2.
Proof.
  revert off. induction its1 as [|it its1 IH]; intros off; cbn [app files]; [by rewrite Z.add_0_r|].
  rewrite slots_of_cons, length_app, IH. rewrite Nat2Z.inj_add, Z.add_assoc. by destruct (item_name it).
Qed.

Lemma slots_of_free F : slots_of (IFree <$> F) = F.
Proof. induction F as [|b F IH]; [done|]. rewrite fmap_cons, slots_of_cons, IH. done. Qed.
Lemma files_free off F : files off (IFree <$> F) = [].
Proof. revert off. induction F as [|b F IH]; intros off; [done|]. cbn. apply IH. Qed.

Lemma file_slots_used name s : name_ok name -> short_ok s -> Forall (fun b => ~ free_slot b) (file_slots name s).
Proof.
  intros Hn Hs. pose proof (n_long_max name Hn) as H20. destruct (n_long_spec name (nm_some _ Hn)) as [H1 _].
  apply Forall_app. split.
  - apply Forall_fmap, Forall_rev. eapply Forall_impl; [apply entries_pushable; [apply Hn|lia..]|].
    intros d (_ & H0 & H5 & _). unfold free_slot, compose. change (bytes_of_long d !!! 0%nat) with (LDIR_Ord d).
    unfold NAME0_FREE_BOOL, NAME0_FREE_ONLY, NAME0_FREE_ALL. rewrite (proj2 (Z.eqb_neq (LDIR_Ord d) 0)), (proj2 (Z.eqb_neq (LDIR_Ord d) 0xE5)); done.
  - apply Forall_cons_2; [|apply Forall_nil_2]. unfold free_slot. destruct Hs as [Hl Hu _].
    assert (bytes_of_short s !!! 0%nat = DIR_Name s !!! 0%nat) as ->; [|by rewrite Hu].
    unfold bytes_of_short. by destruct (DIR_Name s).
Qed.

Lemma item_slots_free it x b y : item_ok it -> item_slots it = x ++ b :: y -> free_slot b -> x = [] /\ y = [] /\ it = IFree b.
Proof.
  intros Hok E Hb. destruct it as [b'|name s|s]; cbn [item_slots item_ok] in *.
  - destruct x as [|? [|? ?]]; try discriminate. by injection E as -> <-.
  - destruct Hok as [Hn Hs]. pose proof (file_slots_used name s Hn Hs) as H. rewrite E in H.
    apply Forall_app in H as [_ H]. by apply Forall_cons_1 in H as [H _].
  - destruct x as [|? [|? ?]]; try discriminate. injection E as <- <-. exfalso. destruct Hok as [Hl Hu _].
    unfold free_slot in Hb. assert (bytes_of_short s !!! 0%nat = DIR_Name s !!! 0%nat) as E0; [|by rewrite E0, Hu in Hb].
    unfold bytes_of_short. by destruct (DIR_Name s).
Qed.

Lemma item_slots_some it : item_slots it <> [].
Proof. destruct it; cbn; [done| |done]. unfold file_slots. by destruct (bytes_of_long <$> _). Qed.

(** A place at the end or in front of a free slot is between two items. *)
Lemma split_items its : Forall item_ok its -> forall l1 l2, slots_of its = l1 ++ l2 ->
  (l2 = [] \/ exists b l, l2 = b :: l /\ free_slot b) ->
  exists its1 its2, its = its1 ++ its2 /\ slots_of its1 = l1 /\ slots_of its2 = l2.
Proof.
  induction its as [|it its IH]; intros Hits l1 l2 E Hl2.
  { symmetry in E. apply app_nil in E as [-> ->]. by exists [], []. }
  destruct l1 as [|x l1]; [by exists [], (it :: its)|]. apply Forall_cons_1 in Hits as [Hit Hits]. rewrite slots_of_cons in E.
  assert (exists k, x :: l1 = item_slots it ++ k /\ slots_of its = k ++ l2 \/
    item_slots it = (x :: l1) ++ k /\ k <> [] /\ l2 = k ++ slots_of its) as (k & [[E1 E2]|(E1 & Hk & E2)]).
  { apply app_eq_app in E as (k & [[E1 E2]|[E1 E2]]); [|exists k; by left].
    destruct k as [|z k]; [|exists (z :: k); by right].
    exists []. left. rewrite app_nil_r in *. cbn in *. by rewrite E1, E2. }
  - destruct (IH Hits k l2 E2 Hl2) as (its1 & its2 & -> & <- & <-). exists (it :: its1), its2. by rewrite slots_of_cons, E1.
  - subst l2. destruct k as [|z k]; [done|]. destruct Hl2 as [?|(b & l & [= <- <-] & Hb)]; [done|].
    destruct (item_slots_free it (x :: l1) z k Hit E1 Hb) as [? _]. done.
Qed.

Lemma take_free its F l : Forall item_ok its -> slots_of its = F ++ l -> Forall free_slot F ->
  exists its2, its = (IFree <$> F) ++ its2 /\ slots_of its2 = l.
Proof.
  revert its. induction F as [|b F IH]; intros its Hits E HF; [by exists its|]. apply Forall_cons_1 in HF as [Hb HF].
  destruct its as [|it its]; [done|]. apply Forall_cons_1 in Hits as [Hit Hits]. rewrite slots_of_cons in E.
  destruct (item_slots it) as [|b' y] eqn:Ei; [by destruct (item_slots_some it)|]. injection E as -> E.
  destruct (item_slots_free it [] b y Hit Ei Hb) as (_ & -> & ->). destruct (IH its Hits E HF) as (its2 & -> & <-).
  by exists its2.
Qed.

Lemma slots_of_nil its : slots_of its = [] -> its = [].
Proof. destruct its as [|it its]; [done|]. rewrite slots_of_cons. by intros [E%item_slots_some _]%app_nil. Qed.

(** *** Looking a name up *)

Lemma lookup_ok dir its1 its2 n : dir_is dir (its1 ++ its2) -> (length n < 50)%nat ->
  let hint := Z.of_nat (length (slots_of its1)) in
  exists c, fat32_inode_dirlookup_with_hint n hint dir =
    Done (first_file n (files hint its2), match first_file n (files hint its2) with
      | Some off => off + 1 | None => if bool_decide (length dir = length (slots_of (its1 ++ its2))) then 0 else hint end, c) /\
    c ⊆ files hint its2.
Proof.
  intros (zs & -> & Hits & Hzs) Hn hint. unfold fat32_inode_dirlookup_with_hint. destruct (Z.leb_spec 50 (Z.of_nat (length n))); [lia|].
  destruct (Z.ltb_spec (Z.of_nat (length (slots_of (its1 ++ its2) ++ zs))) hint);
    [unfold hint in *; rewrite slots_of_app, !length_app in *; lia|].
  replace (Z.to_nat hint) with (length (slots_of its1)) by (unfold hint; lia). rewrite slots_of_app, <- app_assoc, drop_app_length. apply Forall_app in Hits as [_ Hits2].
  destruct (walk_items n its2 ltac:(lia) hint zs (Trav stack_init false None []) Hits2 Hzs stack_init_is eq_refl eq_refl)
    as (st' & c & -> & Hc). ocbn. cbn [stop retval cached]. exists c. split; [|done].
  destruct (first_file n (files hint its2)) as [off|]; [rewrite bool_decide_eq_true_2 by (left; eauto); done|].
  rewrite !length_app. destruct zs as [|z zs].
  - rewrite bool_decide_eq_false_2 by (intros [[? ?]|?]; done). by rewrite bool_decide_eq_true_2 by (cbn; lia).
  - rewrite bool_decide_eq_true_2 by (by right). by rewrite bool_decide_eq_false_2 by (cbn; lia).
Qed.

Lemma lookup_start dir its n : dir_is dir its -> (length n < 50)%nat ->
  exists h c, fat32_inode_dirlookup_with_hint n 0 dir = Done (first_file n (files 0 its), h, c).
Proof. intros K Hn. destruct (lookup_ok dir [] its n K Hn) as (c & E & _). do 2 eexists. exact E. Qed.

(** *** Adding a file *)

Lemma zero_slots k : Forall zero_slot (replicate k (replicate 32 0)).
Proof. by apply Forall_replicate. Qed.

(** What a new file is in the directory. *)
Definition new_file (clus : Z) (name : list Z) (s : dirent_s) : item :=
  if is_dot name then IShort (dot_entry name s clus) else IFile name s.

Lemma is_dot_cases name : (length name <= 253)%nat -> is_dot name = true -> name = [0x2E] \/ name = [0x2E; 0x2E].
Proof.
  intros Hl. unfold is_dot. rewrite !namecmp_eq by (cbn; lia). intros [H|H]%orb_true_iff; apply bool_decide_eq_true in H; auto.
Qed.

Lemma new_file_ok clus name s : name_ok name -> short_ok s ->
  item_ok (new_file clus name s) /\ item_name (new_file clus name s) = Some name /\
  fat32_fcb_init clus name s = Done (item_slots (new_file clus name s)) /\
  1 <= Z.of_nat (length (item_slots (new_file clus name s))) < 256.
Proof.
  intros Hn Hs. unfold new_file, fat32_fcb_init. destruct (is_dot name) eqn:Hd.
  - apply is_dot_cases in Hd; [|apply Hn]. cbn [item_slots length].
    destruct Hd as [-> | ->]; (split; [|by split_and!]); (constructor; [done|done|apply Hs]).
  - pose proof (n_long_max name Hn) as H20. destruct (n_long_spec name (nm_some _ Hn)) as [H1 _].
    split; [done|]. split; [done|]. cbn [item_slots]. rewrite fcb_slots_ok by (apply Hn || lia). rewrite file_slots_length.
    split; [done|lia].
Qed.

Lemma seqZ_zero old a n : (forall i, a <= i -> zero_slot (old i)) -> Forall zero_slot (old <$> seqZ a n).
Proof. intros H. apply Forall_fmap, Forall_forall. intros i Hi%elem_of_seqZ. apply H. lia. Qed.

(** When no gap is wide enough the directory grows; the slots it gains start with a zero. *)
Definition clean_growth (old : Z -> slot) (dir : list slot) (req : Z) : Prop :=
  no_run dir req -> forall i, Z.of_nat (length dir) <= i -> zero_slot (old i).

Lemma grown_slots spc old dir r req : r + req <= Z.of_nat (length dir) \/ no_run dir req -> clean_growth old dir req ->
  let len := Z.of_nat (length dir) in let last := r + req in
  let size := if len <? last then CEIL_DIVIDE last spc * spc else len in
  Forall zero_slot (old <$> seqZ (Z.max last len) (size - Z.max last len)).
Proof.
  intros [Hr|Hr] Hc len last size.
  - assert (size - Z.max last len = 0) as ->; [|done]. unfold size, len, last. destruct (Z.ltb_spec (Z.of_nat (length dir)) (r + req)); lia.
  - apply seqZ_zero. intros i Hi. apply Hc; [done|]. unfold len in *. lia.
Qed.

(** The room found is between two items, or at their end, and takes free slots. *)
Lemma room_items its zs r n : Forall item_ok its -> Forall zero_slot zs -> room_at (slots_of its ++ zs) r n -> 1 <= n ->
  let F := take (Z.to_nat n) (drop (Z.to_nat r) (slots_of its)) in
  exists its1 its2, its = its1 ++ (IFree <$> F) ++ its2 /\ Z.of_nat (length (slots_of its1)) = r /\
    slots_of its1 = take (Z.to_nat r) (slots_of its) /\ slots_of its2 = drop (Z.to_nat (r + n)) (slots_of its) /\
    (Z.of_nat (length F) = n \/ its2 = [] /\ Z.of_nat (length F) <= n).
Proof.
  intros Hits Hzs (Hr & Hfree & Hleft) Hn F. set (S := slots_of its) in *.
  assert (r <= Z.of_nat (length S)) as HrS.
  { destruct (Z.le_gt_cases r (Z.of_nat (length S))) as [|Hgt]; [done|]. exfalso. destruct Hleft as [->|(b & Eb & Hb)]; [lia|].
    rewrite lookup_app_r in Eb by lia. pose proof (Forall_lookup_1 _ _ _ _ Hzs Eb) as Hz. apply Hb. unfold free_slot. by rewrite Hz. }
  destruct (split_items its Hits (take (Z.to_nat r) S) (drop (Z.to_nat r) S)) as (its1 & its2 & Eits & E1 & E2).
  { by rewrite take_drop. }
  { destruct (drop (Z.to_nat r) S) as [|b l] eqn:Ed; [by left|right]. exists b, l. split; [done|].
    assert (S !! Z.to_nat r = Some b) as Eb by (rewrite <- (Nat.add_0_r (Z.to_nat r)), <- lookup_drop, Ed; done).
    apply (Hfree (Z.to_nat r)); [lia|]. rewrite lookup_app_l; [done|]. by apply lookup_lt_Some in Eb. }
  rewrite Eits in Hits. apply Forall_app in Hits as [Hits1 Hits2].
  destruct (take_free its2 F (drop (Z.to_nat n) (slots_of its2)) Hits2) as (its3 & Eits2 & E3).
  { unfold F. by rewrite E2, take_drop. }
  { apply Forall_lookup. intros i b Ei. apply lookup_take_Some in Ei as [Ei Hi]. rewrite lookup_drop in Ei.
    apply (Hfree (Z.to_nat r + i)%nat); [lia|]. rewrite lookup_app_l; [done|]. by apply lookup_lt_Some in Ei. }
  exists its1, its3. split; [by rewrite Eits, Eits2|]. split; [rewrite E1, length_take; lia|]. split; [done|].
  split; [rewrite E3, E2, drop_drop; f_equal; lia|].
  unfold F. rewrite length_take. rewrite E2 in E3.
  destruct (Nat.le_gt_cases (Z.to_nat n) (length (drop (Z.to_nat r) S))) as [Hk|Hk]; [left; lia|]. right. split; [|lia].
  apply slots_of_nil. rewrite E3. apply drop_ge. lia.
Qed.

Lemma alloc_ok spc old clus dir its name s : dir_is dir its -> name_ok name -> short_ok s ->
  let it := new_file clus name s in
  clean_growth old dir (Z.of_nat (length (item_slots it))) ->
  exists its1 its2 F dir', let n := Z.of_nat (length (item_slots it)) in
    fat32_inode_alloc spc old clus name s dir = Done (Z.of_nat (length (slots_of its1)) + n - 1, dir') /\
    its = its1 ++ (IFree <$> F) ++ its2 /\ (Z.of_nat (length F) = n \/ its2 = [] /\ Z.of_nat (length F) <= n) /\
    dir_is dir' (its1 ++ it :: its2).
Proof.
  intros (zs & -> & Hits & Hzs) Hn Hs it Hclean. destruct (new_file_ok clus name s Hn Hs) as (Hit & _ & E & Hlen). fold it in Hit, E, Hlen.
  unfold fat32_inode_alloc. rewrite E. ocbn. set (n := Z.of_nat (length (item_slots it))) in *.
  destruct (insert_offset_ok n (slots_of its ++ zs) Hlen) as (r & -> & Hroom & Hgrow). ocbn.
  destruct (room_items its zs r n Hits Hzs Hroom ltac:(lia)) as (its1 & its2 & Eits & Er & E1 & E2 & HF).
  exists its1, its2, (take (Z.to_nat n) (drop (Z.to_nat r) (slots_of its))). eexists. cbv zeta. rewrite Er.
  split; [reflexivity|]. split; [done|]. split; [done|].
  pose proof Hits as Hits'. rewrite Eits in Hits'. apply Forall_app in Hits' as [Hits1 [_ Hits2]%Forall_app].
  unfold write_slots. fold n. assert (r <= Z.of_nat (length (slots_of its))) as Hr by (rewrite <- Er, E1, length_take; lia).
  rewrite take_app_le by lia. rewrite drop_app. rewrite <- E1, <- E2. eexists. split; [|split].
  - rewrite slots_of_app, slots_of_cons, <- !app_assoc. reflexivity.
  - apply Forall_app. split; [done|]. by apply Forall_cons_2.
  - apply Forall_app. split; [by apply Forall_drop|]. by apply grown_slots.
Qed.

(** *** Deleting a file *)

Lemma delete_ok spc old dir its1 its2 name s : let off := Z.of_nat (length (slots_of its1)) + n_long name in
  dir_is dir (its1 ++ IFile name s :: its2) ->
  exists F dir', fat32_fcb_delete spc old name off dir = Done dir' /\ Z.of_nat (length F) = n_long name + 1 /\
    dir_is dir' (its1 ++ (IFree <$> F) ++ its2).
Proof.
  intros off (zs & -> & Hits & Hzs). apply Forall_app in Hits as [Hits1 Hits2]. apply Forall_cons_1 in Hits2 as [[Hn Hs] Hits2].
  destruct (n_long_spec name (nm_some _ Hn)) as [H1 _]. unfold fat32_fcb_delete.
  change (CEIL_DIVIDE (Z.of_nat (length name)) FAT_LFN_LENGTH) with (n_long name).
  destruct (Z.ltb_spec 0 off); [|lia]. destruct (Z.leb_spec 0 (off - n_long name)); [|lia]. ocbn.
  set (F := replicate (Z.to_nat (n_long name + 1)) (0xE5 :: replicate 31 0)).
  assert (Z.of_nat (length F) = n_long name + 1) as HF by (unfold F; rewrite length_replicate; lia).
  exists F. eexists. split; [done|]. split; [done|]. exists zs. split; [|split; [|done]].
  - pose proof (file_slots_length name s) as Hl. unfold write_slots. rewrite HF.
    replace (off - n_long name + (n_long name + 1)) with (off + 1) by lia. rewrite !slots_of_app, slots_of_cons, slots_of_free. cbn [item_slots].
    rewrite !length_app. match goal with |- context[?x <? ?y] => destruct (Z.ltb_spec x y) end; [lia|].
    replace (Z.to_nat (off - n_long name)) with (length (slots_of its1)) by lia. rewrite <- !app_assoc, take_app_length.
    replace (Z.to_nat (off + 1)) with (length (slots_of its1) + length (file_slots name s))%nat by lia.
    rewrite <- drop_drop, drop_app_length, drop_app_length. rewrite !app_assoc. 
    match goal with |- ?l ++ (old <$> seqZ _ ?n) = _ => replace n with 0 by lia end. by rewrite app_nil_r.
  - apply Forall_app. split; [done|]. apply Forall_app. split; [|done]. apply Forall_fmap, Forall_replicate. done.
Qed.

(** ** The properties *)

Lemma first_file_app n fs1 fs2 : first_file n (fs1 ++ fs2) =
  match first_file n fs1 with Some o => Some o | None => first_file n fs2 end.
Proof. induction fs1 as [|[m o] fs1 IH]; [done|]. cbn. by destruct (decide (m = n)). Qed.

(** The names in a directory. *)
Definition listing (its : list item) : list (list Z) := omap item_name its.

Lemma files_names its : forall off, (files off its).*1 = listing its.
Proof.
  induction its as [|it its IH]; intros off; [done|]. unfold listing. cbn. destruct (item_name it); cbn; [f_equal|]; apply IH.
Qed.

Lemma first_file_none n fs : n ∉ fs.*1 -> first_file n fs = None.
Proof.
  induction fs as [|[m o] fs IH]; [done|]. cbn. intros Hn. rewrite decide_False by set_solver. apply IH. set_solver.
Qed.

(** C24. The entries [fat32_fcb_init] writes for a long name and its short entry are
    read back as the name: walking over them leaves the long ones on the stack,
    and at the short one [fat32_longname_popstack] accepts order and checksum and
    returns the name, for every name of 1 to 253 characters.  ([.] and [..]
    are not written this way but as a short entry alone: [fat32_fcb_init].) *)
Theorem long_name_round_trip name s search : name_ok name -> short_ok s ->
  exists bs, fcb_slots name s = Done (bs ++ [bytes_of_short s]) /\ Z.of_nat (length bs) = n_long name /\
  exists st st', general_trav (fat32_inode_travel_fcb_handler search) stop 0 bs (Trav stack_init false None []) =
      Done (Trav st false None []) /\
    fat32_longname_popstack st (DIR_Name (short_of_bytes (bytes_of_short s))) = Done (st', Some name) /\
    stack_is_empty st' = true.
Proof.
  intros Hn Hs. pose proof (n_long_max name Hn) as H20. pose proof Hn as [Hc Hne Hl]. destruct (n_long_spec name Hne) as (H1 & _).
  exists (bytes_of_long <$> rev (entries name (ChkSum (DIR_Name s)) 1 (Z.to_nat (n_long name)))).
  rewrite fcb_slots_ok by (done || lia). split; [done|]. rewrite length_fmap, length_rev, entries_length. split; [lia|].
  destruct (walk_pushes search (rev (entries name (ChkSum (DIR_Name s)) 1 (Z.to_nat (n_long name)))) 0 []
    (Trav stack_init false None []) []) as (st & Hst & E); [|done|done| |].
  { apply Forall_rev, entries_pushable; [done|lia..]. }
  { rewrite length_rev, entries_length. cbn. lia. }
  rewrite app_nil_r in E. destruct (popstack_ok name (DIR_Name s) st Hc Hne H20 Hst) as (st' & E2 & Hst').
  exists st, st'. split; [exact E|]. rewrite (short_name s (sh_name _ Hs)), E2. split.
  - destruct (Nat.leb_spec (length name + length (pad_nul name) + 1) 255) as [_|Hlong]; [done|].
    revert Hlong. unfold pad_nul. destruct (_ =? 0); cbn [length]; lia.
  - by rewrite (stack_empty_is _ _ Hst').
Qed.

(** C25. Looking a name up from a hint between two items finds the first file of
    that name behind the hint, by its long name or, without one, by its short
    name, and nothing else; every name it leaves in the directory's cache is
    that of a file there, with its offset. *)
Theorem dirlookup_refines dir its1 its2 n : dir_is dir (its1 ++ its2) -> (length n < 50)%nat ->
  let hint := Z.of_nat (length (slots_of its1)) in
  exists h c, fat32_inode_dirlookup_with_hint n hint dir = Done (first_file n (files hint its2), h, c) /\
    (forall off, first_file n (files hint its2) = Some off -> h = off + 1) /\ c ⊆ files hint its2.
Proof.
  intros K Hn hint. destruct (lookup_ok dir its1 its2 n K Hn) as (c & E & Hc). fold hint in E, Hc.
  do 2 eexists. split; [exact E|]. split; [by intros off ->|done].
Qed.

(** [fat32_dir_fcb_insert_offset] finds room: the slots it names are free or
    past the end, it names the start of their run, so never a place behind an
    unused tail, and the directory only grows when no gap is wide enough. *)
Theorem insert_offset_finds_room req dir : 1 <= req < 256 ->
  exists r, fat32_dir_fcb_insert_offset req dir = Done r /\ room_at dir r req /\
    (r + req <= Z.of_nat (length dir) \/ no_run dir req).
Proof. apply insert_offset_ok. Qed.

(** C26. Adding a file to a well-formed directory, [.] and [..] included, leaves a well-formed
    one in which a walk from the start finds the file by its name at the offset
    returned, and finds every other name, or not, exactly as before.  This
    asks that the first byte of the short entry does not mark a free slot, and
    that, when no gap is wide enough and the directory grows, the slots it
    gains start with a zero byte.  The code sees to neither: [stale_slot_found]
    is what happens when the second does not hold. *)
Theorem alloc_then_lookup spc old clus dir its name s : dir_is dir its -> name_ok name -> short_ok s -> (length name < 50)%nat ->
  name ∉ listing its -> clean_growth old dir (Z.of_nat (length (item_slots (new_file clus name s)))) ->
  exists off dir', fat32_inode_alloc spc old clus name s dir = Done (off, dir') /\ (exists its', dir_is dir' its') /\
    (exists h c, fat32_inode_dirlookup_with_hint name 0 dir' = Done (Some off, h, c)) /\
    forall n, n <> name -> (length n < 50)%nat -> exists r h h' c c',
      fat32_inode_dirlookup_with_hint n 0 dir = Done (r, h, c) /\
      fat32_inode_dirlookup_with_hint n 0 dir' = Done (r, h', c').
Proof.
  intros K Hn Hs Hlen Hnew Hclean. destruct (new_file_ok clus name s Hn Hs) as (_ & Hname & _ & Hpos).
  destruct (alloc_ok spc old clus dir its name s K Hn Hs Hclean) as (its1 & its2 & F & dir' & E & -> & HF & K').
  cbv zeta in E. set (it := new_file clus name s) in *. set (off := Z.of_nat (length (slots_of its1)) + _ - 1) in *.
  assert (exists fs1 fs2, files 0 (its1 ++ (IFree <$> F) ++ its2) = fs1 ++ fs2 /\
    files 0 (its1 ++ it :: its2) = fs1 ++ (name, off) :: fs2) as (fs1 & fs2 & E1 & E2).
  { exists (files 0 its1), (files (Z.of_nat (length (slots_of its1)) + Z.of_nat (length (item_slots it))) its2).
    rewrite !files_app. cbn [files]. rewrite Hname, files_free, slots_of_free. split.
    - cbn [app]. f_equal. destruct HF as [HF|[-> _]]; [f_equal; lia|done].
    - rewrite !Z.add_0_l. done. }
  exists off, dir'. split; [done|]. split; [by eexists|].
  assert (forall n, (length n < 50)%nat -> exists h c, fat32_inode_dirlookup_with_hint n 0 dir' =
    Done (first_file n (fs1 ++ (name, off) :: fs2), h, c)) as HL'.
  { intros n Hn'. destruct (lookup_start dir' _ n K' Hn') as (hc & c & E').
    rewrite E2 in E'. eauto. }
  split.
  - destruct (HL' name Hlen) as (h & c & ->). rewrite first_file_app, first_file_none.
    + cbn. rewrite decide_True by done. eauto.
    + rewrite <- (files_names _ 0), E1, fmap_app in Hnew. set_solver.
  - intros n Hne Hlen'. destruct (HL' n Hlen') as (h' & c' & E').
    destruct (lookup_start dir _ n K Hlen') as (hc & c & E0).
    rewrite E1 in E0. rewrite first_file_app in E', E0. cbn [first_file] in E'. rewrite decide_False in E' by congruence. do 5 eexists. split; [exact E0|exact E'].
Qed.

(** C27. Deleting a file that has long entries, as every file this kernel
    creates does, frees exactly the slots its entries took: its name is not found any more, and every
    other name is found, or not found, exactly as before.  (Of a file with a short entry
    alone the slot before is freed too: [delete_short_takes_two].) *)
Theorem delete_then_lookup spc old dir its1 its2 name s : dir_is dir (its1 ++ IFile name s :: its2) ->
  name ∉ listing (its1 ++ its2) -> (length name < 50)%nat ->
  let off := Z.of_nat (length (slots_of its1)) + n_long name in
  exists F dir' h c, fat32_fcb_delete spc old name off dir = Done dir' /\ dir_is dir' (its1 ++ (IFree <$> F) ++ its2) /\
    length F = length (item_slots (IFile name s)) /\
    fat32_inode_dirlookup_with_hint name 0 dir' = Done (None, h, c) /\
    forall n, n <> name -> (length n < 50)%nat -> exists r h h' c c',
      fat32_inode_dirlookup_with_hint n 0 dir = Done (r, h, c) /\
      fat32_inode_dirlookup_with_hint n 0 dir' = Done (r, h', c').
Proof.
  intros K Hnew Hlen off. destruct (delete_ok spc old dir its1 its2 name s K) as (F & dir' & E & HF & K'). fold off in E.
  set (fs1 := files 0 its1). set (fs2 := files (off + 1) its2).
  assert (files 0 (its1 ++ IFile name s :: its2) = fs1 ++ (name, off) :: fs2) as E1.
  { rewrite files_app. cbn [files item_name item_slots]. rewrite file_slots_length. unfold fs2, off.
    pose proof K as (zs & _ & Hits & _). apply Forall_app in Hits as [_ Hits]. apply Forall_cons_1 in Hits as [[Hn _] _].
    destruct (n_long_spec name (nm_some _ Hn)) as (H1 & _). rewrite !Z.add_0_l. do 2 f_equal; [f_equal; lia|f_equal; lia]. }
  assert (files 0 (its1 ++ (IFree <$> F) ++ its2) = fs1 ++ fs2) as E2.
  { rewrite !files_app, files_free, slots_of_free. cbn [app]. unfold fs2, off. do 2 f_equal. lia. }
  assert (name ∉ fs1.*1 /\ name ∉ fs2.*1) as [H1 H2].
  { unfold fs1, fs2. rewrite !files_names. unfold listing in *. rewrite omap_app in Hnew. set_solver. }
  destruct (lookup_start dir' _ name K' Hlen) as (hc & c & E').
  rewrite E2, first_file_none in E' by (rewrite fmap_app; set_solver).
  exists F, dir'. do 2 eexists. split; [done|]. split; [done|]. split.
  { pose proof (file_slots_length name s) as Hfl. cbn [item_slots].
    pose proof K as (zs & _ & Hits & _). apply Forall_app in Hits as [_ Hits]. apply Forall_cons_1 in Hits as [[Hn _] _].
    destruct (n_long_spec name (nm_some _ Hn)) as (Hn1 & _). lia. }
  split; [exact E'|]. intros n Hne Hlen'.
  destruct (lookup_start dir _ n K Hlen') as (hc0 & c0 & E0). destruct (lookup_start dir' _ n K' Hlen') as (hc1 & c1 & E3).
  rewrite E1 in E0. rewrite E2 in E3.
  rewrite first_file_app in E0, E3. cbn [first_file] in E0. rewrite decide_False in E0 by congruence. do 5 eexists. split; [exact E0|exact E3].
Qed.

(** Names of 254 and 255 characters, which the buffers are meant for, do not
    fit: [fat32_fcb_init] writes their entries, but any walk over a directory that
    comes to them writes past [name_buf], which has [NAME_LONG_MAX] bytes for the
    characters, the NUL of the last entry and the one put after it. *)
Theorem name_buf_overflow name s l n : Forall char_ok name -> (254 <= length name <= 255)%nat -> short_ok s -> (length n < 50)%nat ->
  exists bs, fcb_slots name s = Done bs /\ fat32_inode_dirlookup_with_hint n 0 (bs ++ l) = Undef.
Proof.
  intros Hc Hl Hs Hn. assert (name <> []) as Hne by (intros ->; cbn in Hl; lia). destruct (n_long_spec name Hne) as (H1 & Hlo & Hhi).
  assert (n_long name = 20) as H20 by lia. exists (file_slots name s). split; [apply fcb_slots_ok; [done|done|lia]|].
  unfold fat32_inode_dirlookup_with_hint. destruct (Z.leb_spec 50 (Z.of_nat (length n))); [lia|].
  destruct (Z.ltb_spec (Z.of_nat (length (file_slots name s ++ l))) 0); [lia|]. rewrite drop_0.
  destruct (walk_long n name s 0 l (Trav stack_init false None []) Hc Hne ltac:(lia) stack_init_is eq_refl) as (st & Hst & ->).
  cbn [general_trav]. rewrite handler_short_bind by done. destruct (popstack_ok name (DIR_Name s) st Hc Hne ltac:(lia) Hst) as (st' & E & _).
  cbn [fcb_stack]. rewrite E. destruct (Nat.leb_spec (length name + length (pad_nul name) + 1) 255) as [Hp|_]; [|done].
  revert Hp. unfold pad_nul. destruct (Z.eqb_spec (Z.of_nat (length name) mod 13) 0) as [Hz|]; cbn [length]; [|lia].
  apply Z.mod_divide in Hz as [q Hq]; lia.
Qed.

(** [fat32_fcb_delete] counts long entries from the name, so deleting a file
    that only has a short entry, as other systems write them, also frees the slot
    before it: the file of that slot is gone. *)
Theorem delete_short_takes_two spc old s1 s2 : short_ok s1 -> short_ok s2 ->
  let n1 := fat32_short_name_parser (DIR_Name s1) in
  let n2 := fat32_short_name_parser (DIR_Name s2) in
  n2 <> [] -> n1 <> n2 ->
  let dir := [bytes_of_short s1; bytes_of_short s2] in
  exists h h' c c' dir', fat32_inode_dirlookup_with_hint n2 0 dir = Done (Some 1, h, c) /\
    fat32_fcb_delete spc old n2 1 dir = Done dir' /\ fat32_inode_dirlookup_with_hint n1 0 dir' = Done (None, h', c').
Proof.
  intros Hs1 Hs2 n1 n2 Hne Hne2 dir.
  assert (length n1 <= 12 /\ length n2 <= 12)%nat as [Hl1 Hl2] by (split; apply parser_length; [apply Hs1|apply Hs2]).
  assert (dir_is dir [IShort s1; IShort s2]) as K.
  { exists []. split; [by rewrite app_nil_r|]. split; [|done]. apply Forall_cons_2; [done|]. by apply Forall_cons_2. }
  destruct (lookup_start dir _ n2 K ltac:(lia)) as (hc & c & E). cbn in E. fold n1 n2 in E.
  rewrite decide_False, decide_True in E by done.
  assert (n_long n2 = 1) as Hn2.
  { destruct (n_long_spec n2 Hne) as (H1 & Hlo & _). lia. }
  set (F := replicate 2 (0xE5 :: replicate 31 0)).
  assert (fat32_fcb_delete spc old n2 1 dir = Done F) as Ed.
  { unfold fat32_fcb_delete. change (CEIL_DIVIDE (Z.of_nat (length n2)) FAT_LFN_LENGTH) with (n_long n2). rewrite Hn2. done. }
  assert (dir_is F (IFree <$> F)) as KF.
  { exists []. rewrite slots_of_free, app_nil_r. split; [done|]. split; [|done]. by apply Forall_fmap, Forall_replicate. }
  destruct (lookup_start F _ n1 KF ltac:(lia)) as (hc' & c' & E'). cbn in E'. do 5 eexists. split; [exact E|]. split; [exact Ed|exact E'].
Qed.

Lemma and_exists2 {A B} (P : Prop) (Q : A -> B -> Prop) : (P /\ exists a b, Q a b) -> exists a b, P /\ Q a b.
Proof. intros (HP & a & b & HQ). by exists a, b. Qed.

(** What a new cluster held becomes part of the directory: after a file was added, a name that
    was never in it is found, when the slot behind the new file's is a used one. *)
Theorem stale_slot_found spc old clus name s s' : name_ok name -> short_ok s -> short_ok s' ->
  let req := Z.of_nat (length (item_slots (new_file clus name s))) in
  req < spc -> old req = bytes_of_short s' ->
  let ghost := fat32_short_name_parser (DIR_Name s') in
  ghost <> name ->
  exists off dir' h c, fat32_inode_alloc spc old clus name s [] = Done (off, dir') /\
    fat32_inode_dirlookup_with_hint ghost 0 dir' = Done (Some req, h, c).
Proof.
  intros Hn Hs Hs' req Hspc Eold ghost Hg. destruct (new_file_ok clus name s Hn Hs) as (Hit & Hname & E & Hlen).
  set (it := new_file clus name s) in *. fold req in Hlen.
  unfold fat32_inode_alloc. rewrite E. ocbn. fold req.
  assert (fat32_dir_fcb_insert_offset req [] = Done 0) as -> by done. ocbn.
  eexists _, _. apply and_exists2. split; [reflexivity|]. unfold write_slots. fold req. cbn [length]. rewrite Z.add_0_l.
  change (Z.of_nat 0) with 0. destruct (Z.ltb_spec 0 req); [|lia]. rewrite drop_nil, take_nil, app_nil_l, app_nil_l.
  rewrite Z.max_l by lia. assert (CEIL_DIVIDE req spc = 1) as ->.
  { unfold CEIL_DIVIDE. symmetry. apply Z.div_unique with (r := req - 1); lia. }
  rewrite Z.mul_1_l, seqZ_cons by lia. rewrite fmap_cons, Eold. set (l := old <$> _).
  unfold fat32_inode_dirlookup_with_hint. destruct (Z.leb_spec 50 (Z.of_nat (length ghost))) as [Hl|_].
  { pose proof (parser_length _ (sh_name _ Hs')). unfold ghost in Hl. lia. }
  rewrite (proj2 (Z.ltb_ge _ 0)) by lia. change (Z.to_nat 0) with 0%nat. rewrite drop_0.
  destruct (walk_item ghost it 0 (bytes_of_short s' :: l) (Trav stack_init false None []) Hit stack_init_is eq_refl)
    as (st & Hst & Ew). cbv zeta in Ew. rewrite Ew, Hname. fold req. rewrite Z.add_0_l.
  rewrite namecmp_eq by (pose proof (parser_length _ (sh_name _ Hs')); pose proof (nm_short _ Hn); unfold ghost; lia).
  rewrite bool_decide_eq_false_2 by done.
  destruct (walk_item ghost (IShort s') req l (Trav st false None (note name (req - 1) [])) Hs' Hst eq_refl) as (st' & _ & Ew').
  cbv zeta in Ew'. cbn [item_slots app item_name length] in Ew'. change (fat32_short_name_parser (DIR_Name s')) with ghost in Ew'.
  cbn [retval cached]. rewrite Ew'. rewrite namecmp_eq by (pose proof (parser_length _ (sh_name _ Hs')); unfold ghost; lia).
  rewrite bool_decide_eq_true_2 by done. ocbn. cbn [stop retval]. replace (req + Z.of_nat 1 - 1) with req by lia. by do 2 eexists.
Qed.

(** ** A directory with [..], a gap and a file *)

Definition plain (name : list Z) : dirent_s := SDir (name ++ replicate (11 - length name) 0x20) 0x20 0 0 0 0 0 0 0 0 5 0.
(** Twenty characters, in two long entries. *)
Definition demo_name : list Z := replicate 20 0x61.
Definition demo_short : dirent_s := plain [0x41; 0x41; 0x41; 0x41; 0x41; 0x41; 0x7E; 0x31].
Definition demo_file : list Z := replicate 13 0x62.
Definition demo_items : list item :=
  [IShort (plain [0x2E; 0x2E]); IFree (0xE5 :: replicate 31 0); IFile demo_file (plain [0x42; 0x42])].
Definition demo_dir : list slot := slots_of demo_items ++ replicate 12 (replicate 32 0).

Lemma chars_ok l : forallb (fun c => (0 <? c) && (c <? 256)) l = true -> Forall char_ok l.
Proof. intros H. apply Forall_forall. intros c Hc. eapply forallb_forall in H; [|by apply list_elem_of_In]. unfold char_ok. lia. Qed.

Lemma demo_name_ok : name_ok demo_name.
Proof. split; [by apply chars_ok|done|cbn; lia]. Qed.
Lemma demo_file_ok : name_ok demo_file.
Proof. split; [by apply chars_ok|done|cbn; lia]. Qed.

Lemma demo_dir_is : dir_is demo_dir demo_items.
Proof.
  exists (replicate 12 (replicate 32 0)). split; [done|]. split; [|apply zero_slots].
  repeat (apply Forall_cons_2; [|]); try done. split; [exact demo_file_ok|done].
Qed.

Lemma long_name_round_trip_witness : exists bs, fcb_slots demo_name demo_short = Done bs /\ length bs = 3%nat.
Proof.
  destruct (long_name_round_trip demo_name demo_short [] demo_name_ok) as (bs & E & Hl & _); [done|].
  exists (bs ++ [bytes_of_short demo_short]). split; [exact E|]. rewrite length_app. change (n_long demo_name) with 2 in Hl. cbn. lia.
Defined.

Lemma dirlookup_refines_witness : exists h c,
  fat32_inode_dirlookup_with_hint demo_file 1 demo_dir = Done (Some 3, h, c) /\ h = 4.
Proof.
  destruct (dirlookup_refines demo_dir [IShort (plain [0x2E; 0x2E])] (drop 1 demo_items) demo_file demo_dir_is)
    as (h & c & E & Hh & _); [cbn; lia|]. exists h, c. split; [exact E|]. rewrite (Hh 3); [done|]. vm_compute. reflexivity.
Defined.

Lemma insert_offset_finds_room_witness : exists r, fat32_dir_fcb_insert_offset 3 demo_dir = Done r /\ room_at demo_dir r 3.
Proof.
  destruct (insert_offset_finds_room 3 demo_dir) as (r & E & H & _); [lia|]. by exists r.
Defined.

(** A new cluster full of the entry of a file that is gone. *)
Definition demo_old (i : Z) : slot := bytes_of_short (plain [0x47; 0x48]).

(** Into the gap and the unused slots behind it, [..] into one, without growth. *)
Lemma alloc_then_lookup_witness : exists off dir' h c, fat32_inode_alloc 16 demo_old 2 demo_name demo_short demo_dir = Done (off, dir') /\
  fat32_inode_dirlookup_with_hint demo_name 0 dir' = Done (Some off, h, c).
Proof.
  destruct (alloc_then_lookup 16 demo_old 2 demo_dir demo_items demo_name demo_short demo_dir_is demo_name_ok)
    as (off & dir' & E & _ & (h & c & H) & _); [done|cbn; lia|by vm_compute; set_solver| |].
  { intros Hno. exfalso. destruct (Hno 4 ltac:(lia)) as (i & b & Hi & Eb & Hb); [vm_compute; discriminate|].
    change (Z.of_nat (length (item_slots (new_file 2 demo_name demo_short)))) with 3 in Hi.
    assert (i = 4%nat \/ i = 5%nat \/ i = 6%nat) as [->|[-> | ->]] by lia; vm_compute in Eb; injection Eb as <-; by apply Hb. }
  exists off, dir', h, c. by split.
Defined.

Lemma stale_slot_found_witness : exists off dir' h c, fat32_inode_alloc 16 demo_old 2 demo_name demo_short [] = Done (off, dir') /\
  fat32_inode_dirlookup_with_hint [0x47; 0x48] 0 dir' = Done (Some 3, h, c).
Proof.
  apply (stale_slot_found 16 demo_old 2 demo_name demo_short (plain [0x47; 0x48]) demo_name_ok); [done|done|done|done|done].
Defined.

Lemma delete_then_lookup_witness : exists dir' h c, fat32_fcb_delete 16 demo_old demo_file 3 demo_dir = Done dir' /\
  fat32_inode_dirlookup_with_hint demo_file 0 dir' = Done (None, h, c).
Proof.
  destruct (delete_then_lookup 16 demo_old demo_dir (take 2 demo_items) [] demo_file (plain [0x42; 0x42]) demo_dir_is)
    as (F & dir' & h & c & E & _ & _ & H & _); [by vm_compute; set_solver|cbn; lia|]. exists dir', h, c. split; [exact E|exact H].
Defined.

Lemma name_buf_overflow_witness : exists bs, fcb_slots (replicate 255 0x61) demo_short = Done bs /\
  fat32_inode_dirlookup_with_hint [0x62] 0 bs = Undef.
Proof.
  destruct (name_buf_overflow (replicate 255 0x61) demo_short [] [0x62]) as (bs & E & H);
    [by apply chars_ok|rewrite length_replicate; lia|done|cbn; lia|]. exists bs. rewrite app_nil_r in H. by split.
Defined.

Lemma delete_short_takes_two_witness : exists h c dir',
  fat32_fcb_delete 16 demo_old [0x42] 1 [bytes_of_short (plain [0x41]); bytes_of_short (plain [0x42])] = Done dir' /\
  fat32_inode_dirlookup_with_hint [0x41] 0 dir' = Done (None, h, c).
Proof.
  destruct (delete_short_takes_two 16 demo_old (plain [0x41]) (plain [0x42])) as (h & h' & c & c' & dir' & _ & E & H); [done|done|done|done|].
  exists h', c', dir'. split; [exact E|exact H].
Defined.
