(* ===== verification/Fat.v ===== *)
(** * Fat: clusters of FAT32 files

    [src/fs/fat32/fat32_disk.c] and the cluster half of
    [src/fs/fat32/fat32_inode.c]: the table of clusters in memory and its bit
    map, cluster chains, the index table of a file, moving a cursor, mapping
    file pages to runs of sectors, truncation.  Index pages and block vectors
    come from the page allocator; sectors of the disk are an argument. *)

From stdpp Require Import base gmap sets list fin_maps.
From Stdlib Require Import ZArith Lia.
From S2P Require Import Prelude Buddy Kalloc PageAlloc.
#[local] Open Scope Z_scope.

(** ** The volume *)

Definition EOC : Z := 0x0FFFFFFF.
Definition FREE_MASK : Z := 0.
Definition ISEOF (FATContent : Z) : bool := 0x0FFFFFF8 <=? FATContent.

(** The fields of [struct _superblock]; the tables are arrays of words. *)
Record fat_sb := Sb {
  sector_size : Z;
  n_sectors : Z;
  sectors_per_block : Z;
  fatbase : Z;
  n_fats : Z;
  n_sectors_fat : Z;
  free_count : Z;
  nxt_free : Z;
  hint_valid : bool;
  dirty : bool;
  bit_map : list Z;
  fat_table : list Z
}.

Section macros.
Context (sb : fat_sb).

(** The root directory has no entries of its own: [__BPB_RootEntCnt] is 0. *)
Definition RootDirSectors : Z := u32 (0 * 32 + (sector_size sb - 1)) / sector_size sb.
Definition FirstDataSector : Z := u32 (fatbase sb + u32 (n_fats sb * n_sectors_fat sb) + RootDirSectors).
Definition FirstSectorofCluster (N : Z) : Z := u32 (u32 (u32 (N - 2) * sectors_per_block sb) + FirstDataSector).
Definition DataSec : Z := u32 (n_sectors sb - FirstDataSector).
Definition CountofClusters : Z := DataSec / sectors_per_block sb.
Definition FAT_CLUSTER_MAX : Z := u32 (CountofClusters + 1).
Definition FAT_PER_SECTOR : Z := sector_size sb / 4.
Definition LOGISTIC_C_NUM (off : Z) : Z := off / u32 (sectors_per_block sb * sector_size sb).
Definition LOGISTIC_C_OFFSET (off : Z) : Z := off mod u32 (sectors_per_block sb * sector_size sb).
Definition LOGISTIC_S_NUM (off : Z) : Z := LOGISTIC_C_OFFSET off / sector_size sb.
Definition LOGISTIC_S_OFFSET (off : Z) : Z := LOGISTIC_C_OFFSET off mod sector_size sb.
End macros.

Definition set_table (l : list Z) (sb : fat_sb) : fat_sb :=
  Sb (sector_size sb) (n_sectors sb) (sectors_per_block sb) (fatbase sb) (n_fats sb) (n_sectors_fat sb)
    (free_count sb) (nxt_free sb) (hint_valid sb) (dirty sb) (bit_map sb) l.
Definition set_map (l : list Z) (sb : fat_sb) : fat_sb :=
  Sb (sector_size sb) (n_sectors sb) (sectors_per_block sb) (fatbase sb) (n_fats sb) (n_sectors_fat sb)
    (free_count sb) (nxt_free sb) (hint_valid sb) (dirty sb) l (fat_table sb).
Definition set_info (n nxt : Z) (valid d : bool) (sb : fat_sb) : fat_sb :=
  Sb (sector_size sb) (n_sectors sb) (sectors_per_block sb) (fatbase sb) (n_fats sb) (n_sectors_fat sb)
    n nxt valid d (bit_map sb) (fat_table sb).

(** An array element. *)
Definition load_at (l : list Z) (i : Z) : outcome Z := if i <? 0 then Undef else deref (l !! Z.to_nat i).
Definition store_at (i v : Z) (l : list Z) : outcome (list Z) :=
  _ ← load_at l i; Done (<[Z.to_nat i := v]> l).

(** *** The boot and information sectors *)

Record fat_bpb := Bpb { BytsPerSec : Z; SecPerClus : Z; RsvdSecCnt : Z; NumFATs : Z; TotSec32 : Z; FATSz32 : Z }.
Record fsinfo := FsInfo { Free_Count : Z; Nxt_Free : Z }.

Definition fat32_boot_sector_parser (b : fat_bpb) (sb : fat_sb) : fat_sb :=
  Sb (BytsPerSec b) (TotSec32 b) (SecPerClus b) (RsvdSecCnt b) (NumFATs b) (FATSz32 b)
    (free_count sb) (nxt_free sb) (hint_valid sb) (dirty sb) (bit_map sb) (fat_table sb).
Definition fat32_fsinfo_parser (i : fsinfo) (sb : fat_sb) : fat_sb :=
  set_info (Free_Count i) (Nxt_Free i) false (dirty sb) sb.

(** *** Bits: [1 << pos] is an [int] *)

Definition bit_of (pos : Z) : outcome Z := if (0 <=? pos) && (pos <? 31) then Done (Z.shiftl 1 pos) else Undef.
Definition SET_BIT (bitmap pos : Z) : outcome Z := b ← bit_of pos; Done (Z.lor bitmap b).
Definition CLEAR_BIT (bitmap pos : Z) : outcome Z := b ← bit_of pos; Done (Z.land bitmap (u64 (Z.lnot b))).
Definition TEST_BIT (bitmap pos : Z) : outcome bool := b ← bit_of pos; Done (negb (Z.land bitmap b =? 0)).
Definition BIT_INDEX (pos unit : Z) : Z := pos / unit.
Definition BIT_OFFSET (pos unit : Z) : Z := pos mod unit.

(** The [for] loop of [fat32_fat_bitmap_init] over the entries of a sector;
    the last component tells whether it returned. *)
Fixpoint map_entries (fats : list Z) (c map_mini : Z) (sb : fat_sb) : outcome (Z * Z * fat_sb * bool) :=
  match fats with
  | [] => Done (c, map_mini, sb, false)
  | v :: fats =>
      let idx := BIT_INDEX c 64 in
      let off := BIT_OFFSET c 64 in
      '(m, sb) ← (if negb (v =? FREE_MASK) then
                     m ← SET_BIT map_mini off;
                     l ← store_at c v (fat_table sb);
                     Done (m, set_table l sb)
                   else m ← CLEAR_BIT map_mini off; Done (m, sb));
      let c := c + 1 in
      let save_flag := off + 1 =? 64 in
      sb ← (if save_flag then l ← store_at idx m (bit_map sb); Done (set_map l sb) else Done sb);
      if FAT_CLUSTER_MAX sb <? c then
        sb ← (if negb save_flag then l ← store_at idx m (bit_map sb); Done (set_map l sb) else Done sb);
        Done (c, m, sb, true)
      else map_entries fats c m sb
  end.

(** [bread] of a sector of the table is [fat_sector]. *)
Fixpoint map_sectors (fuel : nat) (fat_sector : Z -> list Z) (sec c map_mini : Z) (sb : fat_sb) : outcome fat_sb :=
  if negb (c <? FAT_CLUSTER_MAX sb) then Panic
  else match fuel with
    | O => NoFuel
    | S fuel =>
        '(c, m, sb, ret) ← map_entries (fat_sector sec) c map_mini sb;
        if (ret : bool) then Done sb else map_sectors fuel fat_sector (sec + 1) c m sb
    end.
Definition fat32_fat_bitmap_init (fat_sector : Z -> list Z) (sb : fat_sb) : outcome fat_sb :=
  map_sectors (S (Z.to_nat (FAT_CLUSTER_MAX sb))) fat_sector (fatbase sb) 0 0 sb.

Definition fat32_bitmap_op (cluster : Z) (set : bool) (sb : fat_sb) : outcome fat_sb :=
  let idx := BIT_INDEX cluster 64 in
  let off := BIT_OFFSET cluster 64 in
  m ← load_at (bit_map sb) idx;
  b ← TEST_BIT m off;
  ASSERT b;;
  m ← (if set then SET_BIT m off else CLEAR_BIT m off);
  l ← store_at idx m (bit_map sb);
  Done (set_map l sb).

(** The [for] loop of [fat32_bitmap_alloc] over the offsets of a word, [n] to
    go: the value returned, if it returned, and the next cluster. *)
Fixpoint scan_word (n : nat) (off c idx m : Z) (sb : fat_sb) : outcome (option Z * Z * fat_sb) :=
  match n with
  | O => Done (None, c, sb)
  | S n =>
      b ← TEST_BIT m off;
      if negb b then
        m ← SET_BIT m off;
        l ← store_at idx m (bit_map sb);
        Done (Some c, c, set_map l sb)
      else
        let c := u32 (c + 1) in
        if FAT_CLUSTER_MAX sb <? c then Done (Some 0, c, sb) else scan_word n (off + 1) c idx m sb
  end.

Fixpoint scan_words (fuel : nat) (c idx off_init : Z) (sb : fat_sb) : outcome (Z * fat_sb) :=
  if negb (c <? FAT_CLUSTER_MAX sb) then Done (0, sb)
  else match fuel with
    | O => NoFuel
    | S fuel =>
        m ← load_at (bit_map sb) idx;
        '(r, c, sb) ← scan_word (Z.to_nat (64 - off_init)) off_init c idx m sb;
        match r with Some r => Done (r, sb) | None => scan_words fuel c (idx + 1) 0 sb end
    end.
Definition fat32_bitmap_alloc (hint : Z) (sb : fat_sb) : outcome (Z * fat_sb) :=
  scan_words (S (Z.to_nat (FAT_CLUSTER_MAX sb))) hint (BIT_INDEX hint 64) (BIT_OFFSET hint 64) sb.

(** *** The table in memory *)

Definition fat32_fat_cache_set (cluster value : Z) (sb : fat_sb) : outcome fat_sb :=
  if negb ((2 <=? cluster) && (cluster <=? FAT_CLUSTER_MAX sb)) then Panic
  else if negb ((2 <=? value) && (value <=? FAT_CLUSTER_MAX sb)) && negb (value =? EOC) && negb (value =? FREE_MASK) then Panic
  else l ← store_at cluster value (fat_table sb); Done (set_table l sb).

Definition fat32_fat_cache_get (cluster : Z) (sb : fat_sb) : outcome Z :=
  if negb ((2 <=? cluster) && (cluster <=? FAT_CLUSTER_MAX sb)) then Panic
  else fat_next ← load_at (fat_table sb) cluster; if fat_next =? 0 then Panic else Done fat_next.

(** The [retry] loop of [fat32_cluster_alloc]; it never ends when the map stays full. *)
Fixpoint alloc_retry (fuel : nat) (sb : fat_sb) : outcome (Z * fat_sb) :=
  match fuel with
  | O => NoFuel
  | S fuel =>
      let hint := if hint_valid sb then nxt_free sb else 0 in
      '(fat_next, sb) ← fat32_bitmap_alloc hint sb;
      let nxt := u32 (fat_next + 1) in
      let nxt := if FAT_CLUSTER_MAX sb <=? nxt then 3 else nxt in
      let sb := set_info (free_count sb) nxt true (dirty sb) sb in
      if fat_next =? 0 then alloc_retry fuel sb else Done (fat_next, sb)
  end.
Definition fat32_cluster_alloc (sb : fat_sb) : outcome (Z * fat_sb) :=
  if free_count sb =? 0 then Panic
  else
    '(free_num, sb) ← alloc_retry 3 (set_info (u32 (free_count sb - 1)) (nxt_free sb) (hint_valid sb) (dirty sb) sb);
    sb ← fat32_fat_cache_set free_num EOC (set_info (free_count sb) (nxt_free sb) (hint_valid sb) true sb);
    Done (free_num, sb).

(** ** The clusters of a file *)

Definition N_DIRECT : Z := 12.
Definition N_LEVEL_ONE : Z := 50.
Definition N_INDIRECT : Z := PGSIZE / 4.
Definition MAX_INDEX_0 : Z := N_DIRECT.
Definition OFFSET_LEVEL_1 : Z := N_INDIRECT.
Definition MAX_INDEX_1 : Z := MAX_INDEX_0 + N_LEVEL_ONE * OFFSET_LEVEL_1.
Definition MAX_INDEX_2 : Z := MAX_INDEX_1 + 1 * (N_INDIRECT * N_INDIRECT).
Definition MAX_INDEX_3 : Z := MAX_INDEX_2 + 1 * (N_INDIRECT * N_INDIRECT * N_INDIRECT).
Definition IDX_OFFSET (idx : Z) : Z := Z.land idx (N_INDIRECT - 1).
(** A semaphore of 112 bytes, a list head, three words and a pointer, padded. *)
Definition sizeof_bio_vec : Z := 112 + 16 + 24.

(** The part of [struct inode] that concerns clusters: [fat32_i] and [i_table]. *)
Record inode := Ino {
  cluster_start : Z;
  cluster_end : Z;
  cluster_cnt : Z;
  direct : list Z;
  indirect_one : list Z
}.

Definition set_end (c n : Z) (ip : inode) : inode := Ino (cluster_start ip) c n (direct ip) (indirect_one ip).
Definition set_direct (l : list Z) (ip : inode) : inode :=
  Ino (cluster_start ip) (cluster_end ip) (cluster_cnt ip) l (indirect_one ip).
Definition set_indirect (l : list Z) (ip : inode) : inode :=
  Ino (cluster_start ip) (cluster_end ip) (cluster_cnt ip) (direct ip) l.

Section clusters.
Context {A : Type} `{PA : !PageAlloc A}.

(** The volume, the index pages by address, the allocator. *)
Record fat_st := FatSt { fsb : fat_sb; tabs : gmap Z (list Z); al : A }.

Definition with_fsb (sb : fat_sb) (s : fat_st) : fat_st := FatSt sb (tabs s) (al s).

(** [fat32_page_alloc(1)]: [kzalloc] of a page. *)
Definition fat32_page_alloc (s : fat_st) : outcome (Z * fat_st) :=
  '(p, a) ← pa_kmalloc PGSIZE (al s);
  match p with
  | None => Panic
  | Some p => Done (p, FatSt (fsb s) (<[p := replicate (Z.to_nat N_INDIRECT) 0]> (tabs s)) a)
  end.

Definition INDEX_LOOKUP (p : Z) : Z := if p =? 0 then EOC else p.

(** The result and the table. *)
Definition get_index_val (idx_table : list Z) (idx_entry cluster_num : Z) : outcome (Z * list Z) :=
  if negb (cluster_num =? 0) then t ← store_at idx_entry cluster_num idx_table; Done (cluster_num, t)
  else v ← load_at idx_table idx_entry; Done (INDEX_LOOKUP v, idx_table).

Definition fat32_ctl_index_table (ip : inode) (l_num cluster_num : Z) (s : fat_st) : outcome (Z * inode * fat_st) :=
  ASSERT ((1 <=? l_num) && (l_num <=? MAX_INDEX_3));;
  let idx := l_num - 1 in
  if l_num <=? MAX_INDEX_0 then
    '(v, t) ← get_index_val (direct ip) idx cluster_num; Done (v, set_direct t ip, s)
  else if l_num <=? MAX_INDEX_1 then
    let idx := idx - MAX_INDEX_0 in
    let table_offset := idx / OFFSET_LEVEL_1 in
    let idx := idx mod OFFSET_LEVEL_1 in
    idx_table ← load_at (indirect_one ip) table_offset;
    '(idx_table, ip, s) ← (if idx_table =? 0 then
        '(p, s) ← fat32_page_alloc s;
        l ← store_at table_offset p (indirect_one ip);
        Done (p, set_indirect l ip, s)
      else Done (idx_table, ip, s));
    t ← deref (tabs s !! idx_table);
    '(v, t) ← get_index_val t (IDX_OFFSET idx) cluster_num;
    Done (v, ip, FatSt (fsb s) (<[idx_table := t]> (tabs s)) (al s))
  else Panic.

(** The loop of [fat32_fat_travel]; the last cluster left and the clusters counted. *)
Fixpoint travel_loop (fuel : nat) (num iter_c_n cnt prev : Z) (ip : inode) (s : fat_st)
    : outcome (Z * Z * Z * inode * fat_st) :=
  if ISEOF iter_c_n then Done (iter_c_n, cnt, prev, ip, s)
  else
    let cnt := cnt + 1 in
    if (cnt <? num) || (num =? 0) then
      match fuel with
      | O => NoFuel
      | S fuel =>
          '(_, ip, s) ← fat32_ctl_index_table ip cnt iter_c_n s;
          next ← fat32_fat_cache_get iter_c_n (fsb s);
          travel_loop fuel num next cnt iter_c_n ip s
      end
    else Done (iter_c_n, cnt, prev, ip, s).

Definition fat32_fat_travel (ip : inode) (num : Z) (s : fat_st) : outcome (Z * inode * fat_st) :=
  '(iter_c_n, cnt, prev, ip, s) ← travel_loop (length (fat_table (fsb s))) num (cluster_start ip) 0 0 ip s;
  if num =? 0 then Done (cnt, set_end prev (cluster_cnt ip) ip, s)
  else if cnt <? num then Done (prev, ip, s) else Done (iter_c_n, ip, s).

(** What [fat32_inode_load_from_disk] does once it has the first cluster. *)
Definition load_clusters (ip : inode) (s : fat_st) : outcome (inode * fat_st) :=
  if negb (cluster_start ip =? 0) then
    '(n, ip, s) ← fat32_fat_travel ip 0 s; Done (set_end (cluster_end ip) n ip, s)
  else Done (ip, s).

(** One more cluster at the end of the file, as the callers append it. *)
Definition append_cluster (last : Z) (ip : inode) (s : fat_st) : outcome (Z * inode * fat_st) :=
  '(fat_new, sb) ← fat32_cluster_alloc (fsb s);
  sb ← fat32_fat_cache_set last fat_new sb;
  let ip := set_end fat_new (cluster_cnt ip + 1) ip in
  '(_, ip, s) ← fat32_ctl_index_table ip (cluster_cnt ip) fat_new (with_fsb sb s);
  Done (fat_new, ip, s).

Fixpoint grow_loop (n : nat) (C_NUM_off c_start : Z) (ip : inode) (s : fat_st) : outcome (Z * inode * fat_st) :=
  if cluster_cnt ip <? C_NUM_off then
    match n with
    | O => NoFuel
    | S n => '(c, ip, s) ← append_cluster c_start ip s; grow_loop n C_NUM_off c ip s
    end
  else Done (c_start, ip, s).

(** The cluster number in the file, [*c_start], [*init_s_n] and [*init_s_offset]. *)
Definition fat32_cursor_to_offset (ip : inode) (off : Z) (s : fat_st) : outcome (Z * Z * Z * Z * inode * fat_st) :=
  let C_NUM_off := u32 (LOGISTIC_C_NUM (fsb s) off + 1) in
  '(c_start, ip, s) ← fat32_ctl_index_table ip C_NUM_off 0 s;
  let c_start := if ISEOF c_start then cluster_end ip else c_start in
  '(c_start, ip, s) ← grow_loop (Z.to_nat C_NUM_off) C_NUM_off c_start ip s;
  Done (C_NUM_off, c_start, LOGISTIC_S_NUM (fsb s) off, LOGISTIC_S_OFFSET (fsb s) off, ip, s).

(** A block vector: its page, first sector and length; the list is kept with its
    last vector, [vec_cur], in front. *)
Definition bio_vec : Type := Z * Z * Z.

Definition CLUSTER_ADJACENT (v : bio_vec) (first_sector : Z) : bool := u32 (v.1.2 + v.2) =? first_sector.

(** The vector a cluster goes to. *)
Definition vec_for (first_sector : Z) (vecs : list bio_vec) (s : fat_st) : outcome (list bio_vec * fat_st) :=
  if match vecs with [] => true | v :: _ => negb (CLUSTER_ADJACENT v first_sector) end then
    '(p, a) ← pa_kmalloc sizeof_bio_vec (al s);
    match p with None => Panic | Some p => Done ((p, 0, 0) :: vecs, FatSt (fsb s) (tabs s) a) end
  else Done (vecs, s).

Definition vec_add (start n : Z) (vecs : list bio_vec) : list bio_vec :=
  match vecs with
  | [] => []
  | (p, b, len) :: vecs => if b =? 0 then (p, start, n) :: vecs else (p, b, u32 (len + n)) :: vecs
  end.

Fixpoint block_loop (fuel : nat) (alloc : bool) (tot_s_n init_s_n l_num iter_c_n cur_s_n : Z) (vecs : list bio_vec)
    (ip : inode) (s : fat_st) : outcome (Z * list bio_vec * inode * fat_st) :=
  if ISEOF iter_c_n || negb (cur_s_n <? tot_s_n) then Done (cur_s_n, vecs, ip, s)
  else match fuel with
    | O => NoFuel
    | S fuel =>
        let first_sector := FirstSectorofCluster (fsb s) iter_c_n in
        '(vecs, s) ← vec_for first_sector vecs s;
        let blocks_n := Z.min (u32 (sectors_per_block (fsb s) - init_s_n)) (u32 (tot_s_n - cur_s_n)) in
        let vecs := vec_add (u32 (first_sector + init_s_n)) blocks_n vecs in
        let cur_s_n := u32 (cur_s_n + blocks_n) in
        if cur_s_n =? tot_s_n then Done (cur_s_n, vecs, ip, s)
        else
          '(next, ip, s) ← fat32_ctl_index_table ip (l_num + 1) 0 s;
          '(iter_c_n, ip, s) ← (if alloc && ISEOF next then append_cluster iter_c_n ip s else Done (next, ip, s));
          block_loop fuel alloc tot_s_n 0 (l_num + 1) iter_c_n cur_s_n vecs ip s
    end.

(** The sectors mapped, and the block vectors in the order of the list. *)
Definition fat32_get_block (ip : inode) (off n : Z) (alloc : bool) (s : fat_st)
    : outcome (Z * list bio_vec * inode * fat_st) :=
  ASSERT (off mod PGSIZE =? 0);;
  ASSERT (n mod sector_size (fsb s) =? 0);;
  ASSERT (0 <? n);;
  '(l_num, iter_c_n, init_s_n, init_s_offset, ip, s) ← fat32_cursor_to_offset ip off s;
  ASSERT (init_s_offset =? 0);;
  let tot_s_n := u32 (n + sector_size (fsb s) - 1) / sector_size (fsb s) in
  '(cur_s_n, vecs, ip, s) ← block_loop (Z.to_nat tot_s_n) alloc tot_s_n init_s_n l_num iter_c_n 0 [] ip s;
  Done (cur_s_n, rev vecs, ip, s).

(** *** Truncation *)

Fixpoint clear_direct (n : nat) (idx : Z) (l : list Z) : outcome (list Z) :=
  match n with
  | O => Done l
  | S n =>
      v ← load_at l idx;
      if v =? 0 then Done l else l ← store_at idx 0 l; clear_direct n (idx + 1) l
  end.

Fixpoint free_tables (n : nat) (table_offset : Z) (l : list Z) (s : fat_st) : outcome (list Z * fat_st) :=
  match n with
  | O => Done (l, s)
  | S n =>
      p ← load_at l table_offset;
      if p =? 0 then Done (l, s)
      else
        a ← pa_kfree p (al s);
        l ← store_at table_offset 0 l;
        free_tables n (table_offset + 1) l (FatSt (fsb s) (delete p (tabs s)) a)
  end.

Definition fat32_free_index_table (ip : inode) (s : fat_st) : outcome (inode * fat_st) :=
  if cluster_cnt ip =? 0 then Done (ip, s)
  else
    d ← clear_direct (Z.to_nat N_DIRECT) 0 (direct ip);
    '(l, s) ← free_tables (Z.to_nat N_LEVEL_ONE) 0 (indirect_one ip) s;
    Done (set_indirect l (set_direct d ip), s).

Fixpoint trunc_loop (fuel : nat) (iter_c_n l_num : Z) (ip : inode) (s : fat_st) : outcome (inode * fat_st) :=
  if ISEOF iter_c_n then Done (ip, s)
  else match fuel with
    | O => NoFuel
    | S fuel =>
        '(fat_next, ip, s) ← fat32_ctl_index_table ip (l_num + 1) 0 s;
        sb ← fat32_fat_cache_set iter_c_n FREE_MASK (fsb s);
        sb ← fat32_bitmap_op iter_c_n false sb;
        sb ← fat32_fat_cache_set iter_c_n FREE_MASK sb;
        trunc_loop fuel fat_next (l_num + 1) ip (with_fsb sb s)
    end.

Definition fat32_inode_trunc (ip : inode) (s : fat_st) : outcome (inode * fat_st) :=
  '(ip, s) ← trunc_loop (Z.to_nat MAX_INDEX_1) (cluster_start ip) 1 ip s;
  '(ip, s) ← fat32_free_index_table ip s;
  let sb := fsb s in
  let sb := set_info (u32 (free_count sb + cluster_cnt ip)) (nxt_free sb) (hint_valid sb) (dirty sb) sb in
  Done (Ino 0 0 0 (direct ip) (indirect_one ip), with_fsb sb s).
End clusters.
Arguments fat_st : clear implicits.

(** ** The index table as a map *)

Lemma load_at_ok l i : 0 <= i < Z.of_nat (length l) -> load_at l i = Done (l !!! Z.to_nat i).
Proof.
  intros Hi. unfold load_at. destruct (Z.ltb_spec i 0); [lia|]. by rewrite list_lookup_lookup_total_lt by lia.
Qed.

Lemma store_at_ok l i v : 0 <= i < Z.of_nat (length l) -> store_at i v l = Done (<[Z.to_nat i := v]> l).
Proof. intros Hi. unfold store_at. by rewrite load_at_ok. Qed.

Lemma IDX_OFFSET_small i : 0 <= i < 1024 -> IDX_OFFSET i = i.
Proof. intros Hi. unfold IDX_OFFSET. change (N_INDIRECT - 1) with (Z.ones 10). rewrite Z.land_ones by lia. by apply Z.mod_small. Qed.

(** One of the next [n] small allocations fails. *)
Notation starved n a := (dry PGSIZE n a).

Section index.
Context {A : Type} `{PA : !PageAlloc A, PAOK : !PageAllocOk A}.
Notation fat_st := (fat_st A).
Implicit Types (ip : inode) (s : fat_st) (R : gmap Z (Z * Z)).

(** At most [n] small allocations, which leave what was owned alone. *)
Record grew (n : nat) (a : A) R (a' : A) R' : Prop := {
  gr_took : uses PGSIZE n a a';
  gr_rep : pa_rep a' R';
  gr_owned p : owned a R p -> owned a' R' p
}.

Lemma grew_refl n a R : pa_rep a R -> grew n a R a R.
Proof. constructor; [constructor|done..]. Qed.
Lemma grew_trans n m a1 R1 a2 R2 a3 R3 : grew n a1 R1 a2 R2 -> grew m a2 R2 a3 R3 -> grew (n + m) a1 R1 a3 R3.
Proof. intros [] []. constructor; eauto using uses_trans. Qed.
Lemma grew_le n m a R a' R' : grew n a R a' R' -> (n <= m)%nat -> grew m a R a' R'.
Proof. intros [U ? ?] H. constructor; [by eapply uses_le|done..]. Qed.
Lemma starved_later n m k a R a' R' : grew n a R a' R' -> starved m a' -> (n + m <= k)%nat -> starved k a.
Proof. intros [T _ _] H Hk. by eapply dry_later. Qed.
Lemma starved_le n m a : starved n a -> (n <= m)%nat -> starved m a.
Proof. intros H Hm. by eapply dry_le. Qed.

(** A small allocation. *)
Lemma small_alloc a R size : pa_rep a R -> 0 < size <= PGSIZE ->
  (pa_kmalloc size a = Done (None, a) /\ starved 1 a) \/
  exists p a' R', pa_kmalloc size a = Done (Some p, a') /\ grew 1 a R a' R' /\ owned a' R' p /\ p <> 0 /\
    forall p', owned a R p' -> p' <> p.
Proof.
  intros Ha Hs. assert (0 < size <= PGSIZE * 2 ^ BUDDY_MAX_ORDER) as Hs' by (change BUDDY_MAX_ORDER with 13; unfold PGSIZE in *; lia).
  destruct (kmalloc_owned a R size Ha Hs') as [E|(q & a' & R' & E & Hq & Ha' & Ho & Hk)].
  - left. split; [done|]. eapply dry_now; [lia| |done]. lia.
  - right. exists (page_to_pa q), a', R'. split_and!; [done| |done| |].
    + constructor; [|done|by intros p [? _]%Hk]. eapply uses_alloc; [|done|constructor]. lia.
    + rewrite page_to_pa_alt by done. unfold START_MEM. lia.
    + by intros p' [_ ?]%Hk.
Qed.

(** What the table holds for cluster [l] of the file; 0 for nothing. *)
Definition index_entry ip s (l : Z) : Z :=
  if l <=? MAX_INDEX_0 then direct ip !!! Z.to_nat (l - 1)
  else
    let i := l - 1 - MAX_INDEX_0 in
    let p := indirect_one ip !!! Z.to_nat (i / 1024) in
    if p =? 0 then 0 else default [] (tabs s !! p) !!! Z.to_nat (i mod 1024).

Record index_ok ip s R : Prop := {
  ix_direct : length (direct ip) = Z.to_nat N_DIRECT;
  ix_one : length (indirect_one ip) = Z.to_nat N_LEVEL_ONE;
  ix_page k p : indirect_one ip !! k = Some p -> p <> 0 ->
    owned (al s) R p /\ exists t, tabs s !! p = Some t /\ length t = Z.to_nat 1024;
  ix_apart k k' p : indirect_one ip !! k = Some p -> indirect_one ip !! k' = Some p -> p <> 0 -> k = k';
  ix_alloc : pa_rep (al s) R
}.

Definition same_file ip ip' : Prop :=
  cluster_start ip' = cluster_start ip /\ cluster_end ip' = cluster_end ip /\ cluster_cnt ip' = cluster_cnt ip.

Lemma get_index_val_ok t i c : 0 <= i < Z.of_nat (length t) ->
  get_index_val t i c = Done (if c =? 0 then INDEX_LOOKUP (t !!! Z.to_nat i) else c,
    if c =? 0 then t else <[Z.to_nat i := c]> t).
Proof.
  intros Hi. unfold get_index_val. destruct (c =? 0); cbn [negb]; [by rewrite load_at_ok|by rewrite store_at_ok].
Qed.

(** Writing one entry. *)
Definition set_entry (l c : Z) (f : Z -> Z) : Z -> Z := fun m => if decide (m = l /\ c <> 0) then c else f m.

Lemma lookup_total_set (t : list Z) i j c : (i < length t)%nat ->
  (if c =? 0 then t else <[i := c]> t) !!! j = if decide (j = i /\ c <> 0) then c else t !!! j.
Proof.
  intros Hi. destruct (Z.eqb_spec c 0) as [->|Hc]; [by rewrite decide_False by tauto|].
  destruct (decide (j = i)) as [->|Hne].
  - rewrite decide_True by done. by apply list_lookup_total_insert_eq.
  - rewrite decide_False by tauto. by apply list_lookup_total_insert_ne.
Qed.

Lemma entry_slot m : MAX_INDEX_0 < m <= MAX_INDEX_1 -> let i := m - 1 - MAX_INDEX_0 in
  0 <= i / 1024 < 50 /\ 0 <= i mod 1024 < 1024.
Proof.
  change MAX_INDEX_0 with 12. change MAX_INDEX_1 with 51212. intros Hm i.
  split; [split; [apply Z.div_pos; lia|apply Z.div_lt_upper_bound; lia]|apply Z.mod_pos_bound; lia].
Qed.

Lemma page_of k : forall ip s R p, index_ok ip s R -> indirect_one ip !! k = Some p -> (k < 50)%nat.
Proof. intros ip s R p K E. apply lookup_lt_Some in E. rewrite (ix_one _ _ _ K) in E. unfold N_LEVEL_ONE in E. lia. Qed.

(** A fresh page for the entries from [MAX_INDEX_0 + 1024 * k] on. *)
Lemma fresh_table n ip s R (k : nat) p a R' : index_ok ip s R -> indirect_one ip !! k = Some 0 ->
  grew n (al s) R a R' -> owned a R' p -> p <> 0 -> (forall p', owned (al s) R p' -> p' <> p) ->
  let ip' := set_indirect (<[k := p]> (indirect_one ip)) ip in
  let s' := FatSt (fsb s) (<[p := replicate (Z.to_nat N_INDIRECT) 0]> (tabs s)) a in
  index_ok ip' s' R' /\ forall m, 1 <= m <= MAX_INDEX_1 -> index_entry ip' s' m = index_entry ip s m.
Proof.
  intros K Ek G Ho Hp Hnew ip' s'. pose proof K as [K1 K2 K3 K4 K5]. pose proof (lookup_lt_Some _ _ _ Ek) as Hk.
  assert (forall k' p', indirect_one ip !! k' = Some p' -> p' <> 0 -> p' <> p) as Hnp.
  { intros k' p' E' Hp'. destruct (K3 k' p' E' Hp') as [Ho' _]. by apply Hnew. }
  split.
  - constructor; cbn [indirect_one set_indirect direct tabs al ip' s']; [done|by rewrite length_insert| | |by eapply gr_rep].
    + intros k' p' E' Hp'. destruct (decide (k' = k)) as [->|Hne].
      * rewrite list_lookup_insert_eq in E' by done. injection E' as <-. split; [done|]. rewrite lookup_insert_eq.
        eexists. split; [done|]. by rewrite length_replicate.
      * rewrite list_lookup_insert_ne in E' by done. destruct (K3 k' p' E' Hp') as (Ho' & t & Et & Ht).
        split; [by eapply gr_owned|]. exists t. split; [|done]. rewrite lookup_insert_ne; [done|]. intros ->. by eapply Hnp.
    + intros k1 k2 p' E1 E2 Hp'. destruct (decide (k1 = k)) as [->|Hn1], (decide (k2 = k)) as [->|Hn2]; [done|..].
      * rewrite list_lookup_insert_eq in E1 by done. rewrite list_lookup_insert_ne in E2 by done. injection E1 as <-. by destruct (Hnp k2 p).
      * rewrite list_lookup_insert_eq in E2 by done. rewrite list_lookup_insert_ne in E1 by done. injection E2 as <-. by destruct (Hnp k1 p).
      * rewrite list_lookup_insert_ne in E1 by done. rewrite list_lookup_insert_ne in E2 by done. by eapply K4.
  - intros m Hm. unfold index_entry. cbn [direct indirect_one set_indirect tabs ip' s'].
    destruct (Z.leb_spec m MAX_INDEX_0) as [|Hm0]; [done|]. destruct (entry_slot m ltac:(lia)) as [Hs1 Hs2].
    set (km := Z.to_nat ((m - 1 - MAX_INDEX_0) / 1024)) in *. destruct (decide (km = k)) as [->|Hne].
    + rewrite list_lookup_total_insert_eq by done. rewrite (list_lookup_total_correct _ _ _ Ek), (proj2 (Z.eqb_neq p 0)) by done.
      rewrite lookup_insert_eq. cbn [Z.eqb default]. apply lookup_total_replicate_2. change N_INDIRECT with 1024. lia.
    + rewrite list_lookup_total_insert_ne by done. set (p' := indirect_one ip !!! km). destruct (Z.eqb_spec p' 0) as [|Hp']; [done|].
      rewrite lookup_insert_ne; [done|]. intros Epg. apply (Hnp km p'); [|done|done].
      unfold p'. apply list_lookup_lookup_total_lt. rewrite K2. change N_LEVEL_ONE with 50. lia.
Qed.

(** Writing into a page that is there. *)
Lemma write_table ip s R l c (k : nat) p t : index_ok ip s R -> MAX_INDEX_0 < l <= MAX_INDEX_1 ->
  let i := l - 1 - MAX_INDEX_0 in k = Z.to_nat (i / 1024) -> indirect_one ip !! k = Some p -> p <> 0 -> tabs s !! p = Some t ->
  let t' := if c =? 0 then t else <[Z.to_nat (i mod 1024) := c]> t in
  let s' := FatSt (fsb s) (<[p := t']> (tabs s)) (al s) in
  index_ok ip s' R /\ forall m, 1 <= m <= MAX_INDEX_1 -> index_entry ip s' m = set_entry l c (index_entry ip s) m.
Proof.
  intros K Hl i Ek E Hp Et t' s'. pose proof K as [K1 K2 K3 K4 K5]. destruct (K3 _ _ E Hp) as (_ & t0 & Et0 & Ht0).
  rewrite Et in Et0. injection Et0 as <-. destruct (entry_slot l Hl) as [Hi1 Hi2]. fold i in Hi1, Hi2. split.
  - constructor; cbn [tabs al s']; [done|done| |done|exact K5]. intros k' p' E' Hp'. destruct (K3 k' p' E' Hp') as (Ho & t2 & Et2 & Ht2).
    split; [done|]. destruct (decide (p' = p)) as [->|Hne].
    + rewrite lookup_insert_eq. eexists. split; [done|]. unfold t'. destruct (c =? 0); [done|by rewrite length_insert].
    + rewrite lookup_insert_ne by congruence. eauto.
  - intros m Hm. unfold set_entry, index_entry. cbn [tabs s'].
    destruct (Z.leb_spec m MAX_INDEX_0) as [Hm0|Hm0]; [by rewrite decide_False by lia|].
    destruct (entry_slot m ltac:(lia)) as [Hs1 Hs2]. set (j := m - 1 - MAX_INDEX_0) in *. set (km := Z.to_nat (j / 1024)).
    assert (km < length (indirect_one ip))%nat as Hkm by (rewrite K2; change N_LEVEL_ONE with 50; lia).
    pose proof (list_lookup_lookup_total_lt _ _ Hkm) as Ekm. set (pm := indirect_one ip !!! km) in *.
    destruct (Z.eqb_spec pm 0) as [Hpm|Hpm].
    { rewrite decide_False; [done|]. intros [-> _]. change km with (Z.to_nat (i / 1024)) in Ekm. congruence. }
    destruct (decide (pm = p)) as [Epq|Hne].
    + rewrite Epq, lookup_insert_eq, Et. cbn [default from_option id]. unfold t'. rewrite lookup_total_set by lia.
      assert (km = k) as Ek' by (eapply K4; [exact Ekm|by rewrite Epq|done]).
      assert (j / 1024 = i / 1024) as Hdd by (unfold km in Ek'; lia).
      pose proof (Z.div_mod i 1024 ltac:(lia)). pose proof (Z.div_mod j 1024 ltac:(lia)).
      destruct (decide (m = l /\ c <> 0)) as [[-> Hc]|Hn]; [by rewrite decide_True|]. rewrite decide_False; [done|].
      intros [He Hc]. apply Hn. split; [unfold i, j in *; lia|done].
    + rewrite lookup_insert_ne by congruence. rewrite decide_False; [done|]. intros [-> _]. apply Hne.
      change km with (Z.to_nat (i / 1024)) in Ekm. congruence.
Qed.

(** The direct entries. *)
Lemma write_direct ip s R l c : index_ok ip s R -> 1 <= l <= MAX_INDEX_0 ->
  let ip' := set_direct (if c =? 0 then direct ip else <[Z.to_nat (l - 1) := c]> (direct ip)) ip in
  index_ok ip' s R /\ forall m, 1 <= m <= MAX_INDEX_1 -> index_entry ip' s m = set_entry l c (index_entry ip s) m.
Proof.
  intros [K1 K2 K3 K4 K5] Hl ip'. change MAX_INDEX_0 with 12 in Hl. split.
  - constructor; cbn [direct indirect_one set_direct ip']; try done. destruct (c =? 0); [done|]. by rewrite length_insert.
  - intros m Hm. unfold index_entry, set_entry. cbn [direct indirect_one set_direct ip']. change MAX_INDEX_0 with 12. destruct (Z.leb_spec m 12).
    + rewrite lookup_total_set by (rewrite K1; unfold N_DIRECT; lia). destruct (decide (m = l /\ c <> 0)) as [[-> Hc]|Hn].
      * by rewrite decide_True.
      * rewrite decide_False; [done|]. intros [? ?]. apply Hn. split; [lia|done].
    + rewrite decide_False; [done|]. intros [? ?]. lia.
Qed.

(** The pages come without gaps when the entries are written one after the other. *)
Definition dense ip : Prop := forall (k k' : nat) p, (k <= k')%nat ->
  indirect_one ip !! k = Some 0 -> indirect_one ip !! k' = Some p -> p = 0.
Definition full_below (l : Z) ip s : Prop := forall m, 1 <= m < l -> index_entry ip s m <> 0.

Lemma fresh_dense ip s l q : MAX_INDEX_0 < l <= MAX_INDEX_1 -> let k := Z.to_nat ((l - 1 - MAX_INDEX_0) / 1024) in
  q <> 0 -> indirect_one ip !! k = Some 0 -> dense ip -> full_below l ip s ->
  dense (set_indirect (<[k := q]> (indirect_one ip)) ip).
Proof.
  intros Hl k Hq Ek D F a b p Hab Ea Eb. cbn [indirect_one set_indirect] in Ea, Eb. pose proof (lookup_lt_Some _ _ _ Ek) as Hk.
  destruct (decide (a = k)) as [->|Hak]; [rewrite list_lookup_insert_eq in Ea by done; congruence|].
  rewrite list_lookup_insert_ne in Ea by done. destruct (decide (a < k)%nat) as [Hlt|Hge].
  - destruct (F (12 + 1024 * Z.of_nat a + 1)) as [].
    { pose proof (Z.mul_div_le (l - 1 - MAX_INDEX_0) 1024 ltac:(lia)). unfold MAX_INDEX_0, N_DIRECT in *. lia. }
    unfold index_entry. change MAX_INDEX_0 with 12. destruct (Z.leb_spec (12 + 1024 * Z.of_nat a + 1) 12); [lia|].
    replace ((12 + 1024 * Z.of_nat a + 1 - 1 - 12) / 1024) with (Z.of_nat a) by (apply Z.div_unique with 0; lia).
    by rewrite Nat2Z.id, (list_lookup_total_correct _ _ _ Ea).
  - rewrite list_lookup_insert_ne in Eb by lia. exact (D a b p Hab Ea Eb).
Qed.

Definition index_page ip (p : Z) : Prop := p <> 0 /\ exists k : nat, indirect_one ip !! k = Some p.

(** What a call may do to the file and the volume when only the index changes. *)
Record indexed (n : nat) ip s R ip' s' R' : Prop := {
  in_ok : index_ok ip' s' R';
  in_file : same_file ip ip';
  in_fsb : fsb s' = fsb s;
  in_grew : grew n (al s) R (al s') R';
  in_new p : index_page ip' p -> index_page ip p \/ ~ owned (al s) R p
}.

Lemma indexed_refl n ip s R : index_ok ip s R -> indexed n ip s R ip s R.
Proof. intros K. constructor; [done|done|done| |by left]. apply grew_refl. by eapply ix_alloc. Qed.
Lemma indexed_le n m ip s R ip' s' R' : indexed n ip s R ip' s' R' -> (n <= m)%nat -> indexed m ip s R ip' s' R'.
Proof. intros [] Hm. constructor; try done. by eapply grew_le. Qed.
Lemma indexed_trans n m ip1 s1 R1 ip2 s2 R2 ip3 s3 R3 :
  indexed n ip1 s1 R1 ip2 s2 R2 -> indexed m ip2 s2 R2 ip3 s3 R3 -> indexed (n + m) ip1 s1 R1 ip3 s3 R3.
Proof.
  intros [_ (F1 & F2 & F3) F4 F5 F6] [G1 (G2 & G3 & G4) G5 G6 G7].
  constructor; [done|split_and!; congruence|congruence|by eapply grew_trans|].
  intros p Hp. destruct (G7 p Hp) as [Hp2|Hp2]; [by apply F6|]. right. intros Ho. by apply Hp2, (gr_owned _ _ _ _ _ F5).
Qed.

(** Its result is a map's; it panics only for want of a page. *)
Lemma ctl_ok ip s R l c : index_ok ip s R -> 1 <= l <= MAX_INDEX_1 ->
  (fat32_ctl_index_table ip l c s = Panic /\ starved 1 (al s)) \/
  exists ip' s' R', fat32_ctl_index_table ip l c s = Done (if c =? 0 then INDEX_LOOKUP (index_entry ip s l) else c, ip', s') /\
    indexed 1 ip s R ip' s' R' /\ (dense ip -> full_below l ip s -> dense ip') /\
    forall m, 1 <= m <= MAX_INDEX_1 -> index_entry ip' s' m = set_entry l c (index_entry ip s) m.
Proof.
  intros K Hl. pose proof K as [K1 K2 K3 K4 K5]. unfold fat32_ctl_index_table.
  destruct (Z.leb_spec 1 l), (Z.leb_spec l MAX_INDEX_3) as [_|H3]; try lia.
  2: { assert (MAX_INDEX_1 < MAX_INDEX_3) by (vm_compute; reflexivity). lia. }
  cbn [andb]. ocbn. rewrite (proj2 (Z.leb_le l MAX_INDEX_1)) by lia. destruct (Z.leb_spec l MAX_INDEX_0) as [Hd|Hd].
  - right. rewrite get_index_val_ok by (rewrite K1; unfold MAX_INDEX_0, N_DIRECT in *; lia). ocbn.
    destruct (write_direct ip s R l c K ltac:(lia)) as [J Hent]. do 3 eexists. split.
    { unfold index_entry. by rewrite (proj2 (Z.leb_le l MAX_INDEX_0)). }
    split; [|split; [done|exact Hent]]. constructor; [exact J|done|done|by apply grew_refl|by left].
  - set (i := l - 1 - MAX_INDEX_0) in *. change OFFSET_LEVEL_1 with 1024. destruct (entry_slot l ltac:(lia)) as [Hdiv Hmod]. fold i in Hdiv, Hmod.
    rewrite load_at_ok by (rewrite K2; unfold N_LEVEL_ONE; lia). ocbn. set (k := Z.to_nat (i / 1024)).
    assert (k < length (indirect_one ip))%nat as Hk by (rewrite K2; unfold N_LEVEL_ONE; lia).
    pose proof (list_lookup_lookup_total_lt _ _ Hk) as Ek. set (p := indirect_one ip !!! k) in *.
    assert (forall ip1 s1 R1 q, indexed 1 ip s R ip1 s1 R1 -> indirect_one ip1 !! k = Some q -> q <> 0 ->
      (forall m, 1 <= m <= MAX_INDEX_1 -> index_entry ip1 s1 m = index_entry ip s m) ->
      exists s' R', (t ← deref (tabs s1 !! q); '(v, t) ← get_index_val t (IDX_OFFSET (i mod 1024)) c;
        Done (v, ip1, FatSt (fsb s1) (<[q := t]> (tabs s1)) (al s1))) =
          Done (if c =? 0 then INDEX_LOOKUP (index_entry ip s l) else c, ip1, s') /\ indexed 1 ip s R ip1 s' R' /\
        forall m, 1 <= m <= MAX_INDEX_1 -> index_entry ip1 s' m = set_entry l c (index_entry ip s) m) as Hrest.
    { intros ip1 s1 R1 q [J Hsf Hsb Hg Hnp] Eq Hq Hent. destruct (ix_page _ _ _ J k q Eq Hq) as (_ & t & Et & Ht). rewrite Et. ocbn.
      rewrite IDX_OFFSET_small, get_index_val_ok by lia. ocbn.
      destruct (write_table ip1 s1 R1 l c k q t J ltac:(lia) eq_refl Eq Hq Et) as [J' Hent'].
      do 2 eexists. split; [|split; [constructor; [exact J'|done|done|exact Hg|exact Hnp]|]].
      - rewrite <- Hent by done. unfold index_entry. destruct (Z.leb_spec l MAX_INDEX_0); [lia|]. fold i k.
        by rewrite (list_lookup_total_correct _ _ _ Eq), (proj2 (Z.eqb_neq q 0)), Et.
      - intros m Hm. rewrite Hent' by done. unfold set_entry. by rewrite Hent. }
    destruct (Z.eqb_spec p 0) as [Hp|Hp].
    + rewrite Hp in Ek. destruct (small_alloc (al s) R PGSIZE K5 ltac:(by vm_compute)) as [[En Hst]|(q & a & R1 & Eq & G & Ho & Hq & Hnew)];
        unfold fat32_page_alloc; [left; by rewrite En|right]. rewrite Eq. ocbn. rewrite store_at_ok by (rewrite K2; unfold N_LEVEL_ONE; lia). ocbn. fold k.
      destruct (fresh_table 1 ip s R k q a R1 K Ek G Ho Hq Hnew) as [J Hent].
      assert (forall p', index_page (set_indirect (<[k := q]> (indirect_one ip)) ip) p' -> index_page ip p' \/ ~ owned (al s) R p') as Hnp.
      { intros p' [Hp' [k' Ek']]. cbn [indirect_one set_indirect] in Ek'. destruct (decide (k' = k)) as [->|Hne].
        - rewrite list_lookup_insert_eq in Ek' by done. injection Ek' as <-. right. intros Hown. by apply (Hnew q).
        - rewrite list_lookup_insert_ne in Ek' by done. left. split; [done|by exists k']. }
      edestruct Hrest as (s' & R' & E & Hx & Hy); [constructor; [exact J|done|done|exact G|exact Hnp]|by apply list_lookup_insert_eq|done|exact Hent|].
      exists (set_indirect (<[k := q]> (indirect_one ip)) ip), s', R'. split; [exact E|]. split; [done|]. split; [|done].
      intros D F. exact (fresh_dense ip s l q ltac:(lia) Hq Ek D F).
    + right. destruct (Hrest ip s R p (indexed_refl _ _ _ _ K) Ek Hp ltac:(done)) as (s' & R' & E & Hx & Hy). ocbn.
      exists ip, s', R'. split; [exact E|]. split; [done|]. split; done.
Qed.

(** ** Cluster chains *)

(** The clusters [l] that follow each other in the table from [c] to an end mark. *)
Fixpoint chain (sb : fat_sb) (c : Z) (l : list Z) : Prop :=
  match l with
  | [] => ISEOF c = true
  | x :: l => c = x /\ 2 <= x <= FAT_CLUSTER_MAX sb /\ ISEOF x = false /\
      exists n, fat_table sb !! Z.to_nat x = Some n /\ n <> 0 /\ chain sb n l
  end.

Lemma chain_det sb l1 : forall c l2, chain sb c l1 -> chain sb c l2 -> l1 = l2.
Proof.
  induction l1 as [|x l1 IH]; intros c l2 H1 H2; destruct l2 as [|y l2]; cbn in *; [done|..].
  - destruct H2 as (-> & _ & H2 & _). congruence.
  - destruct H1 as (-> & _ & H1 & _). congruence.
  - destruct H1 as (-> & _ & _ & n & E & _ & H1), H2 as (-> & _ & _ & m & E' & _ & H2). f_equal.
    assert (m = n) as -> by congruence. by eapply IH.
Qed.

Lemma chain_suffix sb l1 : forall c l2, chain sb c (l1 ++ l2) -> exists d, chain sb d l2.
Proof.
  induction l1 as [|x l1 IH]; intros c l2 H; [eauto|]. destruct H as (_ & _ & _ & n & _ & _ & H). by eapply IH.
Qed.

Lemma chain_NoDup sb l : forall c, chain sb c l -> NoDup l.
Proof.
  induction l as [|x l IH]; intros c H; [constructor|]. pose proof H as (_ & _ & _ & n & _ & _ & Hl). constructor; [|by eapply IH].
  intros (l1 & l2 & ->)%list_elem_of_split. destruct (chain_suffix sb (x :: l1) c (x :: l2) H) as [d Hd].
  pose proof Hd as [-> _]. pose proof H as [-> _]. pose proof (chain_det _ _ _ _ H Hd) as E.
  apply (f_equal length) in E. cbn in E. rewrite length_app in E. cbn in E. lia.
Qed.

Lemma chain_length sb l c : chain sb c l -> (length l <= length (fat_table sb))%nat.
Proof.
  intros H. transitivity (length (Z.to_nat <$> l)); [by rewrite length_fmap|].
  rewrite <- (length_seq (length (fat_table sb)) 0). apply NoDup_incl_length.
  - apply NoDup_ListNoDup, NoDup_fmap_2_strong; [|by eapply chain_NoDup].
    enough (forall x, x ∈ l -> 2 <= x) as Hx by (intros x y ?%Hx ?%Hx ?; lia). clear -H. revert c H.
    induction l as [|y l IH]; intros c H x; [by intros ?%not_elem_of_nil|]. destruct H as (_ & Hy & _ & n & _ & _ & H).
    intros [->|?]%elem_of_cons; [lia|by eapply IH].
  - intros k (x & -> & Hx)%list_elem_of_In%list_elem_of_fmap. apply in_seq. split; [lia|]. clear -H Hx. revert c H.
    induction l as [|y l IH]; intros c H; [by apply not_elem_of_nil in Hx|]. destruct H as (_ & _ & _ & n & En & _ & H).
    apply elem_of_cons in Hx as [->|Hx]; [|by eapply IH]. by apply lookup_lt_Some in En.
Qed.

Lemma cache_get_ok sb x n : 2 <= x <= FAT_CLUSTER_MAX sb -> fat_table sb !! Z.to_nat x = Some n -> n <> 0 ->
  fat32_fat_cache_get x sb = Done n.
Proof.
  intros Hx E Hn. unfold fat32_fat_cache_get, load_at. destruct (Z.leb_spec 2 x), (Z.leb_spec x (FAT_CLUSTER_MAX sb)); try lia.
  cbn [andb negb]. destruct (Z.ltb_spec x 0); [lia|]. rewrite E. ocbn. by rewrite (proj2 (Z.eqb_neq n 0)).
Qed.

(** *** Walking over the chain fills the index *)

(** The entries after [n] clusters of [l] were written from [cnt] on. *)
Definition filled (l : list Z) (cnt : Z) (f : Z -> Z) (m : Z) : Z :=
  if (cnt <? m) && (m <=? cnt + Z.of_nat (length l)) then l !!! Z.to_nat (m - cnt - 1) else f m.

Lemma filled_cons x l cnt f m : x <> 0 -> filled l (cnt + 1) (set_entry (cnt + 1) x f) m = filled (x :: l) cnt f m.
Proof.
  intros Hx. unfold filled, set_entry. cbn [length].
  destruct (Z.ltb_spec (cnt + 1) m), (Z.ltb_spec cnt m), (Z.leb_spec m (cnt + 1 + Z.of_nat (length l))),
    (Z.leb_spec m (cnt + Z.of_nat (S (length l)))); cbn [andb]; try lia.
  - replace (Z.to_nat (m - cnt - 1)) with (S (Z.to_nat (m - (cnt + 1) - 1))) by lia. done.
  - by rewrite decide_False by lia.
  - rewrite decide_True by (split; [lia|done]). replace m with (cnt + 1) by lia. by replace (Z.to_nat (cnt + 1 - cnt - 1)) with O by lia.
  - by rewrite decide_False by lia.
Qed.

Definition last_from (prev : Z) (l : list Z) : Z := default prev (last l).
Lemma last_from_cons x prev l : last_from prev (x :: l) = last_from x l.
Proof. unfold last_from. destruct l as [|y l]; [done|]. rewrite last_cons_cons. by destruct (last (y :: l)) eqn:E; [|apply last_None in E]. Qed.

(** How many of the clusters the loop passes. *)
Definition passed (num : Z) (cnt : Z) (l : list Z) : list Z :=
  if num =? 0 then l else take (Z.to_nat (num - cnt - 1)) l.

Lemma travel_loop_ok num l : 0 <= num -> forall fuel c cnt prev ip s R, index_ok ip s R -> chain (fsb s) c l -> (length l <= fuel)%nat ->
  0 <= cnt -> cnt + Z.of_nat (length l) <= MAX_INDEX_1 -> (num = 0 \/ cnt < num) -> dense ip -> full_below (cnt + 1) ip s ->
  (travel_loop fuel num c cnt prev ip s = Panic /\ starved (length l) (al s)) \/
  exists ip' s' R' c', let p := passed num cnt l in
    travel_loop fuel num c cnt prev ip s =
      Done (c', cnt + Z.of_nat (length p) + (if bool_decide (length p = length l) then 0 else 1), last_from prev p, ip', s') /\
    indexed (length l) ip s R ip' s' R' /\ dense ip' /\ chain (fsb s) c' (drop (length p) l) /\
    forall m, 1 <= m <= MAX_INDEX_1 -> index_entry ip' s' m = filled p cnt (index_entry ip s) m.
Proof.
  intros Hnum. induction l as [|x l IH]; intros fuel c cnt prev ip s R K H Hf Hc Hm Hn D F.
  - right. exists ip, s, R, c. assert (passed num cnt [] = []) as -> by (unfold passed; by destruct (num =? 0); rewrite ?take_nil).
    destruct fuel; cbn [travel_loop]; rewrite H; cbn; rewrite !Z.add_0_r; split_and!; try done; try by apply indexed_refl.
    all: intros m Hm'; unfold filled; destruct (Z.ltb_spec cnt m), (Z.leb_spec m (cnt + Z.of_nat (length (@nil Z)))); cbn in *; try done; lia.
  - destruct H as (-> & Hx & He & n & En & Hn0 & H). cbn [length] in Hf, Hm. destruct fuel as [|fuel]; [lia|]. cbn [travel_loop]. rewrite He.
    destruct ((cnt + 1 <? num) || (num =? 0)) eqn:Eg.
    + assert (passed num cnt (x :: l) = x :: passed num (cnt + 1) l) as ->.
      { unfold passed. destruct (Z.eqb_spec num 0); [done|]. apply orb_true_iff in Eg as [Eg%Z.ltb_lt|Eg]; [|done].
        replace (Z.to_nat (num - cnt - 1)) with (S (Z.to_nat (num - (cnt + 1) - 1))) by lia. done. }
      destruct (ctl_ok ip s R (cnt + 1) x K ltac:(lia)) as [[-> Hst]|(ip1 & s1 & R1 & -> & X1 & D1 & E1)].
      { left. split; [done|]. eapply starved_le; [done|cbn; lia]. }
      ocbn.
      rewrite (in_fsb _ _ _ _ _ _ _ X1). rewrite (cache_get_ok _ x n) by done. ocbn.
      destruct (IH fuel n (cnt + 1) x ip1 s1 R1) as [[-> Hst]|(ip2 & s2 & R2 & c' & E & X2 & D2 & Hc' & E2)].
      { by eapply in_ok. } { by rewrite (in_fsb _ _ _ _ _ _ _ X1). } { lia. } { lia. } { lia. }
      { apply orb_true_iff in Eg as [Eg%Z.ltb_lt|Eg%Z.eqb_eq]; lia. } { by apply D1. }
      { intros m Hm'. rewrite E1 by lia. unfold set_entry. destruct (decide (m = cnt + 1 /\ x <> 0)); [lia|]. apply F. lia. }
      { left. split; [done|]. eapply starved_later; [by eapply in_grew|done|done]. }
      right. exists ip2, s2, R2, c'. cbn [length drop]. split_and!.
      * rewrite E, last_from_cons. f_equal. do 4 f_equal. case_bool_decide as Hb1; case_bool_decide as Hb2; lia.
      * by eapply (indexed_trans 1).
      * done.
      * by rewrite (in_fsb _ _ _ _ _ _ _ X1) in Hc'.
      * intros m Hm'. rewrite E2 by done. rewrite <- filled_cons by lia. unfold filled. by rewrite E1 by done.
    + right. apply orb_false_iff in Eg as [Eg%Z.ltb_ge En0%Z.eqb_neq]. assert (num = cnt + 1) as -> by lia.
      assert (passed (cnt + 1) cnt (x :: l) = []) as ->.
      { unfold passed. rewrite (proj2 (Z.eqb_neq _ _)) by lia. by replace (Z.to_nat (cnt + 1 - cnt - 1)) with O by lia. }
      exists ip, s, R, x. cbn [length drop]. rewrite bool_decide_eq_false_2 by done. cbn [Z.of_nat]. rewrite Z.add_0_r. split_and!; [done|by apply indexed_refl|done| |].
      * split_and!; try done; try lia. eauto.
      * intros m Hm'. unfold filled. destruct (Z.ltb_spec cnt m), (Z.leb_spec m (cnt + Z.of_nat (length (@nil Z)))); cbn in *; try done; lia.
Qed.

(** ** Files *)

(** The file holds the clusters [l], all of them in its index. *)
Record file_ok ip s R (l : list Z) : Prop := {
  fo_index : index_ok ip s R;
  fo_chain : chain (fsb s) (cluster_start ip) l;
  fo_entries m : 1 <= m <= MAX_INDEX_1 -> index_entry ip s m = filled l 0 (fun _ => 0) m;
  fo_cnt : cluster_cnt ip = Z.of_nat (length l);
  fo_end : cluster_end ip = last_from 0 l;
  fo_room : Z.of_nat (length l) < MAX_INDEX_1;
  fo_dense : dense ip
}.

Lemma chain_elem sb l : forall c k x, chain sb c l -> l !! k = Some x ->
  2 <= x <= FAT_CLUSTER_MAX sb /\ ISEOF x = false.
Proof.
  induction l as [|y l IH]; intros c k x H E; [done|]. destruct H as (_ & Hy & He & n & _ & _ & H).
  destruct k as [|k]; [by injection E as <-|by eapply IH].
Qed.

Lemma file_entry ip s R l m : file_ok ip s R l -> 1 <= m <= MAX_INDEX_1 ->
  INDEX_LOOKUP (index_entry ip s m) = default EOC (l !! Z.to_nat (m - 1)).
Proof.
  intros K Hm. rewrite (fo_entries _ _ _ _ K) by done. unfold filled. rewrite Z.sub_0_r.
  destruct (Z.ltb_spec 0 m); [|lia]. destruct (Z.leb_spec m (0 + Z.of_nat (length l))); cbn [andb].
  - destruct (lookup_lt_is_Some_2 l (Z.to_nat (m - 1)) ltac:(lia)) as [x E]. rewrite E, (list_lookup_total_correct _ _ _ E). cbn [default from_option id].
    destruct (chain_elem _ _ _ _ _ (fo_chain _ _ _ _ K) E) as [Hx _]. unfold INDEX_LOOKUP. by rewrite (proj2 (Z.eqb_neq x 0)) by lia.
  - by rewrite lookup_ge_None_2 by lia.
Qed.

(** What only changes the index or the allocator keeps the file. *)
Lemma file_kept n ip s R l ip' s' R' : file_ok ip s R l -> indexed n ip s R ip' s' R' -> dense ip' ->
  (forall m, 1 <= m <= MAX_INDEX_1 -> index_entry ip' s' m = index_entry ip s m) -> file_ok ip' s' R' l.
Proof.
  intros [K1 K2 K3 K4 K5 K6 K7] [J1 (J2 & J3 & J4) J5 _ _] D Hent. constructor; [done|by rewrite J5, J2| |congruence|congruence|done|done].
  intros m Hm. rewrite Hent by done. by apply K3.
Qed.

Lemma file_full ip s R l m : file_ok ip s R l -> m <= Z.of_nat (length l) + 1 -> full_below m ip s.
Proof.
  intros K Hm m' Hm'. pose proof (fo_room _ _ _ _ K). rewrite (fo_entries _ _ _ _ K) by lia. unfold filled.
  rewrite (proj2 (Z.ltb_lt 0 m')), (proj2 (Z.leb_le m' _)) by lia. cbn [andb].
  destruct (lookup_lt_is_Some_2 l (Z.to_nat (m' - 0 - 1)) ltac:(lia)) as [x E]. rewrite (list_lookup_total_correct _ _ _ E).
  destruct (chain_elem _ _ _ _ _ (fo_chain _ _ _ _ K) E). lia.
Qed.

Lemma lookup_cluster ip s R l m : file_ok ip s R l -> 1 <= m <= Z.of_nat (length l) + 1 ->
  (fat32_ctl_index_table ip m 0 s = Panic /\ starved 1 (al s)) \/
  exists ip' s' R', fat32_ctl_index_table ip m 0 s = Done (default EOC (l !! Z.to_nat (m - 1)), ip', s') /\
    indexed 1 ip s R ip' s' R' /\ file_ok ip' s' R' l.
Proof.
  intros K Hm. pose proof (fo_room _ _ _ _ K) as Hroom.
  destruct (ctl_ok ip s R m 0 (fo_index _ _ _ _ K) ltac:(lia)) as [?|(ip' & s' & R' & -> & X & D & E)]; [by left|right].
  exists ip', s', R'. cbn [Z.eqb]. rewrite (file_entry _ _ _ l) by (done || lia). split; [done|]. split; [done|].
  eapply file_kept; [done|done|apply D; [apply K|eapply file_full; [done|lia]]|]. intros m' Hm'. rewrite E by done. unfold set_entry. by rewrite decide_False by tauto.
Qed.

Lemma index_grew n ip s R a R' : index_ok ip s R -> grew n (al s) R a R' -> indexed n ip s R ip (FatSt (fsb s) (tabs s) a) R'.
Proof.
  intros [K1 K2 K3 K4 K5] G. constructor; [|done|done|done|by left]. constructor; cbn [tabs al]; try done; [|by eapply gr_rep].
  intros k p E Hp. destruct (K3 k p E Hp) as [? ?]. split; [by eapply gr_owned|done].
Qed.

(** *** Volumes *)

Record volume_ok (sb : fat_sb) : Prop := {
  vo_sector : 0 < sector_size sb /\ (sector_size sb | PGSIZE);
  vo_cluster : 0 < sectors_per_block sb < 256;
  vo_fats : 0 < fatbase sb /\ 0 <= n_fats sb /\ 0 <= n_sectors_fat sb;
  vo_end : fatbase sb + n_fats sb * n_sectors_fat sb <= n_sectors sb < 2 ^ 32
}.

Definition data_start (sb : fat_sb) : Z := fatbase sb + n_fats sb * n_sectors_fat sb.

Lemma FirstDataSector_eq sb : volume_ok sb -> FirstDataSector sb = data_start sb.
Proof.
  intros [[V1 V2] V3 V4 V5]. unfold FirstDataSector, RootDirSectors. apply Z.divide_pos_le in V2; [|done]. unfold PGSIZE in V2.
  rewrite (u32_small (0 * 32 + _)), (u32_small (_ * _)) by nia.
  replace ((0 * 32 + (sector_size sb - 1)) / sector_size sb) with 0 by (symmetry; apply Z.div_small; lia).
  rewrite Z.add_0_r. unfold data_start. apply u32_small. nia.
Qed.

Lemma FAT_CLUSTER_MAX_eq sb : volume_ok sb -> FAT_CLUSTER_MAX sb = (n_sectors sb - data_start sb) / sectors_per_block sb + 1.
Proof.
  intros V. pose proof V as [[V1 V2] V3 V4 V5]. unfold FAT_CLUSTER_MAX, CountofClusters, DataSec. rewrite FirstDataSector_eq by done.
  assert (0 < data_start sb <= n_sectors sb) as Hd by (unfold data_start; nia). rewrite (u32_small (_ - _)) by lia. apply u32_small.
  pose proof (Z.div_pos (n_sectors sb - data_start sb) (sectors_per_block sb) ltac:(lia) ltac:(lia)).
  pose proof (Z.div_le_upper_bound (n_sectors sb - data_start sb) (sectors_per_block sb) (n_sectors sb - data_start sb) ltac:(lia) ltac:(nia)). lia.
Qed.

(** The sectors of a cluster of the volume lie behind the tables and before its end. *)
Lemma first_sector_ok sb c : volume_ok sb -> 2 <= c <= FAT_CLUSTER_MAX sb ->
  FirstSectorofCluster sb c = (c - 2) * sectors_per_block sb + data_start sb /\
  0 < data_start sb <= FirstSectorofCluster sb c /\ FirstSectorofCluster sb c + sectors_per_block sb <= n_sectors sb.
Proof.
  intros V Hc. pose proof (FAT_CLUSTER_MAX_eq sb V) as Em. pose proof V as [[V1 V2] V3 V4 V5].
  assert (0 < data_start sb <= n_sectors sb) as Hd by (unfold data_start; nia).
  pose proof (Z.mul_div_le (n_sectors sb - data_start sb) (sectors_per_block sb) ltac:(lia)) as Hmul. rewrite Em in Hc.
  set (q := (n_sectors sb - data_start sb) / sectors_per_block sb) in *. unfold FirstSectorofCluster. rewrite FirstDataSector_eq by done.
  assert (0 <= (c - 2) * sectors_per_block sb <= sectors_per_block sb * q - sectors_per_block sb) as Hx by nia.
  assert (c - 2 < q) as Hq by lia.
  assert (q < 2 ^ 32) as Hq32 by nia.
  rewrite (u32_small (c - 2)) by lia. rewrite (u32_small (_ * _)) by lia. rewrite u32_small by lia. lia.
Qed.

(** *** Sectors of a file *)

Definition sectors_of (sb : fat_sb) (l : list Z) : list Z :=
  l ≫= (fun c => seqZ (FirstSectorofCluster sb c) (sectors_per_block sb)).
Definition blocks_of (vecs : list bio_vec) : list Z := vecs ≫= (fun v => seqZ v.1.2 v.2).

Lemma sectors_of_cons sb c l : sectors_of sb (c :: l) = seqZ (FirstSectorofCluster sb c) (sectors_per_block sb) ++ sectors_of sb l.
Proof. done. Qed.
Lemma sectors_of_length sb l : 0 < sectors_per_block sb -> Z.of_nat (length (sectors_of sb l)) = Z.of_nat (length l) * sectors_per_block sb.
Proof. intros H. induction l as [|c l IH]; [done|]. rewrite sectors_of_cons, length_app, length_seqZ. cbn [length]. lia. Qed.
Lemma blocks_of_app v w : blocks_of (v ++ w) = blocks_of v ++ blocks_of w.
Proof. apply bind_app. Qed.

Lemma drop_seqZ m n i : 0 <= i <= n -> drop (Z.to_nat i) (seqZ m n) = seqZ (m + i) (n - i).
Proof.
  intros Hi. replace n with (i + (n - i)) at 1 by lia. rewrite seqZ_app by lia. rewrite drop_app_length'; [done|]. rewrite length_seqZ. lia.
Qed.
Lemma take_seqZ m n i : 0 <= i <= n -> take (Z.to_nat i) (seqZ m n) = seqZ m i.
Proof.
  intros Hi. replace n with (i + (n - i)) at 1 by lia. rewrite seqZ_app by lia. rewrite take_app_length'; [done|]. rewrite length_seqZ. lia.
Qed.

(** One round of the loop: the part of the first cluster, and the rest. *)
Lemma take_sectors sb c l i t : 0 <= i < sectors_per_block sb -> 0 < t ->
  let b := Z.min (sectors_per_block sb - i) t in
  take (Z.to_nat t) (drop (Z.to_nat i) (sectors_of sb (c :: l))) =
  seqZ (FirstSectorofCluster sb c + i) b ++ take (Z.to_nat (t - b)) (sectors_of sb l).
Proof.
  intros Hi Ht b. rewrite sectors_of_cons, drop_app_le by (rewrite length_seqZ; lia). rewrite drop_seqZ by lia.
  destruct (Z.le_gt_cases (sectors_per_block sb - i) t) as [H|H].
  - replace b with (sectors_per_block sb - i) by lia. rewrite take_app_ge by (rewrite length_seqZ; lia). rewrite length_seqZ. do 2 f_equal. lia.
  - replace b with t by lia. rewrite take_app_le by (rewrite length_seqZ; lia). rewrite take_seqZ by lia.
    replace (Z.to_nat (t - t)) with O by lia. by rewrite take_0, app_nil_r.
Qed.

(** *** The block vectors *)

(** Each vector has a page of its own, which is no index page, and a length. *)
Definition vecs_owned ip (a : A) R (vecs : list bio_vec) : Prop :=
  Forall (fun v => owned a R v.1.1 /\ ~ index_page ip v.1.1 /\ 0 <= v.2) vecs /\ NoDup ((fun v => v.1.1) <$> vecs).

(** The last vector lies on the volume and is not the empty one of a fresh page. *)
Definition vecs_ok (sb : fat_sb) ip (a : A) R (vecs : list bio_vec) : Prop :=
  vecs_owned ip a R vecs /\ match vecs with [] => True | v :: _ => 0 < v.1.2 /\ 0 <= v.2 /\ v.1.2 + v.2 <= n_sectors sb end.

Lemma vec_round ip s R l vecs first start n : file_ok ip s R l -> volume_ok (fsb s) -> vecs_ok (fsb s) ip (al s) R vecs ->
  0 < start -> 0 < n -> start + n <= n_sectors (fsb s) -> (vecs <> [] -> start = first) ->
  (vec_for first vecs s = Panic /\ starved 1 (al s)) \/
  exists vecs' s' R', vec_for first vecs s = Done (vecs', s') /\ indexed 1 ip s R ip s' R' /\ file_ok ip s' R' l /\
    vecs_ok (fsb s) ip (al s') R' (vec_add start n vecs') /\
    blocks_of (rev (vec_add start n vecs')) = blocks_of (rev vecs) ++ seqZ start n.
Proof.
  intros K V [[Ho Hnd] Hh] Hs Hn Hle Hst. pose proof (vo_end _ V) as [_ Hmax].
  unfold vec_for. destruct (match vecs with [] => true | v :: _ => negb (CLUSTER_ADJACENT v first) end) eqn:Eadj.
  - destruct (small_alloc (al s) R sizeof_bio_vec (ix_alloc _ _ _ (fo_index _ _ _ _ K)) ltac:(by vm_compute))
      as [[-> Hst']|(p & a & R' & -> & G & Hp & Hp0 & Hnew)]; [by left|right]. ocbn.
    pose proof (index_grew 1 ip s R a R' (fo_index _ _ _ _ K) G) as X. do 3 eexists. split; [done|]. split; [exact X|].
    split; [eapply file_kept; [done|done|apply K|done]|]. cbn [vec_add Z.eqb]. split.
    + split; [|cbn; lia]. split.
      * constructor; [split; [done|split; [|cbn; lia]]|].
        { intros [Hnz [k Ek]]. cbn [fst] in *. destruct (ix_page _ _ _ (fo_index _ _ _ _ K) k p Ek Hnz) as [Hop _]. by apply (Hnew p). }
        eapply Forall_impl; [exact Ho|]. intros v [? ?]. split; [by apply (gr_owned _ _ _ _ _ G)|done].
      * cbn [fmap list_fmap fst]. constructor; [|done]. intros (v & Ev & Hv)%list_elem_of_fmap.
        rewrite Forall_forall in Ho. destruct (Ho v Hv) as [Hov _]. rewrite <- Ev in Hov. by apply (Hnew p).
    + cbn [rev]. rewrite blocks_of_app. f_equal. unfold blocks_of. cbn. by rewrite app_nil_r.
  - right. destruct vecs as [|[[p b] len] vecs]; [done|]. apply negb_false_iff in Eadj. unfold CLUSTER_ADJACENT in Eadj. cbn in Eadj, Hh.
    rewrite u32_small in Eadj by lia. apply Z.eqb_eq in Eadj. specialize (Hst ltac:(done)). subst first.
    exists ((p, b, len) :: vecs), s, R. split; [done|]. split; [apply indexed_refl, K|]. split; [done|].
    cbn [vec_add]. rewrite (proj2 (Z.eqb_neq b 0)) by lia. rewrite u32_small by lia. split.
    + split; [|cbn; lia]. apply Forall_cons_1 in Ho as [Hp Ho]. split; [constructor; [|done]; destruct Hp as (? & ? & ?); split_and!; [done|done|cbn; lia]|exact Hnd].
    + cbn [rev]. rewrite !blocks_of_app, <- app_assoc. f_equal. unfold blocks_of. cbn. rewrite !app_nil_r, seqZ_app by lia. by rewrite Eadj.
Qed.

Lemma owned_grew n ip s R ip' s' R' vecs sb : vecs_ok sb ip (al s) R vecs -> indexed n ip s R ip' s' R' ->
  vecs_ok sb ip' (al s') R' vecs.
Proof.
  intros [[Ho Hnd] Hh] X. split; [|done]. split; [|done]. eapply Forall_impl; [exact Ho|]. intros v (Hv & Hi & Hl).
  split_and!; [by apply (gr_owned _ _ _ _ _ (in_grew _ _ _ _ _ _ _ X))| |done]. intros Hp. by destruct (in_new _ _ _ _ _ _ _ X _ Hp).
Qed.

(** The loop of [fat32_get_block] over the clusters [r] from number [l_num] on, as
    long as none is to be appended. *)
Lemma block_loop_ok alloc tot l : 0 <= tot < 2 ^ 32 -> forall r fuel init l_num c cur vecs ip s R,
  file_ok ip s R l -> volume_ok (fsb s) -> vecs_ok (fsb s) ip (al s) R vecs -> r = drop (Z.to_nat (l_num - 1)) l -> 1 <= l_num ->
  c = default EOC (head r) -> 0 <= init < sectors_per_block (fsb s) -> (vecs <> [] -> init = 0) -> 0 <= cur <= tot ->
  (Z.to_nat (tot - cur) <= fuel)%nat ->
  (alloc = false \/ tot - cur <= Z.of_nat (length (sectors_of (fsb s) r)) - init) ->
  (block_loop fuel alloc tot init l_num c cur vecs ip s = Panic /\ starved (2 * Z.to_nat (tot - cur)) (al s)) \/
  exists vecs' ip' s' R', let bs := take (Z.to_nat (tot - cur)) (drop (Z.to_nat init) (sectors_of (fsb s) r)) in
    block_loop fuel alloc tot init l_num c cur vecs ip s = Done (cur + Z.of_nat (length bs), vecs', ip', s') /\
    indexed (2 * Z.to_nat (tot - cur)) ip s R ip' s' R' /\ file_ok ip' s' R' l /\ vecs_owned ip' (al s') R' vecs' /\
    blocks_of (rev vecs') = blocks_of (rev vecs) ++ bs.
Proof.
  intros Htot. induction r as [|x r IH]; intros fuel init l_num c cur vecs ip s R K V Hv Er Hl Ec Hi Hv0 Hcur Hf Hal.
  - right. exists vecs, ip, s, R. cbv zeta. change (sectors_of (fsb s) []) with (@nil Z). rewrite drop_nil, take_nil, app_nil_r. cbn [length Z.of_nat]. rewrite Z.add_0_r. subst c. split.
    + destruct fuel; done.
    + split; [apply indexed_refl, K|]. split; [done|]. split; [apply Hv|done].
  - destruct (Z.ltb_spec cur tot) as [Hlt|Hge].
    2: { right. exists vecs, ip, s, R. cbv zeta. replace (Z.to_nat (tot - cur)) with O by lia. rewrite take_0, app_nil_r. cbn [length Z.of_nat]. rewrite Z.add_0_r. split.
      - destruct fuel; cbn [block_loop]; rewrite (proj2 (Z.ltb_ge cur tot)), orb_true_r by lia; done.
      - split; [apply indexed_refl, K|]. split; [done|]. split; [apply Hv|done]. }
    destruct fuel as [|fuel]; [lia|]. cbn [default head from_option id] in Ec. subst c.
    assert (l !! Z.to_nat (l_num - 1) = Some x) as Ex by (by rewrite <- (Nat.add_0_r (Z.to_nat _)), <- lookup_drop, <- Er).
    destruct (chain_elem _ _ _ _ _ (fo_chain _ _ _ _ K) Ex) as [Hx He].
    destruct (first_sector_ok _ _ V Hx) as (_ & Hfs & Hfe). pose proof (vo_cluster _ V) as Hspc. pose proof (vo_end _ V) as [_ Hmax].
    cbn [block_loop]. rewrite He, (proj2 (Z.ltb_lt cur tot)) by done. cbn [orb negb].
    set (spb := sectors_per_block (fsb s)) in *. set (b := Z.min (spb - init) (tot - cur)).
    set (fs := FirstSectorofCluster (fsb s) x) in *. assert (0 < b) as Hb by lia.
    rewrite (take_sectors (fsb s) x r init (tot - cur)) by lia. fold fs spb b.
    destruct (vec_round ip s R l vecs fs (fs + init) b K V Hv ltac:(lia) Hb ltac:(lia)) as [[-> Hst]|(vecs1 & s1 & R1 & -> & X1 & K1 & Hv1 & Eb)].
    { intros H. rewrite (Hv0 H). lia. } { left. split; [done|]. eapply starved_le; [done|lia]. }
    ocbn. rewrite (in_fsb _ _ _ _ _ _ _ X1). fold spb. rewrite (u32_small (spb - init)), (u32_small (tot - cur)), (u32_small (fs + init)) by lia. fold b.
    rewrite (u32_small (cur + b)) by lia. destruct (Z.eqb_spec (cur + b) tot) as [Hend|Hend].
    + right. exists (vec_add (fs + init) b vecs1), ip, s1, R1. cbv zeta. replace (Z.to_nat (tot - cur - b)) with O by lia. rewrite take_0, app_nil_r, length_seqZ.
      rewrite Z2Nat.id by lia. split; [done|]. split; [eapply indexed_le; [done|lia]|]. split; [done|]. split; [apply Hv1|done].
    + assert (b = spb - init) as Hbe by lia. pose proof (lookup_lt_Some _ _ _ Ex) as Hlx. pose proof (fo_room _ _ _ _ K) as Hroom.
      destruct (lookup_cluster ip s1 R1 l (l_num + 1) K1 ltac:(lia)) as [[-> Hst]|(ip2 & s2 & R2 & -> & X2 & K2)].
      { left. split; [done|]. eapply starved_later; [by eapply in_grew|done|lia]. }
      ocbn. replace (l_num + 1 - 1) with l_num by lia.
      assert (r = drop (Z.to_nat l_num) l) as Er'.
      { replace (Z.to_nat l_num) with (Z.to_nat (l_num - 1) + 1)%nat by lia. by rewrite <- drop_drop, <- Er. }
      assert (l !! Z.to_nat l_num = head r) as Eh by (by rewrite Er', head_lookup, lookup_drop, Nat.add_0_r).
      rewrite Eh. assert (alloc && ISEOF (default EOC (head r)) = false) as ->.
      { apply andb_false_iff. destruct Hal as [->|Hal]; [by left|right]. destruct r as [|y r].
        - rewrite sectors_of_length in Hal by (unfold spb in *; lia). cbn [length] in Hal. lia.
        - cbn [head default from_option id]. by eapply (chain_elem _ _ _ _ _ (fo_chain _ _ _ _ K)). }
      ocbn. assert (fsb s2 = fsb s) as Es2 by (by rewrite (in_fsb _ _ _ _ _ _ _ X2), (in_fsb _ _ _ _ _ _ _ X1)).
      destruct (IH fuel 0 (l_num + 1) (default EOC (head r)) (cur + b) (vec_add (fs + init) b vecs1) ip2 s2 R2) as [[E Hst]|(vecs3 & ip3 & s3 & R3 & E & X3 & K3 & Hv3 & Eb3)];
        rewrite ?Es2; try done; try lia.
      { by eapply owned_grew. }
      { by replace (l_num + 1 - 1) with l_num by lia. }
      { destruct Hal as [->|Hal]; [by left|right]. rewrite sectors_of_cons, length_app, length_seqZ in Hal. fold spb in Hal. lia. }
      { left. split; [exact E|]. eapply starved_later; [by eapply grew_trans; eapply in_grew|exact Hst|lia]. }
      right. rewrite Es2, drop_0 in E, Eb3. replace (tot - (cur + b)) with (tot - cur - b) in E, Eb3 by lia.
      exists vecs3, ip3, s3, R3. cbv zeta. split; [|split; [|split; [|split]]].
      * etransitivity; [exact E|]. rewrite length_app, length_seqZ. do 4 f_equal. lia.
      * eapply indexed_le; [eapply indexed_trans; [exact X1|]; by eapply indexed_trans|lia].
      * done.
      * done.
      * by rewrite Eb3, Eb, <- app_assoc.
Qed.

(** *** From an offset to sectors *)

Lemma cursor_ok ip s R l off : file_ok ip s R l -> volume_ok (fsb s) -> 0 <= off ->
  let size := sectors_per_block (fsb s) * sector_size (fsb s) in off < Z.of_nat (length l) * size -> off < 2 ^ 32 ->
  (fat32_cursor_to_offset ip off s = Panic /\ starved 1 (al s)) \/
  exists ip' s' R', fat32_cursor_to_offset ip off s =
      Done (off / size + 1, l !!! Z.to_nat (off / size), (off mod size) / sector_size (fsb s), off mod sector_size (fsb s), ip', s') /\
    indexed 1 ip s R ip' s' R' /\ file_ok ip' s' R' l.
Proof.
  intros K V Hoff size Hin H32. pose proof V as [[V1 V2] V3 _ _]. pose proof (Z.divide_pos_le (sector_size (fsb s)) PGSIZE eq_refl V2) as Hss. unfold PGSIZE in Hss.
  assert (0 < size < 2 ^ 32) as Hsz by (unfold size; nia). unfold fat32_cursor_to_offset, LOGISTIC_C_NUM. fold size.
  rewrite (u32_small size) by lia. assert (0 <= off / size < Z.of_nat (length l)) as Hq.
  { split; [apply Z.div_pos; lia|apply Z.div_lt_upper_bound; lia]. }
  pose proof (fo_room _ _ _ _ K) as Hroom. change MAX_INDEX_1 with 51212 in Hroom. rewrite (u32_small (_ + 1)) by lia.
  destruct (lookup_cluster ip s R l (off / size + 1) K) as [[-> Hst]|(ip' & s' & R' & -> & X & K')]; [lia|by left|right].
  ocbn. replace (off / size + 1 - 1) with (off / size) by lia. destruct (lookup_lt_is_Some_2 l (Z.to_nat (off / size)) ltac:(lia)) as [x E].
  rewrite E, (list_lookup_total_correct _ _ _ E). cbn [default from_option id].
  destruct (chain_elem _ _ _ _ _ (fo_chain _ _ _ _ K) E) as [_ ->]. exists ip', s', R'. split; [|done].
  assert (grow_loop (Z.to_nat (off / size + 1)) (off / size + 1) x ip' s' = Done (x, ip', s')) as ->.
  { destruct (Z.to_nat (off / size + 1)); cbn [grow_loop]; rewrite (fo_cnt _ _ _ _ K'), (proj2 (Z.ltb_ge _ _)) by lia; done. }
  ocbn. unfold LOGISTIC_S_NUM, LOGISTIC_S_OFFSET, LOGISTIC_C_OFFSET. rewrite (in_fsb _ _ _ _ _ _ _ X). fold size. rewrite (u32_small size) by lia.
  do 4 f_equal. apply Z.mod_mod_divide. unfold size. apply Z.divide_factor_r.
Qed.

Lemma sectors_of_drop sb l k : 0 < sectors_per_block sb ->
  drop (Z.to_nat (Z.of_nat k * sectors_per_block sb)) (sectors_of sb l) = sectors_of sb (drop k l).
Proof.
  intros H. revert l. induction k as [|k IH]; intros l; [done|]. destruct l as [|x l]; [apply drop_nil|].
  cbn [drop]. rewrite <- IH, sectors_of_cons.
  replace (Z.to_nat (Z.of_nat (S k) * sectors_per_block sb)) with
    (length (seqZ (FirstSectorofCluster sb x) (sectors_per_block sb)) + Z.to_nat (Z.of_nat k * sectors_per_block sb))%nat by (rewrite length_seqZ; lia).
  by rewrite drop_app_add.
Qed.

Lemma offset_split off spb ss : 0 <= off -> 0 < spb -> 0 < ss -> let size := spb * ss in
  off / ss = off / size * spb + (off mod size) / ss /\ 0 <= (off mod size) / ss < spb.
Proof.
  intros Hoff Hspb Hss size. assert (0 < size) as Hsz by (unfold size; nia). split.
  - rewrite (Z.div_mod off size) at 1 by lia. unfold size at 1.
    replace (spb * ss * (off / size) + off mod size) with (off mod size + (off / size * spb) * ss) by ring.
    rewrite Z.div_add by lia. lia.
  - pose proof (Z.mod_pos_bound off size Hsz). split; [apply Z.div_pos; lia|apply Z.div_lt_upper_bound; unfold size in *; lia].
Qed.

Lemma get_block_ok ip s R l off n alloc : file_ok ip s R l -> volume_ok (fsb s) -> 0 <= off < 2 ^ 32 -> off mod PGSIZE = 0 ->
  0 < n -> n mod sector_size (fsb s) = 0 -> n + sector_size (fsb s) <= 2 ^ 32 ->
  let size := sectors_per_block (fsb s) * sector_size (fsb s) in off < Z.of_nat (length l) * size ->
  (alloc = false \/ off + n <= Z.of_nat (length l) * size) ->
  (fat32_get_block ip off n alloc s = Panic /\ starved (1 + 2 * Z.to_nat (n / sector_size (fsb s))) (al s)) \/
  exists vecs ip' s' R',
    let bs := take (Z.to_nat (n / sector_size (fsb s))) (drop (Z.to_nat (off / sector_size (fsb s))) (sectors_of (fsb s) l)) in
    fat32_get_block ip off n alloc s = Done (Z.of_nat (length bs), vecs, ip', s') /\
    indexed (1 + 2 * Z.to_nat (n / sector_size (fsb s))) ip s R ip' s' R' /\ file_ok ip' s' R' l /\ vecs_owned ip' (al s') R' vecs /\ blocks_of vecs = bs.
Proof.
  intros K V Hoff Hal Hn Hns Hn32 size Hin Hfit. pose proof V as [[V1 V2] V3 _ _]. pose proof (Z.divide_pos_le (sector_size (fsb s)) PGSIZE eq_refl V2) as Hss. unfold PGSIZE in Hss.
  unfold fat32_get_block. rewrite Hal, Hns, (proj2 (Z.ltb_lt 0 n)) by done. cbn [Z.eqb]. ocbn.
  destruct (cursor_ok ip s R l off K V ltac:(lia) Hin ltac:(lia)) as [[-> Hst]|(ip1 & s1 & R1 & -> & X1 & K1)].
  { left. split; [done|]. eapply starved_le; [done|lia]. }
  ocbn.
  fold size. set (ss := sector_size (fsb s)) in *. set (spb := sectors_per_block (fsb s)) in *.
  assert (off mod ss = 0) as Hoss.
  { destruct V2 as [q Hq]. apply Z.mod_divide in Hal as [k Hk]; [|done]. rewrite Hk, Hq. rewrite Z.mul_assoc. by apply Z.mod_mul, Z.neq_sym, Z.lt_neq. }
  rewrite Hoss. cbn [Z.eqb]. ocbn. rewrite (in_fsb _ _ _ _ _ _ _ X1). fold ss. rewrite (u32_small (n + ss - 1)) by lia.
  assert ((n + ss - 1) / ss = n / ss) as ->.
  { apply Z.mod_divide in Hns as [q ->]; [|lia]. rewrite Z.div_mul by lia.
    symmetry. apply Z.div_unique with (ss - 1); lia. }
  assert (0 < size) as Hsz by (unfold size; nia). set (k := off / size).
  assert (0 <= k < Z.of_nat (length l)) as Hk by (unfold k; split; [apply Z.div_pos; lia|apply Z.div_lt_upper_bound; lia]).
  destruct (offset_split off spb ss ltac:(lia) ltac:(lia) V1) as [Eo Hinit]. fold size k in Eo, Hinit.
  assert (drop (Z.to_nat (off / ss)) (sectors_of (fsb s) l) = drop (Z.to_nat (off mod size / ss)) (sectors_of (fsb s) (drop (Z.to_nat k) l))) as Ed.
  { rewrite Eo, <- (sectors_of_drop (fsb s) l (Z.to_nat k)) by (fold spb; lia). fold spb. rewrite drop_drop. f_equal. rewrite Z2Nat.id by lia. nia. }
  assert (0 <= n / ss < 2 ^ 32) as Ht by (split; [apply Z.div_pos; lia|apply Z.div_lt_upper_bound; nia]).

  destruct (block_loop_ok alloc (n / ss) l Ht (drop (Z.to_nat k) l) (Z.to_nat (n / ss)) (off mod size / ss) (k + 1) (l !!! Z.to_nat k) 0 [] ip1 s1 R1)
    as [[E Hst]|(vecs & ip2 & s2 & R2 & E & X2 & K2 & Hv & Eb)]; rewrite ?(in_fsb _ _ _ _ _ _ _ X1); try done; try lia.
  { split; [split; constructor|done]. }
  { by replace (k + 1 - 1) with k by lia. }
  { destruct (lookup_lt_is_Some_2 l (Z.to_nat k) ltac:(lia)) as [x Ex]. by rewrite head_lookup, lookup_drop, Nat.add_0_r, Ex, (list_lookup_total_correct _ _ _ Ex). }
  { destruct Hfit as [->|Hfit]; [by left|right]. rewrite sectors_of_length by (fold spb; lia). fold spb. rewrite length_drop.
    assert (off = off / ss * ss) as Eoff by (rewrite (Z.div_mod off ss) at 1 by lia; lia).
    assert (n = n / ss * ss) as En by (rewrite (Z.div_mod n ss) at 1 by lia; lia).
    assert ((off / ss + n / ss) * ss <= (Z.of_nat (length l) * spb) * ss) as Hle by (unfold size in Hfit; nia).
    apply Z.mul_le_mono_pos_r in Hle; [|lia]. rewrite Eo in Hle. nia. }
  { left. rewrite E. split; [done|]. eapply starved_later; [by eapply in_grew|exact Hst|lia]. }
  right. rewrite (in_fsb _ _ _ _ _ _ _ X1), Z.sub_0_r, <- Ed in E, Eb. exists (rev vecs), ip2, s2, R2. cbv zeta. rewrite E. ocbn.
  split; [done|]. split; [eapply indexed_le; [by eapply indexed_trans|lia]|]. split; [done|]. split; [|exact Eb].
  split; [by apply Forall_rev, Hv|]. eapply NoDup_Permutation_proper; [apply fmap_Permutation; symmetry; apply Permutation_rev|apply Hv].
Qed.

(** *** Loading a file *)

Lemma last_of_app l c prev : last_from prev (l ++ [c]) = c.
Proof. unfold last_from. by rewrite last_snoc. Qed.

Lemma load_ok ip s R l : index_ok ip s R -> (forall m, 1 <= m <= MAX_INDEX_1 -> index_entry ip s m = 0) ->
  dense ip -> chain (fsb s) (cluster_start ip) l -> l <> [] -> Z.of_nat (length l) < MAX_INDEX_1 ->
  (load_clusters ip s = Panic /\ starved (length l) (al s)) \/
  exists ip' s' R', load_clusters ip s = Done (ip', s') /\ file_ok ip' s' R' l /\
    cluster_start ip' = cluster_start ip /\ fsb s' = fsb s /\ grew (length l) (al s) R (al s') R'.
Proof.
  intros K Hz D Hch Hne Hlen. unfold load_clusters. assert (cluster_start ip <> 0) as Hc.
  { destruct l as [|x l]; [done|]. destruct Hch as (-> & Hx & _). lia. }
  rewrite (proj2 (Z.eqb_neq _ _)) by done. cbn [negb]. unfold fat32_fat_travel.
  destruct (travel_loop_ok 0 l ltac:(lia) (length (fat_table (fsb s))) (cluster_start ip) 0 0 ip s R K Hch (chain_length _ _ _ Hch)
    ltac:(lia) ltac:(lia) ltac:(by left) D ltac:(intros m Hm; lia)) as [[-> Hst]|(ip' & s' & R' & c' & E & X & D' & Hc' & Hent)]; [by left|right].
  cbn zeta in E. rewrite E. ocbn. change (passed 0 0 l) with l in *. rewrite bool_decide_eq_true_2 by done. rewrite Z.add_0_r, Z.add_0_l.
  do 2 eexists. exists R'. split; [done|]. destruct X as [J (F1 & F2 & F3) F4 F5 _]. split; [|split_and!; try done].
  constructor; cbn [cluster_start cluster_end cluster_cnt set_end]; try done.
  - destruct J as [J1 J2 J3 J4 J5]. by constructor.
  - by rewrite F4, F1.
  - intros m Hm. transitivity (index_entry ip' s' m); [done|]. rewrite Hent by done. unfold filled. by rewrite Hz.
Qed.

(** ** The bit map *)

Lemma land_bit m off : 0 <= off -> negb (Z.land m (Z.shiftl 1 off) =? 0) = Z.testbit m off.
Proof.
  intros Ho. rewrite Z.shiftl_1_l. destruct (Z.testbit m off) eqn:E.
  - apply negb_true_iff, Z.eqb_neq. intros H. apply (f_equal (fun x => Z.testbit x off)) in H.
    by rewrite Z.land_spec, E, Z.pow2_bits_true, Z.bits_0 in H by lia.
  - apply negb_false_iff, Z.eqb_eq. apply Z.bits_inj'. intros k Hk. rewrite Z.land_spec, Z.bits_0.
    destruct (Z.eq_dec k off) as [->|Hne]; [by rewrite E|]. by rewrite Z.pow2_bits_false, andb_false_r by done.
Qed.

Lemma bit_of_ok off : 0 <= off < 31 -> bit_of off = Done (Z.shiftl 1 off).
Proof. intros Ho. unfold bit_of. destruct (Z.leb_spec 0 off), (Z.ltb_spec off 31); try lia. done. Qed.

Lemma TEST_BIT_ok m off : 0 <= off < 31 -> TEST_BIT m off = Done (Z.testbit m off).
Proof. intros Ho. unfold TEST_BIT. rewrite bit_of_ok by done. ocbn. by rewrite land_bit by lia. Qed.

Lemma SET_BIT_ok m off : 0 <= off < 31 -> exists m', SET_BIT m off = Done m' /\
  forall k, 0 <= k -> Z.testbit m' k = Z.testbit m k || (k =? off).
Proof.
  intros Ho. unfold SET_BIT. rewrite bit_of_ok by done. ocbn. eexists. split; [done|]. intros k Hk.
  rewrite Z.lor_spec, Z.shiftl_1_l, Z.pow2_bits_eqb by lia. by rewrite Z.eqb_sym.
Qed.

Lemma CLEAR_BIT_ok m off : 0 <= off < 31 -> exists m', CLEAR_BIT m off = Done m' /\
  forall k, 0 <= k < 64 -> Z.testbit m' k = Z.testbit m k && negb (k =? off).
Proof.
  intros Ho. unfold CLEAR_BIT. rewrite bit_of_ok by done. ocbn. eexists. split; [done|]. intros k Hk.
  unfold u64. rewrite Z.land_spec, Z.mod_pow2_bits_low by lia. rewrite Z.lnot_spec, Z.shiftl_1_l, Z.pow2_bits_eqb by lia.
  by rewrite Z.eqb_sym.
Qed.

(** Whether the map has cluster [c] as taken, and what the table says of it. *)
Definition taken (sb : fat_sb) (c : Z) : bool := Z.testbit (bit_map sb !!! Z.to_nat (c / 64)) (c mod 64).
Definition entry (sb : fat_sb) (c : Z) : Z := fat_table sb !!! Z.to_nat c.

Record map_ok (sb : fat_sb) : Prop := {
  mo_map : FAT_CLUSTER_MAX sb < 64 * Z.of_nat (length (bit_map sb));
  mo_table : FAT_CLUSTER_MAX sb < Z.of_nat (length (fat_table sb));
  mo_max : 2 <= FAT_CLUSTER_MAX sb < 0x0FFFFFF8;
  mo_agree c : 0 <= c <= FAT_CLUSTER_MAX sb -> taken sb c = negb (entry sb c =? 0);
  mo_reserved c : 0 <= c < 2 -> entry sb c <> 0
}.

Lemma store_word sb c m : 0 <= c -> (Z.to_nat (c / 64) < length (bit_map sb))%nat ->
  (forall k, 0 <= k < 64 -> k <> c mod 64 -> Z.testbit m k = Z.testbit (bit_map sb !!! Z.to_nat (c / 64)) k) ->
  forall d, 0 <= d -> taken (set_map (<[Z.to_nat (c / 64) := m]> (bit_map sb)) sb) d =
    if decide (d = c) then Z.testbit m (c mod 64) else taken sb d.
Proof.
  intros Hc Hlt Hm d Hd. unfold taken. cbn [bit_map set_map]. destruct (decide (d / 64 = c / 64)) as [E|E].
  - rewrite E, list_lookup_total_insert_eq by done. destruct (decide (d = c)) as [->|Hne]; [done|].
    apply Hm; [by apply Z.mod_pos_bound|]. intros Em. apply Hne. rewrite (Z.div_mod d 64), (Z.div_mod c 64) by done. congruence.
  - pose proof (Z.div_pos d 64 Hd ltac:(lia)). pose proof (Z.div_pos c 64 Hc ltac:(lia)).
    rewrite list_lookup_total_insert_ne by lia. rewrite decide_False; [done|]. by intros ->.
Qed.

(** The first free cluster from the hint [h] on, in the word of the hint and at an
    offset for which [1 << off] is defined. *)
Record next_free (sb : fat_sb) (h c : Z) : Prop := {
  nf_order : 0 <= h <= c /\ c / 64 = h / 64 /\ c mod 64 < 31;
  nf_max : c <= FAT_CLUSTER_MAX sb;
  nf_free : taken sb c = false;
  nf_first d : h <= d < c -> taken sb d = true
}.

Lemma same_word h d : 0 <= h <= d -> d / 64 = h / 64 -> d mod 64 = h mod 64 + (d - h).
Proof. intros Hd E. pose proof (Z.div_mod d 64 ltac:(done)). pose proof (Z.div_mod h 64 ltac:(done)). lia. Qed.

Lemma scan_word_ok sb c0 n : map_ok sb -> forall h off, next_free sb h c0 -> off = h mod 64 -> (Z.to_nat (c0 - h) < n)%nat ->
  exists m, scan_word n off h (h / 64) (bit_map sb !!! Z.to_nat (h / 64)) sb =
    Done (Some c0, c0, set_map (<[Z.to_nat (c0 / 64) := m]> (bit_map sb)) sb) /\
    forall k, 0 <= k -> Z.testbit m k = Z.testbit (bit_map sb !!! Z.to_nat (c0 / 64)) k || (k =? c0 mod 64).
Proof.
  intros M. induction n as [|n IH]; intros h off [(Ho1 & Ho2 & Ho3) Hm2 Hfree Hfirst] -> Hn; [lia|]. cbn [scan_word].
  pose proof (same_word h c0 ltac:(lia) Ho2) as Hsw. pose proof (Z.mod_pos_bound h 64 ltac:(done)). rewrite TEST_BIT_ok by lia. ocbn.
  change (Z.testbit _ (h mod 64)) with (taken sb h). pose proof (mo_max _ M) as Hmx. destruct (Z.eq_dec h c0) as [->|Hne].
  - rewrite Hfree. cbn [negb]. destruct (SET_BIT_ok (bit_map sb !!! Z.to_nat (c0 / 64)) (c0 mod 64)) as (m & -> & Hm); [lia|]. ocbn.
    pose proof (mo_map _ M). rewrite store_at_ok by (split; [apply Z.div_pos; lia|apply Z.div_lt_upper_bound; lia]). ocbn. by exists m.
  - rewrite Hfirst by lia. cbn [negb]. rewrite u32_small by lia. rewrite (proj2 (Z.ltb_ge _ _)) by lia.
    assert ((h + 1) / 64 = h / 64) as E1.
    { pose proof (Z.div_mod h 64 ltac:(done)). symmetry. apply Z.div_unique with (h mod 64 + 1); lia. }
    pose proof (same_word h (h + 1) ltac:(lia) E1) as Es. specialize (IH (h + 1) (h mod 64 + 1)). rewrite E1 in IH. apply IH; [|lia|lia].
    constructor; [split_and!; lia|lia|done|]. intros d Hd. apply Hfirst. lia.
Qed.

Lemma bitmap_alloc_ok sb h c : map_ok sb -> h < FAT_CLUSTER_MAX sb -> next_free sb h c ->
  exists m, fat32_bitmap_alloc h sb = Done (c, set_map (<[Z.to_nat (c / 64) := m]> (bit_map sb)) sb) /\
    forall d, 0 <= d -> taken (set_map (<[Z.to_nat (c / 64) := m]> (bit_map sb)) sb) d = taken sb d || (d =? c).
Proof.
  intros M Hm1 N. pose proof N as [(Ho1 & Ho2 & Ho3) Hm2 Hfree Hfirst]. unfold fat32_bitmap_alloc. cbn [scan_words].
  rewrite (proj2 (Z.ltb_lt h _)) by done. cbn [negb]. pose proof (mo_map _ M) as Hmap.
  pose proof (Z.mod_pos_bound h 64 ltac:(done)) as Hmod. pose proof (same_word h c ltac:(lia) Ho2) as Hsw.
  unfold BIT_INDEX, BIT_OFFSET. rewrite load_at_ok by (split; [apply Z.div_pos; lia|apply Z.div_lt_upper_bound; lia]). ocbn.
  destruct (scan_word_ok sb c (Z.to_nat (64 - h mod 64)) M h (h mod 64) N eq_refl ltac:(lia)) as (m & -> & Hm). ocbn.
  exists m. split; [done|]. intros d Hd. pose proof (Z.div_pos c 64 ltac:(lia) ltac:(lia)).
  pose proof (Z.div_lt_upper_bound c 64 (Z.of_nat (length (bit_map sb))) ltac:(lia) ltac:(lia)).
  rewrite store_word; [|lia|lia| |done].
  - destruct (decide (d = c)) as [->|Hne]; [|by rewrite (proj2 (Z.eqb_neq d c)), orb_false_r].
    pose proof (Z.mod_pos_bound c 64 ltac:(done)). by rewrite Hm, !Z.eqb_refl, !orb_true_r by lia.
  - intros k Hk Hne. by rewrite Hm, (proj2 (Z.eqb_neq k _)), orb_false_r by lia.
Qed.

(** ** Taking and giving back clusters *)

Record same_volume (sb sb' : fat_sb) : Prop := {
  sv_sector : sector_size sb' = sector_size sb;
  sv_total : n_sectors sb' = n_sectors sb;
  sv_cluster : sectors_per_block sb' = sectors_per_block sb;
  sv_base : fatbase sb' = fatbase sb;
  sv_fats : n_fats sb' = n_fats sb;
  sv_size : n_sectors_fat sb' = n_sectors_fat sb
}.

Lemma same_volume_trans sb1 sb2 sb3 : same_volume sb1 sb2 -> same_volume sb2 sb3 -> same_volume sb1 sb3.
Proof. intros [] []. constructor; congruence. Qed.
Lemma same_max sb sb' : same_volume sb sb' -> FAT_CLUSTER_MAX sb' = FAT_CLUSTER_MAX sb.
Proof.
  intros [E1 E2 E3 E4 E5 E6]. unfold FAT_CLUSTER_MAX, CountofClusters, DataSec, FirstDataSector, RootDirSectors.
  by rewrite E1, E2, E3, E4, E5, E6.
Qed.
Lemma same_volume_ok sb sb' : same_volume sb sb' -> volume_ok sb -> volume_ok sb'.
Proof. intros [E1 E2 E3 E4 E5 E6] []. constructor; congruence. Qed.

(** A chain only depends on the table at its clusters. *)
Lemma chain_kept sb sb' l : FAT_CLUSTER_MAX sb' = FAT_CLUSTER_MAX sb -> forall c, chain sb c l ->
  (forall x, x ∈ l -> fat_table sb' !! Z.to_nat x = fat_table sb !! Z.to_nat x) -> chain sb' c l.
Proof.
  intros Em. induction l as [|x l IH]; intros c H Ht; [done|]. destruct H as (-> & Hx & He & n & En & Hn & H).
  split; [done|]. rewrite Em. split; [done|]. split; [done|]. exists n. split; [|split; [done|]].
  - by rewrite Ht by left.
  - apply IH; [done|]. intros y Hy. apply Ht. by right.
Qed.

Lemma chain_entry sb l : forall c x, chain sb c l -> x ∈ l -> entry sb x <> 0.
Proof.
  induction l as [|y l IH]; intros c x H Hx; [by apply not_elem_of_nil in Hx|]. destruct H as (_ & _ & _ & n & En & Hn & H).
  apply elem_of_cons in Hx as [->|Hx]; [|by eapply IH]. unfold entry. by rewrite (list_lookup_total_correct _ _ _ En).
Qed.

(** A cluster at the end. *)
Lemma chain_snoc sb sb' l x y : FAT_CLUSTER_MAX sb' = FAT_CLUSTER_MAX sb -> forall c, chain sb c (l ++ [y]) -> x ∉ l ++ [y] ->
  2 <= x <= FAT_CLUSTER_MAX sb -> ISEOF x = false -> fat_table sb' !! Z.to_nat y = Some x -> fat_table sb' !! Z.to_nat x = Some EOC ->
  (forall d, 2 <= d <= FAT_CLUSTER_MAX sb -> d <> x -> d <> y -> fat_table sb' !! Z.to_nat d = fat_table sb !! Z.to_nat d) ->
  chain sb' c ((l ++ [y]) ++ [x]).
Proof.
  intros Em c H Hx Hxr Hxe Ey Ex Ht. pose proof (chain_NoDup _ _ _ H) as HN. revert c H Hx HN.
  induction l as [|z l IH]; intros c H Hx HN.
  - destruct H as (-> & Hy & Hye & _). cbn. rewrite Em. split_and!; try done; try lia. exists x. split_and!; try done; try lia.
    exists EOC. done.
  - destruct H as (-> & Hz & Hze & n & En & Hn & H). cbn [app]. split; [done|]. rewrite Em. split; [done|]. split; [done|].
    cbn [app] in Hx, HN. apply NoDup_cons in HN as [Hzl HN]. apply not_elem_of_cons in Hx as [Hxz Hxl].
    exists n. split_and!; [|done|by apply IH]. rewrite Ht; [done|done|done|]. intros ->. apply Hzl. apply elem_of_app. right. by left.
Qed.

(** The hint the search starts from. *)
Definition hint_of (sb : fat_sb) : Z := if hint_valid sb then nxt_free sb else 0.

Lemma alloc_retry_found fuel sb c sb1 : fat32_bitmap_alloc (hint_of sb) sb = Done (c, sb1) -> c <> 0 ->
  alloc_retry (S fuel) sb = Done (c, set_info (free_count sb1)
    (if FAT_CLUSTER_MAX sb1 <=? u32 (c + 1) then 3 else u32 (c + 1)) true (dirty sb1) sb1).
Proof. intros E Hc. cbn [alloc_retry]. fold (hint_of sb). rewrite E. ocbn. by rewrite (proj2 (Z.eqb_neq c 0)). Qed.

Record allocated (sb : fat_sb) (c : Z) (sb' : fat_sb) : Prop := {
  ac_range : 2 <= c <= FAT_CLUSTER_MAX sb;
  ac_free : entry sb c = 0;
  ac_volume : same_volume sb sb';
  ac_table : fat_table sb' = <[Z.to_nat c := EOC]> (fat_table sb);
  ac_map : map_ok sb';
  ac_count : free_count sb' = free_count sb - 1
}.

Lemma map_ok_update sb sb' c v : map_ok sb -> same_volume sb sb' -> 2 <= c <= FAT_CLUSTER_MAX sb ->
  fat_table sb' = <[Z.to_nat c := v]> (fat_table sb) -> length (bit_map sb') = length (bit_map sb) ->
  (forall d, 0 <= d -> taken sb' d = if decide (d = c) then negb (v =? 0) else taken sb d) -> map_ok sb'.
Proof.
  intros [M1 M2 M3 M4 M5] S Hc Et El Hb. pose proof (same_max _ _ S) as Em.
  assert (forall d, 0 <= d -> entry sb' d = if decide (d = c) then v else entry sb d) as He.
  { intros d Hd. unfold entry. rewrite Et. destruct (decide (d = c)) as [->|Hne].
    - apply list_lookup_total_insert_eq. lia.
    - apply list_lookup_total_insert_ne. lia. }
  constructor; rewrite ?Em, ?El; [done|by rewrite Et, length_insert|done| |].
  - intros d Hd. rewrite Hb, He by lia. destruct (decide (d = c)); [done|by apply M4].
  - intros d Hd. rewrite He, decide_False by lia. by apply M5.
Qed.

Lemma cluster_alloc_ok sb c : map_ok sb -> 0 < free_count sb < 2 ^ 32 -> hint_of sb < FAT_CLUSTER_MAX sb -> next_free sb (hint_of sb) c ->
  exists sb', fat32_cluster_alloc sb = Done (c, sb') /\ allocated sb c sb'.
Proof.
  intros M Hfc Hh N. pose proof N as [(Ho1 & Ho2 & Ho3) Hm2 Hfree Hfirst]. pose proof (mo_max _ M) as Hmx. pose proof (mo_table _ M) as Htb.
  assert (entry sb c = 0) as He.
  { pose proof (mo_agree _ M c ltac:(lia)) as Ha. rewrite Hfree in Ha. symmetry in Ha. apply negb_false_iff in Ha. by apply Z.eqb_eq in Ha. }
  assert (2 <= c) as Hc by (destruct (Z.le_gt_cases 2 c); [done|]; by destruct (mo_reserved _ M c ltac:(lia))).
  unfold fat32_cluster_alloc. rewrite (proj2 (Z.eqb_neq (free_count sb) 0)) by lia.
  set (sb1 := set_info (u32 (free_count sb - 1)) (nxt_free sb) (hint_valid sb) (dirty sb) sb).
  assert (map_ok sb1) as M1 by (destruct M; by constructor). assert (next_free sb1 (hint_of sb) c) as N1 by (destruct N; by constructor).
  destruct (bitmap_alloc_ok sb1 (hint_of sb) c M1 Hh N1) as (m & E & Hm).
  rewrite (alloc_retry_found 2 sb1 c _ E) by lia. ocbn. unfold fat32_fat_cache_set.
  change (FAT_CLUSTER_MAX (set_info _ _ _ _ _)) with (FAT_CLUSTER_MAX sb).
  rewrite (proj2 (Z.leb_le 2 c)), (proj2 (Z.leb_le c _)) by done. cbn [andb negb]. rewrite Z.eqb_refl. cbn [negb]. rewrite andb_false_r. cbn [andb].
  rewrite store_at_ok by (cbn; lia). ocbn. eexists. split; [done|]. constructor; try done.
  - cbn [set_table set_info set_map bit_map fat_table]. eapply (map_ok_update sb _ c EOC M); [done|done|done| |].
    + cbn. by rewrite length_insert.
    + intros d Hd. etransitivity; [exact (Hm d Hd)|]. change (taken sb1 d) with (taken sb d).
      destruct (decide (d = c)) as [->|Hne]; [by rewrite Z.eqb_refl, orb_true_r|by rewrite (proj2 (Z.eqb_neq d c)), orb_false_r].
  - cbn. apply u32_small. lia.
Qed.

(** *** Growing a file *)

Lemma index_ok_frame ip s R ip' sb : index_ok ip s R -> direct ip' = direct ip -> indirect_one ip' = indirect_one ip ->
  index_ok ip' (with_fsb sb s) R /\ forall m, index_entry ip' (with_fsb sb s) m = index_entry ip s m.
Proof.
  intros [K1 K2 K3 K4 K5] E1 E2. split; [constructor; rewrite ?E1, ?E2; try done; intros k p; rewrite ?E2; eauto|].
  intros m. unfold index_entry. by rewrite E1, E2.
Qed.

Lemma cache_set_ok sb c v : 2 <= c <= FAT_CLUSTER_MAX sb -> FAT_CLUSTER_MAX sb < Z.of_nat (length (fat_table sb)) ->
  2 <= v <= FAT_CLUSTER_MAX sb \/ v = EOC \/ v = FREE_MASK ->
  fat32_fat_cache_set c v sb = Done (set_table (<[Z.to_nat c := v]> (fat_table sb)) sb).
Proof.
  intros Hc Hl Hv. unfold fat32_fat_cache_set. rewrite (proj2 (Z.leb_le 2 c)), (proj2 (Z.leb_le c _)) by lia. cbn [andb negb].
  assert (negb ((2 <=? v) && (v <=? FAT_CLUSTER_MAX sb)) && negb (v =? EOC) && negb (v =? FREE_MASK) = false) as ->.
  { destruct Hv as [Hv|[->| ->]]; [|by rewrite Z.eqb_refl, andb_false_r|by rewrite andb_false_r].
    by rewrite (proj2 (Z.leb_le 2 v)), (proj2 (Z.leb_le v _)) by lia. }
  by rewrite store_at_ok by lia.
Qed.

(** Pointing the last cluster to one just taken changes no bit: it was and stays taken. *)
Lemma map_ok_link sb y c : map_ok sb -> 2 <= y <= FAT_CLUSTER_MAX sb -> entry sb y <> 0 -> c <> 0 ->
  map_ok (set_table (<[Z.to_nat y := c]> (fat_table sb)) sb).
Proof.
  intros M Hy He Hc. eapply (map_ok_update sb _ y c M); try done. intros d Hd. change (taken (set_table _ sb) d) with (taken sb d).
  destruct (decide (d = y)) as [->|]; [|done]. rewrite (mo_agree _ M), !(proj2 (Z.eqb_neq _ 0)) by (done || lia). done.
Qed.

Record grown (n : nat) ip s R l y c ip' s' R' : Prop := {
  gw_file : file_ok ip' s' R' ((l ++ [y]) ++ [c]);
  gw_start : cluster_start ip' = cluster_start ip;
  gw_map : map_ok (fsb s');
  gw_volume : same_volume (fsb s) (fsb s');
  gw_count : free_count (fsb s') = free_count (fsb s) - 1;
  gw_free : entry (fsb s) c = 0;
  gw_grew : grew n (al s) R (al s') R';
  gw_others d l' : chain (fsb s) d l' -> y ∉ l' -> chain (fsb s') d l'
}.

Lemma append_ok ip s R l y c : file_ok ip s R (l ++ [y]) -> map_ok (fsb s) -> 0 < free_count (fsb s) < 2 ^ 32 ->
  hint_of (fsb s) < FAT_CLUSTER_MAX (fsb s) -> next_free (fsb s) (hint_of (fsb s)) c ->
  Z.of_nat (length (l ++ [y])) + 1 < MAX_INDEX_1 ->
  (append_cluster y ip s = Panic /\ starved 1 (al s)) \/
  exists ip' s' R', append_cluster y ip s = Done (c, ip', s') /\ grown 1 ip s R l y c ip' s' R'.
Proof.
  intros K M Hfc Hh N Hlen. pose proof K as [K1 K2 K3 K4 K5 K6 K7]. destruct (cluster_alloc_ok _ c M Hfc Hh N) as (sb1 & E1 & [A1 A2 A3 A4 A5 A6]).
  unfold append_cluster. rewrite E1. ocbn. assert (y ∈ l ++ [y]) as Hyl by (apply elem_of_app; right; by left).
  destruct (chain_elem _ (l ++ [y]) _ (length l) y K2) as [Hy Hye]; [by rewrite lookup_app_r, Nat.sub_diag|].
  assert (forall d l', chain (fsb s) d l' -> c ∉ l') as Hc by (intros d l' H Hin; by apply (chain_entry _ _ _ _ H) in Hin).
  assert (y <> c) as Hyc by (intros ->; by apply (Hc _ _ K2)). pose proof (same_max _ _ A3) as Em. pose proof (mo_table _ A5) as Htb.
  pose proof (mo_max _ M) as Hmx. rewrite cache_set_ok by lia. ocbn. set (sb2 := set_table _ sb1).
  assert (forall d, 2 <= d <= FAT_CLUSTER_MAX (fsb s) -> d <> c -> d <> y -> fat_table sb2 !! Z.to_nat d = fat_table (fsb s) !! Z.to_nat d) as Hd.
  { intros d Hr Hn1 Hn2. cbn [fat_table sb2 set_table]. rewrite list_lookup_insert_ne by lia. rewrite A4. by rewrite list_lookup_insert_ne by lia. }
  destruct (index_ok_frame ip s R (set_end c (cluster_cnt ip + 1) ip) sb2 K1 eq_refl eq_refl) as [J Hent0].
  set (ip1 := set_end c (cluster_cnt ip + 1) ip) in *.
  destruct (ctl_ok ip1 (with_fsb sb2 s) R (cluster_cnt ip1) c J ltac:(cbn; rewrite K4; lia)) as [[-> Hst]|(ip2 & s2 & R2 & -> & [J2 (F1 & F2 & F3) F4 F5 _] & D2 & Hent)];
    [by left|right]. ocbn. exists ip2, s2, R2. split; [done|]. cbn [with_fsb fsb al] in F4, F5. constructor; rewrite ?F4; try done.
  - constructor; rewrite ?F4, ?F1, ?F2, ?F3; [done| | | |by rewrite last_of_app|by rewrite length_app; cbn; lia|].
    + eapply (chain_snoc (fsb s)); [done|done|by eapply Hc|lia|unfold ISEOF; rewrite (proj2 (Z.leb_gt _ _)); [done|lia]| | |done].
      * cbn [fat_table sb2 set_table]. apply list_lookup_insert_eq. lia.
      * cbn [fat_table sb2 set_table]. rewrite list_lookup_insert_ne, A4 by lia. apply list_lookup_insert_eq. rewrite A4, length_insert in Htb. lia.
    + intros m Hm. rewrite Hent by done. unfold set_entry. rewrite Hent0, K3 by done. change (cluster_cnt ip1) with (cluster_cnt ip + 1). rewrite K4. unfold filled. rewrite !length_app. cbn [length].
      rewrite length_app in Hlen. cbn [length] in Hlen. destruct (decide (m = Z.of_nat (length l + 1) + 1 /\ c <> 0)) as [[Em' _]|Hn].
      * subst m. rewrite (proj2 (Z.ltb_lt 0 _)), (proj2 (Z.leb_le _ _)) by lia. cbn [andb].
        symmetry. apply list_lookup_total_correct. replace (Z.to_nat _) with (length (l ++ [y])) by (rewrite length_app; cbn; lia).
        by rewrite lookup_app_r, Nat.sub_diag by lia.
      * assert (m <> Z.of_nat (length l + 1) + 1) by (intros ->; apply Hn; lia). destruct (Z.ltb_spec 0 m); [|lia]. cbn [andb].
        destruct (Z.leb_spec m (0 + Z.of_nat (length l + 1))), (Z.leb_spec m (0 + Z.of_nat (length l + 1 + 1))); try lia.
        symmetry. apply lookup_total_app_l. rewrite length_app. cbn. lia.
    + cbn. rewrite K4, !length_app. cbn. lia.
    + apply D2; [done|]. intros m Hm. rewrite Hent0. cbn in Hm. eapply file_full; [done| |done]. lia.
  - apply map_ok_link; [done|lia| |lia]. unfold entry. rewrite A4, list_lookup_total_insert_ne by lia. by apply (chain_entry _ _ _ y K2).
  - by destruct A3.
  - intros d l' H Hy'. eapply chain_kept; [|exact H|]; [done|]. intros x Hx. destruct (proj1 (list_elem_of_lookup _ _) Hx) as [k Ek].
    destruct (chain_elem _ _ _ _ _ H Ek) as [Hr _]. apply Hd; [done|by intros ->; apply (Hc _ _ H)|by intros ->].
Qed.

(** *** Truncating a file *)

Lemma bitmap_op_clear sb x : 0 <= x < 64 * Z.of_nat (length (bit_map sb)) -> x mod 64 < 31 -> taken sb x = true ->
  exists m, let sb' := set_map (<[Z.to_nat (x / 64) := m]> (bit_map sb)) sb in
    fat32_bitmap_op x false sb = Done sb' /\ forall d, 0 <= d -> taken sb' d = if decide (d = x) then false else taken sb d.
Proof.
  intros Hx Hm Ht. pose proof (Z.mod_pos_bound x 64 ltac:(done)) as Hb. pose proof (Z.div_pos x 64 ltac:(lia) ltac:(lia)).
  assert (x / 64 < Z.of_nat (length (bit_map sb))) by (apply Z.div_lt_upper_bound; lia).
  unfold fat32_bitmap_op, BIT_INDEX, BIT_OFFSET. rewrite load_at_ok by lia. ocbn. rewrite TEST_BIT_ok by lia. ocbn.
  change (Z.testbit _ (x mod 64)) with (taken sb x). rewrite Ht. ocbn.
  destruct (CLEAR_BIT_ok (bit_map sb !!! Z.to_nat (x / 64)) (x mod 64) ltac:(lia)) as (m & -> & Em). ocbn.
  rewrite store_at_ok by lia. ocbn. exists m. split; [done|]. intros d Hd. rewrite store_word; [|lia|lia| |done].
  - destruct (decide (d = x)) as [->|]; [|done]. rewrite Em by lia. by rewrite Z.eqb_refl, andb_false_r.
  - intros k Hk Hne. by rewrite Em, (proj2 (Z.eqb_neq k _)), andb_true_r by done.
Qed.

(** The clusters [xs] were given back. *)
Record freed (sb : fat_sb) (xs : list Z) (sb' : fat_sb) : Prop := {
  fr_map : map_ok sb';
  fr_volume : same_volume sb sb';
  fr_entry d : 0 <= d -> entry sb' d = if bool_decide (d ∈ xs) then 0 else entry sb d;
  fr_count : free_count sb' = free_count sb
}.

Definition free_cluster (x : Z) (sb : fat_sb) : outcome fat_sb :=
  sb ← fat32_fat_cache_set x FREE_MASK sb;
  sb ← fat32_bitmap_op x false sb;
  fat32_fat_cache_set x FREE_MASK sb.

Lemma free_cluster_ok sb x : map_ok sb -> 2 <= x <= FAT_CLUSTER_MAX sb -> x mod 64 < 31 -> entry sb x <> 0 ->
  exists sb', free_cluster x sb = Done sb' /\ freed sb [x] sb'.
Proof.
  intros M Hx Hm He. pose proof M as [M1 M2 M3 M4 M5]. unfold free_cluster. rewrite cache_set_ok by (done || by right; right). ocbn.
  set (sb1 := set_table _ sb). destruct (bitmap_op_clear sb1 x) as (m & E & Hb).
  { change (bit_map sb1) with (bit_map sb). lia. } { done. }
  { change (taken sb1 x) with (taken sb x). rewrite M4 by lia. by rewrite (proj2 (Z.eqb_neq _ _)). }
  cbv zeta in E, Hb. rewrite E. ocbn. set (sb2 := set_map _ sb1) in *.
  rewrite cache_set_ok; [|done|cbn; rewrite length_insert; exact M2|by right; right]. eexists. split; [done|].
  assert (forall d, 0 <= d -> (<[Z.to_nat x := FREE_MASK]> (fat_table sb2)) !!! Z.to_nat d = if decide (d = x) then 0 else entry sb d) as Hent.
  { intros d Hd. cbn [sb2 sb1 fat_table set_map set_table]. rewrite list_insert_insert_eq. unfold entry. destruct (decide (d = x)) as [->|Hne].
    - apply list_lookup_total_insert_eq. lia.
    - apply list_lookup_total_insert_ne. lia. }
  constructor; try done.
  - eapply (map_ok_update sb _ x 0 M); [done|done| | |exact Hb].
    + cbn. by rewrite list_insert_insert_eq.
    + cbn. by rewrite length_insert.
  - intros d Hd. etransitivity; [exact (Hent d Hd)|]. case_bool_decide as H; destruct (decide (d = x)) as [->|Hne]; try done.
    + by apply list_elem_of_singleton in H.
    + destruct H. by left.
Qed.

Lemma free_cluster_bind {B} x sb sb' (k : fat_sb -> outcome B) : free_cluster x sb = Done sb' ->
  (sb ← fat32_fat_cache_set x FREE_MASK sb; sb ← fat32_bitmap_op x false sb; sb ← fat32_fat_cache_set x FREE_MASK sb; k sb) = k sb'.
Proof.
  unfold free_cluster. destruct (fat32_fat_cache_set x FREE_MASK sb); try done. cbn.
  destruct (fat32_bitmap_op x false _); try done. cbn. intros E. by rewrite E.
Qed.

Lemma freed_cons sb x xs sb1 sb2 : freed sb [x] sb1 -> freed sb1 xs sb2 -> freed sb (x :: xs) sb2.
Proof.
  intros [A1 A2 A3 A4] [B1 B2 B3 B4]. constructor; [done|by eapply same_volume_trans| |congruence].
  intros d Hd. rewrite B3, A3 by done. repeat case_bool_decide; try done; set_solver.
Qed.

(** What the loop needs to know of the clusters to go. *)
Definition freeable (sb : fat_sb) (x : Z) : Prop :=
  2 <= x <= FAT_CLUSTER_MAX sb /\ ISEOF x = false /\ x mod 64 < 31 /\ entry sb x <> 0.

Record opened ip s R (l : list Z) : Prop := {
  op_index : index_ok ip s R;
  op_entries m : 1 <= m <= MAX_INDEX_1 -> index_entry ip s m = filled l 0 (fun _ => 0) m;
  op_dense : dense ip;
  op_room : Z.of_nat (length l) < MAX_INDEX_1
}.

Lemma filled_next l m : Forall (fun x => 2 <= x) l -> 1 <= m ->
  INDEX_LOOKUP (filled l 0 (fun _ => 0) m) = default EOC (l !! Z.to_nat (m - 1)).
Proof.
  intros Hl Hm. unfold filled. rewrite (proj2 (Z.ltb_lt 0 _)), Z.sub_0_r by lia. cbn [andb].
  destruct (Z.leb_spec m (0 + Z.of_nat (length l))) as [Hle|Hgt]; [|by rewrite lookup_ge_None_2 by lia].
  destruct (lookup_lt_is_Some_2 l (Z.to_nat (m - 1)) ltac:(lia)) as [y Ey]. rewrite Ey, (list_lookup_total_correct _ _ _ Ey).
  unfold INDEX_LOOKUP. rewrite (proj2 (Z.eqb_neq y 0)); [done|]. rewrite Forall_lookup in Hl. specialize (Hl _ _ Ey). lia.
Qed.

Lemma filled_full l m : Forall (fun x => 2 <= x) l -> 1 <= m <= Z.of_nat (length l) -> filled l 0 (fun _ => 0) m <> 0.
Proof.
  intros Hl Hm. unfold filled. rewrite (proj2 (Z.ltb_lt 0 m)), (proj2 (Z.leb_le m _)) by lia. cbn [andb].
  destruct (lookup_lt_is_Some_2 l (Z.to_nat (m - 0 - 1)) ltac:(lia)) as [y Ey]. rewrite (list_lookup_total_correct _ _ _ Ey).
  rewrite Forall_lookup in Hl. specialize (Hl _ _ Ey). lia.
Qed.

Lemma trunc_loop_ok l : Forall (fun x => 2 <= x) l -> forall r fuel l_num ip s R, opened ip s R l -> map_ok (fsb s) ->
  r = drop (Z.to_nat (l_num - 1)) l -> 1 <= l_num -> NoDup r -> Forall (freeable (fsb s)) r -> (length r <= fuel)%nat ->
  (trunc_loop fuel (default EOC (head r)) l_num ip s = Panic /\ starved (length r) (al s)) \/
  exists ip' s' R', trunc_loop fuel (default EOC (head r)) l_num ip s = Done (ip', s') /\
    opened ip' s' R' l /\ same_file ip ip' /\ freed (fsb s) r (fsb s') /\ grew (length r) (al s) R (al s') R'.
Proof.
  intros Hl2. induction r as [|x r IH]; intros fuel l_num ip s R K M Er Hl HN HF Hf.
  - right. exists ip, s, R. split; [by destruct fuel|]. split; [done|]. split; [done|]. split; [|apply grew_refl, K].
    by constructor.
  - apply NoDup_cons in HN as [Hxr HN]. apply Forall_cons_1 in HF as [(Hx & He & Hm & Hn0) HF]. cbn [length] in Hf.
    destruct fuel as [|fuel]; [lia|]. cbn [head default from_option id trunc_loop]. rewrite He.
    assert (l !! Z.to_nat (l_num - 1) = Some x) as Ex by (by rewrite <- (Nat.add_0_r (Z.to_nat _)), <- lookup_drop, <- Er).
    pose proof (lookup_lt_Some _ _ _ Ex) as Hlx. pose proof (op_room _ _ _ _ K) as Hroom.
    destruct (ctl_ok ip s R (l_num + 1) 0 (op_index _ _ _ _ K) ltac:(lia)) as [[-> Hst]|(ip1 & s1 & R1 & -> & [J (F1 & F2 & F3) F4 F5] & D1 & Hent)].
    { left. split; [done|]. eapply starved_le; [done|cbn; lia]. }
    ocbn. rewrite (op_entries _ _ _ _ K) by lia.
    assert (r = drop (Z.to_nat l_num) l) as Er'.
    { replace (Z.to_nat l_num) with (Z.to_nat (l_num - 1) + 1)%nat by lia. by rewrite <- drop_drop, <- Er. }
    rewrite filled_next by (done || lia). replace (l_num + 1 - 1) with l_num by lia. rewrite <- (Nat.add_0_r (Z.to_nat l_num)), <- lookup_drop, <- Er', <- head_lookup.
    rewrite F4. destruct (free_cluster_ok (fsb s) x M Hx Hm Hn0) as (sb1 & E1 & Fr).
    change (0 =? 0) with true. cbn match. rewrite (free_cluster_bind x _ sb1) by done. set (s2 := with_fsb sb1 s1).
    assert (opened ip1 s2 R1 l) as K2.
    { destruct (index_ok_frame ip1 s1 R1 ip1 sb1 J eq_refl eq_refl) as [J' Hf']. constructor; [done| | |done].
      - intros m Hm'. rewrite Hf', Hent by done. unfold set_entry. rewrite decide_False by tauto. by apply K.
      - apply D1; [apply K|]. intros m Hm'. rewrite (op_entries _ _ _ _ K) by lia. apply filled_full; [done|lia]. }
    destruct (IH fuel (l_num + 1) ip1 s2 R1 K2) as [[-> Hst]|(ip3 & s3 & R3 & -> & K3 & (G1 & G2 & G3) & Fr3 & Gr3)].
    { apply Fr. } { by replace (l_num + 1 - 1) with l_num by lia. } { lia. } { done. }
    { eapply Forall_impl; [apply Forall_and; split; [exact HF|apply Forall_forall; intros y Hy; exact Hy]|].
      intros y [(Hy1 & Hy2 & Hy3 & Hy4) Hy]. unfold freeable. cbn [s2 with_fsb fsb]. rewrite (same_max _ _ (fr_volume _ _ _ Fr)). split_and!; try done; try lia.
      rewrite (fr_entry _ _ _ Fr) by lia. rewrite bool_decide_eq_false_2; [done|]. intros ->%list_elem_of_singleton. done. } { lia. }
    { left. split; [done|]. by eapply starved_later. }
    right. exists ip3, s3, R3. split; [done|]. split; [done|]. split; [split_and!; congruence|].
    split; [by eapply freed_cons|by eapply (grew_trans 1)].
Qed.

(** From the first empty entry on all are empty. *)
Definition no_gap (l : list Z) : Prop := forall (k k' : nat) p, (k <= k')%nat -> l !! k = Some 0 -> l !! k' = Some p -> p = 0.

Lemma no_gap_zeros l : no_gap (0 :: l) -> 0 :: l = replicate (S (length l)) 0.
Proof.
  intros Hg. cbn. f_equal. symmetry. apply replicate_as_Forall. split; [done|]. apply Forall_lookup. intros k x E.
  symmetry. by apply (Hg O (S k) x); [lia|..].
Qed.
Lemma no_gap_tail x l : no_gap (x :: l) -> no_gap l.
Proof. intros Hg k k' p Hk E1 E2. by apply (Hg (S k) (S k') p); [lia|..]. Qed.

Lemma load_middle (pre : list Z) x l : load_at (pre ++ x :: l) (Z.of_nat (length pre)) = Done x.
Proof. rewrite load_at_ok by (rewrite length_app; cbn; lia). rewrite Nat2Z.id. by rewrite list_lookup_total_middle. Qed.
Lemma store_middle (pre : list Z) x y l : store_at (Z.of_nat (length pre)) y (pre ++ x :: l) = Done ((pre ++ [y]) ++ l).
Proof.
  unfold store_at. rewrite load_middle. ocbn. rewrite Nat2Z.id, <- app_assoc. f_equal. cbn.
  rewrite <- (Nat.add_0_r (length pre)). by rewrite insert_app_r.
Qed.

Lemma clear_direct_ok l : forall pre, no_gap l ->
  clear_direct (length l) (Z.of_nat (length pre)) (pre ++ l) = Done (pre ++ replicate (length l) 0).
Proof.
  induction l as [|x l IH]; intros pre Hg; [done|]. cbn [length clear_direct]. rewrite load_middle. ocbn.
  destruct (Z.eqb_spec x 0) as [->|Hx]; [by rewrite (no_gap_zeros l) at 1|]. rewrite store_middle. ocbn.
  replace (Z.of_nat (length pre) + 1) with (Z.of_nat (length (pre ++ [0]))) by (rewrite length_app; cbn; lia).
  rewrite IH by (by eapply no_gap_tail). by rewrite <- app_assoc.
Qed.

(** Pages of the table that are there, all of them held. *)
Definition pages_held (l : list Z) (a : A) R : Prop :=
  (forall p, p ∈ l -> p <> 0 -> owned a R p) /\
  (forall (k k' : nat) p, l !! k = Some p -> l !! k' = Some p -> p <> 0 -> k = k').

Lemma free_tables_ok l : forall pre s R, no_gap l -> pages_held l (al s) R -> pa_rep (al s) R ->
  exists s' R', free_tables (length l) (Z.of_nat (length pre)) (pre ++ l) s = Done (pre ++ replicate (length l) 0, s') /\
    fsb s' = fsb s /\ pa_rep (al s') R'.
Proof.
  induction l as [|x l IH]; intros pre s R Hg [Ho Hd] Ha; [by exists s, R|]. cbn [length free_tables]. rewrite load_middle. ocbn.
  destruct (Z.eqb_spec x 0) as [->|Hx]; [exists s, R; by rewrite (no_gap_zeros l) at 1|].
  destruct (kfree_owned (al s) R x Ha) as (a' & R' & -> & Ha' & Hk); [apply Ho; [by left|done]|]. ocbn. rewrite store_middle. ocbn.
  replace (Z.of_nat (length pre) + 1) with (Z.of_nat (length (pre ++ [0]))) by (rewrite length_app; cbn; lia).
  destruct (IH (pre ++ [0]) (FatSt (fsb s) (delete x (tabs s)) a') R') as (s' & R2 & E & Es & Hr).
  - by eapply no_gap_tail.
  - split.
    + intros p Hp Hp0. apply Hk; [|by apply Ho; [right|]]. intros ->. apply list_elem_of_lookup in Hp as [k Ek].
      by specialize (Hd O (S k) x eq_refl Ek Hx).
    + intros k k' p E1 E2 Hp. by specialize (Hd (S k) (S k') p E1 E2 Hp) as [= ->].
  - done.
  - exists s', R2. rewrite E, <- app_assoc. done.
Qed.

(** The file's index is empty, as in a new inode. *)
Definition index_empty ip : Prop :=
  direct ip = replicate (Z.to_nat N_DIRECT) 0 /\ indirect_one ip = replicate (Z.to_nat N_LEVEL_ONE) 0.

Lemma index_empty_ok ip s R : index_empty ip -> pa_rep (al s) R ->
  index_ok ip s R /\ dense ip /\ forall m, 1 <= m <= MAX_INDEX_1 -> index_entry ip s m = 0.
Proof.
  intros [E1 E2] Ha. assert (forall k p, indirect_one ip !! k = Some p -> p = 0) as Hz.
  { intros k p. rewrite E2. by intros [-> _]%lookup_replicate. }
  split; [|split].
  - constructor; [by rewrite E1, length_replicate|by rewrite E2, length_replicate| | |done].
    + by intros k p ->%Hz.
    + by intros k k' p ->%Hz.
  - intros k k' p _ _. apply Hz.
  - intros m Hm. unfold index_entry. rewrite E1, E2. destruct (Z.leb_spec m MAX_INDEX_0).
    + rewrite lookup_total_replicate_2; [done|]. unfold MAX_INDEX_0, N_DIRECT in *. lia.
    + destruct (entry_slot m ltac:(lia)) as [Hs _]. rewrite lookup_total_replicate_2; [done|]. unfold N_LEVEL_ONE. lia.
Qed.

Lemma free_index_ok ip s R l : opened ip s R l -> Forall (fun x => 2 <= x) l -> cluster_cnt ip <> 0 ->
  exists ip' s' R', fat32_free_index_table ip s = Done (ip', s') /\ index_empty ip' /\ same_file ip ip' /\
    fsb s' = fsb s /\ pa_rep (al s') R'.
Proof.
  intros [[K1 K2 K3 K4 K5] Hent Hdn Hroom] Hl Hcnt. unfold fat32_free_index_table. rewrite (proj2 (Z.eqb_neq _ _)) by done.
  assert (no_gap (direct ip)) as Hgd.
  { intros k k' p Hk E1 E2. assert (forall j x, direct ip !! j = Some x -> x = filled l 0 (fun _ => 0) (Z.of_nat j + 1)) as Hj.
    { intros j x E. pose proof (lookup_lt_Some _ _ _ E) as Hlt. rewrite K1 in Hlt. change (Z.to_nat N_DIRECT) with 12%nat in Hlt.
      rewrite <- Hent by (change MAX_INDEX_1 with 51212; lia). unfold index_entry. change MAX_INDEX_0 with 12.
      rewrite (proj2 (Z.leb_le _ _)) by lia. replace (Z.to_nat (Z.of_nat j + 1 - 1)) with j by lia. by rewrite (list_lookup_total_correct _ _ _ E). }
    apply Hj in E1, E2. subst p. destruct (decide (Z.of_nat k' + 1 <= Z.of_nat (length l))).
    - symmetry in E1. by apply filled_full in E1; [|done|lia].
    - unfold filled. rewrite (proj2 (Z.leb_gt _ _)) by lia. by rewrite andb_false_r. }
  pose proof (clear_direct_ok (direct ip) [] Hgd) as E1. rewrite K1 in E1. cbn [app length] in E1.
  change (Z.to_nat N_DIRECT) with 12%nat in *. change (Z.of_nat 0) with 0 in E1. rewrite E1. ocbn.
  destruct (free_tables_ok (indirect_one ip) [] s R Hdn) as (s' & R' & E2 & Es & Ha); [split; [|exact K4]|done|].
  { intros p (k & Ek)%list_elem_of_lookup Hp. by apply (K3 k). }
  rewrite K2 in E2. cbn [app length] in E2. change (Z.of_nat 0) with 0 in E2. change (Z.to_nat N_LEVEL_ONE) with 50%nat in *. rewrite E2. ocbn.
  do 2 eexists. exists R'. split; [done|]. done.
Qed.

Lemma trunc_ok ip s R l : file_ok ip s R l -> l <> [] -> map_ok (fsb s) -> Forall (fun x => x mod 64 < 31) l ->
  0 <= free_count (fsb s) -> free_count (fsb s) + Z.of_nat (length l) < 2 ^ 32 ->
  (fat32_inode_trunc ip s = Panic /\ starved (length l) (al s)) \/
  exists ip' s' R', fat32_inode_trunc ip s = Done (ip', s') /\ index_empty ip' /\ cluster_start ip' = 0 /\ cluster_cnt ip' = 0 /\
    pa_rep (al s') R' /\ map_ok (fsb s') /\ same_volume (fsb s) (fsb s') /\
    (forall d, 0 <= d -> entry (fsb s') d = if bool_decide (d ∈ l) then 0 else entry (fsb s) d) /\
    free_count (fsb s') = free_count (fsb s) + Z.of_nat (length l).
Proof.
  intros K Hne M Hoff Hf0 Hf1. pose proof K as [K1 K2 K3 K4 K5 K6 K7]. unfold fat32_inode_trunc.
  assert (Forall (freeable (fsb s)) l) as HF.
  { apply Forall_lookup. intros k x E. destruct (chain_elem _ _ _ _ _ K2 E) as [Hx He]. rewrite Forall_lookup in Hoff.
    split_and!; [lia|lia|done|by apply (Hoff k)|]. eapply chain_entry; [done|]. by eapply list_elem_of_lookup_2. }
  assert (Forall (fun x => 2 <= x) l) as Hl2 by (eapply Forall_impl; [exact HF|]; intros x [? _]; lia).
  assert (cluster_start ip = default EOC (head l)) as -> by (destruct l; [done|apply K2]).
  destruct (trunc_loop_ok l Hl2 l (Z.to_nat MAX_INDEX_1) 1 ip s R) as [[-> Hst]|(ip1 & s1 & R1 & -> & O1 & (F1 & F2 & F3) & Fr & Gr)];
    [by constructor|done|done|lia|by eapply chain_NoDup|done|lia|by left|right]. ocbn.
  destruct (free_index_ok ip1 s1 R1 l O1 Hl2) as (ip2 & s2 & R2 & -> & He & (G1 & G2 & G3) & Es & Ha).
  { rewrite F3, K4. destruct l; [done|cbn; lia]. }
  ocbn. rewrite Es, G3, F3, K4, (fr_count _ _ _ Fr), u32_small by lia. do 2 eexists. exists R2. split; [done|].
  destruct Fr as [[M1 M2 M3 M4 M5] V E C]. split_and!; try done; by destruct V.
Qed.
(** *** The cursor just past the end *)

Lemma extend_done n k c ip s : k <= cluster_cnt ip -> grow_loop n k c ip s = Done (c, ip, s).
Proof. intros H. destruct n; cbn [grow_loop]; by rewrite (proj2 (Z.ltb_ge _ _)). Qed.

Lemma cursor_grow_ok ip s R l y c off : file_ok ip s R (l ++ [y]) -> volume_ok (fsb s) -> map_ok (fsb s) ->
  0 < free_count (fsb s) < 2 ^ 32 -> hint_of (fsb s) < FAT_CLUSTER_MAX (fsb s) -> next_free (fsb s) (hint_of (fsb s)) c ->
  Z.of_nat (length (l ++ [y])) + 1 < MAX_INDEX_1 ->
  let size := sectors_per_block (fsb s) * sector_size (fsb s) in off / size = Z.of_nat (length (l ++ [y])) ->
  (fat32_cursor_to_offset ip off s = Panic /\ starved 2 (al s)) \/
  exists ip' s' R', fat32_cursor_to_offset ip off s =
      Done (off / size + 1, c, (off mod size) / sector_size (fsb s), off mod sector_size (fsb s), ip', s') /\
    grown 2 ip s R l y c ip' s' R'.
Proof.
  intros K V M Hfc Hh N Hlen size Hq. pose proof V as [[V1 V2] V3 _ _]. pose proof (Z.divide_pos_le (sector_size (fsb s)) PGSIZE eq_refl V2) as Hss. unfold PGSIZE in Hss.
  assert (0 < size < 2 ^ 32) as Hsz by (unfold size; nia). unfold fat32_cursor_to_offset, LOGISTIC_C_NUM. fold size.
  rewrite (u32_small size) by lia. change MAX_INDEX_1 with 51212 in Hlen. rewrite (u32_small (_ + 1)) by lia.
  destruct (lookup_cluster ip s R (l ++ [y]) (off / size + 1) K) as [[-> Hst]|(ip1 & s1 & R1 & -> & X & K1)]; [lia|left|].
  { split; [done|]. eapply starved_le; [done|lia]. }
  ocbn. rewrite (lookup_ge_None_2 (l ++ [y])) by lia. cbn [default from_option id]. change (ISEOF EOC) with true. cbn match.
  rewrite (fo_end _ _ _ _ K1), last_of_app. assert (fsb s1 = fsb s) as Es by apply X.
  destruct (Z.to_nat (off / size + 1)) as [|n] eqn:En; [lia|]. cbn [grow_loop]. rewrite (fo_cnt _ _ _ _ K1), (proj2 (Z.ltb_lt _ _)) by lia.
  destruct (append_ok ip1 s1 R1 l y c) as [[-> Hst]|(ip2 & s2 & R2 & -> & [G1 G2 G3 G4 G5 G6 G7 G8])]; rewrite ?Es; try done.
  { left. split; [done|]. eapply starved_later; [by eapply in_grew|done|done]. }
  right. ocbn. rewrite extend_done by (rewrite (fo_cnt _ _ _ _ G1), length_app; cbn; lia). ocbn.
  unfold LOGISTIC_S_NUM, LOGISTIC_S_OFFSET, LOGISTIC_C_OFFSET. rewrite Es in G4, G5, G6, G8.
  rewrite (sv_cluster _ _ G4), (sv_sector _ _ G4). fold size. rewrite (u32_small size) by lia. exists ip2, s2, R2. split.
  - do 4 f_equal. apply Z.mod_mod_divide. unfold size. apply Z.divide_factor_r.
  - destruct X as [_ (F1 & F2 & F3) _ F4 _]. constructor; try done; [congruence|by eapply (grew_trans 1 1)].
Qed.
End index.

(** *** The bit map of a real volume *)

Lemma map_entries_undef fats : forall c m sb, 0 <= c <= 31 -> 31 - c < Z.of_nat (length fats) -> 31 <= FAT_CLUSTER_MAX sb ->
  map_entries fats c m sb = Undef.
Proof.
  induction fats as [|v fats IH]; intros c m sb Hc Hl Hm; [cbn in Hl; lia|]. cbn [map_entries length] in *.
  unfold BIT_INDEX, BIT_OFFSET, SET_BIT, CLEAR_BIT. rewrite (Z.mod_small c 64) by lia. destruct (Z.eq_dec c 31) as [->|Hne].
  { change (bit_of 31) with (@Undef Z). by destruct (negb (v =? FREE_MASK)). }
  rewrite bit_of_ok by lia. rewrite (proj2 (Z.eqb_neq (c + 1) 64)) by lia. cbn [negb].
  assert (forall m' sb', FAT_CLUSTER_MAX sb' = FAT_CLUSTER_MAX sb ->
    (if FAT_CLUSTER_MAX sb' <? c + 1 then sb ← (l ← store_at (c / 64) m' (bit_map sb'); Done (set_map l sb')); Done (c + 1, m', sb, true)
     else map_entries fats (c + 1) m' sb') = Undef) as Hk.
  { intros m' sb' E. rewrite E, (proj2 (Z.ltb_ge _ _)) by lia. apply IH; lia. }
  destruct (negb (v =? FREE_MASK)); ocbn; [|by apply Hk]. unfold store_at, load_at. rewrite (proj2 (Z.ltb_ge c 0)) by lia.
  destruct (fat_table sb !! Z.to_nat c); [|done]. ocbn. by apply Hk.
Qed.

(** ** The properties *)

Section properties.
Context {A : Type} `{PA : !PageAlloc A, PAOK : !PageAllocOk A}.
Implicit Types (ip : inode) (s : fat_st A) (R : gmap Z (Z * Z)).

(** C28. Loading a file walks its cluster chain to the end - there is one, since a
    chain visits no cluster twice - and records every cluster in the index table,
    their number and the last one; or the allocator fails one of at most as many
    allocations of an index page as there are clusters. *)
Theorem load_spec ip s R l : index_empty ip -> pa_rep (al s) R -> chain (fsb s) (cluster_start ip) l -> l <> [] ->
  Z.of_nat (length l) < MAX_INDEX_1 ->
  (load_clusters ip s = Panic /\ starved (length l) (al s)) \/
  exists ip' s' R', load_clusters ip s = Done (ip', s') /\ file_ok ip' s' R' l /\ fsb s' = fsb s /\ grew (length l) (al s) R (al s') R'.
Proof.
  intros He Ha Hc Hne Hl. destruct (index_empty_ok ip s R He Ha) as (K & D & Hz).
  destruct (load_ok ip s R l K Hz D Hc Hne Hl) as [?|(ip' & s' & R' & E & K' & _ & Es & G)]; [by left|right]. by exists ip', s', R'.
Qed.

(** C29. For a page-aligned offset in the file, [fat32_get_block] finds the sectors of
    the range: laid end to end, its block vectors are the file's sectors from the
    offset on, cut where the range or - when it only reads - the file ends; the
    vectors are freshly allocated and the file stays as it was.  Otherwise the allocator fails one of
    the first 2 * sectors + 1 allocations, of vectors and index pages. *)
Theorem get_block_spec ip s R l off n alloc : file_ok ip s R l -> volume_ok (fsb s) -> 0 <= off < 2 ^ 32 -> off mod PGSIZE = 0 ->
  0 < n -> n mod sector_size (fsb s) = 0 -> n + sector_size (fsb s) <= 2 ^ 32 ->
  let size := sectors_per_block (fsb s) * sector_size (fsb s) in off < Z.of_nat (length l) * size ->
  (alloc = false \/ off + n <= Z.of_nat (length l) * size) ->
  (fat32_get_block ip off n alloc s = Panic /\ starved (1 + 2 * Z.to_nat (n / sector_size (fsb s))) (al s)) \/
  exists vecs ip' s' R',
    let bs := take (Z.to_nat (n / sector_size (fsb s))) (drop (Z.to_nat (off / sector_size (fsb s))) (sectors_of (fsb s) l)) in
    fat32_get_block ip off n alloc s = Done (Z.of_nat (length bs), vecs, ip', s') /\ blocks_of vecs = bs /\
    vecs_owned ip' (al s') R' vecs /\ file_ok ip' s' R' l /\ fsb s' = fsb s /\ grew (1 + 2 * Z.to_nat (n / sector_size (fsb s))) (al s) R (al s') R'.
Proof.
  intros K V Hoff Hal Hn Hns Hn32 size Hin Hfit.
  destruct (get_block_ok ip s R l off n alloc K V Hoff Hal Hn Hns Hn32 Hin Hfit) as [?|(vecs & ip' & s' & R' & E & X & K' & Hv & Eb)]; [by left|right].
  exists vecs, ip', s', R'. split_and!; try done; apply X.
Qed.

(** C30. Moving the cursor to the byte after the last cluster appends one cluster, the
    first one free from the hint on: it was in no file, it becomes the end of this one, the bit map
    and the table still agree, the count of free clusters drops by one and the
    chains of all other files are untouched; or one of two allocations of an index page fails. *)
Theorem cursor_appends ip s R l y c off : file_ok ip s R (l ++ [y]) -> volume_ok (fsb s) -> map_ok (fsb s) ->
  0 < free_count (fsb s) < 2 ^ 32 -> hint_of (fsb s) < FAT_CLUSTER_MAX (fsb s) -> next_free (fsb s) (hint_of (fsb s)) c ->
  Z.of_nat (length (l ++ [y])) + 1 < MAX_INDEX_1 ->
  let size := sectors_per_block (fsb s) * sector_size (fsb s) in off / size = Z.of_nat (length (l ++ [y])) ->
  (forall d l', chain (fsb s) d l' -> c ∉ l') /\
  ((fat32_cursor_to_offset ip off s = Panic /\ starved 2 (al s)) \/
  exists ip' s' R', fat32_cursor_to_offset ip off s =
      Done (off / size + 1, c, (off mod size) / sector_size (fsb s), off mod sector_size (fsb s), ip', s') /\
    grown 2 ip s R l y c ip' s' R').
Proof.
  intros K V M Hfc Hh N Hlen size Hq. split; [|by apply cursor_grow_ok].
  intros d l' Hc Hin. apply (chain_entry _ _ _ _ Hc) in Hin. apply Hin. pose proof N as [(Ho & _) Hmax Hfree _].
  pose proof (mo_agree _ M c ltac:(lia)) as Ha. rewrite Hfree in Ha. symmetry in Ha. apply negb_false_iff in Ha. by apply Z.eqb_eq in Ha.
Qed.

(** C31. Truncating a file gives back exactly its clusters, in the bit map, in the table
    and in the count, touches no other cluster, and empties the index, whose pages
    are freed; or the allocation of an index page for a look-up past a cluster fails. *)
Theorem trunc_spec ip s R l : file_ok ip s R l -> l <> [] -> map_ok (fsb s) -> Forall (fun x => x mod 64 < 31) l ->
  0 <= free_count (fsb s) -> free_count (fsb s) + Z.of_nat (length l) < 2 ^ 32 ->
  (fat32_inode_trunc ip s = Panic /\ starved (length l) (al s)) \/
  exists ip' s' R', fat32_inode_trunc ip s = Done (ip', s') /\ index_empty ip' /\ cluster_start ip' = 0 /\ cluster_cnt ip' = 0 /\
    pa_rep (al s') R' /\ map_ok (fsb s') /\ same_volume (fsb s) (fsb s') /\
    (forall d, 0 <= d -> entry (fsb s') d = if bool_decide (d ∈ l) then 0 else entry (fsb s) d) /\
    free_count (fsb s') = free_count (fsb s) + Z.of_nat (length l).
Proof. apply trunc_ok. Qed.
End properties.

(** [SET_BIT] and [CLEAR_BIT] shift an [int], so building the bit map has no defined
    meaning on any volume with 31 clusters or more (the sectors of its table hold at
    least 32 entries). *)
Theorem bitmap_init_undefined fat_sector sb : 31 <= FAT_CLUSTER_MAX sb -> (32 <= length (fat_sector (fatbase sb)))%nat ->
  fat32_fat_bitmap_init fat_sector sb = Undef.
Proof.
  intros Hm Hl. unfold fat32_fat_bitmap_init. cbn [map_sectors]. rewrite (proj2 (Z.ltb_lt 0 _)) by lia. cbn [negb].
  by rewrite map_entries_undef by lia.
Qed.

(** ** A small volume

    Seventeen clusters of two sectors; a file in the clusters 2, 3 and 5. *)

Definition demo_table : list Z := [0x0FFFFFF8; 0x0FFFFFFF; 3; 5; 0; EOC] ++ replicate 1018 0.
Definition demo_fat : fat_sb := Sb 512 34 2 1 1 1 13 6 true false (47 :: replicate 511 0) demo_table.
Definition demo_new : inode := Ino 2 0 0 (replicate 12 0) (replicate 50 0).
Definition demo_start : fat_st spare := FatSt demo_fat ∅ demo_used.

Lemma demo_chain : chain demo_fat 2 [2; 3; 5].
Proof.
  cbn [chain]. change (FAT_CLUSTER_MAX demo_fat) with 17. split_and!; try done; try lia. exists 3. split_and!; try done; try lia.
  exists 5. split_and!; try done; try lia. by exists EOC.
Qed.

Lemma demo_volume : volume_ok demo_fat.
Proof. constructor; cbn; try lia. split; [lia|]. by exists 8. Qed.

Lemma demo_map : map_ok demo_fat.
Proof.
  constructor; change (FAT_CLUSTER_MAX demo_fat) with 17; [by vm_compute|by vm_compute|lia| |].
  - assert (forallb (fun c => eqb (taken demo_fat c) (negb (entry demo_fat c =? 0))) (seqZ 0 18) = true) as H by (vm_compute; reflexivity).
    intros c Hc. rewrite forallb_forall in H. apply eqb_prop, H, list_elem_of_In, elem_of_seqZ. lia.
  - intros c Hc. assert (c = 0 \/ c = 1) as [->| ->] by lia; done.
Qed.

Lemma demo_empty : index_empty demo_new.
Proof. by split. Qed.

Definition demo_ino : inode := Ino 2 5 3 ([2; 3; 5] ++ replicate 9 0) (replicate 50 0).

Lemma demo_file : exists R, file_ok demo_ino demo_start R [2; 3; 5].
Proof.
  destruct (index_empty_ok demo_new demo_start demo_used demo_empty demo_used_rep) as (K & D & Hz).
  destruct (load_ok demo_new demo_start demo_used [2; 3; 5] K Hz D demo_chain) as [[E _]|(ip & s & R & E & K' & _)];
    [done|by vm_compute|vm_compute in E; discriminate E|].
  assert (load_clusters demo_new demo_start = Done (demo_ino, demo_start)) as E' by (vm_compute; reflexivity).
  rewrite E' in E. injection E as <- <-. by exists R.
Qed.

Lemma demo_free : next_free demo_fat (hint_of demo_fat) 6.
Proof. constructor; [by vm_compute|by vm_compute|by vm_compute|]. intros d Hd. change (hint_of demo_fat) with 6 in Hd. lia. Qed.

Lemma load_spec_witness : exists ip s R, load_clusters demo_new demo_start = Done (ip, s) /\ file_ok ip s R [2; 3; 5].
Proof.
  destruct (load_spec demo_new demo_start demo_used [2; 3; 5] demo_empty demo_used_rep demo_chain) as [[E _]|(ip & s & R & E & K & _)];
    [done|by vm_compute|vm_compute in E; discriminate E|]. by exists ip, s, R.
Defined.

(** Four sectors in a row and two further on. *)
Lemma get_block_spec_witness : exists vecs ip s, fat32_get_block demo_ino 0 3072 false demo_start = Done (6, vecs, ip, s) /\
  blocks_of vecs = [2; 3; 4; 5; 8; 9].
Proof.
  destruct demo_file as [R K].
  destruct (get_block_spec demo_ino demo_start R [2; 3; 5] 0 3072 false K demo_volume) as [[E _]|(vecs & ip & s & R' & E & Eb & _)];
    [lia|done|lia|done|done|done|by left|vm_compute in E; discriminate E|]. by exists vecs, ip, s.
Defined.

Lemma cursor_appends_witness : exists ip s R, fat32_cursor_to_offset demo_ino 3072 demo_start = Done (4, 6, 0, 0, ip, s) /\
  file_ok ip s R [2; 3; 5; 6].
Proof.
  destruct demo_file as [R K].
  destruct (cursor_appends demo_ino demo_start R [2; 3] 5 6 3072 K demo_volume demo_map) as [_ [[E _]|(ip & s & R' & E & G)]];
    [by vm_compute|by vm_compute|exact demo_free|by vm_compute|by vm_compute|vm_compute in E; discriminate E|].
  exists ip, s, R'. split; [exact E|apply G].
Defined.

Lemma trunc_spec_witness : exists ip s, fat32_inode_trunc demo_ino demo_start = Done (ip, s) /\ index_empty ip /\
  free_count (fsb s) = 16 /\ entry (fsb s) 3 = 0.
Proof.
  destruct demo_file as [R K].
  destruct (trunc_spec demo_ino demo_start R [2; 3; 5] K) as [[E _]|(ip & s & R' & E & He & _ & _ & _ & _ & _ & Hent & Hn)];
    [done|exact demo_map|by repeat constructor|by vm_compute|by vm_compute|vm_compute in E; discriminate E|].
  exists ip, s. split; [exact E|]. split; [exact He|]. split; [exact Hn|]. exact (Hent 3 ltac:(lia)).
Defined.

Lemma bitmap_init_undefined_witness : fat32_fat_bitmap_init (fun _ => replicate 128 0) (Sb 512 1000 2 32 2 10 0 0 false false [] []) = Undef.
Proof. apply bitmap_init_undefined; [by vm_compute|by vm_compute; lia]. Defined.
