(* ===== verification/Filemap.v ===== *)
(** * Filemap: the page cache of a file

    [src/mm/filemap.c], [src/fs/mpage.c], [submit_bio] of [src/fs/bio.c] and the
    reading and writing of [src/fs/fat32/fat32_inode.c] on top of them.  The cache is the radix
    tree of [Radix] from page numbers to [struct page]s; what is not cached is found on the
    disk with [fat32_get_block] of [Fat].  Everything allocates from one allocator.

    The contents of memory and of the disk are functions from addresses to bytes.  The device
    ([DiskOps]) and the copies to and from user memory ([CopyOps]) are interfaces, [free_mem]
    is [get_free_mem()], and [pagemeta_start] is where the array of [struct page]s begins.  The file's
    [i_read_lock] is held from the beginning to the end of a read or write, so each is one step. *)

From stdpp Require Import base gmap sets list fin_maps.
From Stdlib Require Import ZArith Lia.
From S2P Require Import Prelude Buddy Kalloc PageAlloc Radix Fat.
#[local] Open Scope Z_scope.

(** ** The interfaces *)

(** A disk as its bytes; a write of [n] bytes at [a]. *)
Class DiskOps (D : Type) := {
  dk_byte : D -> Z -> Z;
  dk_write : Z -> Z -> (Z -> Z) -> D -> D
}.
Class DiskOk (D : Type) `{!DiskOps D} := {
  dk_write_byte a n f d x :
    dk_byte (dk_write a n f d) x = if (a <=? x) && (x <? a + n) then f (x - a) else dk_byte d x
}.

(** User (or kernel) memory outside the cache: [either_copyout], [either_copyin]. *)
Class CopyOps (U : Type) := {
  cp_byte : U -> Z -> Z;
  either_copyout : Z -> Z -> (Z -> Z) -> Z -> U -> Z * U;
  either_copyin : Z -> Z -> Z -> U -> option (Z -> Z)
}.
(** A copy moves all the bytes or returns -1. *)
Class CopyOk (U : Type) `{!CopyOps U} := {
  copyout_byte user dst f len u u' r : either_copyout user dst f len u = (r, u') -> r <> -1 -> forall x,
    cp_byte u' x = if (dst <=? x) && (x <? dst + len) then f (x - dst) else cp_byte u x;
  copyin_byte user src len u f : either_copyin user src len u = Some f ->
    forall i, 0 <= i < len -> f i = cp_byte u (src + i)
}.

Definition DISK_READ : bool := false.
Definition DISK_WRITE : bool := true.

Definition sizeof_page : Z := 80.
Definition sizeof_Page_item : Z := 32.
(** [struct address_space]: a pointer, the root of the tree and four counters. *)
Definition sizeof_address_space : Z := 8 + 16 + 32.
Definition READ_AHEAD_RATE : Z := 20.
Definition READ_AHEAD_PAGE_MAX_CNT : Z := 8.
Definition PAGECACHE_TAG_DIRTY : Z := 0.
Definition GFP_FS : Z := 0x80.

Definition DIV_ROUND_UP (n d : Z) : Z := u64 (n + d - 1) / d.
Definition PGMASK (off : Z) : Z := Z.land off 0xFFF.
Definition WRITE_FULL_PAGE (rest_val : Z) : bool := PGSIZE <=? rest_val.
Definition OUT_FILE (offset_cur offset_tot : Z) : bool := offset_tot <? offset_cur.

(** Byte memory: a range replaced. *)
Definition put_range (a n : Z) (f m : Z -> Z) : Z -> Z :=
  fun x => if (a <=? x) && (x <? a + n) then f (x - a) else m x.

(** The counters of [struct address_space]. *)
Record amap := Amap { nrpages : Z; last_index : Z; read_ahead_cnt : Z; read_ahead_end : Z }.

(** A [struct Page_item]: its address, the page's address and number. *)
Record page_item := Item { it_ptr : Z; it_pa : Z; it_index : Z }.

Definition PAGE_ADJACENT (p_cur p_nxt : page_item) : bool :=
  (u64 (it_index p_cur + 1) =? it_index p_nxt) && (u64 (it_pa p_cur + PGSIZE) =? it_pa p_nxt).

(** The rest of the inode: [i_mapping] (0 for NULL), [S_ISREG(i_mode)], the lists of dirty inodes. *)
Record imeta := Imeta { i_mapping : Z; is_reg : bool; on_dirty_list : bool; dirty_in_parent : bool; i_blocks : Z }.

Section filemap.
Context {A : Type} `{PA : !PageAlloc A} {D : Type} `{DK : !DiskOps D} {U : Type} `{CO : !CopyOps U}.
Context (free_mem : A -> Z) (pagemeta_start : Z).

(** One file with its cache: the tree (which holds the allocator), the counters, the clusters, the volume,
    its index pages, the size, memory and disk. *)
Record pc := Pc {
  tree : rtree A;
  am : amap;
  host : inode;
  hsb : fat_sb;
  htabs : gmap Z (list Z);
  i_size : Z;
  pmem : Z -> Z;
  disk : D
}.

Definition with_tree (t : rtree A) (k : pc) : pc := Pc t (am k) (host k) (hsb k) (htabs k) (i_size k) (pmem k) (disk k).
Definition with_am (a : amap) (k : pc) : pc := Pc (tree k) a (host k) (hsb k) (htabs k) (i_size k) (pmem k) (disk k).
Definition with_pmem (m : Z -> Z) (k : pc) : pc := Pc (tree k) (am k) (host k) (hsb k) (htabs k) (i_size k) m (disk k).
Definition with_disk (d : D) (k : pc) : pc := Pc (tree k) (am k) (host k) (hsb k) (htabs k) (i_size k) (pmem k) d.
Definition with_size (n : Z) (k : pc) : pc := Pc (tree k) (am k) (host k) (hsb k) (htabs k) n (pmem k) (disk k).
Definition with_alloc (a : A) (k : pc) : pc := with_tree (with_al_of a (tree k)) k.

(** The file as [Fat] sees it. *)
Definition fat_of (k : pc) : fat_st A := FatSt (hsb k) (htabs k) (r_al (tree k)).
Definition with_fat (ip : inode) (s : fat_st A) (k : pc) : pc :=
  Pc (with_al_of (al s) (tree k)) (am k) ip (fsb s) (tabs s) (i_size k) (pmem k) (disk k).

(** The [struct page] of a page, and back. *)
Definition page_ptr (p : Z) : Z := pagemeta_start + p * sizeof_page.
Definition ptr_to_pa (q : Z) : Z := page_to_pa ((q - pagemeta_start) / sizeof_page).

(** [kzalloc] of memory whose bytes are kept in [pmem]. *)
Definition kzalloc_bytes (size : Z) (k : pc) : outcome (Z * pc) :=
  '(p, a) ← pa_kmalloc size (r_al (tree k));
  match p with
  | None => Done (0, with_alloc a k)
  | Some p => Done (p, with_pmem (put_range p size (const 0) (pmem k)) (with_alloc a k))
  end.

(** ** The cache *)

(** The page's own [mapping] and [index] are written and never read again. *)
Definition add_to_page_cache_atomic (page index : Z) (k : pc) : outcome (Z * pc) :=
  '(error, t) ← radix_tree_insert index (page_ptr page) (tree k);
  let k := with_tree t k in
  if error =? 0 then
    let m := am k in
    Done (0, with_am (Amap (u64 (nrpages m + 1)) (last_index m) (read_ahead_cnt m) (read_ahead_end m)) k)
  else Panic.

(** The [struct page] or NULL. *)
Definition find_get_page_atomic (index : Z) (k : pc) : outcome Z := radix_tree_lookup_node index (tree k).

Definition max_sane_readahead (nr read_ahead tot_nr : Z) (k : pc) : Z :=
  Z.min (Z.min (u64 (PGROUNDUP nr / PGSIZE + read_ahead))
               (DIV_ROUND_UP (DIV_ROUND_UP (free_mem (r_al (tree k))) READ_AHEAD_RATE) PGSIZE))
        (PGROUNDUP tot_nr / PGSIZE).

(** ** Reading and writing pages of the disk *)

(** [disk_rw] of one vector: [len] sectors from [start] on, at [data]. *)
Definition disk_rw (data start len : Z) (rw : bool) (k : pc) : pc :=
  let ss := sector_size (hsb k) in
  if rw then with_disk (dk_write (start * ss) (len * ss) (fun i => pmem k (data + i)) (disk k)) k
  else with_pmem (put_range data (len * ss) (fun i => dk_byte (disk k) (start * ss + i)) (pmem k)) k.

(** The vectors with the addresses of their data; [free] releases them. *)
Fixpoint submit_bio (vecs : list (bio_vec * Z)) (rw free : bool) (k : pc) : outcome pc :=
  match vecs with
  | [] => Done k
  | ((p, start, len), data) :: vecs =>
      let k := disk_rw data start len rw k in
      k ← (if free then a ← pa_kfree p (r_al (tree k)); Done (with_alloc a k) else Done k);
      submit_bio vecs rw free k
  end.

(** [vec_cur->data = src; src += vec_cur->block_len * bsize] *)
Fixpoint place_vecs (src bsize : Z) (vecs : list bio_vec) : list (bio_vec * Z) :=
  match vecs with
  | [] => []
  | v :: vecs => (v, src) :: place_vecs (u64 (src + v.2 * bsize)) bsize vecs
  end.

Definition block_full_pages (src index cnt : Z) (alloc : bool) (k : pc) : outcome (list (bio_vec * Z) * pc) :=
  let off := u32 (index * PGSIZE) in
  let n := u32 (cnt * PGSIZE) in
  let bsize := sector_size (hsb k) in
  '(blocks_n, vecs, ip, s) ← fat32_get_block (host k) off n alloc (fat_of k);
  let k := with_fat ip s k in
  (if alloc then ASSERT (u32 (blocks_n * bsize) =? n) else Done tt);;
  Done (place_vecs src bsize vecs, k).

Definition fat32_rw_pages (src index : Z) (rw : bool) (cnt : Z) (alloc : bool) (k : pc) : outcome pc :=
  '(vecs, k) ← block_full_pages src index cnt alloc k;
  match vecs with
  | [] => Done k
  | _ => submit_bio vecs rw true k
  end.

(** The inner loop of [fat32_rw_pages_batch]: how many items follow [p_cur_out] page by page, and the rest. *)
Fixpoint batch_run (p_cur_out : page_item) (items : list page_item) : Z * list page_item :=
  match items with
  | [] => (1, [])
  | p_cur_in :: items' =>
      if PAGE_ADJACENT p_cur_out p_cur_in
      then let '(n, rest) := batch_run p_cur_in items' in (n + 1, rest)
      else (1, items)
  end.

Fixpoint batch_loop (fuel : nat) (items : list page_item) (rw alloc : bool) (k : pc) : outcome pc :=
  match items with
  | [] => Done k
  | p_head :: items =>
      match fuel with
      | O => NoFuel
      | S fuel =>
          let '(batch_size, rest) := batch_run p_head items in
          k ← fat32_rw_pages (it_pa p_head) (it_index p_head) rw batch_size alloc k;
          batch_loop fuel rest rw alloc k
      end
  end.

Fixpoint page_list_free (items : list page_item) (k : pc) : outcome pc :=
  match items with
  | [] => Done k
  | it :: items => a ← pa_kfree (it_ptr it) (r_al (tree k)); page_list_free items (with_alloc a k)
  end.

Definition fat32_rw_pages_batch (items : list page_item) (rw alloc : bool) (k : pc) : outcome pc :=
  k ← batch_loop (length items) items rw alloc k;
  page_list_free items k.

(** A new item at the end of the list. *)
Definition new_item (pa index : Z) (items : list page_item) (k : pc) : outcome (list page_item * pc) :=
  '(p, a) ← pa_kmalloc sizeof_Page_item (r_al (tree k));
  match p with
  | None => Panic
  | Some p => Done (items ++ [Item p pa index], with_alloc a k)
  end.

(** [while (end_idx < cnt)]: the first page after [start_idx] that is cached. *)
Fixpoint find_end (fuel : nat) (index end_idx cnt : Z) (k : pc) : outcome Z :=
  if end_idx <? cnt then
    match fuel with
    | O => NoFuel
    | S fuel =>
        page ← find_get_page_atomic (u64 (index + end_idx)) k;
        if page =? 0 then find_end fuel index (end_idx + 1) cnt k else Done end_idx
    end
  else Done end_idx.

(** [for (int z = start_idx; z < end_idx; z++)], [n] pages to go; whether it returned. *)
Fixpoint add_pages (n : nat) (pa index : Z) (only : bool) (items : list page_item) (k : pc)
    : outcome (bool * list page_item * pc) :=
  match n with
  | O => Done (false, items, k)
  | S n =>
      page ← pa_to_page pa;
      '(_, k) ← add_to_page_cache_atomic page index k;
      if only then Done (true, items, k)
      else
        '(items, k) ← new_item pa index items k;
        add_pages n (u64 (pa + PGSIZE)) (u64 (index + 1)) only items k
  end.

Fixpoint readpages_loop (fuel : nat) (start_idx index cnt : Z) (only : bool) (first_pa : Z)
    (items : list page_item) (k : pc) : outcome (bool * Z * list page_item * pc) :=
  if start_idx <? cnt then
    match fuel with
    | O => NoFuel
    | S fuel =>
        page ← find_get_page_atomic (u64 (index + start_idx)) k;
        if page =? 0 then
          end_idx ← find_end (Z.to_nat cnt) index (start_idx + 1) cnt k;
          '(pa, k) ← kzalloc_bytes (u64 (PGSIZE * (end_idx - start_idx))) k;
          if pa =? 0 then Panic
          else
            let first_pa := if first_pa =? 0 then pa else first_pa in
            '(ret, items, k) ← add_pages (Z.to_nat (end_idx - start_idx)) pa (u64 (index + start_idx)) only items k;
            if (ret : bool) then Done (true, first_pa, items, k)
            else readpages_loop fuel (end_idx + 1) index cnt only first_pa items k
        else if start_idx =? 0 then Panic
        else readpages_loop fuel (start_idx + 1) index cnt only first_pa items k
    end
  else Done (false, first_pa, items, k).

(** The address of the first new page. *)
Definition mpage_readpages (index cnt : Z) (read_from_disk alloc : bool) (k : pc) : outcome (Z * pc) :=
  ASSERT (0 <? cnt);;
  '(ret, first_pa, items, k) ←
    readpages_loop (Z.to_nat cnt) 0 index cnt ((cnt =? 1) && negb read_from_disk) 0 [] k;
  if (ret : bool) then Done (first_pa, k)
  else if read_from_disk then k ← fat32_rw_pages_batch items DISK_READ alloc k; Done (first_pa, k)
  else Done (first_pa, k).

(** [page_list_add] on every dirty page. *)
Fixpoint page_list_add (found : list (Z * Z)) (items : list page_item) (k : pc) : outcome (list page_item * pc) :=
  match found with
  | [] => Done (items, k)
  | (item, index) :: found =>
      '(items, k) ← new_item (ptr_to_pa item) index items k;
      page_list_add found items k
  end.

(** [mpage_writepage]: every dirty page goes to the disk; the tags stay.  A missing mapping is a panic. *)
Definition mpage_writepage (im : imeta) (alloc : bool) (k : pc) : outcome pc :=
  if i_mapping im =? 0 then Panic
  else if (r_height (tree k) =? 0) && (r_rnode (tree k) =? 0) then Done k
  else
    found ← radix_tree_general_gang_lookup_elements 0 maxitems_invald (Some PAGECACHE_TAG_DIRTY) (tree k);
    '(items, k) ← page_list_add found [] k;
    let ret := Z.of_nat (length found) in
    ASSERT (0 <? ret);;
    (if (r_height (tree k) =? 0) && negb (ret =? 1) then Panic else Done tt);;
    fat32_rw_pages_batch items DISK_WRITE alloc k.

(** ** Reading and writing the file *)

(** [CHANGE_READ_AHEAD] *)
Definition CHANGE_READ_AHEAD (cnt : Z) : Z := if cnt =? 0 then 1 else u64 (cnt * 2).

(** The counters after a miss at [index]. *)
Definition read_ahead_update (index end_index : Z) (m : amap) : amap :=
  let cnt :=
    if last_index m <? index then
      let ahead_tmp := s32 (u64 (read_ahead_end m + read_ahead_cnt m)) in
      if u64 ahead_tmp <=? end_index then
        if read_ahead_cnt m <? READ_AHEAD_PAGE_MAX_CNT then CHANGE_READ_AHEAD (read_ahead_cnt m)
        else u64 (read_ahead_cnt m + 1)
      else read_ahead_cnt m
    else 0 in
  Amap (nrpages m) index cnt (read_ahead_end m).

(** "Find the page": its address, [None] where the code jumps to [out]. *)
Definition read_page (index off retval n : Z) (k : pc) : outcome (option Z * pc) :=
  page ← find_get_page_atomic index k;
  if page =? 0 then
    let read_sane_cnt := max_sane_readahead (u64 (n - retval)) (read_ahead_cnt (am k)) (u64 (i_size k - (off + retval))) k in
    let m := am k in
    let k := with_am (Amap (nrpages m) (last_index m) (read_ahead_cnt m) (u64 (index + read_sane_cnt - 1))) k in
    if read_sane_cnt <=? 0 then Done (None, k)
    else
      '(pa, k) ← mpage_readpages index read_sane_cnt true false k;
      Done (Some pa, with_am (read_ahead_update index (Z.shiftr (u32 (i_size k - 1)) 12) (am k)) k)
  else Done (Some (ptr_to_pa page), k).

(** The [while (1)] loop, from the test of [index] on: the value returned.  [rounds] is the largest
    number of rounds. *)
Fixpoint read_loop (rounds : nat) (user_dst dst index offset off retval n : Z) (k : pc) (u : U) : outcome (Z * pc * U) :=
  match rounds with
  | O => NoFuel
  | S rounds =>
      let end_index := Z.shiftr (u32 (i_size k - 1)) 12 in
      let isize := i_size k in
      let last := PGMASK (u32 (isize - 1)) + 1 in
      if end_index <? index then Done (retval, k, u)
      else if (index =? end_index) && (last <=? offset) then Panic
      else
        let nr := (if index =? end_index then last else PGSIZE) - offset in
        '(pa, k) ← read_page index off retval n k;
        match pa with
        | None => Done (retval, k, u)
        | Some pa =>
            let len := Z.min (Z.min (u64 (n - retval)) nr) (u64 (isize - offset)) in
            let '(r, u) := either_copyout user_dst dst (fun i => pmem k (pa + offset + i)) len u in
            if r =? -1 then Done (-1, k, u)
            else
              let off := u32 (off + len) in
              let retval := retval + len in
              let dst := u64 (dst + len) in
              if retval =? n then Done (retval, k, u)
              else read_loop rounds user_dst dst (Z.shiftr off 12) (PGMASK off) off retval n k u
        end
  end.

Definition do_generic_file_read (user_dst dst off n : Z) (k : pc) (u : U) : outcome (Z * pc * U) :=
  ASSERT (0 <? i_size k);;
  read_loop (S (Z.to_nat n)) user_dst dst (Z.shiftr off 12) (PGMASK off) off 0 n k u.

(** The page to write to. *)
Definition write_page (index offset isize_offset retval n : Z) (k : pc) : outcome (Z * pc) :=
  page ← find_get_page_atomic index k;
  if page =? 0 then
    let read_from_disk := negb (WRITE_FULL_PAGE (n - retval) || OUT_FILE offset isize_offset) in
    mpage_readpages index 1 read_from_disk true k
  else Done (ptr_to_pa page, k).

Fixpoint write_loop (rounds : nat) (user_src src index offset isize_offset off retval n : Z) (k : pc) (u : U)
    : outcome (Z * pc) :=
  match rounds with
  | O => NoFuel
  | S rounds =>
      let nr := PGSIZE - offset in
      '(pa, k) ← write_page index offset isize_offset retval n k;
      let len := Z.min (u64 (n - retval)) nr in
      match either_copyin user_src src len u with
      | None => Done (-1, k)
      | Some f =>
          let k := with_pmem (put_range (pa + offset) len f (pmem k)) k in
          '(_, t) ← radix_tree_tag_set index PAGECACHE_TAG_DIRTY (tree k);
          let k := with_tree t k in
          let off := u32 (off + len) in
          let retval := retval + len in
          if retval =? n then Done (retval, k)
          else write_loop rounds user_src (u64 (src + len)) (Z.shiftr off 12) (PGMASK off) isize_offset off retval n k u
      end
  end.

Definition do_generic_file_write (user_src src off n : Z) (k : pc) (u : U) : outcome (Z * pc) :=
  ASSERT (0 <? n);;
  write_loop (S (Z.to_nat n)) user_src src (Z.shiftr off 12) (PGMASK off) (i_size k mod PGSIZE) off 0 n k u.


(** *** The inode's view *)

Definition cluster_size (k : pc) : Z := u32 (sectors_per_block (hsb k) * sector_size (hsb k)).

(** [fat32_i_mapping_init] does not look whether [kzalloc] gave anything. *)
Definition fat32_i_mapping_init (im : imeta) (k : pc) : outcome (imeta * pc) :=
  '(p, k) ← kzalloc_bytes sizeof_address_space k;
  if p =? 0 then Undef
  else Done (Imeta p (is_reg im) (on_dirty_list im) (dirty_in_parent im) (i_blocks im),
             with_am (Amap 0 0 0 0) (with_tree (INIT_RADIX_TREE GFP_FS (tree k)) k)).

Definition need_mapping (im : imeta) (k : pc) : outcome (imeta * pc) :=
  if i_mapping im =? 0 then fat32_i_mapping_init im k else Done (im, k).

Definition fat32_inode_read (user_dst dst off n : Z) (im : imeta) (k : pc) (u : U) : outcome (Z * imeta * pc * U) :=
  let fileSize := s32 (i_size k) in
  if (u32 fileSize <? off) || (u32 (off + n) <? off) then Done (0, im, k, u)
  else
    let n := if u32 fileSize <? u32 (off + n) then u32 (fileSize - off) else n in
    if n =? 0 then Done (0, im, k, u)
    else
      '(im, k) ← need_mapping im k;
      '(ret, k, u) ← do_generic_file_read user_dst dst off n k u;
      Done (s32 ret, im, k, u).

Definition __get_blocks (size cluster : Z) : Z :=
  u32 size / cluster + (if Z.land (u32 size) (cluster - 1) =? 0 then 0 else 1).

Definition fat32_inode_write (user_src src off n : Z) (im : imeta) (k : pc) (u : U) : outcome (Z * imeta * pc) :=
  let fileSize := s32 (i_size k) in
  if u32 (off + n) <? off then Done (-1, im, k)
  else
    '(im, k) ← need_mapping im k;
    '(tot, k) ← do_generic_file_write user_src src off n k u;
    let tot := s32 tot in
    if tot =? -1 then Done (-1, im, k)
    else
      let im := Imeta (i_mapping im) (is_reg im) true (dirty_in_parent im) (i_blocks im) in
      if u32 fileSize <? u32 (off + n) then
        let size := if is_reg im then u32 (off + tot)
                    else u32 (u32 (u32 (off + tot) + cluster_size k - 1) / cluster_size k * cluster_size k) in
        Done (tot, Imeta (i_mapping im) (is_reg im) true true (__get_blocks size (cluster_size k)), with_size size k)
      else Done (tot, im, k).

(** [page_of] reads the [allocated] field of a [struct page]. *)
Definition fat32_i_mapping_destroy (page_of : Z -> A -> outcome (bool * Z)) (im : imeta) (k : pc) : outcome (imeta * pc) :=
  if i_mapping im =? 0 then Done (im, k)
  else
    let node := r_rnode (tree k) in
    if node =? 0 then Done (im, k)
    else
      t ← (if negb (radix_tree_is_indirect_ptr node) then
             a ← pa_kfree (ptr_to_pa node) (r_al (tree k)); Done (with_al_of a (tree k))
           else radix_tree_free_whole_tree page_of (Z.to_nat (r_height (tree k) - 1)) (radix_tree_indirect_to_ptr node) (tree k));
      a ← pa_kfree (i_mapping im) (r_al t);
      Done (Imeta 0 (is_reg im) (on_dirty_list im) (dirty_in_parent im) (i_blocks im), with_tree (with_al_of a t) k).

End filemap.
Arguments pc : clear implicits.

(** ** Arithmetic of pages *)

Lemma PGMASK_mod x : PGMASK x = x mod 4096.
Proof. unfold PGMASK. change 0xFFF with (Z.ones 12). by rewrite Z.land_ones. Qed.
Lemma page_of_off x : Z.shiftr x 12 = x / 4096.
Proof. by rewrite Z.shiftr_div_pow2. Qed.

Lemma PGROUNDUP_pages x : 0 <= x < 2 ^ 63 -> PGROUNDUP x / PGSIZE = (x + 4095) / 4096.
Proof.
  intros Hx. rewrite PGROUNDUP_alt, u64_small by lia. unfold PGSIZE.
  pose proof (Z.div_mod (x + 4095) 4096 ltac:(lia)).
  symmetry. apply Z.div_unique with 0; lia.
Qed.

(** A small negative number of bytes left is no page at all. *)
Lemma PGROUNDUP_negative x : -4095 <= x <= 0 -> PGROUNDUP (u64 x) / PGSIZE = 0.
Proof.
  intros Hx. rewrite PGROUNDUP_alt. assert (u64 (u64 x + 4095) = x + 4095) as ->.
  { unfold u64. rewrite Zplus_mod_idemp_l. apply Z.mod_small. lia. }
  rewrite Z.mod_small by lia. by rewrite Z.sub_diag.
Qed.
