(* ===== verification/Pagecache.v ===== *)
(** * Pagecache: what the page cache keeps

    The invariant of one file's cache ([cache_ok]): the tree of [Radix], the file of [Fat] and
    the blocks of the cached pages share one allocator and never a page; and what the operations of
    [Filemap] on memory do to it.  [radix_enter] and [file_enter] use the theorems of [Radix] and
    [Fat] over the allocator with the others' blocks set aside ([framed] of [PageAlloc]). *)

From stdpp Require Import base gmap sets list fin_maps.
From Stdlib Require Import ZArith Lia.
From S2P Require Import Prelude Buddy Kalloc PageAlloc Radix Fat Filemap.
#[local] Open Scope Z_scope.

(** ** Who owns which pages *)

Definition page_no (p : Z) : Z := (p - START_MEM) / 4096.

Lemma page_no_pa q : 0 <= q < NPAGES -> page_no (page_to_pa q) = q.
Proof. intros Hq. unfold page_no. rewrite page_to_pa_alt by done. by rewrite Z.add_simpl_r, Z.div_mul. Qed.

Section sharing.
Context {A : Type} `{PA : !PageAlloc A, OK : !PageAllocOk A}.
Implicit Types (a : A) (R : gmap Z (Z * Z)) (X : gset Z) (tabs : gmap (Z * Z) Z).

(** The blocks that begin at the pages [X] are held through their only references. *)
Definition holds a R X : Prop := forall q, q ∈ X -> exists o, R !! q = Some (o, 1) /\ q ∉ pa_cached a.

(** From one state of the allocator to another the blocks [X] stay. *)
Definition stays R a' R' X : Prop := forall q, q ∈ X -> R' !! q = R !! q /\ q ∉ pa_cached a'.

Lemma holds_stays a R a' R' X : holds a R X -> stays R a' R' X -> holds a' R' X.
Proof. intros H S q Hq. destruct (H q Hq) as (o & E & _), (S q Hq) as [E' Hc]. exists o. by rewrite E'. Qed.

Lemma holds_sub a R X Y : holds a R Y -> X ⊆ Y -> holds a R X.
Proof. intros H S q Hq. apply H. set_solver. Qed.
Lemma stays_sub R a' R' X Y : stays R a' R' Y -> X ⊆ Y -> stays R a' R' X.
Proof. intros H S q Hq. apply H. set_solver. Qed.
Lemma stays_trans R a1 R1 a2 R2 X : stays R a1 R1 X -> stays R1 a2 R2 X -> stays R a2 R2 X.
Proof. intros H1 H2 q Hq. destruct (H1 q Hq) as [E1 _], (H2 q Hq) as [E2 ?]. by rewrite E2, E1. Qed.

Definition frame R X : gmap Z Z := fst <$> filter (fun kv => kv.1 ∈ X) R.

Lemma lookup_frame R X q o : frame R X !! q = Some o <-> q ∈ X /\ exists n, R !! q = Some (o, n).
Proof.
  unfold frame. rewrite lookup_fmap_Some. split.
  - intros ([o' n] & <- & [E Hq]%map_lookup_filter_Some). eauto.
  - intros (Hq & n & E). exists (o, n). split; [done|]. by apply map_lookup_filter_Some.
Qed.

Lemma frame_dom a R X q : holds a R X -> q ∈ dom (frame R X) <-> q ∈ X.
Proof.
  intros H. rewrite elem_of_dom. split; [intros [o E]; by apply lookup_frame in E as [? _]|].
  intros Hq. destruct (H q Hq) as (o & E & _). exists o. apply lookup_frame. eauto.
Qed.

Lemma frame_enter a R X : pa_rep a R -> holds a R X -> pa_rep (PageAllocOk := framed (frame R X)) a R.
Proof.
  intros Ha H. split; [done|]. intros h o (Hh & n & E)%lookup_frame. destruct (H h Hh) as (o' & E' & Hc).
  rewrite E in E'. by injection E' as -> ->.
Qed.

Lemma frame_leave a R X a' R' : holds a R X -> pa_rep (PageAllocOk := framed (frame R X)) a' R' ->
  pa_rep a' R' /\ stays R a' R' X.
Proof.
  intros H [Ha K]. split; [done|]. intros q Hq. destruct (H q Hq) as (o & E & _).
  destruct (K q o) as [E' Hc]; [apply lookup_frame; eauto|]. by rewrite E'.
Qed.

(** *** The tree's nodes *)

Definition tab_pages tabs : gset Z := fin_sets.set_map page_no (map_img tabs : gset Z).

Lemma tab_pages_elem (s : rtree A) tabs M T R q : radix_ok s tabs M T R ->
  q ∈ tab_pages tabs <-> exists x, tabs !! x = Some (page_to_pa q) /\ 0 <= q < NPAGES.
Proof.
  intros K. unfold tab_pages. rewrite elem_of_map. split.
  - intros (p & -> & [[l b] E]%elem_of_map_img). destruct (rk_tab _ _ _ _ _ K _ _ _ E) as (_ & _ & r & -> & Hr & _).
    exists (l, b). rewrite page_no_pa by done. done.
  - intros (x & E & Hq). exists (page_to_pa q). rewrite page_no_pa by done. split; [done|]. apply elem_of_map_img. eauto.
Qed.

(** The tree only cares for the pages of its nodes. *)
Lemma radix_move (s : rtree A) tabs M T R a' R' : radix_ok s tabs M T R -> pa_rep a' R' -> stays R a' R' (tab_pages tabs) ->
  radix_ok (with_al_of a' s) tabs M T R'.
Proof.
  intros K Ha S. pose proof K as [K1 K2 K3 K4 K5 K6 K7 K8 K9 K10].
  constructor; cbn [with_al_of r_height r_rnode r_gfp r_nodes r_al]; try done.
  intros l b p E. destruct (K4 l b p E) as (Hl & Hb & q & -> & Hq & Eq & Hc). split; [done|]. split; [done|].
  exists q. destruct (S q) as [E' Hc']; [eapply tab_pages_elem; eauto|]. by rewrite E'.
Qed.

Lemma radix_enter (s : rtree A) tabs M T R X : radix_ok s tabs M T R -> holds (r_al s) R X -> tab_pages tabs ## X ->
  radix_ok (PageAllocOk0 := framed (frame R X)) s tabs M T R.
Proof.
  intros K H Hd. pose proof K as [K1 K2 K3 K4 K5 K6 K7 K8 K9 K10]. constructor; try done; [by apply frame_enter|].
  intros l b p E. destruct (K4 l b p E) as (Hl & Hb & q & -> & Hq & Eq & Hc). split; [done|]. split; [done|].
  exists q. split_and!; try done; try lia. cbn [pa_cached framed]. rewrite elem_of_union, (frame_dom _ _ _ _ H).
  intros [|HX]; [done|]. apply (Hd q); [|done]. eapply tab_pages_elem; eauto.
Qed.

Lemma radix_leave a (s : rtree A) tabs M T R0 R X : holds a R0 X ->
  radix_ok (PageAllocOk0 := framed (frame R0 X)) s tabs M T R ->
  radix_ok s tabs M T R /\ stays R0 (r_al s) R X /\ tab_pages tabs ## X.
Proof.
  intros H [K1 K2 K3 K4 K5 K6 K7 K8 K9 K10]. destruct (frame_leave _ _ _ _ _ H K2) as [Ha S].
  assert (radix_ok s tabs M T R) as K.
  { constructor; try done. intros l b p E. destruct (K4 l b p E) as (Hl & Hb & q & -> & Hq & Eq & Hc).
    split; [done|]. split; [done|]. exists q. cbn [pa_cached framed] in Hc. split_and!; try done; try lia. set_solver. }
  split; [done|]. split; [done|]. intros q Hq HX. apply (tab_pages_elem _ _ _ _ _ _ K) in Hq as ([l b] & E & Hr).
  destruct (K4 l b _ E) as (_ & _ & q' & Ep & Hq' & _ & Hc). apply page_to_pa_inj in Ep as <-; [|done|done].
  apply Hc. cbn [pa_cached framed]. apply elem_of_union_r. by apply (frame_dom _ _ _ _ H).
Qed.

(** *** The file's index pages *)

Definition idx_pages (ip : inode) : gset Z := list_to_set (page_no <$> filter (fun p => p <> 0) (indirect_one ip)).

Lemma idx_pages_elem ip (s : fat_st A) R q : index_ok ip s R -> q ∈ idx_pages ip <-> index_page ip (page_to_pa q) /\ 0 <= q < NPAGES.
Proof.
  intros K. unfold idx_pages. rewrite elem_of_list_to_set, list_elem_of_fmap. split.
  - intros (p & -> & [Hp Hin]%list_elem_of_filter). destruct (proj1 (list_elem_of_lookup _ _) Hin) as [k Ek].
    destruct (ix_page _ _ _ K k p Ek Hp) as [(r & o & -> & Hr & _) _]. rewrite page_no_pa by done. split; [|done]. split; [done|eauto].
  - intros [[Hp [k Ek]] Hq]. exists (page_to_pa q). rewrite page_no_pa by done. split; [done|].
    apply list_elem_of_filter. split; [done|]. by eapply list_elem_of_lookup_2.
Qed.

Lemma file_move ip (s : fat_st A) R l a' R' : file_ok ip s R l -> pa_rep a' R' -> stays R a' R' (idx_pages ip) ->
  file_ok ip (FatSt (fsb s) (tabs s) a') R' l.
Proof.
  intros [K1 K2 K3 K4 K5 K6 K7] Ha S. constructor; try done. pose proof K1 as [J1 J2 J3 J4 J5]. constructor; try done.
  intros k p E Hp. destruct (J3 k p E Hp) as [(q & o & -> & Hq & Eq & Hc) Ht]. split; [|done].
  destruct (S q) as [E' Hc']; [eapply idx_pages_elem; [done|]; split; [split; eauto|done]|]. exists q, o. by rewrite E'.
Qed.

Lemma file_enter ip (s : fat_st A) R l X : file_ok ip s R l -> holds (al s) R X -> idx_pages ip ## X ->
  file_ok (PAOK := framed (frame R X)) ip s R l.
Proof.
  intros [K1 K2 K3 K4 K5 K6 K7] H Hd. constructor; try done. pose proof K1 as [J1 J2 J3 J4 J5].
  constructor; try done; [|by apply frame_enter]. intros k p E Hp. destruct (J3 k p E Hp) as [(q & o & -> & Hq & Eq & Hc) Ht]. split; [|done].
  exists q, o. split_and!; try done; try lia. cbn [pa_cached framed]. rewrite elem_of_union, (frame_dom _ _ _ _ H).
  intros [|HX]; [done|]. apply (Hd q); [|done]. eapply idx_pages_elem; [done|]; split; [split; eauto|done].
Qed.

Lemma file_leave a ip (s : fat_st A) R0 R l X : holds a R0 X -> file_ok (PAOK := framed (frame R0 X)) ip s R l ->
  file_ok ip s R l /\ stays R0 (al s) R X /\ idx_pages ip ## X.
Proof.
  intros H [K1 K2 K3 K4 K5 K6 K7]. pose proof K1 as [J1 J2 J3 J4 J5]. destruct (frame_leave _ _ _ _ _ H J5) as [Ha S].
  assert (index_ok ip s R) as K.
  { constructor; try done. intros k p E Hp. destruct (J3 k p E Hp) as [(q & o & -> & Hq & Eq & Hc) Ht]. split; [|done].
    exists q, o. cbn [pa_cached framed] in Hc. split_and!; try done; try lia. set_solver. }
  split; [constructor; done|]. split; [done|]. intros q Hq HX. apply (idx_pages_elem _ _ _ _ K) in Hq as [[Hp [k Ek]] Hr].
  destruct (J3 k _ Ek Hp) as [(q' & o & Ep & Hq' & _ & Hc) _]. apply page_to_pa_inj in Ep as <-; [|done|done].
  apply Hc. cbn [pa_cached framed]. apply elem_of_union_r. by apply (frame_dom _ _ _ _ H).
Qed.
End sharing.


(** ** The cache as a whole *)

Section cache.
Context {A : Type} `{PA : !PageAlloc A, OK : !PageAllocOk A} {D : Type} `{DK : !DiskOps D}.
Context (pagemeta_start : Z).
Notation pc := (pc A D).
Notation page_ptr := (page_ptr pagemeta_start).
Notation ptr_to_pa := (ptr_to_pa pagemeta_start).
Implicit Types (k : pc) (R : gmap Z (Z * Z)) (X Y : gset Z) (tabs : gmap (Z * Z) Z) (M : gmap Z Z) (T : gset (Z * Z)).

(** The blocks the tree and the file have allocated. *)
Definition own_pages k tabs : gset Z := tab_pages tabs ∪ idx_pages (host k).

(** The pages [M] of the file [l] are cached, those of [T] tagged; their memory is in the
    blocks [X], and the blocks [Y] are in use for something else. *)
Record cache_ok k M T (l : list Z) R X Y tabs : Prop := {
  ck_tree : radix_ok (tree k) tabs (page_ptr <$> M) T R;
  ck_file : file_ok (host k) (fat_of k) R l;
  ck_holds : holds (r_al (tree k)) R (X ∪ Y);
  ck_apart : X ## Y /\ tab_pages tabs ## idx_pages (host k) /\ own_pages k tabs ## X ∪ Y;
  ck_page x p : M !! x = Some p -> exists h o, h ∈ X /\ R !! h = Some (o, 1) /\ h <= p < h + 2 ^ o;
  ck_inj x y p : M !! x = Some p -> M !! y = Some p -> x = y
}.

Lemma ck_alloc k M T l R X Y tabs : cache_ok k M T l R X Y tabs -> pa_rep (r_al (tree k)) R.
Proof. intros K. apply (rk_alloc _ _ _ _ _ (ck_tree _ _ _ _ _ _ _ _ K)). Qed.

Lemma tab_holds (s : rtree A) tabs M T R : radix_ok s tabs M T R -> holds (r_al s) R (tab_pages tabs).
Proof.
  intros K q Hq. apply (tab_pages_elem _ _ _ _ _ _ K) in Hq as ([l b] & E & Hr).
  destruct (rk_tab _ _ _ _ _ K _ _ _ E) as (_ & _ & q' & Ep & Hq' & Eq & Hc).
  apply page_to_pa_inj in Ep as <-; [|done|done]. eauto.
Qed.

Lemma idx_holds ip (s : fat_st A) R : index_ok ip s R -> holds (al s) R (idx_pages ip).
Proof.
  intros K q Hq. apply (idx_pages_elem _ _ _ _ K) in Hq as [[Hp [i Ei]] Hr].
  destruct (ix_page _ _ _ K i _ Ei Hp) as [(q' & o & Ep & Hq' & Eq & Hc) _].
  apply page_to_pa_inj in Ep as <-; [|done|done]. eauto.
Qed.

Lemma holds_union (a : A) R X Y : holds a R X -> holds a R Y -> holds a R (X ∪ Y).
Proof. intros HX HY q [?|?]%elem_of_union; [by apply HX|by apply HY]. Qed.

Lemma ck_all k M T l R X Y tabs : cache_ok k M T l R X Y tabs -> holds (r_al (tree k)) R (own_pages k tabs ∪ (X ∪ Y)).
Proof.
  intros K. apply holds_union; [|apply K]. apply holds_union.
  - eapply tab_holds, K.
  - apply (idx_holds _ (fat_of k)), K.
Qed.

(** Another state of the allocator that has kept the blocks of all. *)
Lemma cache_move k M T l R X Y tabs a R' : cache_ok k M T l R X Y tabs -> pa_rep a R' ->
  stays R a R' (own_pages k tabs ∪ (X ∪ Y)) -> cache_ok (with_alloc a k) M T l R' X Y tabs.
Proof.
  intros [K1 K2 K3 K4 K5 K6] Ha S. constructor; try done.
  - eapply radix_move; [done|done|]. eapply stays_sub; [done|]. unfold own_pages. set_solver.
  - apply (file_move (host k) (fat_of k) R); [done|done|]. eapply stays_sub; [done|]. unfold own_pages. set_solver.
  - eapply holds_stays; [done|]. eapply stays_sub; [done|]. set_solver.
  - intros x p E. destruct (K5 x p E) as (h & o & Hh & Eh & Hp). exists h, o. split; [done|]. split; [|done].
    destruct (S h) as [-> _]; [set_solver|done].
Qed.

(** What is allocated or freed otherwise: the blocks of others. *)
Lemma stays_others a R a' R' q X : holds a R X -> q ∉ X -> pa_cached a' ⊆ pa_cached a ->
  (forall q', q' <> q -> q' ∉ pa_cached a -> R' !! q' = R !! q') -> stays R a' R' X.
Proof.
  intros H Hq Hc Hk q' Hq'. destruct (H q' Hq') as (o & _ & Hn). split; [|set_solver]. apply Hk; [set_solver|done].
Qed.

Lemma cache_alloc k M T l R X Y tabs size : cache_ok k M T l R X Y tabs -> 0 < size <= PGSIZE * 2 ^ BUDDY_MAX_ORDER ->
  pa_kmalloc size (r_al (tree k)) = Done (None, r_al (tree k)) \/
  exists q o a R', pa_kmalloc size (r_al (tree k)) = Done (Some (page_to_pa q), a) /\ least_order size o /\
    0 <= q /\ q + 2 ^ o <= NPAGES /\ R' !! q = Some (o, 1) /\ q ∉ own_pages k tabs ∪ (X ∪ Y) /\
    (forall h o' n, R !! h = Some (o', n) -> ~ meets h o' q o) /\
    (forall h, h ∈ own_pages k tabs ∪ (X ∪ Y) -> R' !! h = R !! h) /\
    cache_ok (with_alloc a k) M T l R' X ({[q]} ∪ Y) tabs.
Proof.
  intros K Hs. pose proof (ck_alloc _ _ _ _ _ _ _ _ K) as Ha. pose proof (ck_all _ _ _ _ _ _ _ _ K) as Hall.
  destruct (pa_kmalloc_ok _ _ size Ha Hs) as (o & r & a & E & Ho & Hr). destruct r as [pa|]; [right|left; by subst].
  destruct Hr as (q & R' & -> & Hq & Hm & Ha' & Eq & Hqc & Hk & Hc).
  destruct (pa_range _ _ _ _ _ Ha' Eq) as (Ho0 & Hq0 & Hq1 & _).
  assert (q ∉ own_pages k tabs ∪ (X ∪ Y)) as Hn. { intros Hin. destruct (Hall q Hin) as (o' & E' & _). congruence. }
  pose proof (stays_others _ _ _ _ _ _ Hall Hn Hc Hk) as S.
  exists q, o, a, R'. split_and!; try done.
  - intros h Hh. by destruct (S h Hh).
  - destruct (cache_move k M T l R X Y tabs a R' K Ha' S) as [K1 K2 K3 K4 K5 K6]. constructor; try done.
    + intros h [?|[->%elem_of_singleton|?]%elem_of_union]%elem_of_union; [apply K3; set_solver| |apply K3; set_solver].
      exists o. done.
    + destruct K4 as (K41 & K42 & K43). change (own_pages (with_alloc a k) tabs) with (own_pages k tabs) in *. split_and!; [set_solver|done|set_solver].
Qed.

Lemma cache_free k M T l R X Y tabs q : cache_ok k M T l R X Y tabs -> q ∈ Y ->
  exists a R', pa_kfree (page_to_pa q) (r_al (tree k)) = Done a /\ cache_ok (with_alloc a k) M T l R' X (Y ∖ {[q]}) tabs /\
    (forall h, h ∈ own_pages k tabs ∪ (X ∪ Y ∖ {[q]}) -> R' !! h = R !! h).
Proof.
  intros K Hq. pose proof (ck_alloc _ _ _ _ _ _ _ _ K) as Ha. pose proof (ck_all _ _ _ _ _ _ _ _ K) as Hall.
  destruct (Hall q ltac:(set_solver)) as (o & Eq & Hc). destruct (pa_kfree_ok _ _ q o 1 Ha Eq Hc) as (a & E & Ha' & Ec).
  pose proof K as [K1 K2 K3 (K41 & K42 & K43) K5 K6].
  assert (cache_ok k M T l R X (Y ∖ {[q]}) tabs) as K'.
  { constructor; try done; [|split_and!; set_solver]. eapply holds_sub; [done|]. set_solver. }
  assert (stays R a (drop_ref q R) (own_pages k tabs ∪ (X ∪ Y ∖ {[q]}))) as S.
  { intros q' Hq'. destruct (Hall q' ltac:(set_solver)) as (o' & _ & Hc'). rewrite Ec. split; [|done].
    apply drop_ref_ne. intros ->. set_solver. }
  exists a, (drop_ref q R). split; [done|]. split; [|intros h Hh; by apply S]. by eapply cache_move.
Qed.

(** A block in use otherwise becomes one for cached pages. *)
Lemma cache_give k M T l R X Y tabs q : cache_ok k M T l R X Y tabs -> q ∈ Y -> cache_ok k M T l R ({[q]} ∪ X) (Y ∖ {[q]}) tabs.
Proof.
  intros [K1 K2 K3 (K41 & K42 & K43) K5 K6] Hq. constructor; try done.
  - eapply holds_sub; [done|]. set_solver.
  - split_and!; set_solver.
  - intros x p E. destruct (K5 x p E) as (h & o & Hh & H). exists h, o. split; [set_solver|done].
Qed.

Hypothesis (Hmeta : 0 < pagemeta_start < 2 ^ 63 /\ pagemeta_start mod 2 = 0).

Lemma page_item_ok p : 0 <= p -> item_ok (page_ptr p).
Proof.
  intros Hp. destruct Hmeta as [H1 H2]. unfold item_ok, Filemap.page_ptr, sizeof_page. split; [lia|].
  rewrite Z.bit0_odd, Z.odd_add, Z.odd_mul, andb_false_r, xorb_false_r. rewrite Zmod_odd in H2. by destruct (Z.odd pagemeta_start).
Qed.

Lemma ptr_of_page p : ptr_to_pa (page_ptr p) = page_to_pa p.
Proof. unfold Filemap.ptr_to_pa, Filemap.page_ptr, sizeof_page. f_equal. rewrite Z.add_simpl_l. by rewrite Z.div_mul. Qed.

Lemma ck_range k M T l R X Y tabs x p : cache_ok k M T l R X Y tabs -> M !! x = Some p -> 0 <= x < 2 ^ 30 /\ 0 <= p < NPAGES.
Proof.
  intros K E. destruct (ck_page _ _ _ _ _ _ _ _ K x p E) as (h & o & _ & Eh & Hp).
  destruct (pa_range _ _ _ _ _ (ck_alloc _ _ _ _ _ _ _ _ K) Eh) as (_ & ? & ? & _). split; [|lia].
  destruct (rk_item _ _ _ _ _ (ck_tree _ _ _ _ _ _ _ _ K) x (page_ptr p)) as (_ & Hx & _); [by rewrite lookup_fmap, E|].
  pose proof (rk_height _ _ _ _ _ (ck_tree _ _ _ _ _ _ _ _ K)). split; [apply Hx|]. eapply Z.lt_le_trans; [apply Hx|]. apply Z.pow_le_mono_r; lia.
Qed.

(** [find_get_page_atomic] finds what is cached. *)
Lemma find_page_ok k M T l R X Y tabs x : cache_ok k M T l R X Y tabs -> 0 <= x ->
  find_get_page_atomic x k = Done (match M !! x with Some p => page_ptr p | None => 0 end).
Proof.
  intros K Hx. unfold find_get_page_atomic. rewrite (radix_lookup_spec _ _ _ _ _ x (ck_tree _ _ _ _ _ _ _ _ K) Hx), lookup_fmap.
  by destruct (M !! x).
Qed.

(** A page of a block of the cache's enters it. *)
Lemma cache_insert k M T l R X Y tabs x p h o : cache_ok k M T l R X Y tabs -> h ∈ X -> R !! h = Some (o, 1) -> h <= p < h + 2 ^ o ->
  0 <= x < 2 ^ 30 -> M !! x = None -> (forall y, M !! y <> Some p) ->
  (add_to_page_cache_atomic pagemeta_start p x k = Panic /\ dry PGSIZE 10 (r_al (tree k))) \/
  exists m t R' tabs', let k' := with_am (Amap m (last_index (am k)) (read_ahead_cnt (am k)) (read_ahead_end (am k))) (with_tree t k) in
    add_to_page_cache_atomic pagemeta_start p x k = Done (0, k') /\ cache_ok k' (<[x := p]> M) T l R' X Y tabs' /\
    (forall q, q ∈ X ∪ Y -> R' !! q = R !! q) /\ uses PGSIZE 10 (r_al (tree k)) (r_al t).
Proof.
  intros K Hh Eh Hp Hx HM Hnew. pose proof K as [K1 K2 K3 (K41 & K42 & K43) K5 K6]. pose proof (ck_alloc _ _ _ _ _ _ _ _ K) as Ha.
  destruct (pa_range _ _ _ _ _ Ha Eh) as (_ & Hh0 & _ & _). set (F := idx_pages (host k) ∪ (X ∪ Y)).
  assert (holds (r_al (tree k)) R F) as HF. { apply holds_union; [|done]. apply (idx_holds _ (fat_of k)), K2. }
  assert (tab_pages tabs ## F) as Hd. { unfold own_pages in K43. unfold F. set_solver. }
  pose proof (radix_enter _ _ _ _ _ F K1 HF Hd) as Ke.
  pose proof (insert_ok (PageAllocOk0 := framed (frame R F)) _ _ _ _ _ x (page_ptr p) Ke Hx (page_item_ok p ltac:(lia))) as Hi.
  rewrite lookup_fmap, HM in Hi. cbn [fmap option_fmap option_map] in Hi. unfold add_to_page_cache_atomic.
  destruct Hi as [[-> Hr]|(t & tabs' & R' & -> & Kt & HU)]; [left; split; [done|exact Hr]|right].
  destruct (radix_leave (r_al (tree k)) t tabs' _ T R R' F HF Kt) as (Kt' & S & Hd'). ocbn. cbn [Z.eqb].
  do 2 eexists. exists R', tabs'. split; [done|]. split; [|split; [intros q Hq; apply S; unfold F; set_solver|exact HU]].
  constructor; cbn [tree with_am with_tree host].
  - by rewrite fmap_insert.
  - apply (file_move (host k) (fat_of k) R); [done|apply Kt'|]. eapply stays_sub; [exact S|]. unfold F. set_solver.
  - eapply holds_stays; [exact K3|]. eapply stays_sub; [exact S|]. unfold F. set_solver.
  - unfold own_pages in *. cbn [host with_am with_tree]. unfold F in Hd'. split_and!; [done|set_solver|set_solver].
  - intros y q E. destruct (decide (y = x)) as [->|Hne].
    + rewrite lookup_insert_eq in E. injection E as <-. exists h, o. split; [done|]. destruct (S h) as [-> _]; [unfold F; set_solver|done].
    + rewrite lookup_insert_ne in E by done. destruct (K5 y q E) as (h' & o' & Hh' & Eh' & Hq'). exists h', o'. split; [done|].
      destruct (S h') as [-> _]; [unfold F; set_solver|done].
  - intros y z q E1 E2. destruct (decide (y = x)) as [->|Hy], (decide (z = x)) as [->|Hz]; [done|..].
    + rewrite lookup_insert_eq in E1. injection E1 as <-. rewrite lookup_insert_ne in E2 by done. by destruct (Hnew z).
    + rewrite lookup_insert_eq in E2. injection E2 as <-. rewrite lookup_insert_ne in E1 by done. by destruct (Hnew y).
    + rewrite lookup_insert_ne in E1, E2 by done. by eapply K6.
Qed.

(** Tagging a cached page. *)
Lemma cache_tag k M T l R X Y tabs x p t : cache_ok k M T l R X Y tabs -> M !! x = Some p -> tag_no t ->
  exists s, radix_tree_tag_set x t (tree k) = Done (page_ptr p, s) /\ r_al s = r_al (tree k) /\
    cache_ok (with_tree s k) M ({[(t, x)]} ∪ T) l R X Y tabs.
Proof.
  intros K E Ht. pose proof K as [K1 K2 K3 (K41 & K42 & K43) K5 K6].
  destruct (tag_set_ok _ _ _ _ _ x (page_ptr p) t K1) as (s & Es & K' & Ea); [by rewrite lookup_fmap, E|done|].
  exists s. split; [done|]. split; [done|]. constructor; try done; cbn [tree with_tree host].
  - unfold fat_of. cbn [hsb htabs tree with_tree]. by rewrite Ea.
  - by rewrite Ea.
Qed.

(** *** New pages and their list *)

(** What only the cache's bookkeeping may change. *)
Record same_file k k' : Prop := {
  sf_sb : hsb k' = hsb k;
  sf_size : i_size k' = i_size k;
  sf_disk : disk k' = disk k;
  sf_ahead : read_ahead_cnt (am k') = read_ahead_cnt (am k) /\ last_index (am k') = last_index (am k) /\
    read_ahead_end (am k') = read_ahead_end (am k)
}.
Lemma same_file_refl k : same_file k k.
Proof. done. Qed.
Lemma same_file_trans k1 k2 k3 : same_file k1 k2 -> same_file k2 k3 -> same_file k1 k3.
Proof. intros [A1 A2 A3 (A4 & A5 & A6)] [B1 B2 B3 (B4 & B5 & B6)]. constructor; [congruence..|]. split_and!; congruence. Qed.

(** The pages from [p] on cached for [n] indexes from [x] on. *)
Fixpoint fill (n : nat) (x p : Z) M : gmap Z Z :=
  match n with O => M | S n => fill n (x + 1) (p + 1) (<[x := p]> M) end.

Lemma fill_lookup n : forall x p M y,
  fill n x p M !! y = if bool_decide (x <= y < x + Z.of_nat n) then Some (p + (y - x)) else M !! y.
Proof.
  induction n as [|n IH]; intros x p M y; cbn [fill].
  - rewrite bool_decide_eq_false_2 by lia. done.
  - rewrite IH. case_bool_decide; case_bool_decide; try lia.
    + f_equal. lia.
    + assert (y = x) as -> by lia. rewrite lookup_insert_eq. f_equal. lia.
    + by rewrite lookup_insert_ne by lia.
Qed.

(** The items' own memory. *)
Definition item_nos (its : list page_item) : list Z := (fun it => page_no (it_ptr it)) <$> its.
Definition item_set (its : list page_item) : gset Z := list_to_set (item_nos its).
Record items_ok (its : list page_item) Y : Prop := {
  io_nodup : NoDup (item_nos its);
  io_new : item_set its ## Y;
  io_page : Forall (fun it => exists q, it_ptr it = page_to_pa q /\ 0 <= q < NPAGES) its
}.

Lemma item_set_app its its' : item_set (its ++ its') = item_set its ∪ item_set its'.
Proof. unfold item_set, item_nos. by rewrite fmap_app, list_to_set_app_L. Qed.

Lemma new_item_ok k M T l R X Y tabs its pa x : cache_ok k M T l R X (item_set its ∪ Y) tabs -> items_ok its Y ->
  (new_item pa x its k = Panic /\ dry PGSIZE 1 (r_al (tree k))) \/
  exists it a R', new_item pa x its k = Done (its ++ [it], with_alloc a k) /\ it_pa it = pa /\ it_index it = x /\
    cache_ok (with_alloc a k) M T l R' X (item_set (its ++ [it]) ∪ Y) tabs /\ items_ok (its ++ [it]) Y /\
    (forall q, q ∈ X -> R' !! q = R !! q) /\ uses PGSIZE 1 (r_al (tree k)) a.
Proof.
  intros K [I1 I2 I3]. unfold new_item.
  destruct (cache_alloc _ _ _ _ _ _ _ _ sizeof_Page_item K) as [E|(q & o & a & R' & E & _ & Hq0 & Hq1 & Eq & Hn & _ & Hk & K')].
  { unfold sizeof_Page_item, PGSIZE. split; [lia|]. change (2 ^ BUDDY_MAX_ORDER) with (2 ^ 13). lia. }
  - left. rewrite E. split; [done|]. eapply dry_now; [lia| |exact E]. by vm_compute.
  - right. rewrite E. ocbn. pose proof (pa_range _ _ _ _ _ (ck_alloc _ _ _ _ _ _ _ _ K') Eq) as (Ho & _ & _ & _). pose proof (pow2_pos o Ho).
    exists (Item (page_to_pa q) pa x), a, R'. assert (item_set [Item (page_to_pa q) pa x] = {[q]}) as Es.
    { unfold item_set, item_nos. cbn. rewrite page_no_pa by lia. set_solver. }
    split; [done|]. split; [done|]. split; [done|]. rewrite item_set_app, Es. split_and!.
    + replace (item_set its ∪ {[q]} ∪ Y) with ({[q]} ∪ (item_set its ∪ Y)) by set_solver. done.
    + constructor.
      * unfold item_nos. rewrite fmap_app. cbn. rewrite page_no_pa by lia. apply NoDup_app. split; [done|]. split; [|apply NoDup_singleton].
        intros y Hy ->%list_elem_of_singleton. apply Hn. apply elem_of_union_r, elem_of_union_r, elem_of_union_l.
        unfold item_set. by apply elem_of_list_to_set.
      * rewrite item_set_app, Es. set_solver.
      * apply Forall_app. split; [done|]. constructor; [|done]. exists q. split; [done|lia].
    + intros h Hh. apply Hk. set_solver.
    + eapply uses_alloc; [|exact E|constructor]. by vm_compute.
Qed.

Lemma page_next p : u64 (page_to_pa p + PGSIZE) = page_to_pa (p + 1).
Proof. unfold page_to_pa. unfold u64. rewrite Zplus_mod_idemp_l. f_equal. unfold PGSIZE. lia. Qed.

(** [n] pages of one block. *)
Lemma add_pages_ok n : forall x p its k M T l R X Y tabs h o, cache_ok k M T l R X (item_set its ∪ Y) tabs -> items_ok its Y ->
  h ∈ X -> R !! h = Some (o, 1) -> h <= p -> p + Z.of_nat n <= h + 2 ^ o -> 0 <= x -> x + Z.of_nat n <= 2 ^ 30 ->
  (forall y, x <= y < x + Z.of_nat n -> M !! y = None) -> (forall y q, M !! y = Some q -> ~ p <= q < p + Z.of_nat n) ->
  (add_pages pagemeta_start n (page_to_pa p) x false its k = Panic /\ dry PGSIZE (11 * n) (r_al (tree k))) \/
  exists its' k' R' tabs', add_pages pagemeta_start n (page_to_pa p) x false its k = Done (false, its ++ its', k') /\
    cache_ok k' (fill n x p M) T l R' X (item_set (its ++ its') ∪ Y) tabs' /\ items_ok (its ++ its') Y /\
    ((fun it => (it_pa it, it_index it)) <$> its') = (fun i => (page_to_pa (p + i), x + i)) <$> seqZ 0 (Z.of_nat n) /\
    (forall q, q ∈ X -> R' !! q = R !! q) /\ same_file k k' /\ pmem k' = pmem k /\ host k' = host k /\
    uses PGSIZE (11 * n) (r_al (tree k)) (r_al (tree k')).
Proof.
  induction n as [|n IH]; intros x p its k M T l R X Y tabs h o K I Hh Eh Hhp Hpn Hx Hxn HM Hnew; cbn [add_pages].
  { right. exists [], k, R, tabs. rewrite app_nil_r. split_and!; try done. constructor. }
  destruct (pa_range _ _ _ _ _ (ck_alloc _ _ _ _ _ _ _ _ K) Eh) as (_ & Hh0 & Hh1 & _).
  rewrite page_to_pa_to_page by lia. ocbn.
  destruct (cache_insert k M T l R X _ tabs x p h o K Hh Eh ltac:(lia) ltac:(lia) (HM x ltac:(lia)))
    as [[-> Hd]|(m & t & R1 & tabs1 & -> & K1 & Hk1 & U1)].
  { intros y Ey. apply (Hnew y p Ey). lia. }
  { left. split; [done|]. eapply dry_le; [exact Hd|done|lia]. }
  ocbn. set (k1 := with_am _ _) in *.
  destruct (new_item_ok k1 _ T l R1 X Y tabs1 its (page_to_pa p) x K1 I) as [[-> Hd]|(it & a & R2 & -> & Ep & Ei & K2 & I2 & Hk2 & U2)].
  { left. split; [done|]. eapply dry_later; [exact U1|exact Hd|lia]. }
  ocbn. rewrite page_next, (u64_small (x + 1)) by lia. set (k2 := with_alloc a k1) in *.
  destruct (IH (x + 1) (p + 1) (its ++ [it]) k2 (<[x := p]> M) T l R2 X Y tabs1 h o K2 I2 Hh)
    as [[-> Hd]|(its' & k3 & R3 & tabs3 & -> & K3 & I3 & El & Hk3 & S3 & E3 & E3' & U3)]; try lia.
  { rewrite Hk2, Hk1 by (set_solver || done). done. }
  { intros y Hy. rewrite lookup_insert_ne by lia. apply HM. lia. }
  { intros y q Eq. destruct (decide (y = x)) as [->|Hne].
    - rewrite lookup_insert_eq in Eq. injection Eq as <-. lia.
    - rewrite lookup_insert_ne in Eq by done. specialize (Hnew y q Eq). lia. }
  { left. split; [done|]. eapply dry_later; [exact U1|eapply (dry_later _ 1); [exact U2|exact Hd|done]|lia]. }
  right. rewrite <- !app_assoc in *. cbn [app] in *. exists (it :: its'), k3, R3, tabs3. split_and!; try done.
  - cbn [fmap list_fmap]. rewrite Ep, Ei. rewrite (seqZ_cons 0) by lia. cbn [fmap list_fmap]. rewrite !Z.add_0_r. f_equal.
    change (list_fmap _ _ (fun it => (it_pa it, it_index it)) its') with ((fun it => (it_pa it, it_index it)) <$> its'). rewrite El.
    replace (Z.pred (Z.of_nat (S n))) with (Z.of_nat n) by lia. change (Z.succ 0) with (1 + 0). rewrite <- fmap_add_seqZ, <- list_fmap_compose.
    apply list_fmap_ext. intros _ i _. cbn. f_equal; [f_equal; lia|lia].
  - intros q Hq. rewrite Hk3, Hk2 by done. apply Hk1. set_solver.
  - eapply same_file_trans; [|exact S3]. constructor; done.
  - replace (11 * S n)%nat with (10 + (1 + 11 * n))%nat by lia. eapply uses_trans; [exact U1|]. by eapply uses_trans.
Qed.

(** *** Fresh memory for the cache *)

Definition page_range (p : Z) (a : Z) : Prop := page_to_pa p <= a < page_to_pa p + 4096.

(** Pages have their own bytes. *)
Lemma page_range_inj p q a : 0 <= p < NPAGES -> 0 <= q < NPAGES -> page_range p a -> page_range q a -> p = q.
Proof. unfold page_range. intros Hp Hq. rewrite !page_to_pa_alt by done. lia. Qed.

(** Two states agree on the bytes of the cached pages [M]. *)
Definition same_pages M k k' : Prop := forall x p, M !! x = Some p -> forall i, 0 <= i < 4096 -> pmem k' (page_to_pa p + i) = pmem k (page_to_pa p + i).
Definition zero_page k (p : Z) : Prop := forall i, 0 <= i < 4096 -> pmem k (page_to_pa p + i) = 0.

Lemma same_pages_trans M M' k1 k2 k3 : same_pages M k1 k2 -> same_pages M' k2 k3 -> M ⊆ M' -> same_pages M k1 k3.
Proof. intros H1 H2 Hs x p E i Hi. rewrite (H2 x p (lookup_weaken _ _ _ _ E Hs) i Hi). by apply (H1 x p). Qed.

Lemma cache_kzalloc k M T l R X Y tabs n : cache_ok k M T l R X Y tabs -> 0 < n <= 2 ^ 13 ->
  (exists k', kzalloc_bytes (u64 (PGSIZE * n)) k = Done (0, k') /\ dry (PGSIZE * n) 1 (r_al (tree k))) \/
  exists q o k' R', kzalloc_bytes (u64 (PGSIZE * n)) k = Done (page_to_pa q, k') /\ page_to_pa q <> 0 /\
    cache_ok k' M T l R' ({[q]} ∪ X) Y tabs /\ 0 <= q /\ q + n <= NPAGES /\ R' !! q = Some (o, 1) /\ n <= 2 ^ o /\
    (forall h, h ∈ X -> R' !! h = R !! h) /\ (forall y p, M !! y = Some p -> ~ q <= p < q + n) /\
    same_pages M k k' /\ (forall p, q <= p < q + n -> zero_page k' p) /\ same_file k k' /\ host k' = host k /\
    uses (PGSIZE * n) 1 (r_al (tree k)) (r_al (tree k')).
Proof.
  intros K Hn. unfold kzalloc_bytes. rewrite u64_small by (unfold PGSIZE; lia).
  destruct (cache_alloc _ _ _ _ _ _ _ _ (PGSIZE * n) K) as [E|(q & o & a & R' & E & (Ho & Hsz & _) & Hq0 & Hq1 & Eq & Hnin & Hm & Hk & K')].
  { unfold PGSIZE. change (2 ^ BUDDY_MAX_ORDER) with (2 ^ 13). lia. }
  { left. rewrite E. ocbn. eexists. split; [done|]. eapply dry_now; [lia| |exact E]. lia. }
  right. rewrite E. ocbn. assert (n <= 2 ^ o) as Hno by (unfold PGSIZE in Hsz; lia).
  set (k' := with_pmem _ _). exists q, o, k', R'.
  assert (forall y p, M !! y = Some p -> ~ q <= p < q + 2 ^ o) as Hfresh.
  { intros y p Ey Hp. destruct (ck_page _ _ _ _ _ _ _ _ K y p Ey) as (h & o' & _ & Eh & Hp'). apply (Hm h o' 1 Eh). unfold meets. lia. }
  split; [done|]. split; [rewrite page_to_pa_alt by lia; unfold START_MEM; lia|]. split_and!; try done; try lia.
  - destruct (cache_give _ _ _ _ _ _ _ _ q K' ltac:(set_solver)) as [K1 K2 K3 K4 K5 K6].
    assert (({[q]} ∪ Y) ∖ {[q]} = Y) as EY by set_solver. rewrite EY in *. by constructor.
  - intros h Hh. apply Hk. set_solver.
  - intros y p Ey Hp. apply (Hfresh y p Ey). lia.
  - intros y p Ey i Hi. cbn [pmem k' with_pmem]. unfold put_range. pose proof (Hfresh y p Ey).
    destruct (ck_range _ _ _ _ _ _ _ _ _ _ K Ey) as [_ Hp]. rewrite !page_to_pa_alt by lia. unfold PGSIZE.
    destruct (Z.leb_spec (q * 4096 + START_MEM) (p * 4096 + START_MEM + i)), (Z.ltb_spec (p * 4096 + START_MEM + i) (q * 4096 + START_MEM + 4096 * n)); cbn [andb]; try done. lia.
  - intros p Hp i Hi. cbn [pmem k' with_pmem]. unfold put_range. rewrite !page_to_pa_alt by lia. unfold PGSIZE.
    destruct (Z.leb_spec (q * 4096 + START_MEM) (p * 4096 + START_MEM + i)), (Z.ltb_spec (p * 4096 + START_MEM + i) (q * 4096 + START_MEM + 4096 * n)); cbn [andb]; try done; lia.
  - eapply uses_alloc; [|exact E|constructor]. lia.
Qed.

Lemma find_end_ok k M T l R X Y tabs index cnt : cache_ok k M T l R X Y tabs -> 0 <= index -> index + cnt < 2 ^ 64 ->
  forall fuel e, 0 <= e <= cnt -> (Z.to_nat (cnt - e) <= fuel)%nat ->
  exists e', find_end fuel index e cnt k = Done e' /\ e <= e' <= cnt /\ (forall z, e <= z < e' -> M !! (index + z) = None) /\
    (e' < cnt -> is_Some (M !! (index + e'))).
Proof.
  intros K Hi Hc fuel. induction fuel as [|fuel IH]; intros e He Hf; cbn [find_end]; destruct (Z.ltb_spec e cnt); try lia.
  1, 3: exists e; split_and!; [done|lia|lia|intros z Hz; lia|lia].
  rewrite u64_small by lia. rewrite (find_page_ok _ _ _ _ _ _ _ _ _ K) by lia. ocbn. destruct (M !! (index + e)) as [p|] eqn:Ep.
  - destruct (ck_range _ _ _ _ _ _ _ _ _ _ K Ep) as [_ Hp]. destruct (page_item_ok p ltac:(lia)) as [Hp0 _].
    rewrite (proj2 (Z.eqb_neq _ _)) by done. exists e. split_and!; [done|lia|lia|intros z Hz; lia|]. rewrite Ep. eauto.
  - cbn [Z.eqb]. destruct (IH (e + 1)) as (e' & -> & He' & Hnone & Hsome); [lia|lia|]. exists e'. split_and!; [done|lia|lia| |done].
    intros z Hz. destruct (Z.eq_dec z e) as [->|]; [done|]. apply Hnone. lia.
Qed.

(** What the loop over [s..cnt) adds to the cache and to the list. *)
Record added k M index s cnt its k' M' : Prop := {
  ad_sub : M ⊆ M';
  ad_new x p : M' !! x = Some p -> M !! x = None -> index + s <= x < index + cnt /\ zero_page k' p;
  ad_all x : index + s <= x < index + cnt -> is_Some (M' !! x);
  ad_items : Forall (fun it => exists p, M' !! it_index it = Some p /\ it_pa it = page_to_pa p) its;
  ad_index : NoDup (it_index <$> its) /\ forall x, x ∈ it_index <$> its <-> index + s <= x < index + cnt /\ M !! x = None;
  ad_old : same_pages M k k';
  ad_file : same_file k k' /\ host k' = host k
}.

Lemma added_nothing k M index s cnt : cnt <= s -> added k M index s cnt [] k M.
Proof.
  intros H. constructor; try done; try lia.
  - intros x p E1 E2. congruence.
  - split; [constructor|]. intros x. cbn. split; [by intros Hx%not_elem_of_nil|lia].
Qed.

(** One cached index is skipped. *)
Lemma added_skip k M index s cnt its k' M' : is_Some (M !! (index + s)) ->
  added k M index (s + 1) cnt its k' M' -> added k M index s cnt its k' M'.
Proof.
  intros [p Ep] [A1 A2 A3 A4 (A5 & A6) A7 A8]. constructor; try done.
  - intros x q E1 E2. destruct (A2 x q E1 E2). split; [lia|done].
  - intros x Hx. destruct (Z.eq_dec x (index + s)) as [->|]; [|apply A3; lia]. exists p. by eapply lookup_weaken.
  - split; [done|]. intros x. rewrite A6. split; [intros [? ?]; split; [lia|done]|intros [Hx Hn]].
    split; [|done]. destruct (Z.eq_dec x (index + s)) as [->|]; [congruence|lia].
Qed.

(** A run of new pages and then the rest. *)
Lemma added_run k M k1 k2 index s e cnt q n its its' k' M' : 0 <= n -> e = s + n -> e <= cnt ->
  (forall y, index + s <= y < index + e -> M !! y = None) ->
  same_pages M k k1 -> (forall p, q <= p < q + n -> zero_page k1 p) -> same_file k k1 -> host k1 = host k ->
  ((fun it => (it_pa it, it_index it)) <$> its) = (fun i => (page_to_pa (q + i), index + s + i)) <$> seqZ 0 n ->
  same_file k1 k2 -> pmem k2 = pmem k1 -> host k2 = host k1 ->
  added k2 (fill (Z.to_nat n) (index + s) q M) index e cnt its' k' M' -> added k M index s cnt (its ++ its') k' M'.
Proof.
  intros Hn -> He HM Hs1 Hz1 F1 E1 El F2 Em E2 [A1 A2 A3 A4 (A5 & A6) A7 (A8 & A9)].
  set (M1 := fill _ _ _ _) in *.
  assert (forall y, M1 !! y = if bool_decide (index + s <= y < index + (s + n)) then Some (q + (y - (index + s))) else M !! y) as EM1.
  { intros y. unfold M1. rewrite fill_lookup, Z2Nat.id by lia. repeat case_bool_decide; try done; lia. }
  assert (M ⊆ M1) as Hsub.
  { apply map_subseteq_spec. intros y p E. rewrite EM1. case_bool_decide; [|done]. by rewrite HM in E. }
  assert (it_index <$> its = (fun i => index + s + i) <$> seqZ 0 n) as Ei.
  { transitivity (snd <$> ((fun it => (it_pa it, it_index it)) <$> its)); [by rewrite <- list_fmap_compose|]. rewrite El. by rewrite <- list_fmap_compose. }
  assert (forall x, x ∈ it_index <$> its <-> index + s <= x < index + (s + n)) as Hin.
  { intros x. rewrite Ei, list_elem_of_fmap. split; [intros (i & -> & Hi%elem_of_seqZ); lia|]. intros Hx. exists (x - (index + s)). split; [lia|]. apply elem_of_seqZ. lia. }
  assert (same_pages M1 k2 k') as H2 by done.
  constructor.
  - by etransitivity.
  - intros x p E Hx. destruct (M1 !! x) as [p'|] eqn:E1x.
    + pose proof (lookup_weaken _ _ _ _ E1x A1) as E'. assert (p' = p) as -> by congruence.
      pose proof E1x as E1y. rewrite EM1 in E1y. case_bool_decide as Hb; [|congruence]. split; [lia|]. injection E1y as <-.
      intros i Hi. rewrite (H2 _ _ E1x i Hi), Em. apply (Hz1 (q + (x - (index + s)))); [lia|done].
    + destruct (A2 x p E E1x). split; [lia|done].
  - intros x Hx. destruct (Z_lt_ge_dec x (index + (s + n))) as [Hlt|Hge]; [|apply A3; lia].
    exists (q + (x - (index + s))). eapply lookup_weaken; [|exact A1]. rewrite EM1. by rewrite bool_decide_eq_true_2 by lia.
  - apply Forall_app. split; [|done]. apply Forall_forall. intros it Hit.
    assert ((it_pa it, it_index it) ∈ (fun i => (page_to_pa (q + i), index + s + i)) <$> seqZ 0 n) as Hp.
    { rewrite <- El. by apply (list_elem_of_fmap_2 (fun it => (it_pa it, it_index it))). }
    apply list_elem_of_fmap in Hp as (i & Ep & Hi%elem_of_seqZ). injection Ep as Epa Eix. exists (q + i). split; [|done].
    eapply lookup_weaken; [|exact A1]. rewrite Eix, EM1, bool_decide_eq_true_2 by lia. f_equal. lia.
  - rewrite fmap_app. split.
    + apply NoDup_app. split; [|split; [|done]].
      * rewrite Ei. apply NoDup_fmap; [intros ? ? ?; lia|apply NoDup_seqZ].
      * intros x Hx Hx'. apply Hin in Hx. apply A6 in Hx' as [? _]. lia.
    + intros x. rewrite elem_of_app, Hin, A6, EM1. split.
      * intros [Hx|[Hx Hn']]; [split; [lia|apply HM; lia]|]. case_bool_decide; [done|]. split; [lia|done].
      * intros [Hx Hn']. destruct (Z_lt_ge_dec x (index + (s + n))); [left; lia|right]. split; [lia|]. by rewrite bool_decide_eq_false_2 by lia.
  - intros x p E i Hi. rewrite (H2 x p (lookup_weaken _ _ _ _ E Hsub) i Hi), Em. by apply (Hs1 x).
  - split; [|congruence]. eapply same_file_trans; [exact F1|]. by eapply same_file_trans.
Qed.

Lemma run_length its q x n : 0 <= n ->
  ((fun it => (it_pa it, it_index it)) <$> its) = (fun i => (page_to_pa (q + i), x + i)) <$> seqZ 0 n -> length its = Z.to_nat n.
Proof. intros Hn E. apply (f_equal length) in E. rewrite !length_fmap, length_seqZ in E. done. Qed.

Lemma readpages_loop_ok index cnt Y : 0 <= index -> 0 < cnt <= 2 ^ 13 -> index + cnt <= 2 ^ 30 ->
  forall fuel s first its k M T l R X tabs, cache_ok k M T l R X (item_set its ∪ Y) tabs -> items_ok its Y ->
  0 <= s -> (Z.to_nat (cnt - s) <= fuel)%nat -> (s = 0 -> M !! index = None) -> (s <> 0 -> first <> 0) ->
  (readpages_loop pagemeta_start fuel s index cnt false first its k = Panic /\ dry (PGSIZE * cnt) (12 * Z.to_nat (cnt - s)) (r_al (tree k))) \/
  exists first' its' k' M' R' X' tabs', readpages_loop pagemeta_start fuel s index cnt false first its k = Done (false, first', its ++ its', k') /\
    cache_ok k' M' T l R' X' (item_set (its ++ its') ∪ Y) tabs' /\ items_ok (its ++ its') Y /\ added k M index s cnt its' k' M' /\
    (first <> 0 -> first' = first) /\ (first = 0 -> s = 0 -> exists p, M' !! index = Some p /\ first' = page_to_pa p) /\
    uses (PGSIZE * cnt) (12 * length its') (r_al (tree k)) (r_al (tree k')).
Proof.
  intros Hi Hc Hic fuel. induction fuel as [|fuel IH]; intros s first its k M T l R X tabs K I Hs Hf H0 Hfirst; cbn [readpages_loop].
  { right. destruct (Z.ltb_spec s cnt); [lia|]. exists first, [], k, M, R, X, tabs. rewrite app_nil_r. split_and!; try done; try lia.
    - apply added_nothing. lia.
    - constructor. }
  destruct (Z.ltb_spec s cnt) as [Hsc|Hsc].
  2: { right. exists first, [], k, M, R, X, tabs. rewrite app_nil_r. split_and!; try done; try lia; [by apply added_nothing|constructor]. }
  rewrite u64_small by lia. rewrite (find_page_ok _ _ _ _ _ _ _ _ _ K) by lia. ocbn. destruct (M !! (index + s)) as [p|] eqn:Ep.
  { destruct (ck_range _ _ _ _ _ _ _ _ _ _ K Ep) as [_ Hp]. destruct (page_item_ok p ltac:(lia)) as [Hp0 _].
    rewrite (proj2 (Z.eqb_neq _ _)) by done. destruct (Z.eqb_spec s 0) as [->|Hs0].
    { rewrite Z.add_0_r in Ep. rewrite H0 in Ep by done. done. }
    destruct (IH (s + 1) first its k M T l R X tabs K I) as [[-> Hd]|(first' & its' & k' & M' & R' & X' & tabs' & -> & K' & I' & Ad & Hf1 & Hf2 & U)]; try lia; [left|right].
    - split; [done|]. eapply dry_le; [exact Hd|lia|lia].
    - exists first', its', k', M', R', X', tabs'. split_and!; try done. apply added_skip; [|done]. rewrite Ep. eauto. }
  cbn [Z.eqb]. destruct (find_end_ok _ _ _ _ _ _ _ _ index cnt K Hi ltac:(lia) (Z.to_nat cnt) (s + 1)) as (e & -> & He & Hnone & Hsome); [lia|lia|]. ocbn.
  set (n := e - s) in *. assert (forall y, index + s <= y < index + e -> M !! y = None) as HM.
  { intros y Hy. destruct (Z.eq_dec y (index + s)) as [->|]; [done|]. replace y with (index + (y - index)) by lia. apply Hnone. lia. }
  destruct (cache_kzalloc _ _ _ _ _ _ _ _ n K) as [(k1 & -> & Hd)|(q & o & k1 & R1 & -> & Hq0 & K1 & Hq1 & Hq2 & Eq & Hno & HX1 & Hfresh & Hs1 & Hz1 & F1 & E1 & U1)]; [lia| |].
  { left. ocbn. cbn [Z.eqb]. split; [done|]. eapply dry_le; [exact Hd|unfold PGSIZE; lia|lia]. }
  assert (uses (PGSIZE * cnt) 1 (r_al (tree k)) (r_al (tree k1))) as U1' by (eapply uses_le; [exact U1|unfold PGSIZE; lia|done]).
  ocbn. rewrite (proj2 (Z.eqb_neq _ _)) by done.
  destruct (add_pages_ok (Z.to_nat n) (index + s) q its k1 M T l R1 ({[q]} ∪ X) Y tabs q o K1 I ltac:(set_solver) Eq)
    as [[E Hd]|(its1 & k2 & R2 & tabs2 & E & K2 & I2 & El & HX2 & F2 & Em2 & E2 & U2)]; try lia.
  { intros y Hy. apply HM. lia. }
  { intros y p E. pose proof (Hfresh y p E). lia. }
  { left. rewrite E. split; [done|]. eapply dry_later; [exact U1'|eapply dry_le; [exact Hd|unfold PGSIZE; lia|reflexivity]|lia]. }
  rewrite E. ocbn. rewrite Z2Nat.id in El by lia. pose proof (run_length _ _ _ n ltac:(lia) El) as Hlen.
  set (first1 := if first =? 0 then page_to_pa q else first).
  assert (first1 <> 0) as Hf1. { unfold first1. by destruct (Z.eqb_spec first 0). }
  assert (uses (PGSIZE * cnt) (1 + 11 * Z.to_nat n) (r_al (tree k)) (r_al (tree k2))) as U12.
  { eapply uses_trans; [exact U1'|]. eapply uses_le; [exact U2|unfold PGSIZE; lia|lia]. }
  (* the index where the run ends is cached, or the loop ends *)
  set (M1 := fill (Z.to_nat n) (index + s) q M) in *.
  assert (forall k' its' M', added k2 M1 index (e + 1) cnt its' k' M' -> added k M index s cnt (its1 ++ its') k' M') as Hadd.
  { intros k' its' M' Ad. eapply (added_run k M k1 k2 index s e cnt q n); try done; try lia.
    destruct (Z_lt_ge_dec e cnt) as [Hlt|Hge].
    - apply added_skip; [|done]. destruct (Hsome Hlt) as [p Ep']. exists p. unfold M1. rewrite fill_lookup, bool_decide_eq_false_2 by lia. done.
    - destruct Ad as [A1 A2 A3 A4 (A5 & A6) A7 A8]. constructor; try done; [|intros; lia|].
      + intros x p Ex Hx. destruct (A2 x p Ex Hx). lia.
      + split; [done|]. intros x. rewrite A6. lia. }
  destruct (IH (e + 1) first1 (its ++ its1) k2 M1 T l R2 ({[q]} ∪ X) tabs2 K2 I2) as [[E' Hd]|(first' & its' & k' & M' & R' & X' & tabs' & E' & K' & I' & Ad & Hf2 & Hf3 & U)]; try lia.
  - left. rewrite E'. split; [done|]. eapply dry_later; [exact U12|exact Hd|lia].
  - right. rewrite <- app_assoc in *. exists first', (its1 ++ its'), k', M', R', X', tabs'. rewrite E'.
    pose proof (Hadd _ _ _ Ad) as Ad'. split_and!; try done.
    + intros Hne. rewrite Hf2 by done. unfold first1. by rewrite (proj2 (Z.eqb_neq _ _)) by done.
    + intros -> ->. exists q. rewrite Hf2 by done. split; [|done]. eapply lookup_weaken; [|exact (ad_sub _ _ _ _ _ _ _ _ Ad)].
      unfold M1. rewrite fill_lookup, bool_decide_eq_true_2 by lia. f_equal. lia.
    + eapply uses_le; [eapply uses_trans; [exact U12|exact U]|reflexivity|]. rewrite length_app. lia.
Qed.
End cache.
