(* ===== verification/Fileio.v ===== *)
(** * Fileio: reading and writing through the page cache

    How the pages of the cache get to the disk and back, and what [do_generic_file_read],
    [do_generic_file_write] and the inode's operations on top of them do: what they give, where a
    read stops short or reads on behind the end of the file, and where a write has to append clusters. *)

From stdpp Require Import base gmap sets list fin_maps.
From Stdlib Require Import ZArith Lia.
From S2P Require Import Prelude Buddy Kalloc PageAlloc Radix Fat Filemap Pagecache.
#[local] Open Scope Z_scope.

(** ** The loop of a read *)

Section reading.
Context {A : Type} `{PA : !PageAlloc A} {D : Type} `{DK : !DiskOps D} {U : Type} `{CO : !CopyOps U, COK : !CopyOk U}.
Context (free_mem : A -> Z) (pagemeta_start : Z).
Notation pc := (pc A D).
Notation read_page := (read_page free_mem pagemeta_start).
Notation read_loop := (read_loop free_mem pagemeta_start).

(** The page [p] holds the bytes [c] of page [x] of the file. *)
Definition page_bytes (k : pc) (p : Z) (c : Z -> Z) (x : Z) : Prop :=
  forall i, 0 <= i < 4096 -> pmem k (page_to_pa p + i) = c (4096 * x + i).

(** One round with a page: as many bytes as wanted and as the page holds. *)
Lemma read_round rounds user_dst dst off retval n k u pa k' isz :
  i_size k = isz -> read_page (off / 4096) off retval n k = Done (Some pa, k') ->
  0 <= off -> retval < n -> off + (n - retval) <= isz -> isz < 2 ^ 32 ->
  read_loop (S rounds) user_dst dst (off / 4096) (off mod 4096) off retval n k u =
  let len := Z.min (n - retval) (4096 - off mod 4096) in
  let '(r, u') := either_copyout user_dst dst (fun i => pmem k' (pa + off mod 4096 + i)) len u in
  if r =? -1 then Done (-1, k', u')
  else if retval + len =? n then Done (retval + len, k', u')
  else read_loop rounds user_dst (u64 (dst + len)) ((off + len) / 4096) ((off + len) mod 4096) (off + len) (retval + len) n k' u'.
Proof.
  intros Hs Ep Ho Hr Hn Hi. cbn [Filemap.read_loop]. rewrite Hs, Ep, page_of_off, PGMASK_mod, (u32_small (isz - 1)) by lia.
  pose proof (Z.div_mod off 4096 ltac:(lia)) as Eo. pose proof (Z.mod_pos_bound off 4096 ltac:(lia)).
  pose proof (Z.div_mod (isz - 1) 4096 ltac:(lia)) as Ei. pose proof (Z.mod_pos_bound (isz - 1) 4096 ltac:(lia)).
  set (index := off / 4096) in *. set (e := (isz - 1) / 4096) in *. set (o := off mod 4096) in *. set (l := (isz - 1) mod 4096) in *.
  assert (index <= e) by nia. destruct (Z.ltb_spec e index); [lia|]. ocbn.
  assert (Z.min (Z.min (u64 (n - retval)) ((if index =? e then l + 1 else PGSIZE) - o)) (u64 (isz - o))
    = Z.min (n - retval) (4096 - o)) as El.
  { rewrite !u64_small by lia. unfold PGSIZE. destruct (Z.eqb_spec index e) as [E|E]; [|nia]. rewrite E in *. lia. }
  rewrite El. destruct (Z.eqb_spec index e) as [E|E]; cbn [andb].
  - rewrite E in *. destruct (Z.leb_spec (l + 1) o); [lia|]. destruct (either_copyout _ _ _ _ _) as [r u'].
    destruct (r =? -1); [done|]. by rewrite page_of_off, PGMASK_mod, u32_small by lia.
  - destruct (either_copyout _ _ _ _ _) as [r u']. destruct (r =? -1); [done|]. by rewrite page_of_off, PGMASK_mod, u32_small by lia.
Qed.

(** One round without. *)
Lemma read_round_none rounds user_dst dst off retval n k u isz : i_size k = isz -> 0 <= off < isz -> isz < 2 ^ 32 ->
  let run := read_loop (S rounds) user_dst dst (off / 4096) (off mod 4096) off retval n k u in
  (read_page (off / 4096) off retval n k = Panic -> run = Panic) /\
  (forall k', read_page (off / 4096) off retval n k = Done (None, k') -> run = Done (retval, k', u)).
Proof.
  intros Hs Ho Hi. cbn [Filemap.read_loop]. rewrite Hs, page_of_off, PGMASK_mod, (u32_small (isz - 1)) by lia.
  pose proof (Z.div_mod off 4096 ltac:(lia)) as Eo. pose proof (Z.mod_pos_bound off 4096 ltac:(lia)).
  pose proof (Z.div_mod (isz - 1) 4096 ltac:(lia)) as Ei. pose proof (Z.mod_pos_bound (isz - 1) 4096 ltac:(lia)).
  destruct (Z.ltb_spec ((isz - 1) / 4096) (off / 4096)); [nia|].
  assert ((off / 4096 =? (isz - 1) / 4096) && ((isz - 1) mod 4096 + 1 <=? off mod 4096) = false) as ->.
  { destruct (Z.eqb_spec (off / 4096) ((isz - 1) / 4096)) as [E|]; [|done]. cbn [andb]. apply Z.leb_gt. rewrite E in Eo. lia. }
  split; [intros ->; done|intros k' ->; done].
Qed.

(** [r] bytes [c] of the file from [off] on have arrived at [dst], and nothing else has changed there. *)
Definition delivered (c : Z -> Z) (dst off r : Z) (u u' : U) : Prop :=
  forall x, cp_byte u' x = if (dst <=? x) && (x <? dst + r) then c (off + (x - dst)) else cp_byte u x.

Lemma delivered_none c dst off u : delivered c dst off 0 u u.
Proof. intros x. rewrite Z.add_0_r. destruct (Z.leb_spec dst x), (Z.ltb_spec x dst); cbn [andb]; try done. lia. Qed.

Lemma delivered_more c dst off len r u u1 u2 : 0 <= len -> 0 <= r -> delivered c dst off len u u1 ->
  delivered c (dst + len) (off + len) r u1 u2 -> delivered c dst off (len + r) u u2.
Proof.
  intros Hl Hr H1 H2 x. rewrite H2, H1.
  destruct (Z.leb_spec (dst + len) x), (Z.leb_spec dst x), (Z.ltb_spec x (dst + len)),
    (Z.ltb_spec x (dst + len + r)), (Z.ltb_spec x (dst + (len + r))); cbn [andb]; try lia; try done.
  f_equal. lia.
Qed.

(** The loop, over an invariant of the state, up to a state from which the next page is another matter ([odd]). *)
Lemma read_rounds_ok (I : pc -> Z -> Prop) (out : Prop) (odd : pc -> Z -> Prop) (c : Z -> Z) isz off0 n user_dst :
  (forall k r, I k r -> i_size k = isz) -> 0 <= off0 -> off0 + n <= isz -> isz < 2 ^ 32 ->
  (forall k retval, I k retval -> 0 <= retval < n -> (retval = 0 \/ (off0 + retval) mod 4096 = 0) -> let off := off0 + retval in
    odd k retval \/
    ((read_page (off / 4096) off retval n k = Panic \/ exists k', read_page (off / 4096) off retval n k = Done (None, k')) /\ out) \/
    exists p k', read_page (off / 4096) off retval n k = Done (Some (page_to_pa p), k') /\
      I k' (retval + Z.min (n - retval) (4096 - off mod 4096)) /\ page_bytes k' p c (off / 4096)) ->
  forall rounds dst retval k u, let off := off0 + retval in
  I k retval -> 0 <= retval < n -> (retval = 0 \/ off mod 4096 = 0) -> (Z.to_nat (n - retval) < rounds)%nat ->
  0 <= dst -> dst + (n - retval) < 2 ^ 64 ->
  let run := read_loop rounds user_dst dst (off / 4096) (off mod 4096) off retval n k u in
  ((run = Panic \/ exists r k' u', run = Done (r, k', u') /\ 0 <= r < n) /\ out) \/
  (exists k' u', run = Done (-1, k', u') /\ (exists r, I k' r) /\ exists dst f len u1 u2, either_copyout user_dst dst f len u1 = (-1, u2)) \/
  (exists r k' u' more, retval <= r < n /\ (r = 0 \/ (off0 + r) mod 4096 = 0) /\ I k' r /\ odd k' r /\ delivered c dst off (r - retval) u u' /\
    run = read_loop (S more) user_dst (dst + (r - retval)) ((off0 + r) / 4096) ((off0 + r) mod 4096) (off0 + r) r n k' u') \/
  exists k' u', run = Done (n, k', u') /\ I k' n /\ delivered c dst off (n - retval) u u'.
Proof.
  intros HI Ho Hn Hi Hpage rounds. induction rounds as [|rounds IH]; intros dst retval k u off Hk Hr Hal Hf Hd Hd2; [lia|].
  destruct (Hpage k retval Hk Hr Hal) as [Hodd|[[[E|[k' E]] Hout]|(p & k' & E & Hk' & Hb)]]; try fold off in E; try fold off in Hb.
  { right; right; left. exists retval, k, u, rounds. rewrite Z.sub_diag, Z.add_0_r. split_and!; try done; try lia. apply delivered_none. }
  { left. split; [left|done]. apply (read_round_none _ _ _ _ _ _ _ _ isz (HI _ _ Hk)); [unfold off; lia|done|exact E]. }
  { left. split; [right|done]. exists retval, k', u. split; [|lia]. apply (read_round_none _ _ _ _ _ _ _ _ isz (HI _ _ Hk)); [unfold off; lia|done|exact E]. }
  rewrite (read_round _ _ _ _ _ _ _ _ _ _ isz (HI _ _ Hk) E) by lia. cbv zeta.
  pose proof (Z.div_mod off 4096 ltac:(lia)) as Eoff. pose proof (Z.mod_pos_bound off 4096 ltac:(lia)) as Ho'.
  set (o := off mod 4096) in *. set (len := Z.min (n - retval) (4096 - o)).
  assert (len <= 4096 - o /\ 0 < len /\ len <= n - retval) as (Hl1 & Hl2 & Hl3) by lia.
  destruct (either_copyout user_dst dst _ len u) as [r u'] eqn:Ec. destruct (Z.eqb_spec r (-1)) as [->|Hr1].
  { right; left. exists k', u'. split; [done|]. split; [by eexists|]. eauto 6. }
  fold o len in Hk'. assert (delivered c dst off len u u') as Hu'.
  { intros x. rewrite (copyout_byte _ _ _ _ _ _ _ Ec Hr1). destruct (Z.leb_spec dst x), (Z.ltb_spec x (dst + len)); cbn [andb]; try done.
    rewrite <- Z.add_assoc, Hb by lia. f_equal. lia. }
  destruct (Z.eqb_spec (retval + len) n) as [En|En].
  { right; right; right. exists k', u'. split; [by rewrite En|]. replace n with (retval + len) at 1 by lia. split; [done|]. by replace (n - retval) with len by lia. }
  assert (retval + len = 0 \/ (off0 + (retval + len)) mod 4096 = 0) as Hal2.
  { right. assert (len = 4096 - o) as El by lia. replace (off0 + (retval + len)) with ((off / 4096 + 1) * 4096) by (unfold off in *; lia). by apply Z.mod_mul. }
  rewrite u64_small by lia. replace (off + len) with (off0 + (retval + len)) by (unfold off; lia).
  destruct (IH (dst + len) (retval + len) k' u' Hk' ltac:(lia) Hal2 ltac:(lia) ltac:(lia) ltac:(lia))
    as [?|[?|[(r2 & k2 & u2 & more & Hr2 & Hal3 & Hk2 & Hodd & Hu2 & E2)|(k2 & u2 & E2 & Hk2 & Hu2)]]]; [by left|by right; left|right; right; left|right; right; right].
  - exists r2, k2, u2, more. split; [lia|]. split; [done|]. split; [done|]. split; [done|]. split.
    + replace (r2 - retval) with (len + (r2 - (retval + len))) by lia. eapply delivered_more; [lia|lia|exact Hu'|].
      by replace (off + len) with (off0 + (retval + len)) by (unfold off; lia).
    + rewrite E2. f_equal. lia.
  - exists k2, u2. split; [exact E2|]. split; [done|].
    replace (n - retval) with (len + (n - (retval + len))) by lia. eapply delivered_more; [lia|lia|exact Hu'|].
    by replace (off + len) with (off0 + (retval + len)) by (unfold off; lia).
Qed.
End reading.

(** ** Pages to and from the disk *)

Section transfer.
Context {A : Type} `{PA : !PageAlloc A, OK : !PageAllocOk A} {D : Type} `{DK : !DiskOps D, DOK : !DiskOk D}.
Notation pc := (pc A D).
Implicit Types (k : pc) (R : gmap Z (Z * Z)) (X Y : gset Z) (tabs : gmap (Z * Z) Z) (M : gmap Z Z) (T : gset (Z * Z)).
Context (pagemeta_start : Z).
Notation cache_ok := (cache_ok pagemeta_start).

(** *** Block vectors and their memory *)

Definition vec_nos (vecs : list bio_vec) : list Z := (fun v => page_no v.1.1) <$> vecs.
Definition vec_set (vecs : list bio_vec) : gset Z := list_to_set (vec_nos vecs).

(** The vectors' own pages, apart from [Y]. *)
Record vecs_apart (vecs : list bio_vec) Y : Prop := {
  va_nodup : NoDup (vec_nos vecs);
  va_new : vec_set vecs ## Y;
  va_vec : Forall (fun v => 0 <= v.2 /\ exists q, v.1.1 = page_to_pa q /\ 0 <= q < NPAGES) vecs
}.

Lemma vecs_apart_cons v vecs Y : vecs_apart (v :: vecs) Y -> exists q, v.1.1 = page_to_pa q /\ 0 <= v.2 /\ 0 <= q < NPAGES /\
  vec_set (v :: vecs) = {[q]} ∪ vec_set vecs /\ q ∉ vec_set vecs ∪ Y /\ vecs_apart vecs Y.
Proof.
  intros [H1 H2 H3]. apply Forall_cons_1 in H3 as [(Hl & q & Eq & Hq) H3]. cbn [vec_nos fmap list_fmap] in H1.
  apply NoDup_cons in H1 as [Hn H1]. assert (vec_set (v :: vecs) = {[q]} ∪ vec_set vecs) as Es.
  { unfold vec_set. cbn [vec_nos fmap list_fmap list_to_set]. by rewrite Eq, page_no_pa. }
  rewrite Es in H2. exists q. split; [done|]. split; [done|]. split; [done|]. split; [done|]. split.
  - rewrite Eq, page_no_pa in Hn by done. unfold vec_set in *. intros [Hin%elem_of_list_to_set|Hin]%elem_of_union; [done|set_solver].
  - constructor; [done|set_solver|done].
Qed.

(** The sectors [bs] laid end to end: byte [j]. *)
Definition sectors_byte (d : Z -> Z) (ss : Z) (bs : list Z) (j : Z) : Z := d ((bs !!! Z.to_nat (j / ss)) * ss + j mod ss).

Lemma sectors_byte_app d ss bs1 bs2 j : 0 < ss -> 0 <= j ->
  sectors_byte d ss (bs1 ++ bs2) j =
  if j <? Z.of_nat (length bs1) * ss then sectors_byte d ss bs1 j else sectors_byte d ss bs2 (j - Z.of_nat (length bs1) * ss).
Proof.
  intros Hs Hj. unfold sectors_byte. set (n := Z.of_nat (length bs1)). pose proof (Z.div_mod j ss ltac:(lia)) as Ej.
  pose proof (Z.mod_pos_bound j ss ltac:(lia)) as Hm. assert (0 <= j / ss) by (apply Z.div_pos; lia).
  destruct (Z.ltb_spec j (n * ss)).
  - assert (j / ss < n) by (apply Z.div_lt_upper_bound; lia). rewrite lookup_total_app_l by lia. done.
  - assert (n <= j / ss) by (apply Z.div_le_lower_bound; lia).
    assert ((j - n * ss) / ss = j / ss - n /\ (j - n * ss) mod ss = j mod ss) as [Ed Em].
    { pose proof (Z.div_add j (- n) ss ltac:(lia)) as E1. pose proof (Z_mod_plus_full j (- n) ss) as E2.
      replace (j + - n * ss) with (j - n * ss) in E1, E2 by ring. split; [lia|done]. }
    rewrite Ed, Em, lookup_total_app_r by lia. by replace (Z.to_nat (j / ss) - length bs1)%nat with (Z.to_nat (j / ss - n)) by lia.
Qed.

Lemma sectors_byte_run d ss s n j : 0 < ss -> 0 <= j < n * ss -> sectors_byte d ss (seqZ s n) j = d (s * ss + j).
Proof.
  intros Hs Hj. unfold sectors_byte. pose proof (Z.div_mod j ss ltac:(lia)). assert (0 <= j / ss < n) as Hd.
  { split; [apply Z.div_pos; lia|apply Z.div_lt_upper_bound; lia]. }
  rewrite (list_lookup_total_correct _ _ (s + j / ss)). { f_equal. nia. }
  rewrite lookup_seqZ_lt by lia. f_equal. lia.
Qed.

Lemma same_file_alloc k a : same_file k (with_alloc a k).
Proof. done. Qed.

Lemma blocks_of_cons (v : bio_vec) vecs : blocks_of (v :: vecs) = seqZ v.1.2 v.2 ++ blocks_of vecs.
Proof. done. Qed.

(** What the vectors move, [src] on: the memory and the disk afterwards. *)
Fixpoint transfer (rw : bool) (ss src : Z) (vecs : list bio_vec) (m : Z -> Z) (d : D) : (Z -> Z) * D :=
  match vecs with
  | [] => (m, d)
  | (_, start, len) :: vecs =>
      if rw then transfer rw ss (src + len * ss) vecs m (dk_write (start * ss) (len * ss) (fun i => m (src + i)) d)
      else transfer rw ss (src + len * ss) vecs (put_range src (len * ss) (fun i => dk_byte d (start * ss + i)) m) d
  end.

(** The sectors are moved and the vectors are freed. *)
Lemma submit_ok rw vecs : forall src k M T l R X Y tabs, cache_ok k M T l R X (vec_set vecs ∪ Y) tabs -> vecs_apart vecs Y ->
  let ss := sector_size (hsb k) in 0 < ss -> 0 <= src -> src + Z.of_nat (length (blocks_of vecs)) * ss < 2 ^ 64 ->
  exists k' R', submit_bio (place_vecs src ss vecs) rw true k = Done k' /\ cache_ok k' M T l R' X Y tabs /\
    (forall q, q ∈ X ∪ Y -> R' !! q = R !! q) /\ hsb k' = hsb k /\ i_size k' = i_size k /\ am k' = am k /\ host k' = host k /\
    uses 0 0 (r_al (tree k)) (r_al (tree k')) /\ (pmem k', disk k') = transfer rw ss src vecs (pmem k) (disk k).
Proof.
  induction vecs as [|[[pv start] len] vecs IH]; intros src k M T l R X Y tabs K Hv ss Hss Hsrc Hend.
  - exists k, R. cbn [place_vecs submit_bio transfer]. split; [done|]. split.
    { assert (vec_set [] ∪ Y = Y) as EY by set_solver. by rewrite EY in K. }
    split_and!; try done. constructor.
  - destruct (vecs_apart_cons _ _ _ Hv) as (q & Eq & Hl & Hq & Es & Hn & Hv'). cbn [fst snd] in Eq, Hl. subst pv.
    rewrite blocks_of_cons in *. cbn [fst snd] in *. rewrite length_app, length_seqZ, Nat2Z.inj_add, Z2Nat.id in Hend by lia.
    cbn [place_vecs submit_bio fst snd]. set (k1 := disk_rw _ _ _ _ _).
    assert (hsb k1 = hsb k /\ i_size k1 = i_size k /\ am k1 = am k /\ host k1 = host k /\ tree k1 = tree k) as (E1 & E2 & E3 & E4 & E5) by (unfold k1, disk_rw; by destruct rw).
    assert (cache_ok k1 M T l R X ({[q]} ∪ vec_set vecs ∪ Y) tabs) as K1 by (rewrite <- Es; unfold k1, disk_rw; destruct rw, K; by constructor).
    destruct (cache_free pagemeta_start k1 _ _ _ _ _ _ _ q K1 ltac:(set_solver)) as (a & R1 & Ea & K2 & Hk). rewrite Ea. ocbn.
    replace (({[q]} ∪ vec_set vecs ∪ Y) ∖ {[q]}) with (vec_set vecs ∪ Y) in K2, Hk by set_solver.
    rewrite u64_small by lia. assert (sector_size (hsb (with_alloc a k1)) = ss) as Ess by (cbn; by rewrite E1).
    destruct (IH (src + len * ss) (with_alloc a k1) M T l R1 X Y tabs K2 Hv') as (k' & R' & E & K' & Hk' & F1 & F2 & F3 & F4 & HU & Hm); rewrite ?Ess in *; [done|nia|lia|].
    exists k', R'. split; [exact E|]. split; [done|]. split; [|cbn in F1, F2, F3, F4; split_and!; try congruence].
    + intros h Hh. rewrite Hk' by done. apply Hk. set_solver.
    + rewrite <- E5. eapply uses_free; [exact Ea|exact HU].
    + rewrite Hm. cbn [transfer]. unfold k1, disk_rw. fold ss. by destruct rw.
Qed.

(** Reading fills the memory with the sectors. *)
Lemma transfer_read ss vecs d : 0 < ss -> Forall (fun v => 0 <= v.2) vecs -> forall src m,
  exists m', transfer DISK_READ ss src vecs m d = (m', d) /\
    forall a, m' a = if (src <=? a) && (a <? src + Z.of_nat (length (blocks_of vecs)) * ss)
                     then sectors_byte (dk_byte d) ss (blocks_of vecs) (a - src) else m a.
Proof.
  intros Hss Hl. induction Hl as [|[[pv start] len] vecs Hl Hls IH]; intros src m; cbn [transfer DISK_READ].
  - exists m. split; [done|]. intros a. change (blocks_of []) with (@nil Z). cbn [length Z.of_nat]. rewrite Z.mul_0_l, Z.add_0_r.
    destruct (Z.leb_spec src a), (Z.ltb_spec a src); cbn [andb]; try done. lia.
  - cbn [snd] in Hl. destruct (IH (src + len * ss) (put_range src (len * ss) (fun i => dk_byte d (start * ss + i)) m)) as (m' & E & Hm).
    exists m'. split; [exact E|]. intros b. rewrite Hm, blocks_of_cons. cbn [fst snd]. unfold put_range.
    rewrite length_app, length_seqZ, Nat2Z.inj_add, Z2Nat.id by lia. set (L := Z.of_nat (length (blocks_of vecs))) in *.
    destruct (Z.leb_spec src b); cbn [andb].
    2: { destruct (Z.leb_spec (src + len * ss) b); [nia|]. done. }
    rewrite sectors_byte_app, length_seqZ by lia. rewrite Z2Nat.id by lia. destruct (Z.ltb_spec (b - src) (len * ss)).
    + destruct (Z.leb_spec (src + len * ss) b); [lia|]. cbn [andb]. rewrite (proj2 (Z.ltb_lt b (src + len * ss))) by lia.
      rewrite (proj2 (Z.ltb_lt b (src + _))) by nia. by rewrite sectors_byte_run by lia.
    + destruct (Z.leb_spec (src + len * ss) b); [|lia]. cbn [andb]. rewrite (proj2 (Z.ltb_ge b (src + len * ss))) by lia.
      replace (src + (len + L) * ss) with (src + len * ss + L * ss) by lia.
      destruct (Z.ltb_spec b (src + len * ss + L * ss)); [|done]. f_equal. lia.
Qed.

Lemma sector_of_run ss start len a : 0 < ss -> (start * ss <= a < start * ss + len * ss <-> start <= a / ss < start + len).
Proof.
  intros Hss. pose proof (Z.div_mod a ss ltac:(lia)). pose proof (Z.mod_pos_bound a ss Hss). nia.
Qed.

(** Writing puts the memory into the sectors, which are different ones, and into no other. *)
Lemma transfer_write ss vecs m : 0 < ss -> Forall (fun v => 0 <= v.2) vecs -> NoDup (blocks_of vecs) -> forall src d,
  exists d', transfer DISK_WRITE ss src vecs m d = (m, d') /\
    (forall j, 0 <= j < Z.of_nat (length (blocks_of vecs)) * ss -> sectors_byte (dk_byte d') ss (blocks_of vecs) j = m (src + j)) /\
    forall a, a / ss ∉ blocks_of vecs -> dk_byte d' a = dk_byte d a.
Proof.
  intros Hss Hl. induction Hl as [|[[pv start] len] vecs Hl Hls IH]; intros Hnd src d; cbn [transfer DISK_WRITE].
  - exists d. split; [done|]. split; [|done]. change (blocks_of []) with (@nil Z). cbn [length Z.of_nat]. lia.
  - cbn [snd] in Hl. rewrite blocks_of_cons in *. cbn [fst snd] in *. apply NoDup_app in Hnd as (_ & Hdis & Hnd).
    destruct (IH Hnd (src + len * ss) (dk_write (start * ss) (len * ss) (fun i => m (src + i)) d)) as (d' & E & Hin & Hout).
    exists d'. split; [exact E|]. split.
    + intros j Hj. rewrite sectors_byte_app, length_seqZ, Z2Nat.id by lia. rewrite length_app, length_seqZ, Nat2Z.inj_add, Z2Nat.id in Hj by lia.
      destruct (Z.ltb_spec j (len * ss)) as [Hjl|Hjl]; [|rewrite Hin by lia; f_equal; lia].
      rewrite sectors_byte_run by lia. assert (start <= (start * ss + j) / ss < start + len) as Hr by (apply sector_of_run; lia).
      rewrite Hout by (apply Hdis, elem_of_seqZ; lia). rewrite dk_write_byte, (proj2 (Z.leb_le _ _)), (proj2 (Z.ltb_lt _ _)) by lia.
      cbn [andb]. f_equal. lia.
    + intros a Ha. apply not_elem_of_app in Ha as [Ha1 Ha2]. rewrite Hout by done. rewrite dk_write_byte.
      destruct ((_ <=? _) && (_ <? _)) eqn:Er; [|done]. exfalso. apply Ha1, elem_of_seqZ.
      apply andb_true_iff in Er as [H1%Z.leb_le H2%Z.ltb_lt]. by apply sector_of_run.
Qed.

Lemma sets_apart (t i i' x y v : gset Z) : x ## y -> t ∪ i ## x ∪ y -> i' ## t ∪ (x ∪ y) ->
  (forall q, q ∈ v -> q ∉ t ∪ (x ∪ y) /\ q ∉ i') -> x ## v ∪ y /\ t ## i' /\ t ∪ i' ## x ∪ (v ∪ y).
Proof.
  intros H1 H2 H3 H4. split_and!; intros q; specialize (H1 q); specialize (H2 q); specialize (H3 q); specialize (H4 q); set_unfold; tauto.
Qed.

(** Looking up the sectors: [fat32_get_block] with everything else of the cache set aside. *)
Lemma cache_get_block k M T l R X Y tabs off n alloc : cache_ok k M T l R X Y tabs -> volume_ok (hsb k) -> 0 <= off < 2 ^ 32 -> off mod PGSIZE = 0 ->
  0 < n -> n mod sector_size (hsb k) = 0 -> n + sector_size (hsb k) <= 2 ^ 32 ->
  let size := sectors_per_block (hsb k) * sector_size (hsb k) in off < Z.of_nat (length l) * size ->
  (alloc = false \/ off + n <= Z.of_nat (length l) * size) ->
  let N := (1 + 2 * Z.to_nat (n / sector_size (hsb k)))%nat in
  (fat32_get_block (host k) off n alloc (fat_of k) = Panic /\ dry PGSIZE N (r_al (tree k))) \/
  exists vecs ip s R', let bs := take (Z.to_nat (n / sector_size (hsb k))) (drop (Z.to_nat (off / sector_size (hsb k))) (sectors_of (hsb k) l)) in
    fat32_get_block (host k) off n alloc (fat_of k) = Done (Z.of_nat (length bs), vecs, ip, s) /\ fsb s = hsb k /\
    cache_ok (with_fat ip s k) M T l R' X (vec_set vecs ∪ Y) tabs /\ vecs_apart vecs Y /\ blocks_of vecs = bs /\
    (forall q, q ∈ X ∪ Y -> R' !! q = R !! q) /\ uses PGSIZE N (r_al (tree k)) (al s).
Proof.
  intros K V Ho Hal Hn Hns Hn32 size Hin Hfit N. pose proof K as [K1 K2 K3 (K41 & K42 & K43) K5 K6]. set (F := tab_pages tabs ∪ (X ∪ Y)).
  assert (holds (r_al (tree k)) R F) as HF. { apply holds_union; [|done]. by eapply tab_holds. }
  assert (idx_pages (host k) ## F) as Hd. { clear -K42 K43. unfold own_pages in K43. unfold F. set_solver. }
  assert (tab_pages tabs ⊆ F /\ X ∪ Y ⊆ F /\ X ⊆ X ∪ Y) as (HtF & HXF & HXY) by (clear; unfold F; set_solver).
  pose proof (file_enter _ _ _ _ F K2 HF Hd) as Ke.
  destruct (get_block_ok (PAOK := framed (frame R F)) _ _ _ l off n alloc Ke V Ho Hal Hn Hns Hn32 Hin Hfit)
    as [[E Hr]|(vecs & ip & s & R' & E & Hx & Kf & [Hv Hnd] & Eb)]; [left; split; [exact E|exact Hr]|right].
  destruct (file_leave (r_al (tree k)) ip s R R' l F HF Kf) as (Kf' & S & Hd').
  pose proof (in_fsb _ _ _ _ _ _ _ Hx) as Es. pose proof (gr_took _ _ _ _ _ (in_grew _ _ _ _ _ _ _ Hx)) as HU.
  pose proof (ix_alloc _ _ _ (fo_index _ _ _ _ Kf')) as Ha'.
  assert (forall v, v ∈ vecs -> exists q o, v.1.1 = page_to_pa q /\ 0 <= q < NPAGES /\ R' !! q = Some (o, 1) /\ q ∉ pa_cached (al s) /\
    q ∉ F /\ q ∉ idx_pages ip /\ 0 <= v.2) as Hown.
  { intros v Hin'. rewrite Forall_forall in Hv. destruct (Hv v Hin') as ((q & o & Eq & Hq & Er & Hc) & Hi & Hl).
    cbn [pa_cached framed] in Hc. exists q, o. split; [done|]. split; [done|]. split; [done|]. apply not_elem_of_union in Hc as [Hc HcF]. split; [done|]. split; [|split; [|done]].
    - intros HqF. apply HcF. by apply (frame_dom _ _ _ _ HF).
    - intros Hqi. apply (idx_pages_elem _ _ _ _ (fo_index _ _ _ _ Kf')) in Hqi as [Hip _]. apply Hi. by rewrite Eq. }
  assert (forall q, q ∈ vec_set vecs <-> exists v, v ∈ vecs /\ v.1.1 = page_to_pa q /\ 0 <= q < NPAGES) as Hset.
  { intros q. unfold vec_set, vec_nos. rewrite elem_of_list_to_set, list_elem_of_fmap. split.
    - intros (v & -> & Hin'). destruct (Hown v Hin') as (q & o & Eq & Hq & _). exists v. rewrite Eq, page_no_pa by done. done.
    - intros (v & Hin' & Eq & Hq). exists v. by rewrite Eq, page_no_pa. }
  assert (forall q, q ∈ vec_set vecs -> exists o, R' !! q = Some (o, 1) /\ q ∉ pa_cached (al s) /\ q ∉ F /\ q ∉ idx_pages ip) as Hown'.
  { intros q (v & Hin' & Eq & Hq)%Hset. destruct (Hown v Hin') as (q' & o & Eq' & Hq' & H1 & H2 & H3 & H4 & _).
    assert (q' = q) as -> by (apply page_to_pa_inj; [done|done|congruence]). eauto. }
  exists vecs, ip, s, R'. cbv zeta. split; [exact E|]. split; [done|]. split; [|split; [|split; [done|split; [|exact HU]]]].
  - constructor; cbn [tree with_fat host].
    + eapply radix_move; [done|done|]. by eapply stays_sub.
    + destruct s as [sb tb a]. exact Kf'.
    + assert (holds (al s) R' (X ∪ Y)) as H1 by (eapply holds_stays; [done|by eapply stays_sub]).
      assert (holds (al s) R' (vec_set vecs)) as H2 by (intros q Hq; destruct (Hown' q Hq) as (o & ? & ? & _); eauto).
      replace (X ∪ (vec_set vecs ∪ Y)) with (vec_set vecs ∪ (X ∪ Y)) by (clear; set_solver). by apply holds_union.
    + apply (sets_apart _ _ _ _ _ _ K41 K43 Hd'). intros q Hq. by destruct (Hown' q Hq) as (o & _ & _ & Hf & Hi).
    + intros x p Ex. destruct (K5 x p Ex) as (h & o & Hh & Eh & Hp). exists h, o. split; [done|]. split; [|done].
      destruct (S h) as [-> _]; [by apply HXF, HXY|done].
    + done.
  - constructor.
    + assert (vec_nos vecs = page_no <$> ((fun v => v.1.1) <$> vecs)) as -> by (unfold vec_nos; by rewrite <- list_fmap_compose).
      apply NoDup_fmap_2_strong; [|done]. intros p1 p2 (v & -> & Hv1)%list_elem_of_fmap (w & -> & Hw1)%list_elem_of_fmap Ep.
      destruct (Hown v Hv1) as (q & o & Eq & Hq & _), (Hown w Hw1) as (q' & o' & Eq' & Hq' & _).
      rewrite Eq, Eq', !page_no_pa in Ep by done. by rewrite Eq, Eq', Ep.
    + intros q Hq HY. destruct (Hown' q Hq) as (o & _ & _ & Hf & _). apply Hf, HXF. by apply elem_of_union_r.
    + apply Forall_forall. intros v Hin'. destruct (Hown v Hin') as (q & o & Eq & Hq & _ & _ & _ & _ & Hl). split; [done|]. by exists q.
  - intros q Hq. by apply S, HXF.
Qed.

Lemma sectors_byte_cut d ss bs i n j : 0 < ss -> 0 <= i -> 0 <= j < Z.of_nat (length (take n (drop (Z.to_nat i) bs))) * ss ->
  sectors_byte d ss (take n (drop (Z.to_nat i) bs)) j = sectors_byte d ss bs (i * ss + j).
Proof.
  intros Hs Hi Hj. unfold sectors_byte. assert (0 <= j / ss) by (apply Z.div_pos; lia).
  assert (j / ss < Z.of_nat (length (take n (drop (Z.to_nat i) bs)))) as Hlt by (apply Z.div_lt_upper_bound; lia).
  rewrite length_take, length_drop in Hlt. rewrite (Z.add_comm (i * ss) j), Z.div_add, Z_mod_plus_full by lia. f_equal. f_equal. f_equal.
  rewrite lookup_total_take, decide_True by lia. rewrite lookup_total_drop. f_equal. lia.
Qed.

(** Byte [i] of the file as the disk has it; none behind its clusters. *)
Definition disk_byte k (l : list Z) (i : Z) : option Z :=
  let ss := sector_size (hsb k) in let bs := sectors_of (hsb k) l in
  if i <? Z.of_nat (length bs) * ss then Some (sectors_byte (dk_byte (disk k)) ss bs i) else None.

Lemma disk_byte_same k k' l i : same_file k k' -> disk_byte k' l i = disk_byte k l i.
Proof. intros [E1 _ E2 _]. unfold disk_byte. by rewrite E1, E2. Qed.

Lemma page_bytes_end p b : 0 <= p -> 0 < b -> p + b <= NPAGES -> 0 <= page_to_pa p /\ page_to_pa p + 4096 * b < 2 ^ 63.
Proof. intros Hp Hb Hn. change NPAGES with 251904 in *. rewrite page_to_pa_alt by (change NPAGES with 251904; lia). unfold START_MEM. lia. Qed.

Lemma submit_some (vecs : list (bio_vec * Z)) rw k :
  match vecs with [] => Done k | _ => submit_bio vecs rw true k end = submit_bio vecs rw true k.
Proof. by destruct vecs. Qed.

(** [b] pages of memory from page [p] on, for the file's pages from [x] on. *)
Definition run_fits k (l : list Z) (alloc : bool) (p x b : Z) : Prop :=
  let size := Z.of_nat (length l) * (sectors_per_block (hsb k) * sector_size (hsb k)) in
  0 <= p /\ 0 < b /\ p + b <= NPAGES /\ 0 <= x /\ 4096 * (x + b) + 4096 <= 2 ^ 32 /\ 4096 * x < size /\
  (alloc = false \/ 4096 * (x + b) <= size).

Definition run_cost k (b : Z) : nat := (1 + 2 * Z.to_nat (4096 * b / sector_size (hsb k)))%nat.

(** The run's sectors: those of the file between its offsets. *)
Definition run_sectors k (l : list Z) (x b : Z) : list Z :=
  take (Z.to_nat (4096 * b / sector_size (hsb k))) (drop (Z.to_nat (4096 * x / sector_size (hsb k))) (sectors_of (hsb k) l)).

(** The sectors cover the run as far as the file's clusters go. *)
Lemma run_sectors_ok k l alloc p x b : volume_ok (hsb k) -> run_fits k l alloc p x b -> let ss := sector_size (hsb k) in
  Z.of_nat (length (run_sectors k l x b)) * ss = Z.min (4096 * b) (Z.of_nat (length (sectors_of (hsb k) l)) * ss - 4096 * x) /\
  4096 * x / ss * ss = 4096 * x /\ 0 <= 4096 * x / ss /\
  (alloc = true -> Z.of_nat (length (run_sectors k l x b)) * ss = 4096 * b).
Proof.
  intros V (Hp & Hb & Hpb & Hx & H32 & Hin & Hfit) ss. pose proof V as [[V1 [c Hc]] V3 _ _]. fold ss in V1, Hc, Hin, Hfit.
  unfold PGSIZE in Hc. assert (0 < c) by nia.
  assert (4096 * b / ss = b * c /\ 4096 * x / ss = x * c) as [Eb Ex].
  { split; [replace (4096 * b) with (b * c * ss) by nia|replace (4096 * x) with (x * c * ss) by nia]; by rewrite Z.div_mul by lia. }
  assert (Z.of_nat (length (sectors_of (hsb k) l)) = Z.of_nat (length l) * sectors_per_block (hsb k)) as Esl by (apply sectors_of_length; lia).
  unfold run_sectors. fold ss. rewrite Eb, Ex, length_take, length_drop. assert (x * c < Z.of_nat (length (sectors_of (hsb k) l))) by nia.
  assert (Z.of_nat (Z.to_nat (b * c) `min` (length (sectors_of (hsb k) l) - Z.to_nat (x * c))) = Z.min (b * c) (Z.of_nat (length (sectors_of (hsb k) l)) - x * c)) as -> by lia.
  split; [|split; [nia|split; [nia|]]].
  - destruct (Z.min_spec (b * c) (Z.of_nat (length (sectors_of (hsb k) l)) - x * c)) as [[Hm ->]|[Hm ->]].
    + rewrite Z.min_l; nia.
    + rewrite Z.min_r; nia.
  - intros ->. destruct Hfit as [?|Hfit]; [done|]. rewrite Z.min_l; nia.
Qed.

Lemma run_byte k l alloc p x b d j : volume_ok (hsb k) -> run_fits k l alloc p x b -> let ss := sector_size (hsb k) in
  0 <= j < Z.of_nat (length (run_sectors k l x b)) * ss ->
  sectors_byte d ss (run_sectors k l x b) j = sectors_byte d ss (sectors_of (hsb k) l) (4096 * x + j).
Proof.
  intros V Hrun ss Hj. destruct (run_sectors_ok k l alloc p x b V Hrun) as (_ & Ex & Hx0 & _). pose proof (vo_sector _ V) as [V1 _].
  unfold run_sectors in *. rewrite sectors_byte_cut by done. f_equal. fold ss in Ex |- *. lia.
Qed.

(** Looking up the sectors of a run and moving the data. *)
Lemma rw_pages_ok rw k M T l R X Y tabs p x b alloc : cache_ok k M T l R X Y tabs -> volume_ok (hsb k) -> run_fits k l alloc p x b ->
  (fat32_rw_pages (page_to_pa p) x rw b alloc k = Panic /\ dry PGSIZE (run_cost k b) (r_al (tree k))) \/
  exists k' R' vecs, fat32_rw_pages (page_to_pa p) x rw b alloc k = Done k' /\ cache_ok k' M T l R' X Y tabs /\
    (forall q, q ∈ X ∪ Y -> R' !! q = R !! q) /\ hsb k' = hsb k /\ i_size k' = i_size k /\ am k' = am k /\
    uses PGSIZE (run_cost k b) (r_al (tree k)) (r_al (tree k')) /\
    blocks_of vecs = run_sectors k l x b /\ Forall (fun v => 0 <= v.2) vecs /\
    (pmem k', disk k') = transfer rw (sector_size (hsb k)) (page_to_pa p) vecs (pmem k) (disk k).
Proof.
  intros K V Hrun. pose proof Hrun as (Hp & Hb & Hpb & Hx & H32 & Hin & Hfit). destruct (run_sectors_ok k l alloc p x b V Hrun) as (EL & Ex & Hx0 & EA).
  pose proof V as [[V1 [c Hc]] V3 _ _]. set (ss := sector_size (hsb k)) in *. pose proof (page_bytes_end p b Hp Hb Hpb) as [Hpa Hpe].
  unfold PGSIZE in Hc. assert (0 < c) as Hc0 by nia. assert (ss <= 4096) as Hss by nia. unfold fat32_rw_pages, block_full_pages.
  assert (u32 (x * PGSIZE) = 4096 * x /\ u32 (b * PGSIZE) = 4096 * b) as [-> ->] by (unfold PGSIZE; rewrite !u32_small by lia; lia).
  destruct (cache_get_block k M T l R X Y tabs (4096 * x) (4096 * b) alloc K V) as [[E Hd]|(vecs & ip & s & R1 & E & Es & K1 & Hv & Ebs & Hk1 & U1)];
    [lia|unfold PGSIZE; rewrite Z.mul_comm; by apply Z.mod_mul|lia| |fold ss; nia|done|destruct Hfit as [?|?]; [by left|right; fold ss; lia]| |].
  { fold ss. replace (4096 * b) with (b * c * ss) by nia. by apply Z.mod_mul, Z.neq_sym, Z.lt_neq. }
  { left. rewrite E. done. }
  right. cbv zeta in E. fold (run_sectors k l x b) in Ebs, E. rewrite E. ocbn. set (k1 := with_fat ip s k) in *.
  change (sector_size (hsb k)) with ss. set (L := Z.of_nat (length (run_sectors k l x b))) in *.
  assert ((if alloc then ASSERT (u32 (L * ss) =? 4096 * b) else Done tt) = Done tt) as ->.
  { destruct alloc; [|done]. rewrite (EA eq_refl), u32_small by lia. by rewrite Z.eqb_refl. }
  ocbn. rewrite submit_some. assert (sector_size (hsb k1) = ss) as E1 by (cbn [hsb with_fat k1]; by rewrite Es).
  pose proof (submit_ok rw vecs (page_to_pa p) k1 M T l R1 X Y tabs K1 Hv) as Hs. cbv zeta in Hs. rewrite E1 in Hs.
  destruct (Hs V1 Hpa) as (k2 & R2 & E2 & K2 & Hk2 & F1 & F2 & F3 & _ & U2 & Hm).
  { rewrite Ebs. fold L. lia. }
  rewrite E2. exists k2, R2, vecs. split; [done|]. split; [done|]. split; [intros q Hq; rewrite Hk2, Hk1 by done; done|].
  split; [by rewrite F1|]. split; [done|]. split; [done|]. split; [|split; [done|split; [|exact Hm]]].
  - assert (uses PGSIZE 0 (r_al (tree k1)) (r_al (tree k2))) as U2' by (eapply uses_le; [exact U2|unfold PGSIZE; lia|done]).
    eapply uses_le; [eapply uses_trans; [exact U1|exact U2']|done|]. unfold run_cost. fold ss. lia.
  - eapply Forall_impl; [apply Hv|]. by intros v [? _].
Qed.

(** *** Batches *)

(** An item of the list stands for a page of the cache. *)
Definition item_of M (it : page_item) : Prop := exists p, M !! it_index it = Some p /\ it_pa it = page_to_pa p.

Hypothesis (Hmeta : 0 < pagemeta_start < 2 ^ 63 /\ pagemeta_start mod 2 = 0).

Lemma batch_run_ok k M T l R X Y tabs its : cache_ok k M T l R X Y tabs -> forall h p, M !! it_index h = Some p -> it_pa h = page_to_pa p ->
  Forall (item_of M) its -> exists run rest, its = run ++ rest /\ batch_run h its = (1 + Z.of_nat (length run), rest) /\
  forall i it, (h :: run) !! i = Some it -> it_index it = it_index h + Z.of_nat i /\ M !! (it_index h + Z.of_nat i) = Some (p + Z.of_nat i).
Proof.
  intros K. induction its as [|it its IH]; intros h p Ep Ea Hall; cbn [batch_run].
  { exists [], []. split; [done|]. split; [done|]. intros [|i] it E; [injection E as <-; cbn; rewrite !Z.add_0_r; done|done]. }
  apply Forall_cons_1 in Hall as [(p' & Ep' & Ea') Hall]. destruct (ck_range _ _ _ _ _ _ _ _ _ _ _ K Ep) as [Hx Hp].
  destruct (ck_range _ _ _ _ _ _ _ _ _ _ _ K Ep') as [Hx' Hp'].
  unfold PAGE_ADJACENT. rewrite Ea, Ea', page_next, u64_small by lia. destruct ((_ =? _) && _) eqn:Eadj.
  - apply andb_true_iff in Eadj as [Ex%Z.eqb_eq Epa%Z.eqb_eq].
    assert (p' = p + 1) as ->.
    { destruct (Z.eq_dec (p + 1) NPAGES) as [En|En]; [|by apply page_to_pa_inj in Epa; [|lia|lia]].
      exfalso. unfold page_to_pa in Epa. rewrite En in Epa. change (u64 (NPAGES * PGSIZE + START_MEM)) with (NPAGES * PGSIZE + START_MEM) in Epa.
      change (u64 (p' * PGSIZE + START_MEM)) with (page_to_pa p') in Epa. rewrite page_to_pa_alt in Epa by done. unfold PGSIZE in Epa. lia. }
    destruct (IH it (p + 1) Ep' Ea' Hall) as (run & rest & -> & -> & Hrun). exists (it :: run), rest. split; [done|].
    split; [f_equal; cbn [length]; lia|]. intros [|i] jt E; [injection E as <-; cbn; rewrite !Z.add_0_r; done|].
    destruct (Hrun i jt E) as [E1 E2]. rewrite <- Ex in E1, E2. split; [lia|]. rewrite <- (Z.add_assoc _ 1) in E2.
    replace (1 + Z.of_nat i) with (Z.of_nat (S i)) in E2 by lia. rewrite E2. f_equal. lia.
  - exists [], (it :: its). split; [done|]. split; [done|]. intros [|i] jt E; [injection E as <-; cbn; rewrite !Z.add_0_r; done|done].
Qed.

(** Allocations for each page of a batch. *)
Definition batch_cost k : nat := (1 + 2 * Z.to_nat (4096 / sector_size (hsb k)))%nat.

(** Page [x] lies in the file's clusters, or at least begins in them when no sectors are asked for. *)
Definition in_file k (l : list Z) (alloc : bool) (x : Z) : Prop :=
  let size := Z.of_nat (length l) * (sectors_per_block (hsb k) * sector_size (hsb k)) in
  4096 * x + 8192 <= 2 ^ 32 /\ 4096 * x < size /\ (alloc = false \/ 4096 * (x + 1) <= size).

(** Consecutive cached pages of the file. *)
Definition cached_run k M (l : list Z) (alloc : bool) (p x b : Z) : Prop :=
  0 < b /\ forall i, 0 <= i < b -> M !! (x + i) = Some (p + i) /\ in_file k l alloc (x + i).

Lemma cached_run_fits k M T l R X Y tabs alloc p x b : cache_ok k M T l R X Y tabs -> cached_run k M l alloc p x b -> run_fits k l alloc p x b.
Proof.
  intros K [Hb H]. destruct (H 0 ltac:(lia)) as [E0 (_ & Hin & _)]. destruct (H (b - 1) ltac:(lia)) as [E1 (H32 & _ & Hfit)].
  rewrite !Z.add_0_r in *. destruct (ck_range _ _ _ _ _ _ _ _ _ _ _ K E0), (ck_range _ _ _ _ _ _ _ _ _ _ _ K E1).
  unfold run_fits. cbv zeta in *. split_and!; try lia. destruct Hfit as [?|Hfit]; [by left|right]. by replace (x + b) with (x + (b - 1) + 1) by lia.
Qed.

Lemma run_cost_le k b (n : nat) : volume_ok (hsb k) -> b = 1 + Z.of_nat n -> (run_cost k b <= batch_cost k * S n)%nat.
Proof.
  intros [[V1 [c Hc]] _ _ _] ->. unfold PGSIZE in Hc. assert (0 < c) by nia. unfold run_cost, batch_cost.
  replace (4096 * (1 + Z.of_nat n)) with ((1 + Z.of_nat n) * c * sector_size (hsb k)) by nia. rewrite Z.div_mul by lia.
  rewrite Hc, Z.div_mul by lia. replace (Z.to_nat ((1 + Z.of_nat n) * c)) with (S n * Z.to_nat c)%nat by (rewrite Z2Nat.inj_mul by lia; f_equal; lia). nia.
Qed.

(** A batch has the effect of its runs, one after the other. *)
Section batch.
Context (rw alloc : bool) (M : gmap Z Z) (l : list Z) (eff : pc -> list Z -> pc -> Prop).
Hypothesis (eff_nil : forall k, eff k [] k).
Hypothesis (eff_app : forall k1 k2 k3 xs ys, eff k1 xs k2 -> eff k2 ys k3 -> eff k1 (xs ++ ys) k3).
Hypothesis (eff_sb : forall k xs k', eff k xs k' -> hsb k' = hsb k).
Hypothesis (eff_run : forall k T R X Y tabs p x b, cache_ok k M T l R X Y tabs -> volume_ok (hsb k) -> cached_run k M l alloc p x b ->
  (fat32_rw_pages (page_to_pa p) x rw b alloc k = Panic /\ dry PGSIZE (run_cost k b) (r_al (tree k))) \/
  exists k' R', fat32_rw_pages (page_to_pa p) x rw b alloc k = Done k' /\ cache_ok k' M T l R' X Y tabs /\
    (forall q, q ∈ X ∪ Y -> R' !! q = R !! q) /\ uses PGSIZE (run_cost k b) (r_al (tree k)) (r_al (tree k')) /\ eff k (seqZ x b) k').

Lemma batch_ok fuel : forall its k T R X Y tabs, (length its <= fuel)%nat -> cache_ok k M T l R X Y tabs -> volume_ok (hsb k) ->
  Forall (item_of M) its -> Forall (fun it => in_file k l alloc (it_index it)) its ->
  let N := (batch_cost k * length its)%nat in
  (batch_loop fuel its rw alloc k = Panic /\ dry PGSIZE N (r_al (tree k))) \/
  exists k' R', batch_loop fuel its rw alloc k = Done k' /\ cache_ok k' M T l R' X Y tabs /\
    (forall q, q ∈ X ∪ Y -> R' !! q = R !! q) /\ uses PGSIZE N (r_al (tree k)) (r_al (tree k')) /\ eff k (it_index <$> its) k'.
Proof.
  induction fuel as [|fuel IH]; intros its k T R X Y tabs Hf K V Hall Hin N.
  { destruct its; [|cbn in Hf; lia]. right. exists k, R. split_and!; try done; constructor. }
  destruct its as [|h its]; cbn [batch_loop].
  { right. exists k, R. split_and!; try done; constructor. }
  apply Forall_cons_1 in Hall as [(p & Ep & Ea) Hall]. cbn [length] in Hf.
  destruct (batch_run_ok k M T l R X Y tabs its K h p Ep Ea Hall) as (run & rest & -> & -> & Hrun).
  set (b := 1 + Z.of_nat (length run)) in *. set (x := it_index h) in *.
  assert (cached_run k M l alloc p x b) as Hcr.
  { split; [lia|]. intros i Hi. destruct (lookup_lt_is_Some_2 (h :: run) (Z.to_nat i)) as [it Eit]; [cbn [length]; lia|].
    destruct (Hrun _ _ Eit) as [Ei EM]. rewrite Z2Nat.id in Ei, EM by lia. split; [done|].
    rewrite Forall_lookup in Hin. rewrite <- Ei. apply (Hin (Z.to_nat i)).
    change (h :: run ++ rest) with ((h :: run) ++ rest). by apply lookup_app_l_Some. }
  assert (it_index <$> h :: run ++ rest = seqZ x b ++ (it_index <$> rest)) as ->.
  { change (h :: run ++ rest) with ((h :: run) ++ rest). rewrite fmap_app. f_equal. apply list_eq_same_length with (length (h :: run)).
    - rewrite length_seqZ. cbn [length]. lia.
    - by rewrite length_fmap.
    - intros i y z Hi Ey Ez. rewrite list_lookup_fmap in Ey. destruct ((h :: run) !! i) as [it|] eqn:Eit; [|done]. injection Ey as <-.
      apply lookup_seqZ in Ez as [-> _]. by destruct (Hrun _ _ Eit) as [-> _]. }
  assert (N = batch_cost k * S (length run) + batch_cost k * length rest)%nat as EN by (subst N; cbn [length]; rewrite length_app; lia).
  pose proof (run_cost_le k b (length run) V eq_refl) as Hcost. rewrite Ea.
  destruct (eff_run k T R X Y tabs p x b K V Hcr) as [[-> Hd]|(k1 & R1 & -> & K1 & Hk1 & U1 & F1)].
  { left. split; [done|]. eapply dry_le; [exact Hd|done|]. lia. }
  ocbn. pose proof (eff_sb _ _ _ F1) as Es1. assert (batch_cost k1 = batch_cost k) as Ebc1 by (unfold batch_cost; by rewrite Es1).
  destruct (IH rest k1 T R1 X Y tabs) as [[-> Hd]|(k2 & R2 & -> & K2 & Hk2 & U2 & F2)]; rewrite ?Es1; try done.
  { rewrite length_app in Hf. lia. } { by apply Forall_app in Hall as [_ ?]. }
  { apply Forall_cons_1 in Hin as [_ Hin]. apply Forall_app in Hin as [_ Hin]. unfold in_file. by rewrite Es1. }
  { left. split; [done|]. eapply dry_later; [exact U1|exact Hd|]. rewrite Ebc1. lia. }
  right. exists k2, R2. split; [done|]. split; [done|]. split; [intros q Hq; by rewrite Hk2, Hk1|]. split; [|by eapply eff_app].
  eapply uses_le; [eapply uses_trans; [exact U1|exact U2]|done|]. rewrite Ebc1. lia.
Qed.
End batch.

(** *** Reading batches *)

(** The pages of the indexes [xs] were read from the disk. *)
Definition pages_read (l : list Z) M k (xs : list Z) k' : Prop := same_file k k' /\ forall x p, M !! x = Some p -> 0 <= p < NPAGES -> forall i, 0 <= i < 4096 ->
  pmem k' (page_to_pa p + i) = if bool_decide (x ∈ xs) then default (pmem k (page_to_pa p + i)) (disk_byte k l (4096 * x + i)) else pmem k (page_to_pa p + i).

Lemma pages_read_app l M k1 k2 k3 xs ys : pages_read l M k1 xs k2 -> pages_read l M k2 ys k3 -> pages_read l M k1 (xs ++ ys) k3.
Proof.
  intros [F1 H1] [F2 H2]. split; [by eapply same_file_trans|]. intros x p E Hp i Hi. rewrite (H2 x p E Hp i Hi), (H1 x p E Hp i Hi), (disk_byte_same k1 k2) by done.
  assert (bool_decide (x ∈ xs ++ ys) = bool_decide (x ∈ xs) || bool_decide (x ∈ ys)) as ->.
  { rewrite <- bool_decide_or. apply bool_decide_ext. by rewrite elem_of_app. }
  by destruct (bool_decide (x ∈ xs)), (bool_decide (x ∈ ys)), (disk_byte k1 l (4096 * x + i)).
Qed.

Lemma run_read alloc M l k T R X Y tabs p x b : cache_ok k M T l R X Y tabs -> volume_ok (hsb k) -> cached_run k M l alloc p x b ->
  (fat32_rw_pages (page_to_pa p) x DISK_READ b alloc k = Panic /\ dry PGSIZE (run_cost k b) (r_al (tree k))) \/
  exists k' R', fat32_rw_pages (page_to_pa p) x DISK_READ b alloc k = Done k' /\ cache_ok k' M T l R' X Y tabs /\
    (forall q, q ∈ X ∪ Y -> R' !! q = R !! q) /\ uses PGSIZE (run_cost k b) (r_al (tree k)) (r_al (tree k')) /\ pages_read l M k (seqZ x b) k'.
Proof.
  intros K V Hcr. pose proof (cached_run_fits _ _ _ _ _ _ _ _ _ _ _ _ K Hcr) as Hrun.
  destruct (run_sectors_ok k l alloc p x b V Hrun) as (EL & Ex & Hx0 & _). pose proof V as [[V1 _] _ _ _].
  destruct (rw_pages_ok DISK_READ k M T l R X Y tabs p x b alloc K V Hrun) as [?|(k' & R' & vecs & E & K' & Hk & F1 & F2 & F3 & U & Ebs & Hl & Hm)]; [by left|right].
  exists k', R'. split_and!; try done. destruct (transfer_read (sector_size (hsb k)) vecs (disk k) V1 Hl (page_to_pa p) (pmem k)) as (m & Em & Hb).
  rewrite Em in Hm. injection Hm as Epm Ed. rewrite Ebs in Hb. set (bs := run_sectors k l x b) in *. set (ss := sector_size (hsb k)) in *.
  split; [constructor; try done; by rewrite F3|]. intros y q Eq Hq i Hi. rewrite Epm, Hb. destruct Hcr as [Hb0 Hcr]. pose proof Hrun as (Hp & _ & Hpb & _ & _ & Hin & _).
  rewrite !page_to_pa_alt by lia. case_bool_decide as Hy.
  - apply elem_of_seqZ in Hy. destruct (Hcr (y - x) ltac:(lia)) as [E' _]. replace (x + (y - x)) with y in E' by lia.
    assert (q = p + (y - x)) as -> by congruence. unfold disk_byte. fold ss. set (n := Z.of_nat (length (sectors_of (hsb k) l)) * ss) in *.
    rewrite (proj2 (Z.leb_le _ _)) by lia. cbn [andb]. destruct (Z.ltb_spec (4096 * y + i) n); cbn [default from_option id].
    + rewrite (proj2 (Z.ltb_lt _ _)) by lia. unfold bs, ss. rewrite (run_byte k l alloc p x b)  by (done || fold ss bs; lia). f_equal. lia.
    + rewrite (proj2 (Z.ltb_ge _ _)) by lia. done.
  - destruct ((_ <=? _) && (_ <? _)) eqn:Ein; [|done]. exfalso. apply andb_true_iff in Ein as [H1%Z.leb_le H2%Z.ltb_lt].
    destruct (Hcr (q - p) ltac:(lia)) as [E' _]. replace (p + (q - p)) with q in E' by lia.
    pose proof (ck_inj _ _ _ _ _ _ _ _ _ K _ _ _ Eq E') as ->. apply Hy, elem_of_seqZ. lia.
Qed.

Lemma batch_read alloc fuel its k M T l R X Y tabs : (length its <= fuel)%nat -> cache_ok k M T l R X Y tabs -> volume_ok (hsb k) ->
  Forall (item_of M) its -> Forall (fun it => in_file k l alloc (it_index it)) its ->
  let N := (batch_cost k * length its)%nat in
  (batch_loop fuel its DISK_READ alloc k = Panic /\ dry PGSIZE N (r_al (tree k))) \/
  exists k' R', batch_loop fuel its DISK_READ alloc k = Done k' /\ cache_ok k' M T l R' X Y tabs /\
    (forall q, q ∈ X ∪ Y -> R' !! q = R !! q) /\ uses PGSIZE N (r_al (tree k)) (r_al (tree k')) /\
    pages_read l M k (it_index <$> its) k'.
Proof.
  intros Hf K V Hall Hin. apply (batch_ok DISK_READ alloc M l (pages_read l M)) with (T := T) (R := R); try done.
  - apply pages_read_app.
  - intros k1 xs k2 [F _]. apply F.
  - intros. by eapply run_read.
Qed.

Lemma page_list_free_ok its : forall k M T l R X Y tabs, cache_ok k M T l R X (item_set its ∪ Y) tabs -> items_ok its Y ->
  exists k' R', page_list_free its k = Done k' /\ cache_ok k' M T l R' X Y tabs /\ (forall q, q ∈ X ∪ Y -> R' !! q = R !! q) /\
    same_file k k' /\ host k' = host k /\ pmem k' = pmem k /\ uses 0 0 (r_al (tree k)) (r_al (tree k')).
Proof.
  induction its as [|it its IH]; intros k M T l R X Y tabs K [I1 I2 I3]; cbn [page_list_free].
  - exists k, R. assert (item_set [] ∪ Y = Y) as EY by set_solver. rewrite EY in K. split_and!; try done. constructor.
  - apply Forall_cons_1 in I3 as [(q & Eq & Hq) I3]. cbn [item_nos fmap list_fmap] in I1. apply NoDup_cons in I1 as [Hn I1].
    assert (item_set (it :: its) = {[q]} ∪ item_set its) as Es.
    { unfold item_set. cbn [item_nos fmap list_fmap list_to_set]. by rewrite Eq, page_no_pa. }
    rewrite Es in *. rewrite Eq in *. rewrite page_no_pa in Hn by done.
    destruct (cache_free pagemeta_start k _ _ _ _ _ _ _ q K ltac:(set_solver)) as (a & R1 & Ea & K1 & Hk1). rewrite Ea. ocbn.
    assert (({[q]} ∪ item_set its ∪ Y) ∖ {[q]} = item_set its ∪ Y) as EY.
    { assert (q ∉ item_set its). { unfold item_set. rewrite elem_of_list_to_set. exact Hn. } set_solver. }
    rewrite EY in *.
    destruct (IH (with_alloc a k) M T l R1 X Y tabs K1) as (k' & R' & -> & K' & Hk' & F & Eh & Em & HU).
    { constructor; [done| |done]. set_solver. }
    exists k', R'. split_and!; try done.
    + intros h Hh. rewrite Hk' by done. apply Hk1. set_solver.
    + eapply same_file_trans; [|exact F]. done.
    + eapply uses_free; [exact Ea|exact HU].
Qed.

(** What a page of the cache is filled with: the disk's bytes, zeros behind the clusters. *)
Definition fresh_byte k (l : list Z) (i : Z) : Z := default 0 (disk_byte k l i).

(** The cache after the pages [index..index+cnt) were brought in; [src] tells what is in the new ones. *)
Record brought k M index cnt (src : Z -> Z) k' M' : Prop := {
  br_sub : M ⊆ M';
  br_new x p : M' !! x = Some p -> M !! x = None -> index <= x < index + cnt /\
    forall i, 0 <= i < 4096 -> pmem k' (page_to_pa p + i) = src (4096 * x + i);
  br_all x : index <= x < index + cnt -> is_Some (M' !! x);
  br_old : same_pages M k k';
  br_file : same_file k k'
}.

Lemma readpages_disk k M T l R X Y tabs index cnt alloc : cache_ok k M T l R X Y tabs -> volume_ok (hsb k) -> 0 <= index -> 0 < cnt <= 2 ^ 13 ->
  index + cnt <= 2 ^ 30 -> (forall x, index <= x < index + cnt -> in_file k l alloc x) -> M !! index = None ->
  let N := ((12 + batch_cost k) * Z.to_nat cnt)%nat in
  (mpage_readpages pagemeta_start index cnt true alloc k = Panic /\ dry (PGSIZE * cnt) N (r_al (tree k))) \/
  exists p k' M' R' X' tabs', mpage_readpages pagemeta_start index cnt true alloc k = Done (page_to_pa p, k') /\ M' !! index = Some p /\
    cache_ok k' M' T l R' X' Y tabs' /\ brought k M index cnt (fresh_byte k l) k' M' /\
    uses (PGSIZE * cnt) ((12 + batch_cost k) * (size M' - size M)) (r_al (tree k)) (r_al (tree k')).
Proof.
  intros K V Hi Hc Hic Hin Hmiss N. unfold mpage_readpages. rewrite (proj2 (Z.ltb_lt 0 cnt)) by lia. ocbn. rewrite andb_false_r.
  assert (item_set [] ∪ Y = Y) as EY by set_solver.
  assert (cache_ok k M T l R X (item_set [] ∪ Y) tabs) as K0 by (by rewrite EY).
  destruct (readpages_loop_ok pagemeta_start Hmeta index cnt Y Hi Hc Hic (Z.to_nat cnt) 0 0 [] k M T l R X tabs K0) as
    [[-> Hd]|(first & its & k1 & M1 & R1 & X1 & tabs1 & -> & K1 & I1 & Ad & _ & Hf & U1)]; [|lia|lia|by rewrite ?Z.add_0_r|lia| |].
  { constructor; [constructor|set_solver|constructor]. }
  { left. split; [done|]. eapply dry_le; [exact Hd|done|]. subst N. rewrite Z.sub_0_r. nia. }
  ocbn. cbn [app] in *. destruct (Hf eq_refl eq_refl) as (p & Ep & ->). destruct Ad as [A1 A2 A3 A4 (A5 & A6) A7 (A8 & A9)]. rewrite Z.add_0_r in *.
  assert (size M1 - size M = length its)%nat as Esz.
  { assert (size M1 = size M + length its)%nat; [|lia]. rewrite <- !size_dom. rewrite <- (length_fmap it_index its).
    rewrite <- (size_list_to_set (C := gset Z) (it_index <$> its)) by done. rewrite <- size_union.
    - f_equal. apply set_eq. intros x. rewrite elem_of_union, elem_of_list_to_set, A6, !elem_of_dom. split.
      + intros [q Eq]. destruct (M !! x) as [q'|] eqn:EM; [left; eauto|right]. destruct (A2 x q Eq EM). done.
      + intros [[q Eq]|[Hx Hn]]; [|by apply A3]. exists q. by eapply lookup_weaken.
    - intros x Hx%elem_of_dom [_ Hn]%elem_of_list_to_set%A6. rewrite Hn in Hx. by destruct Hx. }
  unfold fat32_rw_pages_batch. pose proof (sf_sb _ _ A8) as Es1.
  assert (batch_cost k1 = batch_cost k) as Ec by (unfold batch_cost; by rewrite Es1).
  assert (length its <= Z.to_nat cnt)%nat as Hlen.
  { rewrite <- (length_fmap it_index its). rewrite <- (length_seqZ index cnt). apply NoDup_incl_length; [by apply NoDup_ListNoDup|].
    intros x Hx%list_elem_of_In%A6. apply list_elem_of_In, elem_of_seqZ. lia. }
  destruct (batch_read alloc (length its) its k1 M1 T l R1 X1 (item_set its ∪ Y) tabs1 ltac:(done) K1) as [[-> Hd]|(k2 & R2 & -> & K2 & Hk2 & U2 & F2 & Hm2)];
    rewrite ?Es1; try done.
  { apply Forall_forall. intros it Hit. unfold in_file. rewrite Es1. apply Hin. apply A6. by apply (list_elem_of_fmap_2 it_index). }
  { left. ocbn. split; [done|]. eapply dry_later; [exact U1|eapply dry_le; [exact Hd|unfold PGSIZE; lia|done]|]. rewrite Ec. subst N. nia. }
  ocbn. destruct (page_list_free_ok its k2 M1 T l R2 X1 Y tabs1 K2 I1) as (k3 & R3 & -> & K3 & Hk3 & F3 & _ & Em3 & U3). ocbn.
  right. exists p, k3, M1, R3, X1, tabs1. split; [done|]. split; [done|]. split; [done|]. split.
  - constructor; [done| |done| |by eapply same_file_trans; [exact A8|]; eapply same_file_trans].
    + intros x q Eq Hn. destruct (A2 x q Eq Hn) as [Hx Hz]. split; [done|]. intros i Hi'. pose proof (proj2 (ck_range _ _ _ _ _ _ _ _ _ _ _ K1 Eq)) as Hq. rewrite Em3, (Hm2 x q Eq Hq i Hi').
      rewrite bool_decide_eq_true_2 by (by apply A6). rewrite (Hz i Hi'), (disk_byte_same k k1) by done. done.
    + intros x q Eq i Hi'. pose proof (lookup_weaken _ _ _ _ Eq A1) as Eq1. pose proof (proj2 (ck_range _ _ _ _ _ _ _ _ _ _ _ K1 Eq1)) as Hq. rewrite Em3, (Hm2 x q Eq1 Hq i Hi'). rewrite bool_decide_eq_false_2; [by apply (A7 x)|].
      intros [_ Hn]%A6. congruence.
  - rewrite Esz. eapply uses_le; [eapply uses_trans; [exact U1|eapply uses_trans; [eapply (uses_le _ (PGSIZE * cnt)); [exact U2|unfold PGSIZE; lia|done]|eapply (uses_le _ (PGSIZE * cnt)); [exact U3|unfold PGSIZE; lia|done]]]|done|]. rewrite Ec. lia.
Qed.

(** One page that need not be read from the disk: it is zeroed and enters the cache. *)
Lemma readpage_fresh k M T l R X Y tabs index alloc : cache_ok k M T l R X Y tabs -> 0 <= index < 2 ^ 30 -> M !! index = None ->
  (mpage_readpages pagemeta_start index 1 false alloc k = Panic /\ dry PGSIZE 11 (r_al (tree k))) \/
  exists p k' M' R' X' tabs', mpage_readpages pagemeta_start index 1 false alloc k = Done (page_to_pa p, k') /\ M' !! index = Some p /\
    cache_ok k' M' T l R' X' Y tabs' /\ brought k M index 1 (fun _ => 0) k' M' /\
    uses PGSIZE (11 * (size M' - size M)) (r_al (tree k)) (r_al (tree k')).
Proof.
  intros K Hi Hmiss. unfold mpage_readpages. change (0 <? 1) with true. change ((1 =? 1) && negb false) with true. ocbn. change (Z.to_nat 1) with 1%nat.
  cbn [readpages_loop]. change (0 <? 1) with true. cbn match. rewrite Z.add_0_r, u64_small by lia. rewrite (find_page_ok _ _ _ _ _ _ _ _ _ _ K) by lia. rewrite Hmiss. ocbn.
  change (Z.to_nat 1) with 1%nat. cbn [find_end]. change (0 + 1 <? 1) with false. cbn [Z.eqb]. ocbn. change (0 + 1 - 0) with 1. change (Z.to_nat 1) with 1%nat.
  destruct (cache_kzalloc _ Hmeta k _ _ _ _ _ _ _ 1 K ltac:(lia)) as [(k1 & -> & Hd)|(q & o & k1 & R1 & -> & Hq0 & K1 & Hq1 & Hq2 & Eq & Hno & HX1 & Hfresh & Hs1 & Hz1 & F1 & E1 & U1)].
  { left. ocbn. change (0 =? 0) with true. cbn match. split; [done|]. eapply dry_le; [exact Hd|done|lia]. }
  ocbn. rewrite (proj2 (Z.eqb_neq (page_to_pa q) 0)) by done. cbn [add_pages]. rewrite page_to_pa_to_page by lia. ocbn.
  destruct (cache_insert _ Hmeta k1 M T l R1 _ Y tabs index q q o K1 ltac:(set_solver) Eq ltac:(lia) Hi Hmiss)
    as [[-> Hd]|(m & t & R2 & tabs2 & -> & K2 & Hk2 & U2)].
  { intros y Ey. apply (Hfresh y q Ey). lia. }
  { left. ocbn. split; [done|]. eapply dry_later; [exact U1|exact Hd|lia]. }
  right. ocbn. set (k2 := with_am _ _) in *. exists q, k2, (<[index := q]> M), R2, ({[q]} ∪ X), tabs2.
  split; [done|]. split; [apply lookup_insert_eq|]. split; [done|]. split.
  - constructor.
    + by apply insert_subseteq.
    + intros x p E Hx. destruct (decide (x = index)) as [->|Hne].
      * rewrite lookup_insert_eq in E. injection E as <-. split; [lia|]. intros i Hi'. apply (Hz1 q); [lia|done].
      * rewrite lookup_insert_ne in E by done. congruence.
    + intros x Hx. assert (x = index) as -> by lia. rewrite lookup_insert_eq. eauto.
    + exact Hs1.
    + eapply same_file_trans; [exact F1|]. done.
  - rewrite map_size_insert_None by done. eapply uses_le; [eapply uses_trans; [exact U1|exact U2]|done|lia].
Qed.
End transfer.

(** ** Reading *)

Section reads.
Context {A : Type} `{PA : !PageAlloc A, OK : !PageAllocOk A} {D : Type} `{DK : !DiskOps D, DOK : !DiskOk D} {U : Type} `{CO : !CopyOps U, COK : !CopyOk U}.
Context (free_mem : A -> Z) (pagemeta_start : Z).
Notation pc := (pc A D).
Implicit Types (k : pc) (R : gmap Z (Z * Z)) (X Y : gset Z) (tabs : gmap (Z * Z) Z) (M : gmap Z Z) (T : gset (Z * Z)).
Notation cache_ok := (cache_ok pagemeta_start).
Hypothesis (Hmeta : 0 < pagemeta_start < 2 ^ 63 /\ pagemeta_start mod 2 = 0).
Hypothesis (Hfree : forall a, 0 <= free_mem a < 2 ^ 63).

(** Byte [i] of the file: as cached, or as on the disk. *)
Definition content k M (l : list Z) (i : Z) : Z :=
  match M !! (i / 4096) with Some p => pmem k (page_to_pa p + i mod 4096) | None => fresh_byte k l i end.

(** All cached pages hold the bytes [c]. *)
Definition holds_bytes k M (c : Z -> Z) : Prop := forall x p, M !! x = Some p -> page_bytes k p c x.

Lemma content_pages k M l : holds_bytes k M (content k M l).
Proof.
  intros x p E i Hi. unfold content. replace (4096 * x + i) with (i + x * 4096) by lia. rewrite Z.div_add, Z_mod_plus_full by lia.
  rewrite Z.div_small, Z.add_0_l, E, Z.mod_small by lia. done.
Qed.

Definition pages_of k : Z := (i_size k + 4095) / 4096.
Definition io_cost k : nat := ((12 + batch_cost k) * 2 * Z.to_nat (pages_of k))%nat.

(** The cache after some reading from [k]: more pages, the same bytes. *)
Record reached k M T l Y (c : Z -> Z) k' M' : Prop := {
  re_cache : exists R X tabs, cache_ok k' M' T l R X Y tabs;
  re_sub : M ⊆ M';
  re_new x : is_Some (M' !! x) -> M !! x = None -> 0 <= x < pages_of k;
  re_bytes : holds_bytes k' M' c;
  re_sb : hsb k' = hsb k;
  re_size : i_size k' = i_size k;
  re_disk : disk k' = disk k;
  re_ahead : 0 <= read_ahead_cnt (am k') <= 2 ^ 20;
  re_uses : uses (PGSIZE * pages_of k) ((12 + batch_cost k) * (size M' - size M)) (r_al (tree k)) (r_al (tree k'))
}.

Lemma new_pages k M M' : M ⊆ M' -> (forall x, is_Some (M' !! x) -> M !! x = None -> 0 <= x < pages_of k) ->
  (size M' - size M <= Z.to_nat (pages_of k))%nat.
Proof.
  intros Hs Hn. rewrite <- !size_dom. apply subseteq_dom in Hs. rewrite <- size_difference by done.
  etransitivity; [apply (subseteq_size _ (list_to_set (seqZ 0 (pages_of k)) : gset Z))|].
  - intros x [[v Ev]%elem_of_dom Hx%not_elem_of_dom]%elem_of_difference. apply elem_of_list_to_set, elem_of_seqZ. specialize (Hn x). rewrite Ev in Hn. pose proof (Hn ltac:(eauto) Hx). lia.
  - rewrite size_list_to_set by apply NoDup_seqZ. by rewrite length_seqZ.
Qed.

Lemma io_cost_enough k c d : (c <= Z.to_nat (pages_of k))%nat -> (d <= Z.to_nat (pages_of k))%nat ->
  ((12 + batch_cost k) * c + (12 + batch_cost k) * d <= io_cost k)%nat.
Proof.
  intros Hc Hd. unfold io_cost. rewrite <- Nat.mul_add_distr_l, <- Nat.mul_assoc. apply Nat.mul_le_mono_l. lia.
Qed.

(** Pages of the file can be brought in: it lies in its clusters, and all of it in the largest
    piece of memory there is. *)
Definition may_miss k (l : list Z) : Prop :=
  volume_ok (hsb k) /\ i_size k <= 2 ^ 25 /\ i_size k <= Z.of_nat (length l) * (sectors_per_block (hsb k) * sector_size (hsb k)).

(** How many pages a read of [n] bytes at [off] asks for when it comes to page [x] and does not find it. *)
Definition ahead_count k (off n x : Z) : Z :=
  max_sane_readahead free_mem (u64 (off + n - 4096 * x)) (read_ahead_cnt (am k)) (u64 (i_size k - (8192 * x - off))) k.

(** The bytes in front of page [x] are taken twice from what is left: then nothing is left, and the read stops; *)
Definition nothing_left k (off x : Z) : Prop := -4096 < i_size k - (8192 * x - off) <= 0.
(** or less than nothing, which as an unsigned number is no limit, and it reads on behind the file. *)
Definition overruns k (off n x : Z) : Prop := i_size k - (8192 * x - off) <= -4096 /\ pages_of k < x + ahead_count k off n x.

(** Memory runs out: one of the first allocations fails, or [get_free_mem] gives 0 after some of them. *)
Definition exhausted k : Prop :=
  dry (PGSIZE * pages_of k) (io_cost k) (r_al (tree k)) \/
  exists a, uses (PGSIZE * pages_of k) (io_cost k) (r_al (tree k)) a /\ free_mem a = 0.

Lemma readahead_count k nr ra tot : 0 < nr < 2 ^ 32 -> 0 <= ra <= 2 ^ 20 -> 0 < tot < 2 ^ 32 -> free_mem (r_al (tree k)) <> 0 ->
  0 < max_sane_readahead free_mem nr ra tot k <= (tot + 4095) / 4096.
Proof.
  intros Hn Hr Ht Hf. pose proof (Hfree (r_al (tree k))). unfold max_sane_readahead. rewrite !PGROUNDUP_pages by lia.
  assert (0 < (nr + 4095) / 4096 < 2 ^ 32 /\ 0 < (tot + 4095) / 4096) as [H1 H2].
  { repeat split; try (apply Z.div_str_pos; lia). apply Z.div_lt_upper_bound; lia. }
  rewrite (u64_small (_ / _ + ra)) by lia. unfold DIV_ROUND_UP, READ_AHEAD_RATE. rewrite (u64_small (free_mem _ + 20 - 1)) by lia.
  assert (0 < (free_mem (r_al (tree k)) + 20 - 1) / 20 < 2 ^ 63) as H3.
  { split; [apply Z.div_str_pos; lia|apply Z.div_lt_upper_bound; lia]. }
  unfold PGSIZE. rewrite u64_small by lia. assert (0 < ((free_mem (r_al (tree k)) + 20 - 1) / 20 + 4096 - 1) / 4096) by (apply Z.div_str_pos; lia). lia.
Qed.

Lemma readahead_wrapped k nr ra t : 0 < nr < 2 ^ 32 -> 0 <= ra <= 2 ^ 20 -> - 2 ^ 34 < t <= -4096 -> free_mem (r_al (tree k)) <> 0 ->
  0 < max_sane_readahead free_mem nr ra (u64 t) k.
Proof.
  intros Hn Hr Ht Hf. pose proof (readahead_count k nr ra 4096 Hn Hr ltac:(lia) Hf) as Hc. unfold max_sane_readahead in *.
  assert (u64 (u64 t + 4095) = 2 ^ 64 + t + 4095) as E.
  { unfold u64. rewrite Zplus_mod_idemp_l. symmetry. apply Z.mod_unique with (-1); lia. }
  apply Z.min_glb_lt; [eapply Z.lt_le_trans; [apply Hc|apply Z.le_min_l]|]. rewrite PGROUNDUP_alt, E.
  pose proof (Z.mod_pos_bound (2 ^ 64 + t + 4095) PGSIZE eq_refl). apply Z.div_str_pos. unfold PGSIZE in *. lia.
Qed.

Lemma ahead_ok k index cnt m : 0 <= index -> 0 < cnt -> index + cnt <= pages_of k -> i_size k <= 2 ^ 25 -> 0 < i_size k ->
  0 <= read_ahead_cnt m <= 2 ^ 20 -> read_ahead_end m = u64 (index + cnt - 1) ->
  0 <= read_ahead_cnt (read_ahead_update index (Z.shiftr (u32 (i_size k - 1)) 12) m) <= 2 ^ 20.
Proof.
  intros Hi Hc Hp Hs Hs0 Hr Ee. unfold read_ahead_update. cbn [read_ahead_cnt]. rewrite Ee.
  assert (pages_of k <= 2 ^ 13) as Hp13 by (unfold pages_of; apply Z.lt_succ_r, Z.div_lt_upper_bound; lia).
  rewrite (u64_small (index + cnt - 1)) by lia. rewrite page_of_off, u32_small by lia.
  assert ((i_size k - 1) / 4096 < 2 ^ 13) by (apply Z.div_lt_upper_bound; lia).
  destruct (_ <? index); [|lia]. rewrite (u64_small (index + cnt - 1 + _)) by lia.
  assert (s32 (index + cnt - 1 + read_ahead_cnt m) = index + cnt - 1 + read_ahead_cnt m) as -> by (apply s32_small; lia).
  rewrite u64_small by lia. destruct (Z.leb_spec (index + cnt - 1 + read_ahead_cnt m) ((i_size k - 1) / 4096)); [|lia].
  unfold READ_AHEAD_PAGE_MAX_CNT, CHANGE_READ_AHEAD. destruct (Z.ltb_spec (read_ahead_cnt m) 8).
  - destruct (_ =? 0); [lia|]. rewrite u64_small by lia. lia.
  - rewrite u64_small by lia. lia.
Qed.

Lemma cache_counters k M T l R X Y tabs m : cache_ok k M T l R X Y tabs -> cache_ok (with_am m k) M T l R X Y tabs.
Proof. intros []. by constructor. Qed.

Lemma pages_bound k x : i_size k <= 2 ^ 25 -> 0 <= x < pages_of k -> pages_of k <= 2 ^ 13 /\ 4096 * x < i_size k.
Proof.
  unfold pages_of. intros Hs Hx. pose proof (Z.div_mod (i_size k + 4095) 4096 ltac:(lia)). pose proof (Z.mod_pos_bound (i_size k + 4095) 4096 ltac:(lia)).
  split; [apply Z.lt_succ_r, Z.div_lt_upper_bound; lia|lia].
Qed.

(** The state in which the read comes to a page, not cached, that it does not bring in as it should. *)
Definition gone_wrong k M T l Y off n k1 x : Prop :=
  exists M1, reached k M T l Y (content k M l) k1 M1 /\ M1 !! x = None /\ off < 4096 * x /\ (nothing_left k off x \/ overruns k1 off n x).

Lemma read_page_ok k M T l Y off n retval k1 M1 : reached k M T l Y (content k M l) k1 M1 ->
  0 <= off -> 0 <= retval < n -> off + n <= i_size k < 2 ^ 32 -> let o := off + retval in let x := o / 4096 in
  (retval = 0 \/ o mod 4096 = 0) -> (M !! x = None -> may_miss k l) ->
  let run := read_page free_mem pagemeta_start x o retval n k1 in
  gone_wrong k M T l Y off n k1 x /\ retval = 4096 * x - off \/
  ((run = Panic \/ exists k', run = Done (None, k')) /\ exhausted k /\ M !! x = None) \/
  exists p k', run = Done (Some (page_to_pa p), k') /\ (exists M', reached k M T l Y (content k M l) k' M') /\ page_bytes k' p (content k M l) x.
Proof.
  intros Hre Ho Hr Hn o x Hal Hmay run. pose proof Hre as [(R & X & tabs & K) Hsub Hnew Hb Esb Esz Edk Hra HU].
  assert (0 <= x) as Hx0 by (apply Z.div_pos; lia). unfold run, read_page. rewrite (find_page_ok _ _ _ _ _ _ _ _ _ _ K) by done. ocbn.
  destruct (M1 !! x) as [p|] eqn:Ex.
  { right; right. destruct (ck_range _ _ _ _ _ _ _ _ _ _ _ K Ex) as [_ Hp]. destruct (page_item_ok _ Hmeta p ltac:(lia)) as [Hp0 _].
    rewrite (proj2 (Z.eqb_neq _ _)), ptr_of_page by done. exists p, k1. split; [done|]. split; [by exists M1|]. by apply Hb. }
  cbn [Z.eqb]. assert (M !! x = None) as HM. { destruct (M !! x) eqn:E; [|done]. by rewrite (lookup_weaken _ _ _ _ E Hsub) in Ex. }
  destruct (Hmay HM) as (V & Hs25 & Hcl). pose proof (Z.div_mod o 4096 ltac:(lia)) as Eo. pose proof (Z.mod_pos_bound o 4096 ltac:(lia)). fold x in Eo.
  assert (retval <> 0 -> retval = 4096 * x - off /\ off < 4096 * x) as Hpos by (intros ?; destruct Hal; lia).
  rewrite Esz. set (t := i_size k - (o + retval)).
  assert (t <= 0 -> retval = 4096 * x - off /\ off < 4096 * x /\ t = i_size k - (8192 * x - off)) as Hneg.
  { intros Ht. destruct Hpos; [unfold t in Ht; lia|]. split_and!; [done|done|]. unfold t. lia. }
  assert (-4096 < t <= 0 \/ 0 < t \/ t <= -4096) as [Ht|Ht] by lia.
  { left. destruct (Hneg ltac:(lia)) as (E1 & E2 & E3). split; [|done]. exists M1. split_and!; try done. left. unfold nothing_left. lia. }
  set (cnt := max_sane_readahead free_mem (u64 (n - retval)) _ (u64 t) k1). set (k2 := with_am _ k1).
  destruct (Z.eq_dec (free_mem (r_al (tree k1))) 0) as [Hf0|Hf0].
  { right; left. assert (exhausted k) as Hex.
    { right. exists (r_al (tree k1)). split; [|done]. eapply uses_le; [exact HU|apply Z.le_refl|]. pose proof (new_pages k M M1 Hsub Hnew) as Hd1. etransitivity; [|exact (io_cost_enough k _ 0 Hd1 (Nat.le_0_l _))]. apply Nat.le_add_r. }
    destruct (Z.leb_spec cnt 0); [split; [right; eauto|done]|]. exfalso. unfold cnt, max_sane_readahead in *. rewrite Hf0 in *.
    change (DIV_ROUND_UP (DIV_ROUND_UP 0 READ_AHEAD_RATE) PGSIZE) with 0 in *. lia. }
  assert (0 < cnt /\ (0 < t -> x + cnt <= pages_of k)) as [Hcnt Hcp].
  { destruct Ht as [Ht|Ht].
    - pose proof (readahead_count k1 (u64 (n - retval)) (read_ahead_cnt (am k1)) t ltac:(rewrite u64_small; lia) Hra ltac:(unfold t in *; lia) Hf0) as Hc.
      unfold cnt. rewrite (u64_small t) by (unfold t in *; lia). split; [lia|]. intros _. unfold pages_of. apply Z.div_le_lower_bound; [lia|].
      pose proof (Z.div_mod (t + 4095) 4096 ltac:(lia)). pose proof (Z.mod_pos_bound (t + 4095) 4096 ltac:(lia)). unfold t in *. lia.
    - split; [|lia]. apply readahead_wrapped; [rewrite u64_small; lia|done|unfold t in *; lia|done]. }
  destruct (Z_le_gt_dec (x + cnt) (pages_of k)) as [Hxc|Hover].
  2: { left. assert (t <= -4096) as Ht2 by (destruct Ht as [?%Hcp|?]; lia). destruct (Hneg ltac:(lia)) as (E1 & E2 & E3). split; [|done].
    exists M1. split_and!; try done. right. split; [lia|]. unfold ahead_count. replace (off + n - 4096 * x) with (n - retval) by lia.
    rewrite Esz, <- E3. fold cnt. unfold pages_of in *. rewrite Esz. lia. }
  right. rewrite (proj2 (Z.leb_gt cnt 0)) by lia.
  destruct (pages_bound k (x + cnt - 1) Hs25 ltac:(lia)) as [Hp13 _].
  pose proof (cache_counters k1 _ _ _ _ _ _ _ (Amap (nrpages (am k1)) (last_index (am k1)) (read_ahead_cnt (am k1)) (u64 (x + cnt - 1))) K) as K2.
  fold k2 in K2. assert (batch_cost k2 = batch_cost k) as Ec by (unfold batch_cost; cbn [k2 hsb with_am]; by rewrite Esb).
  destruct (readpages_disk _ Hmeta k2 M1 T l R X Y tabs x cnt false K2) as [[-> Hd]|(p & k3 & M3 & R3 & X3 & tabs3 & -> & Ep & K3 & [B1 B2 B3 B4 B5] & U3)]; rewrite ?Ec in *.
  { cbn [k2 hsb with_am]. by rewrite Esb. } { done. } { lia. } { lia. }
  { intros y Hy. destruct (pages_bound k y Hs25 ltac:(lia)) as [_ Hy2]. unfold in_file. cbn [k2 hsb with_am]. rewrite Esb. split; [lia|]. split; [lia|by left]. }
  { done. }
  { left. split; [by left|]. split; [|done]. left. eapply dry_later; [exact HU|eapply dry_le; [exact Hd|unfold PGSIZE; lia|reflexivity]|].
    pose proof (new_pages k M M1 Hsub Hnew) as Hd1. apply io_cost_enough; [exact Hd1|lia]. }
  right. ocbn. destruct B5 as [F1 F2 F3 (F4 & F5 & F6)].
  assert (M ⊆ M3) as Hsub3 by (by etransitivity).
  assert (forall z, is_Some (M3 !! z) -> M !! z = None -> 0 <= z < pages_of k) as Hnew3.
  { intros z [q Eq] Hz. destruct (M1 !! z) as [q1|] eqn:E1; [apply Hnew; eauto|]. destruct (B2 z q Eq E1). lia. }
  assert (holds_bytes k3 M3 (content k M l)) as Hb3.
  { intros z q Eq i Hi. destruct (M1 !! z) as [q1|] eqn:E1.
    - assert (q1 = q) as -> by (pose proof (lookup_weaken _ _ _ _ E1 B1); congruence). rewrite (B4 z q E1 i Hi). by apply (Hb z q).
    - destruct (B2 z q Eq E1) as [Hz Hzb]. rewrite (Hzb i Hi). unfold content. replace (4096 * z + i) with (i + z * 4096) by lia.
      rewrite Z.div_add, Z.div_small, Z.add_0_l by lia. assert (M !! z = None) as ->.
      { destruct (M !! z) eqn:E; [|done]. by rewrite (lookup_weaken _ _ _ _ E Hsub) in E1. }
      unfold fresh_byte, disk_byte. cbn [k2 hsb disk with_am]. by rewrite Esb, Edk. }
  exists p. eexists. split; [done|]. split; [|by apply (Hb3 x)]. exists M3. constructor; cbn [hsb i_size disk am tree with_am].
  - exists R3, X3, tabs3. by apply cache_counters.
  - done.
  - done.
  - done.
  - by rewrite F1.
  - by rewrite F2.
  - by rewrite F3.
  - assert (i_size k3 = i_size k) as Es3 by (by rewrite F2).
    apply (ahead_ok k3 x cnt); [done|lia|unfold pages_of in *; rewrite Es3; lia|lia|lia|rewrite F4; exact Hra|by rewrite F6].
  - assert (uses (PGSIZE * pages_of k) ((12 + batch_cost k) * (size M3 - size M1)) (r_al (tree k2)) (r_al (tree k3))) as U3'.
    { eapply uses_le; [exact U3|unfold PGSIZE; lia|lia]. }
    eapply uses_le; [eapply uses_trans; [exact HU|exact U3']|apply Z.le_refl|].
    assert (size M <= size M1)%nat by (rewrite <- !size_dom; by apply subseteq_size, subseteq_dom).
    assert (size M1 <= size M3)%nat by (rewrite <- !size_dom; by apply subseteq_size, subseteq_dom). nia.
Qed.

Lemma reached_start k M T l R X Y tabs : cache_ok k M T l R X Y tabs -> 0 <= read_ahead_cnt (am k) <= 2 ^ 20 -> reached k M T l Y (content k M l) k M.
Proof.
  intros K Hr. constructor; try done; [eauto|intros x [p E] E'; congruence|apply content_pages|]. rewrite Nat.sub_diag, Nat.mul_0_r. constructor.
Qed.

(** The pages a read or write of [n] bytes at [off] touches. *)
Definition touched (off n x : Z) : Prop := off / 4096 <= x <= (off + n - 1) / 4096.

(** The read has come to page [x], which is not cached: the bytes in front of it are at [dst]. *)
Record came_to k M T l Y dst off n u x k' u' M' : Prop := {
  ct_reached : reached k M T l Y (content k M l) k' M';
  ct_miss : M' !! x = None;
  ct_range : off < 4096 * x < off + n;
  ct_bytes : delivered (content k M l) dst off (4096 * x - off) u u'
}.

Lemma reached_counters k M T l Y c k' M' m : reached k M T l Y c k' M' -> read_ahead_cnt m = read_ahead_cnt (am k') ->
  reached k M T l Y c (with_am m k') M'.
Proof.
  intros [(R & X & tabs & K) H2 H3 H4 H5 H6 H7 H8 H9] Em. constructor; try done.
  - exists R, X, tabs. by apply cache_counters.
  - cbn [am with_am]. by rewrite Em.
Qed.

(** Where nothing is left, the next round is the last. *)
Lemma read_stops more user_dst dst off n k k1 M T l R X Y tabs x u : cache_ok k1 M T l R X Y tabs -> i_size k1 = i_size k -> M !! x = None ->
  0 <= off < 4096 * x -> 4096 * x < off + n -> off + n <= i_size k < 2 ^ 32 -> nothing_left k off x ->
  exists m, read_loop free_mem pagemeta_start (S more) user_dst dst x (4096 * x mod 4096) (4096 * x) (4096 * x - off) n k1 u =
    Done (4096 * x - off, with_am m k1, u) /\ read_ahead_cnt m = read_ahead_cnt (am k1).
Proof.
  intros K Esz Hmiss Ho Hx Hn Hno.
  destruct (read_round_none free_mem pagemeta_start more user_dst dst (4096 * x) (4096 * x - off) n k1 u (i_size k) Esz ltac:(lia) ltac:(lia)) as [_ Hr].
  cbv zeta in Hr. assert (4096 * x / 4096 = x) as Ex by (rewrite Z.mul_comm; by apply Z.div_mul). rewrite Ex in *.
  eexists. split; [apply Hr; unfold read_page; rewrite (find_page_ok _ _ _ _ _ _ _ _ _ _ K) by lia; rewrite Hmiss; ocbn; cbn [Z.eqb]|].
  - set (cnt := max_sane_readahead _ _ _ _ _). assert (cnt <= 0) as Hcnt.
    { unfold cnt, max_sane_readahead. rewrite Esz. unfold nothing_left in Hno. rewrite (PGROUNDUP_negative (i_size k - _)) by lia. lia. }
    rewrite (proj2 (Z.leb_le _ _) Hcnt). reflexivity.
  - done.
Qed.

Lemma read_ok k M T l R X Y tabs user_dst dst off n u : cache_ok k M T l R X Y tabs -> 0 <= read_ahead_cnt (am k) <= 2 ^ 20 ->
  0 <= off -> 0 < n -> off + n <= i_size k < 2 ^ 32 -> 0 <= dst -> dst + n < 2 ^ 64 ->
  (forall x, touched off n x -> M !! x = None -> may_miss k l) ->
  let run := do_generic_file_read free_mem pagemeta_start user_dst dst off n k u in
  ((run = Panic \/ exists r k' u', run = Done (r, k', u') /\ 0 <= r < n) /\ exhausted k /\ exists x, touched off n x /\ M !! x = None) \/
  (exists k' u' M', run = Done (-1, k', u') /\ reached k M T l Y (content k M l) k' M' /\
    exists dst f len u1 u2, either_copyout user_dst dst f len u1 = (-1, u2)) \/
  (exists x k' u' M', run = Done (4096 * x - off, k', u') /\ came_to k M T l Y dst off n u x k' u' M' /\ nothing_left k off x) \/
  (exists x k' u' M' more, came_to k M T l Y dst off n u x k' u' M' /\ overruns k' off n x /\
    run = read_loop free_mem pagemeta_start (S more) user_dst (dst + (4096 * x - off)) x 0 (4096 * x) (4096 * x - off) n k' u') \/
  exists k' u' M', run = Done (n, k', u') /\ reached k M T l Y (content k M l) k' M' /\ delivered (content k M l) dst off n u u'.
Proof.
  intros K Hra Ho Hn Hs Hd Hd2 Hmay run. unfold run, do_generic_file_read. rewrite (proj2 (Z.ltb_lt 0 (i_size k))) by lia. ocbn.
  rewrite page_of_off, PGMASK_mod.
  destruct (read_rounds_ok free_mem pagemeta_start (fun k' _ => exists M', reached k M T l Y (content k M l) k' M')
    (exhausted k /\ exists x, touched off n x /\ M !! x = None)
    (fun k' r => gone_wrong k M T l Y off n k' ((off + r) / 4096) /\ r = 4096 * ((off + r) / 4096) - off) (content k M l) (i_size k) off n user_dst) with
    (rounds := S (Z.to_nat n)) (dst := dst) (retval := 0) (k := k) (u := u)
    as [[H1 H2]|[(k' & u' & E & (r & M' & Hre) & H)|[(r & k1 & u1 & more & Hr & _ & _ & [(M1 & Hre & Hmiss & Hx & Hw) Er] & Hu & E)|(k' & u' & E & [M' Hre] & H)]]];
    rewrite ?Z.add_0_r, ?Z.sub_0_r in *; try lia.
  - intros k1 _ [M1 Hre]. apply Hre.
  - intros k1 r [M1 Hre] Hr Hal. assert (touched off n ((off + r) / 4096)) as Ht by (split; apply Z.div_le_mono; lia).
    destruct (read_page_ok k M T l Y off n r k1 M1 Hre Ho Hr Hs Hal) as [H|[(H1 & H2 & H3)|(p & k' & E & H1 & H2)]].
    + intros E. by eapply Hmay.
    + by left.
    + right; left. split; [done|]. split; [done|]. eauto.
    + right; right. exists p, k'. done.
  - exists M. by eapply reached_start.
  - by left.
  - right; left. exists k', u', M'. done.
  - right; right. set (x := (off + r) / 4096) in *. clearbody x. subst r.
    replace (off + (4096 * x - off)) with (4096 * x) in E by lia. replace (4096 * x / 4096) with x in * by (rewrite Z.mul_comm; by rewrite Z.div_mul).
    destruct Hw as [Hno|Hov]; [left|right; left].
    + destruct (re_cache _ _ _ _ _ _ _ _ Hre) as (R1 & X1 & tabs1 & K1). pose proof (re_size _ _ _ _ _ _ _ _ Hre) as Esz.
      destruct (read_stops more user_dst (dst + (4096 * x - off)) off n k k1 M1 T l R1 X1 Y tabs1 x u1 K1 Esz Hmiss) as (m & Em & Er); [lia..|done|].
      exists x, (with_am m k1), u1, M1. rewrite E, Em. split; [done|]. split; [|done]. constructor; [by apply reached_counters|done|lia|done].
    + exists x, k1, u1, M1, more. split; [by constructor; [| |lia|]|]. split; [done|]. rewrite E. f_equal.
      rewrite Z.mul_comm. by apply Z.mod_mul.
  - right; right; right; right. exists k', u', M'. done.
Qed.

(** A cached page is found. *)
Lemma read_page_hit k M T l R X Y tabs x o retval n p : cache_ok k M T l R X Y tabs -> 0 <= x -> M !! x = Some p ->
  read_page free_mem pagemeta_start x o retval n k = Done (Some (page_to_pa p), k).
Proof.
  intros K Hx E. unfold read_page. rewrite (find_page_ok _ _ _ _ _ _ _ _ _ _ K Hx), E. ocbn.
  destruct (ck_range _ _ _ _ _ _ _ _ _ _ _ K E) as [_ Hp]. destruct (page_item_ok _ Hmeta p ltac:(lia)) as [Hp0 _].
  by rewrite (proj2 (Z.eqb_neq _ _)), ptr_of_page by done.
Qed.

(** [off] has already been advanced by [retval], so that the bytes left are counted wrongly. *)
Lemma read_short_ok k M T l R X Y tabs user_dst dst off n u x : cache_ok k M T l R X Y tabs ->
  0 <= off < 4096 * x -> 4096 * x < off + n -> off + n <= i_size k < 2 ^ 32 -> 0 <= dst -> dst + n < 2 ^ 64 ->
  (forall y, off / 4096 <= y < x -> is_Some (M !! y)) -> M !! x = None ->
  0 <= 8192 * x - off - i_size k <= 4095 ->
  let run := do_generic_file_read free_mem pagemeta_start user_dst dst off n k u in
  (exists k' u', run = Done (-1, k', u') /\ exists dst f len u1 u2, either_copyout user_dst dst f len u1 = (-1, u2)) \/
  exists k' u', run = Done (4096 * x - off, k', u').
Proof.
  intros K Ho Hxn Hs Hd Hd2 Hc Hmiss Hle run. unfold run, do_generic_file_read. rewrite (proj2 (Z.ltb_lt 0 (i_size k))) by lia. ocbn.
  rewrite page_of_off, PGMASK_mod.
  destruct (read_rounds_ok free_mem pagemeta_start (fun k' r => k' = k /\ r <= 4096 * x - off) False (fun _ r => r = 4096 * x - off)
    (content k M l) (i_size k) off n user_dst) with
    (rounds := S (Z.to_nat n)) (dst := dst) (retval := 0) (k := k) (u := u)
    as [[_ []]|[(k' & u' & E & _ & H)|[(r & k1 & u1 & more & _ & _ & [-> _] & Er & _ & E)|(k' & u' & E & [-> Hnx] & _)]]]; rewrite ?Z.add_0_r, ?Z.sub_0_r in *; try lia.
  - by intros k1 r [-> _].
  - intros k1 r [-> Hrx] Hr Hal. destruct (decide (r = 4096 * x - off)) as [->|Hne]; [by left|right; right].
    pose proof (Z.div_mod (off + r) 4096 ltac:(lia)). pose proof (Z.mod_pos_bound (off + r) 4096 ltac:(lia)).
    assert (off / 4096 <= (off + r) / 4096 < x) as Hy by (split; [apply Z.div_le_mono; lia|apply Z.div_lt_upper_bound; lia]).
    destruct (Hc _ Hy) as [p Ep]. exists p, k. split; [|split; [|by apply (content_pages k M l)]].
    + eapply read_page_hit; [done|apply Z.div_pos; lia|done].
    + split; [done|]. lia.
  - split; [done|lia].
  - left. exists k', u'. done.
  - right. subst r. replace (off + (4096 * x - off)) with (4096 * x) in E by lia.
    replace (4096 * x / 4096) with x in E by (rewrite Z.mul_comm; by rewrite Z.div_mul).
    destruct (read_stops more user_dst (dst + (4096 * x - off)) off n k k M T l R X Y tabs x u1 K eq_refl Hmiss) as (m & Em & _); [lia..|unfold nothing_left; lia|].
    rewrite E, Em. by do 2 eexists.
Qed.
End reads.

(** ** Writing *)

Section writes.
Context {A : Type} `{PA : !PageAlloc A, OK : !PageAllocOk A} {D : Type} `{DK : !DiskOps D, DOK : !DiskOk D} {U : Type} `{CO : !CopyOps U, COK : !CopyOk U}.
Context (pagemeta_start : Z).
Notation pc := (pc A D).
Implicit Types (k : pc) (R : gmap Z (Z * Z)) (X Y : gset Z) (tabs : gmap (Z * Z) Z) (M : gmap Z Z) (T : gset (Z * Z)).
Notation cache_ok := (cache_ok pagemeta_start).
Hypothesis (Hmeta : 0 < pagemeta_start < 2 ^ 63 /\ pagemeta_start mod 2 = 0).

(** The code's test whether page [x] of a write of [n] bytes at [off] need not be read from the disk. *)
Definition not_read k (off n x : Z) : bool :=
  WRITE_FULL_PAGE (n - Z.max 0 (4096 * x - off)) || OUT_FILE (Z.max 0 (off - 4096 * x)) (i_size k mod PGSIZE).

#[export] Instance touched_dec off n x : Decision (touched off n x).
Proof. unfold touched. apply _. Defined.

(** What the bytes that are not written become. *)
Definition left_over k M (l : list Z) (off n i : Z) : Z :=
  if bool_decide (M !! (i / 4096) = None /\ touched off n (i / 4096) /\ not_read k off n (i / 4096) = true) then 0 else content k M l i.

(** [r] bytes [w] written at [off]. *)
Definition written (off r : Z) (w before : Z -> Z) (i : Z) : Z := if (off <=? i) && (i <? off + r) then w (i - off) else before i.

Definition n_touched (off n : Z) : Z := (off + n - 1) / 4096 - off / 4096 + 1.
Definition write_cost k (off n : Z) : nat := ((12 + batch_cost k) * Z.to_nat (n_touched off n + 1))%nat.

(** The cache after the first [r] bytes of a write from [k]. *)
Record wrote k M T l Y off n (c : Z -> Z) r k' M' T' : Prop := {
  wr_cache : exists R X tabs, cache_ok k' M' T' l R X Y tabs;
  wr_sub : M ⊆ M';
  wr_new x : is_Some (M' !! x) -> M !! x = None -> touched off n x;
  wr_bytes : holds_bytes k' M' c;
  wr_sb : hsb k' = hsb k;
  wr_size : i_size k' = i_size k;
  wr_disk : disk k' = disk k;
  wr_ahead : read_ahead_cnt (am k') = read_ahead_cnt (am k);
  wr_in x : 0 < r -> off / 4096 <= x -> 4096 * x < off + r -> is_Some (M' !! x);
  wr_tags t x : (t, x) ∈ T' <-> (t, x) ∈ T \/ t = PAGECACHE_TAG_DIRTY /\ 0 < r /\ off / 4096 <= x /\ 4096 * x < off + r;
  wr_uses : uses PGSIZE ((12 + batch_cost k) * (size M' - size M)) (r_al (tree k)) (r_al (tree k'))
}.

Lemma touched_size off n M M' : 0 < n -> M ⊆ M' -> (forall x, is_Some (M' !! x) -> M !! x = None -> touched off n x) ->
  (size M' - size M <= Z.to_nat (n_touched off n))%nat.
Proof.
  intros Hn0 Hs Hn. rewrite <- !size_dom. apply subseteq_dom in Hs. rewrite <- size_difference by done.
  etransitivity; [apply (subseteq_size _ (list_to_set (seqZ (off / 4096) (n_touched off n)) : gset Z))|].
  - intros x [[v Ev]%elem_of_dom Hx%not_elem_of_dom]%elem_of_difference. apply elem_of_list_to_set, elem_of_seqZ.
    destruct (Hn x ltac:(rewrite Ev; eauto) Hx). unfold n_touched. lia.
  - rewrite size_list_to_set by apply NoDup_seqZ. by rewrite length_seqZ.
Qed.

#[export] Instance in_file_dec k l alloc x : Decision (in_file k l alloc x).
Proof. unfold in_file. apply _. Defined.

(** A page that is not cached is written whole enough, or read from the file's clusters. *)
Definition writable k (l : list Z) (off n x : Z) : Prop :=
  not_read k off n x = true \/ volume_ok (hsb k) /\ in_file k l true x.

Lemma write_page_ok k M T l Y off n r k1 M1 T1 w : wrote k M T l Y off n (written off r w (left_over k M l off n)) r k1 M1 T1 ->
  0 <= off -> 0 <= r < n -> off + n <= 2 ^ 32 -> let o := off + r in let x := o / 4096 in
  (r = 0 \/ o mod 4096 = 0) -> (M1 !! x = None -> writable k l off n x) ->
  let run := write_page pagemeta_start x (o mod 4096) (i_size k mod PGSIZE) r n k1 in
  (run = Panic /\ dry PGSIZE (write_cost k off n) (r_al (tree k)) /\ M !! x = None) \/
  exists p k2 M2, run = Done (page_to_pa p, k2) /\ M2 !! x = Some p /\ wrote k M T l Y off n (written off r w (left_over k M l off n)) r k2 M2 T1.
Proof.
  intros Hw Ho Hr Hn o x Hal Hmay run. pose proof Hw as [(R & X & tabs & K) Hsub Hnew Hb Esb Esz Edk Era Hin HT HU].
  assert (0 <= x < 2 ^ 20) as Hx0 by (split; [apply Z.div_pos; lia|apply Z.div_lt_upper_bound; lia]).
  unfold run, write_page. rewrite (find_page_ok _ _ _ _ _ _ _ _ _ _ K) by lia. ocbn.
  destruct (M1 !! x) as [p|] eqn:Ex.
  { right. destruct (ck_range _ _ _ _ _ _ _ _ _ _ _ K Ex) as [_ Hp]. destruct (page_item_ok _ Hmeta p ltac:(lia)) as [Hp0 _].
    rewrite (proj2 (Z.eqb_neq _ _)), ptr_of_page by done. by exists p, k1, M1. }
  cbn [Z.eqb]. assert (M !! x = None) as HM. { destruct (M !! x) eqn:E; [|done]. by rewrite (lookup_weaken _ _ _ _ E Hsub) in Ex. }
  pose proof (Z.div_mod o 4096 ltac:(lia)) as Eo. pose proof (Z.mod_pos_bound o 4096 ltac:(lia)) as Hom. fold x in Eo.
  assert (touched off n x) as Ht by (split; apply Z.div_le_mono; lia).
  assert (r = Z.max 0 (4096 * x - off) /\ o mod 4096 = Z.max 0 (off - 4096 * x)) as [Er Eom].
  { destruct Hal as [->|Hal]; [|lia]. unfold o in *. rewrite Z.add_0_r in *. lia. }
  assert ((WRITE_FULL_PAGE (n - r) || OUT_FILE (o mod 4096) (i_size k mod PGSIZE)) = not_read k off n x) as ->.
  { unfold not_read. by rewrite <- Er, <- Eom. }
  pose proof (touched_size off n M M1 ltac:(lia) Hsub Hnew) as Hsz.
  assert (Z.to_nat (n_touched off n + 1) = S (Z.to_nat (n_touched off n))) as EQ by (destruct Ht; unfold n_touched; lia).
  assert (forall k2 M2 src, brought k1 M1 x 1 src k2 M2 -> (exists R X tabs, cache_ok k2 M2 T1 l R X Y tabs) -> 
    uses PGSIZE ((12 + batch_cost k) * (size M2 - size M1)) (r_al (tree k1)) (r_al (tree k2)) ->
    (forall i, 0 <= i < 4096 -> src (4096 * x + i) = left_over k M l off n (4096 * x + i)) ->
    wrote k M T l Y off n (written off r w (left_over k M l off n)) r k2 M2 T1) as Hgo.
  { intros k2 M2 src [B1 B2 B3 B4 [F1 F2 F3 (F4 & _)]] K2 U2 Hsrc. constructor; [done|by etransitivity| | |congruence..| |done|].
    - intros z [q Eq] Hz. destruct (M1 !! z) as [q1|] eqn:E1; [apply Hnew; eauto|]. destruct (B2 z q Eq E1) as [Hzx _]. by assert (z = x) as -> by lia.
    - intros z q Eq i Hi. destruct (M1 !! z) as [q1|] eqn:E1.
      + assert (q1 = q) as -> by (pose proof (lookup_weaken _ _ _ _ E1 B1); congruence). rewrite (B4 z q E1 i Hi). by apply (Hb z q).
      + destruct (B2 z q Eq E1) as [Hzx Hzb]. assert (z = x) as -> by lia. rewrite (Hzb i Hi), Hsrc by done. unfold written.
        destruct (Z.leb_spec off (4096 * x + i)), (Z.ltb_spec (4096 * x + i) (off + r)); cbn [andb]; try done. lia.
    - intros z Hz0 Hz1 Hz2. destruct (Hin z Hz0 Hz1 Hz2) as [q Eq]. exists q. by eapply lookup_weaken.
    - eapply uses_le; [eapply uses_trans; [exact HU|exact U2]|apply Z.le_refl|].
      assert (size M <= size M1)%nat by (rewrite <- !size_dom; by apply subseteq_size, subseteq_dom).
      assert (size M1 <= size M2)%nat by (rewrite <- !size_dom; by apply subseteq_size, subseteq_dom). nia. }
  assert (forall i, 0 <= i < 4096 -> (4096 * x + i) / 4096 = x) as Hdiv.
  { intros i Hi. replace (4096 * x + i) with (i + x * 4096) by lia. rewrite Z.div_add, Z.div_small by lia. lia. }
  destruct (not_read k off n x) eqn:Enr; cbn [negb].
  - destruct (readpage_fresh _ Hmeta k1 M1 T1 l R X Y tabs x true K ltac:(lia) Ex) as [[-> Hd]|(p & k2 & M2 & R2 & X2 & tabs2 & -> & Ep & K2 & B & U2)].
    { left. split; [done|]. split; [|done]. eapply dry_later; [exact HU|exact Hd|]. unfold write_cost. rewrite EQ. nia. }
    right. exists p, k2, M2. split; [done|]. split; [done|]. eapply Hgo; [exact B|eauto| |].
    + eapply uses_le; [exact U2|apply Z.le_refl|nia].
    + intros i Hi. unfold left_over. rewrite Hdiv by done. by rewrite bool_decide_eq_true_2.
  - destruct (Hmay eq_refl) as [?|[V Hif]]; [congruence|].
    assert (batch_cost k1 = batch_cost k) as Ec by (unfold batch_cost; by rewrite Esb).
    destruct (readpages_disk _ Hmeta k1 M1 T1 l R X Y tabs x 1 true K) as [[-> Hd]|(p & k2 & M2 & R2 & X2 & tabs2 & -> & Ep & K2 & B & U2)]; rewrite ?Ec in *.
    { by rewrite Esb. } { lia. } { lia. } { lia. } { intros y Hy. assert (y = x) as -> by lia. unfold in_file. by rewrite Esb. } { done. }
    { left. split; [done|]. split; [|done]. eapply dry_later; [exact HU|eapply dry_le; [exact Hd|unfold PGSIZE; lia|reflexivity]|]. unfold write_cost. rewrite EQ. nia. }
    right. exists p, k2, M2. split; [done|]. split; [done|]. eapply Hgo; [exact B|eauto| |].
    + eapply uses_le; [exact U2|unfold PGSIZE; lia|lia].
    + intros i Hi. unfold left_over. rewrite Hdiv by done. rewrite bool_decide_eq_false_2 by (rewrite Enr; by intros (_ & _ & ?)). unfold content. rewrite Hdiv, HM by done.
      unfold fresh_byte, disk_byte. by rewrite Esb, Edk.
Qed.

Lemma cache_bytes k M T l R X Y tabs m : cache_ok k M T l R X Y tabs -> cache_ok (with_pmem m k) M T l R X Y tabs.
Proof. intros []. by constructor. Qed.

(** The bytes of one round arrive in the page and it is tagged. *)
Lemma wrote_more k M T l Y off n w before r len k1 M1 T1 x p om f : wrote k M T l Y off n (written off r w before) r k1 M1 T1 ->
  0 <= off -> 0 <= r -> 0 < len -> off + r = 4096 * x + om -> 0 <= om -> om + len <= 4096 -> off / 4096 <= x -> M1 !! x = Some p ->
  (forall i, 0 <= i < len -> f i = w (r + i)) ->
  exists s, radix_tree_tag_set x PAGECACHE_TAG_DIRTY (tree k1) = Done (page_ptr pagemeta_start p, s) /\
    wrote k M T l Y off n (written off (r + len) w before) (r + len)
      (with_tree s (with_pmem (put_range (page_to_pa p + om) len f (pmem k1)) k1)) M1 ({[(PAGECACHE_TAG_DIRTY, x)]} ∪ T1).
Proof.
  intros [(R & X & tabs & K) Hsub Hnew Hb Esb Esz Edk Era Hin HT HU] Ho Hr Hl Eo Hom Hol Hx Ep Hf.
  destruct (cache_tag _ k1 _ _ _ _ _ _ _ x p PAGECACHE_TAG_DIRTY K Ep ltac:(by left)) as (s & Es & Ea & K').
  pose proof (Z.div_mod off 4096 ltac:(lia)) as Eod. pose proof (Z.mod_pos_bound off 4096 ltac:(lia)) as Hod.
  exists s. split; [exact Es|]. constructor; try done.
  - exists R, X, tabs. destruct K'. by constructor.
  - intros z q Eq i Hi. cbn [pmem with_tree with_pmem]. unfold put_range.
    destruct (ck_range _ _ _ _ _ _ _ _ _ _ _ K Ep) as [_ Hp]. destruct (ck_range _ _ _ _ _ _ _ _ _ _ _ K Eq) as [Hz Hq].
    rewrite !page_to_pa_alt by done. pose proof (Hb z q Eq i Hi) as Hbz. rewrite page_to_pa_alt in Hbz by done. unfold written in *.
    destruct (decide (z = x)) as [->|Hne].
    + assert (q = p) as -> by congruence.
      destruct (Z.leb_spec (p * 4096 + START_MEM + om) (p * 4096 + START_MEM + i)), (Z.ltb_spec (p * 4096 + START_MEM + i) (p * 4096 + START_MEM + om + len)); cbn [andb].
      2, 3, 4: rewrite Hbz; destruct (Z.leb_spec off (4096 * x + i)), (Z.ltb_spec (4096 * x + i) (off + r)), (Z.ltb_spec (4096 * x + i) (off + (r + len))); cbn [andb]; try done; lia.
      rewrite (proj2 (Z.leb_le _ _)), (proj2 (Z.ltb_lt _ _)) by lia. cbn [andb]. rewrite Hf by lia. f_equal. lia.
    + assert (q <> p) by (intros ->; apply Hne; by eapply (ck_inj _ _ _ _ _ _ _ _ _ K)).
      destruct (Z.leb_spec (p * 4096 + START_MEM + om) (q * 4096 + START_MEM + i)), (Z.ltb_spec (q * 4096 + START_MEM + i) (p * 4096 + START_MEM + om + len)); cbn [andb]; try lia.
      all: rewrite Hbz; destruct (Z.leb_spec off (4096 * z + i)), (Z.ltb_spec (4096 * z + i) (off + r)), (Z.ltb_spec (4096 * z + i) (off + (r + len))); cbn [andb]; try done; lia.
  - intros z Hz0 Hz1 Hz2. destruct (decide (z = x)) as [->|Hne]; [rewrite Ep; eauto|]. apply Hin; lia.
  - intros t z. rewrite elem_of_union, elem_of_singleton, HT. split.
    + intros [[= -> ->]|[?|(-> & H1 & H2 & H3)]]; [right; split_and!; [done|lia|done|lia]|by left|right; split_and!; [done|lia|done|lia]].
    + intros [?|(-> & H1 & H2 & H3)]; [by right; left|]. destruct (decide (z = x)) as [->|Hne]; [by left|]. right. right. split_and!; [done|lia|done|lia].
  - cbn [tree with_tree]. by rewrite Ea.
Qed.

(** The write has come to page [x], which is not cached, of which bytes are to be kept and which
    does not lie wholly in the file's clusters: [fat32_get_block] will append clusters. *)
Record must_append k M T l Y off n c r k' M' T' x : Prop := {
  ma_wrote : wrote k M T l Y off n c r k' M' T';
  ma_at : 0 <= r < n /\ x = (off + r) / 4096 /\ r = Z.max 0 (4096 * x - off);
  ma_miss : M' !! x = None;
  ma_keeps : not_read k off n x = false;
  ma_outside : ~ in_file k l true x
}.

Lemma write_rounds_ok k M T l Y user_src src off n u : 0 <= off -> 0 < n -> off + n < 2 ^ 32 -> 0 <= src -> src + n < 2 ^ 64 ->
  (forall x, touched off n x -> M !! x = None -> not_read k off n x = false -> in_file k l true x -> volume_ok (hsb k)) ->
  let w := fun j => cp_byte u (src + j) in let c := fun r => written off r w (left_over k M l off n) in
  forall rounds r k1 M1 T1, wrote k M T l Y off n (c r) r k1 M1 T1 -> 0 <= r < n -> (r = 0 \/ (off + r) mod 4096 = 0) -> (Z.to_nat (n - r) < rounds)%nat ->
  let run := write_loop pagemeta_start rounds user_src (src + r) ((off + r) / 4096) ((off + r) mod 4096) (i_size k mod PGSIZE) (off + r) r n k1 u in
  (run = Panic /\ dry PGSIZE (write_cost k off n) (r_al (tree k)) /\ exists x, touched off n x /\ M !! x = None) \/
  (exists k' M' T' r', run = Done (-1, k') /\ wrote k M T l Y off n (c r') r' k' M' T' /\ exists s len, either_copyin user_src s len u = None) \/
  (exists k' M' T' r' x more, must_append k M T l Y off n (c r') r' k' M' T' x /\
    run = write_loop pagemeta_start (S more) user_src (src + r') x ((off + r') mod 4096) (i_size k mod PGSIZE) (off + r') r' n k' u) \/
  exists k' M' T', run = Done (n, k') /\ wrote k M T l Y off n (c n) n k' M' T'.
Proof.
  intros Ho Hn H32 Hs Hs64 Hmay w c rounds. induction rounds as [|rounds IH]; intros r k1 M1 T1 Hw Hr Hal Hf; [lia|].
  set (o := off + r) in *. set (x := o / 4096). pose proof (Z.div_mod o 4096 ltac:(lia)) as Eo. pose proof (Z.mod_pos_bound o 4096 ltac:(lia)) as Hom. fold x in Eo.
  assert (touched off n x) as Ht by (split; apply Z.div_le_mono; lia).
  destruct (decide (M1 !! x = None /\ not_read k off n x = false /\ ~ in_file k l true x)) as [(H1 & H2 & H3)|Hgo].
  { right; right; left. exists k1, M1, T1, r, x, rounds. split; [|done]. constructor; try done. split; [done|]. split; [done|]. unfold o in *. destruct Hal; lia. }
  assert (M1 !! x = None -> writable k l off n x) as Hwr.
  { intros H1. unfold writable. destruct (not_read k off n x) eqn:En; [by left|right]. destruct (decide (in_file k l true x)) as [Hif|Hnf]; [|by destruct Hgo].
    split; [|done]. eapply Hmay; [done| |done|done]. destruct (M !! x) eqn:EM; [|done]. by rewrite (lookup_weaken _ _ _ _ EM (wr_sub _ _ _ _ _ _ _ _ _ _ _ _ Hw)) in H1. }
  cbn [write_loop]. destruct (write_page_ok k M T l Y off n r k1 M1 T1 w Hw Ho Hr ltac:(lia) Hal Hwr) as [(E & Hd & HM)|(p & k2 & M2 & E & Ep & Hw2)]; fold o x in E.
  { left. rewrite E. split; [done|]. split; [done|]. eauto. }
  rewrite E. ocbn. rewrite u64_small by lia. change (PGSIZE - o mod 4096) with (4096 - o mod 4096). set (len := Z.min (n - r) (4096 - o mod 4096)). assert (0 < len /\ len <= n - r /\ len <= 4096 - o mod 4096) as (Hl1 & Hl2 & Hl3) by lia.
  destruct (either_copyin user_src (src + r) len u) as [f|] eqn:Ec.
  2: { right. left. exists k2, M2, T1, r. split; [done|]. split; [done|]. eauto. }
  destruct (wrote_more k M T l Y off n w _ r len k2 M2 T1 x p (o mod 4096) f Hw2 Ho ltac:(lia) Hl1 ltac:(unfold o in *; lia) ltac:(lia) ltac:(lia) ltac:(apply Ht) Ep) as (s & Es & Hw3).
  { intros i Hi. rewrite (copyin_byte _ _ _ _ _ Ec) by done. unfold w. f_equal. lia. }
  cbn [tree with_pmem]. rewrite Es. ocbn. destruct (Z.eqb_spec (r + len) n) as [En|En].
  { right. right. right. rewrite En in *. by eexists _, _, _. }
  rewrite (u32_small (o + len)), (u64_small (src + r + len)), page_of_off, PGMASK_mod by lia.
  assert (len = 4096 - o mod 4096) as El by lia.
  specialize (IH (r + len) _ M2 _ Hw3 ltac:(lia)). replace (off + (r + len)) with (o + len) in IH by (unfold o; lia).
  replace (src + (r + len)) with (src + r + len) in IH by lia. apply IH; [right|lia].
  replace (o + len) with ((x + 1) * 4096) by lia. by apply Z.mod_mul.
Qed.

Lemma wrote_start k M T l R X Y tabs off n w : cache_ok k M T l R X Y tabs -> wrote k M T l Y off n (written off 0 w (left_over k M l off n)) 0 k M T.
Proof.
  intros K. constructor; try done; [eauto|intros x [p E] E'; congruence| | |].
  - intros x p E i Hi. unfold written. assert ((off <=? 4096 * x + i) && (4096 * x + i <? off + 0) = false) as ->.
    { destruct (Z.leb_spec off (4096 * x + i)), (Z.ltb_spec (4096 * x + i) (off + 0)); cbn [andb]; try done. lia. }
    unfold left_over. assert ((4096 * x + i) / 4096 = x) as ->.
    { replace (4096 * x + i) with (i + x * 4096) by lia. rewrite Z.div_add, Z.div_small by lia. lia. }
    rewrite bool_decide_eq_false_2 by (intros (? & _); congruence). by apply (content_pages k M l).
  - intros t x. split; [by left|]. intros [?|(_ & Hx & _)]; [done|lia].
  - rewrite Nat.sub_diag, Nat.mul_0_r. constructor.
Qed.

Lemma write_any_ok k M T l R X Y tabs user_src src off n u : cache_ok k M T l R X Y tabs ->
  0 <= off -> 0 < n -> off + n < 2 ^ 32 -> 0 <= src -> src + n < 2 ^ 64 ->
  (forall x, touched off n x -> M !! x = None -> not_read k off n x = false -> in_file k l true x -> volume_ok (hsb k)) ->
  let w := fun j => cp_byte u (src + j) in let c := fun r => written off r w (left_over k M l off n) in
  let run := do_generic_file_write pagemeta_start user_src src off n k u in
  (run = Panic /\ dry PGSIZE (write_cost k off n) (r_al (tree k)) /\ exists x, touched off n x /\ M !! x = None) \/
  (exists k' M' T' r', run = Done (-1, k') /\ wrote k M T l Y off n (c r') r' k' M' T' /\ exists s len, either_copyin user_src s len u = None) \/
  (exists k' M' T' r' x more, must_append k M T l Y off n (c r') r' k' M' T' x /\
    run = write_loop pagemeta_start (S more) user_src (src + r') x ((off + r') mod 4096) (i_size k mod PGSIZE) (off + r') r' n k' u) \/
  exists k' M' T', run = Done (n, k') /\ wrote k M T l Y off n (c n) n k' M' T'.
Proof.
  intros K Ho Hn H32 Hs Hs64 Hmay w c run. unfold run, do_generic_file_write. rewrite (proj2 (Z.ltb_lt 0 n)) by done. ocbn.
  rewrite page_of_off, PGMASK_mod.
  pose proof (write_rounds_ok k M T l Y user_src src off n u Ho Hn H32 Hs Hs64 Hmay (S (Z.to_nat n)) 0 k M T (wrote_start _ _ _ _ _ _ _ _ _ _ _ K) ltac:(lia) ltac:(by left) ltac:(lia)) as H.
  by rewrite !Z.add_0_r in H.
Qed.

(** Without a page that needs clusters. *)
Lemma write_ok k M T l R X Y tabs user_src src off n u : cache_ok k M T l R X Y tabs ->
  0 <= off -> 0 < n -> off + n < 2 ^ 32 -> 0 <= src -> src + n < 2 ^ 64 ->
  (forall x, touched off n x -> M !! x = None -> writable k l off n x) ->
  let w := fun j => cp_byte u (src + j) in let c := fun r => written off r w (left_over k M l off n) in
  let run := do_generic_file_write pagemeta_start user_src src off n k u in
  (run = Panic /\ dry PGSIZE (write_cost k off n) (r_al (tree k)) /\ exists x, touched off n x /\ M !! x = None) \/
  (exists k' M' T' r', run = Done (-1, k') /\ wrote k M T l Y off n (c r') r' k' M' T' /\ exists s len, either_copyin user_src s len u = None) \/
  exists k' M' T', run = Done (n, k') /\ wrote k M T l Y off n (c n) n k' M' T'.
Proof.
  intros K Ho Hn H32 Hs Hs64 Hmay w c run.
  destruct (write_any_ok k M T l R X Y tabs user_src src off n u K Ho Hn H32 Hs Hs64) as [H|[H|[(k' & M' & T' & r & x & more & [Hw (Hr & Ex & _) Hmiss Hkeep Hout] & _)|H]]];
    [|by left|by right; left| |by right; right].
  - intros x Ht Hm Hkeep _. destruct (Hmay x Ht Hm) as [?|[V _]]; [congruence|done].
  - exfalso. destruct (Hmay x) as [?|[_ ?]]; [|destruct (M !! x) eqn:EM; [|done]|congruence|done].
    + rewrite Ex. split; apply Z.div_le_mono; lia.
    + by rewrite (lookup_weaken _ _ _ _ EM (wr_sub _ _ _ _ _ _ _ _ _ _ _ _ Hw)) in Hmiss.
Qed.
End writes.

(** ** The inode's operations *)

Section inodes.
Context {A : Type} `{PA : !PageAlloc A, OK : !PageAllocOk A} {D : Type} `{DK : !DiskOps D, DOK : !DiskOk D} {U : Type} `{CO : !CopyOps U, COK : !CopyOk U}.
Context (free_mem : A -> Z) (pagemeta_start : Z).
Notation pc := (pc A D).
Implicit Types (k : pc) (R : gmap Z (Z * Z)) (X Y : gset Z) (tabs : gmap (Z * Z) Z) (M : gmap Z Z) (T : gset (Z * Z)) (im : imeta).
Notation cache_ok := (cache_ok pagemeta_start).
Hypothesis (Hmeta : 0 < pagemeta_start < 2 ^ 63 /\ pagemeta_start mod 2 = 0).
Hypothesis (Hfree : forall a, 0 <= free_mem a < 2 ^ 63).

(** The bytes a read of [n] at [off] can give. *)
Definition readable k (off n : Z) : Z := Z.max 0 (Z.min n (i_size k - off)).

Lemma inode_read_ok k M T l R X Y tabs user_dst dst off n im u : cache_ok k M T l R X Y tabs -> 0 <= read_ahead_cnt (am k) <= 2 ^ 20 ->
  i_mapping im <> 0 -> 0 <= i_size k < 2 ^ 31 -> 0 <= off -> 0 <= n -> off + n < 2 ^ 32 -> 0 <= dst -> dst + n < 2 ^ 64 ->
  let m := readable k off n in (forall x, touched off m x -> M !! x = None -> may_miss k l) ->
  let run := fat32_inode_read free_mem pagemeta_start user_dst dst off n im k u in
  (0 < m /\ (run = Panic \/ exists r im' k' u', run = Done (r, im', k', u') /\ 0 <= r < m) /\ exhausted free_mem k /\ exists x, touched off m x /\ M !! x = None) \/
  (exists k' u' M', run = Done (-1, im, k', u') /\ reached pagemeta_start k M T l Y (content k M l) k' M' /\
    exists dst f len u1 u2, either_copyout user_dst dst f len u1 = (-1, u2)) \/
  (exists x k' u' M', run = Done (4096 * x - off, im, k', u') /\ came_to pagemeta_start k M T l Y dst off m u x k' u' M' /\ nothing_left k off x) \/
  (exists x k' u' M' more, came_to pagemeta_start k M T l Y dst off m u x k' u' M' /\ overruns free_mem k' off m x /\
    do_generic_file_read free_mem pagemeta_start user_dst dst off m k u =
      read_loop free_mem pagemeta_start (S more) user_dst (dst + (4096 * x - off)) x 0 (4096 * x) (4096 * x - off) m k' u') \/
  exists k' u' M', run = Done (m, im, k', u') /\ reached pagemeta_start k M T l Y (content k M l) k' M' /\ delivered (content k M l) dst off m u u'.
Proof.
  intros K Hra Him Hs Ho Hn H32 Hd Hd2 m Hmay run. unfold run, fat32_inode_read. rewrite s32_small, !u32_small by lia.
  destruct (Z.ltb_spec (off + n) off); [lia|]. rewrite orb_false_r.
  assert (m = 0 -> exists k' u' M', Done (0, im, k, u) = Done (m, im, k', u') /\ reached pagemeta_start k M T l Y (content k M l) k' M' /\
    delivered (content k M l) dst off m u u') as Hzero.
  { intros Em. exists k, u, M. rewrite Em. split; [done|]. split; [by eapply reached_start|apply delivered_none]. }
  destruct (Z.ltb_spec (i_size k) off) as [Hlt|Hge]; [right; right; right; right; apply Hzero; unfold m, readable; lia|].
  assert ((if i_size k <? off + n then u32 (i_size k - off) else n) = m) as ->.
  { unfold m, readable. destruct (Z.ltb_spec (i_size k) (off + n)); [rewrite u32_small by lia|]; lia. }
  destruct (Z.eqb_spec m 0) as [Em|Em]; [right; right; right; right; by apply Hzero|].
  assert (0 < m /\ m <= n /\ off + m <= i_size k) as (Hm0 & Hmn & Hms) by (unfold m, readable in *; lia).
  unfold need_mapping. rewrite (proj2 (Z.eqb_neq _ 0)) by done. ocbn.
  destruct (read_ok free_mem pagemeta_start Hmeta Hfree k M T l R X Y tabs user_dst dst off m u K Hra Ho Hm0 ltac:(lia) Hd ltac:(lia) Hmay)
    as [(H1 & H2 & H3)|[(k' & u' & M' & -> & Hre & H3)|[(x & k' & u' & M' & -> & Hct & Hno)|[?|(k' & u' & M' & -> & Hre & H3)]]]].
  - left. split; [done|]. split; [|done]. destruct H1 as [->|(r & k' & u' & -> & Hr)]; [by left|right]. ocbn. exists (s32 r), im, k', u'. split; [done|].
    rewrite s32_small by lia. done.
  - right. left. exists k', u', M'. ocbn. done.
  - right; right; left. exists x, k', u', M'. ocbn. pose proof (ct_range _ _ _ _ _ _ _ _ _ _ _ _ _ _ Hct). rewrite s32_small by lia. done.
  - right; right; right; by left.
  - right; right; right; right. exists k', u', M'. ocbn. rewrite s32_small by lia. done.
Qed.

Lemma cache_size k M T l R X Y tabs n : cache_ok k M T l R X Y tabs -> cache_ok (with_size n k) M T l R X Y tabs.
Proof. intros []. by constructor. Qed.

(** What [fat32_inode_write] makes of the outcome of [do_generic_file_write]. *)
Lemma inode_write_eq user_src src off n im k u :
  i_mapping im <> 0 -> is_reg im = true -> 0 <= i_size k < 2 ^ 31 -> 0 <= off -> 0 < n -> off + n < 2 ^ 31 ->
  let run := fat32_inode_write pagemeta_start user_src src off n im k u in
  let generic := do_generic_file_write pagemeta_start user_src src off n k u in
  (generic = Panic -> run = Panic) /\ (forall k', generic = Done (-1, k') -> run = Done (-1, im, k')) /\
  (forall k', generic = Done (n, k') -> i_size k' = i_size k -> exists im', run = Done (n, im', with_size (Z.max (i_size k) (off + n)) k') /\
    i_mapping im' = i_mapping im /\ is_reg im' = true /\ on_dirty_list im' = true).
Proof.
  intros Him Hreg Hs Ho Hn H31 run generic. unfold run, fat32_inode_write. rewrite s32_small, !u32_small by lia.
  destruct (Z.ltb_spec (off + n) off); [lia|]. unfold need_mapping. rewrite (proj2 (Z.eqb_neq _ 0)) by done. ocbn. fold generic.
  split; [by intros ->|]. split; [by intros k' ->|]. intros k' -> Es. ocbn.
  rewrite s32_small by lia. rewrite (proj2 (Z.eqb_neq n (-1))) by lia. cbn [is_reg i_mapping]. rewrite Hreg.
  destruct (Z.ltb_spec (i_size k) (off + n)).
  - rewrite (u32_small (off + n)), Z.max_r by lia. by eexists.
  - rewrite Z.max_l by lia. exists (Imeta (i_mapping im) true true (dirty_in_parent im) (i_blocks im)). split; [|done].
    rewrite <- Es, <- Hreg. by destruct k'.
Qed.

Lemma inode_write_ok k M T l R X Y tabs user_src src off n im u : cache_ok k M T l R X Y tabs ->
  i_mapping im <> 0 -> is_reg im = true -> 0 <= i_size k < 2 ^ 31 -> 0 <= off -> 0 < n -> off + n < 2 ^ 31 -> 0 <= src -> src + n < 2 ^ 64 ->
  (forall x, touched off n x -> M !! x = None -> writable k l off n x) ->
  let w := fun j => cp_byte u (src + j) in let c := fun r => written off r w (left_over k M l off n) in
  let run := fat32_inode_write pagemeta_start user_src src off n im k u in
  (run = Panic /\ dry PGSIZE (write_cost k off n) (r_al (tree k)) /\ exists x, touched off n x /\ M !! x = None) \/
  (exists k' M' T' r', run = Done (-1, im, k') /\ wrote pagemeta_start k M T l Y off n (c r') r' k' M' T' /\ exists s len, either_copyin user_src s len u = None) \/
  exists im' k' M' T', run = Done (n, im', with_size (Z.max (i_size k) (off + n)) k') /\ wrote pagemeta_start k M T l Y off n (c n) n k' M' T' /\
    i_mapping im' = i_mapping im /\ is_reg im' = true /\ on_dirty_list im' = true.
Proof.
  intros K Him Hreg Hs Ho Hn H31 Hsrc Hs64 Hmay w c run. destruct (inode_write_eq user_src src off n im k u Him Hreg Hs Ho Hn H31) as (EP & EF & ED).
  destruct (write_ok pagemeta_start Hmeta k M T l R X Y tabs user_src src off n u K Ho Hn ltac:(lia) Hsrc Hs64 Hmay)
    as [(E & H2 & H3)|[(k' & M' & T' & r' & E & Hw & H3)|(k' & M' & T' & E & Hw)]]; [left|right; left|right; right].
  - split; [by apply EP|done].
  - exists k', M', T', r'. split; [by apply EF|done].
  - destruct (ED k' E (wr_size _ _ _ _ _ _ _ _ _ _ _ _ _ Hw)) as (im' & E' & H). by exists im', k', M', T'.
Qed.

Lemma inode_write_any_ok k M T l R X Y tabs user_src src off n im u : cache_ok k M T l R X Y tabs ->
  i_mapping im <> 0 -> is_reg im = true -> 0 <= i_size k < 2 ^ 31 -> 0 <= off -> 0 < n -> off + n < 2 ^ 31 -> 0 <= src -> src + n < 2 ^ 64 ->
  volume_ok (hsb k) ->
  let w := fun j => cp_byte u (src + j) in let c := fun r => written off r w (left_over k M l off n) in
  let run := fat32_inode_write pagemeta_start user_src src off n im k u in
  (run = Panic /\ dry PGSIZE (write_cost k off n) (r_al (tree k)) /\ exists x, touched off n x /\ M !! x = None) \/
  (exists k' M' T' r', run = Done (-1, im, k') /\ wrote pagemeta_start k M T l Y off n (c r') r' k' M' T' /\ exists s len, either_copyin user_src s len u = None) \/
  (exists k' M' T' r' x more, must_append pagemeta_start k M T l Y off n (c r') r' k' M' T' x /\
    do_generic_file_write pagemeta_start user_src src off n k u =
      write_loop pagemeta_start (S more) user_src (src + r') x ((off + r') mod 4096) (i_size k mod PGSIZE) (off + r') r' n k' u) \/
  exists im' k' M' T', run = Done (n, im', with_size (Z.max (i_size k) (off + n)) k') /\ wrote pagemeta_start k M T l Y off n (c n) n k' M' T' /\
    i_mapping im' = i_mapping im /\ is_reg im' = true /\ on_dirty_list im' = true.
Proof.
  intros K Him Hreg Hs Ho Hn H31 Hsrc Hs64 V w c run. destruct (inode_write_eq user_src src off n im k u Him Hreg Hs Ho Hn H31) as (EP & EF & ED).
  destruct (write_any_ok pagemeta_start Hmeta k M T l R X Y tabs user_src src off n u K Ho Hn ltac:(lia) Hsrc Hs64 ltac:(done))
    as [(E & H2 & H3)|[(k' & M' & T' & r' & E & Hw & H3)|[?|(k' & M' & T' & E & Hw)]]]; [left|right; left|right; right; by left|right; right; right].
  - split; [by apply EP|done].
  - exists k', M', T', r'. split; [by apply EF|done].
  - destruct (ED k' E (wr_size _ _ _ _ _ _ _ _ _ _ _ _ _ Hw)) as (im' & E' & H). by exists im', k', M', T'.
Qed.

(** The written bytes are in the cached pages. *)
Lemma wrote_bytes k M T l Y off n w before k' M' T' i : wrote pagemeta_start k M T l Y off n (written off n w before) n k' M' T' ->
  0 <= off -> off <= i < off + n -> exists p, M' !! (i / 4096) = Some p /\ pmem k' (page_to_pa p + i mod 4096) = w (i - off).
Proof.
  intros W Ho Hi. pose proof (Z.div_mod i 4096 ltac:(lia)) as Ei. pose proof (Z.mod_pos_bound i 4096 ltac:(lia)).
  destruct (wr_in _ _ _ _ _ _ _ _ _ _ _ _ _ W (i / 4096)) as [p Ep]; [lia|apply Z.div_le_mono; lia|lia|]. exists p. split; [done|].
  rewrite (wr_bytes _ _ _ _ _ _ _ _ _ _ _ _ _ W _ _ Ep (i mod 4096)), <- Ei by lia. unfold written.
  by rewrite (proj2 (Z.leb_le off i)), (proj2 (Z.ltb_lt i _)) by lia.
Qed.

(** What was written is read back, with the pages in the cache. *)
Lemma round_trip_ok k M T l R X Y tabs user_src src user_dst dst off n im im' u u1 k1 : cache_ok k M T l R X Y tabs ->
  0 <= read_ahead_cnt (am k) <= 2 ^ 20 -> i_mapping im <> 0 -> is_reg im = true -> 0 <= i_size k < 2 ^ 31 ->
  0 <= off -> 0 < n -> off + n < 2 ^ 31 -> 0 <= src -> src + n < 2 ^ 64 -> 0 <= dst -> dst + n < 2 ^ 64 ->
  (forall x, touched off n x -> M !! x = None -> writable k l off n x) ->
  fat32_inode_write pagemeta_start user_src src off n im k u = Done (n, im', k1) ->
  let run := fat32_inode_read free_mem pagemeta_start user_dst dst off n im' k1 u1 in
  (exists k2 u2, run = Done (-1, im', k2, u2) /\ exists dst f len u3 u4, either_copyout user_dst dst f len u3 = (-1, u4)) \/
  exists k2 u2, run = Done (n, im', k2, u2) /\ forall j, 0 <= j < n -> cp_byte u2 (dst + j) = cp_byte u (src + j).
Proof.
  intros K Hra Him Hreg Hs Ho Hn H31 Hsrc Hs64 Hd Hd64 Hmay E run.
  destruct (inode_write_ok k M T l R X Y tabs user_src src off n im u K Him Hreg Hs Ho Hn H31 Hsrc Hs64 Hmay)
    as [(E' & _)|[(k' & M' & T' & r' & E' & _)|(im1 & k' & M' & T' & E' & Hw & Him1 & _)]]; rewrite E' in E; [done| |].
  { injection E. lia. }
  injection E as <- <-. destruct (wr_cache _ _ _ _ _ _ _ _ _ _ _ _ _ Hw) as (R' & X' & tabs' & K').
  set (k1 := with_size _ k') in *. pose proof (cache_size _ _ _ _ _ _ _ _ (Z.max (i_size k) (off + n)) K') as K1. fold k1 in K1.
  assert (readable k1 off n = n) as Em by (unfold readable, k1; cbn [i_size with_size]; lia).
  assert (forall x, touched off n x -> M' !! x <> None) as Hin.
  { intros x [Hx1 Hx2] HM. pose proof (Z.div_mod (off + n - 1) 4096 ltac:(lia)). pose proof (Z.mod_pos_bound (off + n - 1) 4096 ltac:(lia)).
    destruct (wr_in _ _ _ _ _ _ _ _ _ _ _ _ _ Hw x) as [p Ep]; [done|done|lia|congruence]. }
  assert (forall d x k2 u2 M2, came_to pagemeta_start k1 M' T' l Y d off n u1 x k2 u2 M2 -> False) as Hcached.
  { intros d x k2 u2 M2 [Hre Hmiss Hx _]. destruct (M' !! x) as [p|] eqn:E1.
    - rewrite (lookup_weaken _ _ _ _ E1 (re_sub _ _ _ _ _ _ _ _ _ Hre)) in Hmiss. done.
    - apply (Hin x); [|done]. split; [apply Z.div_le_upper_bound|apply Z.div_le_lower_bound]; lia. }
  destruct (inode_read_ok k1 M' T' l R' X' Y tabs' user_dst dst off n im1 u1 K1)
    as [(_ & _ & _ & x & Hx & HM)|[(k2 & u2 & M2 & E2 & _ & H)|[(x & k2 & u2 & M2 & _ & Hct & _)|[(x & k2 & u2 & M2 & more & Hct & _)|(k2 & u2 & M2 & E2 & _ & H)]]]];
    rewrite ?Em in *; try done; try lia.
  - change (am k1) with (am k'). by rewrite (wr_ahead _ _ _ _ _ _ _ _ _ _ _ _ _ Hw).
  - unfold k1. cbn [i_size with_size]. lia.
  - intros x Hx HM. by destruct (Hin x Hx).
  - by destruct (Hin x Hx).
  - left. by exists k2, u2.
  - destruct (Hcached _ _ _ _ _ Hct).
  - destruct (Hcached _ _ _ _ _ Hct).
  - right. exists k2, u2. split; [done|]. intros j Hj. rewrite H.
    rewrite (proj2 (Z.leb_le dst _)), (proj2 (Z.ltb_lt (dst + j) _)) by lia. cbn [andb]. replace (off + (dst + j - dst)) with (off + j) by lia.
    destruct (wrote_bytes _ _ _ _ _ _ _ _ _ _ _ _ (off + j) Hw Ho ltac:(lia)) as (p & Ep & Hb). unfold content. rewrite Ep. change (pmem k1) with (pmem k').
    rewrite Hb. f_equal. lia.
Qed.

(** What a partial write of a page that is not read first leaves in the rest of it. *)
Lemma write_loses_ok k M T l R X Y tabs user_src src off n u x : cache_ok k M T l R X Y tabs ->
  0 <= off -> 0 < n -> off + n < 2 ^ 32 -> 0 <= src -> src + n < 2 ^ 64 ->
  (forall x, touched off n x -> M !! x = None -> writable k l off n x) ->
  touched off n x -> M !! x = None -> not_read k off n x = true -> forall k1,
  do_generic_file_write pagemeta_start user_src src off n k u = Done (n, k1) ->
  exists p, find_get_page_atomic x k1 = Done (page_ptr pagemeta_start p) /\
    forall i, 0 <= i < 4096 -> ~ off <= 4096 * x + i < off + n -> pmem k1 (page_to_pa p + i) = 0.
Proof.
  intros K Ho Hn H32 Hs Hs64 Hmay Ht HM Hnr k1 E.
  destruct (write_ok pagemeta_start Hmeta k M T l R X Y tabs user_src src off n u K Ho Hn H32 Hs Hs64 Hmay)
    as [(E' & _)|[(k' & M' & T' & r' & E' & _)|(k' & M' & T' & E' & Hw)]]; rewrite E' in E; [done|injection E; lia|]. injection E as <-.
  destruct Hw as [(R' & X' & tabs' & K') W2 W3 W4 W5 W6 W7 W8 W9 W10 W11]. destruct Ht as [Hx1 Hx2].
  destruct (W9 x) as [p Ep]; [done|done| |].
  { pose proof (Z.div_mod (off + n - 1) 4096 ltac:(lia)). pose proof (Z.mod_pos_bound (off + n - 1) 4096 ltac:(lia)). lia. }
  exists p. rewrite (find_page_ok _ _ _ _ _ _ _ _ _ _ K'), Ep by (pose proof (Z.div_pos off 4096); lia). split; [done|].
  intros i Hi Hni. rewrite (W4 x p Ep i Hi). unfold written.
  destruct (Z.leb_spec off (4096 * x + i)), (Z.ltb_spec (4096 * x + i) (off + n)); cbn [andb]; try lia.
  all: unfold left_over; assert ((4096 * x + i) / 4096 = x) as -> by (replace (4096 * x + i) with (i + x * 4096) by lia; rewrite Z.div_add, Z.div_small by lia; lia);
    by rewrite bool_decide_eq_true_2.
Qed.
End inodes.

(** ** The properties *)

Section properties.
Context {A : Type} `{PA : !PageAlloc A, OK : !PageAllocOk A} {D : Type} `{DK : !DiskOps D, DOK : !DiskOk D} {U : Type} `{CO : !CopyOps U, COK : !CopyOk U}.
Context (free_mem : A -> Z) (pagemeta_start : Z).
Notation pc := (pc A D).
Implicit Types (k : pc) (R : gmap Z (Z * Z)) (X Y : gset Z) (tabs : gmap (Z * Z) Z) (M : gmap Z Z) (T : gset (Z * Z)) (im : imeta).
Notation cache_ok := (cache_ok pagemeta_start).
Hypothesis (Hmeta : 0 < pagemeta_start < 2 ^ 63 /\ pagemeta_start mod 2 = 0).
Hypothesis (Hfree : forall a, 0 <= free_mem a < 2 ^ 63).

(** C34. Reading a file of up to 32 MB that lies in its clusters gives the [readable] bytes at the
    offset, cut at the end of the file, each as the cache has it or else as the file's sectors on the
    disk have it; the cache may have more pages afterwards, but holds the same bytes.  Otherwise: a
    page had to be brought in and memory ran out within the first [io_cost] allocations; or the copy
    to the caller failed (-1); or the read came to a page that is not cached, with the bytes in
    front of it delivered, and took them twice from what is left: when that leaves nothing, it
    returns them and stops short (C36 is a case of it), and when it leaves less than nothing and
    the page count then goes past the end of the file, the loop goes on from the state described,
    of which nothing more is said. *)
Theorem inode_read_spec k M T l R X Y tabs user_dst dst off n im u : cache_ok k M T l R X Y tabs -> 0 <= read_ahead_cnt (am k) <= 2 ^ 20 ->
  i_mapping im <> 0 -> 0 <= i_size k < 2 ^ 31 -> 0 <= off -> 0 <= n -> off + n < 2 ^ 32 -> 0 <= dst -> dst + n < 2 ^ 64 ->
  let m := readable k off n in (forall x, touched off m x -> M !! x = None -> may_miss k l) ->
  let run := fat32_inode_read free_mem pagemeta_start user_dst dst off n im k u in
  (0 < m /\ (run = Panic \/ exists r im' k' u', run = Done (r, im', k', u') /\ 0 <= r < m) /\ exhausted free_mem k /\ exists x, touched off m x /\ M !! x = None) \/
  (exists k' u' M', run = Done (-1, im, k', u') /\ reached pagemeta_start k M T l Y (content k M l) k' M' /\
    exists dst f len u1 u2, either_copyout user_dst dst f len u1 = (-1, u2)) \/
  (exists x k' u' M', run = Done (4096 * x - off, im, k', u') /\ came_to pagemeta_start k M T l Y dst off m u x k' u' M' /\ nothing_left k off x) \/
  (exists x k' u' M' more, came_to pagemeta_start k M T l Y dst off m u x k' u' M' /\ overruns free_mem k' off m x /\
    do_generic_file_read free_mem pagemeta_start user_dst dst off m k u =
      read_loop free_mem pagemeta_start (S more) user_dst (dst + (4096 * x - off)) x 0 (4096 * x) (4096 * x - off) m k' u') \/
  exists k' u' M', run = Done (m, im, k', u') /\ reached pagemeta_start k M T l Y (content k M l) k' M' /\ delivered (content k M l) dst off m u u'.
Proof. by apply inode_read_ok. Qed.

(** C36. [do_generic_file_read] takes the bytes already read twice from what is left when it looks for
    pages to read ahead: reading on from cached pages into one that is not cached, it may find
    that nothing is left and return before the end of the file and of the range, although every byte
    is there. *)
Theorem read_stops_short k M T l R X Y tabs user_dst dst off n u x : cache_ok k M T l R X Y tabs ->
  0 <= off < 4096 * x -> 4096 * x < off + n -> off + n <= i_size k < 2 ^ 32 -> 0 <= dst -> dst + n < 2 ^ 64 ->
  (forall y, off / 4096 <= y < x -> is_Some (M !! y)) -> M !! x = None ->
  0 <= 8192 * x - off - i_size k <= 4095 ->
  let run := do_generic_file_read free_mem pagemeta_start user_dst dst off n k u in
  (exists k' u', run = Done (-1, k', u') /\ exists dst f len u1 u2, either_copyout user_dst dst f len u1 = (-1, u2)) \/
  exists k' u', run = Done (4096 * x - off, k', u').
Proof. by apply read_short_ok. Qed.

(** C35. Writing a regular file puts the bytes into the cache: the pages of the range are cached and tagged
    dirty, hold the new bytes in the range and [left_over] around it (which is zero, and not what
    the file had, where C37 says so), and no other cached page changes; the size grows to the end of the range.
    Otherwise: a page had to be brought in and one of the first [write_cost] allocations failed; or
    the copy from the caller failed (-1); or the write came, having written what lies in front of
    it, to a page that is not cached, of which bytes are to be kept and which does not lie wholly in the file's
    clusters: [fat32_get_block] then appends clusters (C30 for one of them), and of how the
    loop goes on from the state described nothing more is said. *)
Theorem inode_write_spec k M T l R X Y tabs user_src src off n im u : cache_ok k M T l R X Y tabs ->
  i_mapping im <> 0 -> is_reg im = true -> 0 <= i_size k < 2 ^ 31 -> 0 <= off -> 0 < n -> off + n < 2 ^ 31 -> 0 <= src -> src + n < 2 ^ 64 ->
  volume_ok (hsb k) ->
  let w := fun j => cp_byte u (src + j) in let c := fun r => written off r w (left_over k M l off n) in
  let run := fat32_inode_write pagemeta_start user_src src off n im k u in
  (run = Panic /\ dry PGSIZE (write_cost k off n) (r_al (tree k)) /\ exists x, touched off n x /\ M !! x = None) \/
  (exists k' M' T' r', run = Done (-1, im, k') /\ wrote pagemeta_start k M T l Y off n (c r') r' k' M' T' /\ exists s len, either_copyin user_src s len u = None) \/
  (exists k' M' T' r' x more, must_append pagemeta_start k M T l Y off n (c r') r' k' M' T' x /\
    do_generic_file_write pagemeta_start user_src src off n k u =
      write_loop pagemeta_start (S more) user_src (src + r') x ((off + r') mod 4096) (i_size k mod PGSIZE) (off + r') r' n k' u) \/
  exists im' k' M' T', run = Done (n, im', with_size (Z.max (i_size k) (off + n)) k') /\ wrote pagemeta_start k M T l Y off n (c n) n k' M' T' /\
    i_mapping im' = i_mapping im /\ is_reg im' = true /\ on_dirty_list im' = true.
Proof. by apply inode_write_any_ok. Qed.

(** C37. A write that takes a page as written whole, or as lying behind the end of the file, does not read it
    from the disk even when it only changes a part of it: the rest of the page is zero from then
    on, whatever the file had there. *)
Theorem write_loses_data k M T l R X Y tabs user_src src off n u x : cache_ok k M T l R X Y tabs ->
  0 <= off -> 0 < n -> off + n < 2 ^ 32 -> 0 <= src -> src + n < 2 ^ 64 ->
  (forall x, touched off n x -> M !! x = None -> writable k l off n x) ->
  touched off n x -> M !! x = None -> not_read k off n x = true -> forall k1,
  do_generic_file_write pagemeta_start user_src src off n k u = Done (n, k1) ->
  exists p, find_get_page_atomic x k1 = Done (page_ptr pagemeta_start p) /\
    forall i, 0 <= i < 4096 -> ~ off <= 4096 * x + i < off + n -> pmem k1 (page_to_pa p + i) = 0.
Proof. by apply write_loses_ok. Qed.

(** What was written is read back: after a write that returned its length, a read of the same range
    needs no page and no memory, and gives the bytes that were written (or fails to copy them out). *)
Theorem write_read_round_trip k M T l R X Y tabs user_src src user_dst dst off n im im' u u1 k1 : cache_ok k M T l R X Y tabs ->
  0 <= read_ahead_cnt (am k) <= 2 ^ 20 -> i_mapping im <> 0 -> is_reg im = true -> 0 <= i_size k < 2 ^ 31 ->
  0 <= off -> 0 < n -> off + n < 2 ^ 31 -> 0 <= src -> src + n < 2 ^ 64 -> 0 <= dst -> dst + n < 2 ^ 64 ->
  (forall x, touched off n x -> M !! x = None -> writable k l off n x) ->
  fat32_inode_write pagemeta_start user_src src off n im k u = Done (n, im', k1) ->
  let run := fat32_inode_read free_mem pagemeta_start user_dst dst off n im' k1 u1 in
  (exists k2 u2, run = Done (-1, im', k2, u2) /\ exists dst f len u3 u4, either_copyout user_dst dst f len u3 = (-1, u4)) \/
  exists k2 u2, run = Done (n, im', k2, u2) /\ forall j, 0 <= j < n -> cp_byte u2 (dst + j) = cp_byte u (src + j).
Proof. by apply round_trip_ok. Qed.
End properties.

(** ** A small file

    The file of [Fat] in the clusters 2, 3 and 5 on a disk where byte [a] is [a mod 251]; memory and
    user memory are plain functions. *)

#[export] Instance byte_disk : DiskOps (Z -> Z) := {| dk_byte d := d; dk_write a n f d := put_range a n f d |}.
#[export] Instance byte_disk_ok : DiskOk (Z -> Z).
Proof. by constructor. Qed.
#[export] Instance byte_copy : CopyOps (Z -> Z) := {|
  cp_byte u := u; either_copyout _ dst f len u := (0, put_range dst len f u); either_copyin _ src len u := Some (fun i => u (src + i)) |}.
#[export] Instance byte_copy_ok : CopyOk (Z -> Z).
Proof.
  constructor.
  - intros user dst f len u u' r E. cbn in E. by injection E as <- <-.
  - intros user src len u f E. cbn in E. by injection E as <-.
Qed.

Definition demo_meta : Z := 0x80000000.
Definition demo_mem (_ : spare) : Z := 4096000.
Definition demo_im : imeta := Imeta 0x1000 true false false 6.
Definition demo_pc (size : Z) : pc spare (Z -> Z) :=
  Pc (RT 0 0 0 ∅ demo_used) (Amap 0 0 0 0) demo_ino demo_fat ∅ size (const 7) (fun a => a mod 251).

Lemma demo_cache size : cache_ok demo_meta (demo_pc size) ∅ ∅ [2; 3; 5] demo_used ∅ ∅ ∅.
Proof.
  constructor; try done.
  - rewrite fmap_empty. apply (radix_init_ok (A := spare) (RT 0 0 0 ∅ demo_used) demo_used 0); [exact demo_used_rep|lia].
  - destruct demo_file as [R K]. destruct (ix_alloc _ _ _ (fo_index _ _ _ _ K)) as [<- _]. exact K.
Qed.

Lemma demo_meta_ok : 0 < demo_meta < 2 ^ 63 /\ demo_meta mod 2 = 0.
Proof. by vm_compute. Qed.
Lemma demo_mem_ok (a : spare) : 0 <= demo_mem a < 2 ^ 63.
Proof. unfold demo_mem. lia. Qed.

Lemma demo_miss : may_miss (demo_pc 3072) [2; 3; 5].
Proof. split; [exact demo_volume|]. cbn. lia. Qed.

(** What a run returned, without the state. *)
Definition returned {B} (f : B -> Z) (o : outcome B) : option Z := match o with Done x => Some (f x) | _ => None end.

(** Bytes 10 to 109 of the file. *)
Lemma inode_read_spec_witness : exists k u, fat32_inode_read demo_mem demo_meta 0 5000 10 100 demo_im (demo_pc 3072) (const 1) = Done (100, demo_im, k, u) /\
  u 5000 = (2 * 512 + 10) mod 251 /\ u 5100 = 1.
Proof.
  pose proof (inode_read_spec demo_mem demo_meta demo_meta_ok demo_mem_ok (demo_pc 3072) ∅ ∅ [2; 3; 5] demo_used ∅ ∅ ∅ 0 5000 10 100 demo_im (const 1)
    (demo_cache 3072) ltac:(cbn; lia) ltac:(done) ltac:(cbn; lia) ltac:(lia) ltac:(lia) ltac:(lia) ltac:(lia) ltac:(lia)) as H.
  change (readable (demo_pc 3072) 10 100) with 100 in H. cbv zeta in H. destruct H as [(_ & [E|(r & im & k & u & E & Hr)] & _)|[(k & u & M & E & _)|
    [(x & k & u & M & _ & Hct & _)|[(x & k & u & M & more & Hct & _)|(k & u & M & E & _ & Hb)]]]].
  - intros x [Hx1 Hx2] _. change (10 / 4096) with 0 in Hx1. change ((10 + 100 - 1) / 4096) with 0 in Hx2. exact demo_miss.
  - apply (f_equal (returned (fun x => x.1.1.1))) in E. vm_compute in E. discriminate E.
  - apply (f_equal (returned (fun x => x.1.1.1))) in E. vm_compute in E. injection E as <-. lia.
  - apply (f_equal (returned (fun x => x.1.1.1))) in E. vm_compute in E. discriminate E.
  - pose proof (ct_range _ _ _ _ _ _ _ _ _ _ _ _ _ _ Hct). lia.
  - pose proof (ct_range _ _ _ _ _ _ _ _ _ _ _ _ _ _ Hct). lia.
  - exists k, u. split; [exact E|]. unfold delivered in Hb. cbn [cp_byte byte_copy] in Hb. rewrite !Hb. split; vm_compute; reflexivity.
Defined.

(** The page cached, the next one not: of 8000 bytes the first 4096 come. *)
Lemma read_stops_short_witness : exists (k k' : pc spare (Z -> Z)) u, do_generic_file_read demo_mem demo_meta 0 5000 0 8000 k (const 1) = Done (4096, k', u) /\ i_size k = 8000.
Proof.
  destruct (readpage_fresh demo_meta demo_meta_ok (demo_pc 8000) ∅ ∅ [2; 3; 5] demo_used ∅ ∅ ∅ 0 false (demo_cache 8000) ltac:(lia) eq_refl)
    as [[E _]|(p & k & M & R & X & tabs & E & Ep & K & B & _)].
  - apply (f_equal (returned fst)) in E. vm_compute in E. discriminate E.
  - assert (i_size k = 8000) as Es by (rewrite (sf_size _ _ (br_file _ _ _ _ _ _ _ B)); reflexivity).
    destruct (read_stops_short demo_mem demo_meta demo_meta_ok k M ∅ [2; 3; 5] R X ∅ tabs 0 5000 0 8000 (const 1) 1 K)
      as [(k' & u & _ & dst & f & len & u1 & u2 & Ec)|(k' & u & E')]; rewrite ?Es; try lia.
    + intros y [Hy1 Hy2]. change (0 / 4096) with 0 in Hy1. assert (y = 0) as -> by lia. rewrite Ep. eauto.
    + destruct (M !! 1) as [q|] eqn:E1; [|reflexivity]. destruct (br_new _ _ _ _ _ _ _ B 1 q E1 eq_refl) as [H _]. lia.
    + cbn in Ec. discriminate Ec.
    + exists k, k', u. split; [exact E'|exact Es].
Defined.

(** A hundred bytes at offset 10 of a new file. *)
Lemma demo_writable size x off n : size mod 4096 < off < 4096 -> off + n <= 4096 -> touched off n x -> 0 < n -> writable (demo_pc size) [2; 3; 5] off n x.
Proof.
  intros Hs Hn [H1 H2] Hp. left. pose proof (Z.mod_pos_bound size 4096 ltac:(lia)). assert (x = 0) as ->.
  { rewrite Z.div_small in H1, H2 by lia. lia. }
  unfold not_read, OUT_FILE. cbn [i_size demo_pc]. unfold PGSIZE. rewrite (Z.max_r 0 (off - 4096 * 0)) by lia.
  apply orb_true_iff. right. apply Z.ltb_lt. lia.
Qed.

Lemma inode_write_spec_witness : exists im k, fat32_inode_write demo_meta 0 5000 10 100 demo_im (demo_pc 0) (fun a => a mod 17) = Done (100, im, with_size 110 k) /\
  exists M T, wrote demo_meta (demo_pc 0) ∅ ∅ [2; 3; 5] ∅ 10 100 (written 10 100 (fun j => (5000 + j) mod 17) (left_over (demo_pc 0) ∅ [2; 3; 5] 10 100)) 100 k M T.
Proof.
  destruct (inode_write_spec demo_meta demo_meta_ok (demo_pc 0) ∅ ∅ [2; 3; 5] demo_used ∅ ∅ ∅ 0 5000 10 100 demo_im (fun a => a mod 17)
    (demo_cache 0) ltac:(done) eq_refl ltac:(cbn; lia) ltac:(lia) ltac:(lia) ltac:(lia) ltac:(lia) ltac:(lia) demo_volume)
    as [(E & _)|[(k & M & T & r & _ & _ & s & len & Ec)|[(k & M & T & r & x & more & [_ (Hr & Ex & _) _ Hkeep _] & _)|(im & k & M & T & E & Hw & _)]]].
  - apply (f_equal (returned (fun x => x.1.1))) in E. vm_compute in E. discriminate E.
  - discriminate Ec.
  - rewrite (Z.div_small (10 + r)) in Ex by lia. subst x. discriminate Hkeep.
  - exists im, k. split; [exact E|]. exists M, T. exact Hw.
Defined.

(** Ten bytes written behind the end of a file of 3072 bytes: its first byte is gone. *)
Lemma write_loses_data_witness : exists k p, do_generic_file_write demo_meta 0 5000 3500 10 (demo_pc 3072) (const 1) = Done (10, k) /\
  find_get_page_atomic 0 k = Done (page_ptr demo_meta p) /\ pmem k (page_to_pa p) = 0 /\ content (demo_pc 3072) ∅ [2; 3; 5] 0 = 20.
Proof.
  assert (forall x, touched 3500 10 x -> (∅ : gmap Z Z) !! x = None -> writable (demo_pc 3072) [2; 3; 5] 3500 10 x) as Hw.
  { intros x Hx _. apply demo_writable; [vm_compute; split; reflexivity|lia|exact Hx|lia]. }
  destruct (write_ok demo_meta demo_meta_ok (demo_pc 3072) ∅ ∅ [2; 3; 5] demo_used ∅ ∅ ∅ 0 5000 3500 10 (const 1) (demo_cache 3072) ltac:(lia) ltac:(lia) ltac:(lia) ltac:(lia) ltac:(lia) Hw)
    as [(E & _)|[(k & M & T & r & _ & _ & s & len & Ec)|(k & M & T & E & _)]].
  - apply (f_equal (returned fst)) in E. vm_compute in E. discriminate E.
  - discriminate Ec.
  - destruct (write_loses_data demo_meta demo_meta_ok (demo_pc 3072) ∅ ∅ [2; 3; 5] demo_used ∅ ∅ ∅ 0 5000 3500 10 (const 1) 0 (demo_cache 3072)
      ltac:(lia) ltac:(lia) ltac:(lia) ltac:(lia) ltac:(lia) Hw ltac:(vm_compute; split; discriminate) eq_refl eq_refl k E) as (p & Ep & Hb).
    exists k, p. split; [exact E|]. split; [exact Ep|]. split; [|vm_compute; reflexivity].
    rewrite <- (Z.add_0_r (page_to_pa p)). apply Hb; lia.
Defined.

Lemma write_read_round_trip_witness : exists im k1 k2 u, fat32_inode_write demo_meta 0 5000 10 100 demo_im (demo_pc 0) (fun a => a mod 17) = Done (100, im, k1) /\
  fat32_inode_read demo_mem demo_meta 0 9000 10 100 im k1 (const 2) = Done (100, im, k2, u) /\ u 9050 = 5050 mod 17.
Proof.
  assert (forall x, touched 10 100 x -> (∅ : gmap Z Z) !! x = None -> writable (demo_pc 0) [2; 3; 5] 10 100 x) as Hw.
  { intros x Hx _. apply demo_writable; [vm_compute; split; reflexivity|lia|exact Hx|lia]. }
  destruct (inode_write_ok demo_meta demo_meta_ok (demo_pc 0) ∅ ∅ [2; 3; 5] demo_used ∅ ∅ ∅ 0 5000 10 100 demo_im (fun a => a mod 17)
    (demo_cache 0) ltac:(done) eq_refl ltac:(cbn; lia) ltac:(lia) ltac:(lia) ltac:(lia) ltac:(lia) ltac:(lia) Hw)
    as [(E & _)|[(k & M & T & r & _ & _ & s & len & Ec)|(im & k & M & T & E & _)]].
  - apply (f_equal (returned (fun x => x.1.1))) in E. vm_compute in E. discriminate E.
  - discriminate Ec.
  - destruct (write_read_round_trip demo_mem demo_meta demo_meta_ok demo_mem_ok (demo_pc 0) ∅ ∅ [2; 3; 5] demo_used ∅ ∅ ∅ 0 5000 0 9000 10 100 demo_im im (fun a => a mod 17) (const 2) _
      (demo_cache 0) ltac:(cbn; lia) ltac:(done) eq_refl ltac:(cbn; lia) ltac:(lia) ltac:(lia) ltac:(lia) ltac:(lia) ltac:(lia) ltac:(lia) ltac:(lia) Hw E)
      as [(k2 & u2 & _ & dst & f & len & u3 & u4 & Ec)|(k2 & u2 & E2 & Hb)]; [discriminate Ec|].
    exists im, (with_size (Z.max (i_size (demo_pc 0)) (10 + 100)) k), k2, u2. split; [exact E|]. split; [exact E2|]. exact (Hb 50 ltac:(lia)).
Defined.
