(* ===== verification/Writeback.v ===== *)
(** * Writeback: the dirty pages of a file go to the disk

    [mpage_writepage] of [src/fs/mpage.c] (defined in [Filemap]): the dirty pages are found with the
    gang lookup of [Gang], batched like the pages of a read ([Fileio]), and their bytes reach exactly the file's
    sectors.  With the theorems of [Fileio]: what was written survives the loss of the cache. *)

From stdpp Require Import base gmap sets list fin_maps sorting.
From Stdlib Require Import ZArith Lia.
From S2P Require Import Prelude Buddy Kalloc PageAlloc Radix Gang Fat Filemap Pagecache Fileio.
#[local] Open Scope Z_scope.

(** ** The sectors of a file are different ones *)

Lemma sectors_range sb c l b : volume_ok sb -> chain sb c l -> b ∈ sectors_of sb l ->
  exists x, x ∈ l /\ 2 <= x <= FAT_CLUSTER_MAX sb /\ (x - 2) * sectors_per_block sb + data_start sb <= b < (x - 1) * sectors_per_block sb + data_start sb.
Proof.
  intros V H (x & Hb & Hx)%list_elem_of_bind. destruct (proj1 (list_elem_of_lookup _ _) Hx) as [i Ei].
  destruct (chain_elem _ _ _ _ _ H Ei) as [Hr _]. destruct (first_sector_ok sb x V Hr) as [E _]. apply elem_of_seqZ in Hb.
  exists x. split; [done|]. split; [done|]. rewrite E in Hb. lia.
Qed.

Lemma sectors_NoDup sb c l : volume_ok sb -> chain sb c l -> NoDup (sectors_of sb l).
Proof.
  intros V. revert c. induction l as [|x l IH]; intros c H; [constructor|]. rewrite sectors_of_cons.
  pose proof (chain_NoDup _ _ _ H) as [Hx _]%NoDup_cons. pose proof (chain_elem _ _ _ 0 x H eq_refl) as [Hr _].
  destruct (first_sector_ok sb x V Hr) as [E _]. destruct H as (_ & _ & _ & n & _ & _ & H). pose proof (vo_cluster _ V).
  apply NoDup_app. split; [apply NoDup_seqZ|]. split; [|by eapply IH].
  intros b Hb%elem_of_seqZ (y & Hy & Hyr & Hb')%(sectors_range _ _ _ _ V H). rewrite E in Hb.
  assert (y = x) as -> by nia. done.
Qed.

(** What is cut out of a list without repetition has nothing of the rest. *)
Lemma cut_apart (bs : list Z) o n i : NoDup bs -> (i < length bs)%nat -> ~ (o <= i < o + n)%nat -> bs !!! i ∉ take n (drop o bs).
Proof.
  intros Hnd Hi Hn (m & Em)%list_elem_of_lookup. apply lookup_take_Some in Em as [Em Hm]. rewrite lookup_drop in Em.
  pose proof (list_lookup_lookup_total_lt bs i Hi) as Ei. pose proof (NoDup_lookup _ _ _ _ Hnd Em Ei). lia.
Qed.
Lemma cut_in (bs : list Z) o n b : b ∈ take n (drop o bs) -> b ∈ bs.
Proof. intros (m & Em)%list_elem_of_lookup. apply lookup_take_Some in Em as [Em _]. rewrite lookup_drop in Em. by eapply list_elem_of_lookup_2. Qed.
Lemma cut_NoDup (bs : list Z) o n : NoDup bs -> NoDup (take n (drop o bs)).
Proof.
  intros H. rewrite <- (take_drop o bs) in H. apply NoDup_app in H as (_ & _ & H).
  rewrite <- (take_drop n (drop o bs)) in H. by apply NoDup_app in H as (H & _ & _).
Qed.

Section sync.
Context {A : Type} `{PA : !PageAlloc A, OK : !PageAllocOk A} {D : Type} `{DK : !DiskOps D, DOK : !DiskOk D}.
Context (pagemeta_start : Z).
Notation pc := (pc A D).
Implicit Types (k : pc) (R : gmap Z (Z * Z)) (X Y : gset Z) (tabs : gmap (Z * Z) Z) (M : gmap Z Z) (T : gset (Z * Z)) (im : imeta).
Notation cache_ok := (cache_ok pagemeta_start).
Hypothesis (Hmeta : 0 < pagemeta_start < 2 ^ 63 /\ pagemeta_start mod 2 = 0).

(** ** Writing batches *)

(** Byte [j] of the file as cached. *)
Definition cached_byte k M (j : Z) : Z := match M !! (j / 4096) with Some p => pmem k (page_to_pa p + j mod 4096) | None => 0 end.

(** The pages of the indexes [xs] were written to the disk: the file's sectors have their bytes, as far
    as its clusters go, and nothing else changes. *)
Record pages_written (l : list Z) M k (xs : list Z) k' : Prop := {
  pw_sb : hsb k' = hsb k;
  pw_size : i_size k' = i_size k;
  pw_ahead : read_ahead_cnt (am k') = read_ahead_cnt (am k);
  pw_mem : pmem k' = pmem k;
  pw_file j : 0 <= j -> disk_byte k' l j = if bool_decide (j / 4096 ∈ xs) then (fun _ => cached_byte k M j) <$> disk_byte k l j else disk_byte k l j;
  pw_rest a : a / sector_size (hsb k) ∉ sectors_of (hsb k) l -> dk_byte (disk k') a = dk_byte (disk k) a
}.

Lemma pages_written_nil l M k : pages_written l M k [] k.
Proof. constructor; done. Qed.

Lemma pages_written_app l M k1 k2 k3 xs ys : pages_written l M k1 xs k2 -> pages_written l M k2 ys k3 -> pages_written l M k1 (xs ++ ys) k3.
Proof.
  intros [A1 A2 A3 A4 A5 A6] [B1 B2 B3 B4 B5 B6]. constructor; try congruence.
  - intros j Hj. rewrite B5, A5 by done. assert (cached_byte k2 M j = cached_byte k1 M j) as -> by (unfold cached_byte; by rewrite A4).
    assert (bool_decide (j / 4096 ∈ xs ++ ys) = bool_decide (j / 4096 ∈ xs) || bool_decide (j / 4096 ∈ ys)) as ->.
    { rewrite <- bool_decide_or. apply bool_decide_ext. by rewrite elem_of_app. }
    by destruct (bool_decide (j / 4096 ∈ xs)), (bool_decide (j / 4096 ∈ ys)), (disk_byte k1 l j).
  - intros a Ha. rewrite <- (A6 a Ha). apply B6. by rewrite A1.
Qed.

Lemma run_write alloc M l k T R X Y tabs p x b : cache_ok k M T l R X Y tabs -> volume_ok (hsb k) -> cached_run k M l alloc p x b ->
  (fat32_rw_pages (page_to_pa p) x DISK_WRITE b alloc k = Panic /\ dry PGSIZE (run_cost k b) (r_al (tree k))) \/
  exists k' R', fat32_rw_pages (page_to_pa p) x DISK_WRITE b alloc k = Done k' /\ cache_ok k' M T l R' X Y tabs /\
    (forall q, q ∈ X ∪ Y -> R' !! q = R !! q) /\ uses PGSIZE (run_cost k b) (r_al (tree k)) (r_al (tree k')) /\ pages_written l M k (seqZ x b) k'.
Proof.
  intros K V Hcr. pose proof (cached_run_fits _ _ _ _ _ _ _ _ _ _ _ _ _ K Hcr) as Hrun.
  destruct (run_sectors_ok k l alloc p x b V Hrun) as (EL & Ex & Hx0 & _). pose proof V as [[V1 _] _ _ _].
  pose proof (sectors_NoDup _ _ _ V (fo_chain _ _ _ _ (ck_file _ _ _ _ _ _ _ _ _ K))) as Hnd. change (fsb (fat_of k)) with (hsb k) in Hnd.
  destruct (rw_pages_ok _ DISK_WRITE k M T l R X Y tabs p x b alloc K V Hrun) as [?|(k' & R' & vecs & E & K' & Hk & F1 & F2 & F3 & U & Ebs & Hl & Hm)]; [by left|right].
  exists k', R'. split_and!; try done. set (bs := sectors_of (hsb k) l) in *. set (ss := sector_size (hsb k)) in *.
  destruct (transfer_write ss vecs (pmem k) V1 Hl) with (src := page_to_pa p) (d := disk k) as (d & Ed & Hin & Hout); [rewrite Ebs; by apply cut_NoDup|].
  rewrite Ed in Hm. injection Hm as Em Edk. rewrite Ebs in Hin, Hout. set (n := Z.of_nat (length bs) * ss) in *.
  destruct Hcr as [Hb0 Hcr]. pose proof Hrun as (Hp & _ & Hpb & Hx & _ & Hsz & _).
  constructor; try done; [by rewrite F3| |].
  2: { intros a Ha. rewrite Edk. apply Hout. intros Hin'. apply Ha. by eapply cut_in. }
  intros j Hj. unfold disk_byte. rewrite F1. fold ss bs n. destruct (Z.ltb_spec j n) as [Hjn|]; [|by destruct (bool_decide _)]. rewrite Edk.
  pose proof (Z.div_mod j 4096 ltac:(lia)) as Ej. pose proof (Z.mod_pos_bound j 4096 ltac:(lia)). case_bool_decide as Hjx.
  - apply elem_of_seqZ in Hjx. cbn. f_equal. replace j with (4096 * x + (j - 4096 * x)) at 1 by lia. unfold bs, ss.
    rewrite <- (run_byte k l alloc p x b) by (done || fold ss; lia). fold ss. rewrite Hin by lia. unfold cached_byte.
    destruct (Hcr (j / 4096 - x) ltac:(lia)) as [E' _]. replace (x + (j / 4096 - x)) with (j / 4096) in E' by lia. rewrite E'.
    rewrite !page_to_pa_alt by lia. f_equal. lia.
  - f_equal. unfold sectors_byte. apply Hout. rewrite Z.div_add_l by lia. rewrite (Z.div_small (j mod ss)) by (apply Z.mod_pos_bound; lia).
    rewrite Z.add_0_r. pose proof (Z.div_mod j ss ltac:(lia)) as Es. pose proof (Z.mod_pos_bound j ss V1).
    assert (0 <= j / ss < Z.of_nat (length bs)) as Hjs by (split; [apply Z.div_pos; lia|apply Z.div_lt_upper_bound; lia]).
    unfold run_sectors. fold ss bs. apply cut_apart; [done|lia|]. intros Hc. apply Hjx, elem_of_seqZ.
    pose proof (vo_sector _ V) as [_ [c Hc4]]. fold ss in Hc4. unfold PGSIZE in Hc4.
    assert (4096 * b / ss * ss = 4096 * b) as Eb by (replace (4096 * b) with (b * c * ss) by nia; by rewrite Z.div_mul by lia).
    assert (4096 * x <= j < 4096 * (x + b)); [nia|lia].
Qed.

Lemma batch_write alloc fuel its k M T l R X Y tabs : (length its <= fuel)%nat -> cache_ok k M T l R X Y tabs -> volume_ok (hsb k) ->
  Forall (item_of M) its -> Forall (fun it => in_file k l alloc (it_index it)) its ->
  let N := (batch_cost k * length its)%nat in
  (batch_loop fuel its DISK_WRITE alloc k = Panic /\ dry PGSIZE N (r_al (tree k))) \/
  exists k' R', batch_loop fuel its DISK_WRITE alloc k = Done k' /\ cache_ok k' M T l R' X Y tabs /\
    (forall q, q ∈ X ∪ Y -> R' !! q = R !! q) /\ uses PGSIZE N (r_al (tree k)) (r_al (tree k')) /\
    pages_written l M k (it_index <$> its) k'.
Proof.
  intros Hf K V Hall Hin. apply (batch_ok pagemeta_start DISK_WRITE alloc M l (pages_written l M)) with (T := T) (R := R); try done.
  - apply pages_written_app.
  - intros k1 xs k2 F. apply F.
  - intros. by eapply run_write.
Qed.

(** ** The dirty pages *)

Definition dirty T : gset Z := fin_sets.set_map snd (filter (fun tx => tx.1 = PAGECACHE_TAG_DIRTY) T).

Lemma dirty_elem T x : x ∈ dirty T <-> (PAGECACHE_TAG_DIRTY, x) ∈ T.
Proof.
  unfold dirty. rewrite elem_of_map. setoid_rewrite elem_of_filter. split; [intros ([t y] & -> & Et & H)|intros H].
  - cbn in *. by subst t.
  - by exists (PAGECACHE_TAG_DIRTY, x).
Qed.

Lemma page_list_add_ok found : forall its k M T l R X Y tabs, cache_ok k M T l R X (item_set its ∪ Y) tabs -> items_ok its Y ->
  (page_list_add pagemeta_start found its k = Panic /\ dry PGSIZE (length found) (r_al (tree k))) \/
  exists its' k' R', page_list_add pagemeta_start found its k = Done (its ++ its', k') /\
    cache_ok k' M T l R' X (item_set (its ++ its') ∪ Y) tabs /\ items_ok (its ++ its') Y /\
    ((fun it => (it_pa it, it_index it)) <$> its') = (fun f => (ptr_to_pa pagemeta_start f.1, f.2)) <$> found /\
    same_file k k' /\ pmem k' = pmem k /\ r_height (tree k') = r_height (tree k) /\ uses PGSIZE (length found) (r_al (tree k)) (r_al (tree k')).
Proof.
  induction found as [|[q x] found IH]; intros its k M T l R X Y tabs K I; cbn [page_list_add].
  { right. exists [], k, R. rewrite app_nil_r. split_and!; try done. constructor. }
  destruct (new_item_ok pagemeta_start Hmeta k M T l R X Y tabs its (ptr_to_pa pagemeta_start q) x K I) as [[-> Hd]|(it & a & R1 & -> & Ep & Ei & K1 & I1 & _ & U1)].
  { left. split; [done|]. eapply dry_le; [exact Hd|done|cbn; lia]. }
  ocbn. destruct (IH (its ++ [it]) (with_alloc a k) M T l R1 X Y tabs K1 I1) as [[-> Hd]|(its' & k' & R' & -> & K' & I' & El & F & Em & Eh & U)].
  { left. split; [done|]. eapply dry_later; [exact U1|exact Hd|cbn; lia]. }
  right. rewrite <- !app_assoc in *. cbn [app] in *. exists (it :: its'), k', R'. split_and!; try done.
  - cbn [fmap list_fmap fst snd]. rewrite Ep, Ei. f_equal. exact El.
  - eapply same_file_trans; [|exact F]. done.
  - cbn [length]. change (S (length found)) with (1 + length found)%nat. by eapply uses_trans.
Qed.

(** The gang lookup finds the dirty pages. *)
Lemma found_dirty k M T l R X Y tabs : cache_ok k M T l R X Y tabs -> exists found,
  radix_tree_general_gang_lookup_elements 0 maxitems_invald (Some PAGECACHE_TAG_DIRTY) (tree k) = Done found /\
  NoDup found.*2 /\ (forall x, x ∈ found.*2 <-> x ∈ dirty T) /\ length found = size (dirty T) /\
  (r_height (tree k) = 0 -> (length found <= 1)%nat) /\
  Forall (fun f => exists p, M !! f.2 = Some p /\ f.1 = page_ptr pagemeta_start p) found.
Proof.
  intros K. pose proof (ck_tree _ _ _ _ _ _ _ _ _ K) as Kt. eexists. split; [eapply gang_ok; [exact Kt| |done]|].
  { intros t [= <-]. by left. }
  set (found := items_in _ _ _ _ _).
  assert (NoDup found.*2) as Hnd.
  { pose proof (items_in_sorted (page_ptr pagemeta_start <$> M) T (Some PAGECACHE_TAG_DIRTY) 0 (2 ^ (6 * r_height (tree k)))) as Hs. fold found in Hs.
    induction Hs as [|x xs Hs IH Hx]; constructor; [|done]. intros Hin. rewrite Forall_forall in Hx. specialize (Hx x Hin). lia. }
  assert (forall x, x ∈ found.*2 <-> x ∈ dirty T) as Hin.
  { intros x. rewrite list_elem_of_fmap, dirty_elem. split.
    - intros (y & -> & Hy). apply items_in_elem in Hy as (_ & _ & Hy). done.
    - intros Hx. destruct (rk_tag _ _ _ _ _ Kt _ _ Hx) as [_ [v Ev]]. destruct (rk_item _ _ _ _ _ Kt _ _ Ev) as (_ & Hr & _).
      exists (v, x). split; [done|]. apply items_in_elem. done. }
  split; [done|]. split; [done|]. split; [|split].
  - rewrite <- (length_fmap snd found), <- (size_list_to_set (C := gset Z)) by done. f_equal. apply set_eq. intros x. by rewrite elem_of_list_to_set.
  - intros E. pose proof (items_in_length (page_ptr pagemeta_start <$> M) T (Some PAGECACHE_TAG_DIRTY) 0 (2 ^ (6 * r_height (tree k)))) as Hl.
    fold found in Hl. rewrite E in Hl. change (2 ^ (6 * 0)) with 1 in Hl. lia.
  - apply Forall_forall. intros f Hf. apply items_in_elem in Hf as (_ & Hv & _). rewrite lookup_fmap in Hv.
    destruct (M !! f.2) as [p|]; [|done]. injection Hv as <-. eauto.
Qed.

(** Writing them back: the tags stay as they are. *)
Lemma writepage_ok k M T l R X Y tabs im alloc : cache_ok k M T l R X Y tabs -> volume_ok (hsb k) -> i_mapping im <> 0 ->
  dirty T <> ∅ -> (forall x, x ∈ dirty T -> in_file k l alloc x) ->
  (mpage_writepage pagemeta_start im alloc k = Panic /\ dry PGSIZE ((1 + batch_cost k) * size (dirty T)) (r_al (tree k))) \/
  exists k' R', mpage_writepage pagemeta_start im alloc k = Done k' /\ cache_ok k' M T l R' X Y tabs /\ pages_written l M k (elements (dirty T)) k' /\
    uses PGSIZE ((1 + batch_cost k) * size (dirty T)) (r_al (tree k)) (r_al (tree k')).
Proof.
  intros K V Him Hd Hin. pose proof (ck_tree _ _ _ _ _ _ _ _ _ K) as Kt.
  unfold mpage_writepage. rewrite (proj2 (Z.eqb_neq (i_mapping im) 0)) by done.
  destruct (found_dirty _ _ _ _ _ _ _ _ K) as (found & Ef & Hnd & Hfx & Hfl & Hf0 & Hff).
  assert (length found <> O) as Hn0 by (rewrite Hfl; intros E; by apply Hd, leibniz_equiv, size_empty_inv).
  assert ((r_height (tree k) =? 0) && (r_rnode (tree k) =? 0) = false) as ->.
  { destruct (Z.eqb_spec (r_height (tree k)) 0) as [E0|]; [|done]. cbn [andb]. destruct found as [|f found]; [done|].
    assert (f.2 ∈ dirty T) as Hx by (apply Hfx; by left). apply dirty_elem in Hx. destruct (rk_tag _ _ _ _ _ Kt _ _ Hx) as [_ [v Ev]].
    destruct (rk_item _ _ _ _ _ Kt _ _ Ev) as ([Hv _] & Hr & _). rewrite E0 in Hr. change (2 ^ (6 * 0)) with 1 in Hr.
    rewrite (rk_root _ _ _ _ _ Kt), E0. cbn [Z.eqb]. replace (f.2) with 0 in Ev by lia. rewrite Ev. by apply Z.eqb_neq. }
  rewrite Ef. ocbn. assert (item_set [] ∪ Y = Y) as EY by set_solver.
  assert (cache_ok k M T l R X (item_set [] ∪ Y) tabs) as K0 by (by rewrite EY).
  destruct (page_list_add_ok found [] k M T l R X Y tabs K0) as [[-> Hdry]|(its & k1 & R1 & -> & K1 & I1 & El & F1 & Em1 & Eh1 & U1)].
  { constructor; [constructor|set_solver|constructor]. }
  { left. split; [done|]. eapply dry_le; [exact Hdry|done|lia]. }
  ocbn. cbn [app] in *. rewrite (proj2 (Z.ltb_lt 0 _)) by lia. ocbn.
  rewrite Eh1. assert ((r_height (tree k) =? 0) && negb (Z.of_nat (length found) =? 1) = false) as ->.
  { destruct (Z.eqb_spec (r_height (tree k)) 0) as [E0|]; [|done]. specialize (Hf0 E0). assert (length found = 1%nat) as -> by lia. done. }
  ocbn. unfold fat32_rw_pages_batch. pose proof (sf_sb _ _ F1) as Es1.
  assert (batch_cost k1 = batch_cost k) as Ec by (unfold batch_cost; by rewrite Es1).
  assert (it_index <$> its = found.*2) as Eix.
  { apply (f_equal (fmap snd)) in El. by rewrite <- !list_fmap_compose in El. }
  assert (length its = length found) as Eln by (apply (f_equal length) in Eix; by rewrite !length_fmap in Eix).
  destruct (batch_write alloc (length its) its k1 M T l R1 X (item_set its ∪ Y) tabs ltac:(done) K1)
    as [[-> Hdry]|(k2 & R2 & -> & K2 & _ & U2 & W)]; rewrite ?Es1; try done.
  { apply Forall_forall. intros it Hit. apply (list_elem_of_fmap_2 (fun it => (it_pa it, it_index it))) in Hit. rewrite El in Hit.
    apply list_elem_of_fmap in Hit as (f & Ep & Hf). injection Ep as Epa Eidx. rewrite Forall_forall in Hff. destruct (Hff f Hf) as (p & E & Eq).
    exists p. rewrite Eidx, Epa, Eq, (ptr_of_page pagemeta_start). done. }
  { apply Forall_forall. intros it Hit. unfold in_file. rewrite Es1. apply Hin, Hfx. rewrite <- Eix. by apply (list_elem_of_fmap_2 it_index). }
  { left. ocbn. split; [done|]. eapply dry_later; [exact U1|exact Hdry|]. rewrite Ec, Eln, <- Hfl. lia. }
  ocbn. destruct (page_list_free_ok pagemeta_start Hmeta its k2 M T l R2 X Y tabs K2 I1) as (k3 & R3 & -> & K3 & _ & F3 & _ & Em3 & U3).
  right. exists k3, R3. split; [done|]. split; [done|]. split.
  - destruct W as [W1 W2 W3 W4 W5 W6]. pose proof F1 as [F11 F12 F13 (F14 & _)]. pose proof F3 as [F31 F32 F33 (F34 & _)]. constructor; try congruence.
    + intros j Hj. rewrite (disk_byte_same k2 k3), W5, (disk_byte_same k k1) by done. rewrite Eix.
      assert (cached_byte k1 M j = cached_byte k M j) as -> by (unfold cached_byte; by rewrite Em1).
      assert (bool_decide (j / 4096 ∈ found.*2) = bool_decide (j / 4096 ∈ elements (dirty T))) as ->; [|done].
      apply bool_decide_ext. by rewrite Hfx, elem_of_elements.
    + intros a Ha. rewrite F33, <- F13. apply W6. by rewrite Es1.
  - eapply uses_le; [eapply uses_trans; [exact U1|eapply uses_trans; [exact U2|eapply (uses_le _ PGSIZE); [exact U3|unfold PGSIZE; lia|done]]]|done|].
    rewrite Ec, Eln, <- Hfl. lia.
Qed.
End sync.

(** ** The properties *)

Section properties.
Context {A : Type} `{PA : !PageAlloc A, OK : !PageAllocOk A} {D : Type} `{DK : !DiskOps D, DOK : !DiskOk D} {U : Type} `{CO : !CopyOps U, COK : !CopyOk U}.
Context (free_mem : A -> Z) (pagemeta_start : Z).
Notation pc := (pc A D).
Implicit Types (k : pc) (R : gmap Z (Z * Z)) (X Y : gset Z) (tabs : gmap (Z * Z) Z) (M : gmap Z Z) (T : gset (Z * Z)) (im : imeta).
Notation cache_ok := (cache_ok pagemeta_start).
Hypothesis (Hmeta : 0 < pagemeta_start < 2 ^ 63 /\ pagemeta_start mod 2 = 0).
Hypothesis (Hfree : forall a, 0 <= free_mem a < 2 ^ 63).

(** C38. Write-back puts the bytes of every dirty page into the file's sectors and changes no other
    byte of the disk, of the file or outside of it; the cache, its bytes and - other than one would want -
    its tags stay as they are.  It only fails when one of the first allocations does: one for every
    dirty page's item and [batch_cost] for its sectors. *)
Theorem writeback_spec k M T l R X Y tabs im alloc : cache_ok k M T l R X Y tabs -> volume_ok (hsb k) -> i_mapping im <> 0 ->
  dirty T <> ∅ -> (forall x, x ∈ dirty T -> in_file k l alloc x) ->
  let run := mpage_writepage pagemeta_start im alloc k in
  (run = Panic /\ dry PGSIZE ((1 + batch_cost k) * size (dirty T)) (r_al (tree k))) \/
  exists k' R', run = Done k' /\ cache_ok k' M T l R' X Y tabs /\ pmem k' = pmem k /\
    (forall j, 0 <= j -> disk_byte k' l j = if bool_decide (j / 4096 ∈ dirty T) then (fun _ => content k M l j) <$> disk_byte k l j else disk_byte k l j) /\
    forall a, a / sector_size (hsb k) ∉ sectors_of (hsb k) l -> dk_byte (disk k') a = dk_byte (disk k) a.
Proof.
  intros K V Him Hd Hin run. destruct (writepage_ok pagemeta_start Hmeta k M T l R X Y tabs im alloc K V Him Hd Hin) as [?|(k' & R' & E & K' & W & _)]; [by left|right].
  exists k', R'. destruct W as [W1 W2 W3 W4 W5 W6]. split_and!; try done. intros j Hj. rewrite W5 by done.
  assert (bool_decide (j / 4096 ∈ elements (dirty T)) = bool_decide (j / 4096 ∈ dirty T)) as -> by (apply bool_decide_ext; by rewrite elem_of_elements).
  case_bool_decide as Hj'; [|done]. apply dirty_elem in Hj'. destruct (rk_tag _ _ _ _ _ (ck_tree _ _ _ _ _ _ _ _ _ K) _ _ Hj') as [_ HM].
  unfold cached_byte, content. rewrite lookup_fmap in HM. destruct (M !! (j / 4096)); [done|]. by destruct HM.
Qed.

(** C39. What was written survives the loss of the cache: after a write and a write-back that
    returned, a read of the range with no page cached (the same volume, disk and file) delivers the bytes that were
    written, wherever it stops: at the end of the range; or earlier, at a page it does not find and for which it
    takes the bytes in front twice from what is left, so that nothing is left (the short read of
    C36), or so little that it would read on behind the end of the file (C34).  Otherwise the copy out
    failed or memory ran out.  This is for files of up to 32 MB, and for pages - those of the range and those that were dirty - that lie wholly in
    the clusters the file has: for others the write-back appends clusters. *)
Theorem written_bytes_survive k M T l R X Y tabs user_src src user_dst dst off n im im' im3 u u1 k1 k2 : cache_ok k M T l R X Y tabs ->
  i_mapping im <> 0 -> is_reg im = true -> 0 <= i_size k < 2 ^ 31 -> 0 <= off -> 0 < n -> off + n < 2 ^ 31 -> 0 <= src -> src + n < 2 ^ 64 ->
  0 <= dst -> dst + n < 2 ^ 64 -> volume_ok (hsb k) -> (forall x, x ∈ dirty T \/ touched off n x -> in_file k l true x) ->
  fat32_inode_write pagemeta_start user_src src off n im k u = Done (n, im', k1) ->
  mpage_writepage pagemeta_start im' true k1 = Done k2 ->
  forall k3 R3 X3 Y3 tabs3, cache_ok k3 ∅ ∅ l R3 X3 Y3 tabs3 -> hsb k3 = hsb k2 -> disk k3 = disk k2 -> i_size k3 = i_size k2 ->
  0 <= read_ahead_cnt (am k3) <= 2 ^ 20 -> i_mapping im3 <> 0 -> may_miss k3 l ->
  let run := fat32_inode_read free_mem pagemeta_start user_dst dst off n im3 k3 u1 in
  ((run = Panic \/ exists r im' k' u', run = Done (r, im', k', u') /\ 0 <= r < n) /\ exhausted free_mem k3) \/
  (exists k4 u4, run = Done (-1, im3, k4, u4) /\ exists dst f len u5 u6, either_copyout user_dst dst f len u5 = (-1, u6)) \/
  (exists r k4 u4, 0 < r <= n /\ run = Done (r, im3, k4, u4) /\ (forall j, 0 <= j < r -> cp_byte u4 (dst + j) = cp_byte u (src + j)) /\
    (r = n \/ exists x, off + r = 4096 * x /\ nothing_left k3 off x)) \/
  exists x k4 u4 more, off < 4096 * x < off + n /\ overruns free_mem k4 off n x /\
    (forall j, 0 <= j < 4096 * x - off -> cp_byte u4 (dst + j) = cp_byte u (src + j)) /\
    do_generic_file_read free_mem pagemeta_start user_dst dst off n k3 u1 =
      read_loop free_mem pagemeta_start (S more) user_dst (dst + (4096 * x - off)) x 0 (4096 * x) (4096 * x - off) n k4 u4.
Proof.
  intros K Him Hreg Hs Ho Hn H31 Hsrc Hs64 Hd Hd64 V Hin E Ew k3 R3 X3 Y3 tabs3 K3 Esb3 Edk3 Esz3 Hra Him3 Hmay run.
  destruct (inode_write_ok pagemeta_start Hmeta k M T l R X Y tabs user_src src off n im u K Him Hreg Hs Ho Hn H31 Hsrc Hs64)
    as [(E' & _)|[(k' & M' & T' & r' & E' & _)|(im1 & k' & M' & T' & E' & Hw & Him1 & _)]]; try (rewrite E' in E; clear E'); [|done| |].
  { intros x Hx _. right. split; [done|]. apply Hin. by right. }
  { injection E. lia. }
  injection E as <- <-. destruct (wr_cache _ _ _ _ _ _ _ _ _ _ _ _ _ Hw) as (R' & X' & tabs' & K').
  pose proof (wr_sb _ _ _ _ _ _ _ _ _ _ _ _ _ Hw) as Esb.
  set (k1 := with_size _ k') in *. pose proof (cache_size _ _ _ _ _ _ _ _ _ (Z.max (i_size k) (off + n)) K') as K1. fold k1 in K1.
  assert (forall x, touched off n x -> x ∈ dirty T') as Ht.
  { intros x [Hx1 Hx2]. apply dirty_elem, (wr_tags _ _ _ _ _ _ _ _ _ _ _ _ _ Hw). right. split_and!; try done.
    pose proof (Z.div_mod (off + n - 1) 4096 ltac:(lia)). pose proof (Z.mod_pos_bound (off + n - 1) 4096 ltac:(lia)). lia. }
  assert (forall x, x ∈ dirty T' -> in_file k1 l true x) as Hin1.
  { intros x Hx%dirty_elem. unfold in_file. change (hsb k1) with (hsb k'). rewrite Esb. apply Hin.
    apply (wr_tags _ _ _ _ _ _ _ _ _ _ _ _ _ Hw) in Hx as [Hx|(_ & _ & Hx1 & Hx2)]; [left; by apply dirty_elem|right].
    split; [done|]. apply Z.div_le_lower_bound; lia. }
  destruct (writepage_ok pagemeta_start Hmeta k1 M' T' l R' X' Y tabs' im1 true K1) as [[Ep _]|(k2' & R2 & Ep & K2 & W & _)]; rewrite ?Ep in Ew; try done.
  { change (hsb k1) with (hsb k'). by rewrite Esb. } { by rewrite Him1. }
  { intros Hemp. assert (off / 4096 ∈ dirty T') as Hx by (apply Ht; split; [done|apply Z.div_le_mono; lia]). rewrite Hemp in Hx. set_solver. }
  injection Ew as ->. destruct W as [W1 W2 W3 W4 W5 W6].
  assert (readable k3 off n = n) as Em by (unfold readable; rewrite Esz3, W2; unfold k1; cbn [i_size with_size]; lia).
  assert (0 <= i_size k3 < 2 ^ 31) as Hs3 by (rewrite Esz3, W2; unfold k1; cbn [i_size with_size]; lia).
  assert (forall r u4, 0 < r <= n -> delivered (content k3 ∅ l) dst off r u1 u4 -> forall j, 0 <= j < r -> cp_byte u4 (dst + j) = cp_byte u (src + j)) as Hbytes.
  { intros r u4 Hr H j Hj. rewrite H.
    rewrite (proj2 (Z.leb_le dst _)), (proj2 (Z.ltb_lt (dst + j) _)) by lia. cbn [andb]. replace (off + (dst + j - dst)) with (off + j) by lia.
    assert (touched off n ((off + j) / 4096)) as Hjt by (split; apply Z.div_le_mono; lia).
    unfold content. rewrite lookup_empty. unfold fresh_byte. assert (disk_byte k3 l (off + j) = disk_byte k2 l (off + j)) as -> by (unfold disk_byte; by rewrite Esb3, Edk3).
    rewrite W5 by lia. rewrite bool_decide_eq_true_2 by (by apply elem_of_elements, Ht).
    destruct (wrote_bytes _ _ _ _ _ _ _ _ _ _ _ _ _ (off + j) Hw Ho ltac:(lia)) as (p & Epj & Hb).
    unfold cached_byte. rewrite Epj. change (pmem k1) with (pmem k'). rewrite Hb. replace (off + j - off) with j by lia.
    assert (is_Some (disk_byte k1 l (off + j))) as [c ->]; [|done].
    destruct (Hin1 _ (Ht _ Hjt)) as (_ & _ & [?|Hfit]); [done|]. unfold disk_byte. change (hsb k1) with (hsb k') in *. rewrite Esb in *.
    rewrite sectors_of_length by apply (vo_cluster _ V). pose proof (Z.div_mod (off + j) 4096 ltac:(lia)). pose proof (Z.mod_pos_bound (off + j) 4096 ltac:(lia)).
    rewrite (proj2 (Z.ltb_lt _ _)) by lia. eauto. }
  destruct (inode_read_ok free_mem pagemeta_start Hmeta Hfree k3 ∅ ∅ l R3 X3 Y3 tabs3 user_dst dst off n im3 u1 K3 Hra Him3 Hs3 Ho ltac:(lia) ltac:(lia) Hd Hd64 ltac:(done))
    as [(_ & H1 & H2 & _)|[(k4 & u4 & M4 & E4 & _ & H)|[(x & k4 & u4 & M4 & E4 & [_ _ Hx Hb] & Hno)|[(x & k4 & u4 & M4 & more & [_ _ Hx Hb] & Hov & E4)|(k4 & u4 & M4 & E4 & _ & H)]]]];
    rewrite ?Em in *.
  - by left.
  - right; left. by exists k4, u4.
  - right; right; left. exists (4096 * x - off), k4, u4. split; [lia|]. split; [done|]. split; [apply Hbytes; [lia|done]|].
    right. exists x. split; [lia|done].
  - right; right; right. exists x, k4, u4, more. split; [done|]. split; [done|]. split; [apply Hbytes; [lia|done]|done].
  - right; right; left. exists n, k4, u4. split; [lia|]. split; [done|]. split; [apply Hbytes; [lia|done]|by left].
Qed.
End properties.

(** ** A file of three pages

    The clusters 2, 3 and 5 of a volume with eight sectors to a cluster. *)

Definition page_fat : fat_sb := Sb 512 130 8 1 1 1 13 6 true false (47 :: replicate 511 0) demo_table.
Definition page_pc (size : Z) (d : Z -> Z) : pc spare (Z -> Z) :=
  Pc (RT 0 0 0 ∅ demo_used) (Amap 0 0 0 0) demo_ino page_fat ∅ size (const 7) d.

Lemma page_volume : volume_ok page_fat.
Proof. constructor; cbn; try lia. split; [lia|]. by exists 8. Qed.

Lemma page_chain : chain page_fat 2 [2; 3; 5].
Proof.
  cbn [chain]. change (FAT_CLUSTER_MAX page_fat) with 17. split_and!; try done; try lia. exists 3. split_and!; try done; try lia.
  exists 5. split_and!; try done; try lia. by exists EOC.
Qed.

Lemma page_cache size d : cache_ok demo_meta (page_pc size d) ∅ ∅ [2; 3; 5] demo_used ∅ ∅ ∅.
Proof.
  constructor; try done.
  - rewrite fmap_empty. apply (radix_init_ok (A := spare) (RT 0 0 0 ∅ demo_used) demo_used 0); [exact demo_used_rep|lia].
  - destruct (index_empty_ok demo_new (FatSt page_fat ∅ demo_used) demo_used demo_empty demo_used_rep) as (K & Dn & Hz).
    destruct (load_ok demo_new (FatSt page_fat ∅ demo_used) demo_used [2; 3; 5] K Hz Dn page_chain) as [[E _]|(ip & s & R & E & K' & _)];
      [done|by vm_compute|vm_compute in E; discriminate E|].
    assert (load_clusters demo_new (FatSt page_fat ∅ demo_used) = Done (demo_ino, FatSt page_fat ∅ demo_used)) as E' by (vm_compute; reflexivity).
    rewrite E' in E. injection E as <- <-. destruct (ix_alloc _ _ _ (fo_index _ _ _ _ K')) as [<- _]. exact K'.
Qed.

(** A hundred bytes at offset 10. *)
Lemma page_write : exists im k M T, fat32_inode_write demo_meta 0 5000 10 100 demo_im (page_pc 0 (fun a => a mod 251)) (fun a => a mod 17) = Done (100, im, with_size 110 k) /\
  wrote demo_meta (page_pc 0 (fun a => a mod 251)) ∅ ∅ [2; 3; 5] ∅ 10 100
    (written 10 100 (fun j => (5000 + j) mod 17) (left_over (page_pc 0 (fun a => a mod 251)) ∅ [2; 3; 5] 10 100)) 100 k M T /\ i_mapping im = 0x1000.
Proof.
  destruct (inode_write_ok demo_meta demo_meta_ok (page_pc 0 (fun a => a mod 251)) ∅ ∅ [2; 3; 5] demo_used ∅ ∅ ∅ 0 5000 10 100 demo_im (fun a => a mod 17)
    (page_cache 0 _) ltac:(done) eq_refl ltac:(cbn; lia) ltac:(lia) ltac:(lia) ltac:(lia) ltac:(lia) ltac:(lia))
    as [(E & _)|[(k & M & T & r & _ & _ & s & len & Ec)|(im & k & M & T & E & Hw & Him & _)]].
  - intros x [Hx1 Hx2] _. left. change (10 / 4096) with 0 in Hx1. change ((10 + 100 - 1) / 4096) with 0 in Hx2. assert (x = 0) as -> by lia. by vm_compute.
  - apply (f_equal (returned (fun x => x.1.1))) in E. vm_compute in E. discriminate E.
  - discriminate Ec.
  - exists im, k, M, T. done.
Qed.

Lemma page_in_file (k : pc spare (Z -> Z)) : hsb k = page_fat -> in_file k [2; 3; 5] true 0.
Proof. intros E. unfold in_file. rewrite E. cbn. split; [lia|]. split; [lia|right; lia]. Qed.

(** The dirty page after it, and the run of the write-back. *)
Lemma page_dirty k M T c : wrote demo_meta (page_pc 0 (fun a => a mod 251)) ∅ ∅ [2; 3; 5] ∅ 10 100 c 100 k M T -> forall x, x ∈ dirty T <-> x = 0.
Proof.
  intros Hw x. rewrite dirty_elem, (wr_tags _ _ _ _ _ _ _ _ _ _ _ _ _ Hw). change (10 / 4096) with 0. set_unfold. split.
  - intros [[]|(_ & _ & ? & ?)]. lia.
  - intros ->. right. split_and!; done.
Qed.

Lemma page_synced im k : fat32_inode_write demo_meta 0 5000 10 100 demo_im (page_pc 0 (fun a => a mod 251)) (fun a => a mod 17) = Done (100, im, k) ->
  mpage_writepage demo_meta im true k <> Panic.
Proof.
  intros E Hp. assert (returned (fun _ => 1) ('(_, im, k) ← fat32_inode_write demo_meta 0 5000 10 100 demo_im (page_pc 0 (fun a => a mod 251)) (fun a => a mod 17);
    mpage_writepage demo_meta im true k) = Some 1) as H by (vm_compute; reflexivity).
  rewrite E in H. ocbn_in H. rewrite Hp in H. discriminate H.
Qed.

Lemma bind_done {B C} (x : B) (f : B -> outcome C) : (Done x ≫= f) = f x.
Proof. done. Qed.

Lemma page_read im k k2 : fat32_inode_write demo_meta 0 5000 10 100 demo_im (page_pc 0 (fun a => a mod 251)) (fun a => a mod 17) = Done (100, im, with_size 110 k) ->
  mpage_writepage demo_meta im true (with_size 110 k) = Done k2 ->
  returned (fun x => x.1.1.1) (fat32_inode_read demo_mem demo_meta 0 9000 10 100 demo_im (page_pc 110 (disk k2)) (const 2)) = Some 100.
Proof.
  intros E Ep. assert (returned (fun x => x.1.1.1) ('(_, im, k) ← fat32_inode_write demo_meta 0 5000 10 100 demo_im (page_pc 0 (fun a => a mod 251)) (fun a => a mod 17);
    k2 ← mpage_writepage demo_meta im true k; fat32_inode_read demo_mem demo_meta 0 9000 10 100 demo_im (page_pc 110 (disk k2)) (const 2)) = Some 100) as H
    by (vm_compute; reflexivity).
  rewrite E, bind_done in H. cbv beta iota in H. rewrite Ep, bind_done in H. exact H.
Qed.

Lemma writeback_spec_witness : exists im (k k' : pc spare (Z -> Z)) M, mpage_writepage demo_meta im true k = Done k' /\
  disk_byte k' [2; 3; 5] 50 = Some (content k M [2; 3; 5] 50) /\ disk k' 0 = 0.
Proof.
  destruct page_write as (im & k & M & T & E & Hw & Him). destruct (wr_cache _ _ _ _ _ _ _ _ _ _ _ _ _ Hw) as (R & X & tabs & K).
  pose proof (wr_sb _ _ _ _ _ _ _ _ _ _ _ _ _ Hw) as Esb. pose proof (page_dirty _ _ _ _ Hw) as Hd. change (hsb (page_pc 0 _)) with page_fat in Esb.
  destruct (writeback_spec demo_meta demo_meta_ok (with_size 110 k) M T [2; 3; 5] R X ∅ tabs im true (cache_size _ _ _ _ _ _ _ _ _ 110 K))
    as [[Ep _]|(k' & R' & Ep & _ & _ & Hf & Hr)].
  - change (hsb (with_size 110 k)) with (hsb k). rewrite Esb. exact page_volume.
  - by rewrite Him.
  - intros Hemp. assert (0 ∈ dirty T) as H0 by (by apply Hd). rewrite Hemp in H0. by apply not_elem_of_empty in H0.
  - intros x ->%Hd. by apply page_in_file.
  - by apply page_synced in Ep.
  - exists im, (with_size 110 k), k', M. split; [exact Ep|]. split.
    + rewrite Hf by lia. rewrite bool_decide_eq_true_2 by (by apply Hd). unfold disk_byte. change (hsb (with_size 110 k)) with (hsb k). rewrite Esb. reflexivity.
    + change (hsb (with_size 110 k)) with (hsb k) in Hr. rewrite Esb in Hr. etransitivity; [apply (Hr 0), (bool_decide_eq_false_1 _); vm_compute; reflexivity|].
      change (disk (with_size 110 k)) with (disk k). rewrite (wr_disk _ _ _ _ _ _ _ _ _ _ _ _ _ Hw). reflexivity.
Defined.

Lemma written_bytes_survive_witness : exists im k1 k2 k3 u, fat32_inode_write demo_meta 0 5000 10 100 demo_im (page_pc 0 (fun a => a mod 251)) (fun a => a mod 17) = Done (100, im, k1) /\
  mpage_writepage demo_meta im true k1 = Done k2 /\
  fat32_inode_read demo_mem demo_meta 0 9000 10 100 demo_im (page_pc 110 (disk k2)) (const 2) = Done (100, demo_im, k3, u) /\ u 9050 = 5050 mod 17.
Proof.
  destruct page_write as (im & k & M & T & E & Hw & Him). destruct (wr_cache _ _ _ _ _ _ _ _ _ _ _ _ _ Hw) as (R & X & tabs & K).
  pose proof (wr_sb _ _ _ _ _ _ _ _ _ _ _ _ _ Hw) as Esb. pose proof (page_dirty _ _ _ _ Hw) as Hd. change (hsb (page_pc 0 _)) with page_fat in Esb.
  destruct (writepage_ok demo_meta demo_meta_ok (with_size 110 k) M T [2; 3; 5] R X ∅ tabs im true (cache_size _ _ _ _ _ _ _ _ _ 110 K))
    as [[Ep _]|(k2 & R' & Ep & _ & W & _)].
  - change (hsb (with_size 110 k)) with (hsb k). rewrite Esb. exact page_volume.
  - by rewrite Him.
  - intros Hemp. assert (0 ∈ dirty T) as H0 by (by apply Hd). rewrite Hemp in H0. by apply not_elem_of_empty in H0.
  - intros x ->%Hd. by apply page_in_file.
  - by apply page_synced in Ep.
  - assert (hsb k2 = page_fat) as Esb2 by (rewrite (pw_sb _ _ _ _ _ W); exact Esb).
    assert (i_size k2 = 110) as Esz2 by (rewrite (pw_size _ _ _ _ _ W); reflexivity).
    pose proof (page_read im k k2 E Ep) as H.
    destruct (written_bytes_survive demo_mem demo_meta demo_meta_ok demo_mem_ok (page_pc 0 (fun a => a mod 251)) ∅ ∅ [2; 3; 5] demo_used ∅ ∅ ∅ 0 5000 0 9000 10 100
      demo_im im demo_im (fun a => a mod 17) (const 2) (with_size 110 k) k2 (page_cache 0 _) ltac:(done) eq_refl ltac:(cbn; lia) ltac:(lia) ltac:(lia) ltac:(lia) ltac:(lia) ltac:(lia) ltac:(lia) ltac:(lia)
      page_volume) with (k3 := page_pc 110 (disk k2)) (R3 := demo_used) (X3 := (∅ : gset Z)) (Y3 := (∅ : gset Z)) (tabs3 := (∅ : gmap (Z * Z) Z))
      as [([Er|(r & im' & k' & u' & Er & Hr)] & _)|[(k4 & u4 & _ & dst & f & len & u5 & u6 & Ec)|[(r & k4 & u4 & Hr & Er & Hb & _)|(x & _ & _ & _ & Hx & _)]]].
    + intros x [Hx|[Hx1 Hx2]]; [destruct (not_elem_of_empty _ (proj1 (dirty_elem _ _) Hx))|]. change (10 / 4096) with 0 in Hx1. change ((10 + 100 - 1) / 4096) with 0 in Hx2.
      assert (x = 0) as -> by lia. by apply page_in_file.
    + exact E.
    + exact Ep.
    + apply page_cache.
    + by rewrite Esb2.
    + done.
    + by rewrite Esz2.
    + cbn. lia.
    + done.
    + split; [exact page_volume|]. cbn. lia.
    + rewrite Er in H. discriminate H.
    + rewrite Er in H. cbn in H. injection H as ->. lia.
    + discriminate Ec.
    + rewrite Er in H. cbn in H. injection H as ->.
      exists im, (with_size 110 k), k2, k4, u4. split; [exact E|]. split; [exact Ep|]. split; [exact Er|]. exact (Hb 50 ltac:(lia)).
    + lia.
Defined.
